(* ===== verification/_CoqProject ===== *)
-Q . S2P
Prelude.v
Text.v
Net.v
Paths.v
AuditActions.v
AuditLog.v
Accounts.v
CronJobs.v
BackupRuns.v
Float64.v
Plans.v
Maintenance.v
HostingTables.v
Store.v
Users.v
Identity.v
Secrets.v
Factors.v
FactorRepo.v
Remember.v
TwoFactor.v
TwoFactorKept.v
TwoFactorSafety.v
Demo.v
Hierarchy.v
HierarchyInvariant.v
HierarchyLinks.v
HierarchyTree.v
HierarchyPools.v
IpPools.v
Sites.v
Collaborators.v
ApiTokens.v
TokenService.v
Staging.v
StagingChanges.v
Parts.v
PlanService.v
PlanTheorems.v
PlanResolver.v
MaintenanceService.v
LoadBalancing.v
Quotas.v
Databases.v
DatabaseSql.v
Pitr.v
DatabaseChanges.v
DatabaseTheorems.v
FileSystem.v
Files.v
FileTree.v
FilesSafety.v
FilesTheorems.v
BackupArchive.v
ArchiveTheorems.v
StagingSafety.v
CollaboratorTheorems.v
StagingTheorems.v
SitesTheorems.v
TokenSafety.v
TokenCodec.v
TokenTheorems.v
Cron.v
CronSafety.v
CronTheorems.v
Backups.v
BackupChanges.v
BackupTheorems.v
Registry.v
RegistrySafety.v
RegistryTheorems.v
Witnesses.v
HostingWitnesses.v
TokenWitnesses.v
OpsWitnesses.v
DatabaseWitnesses.v
FilesWitnesses.v
BackupWitnesses.v
