(* ===== verification/Prelude.v ===== *)
(** * A verification development for OpenPanel

    OpenPanel is a hosting control panel.  Its bounded contexts have one shape: a
    domain module of value objects and entities ([crates/openpanel-domain]), a service
    of operations and a SQLite repository ([crates/openpanel-app]), and the shared
    infrastructure, the audit log among it ([crates/openpanel-core]).  The HTTP API,
    web and command-line crates call the services.

    This library models the audit log and seventeen contexts: identity (users, sessions,
    login, two-factor authentication), the account hierarchy (parents, children, quota
    pools), address pools, sites, site staging, cron, the container registry, API
    tokens, collaborators, hosting plans, maintenance windows, load balancing, quotas,
    the file manager, databases, point-in-time recovery and backups.
    Definitions keep the names of the Rust functions, with a prefix where two contexts
    use one name.  They are executable: [Witnesses], [HostingWitnesses],
    [TokenWitnesses], [OpsWitnesses], [FilesWitnesses], [DatabaseWitnesses] and
    [BackupWitnesses] run them on a concrete installation.

    ** Files

    - [Prelude]: results, the state-and-error monad, machine integers, lists as
      tables, the reasoning principle for monadic programs.
    - [Text]: [str], [char] and integer parsing as the code uses them; [Net]:
      the parser of [std::net::IpAddr]; [Paths]: [std::path] on Unix (components, [join],
      [starts_with], [parent]).
    - [AuditActions]: [core/src/audit/action.rs] and the name parser of [sqlite.rs].
    - [AuditLog]: [core/src/audit/] [mod.rs] (events, views), [redaction.rs],
      [cursor.rs] (with its own base64 codec), [sqlite.rs] (paged queries).
    - [Accounts]: [domain/src/common/] (username, email, password) and
      [domain/src/identity/] (roles, users, sessions, errors).
    - [Store]: the database, the outside world, and the audit writer.
    - [Users]: [app/src/identity/repo.rs], the user and session repositories, and the
      invariant [accounts_wf] of the account tables.
    - [Identity]: [app/src/identity/service.rs], against the interface
      [TwoFactorService].
    - [Secrets]: [app/src/databases/crypto.rs], the envelope of stored secrets.
    - [Factors]: [domain/src/identity/factor.rs]; [FactorRepo]:
      [app/src/identity/factor_repo.rs]; [Remember]: [domain/src/identity/remember.rs]
      and [app/src/identity/remember_device.rs].
    - [TwoFactor]: [app/src/identity/two_factor.rs], whose methods implement
      [TwoFactorService]; its second part proves the frame condition that the login
      theorems assume of it.  [TwoFactorKept] lists what the operations can do to the
      second-factor tables (class [Stable]) and shows that every sequence of identity
      and two-factor operations keeps a [Stable] property; [TwoFactorSafety] has
      the theorems, those on enrollment at its end.
    - [Hierarchy]: [domain/src/account_hierarchy/mod.rs] and
      [app/src/account_hierarchy/] [repo.rs], [service.rs].  Its theorems are in
      [HierarchyInvariant], [HierarchyLinks] (attach, detach, create, ancestor walk),
      [HierarchyTree] (the tree, the cycle walk) and [HierarchyPools].
    - [IpPools]: [domain/src/ip_allocation/mod.rs] and [app/src/ip_allocation/]
      [repo.rs], [service.rs].
    - [HostingTables]: the rows of the hosting contexts, part of [Store.Db].
    - [Sites]: [domain/src/sites/] and [app/src/sites/] [repo.rs], [service.rs].
      [SitesTheorems] joins the identity, hierarchy, site, staging, database and recovery
      operations in one step relation.
    - [Staging]: [domain/src/site_staging/] and [app/src/site_staging/].
      [StagingChanges] lists what site and staging operations can do to the tables and
      shows that a property every such change keeps is kept by every sequence of them;
      [StagingSafety] has the invariant and what single methods do, [StagingTheorems]
      the theorems.
    - [CronJobs]: [domain/src/cron/] [mod.rs], [scope.rs]; [Cron]:
      [app/src/cron/service.rs]; [CronSafety]: the invariant and the step relation with
      executions in flight; [CronTheorems].
    - [Registry]: [domain/src/container_registry/] and [app/src/container_registry/],
      with retention against a reference definition; [RegistrySafety] (the
      accounting invariant), [RegistryTheorems].
    - [Collaborators]: [domain/src/collaborators/] and [app/src/collaborators/];
      [CollaboratorTheorems]: the invariant of its tables and the theorems.
    - [Float64]: binary64 numbers ([SpecFloat]) with the operations of the rate limiter;
      [ApiTokens]: [domain/src/api_tokens/mod.rs]; [TokenService]:
      [app/src/api_tokens/] [repo.rs], [service.rs]; [TokenSafety]: what token operations
      can do to the table; [TokenCodec] (credentials, networks, rate limit) and
      [TokenTheorems] have the theorems.
    - [Parts]: the interface [Part] of a context that keeps its tables in one field of
      [HostingTables], with the statements and the reasoning such contexts share.
    - [Plans]: [domain/src/hosting_plans/mod.rs]; [PlanService]: [app/src/hosting_plans/]
      [repo.rs], [service.rs]; [PlanTheorems]: the invariant; [PlanResolver]: the cached
      resolver, assignment and deletion, and plans of child accounts.
    - [Maintenance]: [domain/src/maintenance_windows/mod.rs]; [MaintenanceService]:
      [app/src/maintenance_windows/] [repo.rs], [service.rs], with its theorems.
    - [LoadBalancing]: [domain/src/load_balancing/mod.rs] and [app/src/load_balancing/]
      [repo.rs], [service.rs], with its theorems.
    - [Quotas]: [domain/src/quotas/mod.rs] and [app/src/quotas/] [repo.rs], [service.rs],
      with its theorems.
    - [FileSystem]: the tree of files and links, the resolution of paths, and the system calls
      behind [std::fs]; [Files]: [domain/src/files/] and [app/src/files/] [repo.rs],
      [service.rs]; [FileTree]: texts of locations, well-formed trees, lemmas on resolution;
      [FilesSafety]: what the calls change on a root without links; [FilesTheorems].
    - [Databases]: [domain/src/databases/] and [app/src/databases/] [repo.rs], [mysql.rs],
      [service.rs]; [DatabaseSql]: a reader for the statements of the MySQL client; [Pitr]:
      [domain/src/db_pitr/] and [app/src/db_pitr/] [in_memory.rs], [repo.rs],
      [incremental.rs], [service/mod.rs]; [DatabaseChanges] lists what the operations of the
      two services can do to their tables; [DatabaseTheorems].
    - [BackupRuns]: [domain/src/backups/mod.rs]; [BackupArchive]: the archive format, its
      writer and its extraction, from [app/src/backups/service.rs]; [ArchiveTheorems];
      [Backups]: the rest of that file, the backup service; [BackupChanges] lists what its
      operations can do to the tables of plans, runs and restore jobs; [BackupTheorems].
    - [Demo]: a concrete clock, generator, hash and cipher, with the laws assumed of
      them; [Witnesses], [HostingWitnesses], [TokenWitnesses],
      [OpsWitnesses], [FilesWitnesses], [DatabaseWitnesses], [BackupWitnesses]: tables and
      trees on which the hypotheses hold.

    ** How state and effects are modelled

    The state of the program is its database.  [Store.Db] has one list of rows per
    table, in insertion order; each repository method is a statement over it, with the
    [UNIQUE], [CHECK] and [FOREIGN KEY] constraints and the cascades of the migrations.
    A service method is a computation [M World E A := World -> result A E * World], so
    that an early return keeps the effects made before it.  [World] pairs the database
    with a counter of interactions.  The class [Env] holds what comes from outside:
    the clock, random uuids and tokens, argon2, and [sql_fault], which lets any
    statement fail.  The theorems hold for every [Env]; a theorem about what happens
    when statements do not fail says so with the hypothesis
    [forall k, sql_fault k = None].

    A Rust [String] is its UTF-8 bytes.  A [u64] or [i64] is a [Z] with the casts and
    saturation of the code written out; [INTEGER] columns hold an [i64].  A [Uuid] is a
    number and a [DateTime] a number of nanoseconds.  The columns that store them as text
    are kept as values: the code always writes them with one printer and parses them
    back, and its timestamps are in UTC.  The audit query compares timestamps as text;
    for UTC timestamps with four-digit years the order of the texts is the order of the
    instants, also with different numbers of fractional digits, since [+] sorts before
    [.] and before the digits.  The cursor codec keeps the text and takes
    [chrono]'s printer and parser as parameters, with their round trip as a named
    hypothesis.

    The crates of the second factors are classes too: [Vault] (AES-GCM, hex, base64),
    [FactorCrypto] ([totp_rs], bcrypt), [CookieCrypto] (HMAC, SHA-256, base64url,
    serde_json) and [TwoFactorCrypto] (the trait around [webauthn-rs]).  Where a theorem
    needs their documented behaviour it takes [VaultLaws] or [CookieLaws], which [Demo]
    satisfies.  [TwoFactorConfig] holds the master key and the settings.  That a used
    identifier is not drawn again from [Uuid::new_v4] from some step on is a hypothesis of
    the theorems that need it; the draws before that step, that of the identifier itself
    among them, are not restricted.

    What the hosting contexts call is a class as well, holding what the [k]-th call
    answered: [Nginx] (the configuration generator and the provisioner of document roots), [StagingFs] (rsync and the switch of
    document roots), [Scheduler] (time zones and the cron crate), [Executor] (the processes
    and requests of a job), [BlobStore] (which storage calls fail) and [ScanHook].
    [SqliteTime] is SQLite's [datetime] function.  [SchedulerLaws] (an occurrence is later
    than the instant asked for) and [SqliteTimeLaws] (whole seconds, monotone) state what
    they document.  [TokenEnv] is the random source of credentials and the monotonic clock
    of the rate limiter, with [TokenLaws] (15 random bytes; SHA-256 has 32 bytes).  The
    buckets of the limiter and the cache of the plan service, which live in memory, are
    fields of [HostingTables].  A theorem that needs the clock to move on between two
    readings says so with the hypothesis that [utc_now] is strictly increasing.  A guard that releases the lock of a site when it is dropped spawns the
    release; the model runs it at the end of the scope.

    The [mysql] command is the class [MysqlCli]: whether its binary exists, and how a run of
    it ends given the statements it was handed before.  The statements it reported on are
    recorded in [dt_mysql], so that theorems can speak of what MySQL was told;
    [sql_tokens] reads them by MySQL's documented lexical rules.  The segments of
    point-in-time recovery are in the in-memory sink, a field of [HostingTables]; log
    tailers are in [PitrEnv].

    The file manager also changes the file system: [FilesWorld] pairs [World] with a tree, a
    finite map from locations to files, directories and links, and its methods are
    computations over both.  [walk] resolves a path as the kernel and [realpath] do, with
    the limit of forty links, so it needs no fuel.  The class [FsEnv] says which calls fail
    although the tree would allow them, how far a failed write or removal got, and what the
    file system keeps by itself (sizes and times of directories, the order of a listing,
    of which [FsLaws] assumes that it lists each entry once).  Failures of [realpath] are
    kept apart ([realpath_fault]), because [resolve_path] takes them for a missing file.
    Hard links, devices and mount points are not represented; limits on names and
    permissions are among the failures.

    The backup service works on the same [FilesWorld].  The class [BackupEnv] holds what it
    calls: [walkdir], [serde_json] for the manifest, [mysqldump] and [current_exe].
    [WalkLaws] states what [walkdir] documents (a walk without an error lists every regular
    file below its root, and only those, as files) and [DigestLaws] that a SHA-256 digest is 64
    lower-case digits.  The payload columns, JSON texts of plans and runs, are kept as the
    records they encode.  Archives are lists of bytes; a file is read and written by one
    call each, so a failure leaves it empty or cut anywhere.

    Services run their statements without a transaction, except
    [replace_recovery_codes], the rotation of a token and [insert_assignment] of a plan,
    whose transaction restores the tables when a statement or the commit fails ([Store.in_transaction]).  A sequence
    of operations is modelled as a step relation or a list of operations; a single
    operation is not interleaved with another, except in cron, where a job runs for long:
    [run_now] is split into looking the job up, storing the run, and ending it, and
    [cron_step] interleaves these parts of any number of requests with recoveries,
    crashes and job administration.  [authenticate] of a token is written as its checks and
    the write of the use, so that [stale_use_revives_token] can run a revocation in between, and [gate] of a
    maintenance window as its reads and its write, for [override_spent_twice].

    ** Fuel

    [append_children] and [would_cycle] recurse over links that a cycle makes
    infinite, so they take fuel and answer [None] when it ends.  [tree_correct]
    proves that on an acyclic hierarchy the number of accounts is enough,
    [would_cycle_correct] that some fuel is, and [attach_builds_cycle] that on a
    cycle none is.  [path_exists] has its own bound in the code, 1025 lookups.
    [allocate] tries 64 candidates.  The inner loop of the base-32 encoder has two
    turns, enough for the at most twelve bits that wait; so has the one of the credentials.
    The iterator over a permission set has eight, one for each bit of a [u8].  The
    extraction of an archive has one turn more than the archive has bytes, and each turn
    reads at least four.

    ** What the theorems show

    - Invariants over all sequences of operations, with statements failing anywhere:
      the account tables ([account_tables_invariant], and with sites, staging, databases and
      recovery [panel_tables_invariant]), the site and staging tables
      ([staging_tables_invariant]), the cron tables ([cron_tables_invariant]), the
      accounting of the registry ([stored_bytes_within_quota]), the address tables
      ([ip_tables_invariant]), the pools ([pools_never_overcommitted]), the held
      addresses ([ip_holder_kept]), the second-factor tables
      ([factor_tables_invariant]).
    - Second factors, over the same sequences: a pending login completes once
      ([challenge_single_use]), a time step and a recovery code count once
      ([totp_step_once], [recovery_code_once]), a revoked factor never counts again
      ([revoked_factor_rejected]), and a password alone opens no session for an account
      that has a factor ([login_requires_factor]).  Single operations:
      [enrollment_activates], [remember_device_exact], [ip_prefix_v4],
      [envelope_roundtrip], [totp_code_reused], [revoke_again_keeps_passkeys].
    - Login and sessions: [login_checks], [resolve_session_exact] (the answers and the
      sessions that are left, given by the relation [resolves], also when statements fail), [login_then_resolve], [disable_user_locks_out],
      [logout_ends_session], [delete_user_effect], [create_user_stores],
      [change_password_unknown].
    - Hierarchy: [attach_child_exact], [hierarchy_records_agree],
      [create_child_spec], [tree_correct], [would_cycle_correct],
      [path_exists_exact], [check_pool_claim_spec], [set_pool_below_claims],
      [reattach_refused], [attach_builds_cycle].
    - Addresses: [allocate_exact], [rebind_exact], [validate_cidr_v4_spec],
      [allocated_outside_network].
    - Audit: [redaction_spec], [audit_page_exact], [paging_drops_boundary_row],
      [cursor_roundtrip], [base64_roundtrip], [recorded_event_roundtrip].

    - Sites and staging: [create_site_all_or_nothing], [slot_root_contained],
      [production_root_accepted], [promote_checks], [finished_promotion_frozen],
      [busy_site_refused], [sync_takes_next], [recreated_slot_never_syncs].
    - Cron: a job has one execution in flight ([cron_no_overlap]) until it outlives its
      lease ([expired_lease_overlaps]); a tick leaves no job due ([tick_advances_due]).
    - Registry: [retention_apply_exact], [retention_forgets_images],
      [create_namespace_takes_over], [namespace_paths].
    - API tokens: [created_token_policy], [authenticate_checks], [rotate_exact]; a revoked or
      rotated token stays refused over every sequence of complete requests
      ([revoked_token_rejected]), but a use that overtakes the revocation undoes it
      ([stale_use_revives_token]); [credential_roundtrip], [cidr_v4_exact],
      [rate_limit_burst].
    - Collaborators: [revoked_grant_gone], [access_held_by_invited] (invitations are never
      accepted, and the resolver does not ask), [permission_set_exact].
    - Hosting plans: the tables ([plan_tables_invariant]); the cached resolver answers what
      the tables grant ([effective_exact], a refinement; [effective_staleness] without
      assumptions on the history); [assign_takes_effect]; [delete_plan_exact]; where it does
      not: [async_miss_hides_plan], [initial_plan_not_in_force].
    - Maintenance windows: [windows_stay_apart], [gate_passes_iff], [override_single_use] over
      complete requests, and [override_spent_twice] for two requests at once.
    - Load balancing: [next_member_exact], [traffic_to_healthy], [probe_history] (a member's
      state as a function of the probes reported), [recreated_pool_empty].
    - Quotas: [policy_set_found], [policy_replacement_lost], [sample_recorded].
    - File manager: on roots without links no sequence of requests changes anything outside
      the roots the caller manages ([files_confined]), and a write is all or nothing
      ([write_file_atomic]); with links, reads stay below the root for paths that end in a
      name ([read_file_confined]); [write_then_read], [path_new_exact], [list_dir_exact].
      Ways out of a root: [trailing_slash_escapes], [long_chain_escapes],
      [planted_link_escapes], [root_write_escapes].
    - Databases: what reaches MySQL is what the operation is for ([mysql_confined]), except
      through the charset ([charset_smuggles]); the password last set is the one revealed
      ([password_revealed]).  Runs: [charset_reaches_mysql], [failed_creation_blocks_name],
      [names_collide].
    - Point-in-time recovery: restores follow the documented diagram ([restore_lifecycle]);
      the reported range is that of the history of segments ([available_range_exact]); a
      request can be repeated ([request_repeated]) and needs a log ([no_log_no_restore]).
      Runs: [confirmed_answer_is_staged], [target_is_kept].
    - Backups: no archive writes outside the directory it is extracted into
      ([extract_confined]); what is archived is extracted again ([archive_roundtrip]); runs
      only go forward ([backup_lifecycle]); retention deletes exactly the surplus
      ([retention_exact]); a restore has verified the run and its right to overwrite before
      it writes ([restore_checks]).  Where backups fail: [unreadable_name_blocks],
      [orphan_plan_stuck], [half_a_restore].

    ** Not modelled

    Cron presets, bandwidth accounting, the drills, health reports and snapshots built on
    backups, and the agent would be next, in about this order.  Of sites, the references to a PHP runtime, a template
    and an origin, which the repository does not store, and site transport are left out.
    DNS, certificates and mail mostly drive external daemons.  Configuration, migrations, routes, page rendering and argument
    parsing are plumbing around third-party crates. *)
From stdpp Require Export base list strings gmap fin_maps sorting relations.
From Stdlib Require Export ZArith Lia.

(** ** Identifiers and instants *)

(** [Uuid] as its 128-bit number ([0] is the nil uuid); [DateTime<Utc>] and
    [Duration] in nanoseconds. *)
Abbreviation Uuid := N.
Abbreviation DateTime := Z.
Abbreviation Duration := Z.

Definition hours (h : Z) : Duration := (h * 3600 * 1000000000)%Z.
Definition days (d : Z) : Duration := (d * 24 * 3600 * 1000000000)%Z.

(** [Duration::num_seconds]: whole seconds towards zero. *)
Definition num_seconds (d : Duration) : Z := Z.quot d 1000000000.

(** ** Results and the statement monad *)

(** Rust's [Result<A, E>]. *)
Inductive result (A E : Type) : Type :=
| Ok (a : A)
| Err (e : E).
Arguments Ok {A E} a.
Arguments Err {A E} e.

(** A service method: it reads and updates the world and either returns a
    value or stops with an error.  The world is kept on the error path, as the
    code runs its statements outside any transaction. *)
Definition M (W E A : Type) : Type := W → result A E * W.

Definition ret {W E A} (a : A) : M W E A := λ w, (Ok a, w).
Definition throw {W E A} (e : E) : M W E A := λ w, (Err e, w).

Definition bind {W E A B} (c : M W E A) (k : A → M W E B) : M W E B := λ w,
  match c w with
  | (Ok a, w') => k a w'
  | (Err e, w') => (Err e, w')
  end.

(** [r.map_err(f)]. *)
Definition map_err {W E F A} (f : E → F) (c : M W E A) : M W F A := λ w,
  match c w with
  | (Ok a, w') => (Ok a, w')
  | (Err e, w') => (Err (f e), w')
  end.

(** [r.ok()] and [let _ = r]: the error is dropped, the effects stay. *)
Definition attempt {W E F A} (c : M W E A) : M W F (option A) := λ w,
  match c w with
  | (Ok a, w') => (Ok (Some a), w')
  | (Err _, w') => (Ok None, w')
  end.

(** The outcome of a call as a value. *)
Definition try_run {W E F A} (c : M W E A) : M W F (result A E) := λ w,
  let '(r, w') := c w in (Ok r, w').

(** [o.ok_or(e)?]. *)
Definition ok_or {W E A} (o : option A) (e : E) : M W E A :=
  match o with
  | Some a => ret a
  | None => throw e
  end.

(** A pure [Result] used with [?] inside a method. *)
Definition lift {W E A} (r : result A E) : M W E A :=
  match r with
  | Ok a => ret a
  | Err e => throw e
  end.

Definition gets {W E A} (f : W → A) : M W E A := λ w, (Ok (f w), w).
Definition modify {W E} (f : W → W) : M W E unit := λ w, (Ok tt, f w).

Definition result_bind {A B E} (r : result A E) (k : A → result B E) : result B E :=
  match r with
  | Ok a => k a
  | Err e => Err e
  end.

Definition result_map_err {A E F} (f : E → F) (r : result A E) : result A F :=
  match r with
  | Ok a => Ok a
  | Err e => Err (f e)
  end.

Definition is_ok {A E} (r : result A E) : bool :=
  match r with Ok _ => true | Err _ => false end.

Declare Scope rust_scope.
Delimit Scope rust_scope with rust.
Notation "x <- c ;; k" := (bind c (λ x, k))
  (at level 60, c at next level, right associativity) : rust_scope.
Notation "c ;;; k" := (bind c (λ _, k))
  (at level 60, right associativity) : rust_scope.
Notation "x <-? c ;; k" := (result_bind c (λ x, k))
  (at level 60, c at next level, right associativity) : rust_scope.
Open Scope rust_scope.

(** [iter.map(f).collect::<Result<Vec<_>, _>>()]. *)
Fixpoint collect {A B E} (f : A → result B E) (l : list A) : result (list B) E :=
  match l with
  | [] => Ok []
  | a :: l' => b <-? f a ;; bs <-? collect f l' ;; Ok (b :: bs)
  end.

(** [opt.map(f).transpose()]. *)
Definition transpose {A B E} (f : A → result B E) (o : option A) : result (option B) E :=
  match o with
  | None => Ok None
  | Some a => b <-? f a ;; Ok (Some b)
  end.

(** ** Machine integers *)

Definition U32_MAX : Z := 2 ^ 32 - 1.
Definition U64_MAX : Z := 2 ^ 64 - 1.
Definition I64_MAX : Z := 2 ^ 63 - 1.

Definition is_u32 (x : Z) : Prop := (0 ≤ x ≤ U32_MAX)%Z.
Definition is_u64 (x : Z) : Prop := (0 ≤ x ≤ U64_MAX)%Z.

(** [u64::saturating_add]. *)
Definition u64_saturating_add (a b : Z) : Z := Z.min (a + b) U64_MAX.

(** [x as i64] for [x: u64] and [x as u64] for [x: i64]. *)
Definition u64_as_i64 (x : Z) : Z := if (x <=? I64_MAX)%Z then x else (x - 2 ^ 64)%Z.
Definition i64_as_u64 (x : Z) : Z := (x mod 2 ^ 64)%Z.

Lemma u64_i64_u64 (x : Z) : is_u64 x → i64_as_u64 (u64_as_i64 x) = x.
Proof.
  unfold is_u64, U64_MAX, i64_as_u64, u64_as_i64, I64_MAX; intros H.
  destruct (Z.leb_spec x (2 ^ 63 - 1)).
  - apply Z.mod_small; lia.
  - rewrite <- (Z.mod_add _ 1) by lia. rewrite Z.mod_small; lia.
Qed.

Lemma i64_as_u64_nonneg (x : Z) : (0 ≤ x ≤ I64_MAX)%Z → i64_as_u64 x = x.
Proof. unfold i64_as_u64, I64_MAX; intros; apply Z.mod_small; lia. Qed.

Lemma u64_saturating_add_le (a b c : Z) :
  is_u64 c → (c < U64_MAX)%Z →
  (u64_saturating_add a b <= c)%Z ↔ (a + b ≤ c)%Z.
Proof. unfold u64_saturating_add; lia. Qed.

(** ** Case analysis on programs *)

(** Destruct the scrutinee of a [match] in a hypothesis or in the goal. *)
Ltac split_match_in H :=
  match type of H with
  | context [ match ?x with _ => _ end ] =>
      lazymatch x with
      | context [ match _ with _ => _ end ] => fail
      | _ => let E := fresh "E" in destruct x eqn:E
      end
  end.

Ltac split_match :=
  match goal with
  | |- context [ match ?x with _ => _ end ] =>
      lazymatch x with
      | context [ match _ with _ => _ end ] => fail
      | _ => let E := fresh "E" in destruct x eqn:E
      end
  end.

Ltac unfold_m :=
  unfold bind, ret, throw, map_err, attempt, ok_or, lift, gets, modify in *.

(** Symbolic execution of a completed run [H : op w = (r, w')]. *)
Ltac run_in H :=
  unfold_m; cbn in H; repeat (split_match_in H; cbn in H; simplify_eq).

(** ** Two-state properties of methods

    [within R c]: whatever the outcome, [c] relates its input world to its
    output world by [R].  With a preorder [R] this composes over [bind], which
    covers frame conditions ([R] is equality of a table), monotonicity
    ([R] is inclusion) and invariants ([R] is preservation). *)
Definition within {W E A} (R : relation W) (c : M W E A) : Prop :=
  ∀ w, R w (c w).2.

Definition keeps {W} (I : W → Prop) : relation W := λ w w', I w → I w'.

#[export] Instance keeps_preorder {W} (I : W → Prop) : PreOrder (keeps I).
Proof. unfold keeps; split; repeat intro; auto. Qed.

(** Agreement on a projection of the world. *)
Definition same {W X} (f : W → X) : relation W := λ w w', f w' = f w.

#[export] Instance same_preorder {W X} (f : W → X) : PreOrder (same f).
Proof. unfold same; split; repeat intro; congruence. Qed.

Create HintDb within.

Section within.
Context {W : Type} (R : relation W) `{!PreOrder R}.

Lemma within_ret {E A} (a : A) : within R (ret a : M W E A).
Proof. intros w; cbn. reflexivity. Qed.

Lemma within_throw {E A} (e : E) : within R (throw e : M W E A).
Proof. intros w; cbn. reflexivity. Qed.

Lemma within_gets {E A} (f : W → A) : within R (gets f : M W E A).
Proof. intros w; cbn. reflexivity. Qed.

Lemma within_bind {E A B} (c : M W E A) (k : A → M W E B) :
  within R c → (∀ a, within R (k a)) → within R (bind c k).
Proof.
  intros Hc Hk w. unfold bind. specialize (Hc w).
  destruct (c w) as [[a|e] w'] eqn:E'; cbn in *; [|done].
  etransitivity; [done|]. apply Hk.
Qed.

(** Sequencing where the continuation may use how [c] ended. *)
Lemma within_bind_run {E A B} (c : M W E A) (k : A → M W E B) :
  within R c →
  (∀ w a w', c w = (Ok a, w') → R w w' → R w (k a w').2) →
  within R (bind c k).
Proof.
  intros Hc Hk w. unfold bind. specialize (Hc w).
  destruct (c w) as [[a|e] w'] eqn:E'; cbn in *; [|done]. by eapply Hk.
Qed.

(** Sequencing at a given start. *)
Lemma bind_at {E A B} (c : M W E A) (k : A → M W E B) w :
  R w (c w).2 → (∀ a w', c w = (Ok a, w') → R w' (k a w').2) → R w (bind c k w).2.
Proof.
  intros Hc Hk. unfold bind. destruct (c w) as [[a|e] w'] eqn:E'; cbn in *; [|done].
  etransitivity; [done|]. by apply Hk.
Qed.

Lemma map_err_at {E F A} (f : E → F) (c : M W E A) w :
  R w (c w).2 → R w (map_err f c w).2.
Proof. intros Hc. unfold map_err. by destruct (c w) as [[]]. Qed.

(** The continuation of a pure check may use that the check passed. *)
Lemma within_bind_lift {E A B} (r : result A E) (k : A → M W E B) :
  (∀ a, r = Ok a → within R (k a)) → within R (bind (lift r) k).
Proof.
  intros Hk w. destruct r as [a|e]; cbn; [by apply Hk | reflexivity].
Qed.

Lemma within_map_err {E F A} (f : E → F) (c : M W E A) :
  within R c → within R (map_err f c).
Proof. intros Hc w. unfold map_err. specialize (Hc w). by destruct (c w) as [[]]. Qed.

Lemma within_attempt {E F A} (c : M W E A) :
  within R c → within R (attempt c : M W F (option A)).
Proof. intros Hc w. unfold attempt. specialize (Hc w). by destruct (c w) as [[]]. Qed.

Lemma within_try_run {E F A} (c : M W E A) :
  within R c → within R (try_run c : M W F (result A E)).
Proof. intros Hc w. unfold try_run. specialize (Hc w). by destruct (c w) as [[]]. Qed.

Lemma within_ok_or {E A} (o : option A) (e : E) : within R (ok_or o e : M W E A).
Proof. destruct o; [apply within_ret | apply within_throw]. Qed.

Lemma within_lift {E A} (r : result A E) : within R (lift r : M W E A).
Proof. destruct r; [apply within_ret | apply within_throw]. Qed.
End within.

#[export] Hint Resolve within_ret within_throw within_gets within_ok_or within_lift : within.

#[export] Hint Extern 1 (PreOrder _) => typeclasses eauto : within.

(** Prove [within R c] by walking through the structure of [c]. *)
Ltac within_step :=
  first
    [ progress intros
    | assumption
    | solve [eauto 3 with within]
    | simple apply within_bind_lift; [try typeclasses eauto ..]
    | simple apply within_bind; [try typeclasses eauto ..]
    | simple apply within_map_err
    | simple apply within_attempt
    | simple apply within_try_run
    | match goal with
      | |- within _ (match ?x with _ => _ end) => let E := fresh "E" in destruct x eqn:E
      end ].
Ltac within_tac := repeat within_step.

(** *** Inverting successful runs *)

Lemma bind_ok {W E A B} (c : M W E A) (k : A → M W E B) w b w' :
  bind c k w = (Ok b, w') → ∃ a w1, c w = (Ok a, w1) ∧ k a w1 = (Ok b, w').
Proof. unfold bind. destruct (c w) as [[a|e] w1] eqn:E'; [eauto | done]. Qed.

(** What holds however a [bind] ends. *)
Lemma bind_post {W E A B} (P : W → Prop) (c : M W E A) (k : A → M W E B) w :
  (∀ e w1, c w = (Err e, w1) → P w1) → (∀ a w1, c w = (Ok a, w1) → P (k a w1).2) →
  P (bind c k w).2.
Proof. unfold bind. destruct (c w) as [[a|e] w1]; cbn; eauto. Qed.

Lemma attempt_run {W E F A} (c : M W E A) w o w' :
  attempt (F:=F) c w = (Ok o, w') → w' = (c w).2.
Proof. unfold attempt. destruct (c w) as [[]]; by intros [= <- <-]. Qed.

Lemma ok_or_ok {W E A} (o : option A) (e : E) (w : W) a w' :
  ok_or o e w = (Ok a, w') → o = Some a ∧ w' = w.
Proof. destruct o; cbn; [by intros [= <- <-] | done]. Qed.

Lemma lift_ok {W E A} (r : result A E) (w : W) a w' :
  lift r w = (Ok a, w') → r = Ok a ∧ w' = w.
Proof. destruct r; cbn; [by intros [= <- <-] | done]. Qed.

Lemma result_map_err_ok {A E F} (f : E → F) (r : result A E) a :
  result_map_err f r = Ok a → r = Ok a.
Proof. destruct r; cbn; naive_solver. Qed.

Lemma bind_lift_ok {W E A B} (a : A) (k : A → M W E B) w : bind (lift (Ok a)) k w = k a w.
Proof. done. Qed.

Lemma map_err_ok {W E F A} (f : E → F) (c : M W E A) w a w' :
  map_err f c w = (Ok a, w') → c w = (Ok a, w').
Proof. unfold map_err. destruct (c w) as [[]]; [by intros [= <- <-] | done]. Qed.

(** *** Running forward *)

Lemma bind_run {W E A B} (c : M W E A) (k : A → M W E B) w a w1 :
  c w = (Ok a, w1) → bind c k w = k a w1.
Proof. unfold bind. by intros ->. Qed.

Lemma bind_stop {W E A B} (c : M W E A) (k : A → M W E B) w e w1 :
  c w = (Err e, w1) → bind c k w = (Err e, w1).
Proof. unfold bind. by intros ->. Qed.

Lemma map_err_run {W E F A} (f : E → F) (c : M W E A) w a w1 :
  c w = (Ok a, w1) → map_err f c w = (Ok a, w1).
Proof. unfold map_err. by intros ->. Qed.

Lemma map_err_stop {W E F A} (f : E → F) (c : M W E A) w e w1 :
  c w = (Err e, w1) → map_err f c w = (Err (f e), w1).
Proof. unfold map_err. by intros ->. Qed.

(** Split a successful run at its [bind]s. *)
Ltac inv_bind H :=
  lazymatch type of H with
  | bind _ _ _ = (Ok _, _) =>
      let a := fresh "a" in let w := fresh "w" in let H1 := fresh "R" in
      apply bind_ok in H as (a & w & H1 & H)
  end.

(** ** Collecting results *)

Lemma collect_ok {A B E} (f : A → result B E) (l : list A) :
  Forall (λ a, is_ok (f a) = true) l →
  ∃ bs, collect f l = Ok bs ∧ Forall2 (λ a b, f a = Ok b) l bs.
Proof.
  induction 1 as [|a l Ha _ (bs & Hc & Hf)]; cbn; [exists []; split; [done | constructor]|].
  destruct (f a) as [b|] eqn:E'; [|done]. cbn. rewrite Hc. cbn. exists (b :: bs).
  split; [done|]. by constructor.
Qed.

Lemma collect_Forall2 {A B E} (f : A → result B E) l bs :
  collect f l = Ok bs → Forall2 (λ a b, f a = Ok b) l bs.
Proof.
  revert bs. induction l as [|a l IH]; intros bs; cbn; [intros [= <-]; constructor|].
  destruct (f a) as [b|] eqn:E'; cbn; [|done].
  destruct (collect f l) as [bs'|]; cbn; [|done]. intros [= <-]. constructor; auto.
Qed.

Lemma collect_In {A B E} (f : A → result B E) l bs b :
  collect f l = Ok bs → In b bs → ∃ a, In a l ∧ f a = Ok b.
Proof.
  revert bs. induction l as [|a l IH]; intros bs; cbn; [intros [= <-]; done|].
  destruct (f a) as [b'|] eqn:Ea; cbn; [|done].
  destruct (collect f l) as [bs'|]; cbn; [|done]. intros [= <-] [<-|Hin]; [eauto|].
  destruct (IH bs' eq_refl Hin) as (a' & ? & ?). eauto.
Qed.

(** ** Lists as tables *)

Section tables.
Context {A : Type}.
Implicit Types (t : list A) (p : A → bool).

(** [UPDATE t SET f WHERE p]. *)
Definition update_where p (f : A → A) t : list A :=
  map (λ r, if p r then f r else r) t.

(** [DELETE FROM t WHERE p]. *)
Definition delete_where p t : list A := List.filter (λ r, negb (p r)) t.

(** [SELECT .. WHERE p]. *)
Definition select_where p t : list A := List.filter p t.

Lemma update_where_key {K} (key : A → K) p f t :
  (∀ r, key (f r) = key r) → map key (update_where p f t) = map key t.
Proof.
  intros Hf. unfold update_where. rewrite map_map. apply map_ext.
  intros r. by destruct (p r).
Qed.

Lemma delete_where_In p t r : In r (delete_where p t) ↔ In r t ∧ p r = false.
Proof. unfold delete_where. rewrite filter_In, negb_true_iff. done. Qed.

Lemma delete_where_none p t : (∀ r, In r t → p r = false) → delete_where p t = t.
Proof.
  unfold delete_where. induction t as [|x t IH]; cbn; [done|]. intros Hp. rewrite Hp by (by left).
  cbn. f_equal. auto.
Qed.

Lemma update_where_none p f t : List.find p t = None → update_where p f t = t.
Proof.
  induction t as [|y t IH]; [done|]. cbn. destruct (p y); [done|]. intros Hf. f_equal. by apply IH.
Qed.

Lemma delete_where_NoDup {K} (key : A → K) p t :
  NoDup (map key t) → NoDup (map key (delete_where p t)).
Proof.
  induction t as [|r t IH]; cbn; [done|]. intros [Hr Ht]%NoDup_cons.
  destruct (negb (p r)); cbn; [|auto]. apply NoDup_cons; split; [|auto].
  intros Hin. apply Hr. apply list_elem_of_In. apply list_elem_of_In in Hin.
  apply in_map_iff in Hin as (x & <- & Hx). apply in_map.
  apply delete_where_In in Hx as [Hx _]. done.
Qed.

Lemma select_where_NoDup {K} (key : A → K) p t :
  NoDup (map key t) → NoDup (map key (select_where p t)).
Proof.
  intros Ht. rewrite <- (filter_ext (λ r, negb (negb (p r)))); [|intros; apply negb_involutive].
  by apply (delete_where_NoDup key (λ r, negb (p r))).
Qed.

Lemma NoDup_snoc {K} (key : A → K) t r :
  NoDup (map key t) → ~ In (key r) (map key t) → NoDup (map key (t ++ [r])).
Proof.
  intros Ht Hr. rewrite map_app. apply NoDup_app. repeat split.
  - done.
  - intros x Hx ->%list_elem_of_singleton. apply Hr. by apply list_elem_of_In.
  - apply NoDup_singleton.
Qed.

(** A unique key determines its row. *)
Lemma NoDup_key_inj {K} (key : A → K) t r1 r2 :
  NoDup (map key t) → In r1 t → In r2 t → key r1 = key r2 → r1 = r2.
Proof.
  induction t as [|r t IH]; cbn; [done|].
  intros [Hr Ht]%NoDup_cons H1 H2 Heq. rewrite list_elem_of_In in Hr.
  destruct H1 as [->|H1], H2 as [->|H2]; [done| | |by apply IH];
    exfalso; apply Hr; [rewrite Heq | rewrite <- Heq]; by apply in_map.
Qed.

Lemma find_key {K} (key : A → K) (eqb : K → K → bool) t r :
  (∀ a b, eqb a b = true ↔ a = b) →
  NoDup (map key t) → In r t →
  List.find (λ x, eqb (key x) (key r)) t = Some r.
Proof.
  intros Heqb Hnd Hin.
  destruct (List.find _ t) as [x|] eqn:E.
  - apply List.find_some in E as [Hx Hk]. apply Heqb in Hk.
    f_equal. by eapply NoDup_key_inj.
  - eapply List.find_none in E; [|exact Hin].
    assert (eqb (key r) (key r) = true) by by apply Heqb. congruence.
Qed.

Lemma existsb_false p t : List.existsb p t = false ↔ ∀ r, In r t → p r = false.
Proof.
  induction t as [|r t IH]; cbn; [naive_solver|].
  rewrite orb_false_iff, IH. naive_solver.
Qed.

Lemma update_where_In p f t r :
  In r (update_where p f t) ↔ ∃ r', In r' t ∧ r = if p r' then f r' else r'.
Proof.
  unfold update_where. rewrite in_map_iff. naive_solver.
Qed.

(** Lookups across the statements. *)
Lemma find_snoc p t r x : List.find p t = Some x → List.find p (t ++ [r])%list = Some x.
Proof. induction t as [|y t IH]; [done|]. cbn. by destruct (p y). Qed.
Lemma find_last p t r : List.existsb p t = false → p r = true → List.find p (t ++ [r])%list = Some r.
Proof.
  induction t as [|y t IH]; cbn; [by intros _ ->|]. intros [-> Ht]%orb_false_iff Hr. by apply IH.
Qed.
Lemma find_update_other p q (f : A → A) t :
  (∀ r, q r = true → p r = false ∧ p (f r) = false) →
  List.find p (update_where q f t) = List.find p t.
Proof.
  intros Hq. induction t as [|y t IH]; [done|]. cbn. destruct (q y) eqn:E.
  - apply Hq in E as [-> ->]. apply IH.
  - destruct (p y); [done|apply IH].
Qed.
Lemma find_update_same p (f : A → A) t r :
  (∀ r, p r = true → p (f r) = true) → List.find p t = Some r →
  List.find p (update_where p f t) = Some (f r).
Proof.
  intros Hf. induction t as [|y t IH]; [done|]. cbn. destruct (p y) eqn:E.
  - intros [= <-]. by rewrite Hf.
  - rewrite E. apply IH.
Qed.
Lemma find_delete_other p q t :
  (∀ r, q r = true → p r = false) → List.find p (delete_where q t) = List.find p t.
Proof.
  intros Hq. unfold delete_where. induction t as [|y t IH]; [done|]. cbn. destruct (q y) eqn:E; cbn.
  - by rewrite (Hq _ E).
  - destruct (p y); [done|apply IH].
Qed.
End tables.
