(* ===== verification/Text.v ===== *)
(** * Rust strings

    A Rust [str] is its UTF-8 bytes, kept as a [string] (one [ascii] per byte).
    [bytes] exposes them as numbers, [chars] decodes the Unicode scalar values.
    The file holds the parts of [str], [char] and integer parsing that the
    modelled code calls. *)
From S2P Require Import Prelude.
From Stdlib Require Import Ascii.

Local Open Scope N_scope.

(** ** Bytes and scalar values *)

Fixpoint bytes (s : string) : list N :=
  match s with
  | EmptyString => []
  | String a s' => N_of_ascii a :: bytes s'
  end.

Fixpoint of_bytes (l : list N) : string :=
  match l with
  | [] => EmptyString
  | b :: l' => String (ascii_of_N b) (of_bytes l')
  end.

Lemma of_bytes_bytes (s : string) : of_bytes (bytes s) = s.
Proof. induction s as [|a s IH]; cbn; [done|]. by rewrite ascii_N_embedding, IH. Qed.

Lemma bytes_of_bytes (l : list N) : Forall (λ b, b < 256) l → bytes (of_bytes l) = l.
Proof. induction 1 as [|b l Hb Hl IH]; cbn; [done|]. by rewrite N_ascii_embedding, IH. Qed.

Lemma bytes_app (s t : string) : bytes (s +:+ t) = (bytes s ++ bytes t)%list.
Proof. induction s as [|a s IH]; cbn; [done|]. by rewrite <- IH. Qed.

Lemma bytes_lt (s : string) : Forall (λ b, b < 256) (bytes s).
Proof. induction s as [|a s IH]; cbn; constructor; [apply N_ascii_bounded | done]. Qed.

(** [s.len()]: the length in bytes. *)
Definition str_len (s : string) : N := N.of_nat (String.length s).

Definition cont (b : N) : N := N.land b 63.

Fixpoint decode_utf8 (l : list N) : list N :=
  match l with
  | [] => []
  | b0 :: l1 =>
      if b0 <? 128 then b0 :: decode_utf8 l1
      else match l1 with
      | [] => [b0]
      | b1 :: l2 =>
          if b0 <? 224 then
            N.lor (N.shiftl (N.land b0 31) 6) (cont b1) :: decode_utf8 l2
          else match l2 with
          | [] => [b0; b1]
          | b2 :: l3 =>
              if b0 <? 240 then
                N.lor (N.shiftl (N.land b0 15) 12)
                  (N.lor (N.shiftl (cont b1) 6) (cont b2)) :: decode_utf8 l3
              else match l3 with
              | [] => [b0; b1; b2]
              | b3 :: l4 =>
                  N.lor (N.shiftl (N.land b0 7) 18)
                    (N.lor (N.shiftl (cont b1) 12)
                       (N.lor (N.shiftl (cont b2) 6) (cont b3))) :: decode_utf8 l4
              end
          end
      end
  end.

(** [s.chars()]. *)
Definition chars (s : string) : list N := decode_utf8 (bytes s).

Definition char_len (c : N) : N :=
  if c <? 128 then 1 else if c <? 2048 then 2 else if c <? 65536 then 3 else 4.

(** The UTF-8 bytes of one scalar value. *)
Definition encode_char (c : N) : list N :=
  if c <? 128 then [c]
  else if c <? 2048 then [N.lor 192 (N.shiftr c 6); N.lor 128 (cont c)]
  else if c <? 65536 then
    [N.lor 224 (N.shiftr c 12); N.lor 128 (cont (N.shiftr c 6)); N.lor 128 (cont c)]
  else
    [N.lor 240 (N.shiftr c 18); N.lor 128 (cont (N.shiftr c 12));
     N.lor 128 (cont (N.shiftr c 6)); N.lor 128 (cont c)].

(** The byte length of a slice given by its scalar values. *)
Definition chars_len (cs : list N) : N := foldr (λ c n, char_len c + n) 0 cs.

Lemma decode_utf8_ascii (l : list N) : Forall (λ b, b < 128) l → decode_utf8 l = l.
Proof.
  induction 1 as [|b l Hb Hl IH]; [done|]. cbn [decode_utf8].
  apply N.ltb_lt in Hb as ->. by rewrite IH.
Qed.

(** [String::from_utf8(l).is_ok()]: no overlong forms, no surrogates, at most
    U+10FFFF. *)
Fixpoint valid_utf8 (l : list N) : bool :=
  let is_cont b := (128 <=? b) && (b <=? 191) in
  match l with
  | [] => true
  | b0 :: l1 =>
      if b0 <? 128 then valid_utf8 l1
      else match l1 with
      | [] => false
      | b1 :: l2 =>
          if (194 <=? b0) && (b0 <=? 223) then is_cont b1 && valid_utf8 l2
          else match l2 with
          | [] => false
          | b2 :: l3 =>
              if (224 <=? b0) && (b0 <=? 239) then
                is_cont b1 && is_cont b2
                && (negb (b0 =? 224) || (160 <=? b1))
                && (negb (b0 =? 237) || (b1 <=? 159)) && valid_utf8 l3
              else match l3 with
              | [] => false
              | b3 :: l4 =>
                  (240 <=? b0) && (b0 <=? 244) && is_cont b1 && is_cont b2 && is_cont b3
                  && (negb (b0 =? 240) || (144 <=? b1))
                  && (negb (b0 =? 244) || (b1 <=? 143)) && valid_utf8 l4
              end
          end
      end
  end.

Lemma valid_utf8_ascii (l : list N) : Forall (λ b, b < 128) l → valid_utf8 l = true.
Proof.
  induction 1 as [|b l Hb Hl IH]; [done|]. cbn [valid_utf8].
  by apply N.ltb_lt in Hb as ->.
Qed.

(** ** Character classes *)

Definition is_digit (c : N) : bool := (48 <=? c) && (c <=? 57).
Definition is_upper (c : N) : bool := (65 <=? c) && (c <=? 90).
Definition is_lower (c : N) : bool := (97 <=? c) && (c <=? 122).
Definition is_ascii_alphanumeric (c : N) : bool := is_digit c || is_upper c || is_lower c.
Definition is_ascii_graphic (c : N) : bool := (33 <=? c) && (c <=? 126).
Definition is_ascii_hexdigit (c : N) : bool :=
  is_digit c || ((65 <=? c) && (c <=? 70)) || ((97 <=? c) && (c <=? 102)).

(** [char::is_whitespace]: the Unicode [White_Space] property. *)
Definition is_whitespace (c : N) : bool :=
  ((9 <=? c) && (c <=? 13)) || (c =? 32) || (c =? 133) || (c =? 160) || (c =? 5760)
  || ((8192 <=? c) && (c <=? 8202)) || (c =? 8232) || (c =? 8233) || (c =? 8239)
  || (c =? 8287) || (c =? 12288).

Fixpoint trim_start (cs : list N) : list N :=
  match cs with
  | c :: cs' => if is_whitespace c then trim_start cs' else cs
  | [] => []
  end.

(** [s.trim()] on scalar values. *)
Definition trim (cs : list N) : list N := rev (trim_start (rev (trim_start cs))).

Lemma trim_start_id (cs : list N) :
  Forall (λ c, is_whitespace c = false) cs → trim_start cs = cs.
Proof. destruct 1 as [|c cs Hc]; cbn; [done|]. by rewrite Hc. Qed.

Lemma trim_id (cs : list N) : Forall (λ c, is_whitespace c = false) cs → trim cs = cs.
Proof.
  intros H. unfold trim. rewrite (trim_start_id cs H), trim_start_id, rev_involutive; [done|].
  by apply Forall_rev.
Qed.

(** ** Searching *)

Fixpoint prefixb (p l : list N) : bool :=
  match p, l with
  | [], _ => true
  | a :: p', b :: l' => (a =? b) && prefixb p' l'
  | _ :: _, [] => false
  end.

Fixpoint infixb (p l : list N) : bool :=
  prefixb p l || match l with [] => false | _ :: l' => infixb p l' end.

(** [s.contains(sub)], [s.starts_with(p)]. *)
Definition contains_str (s sub : string) : bool := infixb (bytes sub) (bytes s).
Definition starts_with (s p : string) : bool := prefixb (bytes p) (bytes s).

Definition ends_with (s p : string) : bool := prefixb (rev (bytes p)) (rev (bytes s)).

(** [s.contains(c)] for an ASCII character [c]. *)
Definition contains_char (s : string) (c : N) : bool := existsb (N.eqb c) (bytes s).

(** [l.split(c)]: the pieces between the occurrences of [c] (always one more
    piece than occurrences). *)
Fixpoint split (c : N) (l : list N) : list (list N) :=
  match l with
  | [] => [[]]
  | b :: l' =>
      if b =? c then [] :: split c l'
      else match split c l' with
           | [] => [[b]]
           | piece :: rest => (b :: piece) :: rest
           end
  end.

Lemma split_nonempty (c : N) (l : list N) : split c l ≠ [].
Proof.
  destruct l as [|b l]; cbn; [done|]. destruct (b =? c)%N; [done|]. by destruct (split c l).
Qed.

(** [l.split_once(c)]: around the first occurrence of [c]. *)
Fixpoint split_once (c : N) (l : list N) : option (list N * list N) :=
  match l with
  | [] => None
  | b :: l' =>
      if b =? c then Some ([], l')
      else match split_once c l' with
           | Some (x, y) => Some (b :: x, y)
           | None => None
           end
  end.

(** [l.rsplit_once(c)]: around the last occurrence of [c]. *)
Definition rsplit_once (c : N) (l : list N) : option (list N * list N) :=
  match split_once c (rev l) with
  | Some (x, y) => Some (rev y, rev x)
  | None => None
  end.

(** [l.trim_end_matches(c)]. *)
Fixpoint drop_leading (c : N) (l : list N) : list N :=
  match l with
  | b :: l' => if b =? c then drop_leading c l' else l
  | [] => []
  end.
Definition trim_end_matches (c : N) (l : list N) : list N := rev (drop_leading c (rev l)).

Lemma split_once_app (c : N) (x y : list N) :
  ~ In c x → split_once c (x ++ c :: y) = Some (x, y).
Proof.
  induction x as [|b x IH]; cbn; intros H; [by rewrite N.eqb_refl|].
  destruct (N.eqb_spec b c) as [->|]; [naive_solver|]. rewrite IH; naive_solver.
Qed.

Lemma split_once_spec (c : N) (l x y : list N) :
  split_once c l = Some (x, y) → l = (x ++ c :: y)%list.
Proof.
  revert x. induction l as [|b l IH]; cbn; intros x; [done|].
  destruct (N.eqb_spec b c) as [->|]; [by intros [= <- ->]|].
  destruct (split_once c l) as [[x' y']|]; [|done]. intros [= <- ->]. cbn. by rewrite <- IH.
Qed.

(** [s.to_lowercase()], as far as searching for ASCII text can tell: ASCII
    letters, and the two non-ASCII scalar values whose lowercase form has an
    ASCII letter (U+212A KELVIN SIGN and U+0130, I WITH DOT ABOVE).  Every other
    scalar value lowercases to non-ASCII text. *)
Definition lower_char (c : N) : list N :=
  if is_upper c then [c + 32]
  else if c =? 8490 then [107]
  else if c =? 304 then [105; 775]
  else [c].

Definition to_lowercase (cs : list N) : list N := flat_map lower_char cs.

(** ** Integers in decimal *)

Fixpoint digits_aux (fuel : nat) (n : N) (acc : list N) : list N :=
  match fuel with
  | O => acc
  | S f =>
      let acc' := (48 + n mod 10) :: acc in
      if n <? 10 then acc' else digits_aux f (n / 10) acc'
  end.

(** [n.to_string()]; [S (log2 n)] bounds the number of decimal digits. *)
Definition show_N (n : N) : list N := digits_aux (S (N.to_nat (N.log2 n))) n [].

Definition show_Z (z : Z) : list N :=
  match z with
  | Zneg p => 45 :: show_N (Npos p)
  | _ => show_N (Z.to_N z)
  end.

Fixpoint parse_digits (acc : N) (cs : list N) : option N :=
  match cs with
  | [] => Some acc
  | c :: cs' => if is_digit c then parse_digits (10 * acc + (c - 48)) cs' else None
  end.

Definition parse_nonempty (cs : list N) : option N :=
  match cs with [] => None | _ => parse_digits 0 cs end.

(** [s.parse::<u8>()]: an optional [+], then digits, within range. *)
Definition parse_u8 (cs : list N) : option N :=
  let ds := match cs with 43 :: ds => ds | _ => cs end in
  match parse_nonempty ds with
  | Some n => if n <=? 255 then Some n else None
  | None => None
  end.

(** [s.parse::<i64>()]: an optional sign, then digits, within range. *)
Definition parse_i64 (cs : list N) : option Z :=
  match cs with
  | 45 :: ds =>
      match parse_nonempty ds with
      | Some n => if n <=? 2 ^ 63 then Some (- Z.of_N n)%Z else None
      | None => None
      end
  | _ =>
      let ds := match cs with 43 :: ds => ds | _ => cs end in
      match parse_nonempty ds with
      | Some n => if n <? 2 ^ 63 then Some (Z.of_N n) else None
      | None => None
      end
  end.

Definition digit (c : N) : Prop := is_digit c = true.

Lemma parse_digits_app (acc : N) (xs ys : list N) :
  parse_digits acc (xs ++ ys) =
  match parse_digits acc xs with Some a => parse_digits a ys | None => None end.
Proof.
  revert acc; induction xs as [|x xs IH]; intros acc; cbn; [done|].
  destruct (is_digit x); [apply IH | done].
Qed.

Lemma is_digit_mod (n : N) : is_digit (48 + n mod 10) = true.
Proof.
  unfold is_digit. apply andb_true_iff; rewrite !N.leb_le.
  pose proof (N.mod_lt n 10 ltac:(done)) as H. generalize dependent (n mod 10). lia.
Qed.

Lemma digits_aux_acc (fuel : nat) (n : N) (acc : list N) :
  digits_aux fuel n acc = (digits_aux fuel n [] ++ acc)%list.
Proof.
  revert n acc; induction fuel as [|f IH]; intros n acc; cbn; [done|].
  destruct (n <? 10); [done|].
  rewrite IH, (IH _ [_]), <- app_assoc. done.
Qed.

Lemma digits_aux_spec (fuel : nat) (n : N) :
  n < 2 ^ N.of_nat fuel →
  parse_digits 0 (digits_aux fuel n []) = Some n ∧
  Forall digit (digits_aux fuel n []) ∧ (fuel ≠ 0%nat → digits_aux fuel n [] ≠ []).
Proof.
  revert n; induction fuel as [|f IH]; intros n Hn.
  { cbn in *. assert (n = 0) as -> by lia. repeat split; [constructor | done]. }
  cbn [digits_aux]. destruct (N.ltb_spec n 10) as [Hs|Hs].
  { rewrite (N.mod_small n 10) by done. repeat split.
    - cbn [parse_digits]. rewrite <- (N.mod_small n 10) at 1 by done.
      rewrite is_digit_mod. cbn [parse_digits]. f_equal. lia.
    - constructor; [|constructor]. unfold digit.
      rewrite <- (N.mod_small n 10) by done. apply is_digit_mod.
    - done. }
  rewrite digits_aux_acc.
  assert (n / 10 < 2 ^ N.of_nat f) as Hlt.
  { rewrite Nat2N.inj_succ, N.pow_succ_r' in Hn. apply N.Div0.div_lt_upper_bound; lia. }
  destruct (IH _ Hlt) as (Hp & Hf & _). repeat split.
  - rewrite parse_digits_app, Hp. cbn [parse_digits]. rewrite is_digit_mod.
    f_equal. pose proof (N.div_mod n 10 ltac:(done)) as H. clear -H.
    generalize dependent (n mod 10); intros r H. lia.
  - apply Forall_app; split; [done|]. constructor; [apply is_digit_mod | constructor].
  - intros _ H. by apply app_nil in H as [_ H].
Qed.

Lemma show_N_spec (n : N) :
  parse_digits 0 (show_N n) = Some n ∧ Forall digit (show_N n) ∧ show_N n ≠ [].
Proof.
  unfold show_N. destruct (digits_aux_spec (S (N.to_nat (N.log2 n))) n) as (? & ? & ?).
  - rewrite Nat2N.inj_succ, N2Nat.id.
    destruct (N.eq_0_gt_0_cases n) as [->|H]; [done|]. apply N.log2_spec; lia.
  - naive_solver.
Qed.

Lemma show_N_head (n : N) : ∃ c cs, show_N n = c :: cs ∧ digit c.
Proof.
  destruct (show_N_spec n) as (_ & Hf & Hne). destruct (show_N n) as [|c cs]; [done|].
  inversion Hf; subst. eauto.
Qed.

Lemma parse_i64_show_N (n : N) :
  (Z.of_N n < 2 ^ 63)%Z → parse_i64 (show_N n) = Some (Z.of_N n).
Proof.
  intros Hn. destruct (show_N_spec n) as (Hp & _ & _).
  destruct (show_N_head n) as (c & cs & E & Hc). rewrite E in *.
  unfold digit, is_digit in Hc. apply andb_true_iff in Hc as [H1%N.leb_le H2%N.leb_le].
  assert ((n <? 2 ^ 63) = true) as Hlt by (apply N.ltb_lt; lia).
  assert (c = 48 ∨ c = 49 ∨ c = 50 ∨ c = 51 ∨ c = 52 ∨ c = 53 ∨ c = 54 ∨ c = 55
          ∨ c = 56 ∨ c = 57) as Hcs by lia.
  unfold parse_i64. destruct_or! Hcs; subst c; cbn [parse_nonempty]; by rewrite Hp, Hlt.
Qed.

(** Printing and parsing an [i64] are inverse. *)
Lemma parse_show_i64 (z : Z) :
  (- 2 ^ 63 ≤ z ≤ I64_MAX)%Z → parse_i64 (show_Z z) = Some z.
Proof.
  unfold I64_MAX; intros Hz. destruct z as [|p|p].
  - by apply (parse_i64_show_N 0).
  - change (Zpos p) with (Z.of_N (Npos p)) at 2. by apply (parse_i64_show_N (Npos p)); lia.
  - destruct (show_N_spec (Npos p)) as (Hp & _ & Hne). unfold show_Z, parse_i64.
    destruct (show_N (Npos p)) as [|c cs] eqn:E; [done|]. cbn [parse_nonempty].
    rewrite Hp. assert ((Npos p <=? 2 ^ 63) = true) as -> by (apply N.leb_le; lia). done.
Qed.

Lemma show_Z_lt (z : Z) : Forall (λ b, b < 128) (show_Z z).
Proof.
  assert (∀ n, Forall (λ b, b < 128) (show_N n)) as H.
  { intros n. destruct (show_N_spec n) as (_ & Hf & _).
    eapply Forall_impl; [exact Hf|]. cbn. unfold digit, is_digit. intros x Hx.
    apply andb_true_iff in Hx as [_ H2%N.leb_le]. lia. }
  destruct z; unfold show_Z; [apply H | apply H | constructor; [lia | apply H]].
Qed.
