(* ===== verification/Net.v ===== *)
(** * [std::net::IpAddr] from text

    The parser behind [ip.parse::<IpAddr>()], a backtracking reader over the bytes of
    the text. *)
From S2P Require Import Prelude Text.

Local Open Scope N_scope.

(** A reader takes bytes from the front, or fails and leaves them. *)
Definition reader (A : Type) : Type := list N → option (A * list N).

(** [char::to_digit]. *)
Definition to_digit (radix c : N) : option N :=
  let v :=
    if is_digit c then Some (c - 48)
    else if is_lower c then Some (c - 87)
    else if is_upper c then Some (c - 55)
    else None in
  match v with
  | Some d => if d <? radix then Some d else None
  | None => None
  end.

Definition read_given_char (c : N) : reader unit := λ l,
  match l with
  | b :: l' => if b =? c then Some (tt, l') else None
  | [] => None
  end.

(** [read_separator]: the separator stands before every item but the first. *)
Definition read_separator {A} (sep : N) (index : nat) (inner : reader A) : reader A := λ l,
  match index with
  | O => inner l
  | S _ =>
      match read_given_char sep l with
      | Some (_, l') => inner l'
      | None => None
      end
  end.

(** The loop of [read_number]: value and number of digits. *)
Fixpoint read_digits (radix : N) (max_digits : nat) (result : N) (count : nat) (l : list N)
    : option (N * nat * list N) :=
  match l with
  | b :: l' =>
      match to_digit radix b with
      | Some d =>
          if (max_digits <? S count)%nat then None
          else read_digits radix max_digits (result * radix + d) (S count) l'
      | None => Some (result, count, l)
      end
  | [] => Some (result, count, [])
  end.

Definition read_number (radix : N) (max_digits : nat) (allow_zero_prefix : bool) (max : N)
    : reader N := λ l,
  let has_leading_zero := match l with b :: _ => b =? 48 | [] => false end in
  match read_digits radix max_digits 0 0 l with
  | Some (result, count, l') =>
      if (count =? 0)%nat then None
      else if negb allow_zero_prefix && has_leading_zero && (1 <? count)%nat then None
      else if max <? result then None
      else Some (result, l')
  | None => None
  end.

(** [read_ipv4_addr]; 46 is [.]. *)
Fixpoint read_octets (index : nat) (left : nat) : reader (list N) := λ l,
  match left with
  | O => Some ([], l)
  | S left' =>
      match read_separator 46 index (read_number 10 3 false 255) l with
      | Some (o, l') =>
          match read_octets (S index) left' l' with
          | Some (os, l'') => Some (o :: os, l'')
          | None => None
          end
      | None => None
      end
  end.

Definition read_ipv4_addr : reader (list N) := read_octets 0 4.

(** [read_groups]: up to [limit] groups from position [i]; the flag tells whether they
    end with an embedded IPv4 address.  58 is [:]. *)
Fixpoint read_groups (limit i : nat) (left : nat) (l : list N) : list N * bool * list N :=
  match left with
  | O => ([], false, l)
  | S left' =>
      let embedded :=
        if (i <? limit - 1)%nat then read_separator 58 i read_ipv4_addr l else None in
      match embedded with
      | Some ([o1; o2; o3; o4], l') => ([o1 * 256 + o2; o3 * 256 + o4], true, l')
      | _ =>
          match read_separator 58 i (read_number 16 4 true 65535) l with
          | Some (g, l') =>
              let '(gs, v4, l'') := read_groups limit (S i) left' l' in
              (g :: gs, v4, l'')
          | None => ([], false, l)
          end
      end
  end.

Definition read_ipv6_addr : reader (list N) := λ l,
  let '(head, head_ipv4, l1) := read_groups 8 0 8 l in
  if (length head =? 8)%nat then Some (head, l1)
  else if head_ipv4 then None
  else
    match read_given_char 58 l1 with
    | None => None
    | Some (_, l2) =>
        match read_given_char 58 l2 with
        | None => None
        | Some (_, l3) =>
            let limit := (8 - (length head + 1))%nat in
            let '(tail, _, l4) := read_groups limit 0 limit l3 in
            Some (head ++ repeat 0 (8 - length head - length tail) ++ tail, l4)%list
        end
    end.

Inductive IpAddr : Type :=
| IpV4 (octets : list N)
| IpV6 (segments : list N).

(** [read_ip_addr], then the whole text must have been read. *)
Definition parse_ip (s : string) : option IpAddr :=
  let l := bytes s in
  match read_ipv4_addr l with
  | Some (o, rest) => match rest with [] => Some (IpV4 o) | _ => None end
  | None =>
      match read_ipv6_addr l with
      | Some (g, rest) => match rest with [] => Some (IpV6 g) | _ => None end
      | None => None
      end
  end.

(** [{:x}] of a [u16]. *)
Definition hex_char (d : N) : N := if d <? 10 then d + 48 else d + 87.

Definition show_hex16 (n : N) : list N :=
  if n <? 16 then [hex_char n]
  else if n <? 256 then [hex_char (n / 16); hex_char (n mod 16)]
  else if n <? 4096 then [hex_char (n / 256); hex_char (n / 16 mod 16); hex_char (n mod 16)]
  else [hex_char (n / 4096); hex_char (n / 256 mod 16); hex_char (n / 16 mod 16);
        hex_char (n mod 16)].

(** The pieces with a separator between them. *)
Definition joined (sep : N) (l : list (list N)) : list N :=
  match l with
  | [] => []
  | x :: l' => (x ++ flat_map (λ y, sep :: y) l')%list
  end.

(** ** IPv4 texts *)

(** A number is read up to the first byte that is no digit. *)
Lemma read_digits_app radix m r c l rest :
  match rest with b :: _ => to_digit radix b = None | [] => True end →
  ∀ v n, read_digits radix m r c l = Some (v, n, []) →
  read_digits radix m r c (l ++ rest) = Some (v, n, rest).
Proof.
  intros Hrest. revert r c. induction l as [|b l IH]; intros r c v n; cbn [read_digits app].
  - intros [= <- <-]. destruct rest as [|b rest]; cbn; [done|]. by rewrite Hrest.
  - destruct (to_digit radix b); [|done]. destruct (m <? S c)%nat; [done|]. apply IH.
Qed.

Definition octet_ok (o : N) : bool :=
  match read_digits 10 3 0 0 (show_N o) with
  | Some (v, n, []) =>
      (v =? o) && negb (n =? 0)%nat
      && negb (match show_N o with b :: _ => b =? 48 | [] => false end && (1 <? n)%nat)
  | _ => false
  end.

Lemma octet_all : forallb octet_ok (map N.of_nat (seq 0 256)) = true.
Proof. vm_compute. reflexivity. Qed.

Lemma octet_lt o : o < 256 → octet_ok o = true.
Proof.
  intros Ho. pose proof octet_all as Hall. rewrite forallb_forall in Hall. apply Hall.
  rewrite <- (N2Nat.id o). apply in_map, in_seq. lia.
Qed.

Lemma read_octet o rest :
  o < 256 → match rest with b :: _ => to_digit 10 b = None | [] => True end →
  read_number 10 3 false 255 (show_N o ++ rest) = Some (o, rest).
Proof.
  intros Ho Hrest. apply octet_lt in Ho as Hok. unfold octet_ok in Hok.
  destruct (read_digits 10 3 0 0 (show_N o)) as [[[v n] [|]]|] eqn:E; try done.
  destruct (show_N_head o) as (h & tl & Hhd & _).
  apply andb_true_iff in Hok as [[Hv Hn]%andb_true_iff Hz]. apply N.eqb_eq in Hv as ->.
  unfold read_number. rewrite (read_digits_app _ _ _ _ _ _ Hrest _ _ E).
  apply negb_true_iff in Hn as ->.
  assert (match (show_N o ++ rest)%list with b :: _ => b =? 48 | [] => false end
    = match show_N o with b :: _ => b =? 48 | [] => false end) as ->.
  { by rewrite Hhd. }
  apply negb_true_iff in Hz. cbn [negb andb]. rewrite Hz.
  assert ((255 <? o) = false) as -> by (apply N.ltb_ge; lia). done.
Qed.

Lemma read_octets_tail i os :
  Forall (λ o, o < 256) os →
  read_octets (S i) (length os) (flat_map (λ y, 46 :: y) (map show_N os)) = Some (os, []).
Proof.
  intros Hos. revert i. induction Hos as [|o os Ho Hos IH]; intros i; [done|].
  cbn [length map flat_map app read_octets read_separator read_given_char N.eqb Pos.eqb].
  rewrite read_octet; [by rewrite IH | done |]. by destruct os.
Qed.

Lemma read_octets_joined os :
  os ≠ [] → Forall (λ o, o < 256) os →
  read_octets 0 (length os) (joined 46 (map show_N os)) = Some (os, []).
Proof.
  intros Hne Hos. destruct Hos as [|o os Ho Hos]; [done|].
  cbn [length map joined read_octets read_separator].
  rewrite read_octet; [by rewrite read_octets_tail | done |]. by destruct os.
Qed.

Lemma show_N_bytes n : Forall (λ b, b < 256) (show_N n).
Proof.
  destruct (show_N_spec n) as (_ & Hd & _). eapply Forall_impl; [exact Hd|].
  intros c. unfold digit, is_digit. rewrite andb_true_iff, !N.leb_le. lia.
Qed.

Lemma joined_bytes os : Forall (λ b, b < 256) (joined 46 (map show_N os)).
Proof.
  destruct os as [|o os]; cbn; [constructor|]. apply Forall_app. split; [apply show_N_bytes|].
  induction os; cbn; [constructor|]. constructor; [done|]. apply Forall_app.
  split; [apply show_N_bytes | done].
Qed.

Lemma parse_ip_v4 os :
  length os = 4%nat → Forall (λ o, o < 256) os →
  parse_ip (of_bytes (joined 46 (map show_N os))) = Some (IpV4 os).
Proof.
  intros Hlen Hos. unfold parse_ip. rewrite bytes_of_bytes by apply joined_bytes.
  unfold read_ipv4_addr. rewrite <- Hlen, read_octets_joined; [done| |done]. by intros ->.
Qed.

Lemma joined_inj os os' :
  os ≠ [] → length os = length os' → Forall (λ o, o < 256) os → Forall (λ o, o < 256) os' →
  of_bytes (joined 46 (map show_N os)) = of_bytes (joined 46 (map show_N os')) → os = os'.
Proof.
  intros Hne Hlen Hos Hos' Heq%(f_equal bytes). rewrite !bytes_of_bytes in Heq by apply joined_bytes.
  assert (os' ≠ []) as Hne' by (intros ->; by destruct os).
  pose proof (read_octets_joined os Hne Hos) as H1.
  pose proof (read_octets_joined os' Hne' Hos') as H2. rewrite Heq, Hlen, H2 in H1. by injection H1.
Qed.
