(* ===== verification/Paths.v ===== *)
(** * [std::path] on Unix

    Components, joining, parents and prefixes of paths, as the file manager, the cron
    jobs and the staging slots use them.  A path is its text; two paths are compared
    by their components. *)
From S2P Require Import Prelude Text.
Open Scope N_scope.

(** 47 is [/], 46 is [.]. *)
Definition SLASH : N := 47.
Definition DOT : N := 46.

Inductive Component : Type :=
| RootDir
| CurDir
| ParentDir
| Normal (name : list N).

#[export] Instance Component_eq_dec : EqDecision Component.
Proof. solve_decision. Defined.

Definition has_root (p : list N) : bool :=
  match p with
  | b :: _ => b =? SLASH
  | [] => false
  end.

Definition is_absolute (p : list N) : bool := has_root p.

(** What a piece between separators stands for: [""] and [.] disappear. *)
Definition component (piece : list N) : option Component :=
  if bool_decide (piece = []) || bool_decide (piece = [DOT]) then None
  else if bool_decide (piece = [DOT; DOT]) then Some ParentDir
  else Some (Normal piece).

(** Only a leading [.] of a path without root is a component. *)
Definition leading (p : list N) : list Component :=
  if has_root p then [RootDir]
  else match split SLASH p with
       | piece :: _ => if bool_decide (piece = [DOT]) then [CurDir] else []
       | [] => []
       end.

(** [Path::components]. *)
Definition components (p : list N) : list Component :=
  (leading p ++ omap component (split SLASH p))%list.

(** [Path::starts_with]. *)
Definition path_starts_with (p base : list N) : bool :=
  bool_decide (components base `prefix_of` components p).

(** [Path::join]. *)
Definition path_join (base p : list N) : list N :=
  if is_absolute p then p
  else match last base with
       | Some b => if b =? SLASH then (base ++ p)%list else (base ++ SLASH :: p)%list
       | None => p
       end.

(** [Path::file_name]. *)
Definition file_name (p : list N) : option (list N) :=
  match last (components p) with
  | Some (Normal name) => Some name
  | _ => None
  end.

Definition component_text (c : Component) : list N :=
  match c with
  | RootDir => []
  | CurDir => [DOT]
  | ParentDir => [DOT; DOT]
  | Normal name => name
  end.

(** The text of a list of components: [/] between them, and alone for the root. *)
Fixpoint join_pieces (l : list (list N)) : list N :=
  match l with
  | [] => []
  | [x] => x
  | x :: l' => (x ++ SLASH :: join_pieces l')%list
  end.

Definition render (cs : list Component) : list N :=
  match cs with
  | [RootDir] => [SLASH]
  | _ => join_pieces (map component_text cs)
  end.

(** [Path::parent], as the path with these components. *)
Definition path_parent (p : list N) : option (list N) :=
  match last (components p) with
  | Some RootDir | None => None
  | Some _ => Some (render (removelast (components p)))
  end.

(** ** Lemmas *)

Lemma split_no_sep (c : N) (l : list N) : ~ In c l → split c l = [l].
Proof.
  induction l as [|b l IH]; cbn; [done|]. intros Hn.
  destruct (N.eqb_spec b c) as [->|]; [naive_solver|]. rewrite IH by naive_solver. done.
Qed.

Lemma split_app (c : N) (x y : list N) :
  ~ In c x → split c (x ++ c :: y) = x :: split c y.
Proof.
  induction x as [|b x IH]; cbn; intros Hn; [by rewrite N.eqb_refl|].
  destruct (N.eqb_spec b c) as [->|]; [naive_solver|]. rewrite IH by naive_solver. done.
Qed.

Lemma split_cat (c : N) (x y : list N) :
  split c (x ++ c :: y) = (split c x ++ split c y)%list.
Proof.
  induction x as [|b x IH]; cbn; [by rewrite N.eqb_refl|].
  destruct (b =? c); [by rewrite IH|]. rewrite IH.
  destruct (split c x) eqn:E; [by apply split_nonempty in E | done].
Qed.

Lemma split_pieces (c : N) (l piece : list N) : In piece (split c l) → ~ In c piece.
Proof.
  revert piece. induction l as [|b l IH]; cbn; intros piece; [intros [<-|[]]; tauto|].
  destruct (N.eqb_spec b c) as [->|Hne]; [intros [<-|Hin]; [tauto | by apply IH]|].
  destruct (split c l) as [|q rest]; [intros [<-|[]]; cbn; naive_solver|].
  intros [<-|Hin]; [|apply IH; by right]. intros [|Hin]; [done|]. apply (IH q); [by left | done].
Qed.

(** The components of a path joined to a base that has a root. *)
Lemma components_join (base p : list N) :
  has_root base = true → has_root p = false →
  components (path_join base p) = (components base ++ omap component (split SLASH p))%list.
Proof.
  intros Hb Hp. destruct base as [|b base] using rev_ind; [done|]. clear IHbase.
  unfold path_join, is_absolute. rewrite Hp, last_snoc. unfold components, leading.
  assert (∀ q, has_root ((base ++ [b]) ++ q) = true) as Hroot
    by (intros q; by destruct base).
  destruct (N.eqb_spec b SLASH) as [->|Hne]; rewrite Hroot, Hb.
  - rewrite <- app_assoc. cbn [app]. rewrite split_cat, split_cat. cbn [split app].
    rewrite !omap_app. cbn. by rewrite app_nil_r.
  - rewrite split_cat, omap_app. done.
Qed.

Lemma path_starts_with_app (p base : list N) l :
  components p = (components base ++ l)%list → path_starts_with p base = true.
Proof. intros Hp. unfold path_starts_with. apply bool_decide_eq_true. rewrite Hp. by exists l. Qed.

Lemma component_piece (piece : list N) c :
  component piece = Some c →
  (piece = [DOT; DOT] ∧ c = ParentDir)
  ∨ (c = Normal piece ∧ piece ≠ [] ∧ piece ≠ [DOT] ∧ piece ≠ [DOT; DOT]).
Proof.
  unfold component. repeat case_bool_decide; cbn; try done; intros [= <-]; auto.
Qed.

(** A path has a [..] component exactly when one of its pieces is [..]. *)
Lemma parent_component (p : list N) :
  In ParentDir (components p) ↔ In [DOT; DOT] (split SLASH p).
Proof.
  unfold components. rewrite in_app_iff. split.
  - intros [Hl|Hin].
    + unfold leading in Hl. destruct (has_root p); [by destruct Hl as [|[]]|].
      destruct (split SLASH p); [done|]. case_bool_decide; [by destruct Hl as [|[]] | done].
    + apply list_elem_of_In, list_elem_of_omap in Hin as (piece & Hin & Hc).
      apply component_piece in Hc as [[-> _]|[? _]]; [by apply list_elem_of_In | done].
  - intros Hin. right. apply list_elem_of_In, list_elem_of_omap.
    exists [DOT; DOT]. split; [by apply list_elem_of_In | done].
Qed.

(** *** Texts and their pieces *)

Lemma prefixb_spec (p l : list N) : prefixb p l = true ↔ ∃ y, l = (p ++ y)%list.
Proof.
  revert l. induction p as [|a p IH]; intros l; cbn.
  - split; [by exists l | done].
  - destruct l as [|b l]; [split; [done | by intros [y]]|]. rewrite andb_true_iff, N.eqb_eq, IH.
    split; [intros [-> [y ->]]; by exists y | intros [y [= -> ->]]; eauto].
Qed.

Lemma infixb_spec (p l : list N) : infixb p l = true ↔ ∃ x y, l = (x ++ p ++ y)%list.
Proof.
  induction l as [|b l IH].
  - unfold infixb. rewrite orb_false_r, prefixb_spec. split.
    + intros [y Hy]. by exists [], y.
    + intros (x & y & Hy). destruct x; [by exists y | done].
  - cbn [infixb]. rewrite orb_true_iff, prefixb_spec, IH. split.
    + intros [[y Hy]|(x & y & ->)]; [by exists [], y | by exists (b :: x), y].
    + intros ([|c x] & y & Hy); [left; by exists y|]. right. injection Hy as _ ->. eauto.
Qed.

(** A piece of a split text occurs in it. *)
Lemma split_infix (c : N) (l piece : list N) :
  In piece (split c l) → ∃ x y, l = (x ++ piece ++ y)%list.
Proof.
  assert (∀ l q rest, split c l = q :: rest →
    (∃ y, l = (q ++ y)%list) ∧ ∀ p, In p rest → ∃ x y, l = (x ++ p ++ y)%list) as Hgen.
  { clear. induction l as [|b l IH]; cbn; intros q rest Hs.
    - injection Hs as <- <-. split; [by exists [] | done].
    - destruct (N.eqb b c).
      + injection Hs as <- <-. split; [by exists (b :: l)|]. intros p Hp.
        destruct (split c l) as [|q' rest'] eqn:E; [done|]. destruct (IH _ _ eq_refl) as [[y ->] Hr].
        destruct Hp as [<-|Hp]; [by exists [b], y|]. destruct (Hr p Hp) as (x & z & ->). by exists (b :: x), z.
      + destruct (split c l) as [|q' rest'] eqn:E; [by apply split_nonempty in E|].
        injection Hs as <- <-. destruct (IH _ _ eq_refl) as [[y Hy] Hr]. split.
        * exists y. by rewrite Hy.
        * intros p Hp. destruct (Hr p Hp) as (x & z & ->). by exists (b :: x), z. }
  destruct (split c l) as [|q rest] eqn:E; [done|]. destruct (Hgen l q rest E) as [[y ->] Hr].
  intros [<-|Hin]; [by exists [], y | by apply Hr].
Qed.

Lemma split_once_first (c : N) (l x y : list N) : split_once c l = Some (x, y) → ~ In c x.
Proof.
  revert x. induction l as [|b l IH]; cbn; intros x; [done|].
  destruct (N.eqb_spec b c) as [->|]; [intros [= <- _]; tauto|].
  destruct (split_once c l) as [[x' y']|]; [|done]. intros [= <- ->]. cbn.
  specialize (IH x' eq_refl). tauto.
Qed.

Lemma rsplit_once_spec (c : N) (l x y : list N) :
  rsplit_once c l = Some (x, y) → l = (x ++ c :: y)%list ∧ ~ In c y.
Proof.
  unfold rsplit_once. intros Hs. destruct (split_once c (rev l)) as [[a b]|] eqn:E; [|done].
  injection Hs as <- <-. apply split_once_first in E as Hn. apply split_once_spec in E.
  rewrite <- in_rev. split; [|done].
  rewrite <- (rev_involutive l), E, rev_app_distr. cbn. by rewrite <- app_assoc.
Qed.

Lemma rsplit_once_app (c : N) (x y : list N) :
  ~ In c y → rsplit_once c (x ++ c :: y) = Some (x, y).
Proof.
  intros Hn. unfold rsplit_once. rewrite rev_app_distr. cbn. rewrite <- app_assoc. cbn.
  rewrite split_once_app by (by rewrite <- in_rev). by rewrite !rev_involutive.
Qed.

Lemma trim_end_prefix (c : N) (l : list N) : ∃ y, l = (trim_end_matches c l ++ y)%list.
Proof.
  unfold trim_end_matches.
  assert (∀ m, ∃ x, m = (x ++ drop_leading c m)%list) as Hd.
  { induction m as [|b m [x IH]]; [by exists []|]. cbn. destruct (b =? c); [|by exists []].
    exists (b :: x). cbn. by rewrite <- IH. }
  destruct (Hd (rev l)) as [x Hx]. exists (rev x). rewrite <- rev_app_distr, <- Hx. by rewrite rev_involutive.
Qed.

(** A path that continues [parent/] lies under [parent]. *)
Lemma starts_with_parent (parent rest : list N) :
  parent ≠ [] → path_starts_with (parent ++ SLASH :: rest) parent = true.
Proof.
  intros Hne. apply path_starts_with_app with (omap component (split SLASH rest)).
  unfold components. rewrite split_cat, omap_app, app_assoc. f_equal. f_equal.
  unfold leading. rewrite split_cat. destruct parent as [|b parent]; [done|]. cbn [has_root app].
  destruct (b =? SLASH); [done|].
  destruct (split SLASH (b :: parent)) as [|q rest'] eqn:E; [by apply split_nonempty in E | done].
Qed.
