(* ===== verification/AuditActions.v ===== *)
(** * The audited actions

    [crates/openpanel-core/src/audit/action.rs] and the stored-name parser of
    [crates/openpanel-core/src/audit/sqlite.rs].  [as_str] writes the name of an
    action to the log; [parse_action] reads it back when the log is shown. *)
From S2P Require Import Prelude.

(** [enum AuditAction]. *)
Inductive AuditAction : Type :=
| Login
| Logout
| UserCreated
| UserUpdated
| UserDisabled
| UserEnabled
| UserDeleted
| RoleChanged
| PasswordChanged
| PermissionDenied
| SiteCreated
| SiteDeleted
| SiteEnabled
| SiteDisabled
| SiteOwnerChanged
| SslIssued
| SslManualUploaded
| SslSelfSignedGenerated
| SslRevoked
| SslDeleted
| SslForceHttpsChanged
| DatabaseCreated
| DatabaseDeleted
| DatabasePasswordChanged
| FileUploaded
| FileUpdated
| FileRenamed
| FileModeChanged
| FileDeleted
| AlertFired
| SettingsChanged
| CronChanged
| CronRun
| BackupChanged
| BackupRun
| BackupRestore
| LogDownloaded
| DbPrivilegeGranted
| DbPrivilegeRevoked
| DbRemoteAccessChanged
| DbAdminToolLaunched
| IpPoolChanged
| IpAllocated
| IpReleased
| IpVhostRebound
| BillingChargebackComputed
| BillingWebhookAccepted
| BillingWebhookRejected
| LbMemberChanged
| WpScanned
| WpUpdated
| WpUpdateRolledBack
| WpCacheChanged
| WildcardCertIssued
| WildcardCertFailed
| RuntimeChanged
| IsolationApplied
| IsolationEnforceFailed
| DnsSecEnabled
| DnsSecDisabled
| DnsSecDsPublished
| AntispamChanged
| SieveApplied
| GitDeployed
| ForgeProviderRequestAccepted
| ForgeProviderMutationSucceeded
| ForgeProviderMutationDenied
| ForgeProviderMutationFailed
| ForgeProviderIdempotencyReplay
| MaintenanceWindowCreated
| FirewallChanged
| SecurityBlockChanged
| ServiceChanged
| DnsChanged
| MailChanged
| SoftwareChanged
| SoftwareArtifactInstalled
| TwoFactorEnrolled
| TwoFactorVerified
| TwoFactorFailed
| TwoFactorRevoked
| RecoveryCodeConsumed
| DeviceRemembered
| WafChanged
| SiteHttpControlsChanged
| SiteTransportChanged
| LogsPolicyChanged
| SshKeyChanged
| DeliverabilityChecked
| TerminalOpened
| TerminalClosed
| SsoLogin
| SnapshotCreated
| SnapshotRestored
| SnapshotPruned
| SessionRevoked
| DockerImagePulled
| DockerSpecRejected
| DockerCapabilityDenied
| DockerOomKilled
| DockerChanged
| DockerEgressDenied
| FtpChanged
| FtpLogin
| FtpLoginDenied
| FtpChrootEscape
| FtpTlsRequired
| FtpConcurrentLimit
| FtpTransferLimit
| FtpBindFailed
| FtpListenerRestart
| WebDavChanged
| MailCaptureStored
| MailCapturePurged
| MailCaptureToggled
| WebDavLogin
| WebDavLoginDenied
| TokenCreated
| TokenRotated
| TokenRevoked
| TokenRequest
| TokenExpired
| TokenScopeRejected
| TokenCidrRejected
| TokenRateLimited
| NotificationChanged
| DeliveryRejected
| DeliverySucceeded
| DeliveryFailed
| PitrStreamEnabled
| PitrStreamPaused
| PitrStreamResumed
| PitrStreamBroken
| PitrRestoreRequested
| PitrRestorePromoted
| PitrRestoreFailed
| PitrIncrementalCaptured
| StagingSlotCreated
| StagingSlotDeleted
| StagingSnapshotTaken
| StagingPromoted
| StagingPromotionRolledBack
| PreviewCreated
| PreviewReady
| PreviewDestroyed
| StatusPagePolicyChanged
| PluginInstalled
| PluginEnabled
| PluginDisabled
| PluginUninstalled
| PluginManifestRejected
| PluginInstalledFromMarketplace
| CollaboratorInvited
| CollaboratorUpdated
| CollaboratorRevoked
| RegistryImagePushed
| RegistryImagePruned
| AiAsked
| AiToolCalled
| AiActionExecuted
| AiActionDenied
| HardeningApplied
| HardeningReverted
| AuditRetentionChanged
| AuditPurged
| GdprExportRequested
| OsUpdateApplied
| ContainerStartQuotaBlocked
| ContainerQuotaPlanOverride
| ContainerImagePulled
| ContainerEgressLimitRaised
| BandwidthThresholdCrossed
| PlanCreated
| PlanUpdated
| PlanDisabled
| PlanEnabled
| PlanCloned
| PlanDeleted
| PlanDeleteBlocked
| PlanAssigned
| PlanReassigned
| PlanUnassigned
| AccountHierarchyChildCreated
| AccountHierarchyAttached
| AccountHierarchyDetached
| AccountHierarchyPoolSet
| AccountHierarchyPoolClaimed
| AccountHierarchyPoolReleased
| QuotaPolicyChanged
| QuotaPolicyDeleted
| QuotaSoftLimitReached
| QuotaHardLimitReached
| AgentRegistered
| AgentRevoked
| FleetTokenIssued
| FleetTokenRevoked
| RecipeManifestStored
| ClusterNodeDeclared
| ClusterNodeRoleChanged
| ClusterStorageDeclared
| ClusterReplicatedDatabaseDeclared
| MigrationPreviewed
| MigrationRunCommitted
| MigrationRunRolledBack
| MigrationRollbackCompleted
| MigrationAlreadyImportedRejected
| BackupCredentialCreated
| BackupCredentialDeleted
| BackupCredentialInUseRejected
| BackupRemoteTargetAttached
| BackupRemoteTested
| SiteCachePolicyUpdated
| SiteCachePolicyApplied
| SiteCachePolicyRolledBack
| CdnIntegrationCreated
| CdnIntegrationDeleted
| CdnPurged
| CdnPurgePartial
| CdnCredentialDecryptFailed
| SiteCloned
| SiteClonedFromTemplate
| ClonePiiAnonymised
| CloneKeptPii
| SiteTemplateExported
| TemplateSignatureFailed
| ThemeOverrideUpdated
| ThemeOverrideCleared
| WebAppInstallPlanned
| WebAppInstalled
| InstallArtifactRejected
| WebAppUninstalled
| WebAppUninstalledDroppedDb
| ScanProfileCreated
| ScanCompleted
| QuarantineRecordCreated
| QuarantineRecordRestored
| SiteBlockedQuarantined
| SiteBlockExpired
| WebmailSessionCreated
| WebmailCsrfRejected.

(** [AuditAction::as_str]. *)
Definition as_str (a : AuditAction) : string :=
  match a with
  | Login => "login"
  | Logout => "logout"
  | UserCreated => "user_created"
  | UserUpdated => "user_updated"
  | UserDisabled => "user_disabled"
  | UserEnabled => "user_enabled"
  | UserDeleted => "user_deleted"
  | RoleChanged => "role_changed"
  | PasswordChanged => "password_changed"
  | PermissionDenied => "permission_denied"
  | SiteCreated => "site_created"
  | SiteDeleted => "site_deleted"
  | SiteEnabled => "site_enabled"
  | SiteDisabled => "site_disabled"
  | SiteOwnerChanged => "site_owner_changed"
  | SslIssued => "ssl_issued"
  | SslManualUploaded => "ssl_manual_uploaded"
  | SslSelfSignedGenerated => "ssl_self_signed_generated"
  | SslRevoked => "ssl_revoked"
  | SslDeleted => "ssl_deleted"
  | SslForceHttpsChanged => "ssl_force_https_changed"
  | DatabaseCreated => "database_created"
  | DatabaseDeleted => "database_deleted"
  | DatabasePasswordChanged => "database_password_changed"
  | FileUploaded => "file_uploaded"
  | FileUpdated => "file_updated"
  | FileRenamed => "file_renamed"
  | FileModeChanged => "file_mode_changed"
  | FileDeleted => "file_deleted"
  | AlertFired => "alert_fired"
  | SettingsChanged => "settings_changed"
  | CronChanged => "cron_changed"
  | CronRun => "cron_run"
  | BackupChanged => "backup_changed"
  | BackupRun => "backup_run"
  | BackupRestore => "backup_restore"
  | LogDownloaded => "log_downloaded"
  | DbPrivilegeGranted => "db_privilege_granted"
  | DbPrivilegeRevoked => "db_privilege_revoked"
  | DbRemoteAccessChanged => "db_remote_access_changed"
  | DbAdminToolLaunched => "db_admin_tool_launched"
  | IpPoolChanged => "ip_pool_changed"
  | IpAllocated => "ip_allocated"
  | IpReleased => "ip_released"
  | IpVhostRebound => "ip_vhost_rebound"
  | BillingChargebackComputed => "billing_chargeback_computed"
  | BillingWebhookAccepted => "billing_webhook_accepted"
  | BillingWebhookRejected => "billing_webhook_rejected"
  | LbMemberChanged => "lb_member_changed"
  | WpScanned => "wp_scanned"
  | WpUpdated => "wp_updated"
  | WpUpdateRolledBack => "wp_update_rolled_back"
  | WpCacheChanged => "wp_cache_changed"
  | WildcardCertIssued => "wildcard_cert_issued"
  | WildcardCertFailed => "wildcard_cert_failed"
  | RuntimeChanged => "runtime_changed"
  | IsolationApplied => "isolation_applied"
  | IsolationEnforceFailed => "isolation_enforce_failed"
  | DnsSecEnabled => "dnssec_enabled"
  | DnsSecDisabled => "dnssec_disabled"
  | DnsSecDsPublished => "dnssec_ds_published"
  | AntispamChanged => "antispam_changed"
  | SieveApplied => "sieve_applied"
  | GitDeployed => "git_deployed"
  | ForgeProviderRequestAccepted => "forge_provider_request_accepted"
  | ForgeProviderMutationSucceeded => "forge_provider_mutation_succeeded"
  | ForgeProviderMutationDenied => "forge_provider_mutation_denied"
  | ForgeProviderMutationFailed => "forge_provider_mutation_failed"
  | ForgeProviderIdempotencyReplay => "forge_provider_idempotency_replay"
  | MaintenanceWindowCreated => "maintenance_window_created"
  | FirewallChanged => "firewall_changed"
  | SecurityBlockChanged => "security_block_changed"
  | ServiceChanged => "service_changed"
  | DnsChanged => "dns_changed"
  | MailChanged => "mail_changed"
  | SoftwareChanged => "software_changed"
  | SoftwareArtifactInstalled => "software_artifact_installed"
  | TwoFactorEnrolled => "two_factor_enrolled"
  | TwoFactorVerified => "two_factor_verified"
  | TwoFactorFailed => "two_factor_failed"
  | TwoFactorRevoked => "two_factor_revoked"
  | RecoveryCodeConsumed => "recovery_code_consumed"
  | DeviceRemembered => "device_remembered"
  | WafChanged => "waf_changed"
  | SiteHttpControlsChanged => "site_http_controls_changed"
  | SiteTransportChanged => "site_transport_changed"
  | LogsPolicyChanged => "logs_policy_changed"
  | SshKeyChanged => "ssh_key_changed"
  | DeliverabilityChecked => "deliverability_checked"
  | TerminalOpened => "terminal_opened"
  | TerminalClosed => "terminal_closed"
  | SsoLogin => "sso_login"
  | SnapshotCreated => "snapshot_created"
  | SnapshotRestored => "snapshot_restored"
  | SnapshotPruned => "snapshot_pruned"
  | SessionRevoked => "session_revoked"
  | DockerImagePulled => "docker_image_pulled"
  | DockerSpecRejected => "docker_spec_rejected"
  | DockerCapabilityDenied => "docker_capability_denied"
  | DockerOomKilled => "docker_oom_killed"
  | DockerChanged => "docker_changed"
  | DockerEgressDenied => "docker_egress_denied"
  | FtpChanged => "ftp_changed"
  | FtpLogin => "ftp_login"
  | FtpLoginDenied => "ftp_login_denied"
  | FtpChrootEscape => "ftp_chroot_escape"
  | FtpTlsRequired => "ftp_tls_required"
  | FtpConcurrentLimit => "ftp_concurrent_limit"
  | FtpTransferLimit => "ftp_transfer_limit"
  | FtpBindFailed => "ftp_bind_failed"
  | FtpListenerRestart => "ftp_listener_restart"
  | WebDavChanged => "webdav_changed"
  | MailCaptureStored => "mail_capture_stored"
  | MailCapturePurged => "mail_capture_purged"
  | MailCaptureToggled => "mail_capture_toggled"
  | WebDavLogin => "webdav_login"
  | WebDavLoginDenied => "webdav_login_denied"
  | TokenCreated => "token_created"
  | TokenRotated => "token_rotated"
  | TokenRevoked => "token_revoked"
  | TokenRequest => "token_request"
  | TokenExpired => "token_expired"
  | TokenScopeRejected => "token_scope_rejected"
  | TokenCidrRejected => "token_cidr_rejected"
  | TokenRateLimited => "token_rate_limited"
  | NotificationChanged => "notification_changed"
  | DeliveryRejected => "delivery_rejected"
  | DeliverySucceeded => "delivery_succeeded"
  | DeliveryFailed => "delivery_failed"
  | PitrStreamEnabled => "pitr_stream_enabled"
  | PitrStreamPaused => "pitr_stream_paused"
  | PitrStreamResumed => "pitr_stream_resumed"
  | PitrStreamBroken => "pitr_stream_broken"
  | PitrRestoreRequested => "pitr_restore_requested"
  | PitrRestorePromoted => "pitr_restore_promoted"
  | PitrRestoreFailed => "pitr_restore_failed"
  | PitrIncrementalCaptured => "pitr_incremental_captured"
  | StagingSlotCreated => "staging_slot_created"
  | StagingSlotDeleted => "staging_slot_deleted"
  | StagingSnapshotTaken => "staging_snapshot_taken"
  | StagingPromoted => "staging_promoted"
  | StagingPromotionRolledBack => "staging_promotion_rolled_back"
  | PreviewCreated => "preview_created"
  | PreviewReady => "preview_ready"
  | PreviewDestroyed => "preview_destroyed"
  | StatusPagePolicyChanged => "status_page_policy_changed"
  | PluginInstalled => "plugin_installed"
  | PluginEnabled => "plugin_enabled"
  | PluginDisabled => "plugin_disabled"
  | PluginUninstalled => "plugin_uninstalled"
  | PluginManifestRejected => "plugin_manifest_rejected"
  | PluginInstalledFromMarketplace => "plugin_installed_from_marketplace"
  | CollaboratorInvited => "collaborator_invited"
  | CollaboratorUpdated => "collaborator_updated"
  | CollaboratorRevoked => "collaborator_revoked"
  | RegistryImagePushed => "registry_image_pushed"
  | RegistryImagePruned => "registry_image_pruned"
  | AiAsked => "ai_asked"
  | AiToolCalled => "ai_tool_called"
  | AiActionExecuted => "ai_action_executed"
  | AiActionDenied => "ai_action_denied"
  | HardeningApplied => "hardening_applied"
  | HardeningReverted => "hardening_reverted"
  | AuditRetentionChanged => "audit_retention_changed"
  | AuditPurged => "audit_purged"
  | GdprExportRequested => "gdpr_export_requested"
  | OsUpdateApplied => "os_update_applied"
  | ContainerStartQuotaBlocked => "container_start_quota_blocked"
  | ContainerQuotaPlanOverride => "container_quota_plan_override"
  | ContainerImagePulled => "container_image_pulled"
  | ContainerEgressLimitRaised => "container_egress_limit_raised"
  | BandwidthThresholdCrossed => "bandwidth_threshold_crossed"
  | PlanCreated => "plan_created"
  | PlanUpdated => "plan_updated"
  | PlanDisabled => "plan_disabled"
  | PlanEnabled => "plan_enabled"
  | PlanCloned => "plan_cloned"
  | PlanDeleted => "plan_deleted"
  | PlanDeleteBlocked => "plan_delete_blocked"
  | PlanAssigned => "plan_assigned"
  | PlanReassigned => "plan_reassigned"
  | PlanUnassigned => "plan_unassigned"
  | AccountHierarchyChildCreated => "account_hierarchy_child_created"
  | AccountHierarchyAttached => "account_hierarchy_attached"
  | AccountHierarchyDetached => "account_hierarchy_detached"
  | AccountHierarchyPoolSet => "account_hierarchy_pool_set"
  | AccountHierarchyPoolClaimed => "account_hierarchy_pool_claimed"
  | AccountHierarchyPoolReleased => "account_hierarchy_pool_released"
  | QuotaPolicyChanged => "quota_policy_changed"
  | QuotaPolicyDeleted => "quota_policy_deleted"
  | QuotaSoftLimitReached => "quota_soft_limit_reached"
  | QuotaHardLimitReached => "quota_hard_limit_reached"
  | AgentRegistered => "agent_registered"
  | AgentRevoked => "agent_revoked"
  | FleetTokenIssued => "fleet_token_issued"
  | FleetTokenRevoked => "fleet_token_revoked"
  | RecipeManifestStored => "recipe_manifest_stored"
  | ClusterNodeDeclared => "cluster_node_declared"
  | ClusterNodeRoleChanged => "cluster_node_role_changed"
  | ClusterStorageDeclared => "cluster_storage_declared"
  | ClusterReplicatedDatabaseDeclared => "cluster_replicated_database_declared"
  | MigrationPreviewed => "migration_previewed"
  | MigrationRunCommitted => "migration_run_committed"
  | MigrationRunRolledBack => "migration_run_rolled_back"
  | MigrationRollbackCompleted => "migration_rollback_completed"
  | MigrationAlreadyImportedRejected => "migration_already_imported_rejected"
  | BackupCredentialCreated => "backup_credential_created"
  | BackupCredentialDeleted => "backup_credential_deleted"
  | BackupCredentialInUseRejected => "backup_credential_in_use_rejected"
  | BackupRemoteTargetAttached => "backup_remote_target_attached"
  | BackupRemoteTested => "backup_remote_tested"
  | SiteCachePolicyUpdated => "site_cache_policy_updated"
  | SiteCachePolicyApplied => "site_cache_policy_applied"
  | SiteCachePolicyRolledBack => "site_cache_policy_rolled_back"
  | CdnIntegrationCreated => "cdn_integration_created"
  | CdnIntegrationDeleted => "cdn_integration_deleted"
  | CdnPurged => "cdn_purged"
  | CdnPurgePartial => "cdn_purge_partial"
  | CdnCredentialDecryptFailed => "cdn_credential_decrypt_failed"
  | SiteCloned => "site_cloned"
  | SiteClonedFromTemplate => "site_cloned_from_template"
  | ClonePiiAnonymised => "clone_pii_anonymised"
  | CloneKeptPii => "clone_kept_pii"
  | SiteTemplateExported => "site_template_exported"
  | TemplateSignatureFailed => "template_signature_failed"
  | ThemeOverrideUpdated => "theme_override_updated"
  | ThemeOverrideCleared => "theme_override_cleared"
  | WebAppInstallPlanned => "web_app_install_planned"
  | WebAppInstalled => "web_app_installed"
  | InstallArtifactRejected => "install_artifact_rejected"
  | WebAppUninstalled => "web_app_uninstalled"
  | WebAppUninstalledDroppedDb => "web_app_uninstalled_dropped_db"
  | ScanProfileCreated => "scan_profile_created"
  | ScanCompleted => "scan_completed"
  | QuarantineRecordCreated => "quarantine_record_created"
  | QuarantineRecordRestored => "quarantine_record_restored"
  | SiteBlockedQuarantined => "site_blocked_quarantined"
  | SiteBlockExpired => "site_block_expired"
  | WebmailSessionCreated => "webmail_session_created"
  | WebmailCsrfRejected => "webmail_csrf_rejected"
  end.

(** The arms of [parse_action], in source order. *)
Definition parse_table : list (string * AuditAction) := [
  ("login", Login);
  ("logout", Logout);
  ("user_created", UserCreated);
  ("user_updated", UserUpdated);
  ("user_disabled", UserDisabled);
  ("user_enabled", UserEnabled);
  ("user_deleted", UserDeleted);
  ("role_changed", RoleChanged);
  ("password_changed", PasswordChanged);
  ("permission_denied", PermissionDenied);
  ("site_created", SiteCreated);
  ("site_deleted", SiteDeleted);
  ("site_enabled", SiteEnabled);
  ("site_disabled", SiteDisabled);
  ("site_owner_changed", SiteOwnerChanged);
  ("ssl_issued", SslIssued);
  ("ssl_manual_uploaded", SslManualUploaded);
  ("ssl_self_signed_generated", SslSelfSignedGenerated);
  ("ssl_revoked", SslRevoked);
  ("ssl_deleted", SslDeleted);
  ("ssl_force_https_changed", SslForceHttpsChanged);
  ("database_created", DatabaseCreated);
  ("database_deleted", DatabaseDeleted);
  ("database_password_changed", DatabasePasswordChanged);
  ("file_uploaded", FileUploaded);
  ("file_updated", FileUpdated);
  ("file_renamed", FileRenamed);
  ("file_mode_changed", FileModeChanged);
  ("file_deleted", FileDeleted);
  ("alert_fired", AlertFired);
  ("settings_changed", SettingsChanged);
  ("cron_changed", CronChanged);
  ("cron_run", CronRun);
  ("backup_changed", BackupChanged);
  ("backup_run", BackupRun);
  ("backup_restore", BackupRestore);
  ("log_downloaded", LogDownloaded);
  ("firewall_changed", FirewallChanged);
  ("security_block_changed", SecurityBlockChanged);
  ("service_changed", ServiceChanged);
  ("dns_changed", DnsChanged);
  ("mail_changed", MailChanged);
  ("software_changed", SoftwareChanged);
  ("software_artifact_installed", SoftwareArtifactInstalled);
  ("two_factor_enrolled", TwoFactorEnrolled);
  ("two_factor_verified", TwoFactorVerified);
  ("two_factor_failed", TwoFactorFailed);
  ("two_factor_revoked", TwoFactorRevoked);
  ("recovery_code_consumed", RecoveryCodeConsumed);
  ("device_remembered", DeviceRemembered);
  ("waf_changed", WafChanged);
  ("site_http_controls_changed", SiteHttpControlsChanged);
  ("site_transport_changed", SiteTransportChanged);
  ("db_remote_access_changed", DbRemoteAccessChanged);
  ("db_privilege_granted", DbPrivilegeGranted);
  ("db_privilege_revoked", DbPrivilegeRevoked);
  ("db_admin_tool_launched", DbAdminToolLaunched);
  ("runtime_changed", RuntimeChanged);
  ("logs_policy_changed", LogsPolicyChanged);
  ("ssh_key_changed", SshKeyChanged);
  ("deliverability_checked", DeliverabilityChecked);
  ("terminal_opened", TerminalOpened);
  ("terminal_closed", TerminalClosed);
  ("sso_login", SsoLogin);
  ("snapshot_created", SnapshotCreated);
  ("snapshot_restored", SnapshotRestored);
  ("snapshot_pruned", SnapshotPruned);
  ("session_revoked", SessionRevoked);
  ("docker_image_pulled", DockerImagePulled);
  ("docker_spec_rejected", DockerSpecRejected);
  ("docker_capability_denied", DockerCapabilityDenied);
  ("docker_oom_killed", DockerOomKilled);
  ("docker_changed", DockerChanged);
  ("docker_egress_denied", DockerEgressDenied);
  ("ftp_changed", FtpChanged);
  ("ftp_login", FtpLogin);
  ("ftp_login_denied", FtpLoginDenied);
  ("ftp_chroot_escape", FtpChrootEscape);
  ("ftp_tls_required", FtpTlsRequired);
  ("ftp_concurrent_limit", FtpConcurrentLimit);
  ("ftp_transfer_limit", FtpTransferLimit);
  ("ftp_bind_failed", FtpBindFailed);
  ("ftp_listener_restart", FtpListenerRestart);
  ("webdav_changed", WebDavChanged);
  ("mail_capture_stored", MailCaptureStored);
  ("mail_capture_purged", MailCapturePurged);
  ("mail_capture_toggled", MailCaptureToggled);
  ("webdav_login", WebDavLogin);
  ("webdav_login_denied", WebDavLoginDenied);
  ("token_created", TokenCreated);
  ("token_rotated", TokenRotated);
  ("token_revoked", TokenRevoked);
  ("token_request", TokenRequest);
  ("token_expired", TokenExpired);
  ("token_scope_rejected", TokenScopeRejected);
  ("token_cidr_rejected", TokenCidrRejected);
  ("token_rate_limited", TokenRateLimited);
  ("notification_changed", NotificationChanged);
  ("delivery_rejected", DeliveryRejected);
  ("delivery_succeeded", DeliverySucceeded);
  ("delivery_failed", DeliveryFailed);
  ("pitr_stream_enabled", PitrStreamEnabled);
  ("pitr_stream_paused", PitrStreamPaused);
  ("pitr_stream_resumed", PitrStreamResumed);
  ("pitr_stream_broken", PitrStreamBroken);
  ("pitr_restore_requested", PitrRestoreRequested);
  ("pitr_restore_promoted", PitrRestorePromoted);
  ("pitr_restore_failed", PitrRestoreFailed);
  ("pitr_incremental_captured", PitrIncrementalCaptured);
  ("staging_slot_created", StagingSlotCreated);
  ("staging_slot_deleted", StagingSlotDeleted);
  ("staging_snapshot_taken", StagingSnapshotTaken);
  ("staging_promoted", StagingPromoted);
  ("staging_promotion_rolled_back", StagingPromotionRolledBack);
  ("preview_created", PreviewCreated);
  ("preview_ready", PreviewReady);
  ("preview_destroyed", PreviewDestroyed);
  ("container_start_quota_blocked", ContainerStartQuotaBlocked);
  ("container_quota_plan_override", ContainerQuotaPlanOverride);
  ("container_image_pulled", ContainerImagePulled);
  ("container_egress_limit_raised", ContainerEgressLimitRaised);
  ("bandwidth_threshold_crossed", BandwidthThresholdCrossed);
  ("plan_created", PlanCreated);
  ("plan_updated", PlanUpdated);
  ("plan_disabled", PlanDisabled);
  ("plan_enabled", PlanEnabled);
  ("plan_cloned", PlanCloned);
  ("plan_deleted", PlanDeleted);
  ("plan_delete_blocked", PlanDeleteBlocked);
  ("plan_assigned", PlanAssigned);
  ("plan_reassigned", PlanReassigned);
  ("plan_unassigned", PlanUnassigned);
  ("account_hierarchy_child_created", AccountHierarchyChildCreated);
  ("account_hierarchy_attached", AccountHierarchyAttached);
  ("account_hierarchy_detached", AccountHierarchyDetached);
  ("account_hierarchy_pool_set", AccountHierarchyPoolSet);
  ("account_hierarchy_pool_claimed", AccountHierarchyPoolClaimed);
  ("account_hierarchy_pool_released", AccountHierarchyPoolReleased);
  ("quota_policy_changed", QuotaPolicyChanged);
  ("quota_policy_deleted", QuotaPolicyDeleted);
  ("quota_soft_limit_reached", QuotaSoftLimitReached);
  ("quota_hard_limit_reached", QuotaHardLimitReached);
  ("agent_registered", AgentRegistered);
  ("agent_revoked", AgentRevoked);
  ("fleet_token_issued", FleetTokenIssued);
  ("fleet_token_revoked", FleetTokenRevoked);
  ("recipe_manifest_stored", RecipeManifestStored);
  ("cluster_node_declared", ClusterNodeDeclared);
  ("cluster_node_role_changed", ClusterNodeRoleChanged);
  ("cluster_storage_declared", ClusterStorageDeclared);
  ("cluster_replicated_database_declared", ClusterReplicatedDatabaseDeclared);
  ("migration_previewed", MigrationPreviewed);
  ("migration_run_committed", MigrationRunCommitted);
  ("migration_run_rolled_back", MigrationRunRolledBack);
  ("migration_rollback_completed", MigrationRollbackCompleted);
  ("migration_already_imported_rejected", MigrationAlreadyImportedRejected);
  ("backup_credential_created", BackupCredentialCreated);
  ("backup_credential_deleted", BackupCredentialDeleted);
  ("backup_credential_in_use_rejected", BackupCredentialInUseRejected);
  ("backup_remote_target_attached", BackupRemoteTargetAttached);
  ("backup_remote_tested", BackupRemoteTested);
  ("site_cache_policy_updated", SiteCachePolicyUpdated);
  ("site_cache_policy_applied", SiteCachePolicyApplied);
  ("site_cache_policy_rolled_back", SiteCachePolicyRolledBack);
  ("cdn_integration_created", CdnIntegrationCreated);
  ("cdn_integration_deleted", CdnIntegrationDeleted);
  ("cdn_purged", CdnPurged);
  ("cdn_purge_partial", CdnPurgePartial);
  ("cdn_credential_decrypt_failed", CdnCredentialDecryptFailed);
  ("site_cloned", SiteCloned);
  ("site_cloned_from_template", SiteClonedFromTemplate);
  ("clone_pii_anonymised", ClonePiiAnonymised);
  ("clone_kept_pii", CloneKeptPii);
  ("site_template_exported", SiteTemplateExported);
  ("template_signature_failed", TemplateSignatureFailed);
  ("theme_override_updated", ThemeOverrideUpdated);
  ("theme_override_cleared", ThemeOverrideCleared);
  ("web_app_install_planned", WebAppInstallPlanned);
  ("web_app_installed", WebAppInstalled);
  ("install_artifact_rejected", InstallArtifactRejected);
  ("web_app_uninstalled", WebAppUninstalled);
  ("web_app_uninstalled_dropped_db", WebAppUninstalledDroppedDb);
  ("scan_profile_created", ScanProfileCreated);
  ("scan_completed", ScanCompleted);
  ("quarantine_record_created", QuarantineRecordCreated);
  ("quarantine_record_restored", QuarantineRecordRestored);
  ("site_blocked_quarantined", SiteBlockedQuarantined);
  ("site_block_expired", SiteBlockExpired);
  ("webmail_session_created", WebmailSessionCreated);
  ("webmail_csrf_rejected", WebmailCsrfRejected);
  ("forge_provider_request_accepted", ForgeProviderRequestAccepted);
  ("forge_provider_mutation_succeeded", ForgeProviderMutationSucceeded);
  ("forge_provider_mutation_denied", ForgeProviderMutationDenied);
  ("forge_provider_mutation_failed", ForgeProviderMutationFailed);
  ("forge_provider_idempotency_replay", ForgeProviderIdempotencyReplay)].

(** [parse_action]: the first arm whose name matches, or [None]. *)
Definition parse_action (s : string) : option AuditAction :=
  match List.find (λ arm, String.eqb arm.1 s) parse_table with
  | Some arm => Some arm.2
  | None => None
  end.

(** The actions that have a stored name but no arm in [parse_action]. *)
Definition unparsed : list AuditAction := [
  IpPoolChanged; IpAllocated; IpReleased; IpVhostRebound; BillingChargebackComputed; BillingWebhookAccepted; BillingWebhookRejected; LbMemberChanged; WpScanned; WpUpdated; WpUpdateRolledBack; WpCacheChanged; WildcardCertIssued; WildcardCertFailed; IsolationApplied; IsolationEnforceFailed; DnsSecEnabled; DnsSecDisabled; DnsSecDsPublished; AntispamChanged; SieveApplied; GitDeployed; MaintenanceWindowCreated; StatusPagePolicyChanged; PluginInstalled; PluginEnabled; PluginDisabled; PluginUninstalled; PluginManifestRejected; PluginInstalledFromMarketplace; CollaboratorInvited; CollaboratorUpdated; CollaboratorRevoked; RegistryImagePushed; RegistryImagePruned; AiAsked; AiToolCalled; AiActionExecuted; AiActionDenied; HardeningApplied; HardeningReverted; AuditRetentionChanged; AuditPurged; GdprExportRequested; OsUpdateApplied].

Definition unparsed_name (s : string) : bool :=
  List.existsb (λ a, String.eqb (as_str a) s) unparsed.

Lemma parse_action_as_str (a : AuditAction) :
  parse_action (as_str a) = if unparsed_name (as_str a) then None else Some a.
Proof. destruct a; vm_compute; reflexivity. Qed.

(** Every arm of the parser reads the name [as_str] writes for its action. *)
Lemma parse_table_names : Forall (λ arm, as_str arm.2 = arm.1) parse_table.
Proof. repeat (apply Forall_cons; split; [reflexivity|]). apply Forall_nil. done. Qed.

Lemma parse_action_sound (s : string) (a : AuditAction) :
  parse_action s = Some a → as_str a = s.
Proof.
  unfold parse_action. destruct (List.find _ parse_table) as [arm|] eqn:E; [|done].
  intros [= <-]. apply List.find_some in E as [Hin Heq%String.eqb_eq]. subst s.
  pose proof parse_table_names as H. rewrite List.Forall_forall in H. by apply H.
Qed.
