(* ===== verification/AuditLog.v ===== *)
(** * Audit log: events, redaction, cursors and paged queries

    [crates/openpanel-core/src/audit/] ([mod.rs], [redaction.rs], [cursor.rs],
    [sqlite.rs]).  The log is the table of its rows; [record] lives with the
    world it writes to, in [Store]. *)
From S2P Require Import Prelude Text AuditActions.

(** ** Events *)

(** [serde_json::Value].  A number is its decimal text; an object lists its
    members in map order. *)
Inductive Json : Type :=
| JNull
| JBool (b : bool)
| JNumber (repr : string)
| JString (s : string)
| JArray (l : list Json)
| JObject (m : list (string * Json)).

Section json_ind.
Variable P : Json → Prop.
Hypothesis Hnull : P JNull.
Hypothesis Hbool : ∀ b, P (JBool b).
Hypothesis Hnum : ∀ n, P (JNumber n).
Hypothesis Hstr : ∀ s, P (JString s).
Hypothesis Harr : ∀ l, Forall P l → P (JArray l).
Hypothesis Hobj : ∀ m, Forall (λ kv, P kv.2) m → P (JObject m).

Fixpoint Json_nested_ind (v : Json) : P v :=
  match v with
  | JNull => Hnull
  | JBool b => Hbool b
  | JNumber n => Hnum n
  | JString s => Hstr s
  | JArray l =>
      Harr l ((fix go l : Forall P l :=
        match l with
        | [] => Forall_nil_2 _
        | x :: l' => Forall_cons_2 _ _ _ (Json_nested_ind x) (go l')
        end) l)
  | JObject m =>
      Hobj m ((fix go m : Forall (λ kv, P kv.2) m :=
        match m with
        | [] => Forall_nil_2 _
        | kv :: m' => Forall_cons_2 _ _ _ (Json_nested_ind kv.2) (go m')
        end) m)
  end.
End json_ind.

Inductive AuditOutcome : Type := Success | Failure | Denied.

Definition outcome_as_str (o : AuditOutcome) : string :=
  match o with
  | Success => "success"
  | Failure => "failure"
  | Denied => "denied"
  end.

Definition parse_outcome (s : string) : AuditOutcome :=
  if String.eqb s "success" then Success
  else if String.eqb s "failure" then Failure
  else if String.eqb s "denied" then Denied
  else Failure.

Record AuditEvent := mkEvent {
  ev_ts : DateTime;
  ev_actor : string;
  ev_action : AuditAction;
  ev_target : option string;
  ev_source_ip : option string;
  ev_outcome : AuditOutcome;
  ev_metadata : Json
}.

(** [AuditEvent::new] and its builders; [ts] is the [Utc::now()] it reads. *)
Definition event_new (ts : DateTime) (actor : string) (action : AuditAction)
    (outcome : AuditOutcome) : AuditEvent :=
  {| ev_ts := ts; ev_actor := actor; ev_action := action; ev_target := None;
     ev_source_ip := None; ev_outcome := outcome; ev_metadata := JNull |}.

Definition with_target (t : string) (e : AuditEvent) : AuditEvent :=
  {| ev_ts := ev_ts e; ev_actor := ev_actor e; ev_action := ev_action e;
     ev_target := Some t; ev_source_ip := ev_source_ip e;
     ev_outcome := ev_outcome e; ev_metadata := ev_metadata e |}.

Definition with_source_ip (ip : string) (e : AuditEvent) : AuditEvent :=
  {| ev_ts := ev_ts e; ev_actor := ev_actor e; ev_action := ev_action e;
     ev_target := ev_target e; ev_source_ip := Some ip;
     ev_outcome := ev_outcome e; ev_metadata := ev_metadata e |}.

Definition with_metadata (m : Json) (e : AuditEvent) : AuditEvent :=
  {| ev_ts := ev_ts e; ev_actor := ev_actor e; ev_action := ev_action e;
     ev_target := ev_target e; ev_source_ip := ev_source_ip e;
     ev_outcome := ev_outcome e; ev_metadata := m |}.

(** ** Redaction ([redaction.rs]) *)

Definition SECRET_KEYS : list string :=
  ["password"; "passwd"; "pwd"; "token"; "secret"; "key"; "api_key"; "apikey";
   "private"; "pem"; "cert"; "certificate"; "csr"; "credential"; "credentials";
   "body"; "passphrase"; "auth"; "authorization"; "session"; "cookie"; "bearer";
   "otp"; "signature"; "salt"; "webhook"; "hook"; "ssh"; "private_key"].

Definition is_secret_key (key : string) : bool :=
  let k := to_lowercase (chars key) in
  existsb (λ s, infixb (bytes s) k) SECRET_KEYS.

Definition blob_char (c : N) : bool :=
  is_ascii_alphanumeric c || existsb (N.eqb c) (bytes "+/=-_").

Definition looks_like_secret (value : string) : bool :=
  let v := trim (chars value) in
  if prefixb (bytes "-----BEGIN") v then true
  else if prefixb (bytes "eyJ") v && (length (split 46 v) =? 3)%nat then true
  else if (40 <=? chars_len v)%N && forallb blob_char v then true
  else if (64 <=? chars_len v)%N
          && (negb (match v with [] => true | _ => false end)
              && forallb is_ascii_hexdigit v) then true
  else false.

Arguments is_secret_key : simpl never.
Arguments looks_like_secret : simpl never.

Definition REDACTED : string := "***redacted***".

Fixpoint redact_metadata (value : Json) : Json :=
  match value with
  | JObject m =>
      JObject ((fix go m := match m with
        | [] => []
        | (k, v) :: m' =>
            if is_secret_key k then go m' else (k, redact_metadata v) :: go m'
        end) m)
  | JArray l => JArray (map redact_metadata l)
  | JString s => if looks_like_secret s then JString REDACTED else JString s
  | other => other
  end.

(** No secret-named member and no secret-looking string, at any depth. *)
Fixpoint render_safe (v : Json) : bool :=
  match v with
  | JObject m =>
      (fix go m := match m with
        | [] => true
        | (k, v) :: m' => negb (is_secret_key k) && render_safe v && go m'
        end) m
  | JArray l => forallb render_safe l
  | JString s => negb (looks_like_secret s)
  | _ => true
  end.

(** Follow member names into nested objects. *)
Fixpoint json_get (path : list string) (v : Json) : option Json :=
  match path with
  | [] => Some v
  | k :: path' =>
      match v with
      | JObject m =>
          match List.find (λ kv, String.eqb kv.1 k) m with
          | Some kv => json_get path' kv.2
          | None => None
          end
      | _ => None
      end
  end.

Record AuditView := mkView {
  av_ts : DateTime;
  av_actor : string;
  av_action : string;
  av_target : option string;
  av_source_ip : option string;
  av_outcome : string;
  av_metadata : Json
}.

(** [AuditView::from_event]. *)
Definition from_event (e : AuditEvent) : AuditView :=
  {| av_ts := ev_ts e; av_actor := ev_actor e; av_action := as_str (ev_action e);
     av_target := ev_target e; av_source_ip := ev_source_ip e;
     av_outcome := outcome_as_str (ev_outcome e);
     av_metadata := redact_metadata (ev_metadata e) |}.

(** ** Pagination cursors ([cursor.rs]) *)

Definition B64 : list N :=
  bytes "ABCDEFGHIJKLMNOPQRSTUVWXYZabcdefghijklmnopqrstuvwxyz0123456789+/".

Definition b64_at (i : N) : N := nth (N.to_nat i) B64 0%N.

(** [B64.iter().position(..)]. *)
Fixpoint position (x : N) (l : list N) (i : N) : option N :=
  match l with
  | [] => None
  | y :: l' => if (y =? x)%N then Some i else position x l' (i + 1)%N
  end.

Definition pack24 (b0 b1 b2 : N) : N :=
  N.lor (N.lor (N.shiftl b0 16) (N.shiftl b1 8)) b2.

Definition sextet (n k : N) : N := b64_at (N.land (N.shiftr n k) 63).

(** [encode_base64], one 3-byte chunk at a time; 61 is [=]. *)
Fixpoint encode_base64 (input : list N) : list N :=
  match input with
  | [] => []
  | [b0] =>
      let n := pack24 b0 0 0 in [sextet n 18; sextet n 12; 61%N; 61%N]
  | [b0; b1] =>
      let n := pack24 b0 b1 0 in [sextet n 18; sextet n 12; sextet n 6; 61%N]
  | b0 :: b1 :: b2 :: rest =>
      let n := pack24 b0 b1 b2 in
      sextet n 18 :: sextet n 12 :: sextet n 6 :: sextet n 0 :: encode_base64 rest
  end.

(** The first loop of [decode_base64]; [c as u8] keeps the low byte. *)
Fixpoint base64_groups (cs : list N) : option (list N) :=
  match cs with
  | [] => Some []
  | c :: cs' =>
      if (c =? 61)%N then base64_groups cs'
      else match position (c mod 256)%N B64 0 with
           | None => None
           | Some v =>
               match base64_groups cs' with
               | Some gs => Some (v :: gs)
               | None => None
               end
           end
  end.

Definition unpack24 (g0 g1 g2 g3 : N) : N :=
  N.lor (N.lor (N.lor (N.shiftl g0 18) (N.shiftl g1 12)) (N.shiftl g2 6)) g3.

Definition byte_of (n k : N) : N := (N.shiftr n k mod 256)%N.

(** Its second loop, over 4-group chunks. *)
Fixpoint base64_bytes (gs : list N) : list N :=
  match gs with
  | [] => []
  | [_] => []
  | [g0; g1] => [byte_of (unpack24 g0 g1 0 0) 16]
  | [g0; g1; g2] =>
      let n := unpack24 g0 g1 g2 0 in [byte_of n 16; byte_of n 8]
  | g0 :: g1 :: g2 :: g3 :: rest =>
      let n := unpack24 g0 g1 g2 g3 in
      byte_of n 16 :: byte_of n 8 :: byte_of n 0 :: base64_bytes rest
  end.

(** [decode_base64], on the scalar values of the input. *)
Definition decode_base64 (input : list N) : option (list N) :=
  match base64_groups (trim input) with
  | Some gs => Some (base64_bytes gs)
  | None => None
  end.

Record AuditCursor := mkCursor { cur_ts : DateTime; cur_id : Z }.

Section cursor.
(** [DateTime::to_rfc3339] and [DateTime::parse_from_rfc3339] of [chrono]. *)
Context (to_rfc3339 : DateTime → string) (parse_from_rfc3339 : string → option DateTime).

(** [AuditCursor::encode]; 124 is [|]. *)
Definition cursor_encode (c : AuditCursor) : list N :=
  encode_base64 (bytes (to_rfc3339 (cur_ts c)) ++ 124%N :: show_Z (cur_id c)).

(** [AuditCursor::decode]. *)
Definition cursor_decode (s : list N) : option AuditCursor :=
  match decode_base64 s with
  | None => None
  | Some raw =>
      if negb (valid_utf8 raw) then None else
      match split_once 124 raw with
      | None => None
      | Some (ts_part, id_part) =>
          match parse_from_rfc3339 (of_bytes ts_part) with
          | None => None
          | Some ts =>
              match parse_i64 id_part with
              | None => None
              | Some id => Some {| cur_ts := ts; cur_id := id |}
              end
          end
      end
  end.
End cursor.

(** ** The log table and its queries ([sqlite.rs]) *)

(** A row of [audit_log].  The timestamp column holds [chrono]'s RFC 3339 text,
    whose order is the order of the instants; the metadata column holds JSON. *)
Record AuditRow := mkRow {
  row_id : Z;
  row_ts : DateTime;
  row_actor : string;
  row_action : string;
  row_target : option string;
  row_source_ip : option string;
  row_outcome : string;
  row_metadata : option Json
}.

Record AuditQuery := mkQuery {
  q_actor : option string;
  q_action : option string;
  q_target : option string;
  q_outcome : option string;
  q_from : option DateTime;
  q_to : option DateTime;
  q_cursor : option AuditCursor;
  q_limit : Z
}.

(** [AuditQuery::effective_limit]: one row more than the page. *)
Definition page_size (q : AuditQuery) : Z := Z.max 1 (Z.min (q_limit q) 200).
Definition effective_limit (q : AuditQuery) : Z := (page_size q + 1)%Z.

(** SQLite's [LIKE .. ESCAPE '\']: ASCII case-insensitive, [%] (37) any text,
    [_] (95) any character. *)
Definition ascii_lower (c : N) : N := if is_upper c then (c + 32)%N else c.

Fixpoint like (pat : list N) : list N → bool :=
  match pat with
  | [] => λ t, match t with [] => true | _ => false end
  | c :: pat' =>
      if (c =? 37)%N then
        fix any t := like pat' t || match t with [] => false | _ :: t' => any t' end
      else if (c =? 95)%N then
        λ t, match t with [] => false | _ :: t' => like pat' t' end
      else if (c =? 92)%N then
        match pat' with
        | [] => λ _, false
        | e :: pat'' => λ t,
            match t with
            | [] => false
            | d :: t' => (ascii_lower e =? ascii_lower d)%N && like pat'' t'
            end
        end
      else λ t,
        match t with
        | [] => false
        | d :: t' => (ascii_lower c =? ascii_lower d)%N && like pat' t'
        end
  end.

(** [format!("%{}%", v.replace('\\', "\\\\"))]. *)
Definition like_pattern (v : string) : list N :=
  37%N :: flat_map (λ c, if (c =? 92)%N then [92%N; 92%N] else [c]) (chars v) ++ [37%N].

Definition opt_cond {A} (o : option A) (f : A → bool) : bool :=
  match o with Some a => f a | None => true end.

(** [ts < ? OR (ts = ? AND id < ?)]. *)
Definition after_cursor (c : AuditCursor) (r : AuditRow) : bool :=
  ((row_ts r <? cur_ts c) || ((row_ts r =? cur_ts c) && (row_id r <? cur_id c)))%Z.

(** The [WHERE] clause without the cursor condition. *)
Definition matches_filters (q : AuditQuery) (r : AuditRow) : bool :=
  opt_cond (q_actor q) (String.eqb (row_actor r))
  && opt_cond (q_action q) (String.eqb (row_action r))
  && opt_cond (q_target q) (λ v, match row_target r with
       | Some t => like (like_pattern v) (chars t)
       | None => false
       end)
  && opt_cond (q_outcome q) (String.eqb (row_outcome r))
  && opt_cond (q_from q) (λ v, v <=? row_ts r)%Z
  && opt_cond (q_to q) (λ v, row_ts r <=? v)%Z.

Definition matches_query (q : AuditQuery) (r : AuditRow) : bool :=
  matches_filters q r && opt_cond (q_cursor q) (λ c, after_cursor c r).

(** [ORDER BY ts DESC, id DESC]. *)
Definition newer_eq (r1 r2 : AuditRow) : Prop :=
  (row_ts r2 < row_ts r1 ∨ row_ts r1 = row_ts r2 ∧ row_id r2 ≤ row_id r1)%Z.

#[export] Instance newer_eq_dec : RelDecision newer_eq.
Proof. unfold newer_eq. intros r1 r2. apply _. Defined.

Definition newest_first (t : list AuditRow) : list AuditRow := merge_sort newer_eq t.

(** [parse_audit_row]; a row of an unknown action is skipped. *)
Definition parse_audit_row (r : AuditRow) : option AuditEvent :=
  match parse_action (row_action r) with
  | None => None
  | Some action =>
      Some {| ev_ts := row_ts r; ev_actor := row_actor r; ev_action := action;
              ev_target := row_target r; ev_source_ip := row_source_ip r;
              ev_outcome := parse_outcome (row_outcome r);
              ev_metadata := default JNull (row_metadata r) |}
  end.

Record AuditPage := mkPage {
  page_events : list AuditView;
  page_next_cursor : option AuditCursor
}.

(** The rows a query fetches: one more than the page when there are more. *)
Definition fetch_rows (q : AuditQuery) (t : list AuditRow) : list AuditRow :=
  take (Z.to_nat (effective_limit q))
    (newest_first (List.filter (matches_query q) t)).

Definition has_more (q : AuditQuery) (t : list AuditRow) : bool :=
  (Z.of_nat (length (fetch_rows q t)) =? effective_limit q)%Z.

(** The rows shown on the page. *)
Definition page_rows (q : AuditQuery) (t : list AuditRow) : list AuditRow :=
  if has_more q t then take (length (fetch_rows q t) - 1) (fetch_rows q t)
  else fetch_rows q t.

(** [SqliteAuditService::query]. *)
Definition query (q : AuditQuery) (t : list AuditRow) : AuditPage :=
  {| page_events := map from_event (omap parse_audit_row (page_rows q t));
     page_next_cursor :=
       if has_more q t then
         match last (fetch_rows q t) with
         | Some extra => Some {| cur_ts := row_ts extra; cur_id := row_id extra |}
         | None => None
         end
       else None |}.

(** [SqliteAuditService::recent]: [ORDER BY ts DESC LIMIT ?], where a negative
    limit means no limit. *)
Definition ts_desc (r1 r2 : AuditRow) : Prop := (row_ts r2 ≤ row_ts r1)%Z.
#[export] Instance ts_desc_dec : RelDecision ts_desc.
Proof. unfold ts_desc. intros r1 r2. apply _. Defined.

Definition recent (limit : Z) (t : list AuditRow) : list AuditEvent :=
  let rows := merge_sort ts_desc t in
  omap parse_audit_row (if (limit <? 0)%Z then rows else take (Z.to_nat limit) rows).

(** ** Theorems *)

(** *** Redaction *)

Lemma redact_marker_safe : looks_like_secret REDACTED = false.
Proof. reflexivity. Qed.

Lemma redact_safe (v : Json) : render_safe (redact_metadata v) = true.
Proof.
  induction v as [| | |s|l IH|m IH] using Json_nested_ind; cbn; try done.
  - destruct (looks_like_secret s) eqn:E; cbn; [done | by rewrite E].
  - induction IH as [|x l Hx Hl IHl]; cbn; [done|]. by rewrite Hx.
  - induction IH as [|[k x] m Hx Hm IHm]; cbn in *; [done|].
    destruct (is_secret_key k) eqn:E; [exact IHm|]. cbn. rewrite E, Hx. exact IHm.
Qed.

Lemma redact_id_on_safe (v : Json) : render_safe v = true → redact_metadata v = v.
Proof.
  induction v as [| | |s|l IH|m IH] using Json_nested_ind; cbn; try done.
  - destruct (looks_like_secret s); done.
  - intros H. f_equal. induction IH as [|x l Hx Hl IHl]; cbn in *; [done|].
    apply andb_true_iff in H as [H1 H2]. by rewrite Hx, IHl.
  - intros H. f_equal. induction IH as [|[k x] m Hx Hm IHm]; cbn in *; [done|].
    apply andb_true_iff in H as [[H1%negb_true_iff H2]%andb_true_iff H3].
    by rewrite H1, Hx, IHm.
Qed.

Lemma find_redacted (k : string) (m : list (string * Json)) :
  is_secret_key k = false →
  List.find (λ kv, String.eqb kv.1 k)
    ((fix go m := match m with
      | [] => []
      | (k, v) :: m' =>
          if is_secret_key k then go m' else (k, redact_metadata v) :: go m'
      end) m)
  = prod_map id redact_metadata <$> List.find (λ kv, String.eqb kv.1 k) m.
Proof.
  intros Hk. induction m as [|[k' v] m IH]; cbn; [done|].
  destruct (String.eqb_spec k' k) as [->|Hne].
  - by rewrite Hk; cbn; rewrite String.eqb_refl.
  - destruct (is_secret_key k'); [done|]. cbn.
    by apply String.eqb_neq in Hne as ->.
Qed.

Lemma json_get_redact (path : list string) (v : Json) :
  Forall (λ k, is_secret_key k = false) path →
  json_get path (redact_metadata v) = redact_metadata <$> json_get path v.
Proof.
  intros Hp; revert v; induction Hp as [|k path Hk Hp IH]; intros v; cbn; [done|].
  destruct v as [| | |s|l|m]; cbn; try done; [by destruct (looks_like_secret s)|].
  rewrite find_redacted by done.
  destruct (List.find _ m) as [kv|]; cbn; [apply IH | done].
Qed.

(** *** Base 64 *)

Lemma lor_shiftl (a b k : N) : (b < 2 ^ k)%N → N.lor (N.shiftl a k) b = (a * 2 ^ k + b)%N.
Proof.
  intros Hb. rewrite <- N.shiftl_mul_pow2.
  assert (N.land (N.shiftl a k) b = 0)%N as H.
  { apply N.bits_inj_0. intros i. rewrite N.land_spec.
    destruct (N.lt_ge_cases i k) as [Hi|Hi].
    - by rewrite N.shiftl_spec_low.
    - rewrite andb_false_iff; right. destruct (N.eq_0_gt_0_cases b) as [->|Hb0]; [apply N.bits_0|].
      apply N.bits_above_log2. apply N.log2_lt_pow2; [done|].
      eapply N.lt_le_trans; [exact Hb|]. apply N.pow_le_mono_r; lia. }
  by rewrite N.add_nocarry_lxor, N.lxor_lor.
Qed.

Lemma pack24_add (b0 b1 b2 : N) : (b0 < 256 → b1 < 256 → b2 < 256 →
  pack24 b0 b1 b2 = b0 * 65536 + b1 * 256 + b2)%N.
Proof.
  intros H0 H1 H2. unfold pack24.
  rewrite <- N.lor_assoc, (lor_shiftl b1 b2 8) by done.
  rewrite lor_shiftl by (change (2 ^ 16)%N with 65536%N; change (2 ^ 8)%N with 256%N; lia).
  change (2 ^ 16)%N with 65536%N; change (2 ^ 8)%N with 256%N. lia.
Qed.

Lemma unpack24_add (g0 g1 g2 g3 : N) : (g0 < 64 → g1 < 64 → g2 < 64 → g3 < 64 →
  unpack24 g0 g1 g2 g3 = g0 * 262144 + g1 * 4096 + g2 * 64 + g3)%N.
Proof.
  intros H0 H1 H2 H3. unfold unpack24.
  rewrite <- !N.lor_assoc, (lor_shiftl g2 g3 6) by done. change (2 ^ 6)%N with 64%N.
  rewrite (lor_shiftl g1) by (change (2 ^ 12)%N with 4096%N; lia).
  change (2 ^ 12)%N with 4096%N.
  rewrite lor_shiftl by (change (2 ^ 18)%N with 262144%N; lia).
  change (2 ^ 18)%N with 262144%N. lia.
Qed.

Definition group (n k : N) : N := N.land (N.shiftr n k) 63.

Lemma group_div (n k : N) : group n k = (n / 2 ^ k mod 64)%N.
Proof. unfold group. by rewrite (N.land_ones _ 6), N.shiftr_div_pow2. Qed.

Lemma group_lt (n k : N) : (group n k < 64)%N.
Proof. rewrite group_div. by apply N.mod_lt. Qed.

Lemma byte_of_div (n k : N) : byte_of n k = (n / 2 ^ k mod 256)%N.
Proof. unfold byte_of. by rewrite N.shiftr_div_pow2. Qed.

Ltac n_arith :=
  change (2 ^ 0)%N with 1%N in *; change (2 ^ 6)%N with 64%N in *;
  change (2 ^ 8)%N with 256%N in *; change (2 ^ 12)%N with 4096%N in *;
  change (2 ^ 16)%N with 65536%N in *; change (2 ^ 18)%N with 262144%N in *;
  zify; Z.to_euclidean_division_equations; lia.

(** Packing three bytes and cutting the result into four groups loses nothing. *)
Lemma chunk_roundtrip (b0 b1 b2 : N) :
  (b0 < 256 → b1 < 256 → b2 < 256 →
   let n := pack24 b0 b1 b2 in
   let m := unpack24 (group n 18) (group n 12) (group n 6) (group n 0) in
   m = n ∧ byte_of n 16 = b0 ∧ byte_of n 8 = b1 ∧ byte_of n 0 = b2)%N.
Proof.
  intros H0 H1 H2 n m. subst n m.
  rewrite unpack24_add by apply group_lt.
  rewrite !group_div, !byte_of_div, pack24_add by done.
  repeat split; n_arith.
Qed.

(** The zero-padded last chunk has zero in the groups the padding replaces. *)
Lemma chunk_padding (b0 b1 : N) :
  (b0 < 256 → b1 < 256 →
   group (pack24 b0 0 0) 6 = 0 ∧ group (pack24 b0 0 0) 0 = 0
   ∧ group (pack24 b0 b1 0) 0 = 0)%N.
Proof.
  intros H0 H1. rewrite !group_div, !pack24_add by done. repeat split; n_arith.
Qed.

Lemma position_b64 (i : N) : (i < 64)%N →
  position (b64_at i mod 256)%N B64 0 = Some i ∧ b64_at i ≠ 61%N
  ∧ is_whitespace (b64_at i) = false ∧ (b64_at i < 128)%N.
Proof.
  intros Hi.
  assert (forallb (λ i, bool_decide (position (b64_at i mod 256)%N B64 0 = Some i
    ∧ b64_at i ≠ 61%N ∧ is_whitespace (b64_at i) = false ∧ (b64_at i < 128)%N))
    (map N.of_nat (seq 0 64)) = true) as H by (vm_compute; reflexivity).
  rewrite forallb_forall in H. specialize (H i).
  rewrite bool_decide_eq_true in H. apply H. apply in_map_iff.
  exists (N.to_nat i). split; [lia|]. apply in_seq. lia.
Qed.

Lemma base64_groups_sextet (n k : N) (cs : list N) :
  base64_groups (sextet n k :: cs) = (λ gs, group n k :: gs) <$> base64_groups cs.
Proof.
  unfold sextet; fold (group n k).
  destruct (position_b64 (group n k)) as (Hp & Hne & _); [apply group_lt|].
  cbn [base64_groups]. apply N.eqb_neq in Hne as ->. rewrite Hp.
  by destruct (base64_groups cs).
Qed.

(** Induction on a byte string three bytes at a time. *)
Lemma list_ind3 {A} (P : list A → Prop) :
  P [] → (∀ a, P [a]) → (∀ a b, P [a; b]) →
  (∀ a b c l, P l → P (a :: b :: c :: l)) → ∀ l, P l.
Proof.
  intros H0 H1 H2 H3. fix IH 1. intros [|a [|b [|c l]]]; [exact H0 | apply H1 | apply H2 |].
  apply H3, IH.
Qed.

Lemma encode_base64_chars (bs : list N) :
  Forall (λ c, is_whitespace c = false ∧ c < 128)%N (encode_base64 bs).
Proof.
  assert (∀ n k, is_whitespace (sextet n k) = false ∧ sextet n k < 128)%N as Hs.
  { intros n k. unfold sextet; fold (group n k).
    destruct (position_b64 (group n k)) as (_ & _ & ? & ?); [apply group_lt | done]. }
  induction bs as [|b0|b0 b1|b0 b1 b2 bs IH] using list_ind3; cbn [encode_base64];
    repeat (apply Forall_cons; split; [apply Hs || done|]); try apply Forall_nil; done.
Qed.

Lemma decode_encode_base64 (bs : list N) :
  Forall (λ b, b < 256)%N bs → decode_base64 (encode_base64 bs) = Some bs.
Proof.
  intros Hbs. unfold decode_base64. rewrite trim_id.
  2: { eapply Forall_impl; [apply encode_base64_chars|]. naive_solver. }
  assert (∃ gs, base64_groups (encode_base64 bs) = Some gs ∧ base64_bytes gs = bs) as H;
    [|by destruct H as (gs & -> & ->)].
  induction bs as [|b0|b0 b1|b0 b1 b2 bs IH] using list_ind3; cbn [encode_base64].
  - by exists [].
  - apply Forall_cons in Hbs as [H0 _].
    destruct (chunk_roundtrip b0 0 0) as (Hm & Hb & _); [done..|].
    destruct (chunk_padding b0 0) as (P1 & P2 & _); [done..|].
    rewrite !base64_groups_sextet. eexists; split; [reflexivity|].
    cbn [base64_bytes]. rewrite P1, P2 in Hm. by rewrite Hm, Hb.
  - apply Forall_cons in Hbs as [H0 [H1 _]%Forall_cons].
    destruct (chunk_roundtrip b0 b1 0) as (Hm & Hb0 & Hb1 & _); [done..|].
    destruct (chunk_padding b0 b1) as (_ & _ & P3); [done..|].
    rewrite !base64_groups_sextet. eexists; split; [reflexivity|].
    cbn [base64_bytes]. rewrite P3 in Hm. by rewrite Hm, Hb0, Hb1.
  - apply Forall_cons in Hbs as [H0 [H1 [H2 Hbs]%Forall_cons]%Forall_cons].
    destruct (chunk_roundtrip b0 b1 b2) as (Hm & Hb0 & Hb1 & Hb2); [done..|].
    destruct (IH Hbs) as (gs & Hgs & Hd). rewrite !base64_groups_sextet, Hgs.
    eexists; split; [reflexivity|]. cbn [base64_bytes]. by rewrite Hm, Hb0, Hb1, Hb2, Hd.
Qed.

(** *** Cursors *)

Section cursor_roundtrip.
Context (to_rfc3339 : DateTime → string) (parse_from_rfc3339 : string → option DateTime).
(** [chrono]: the RFC 3339 text of an instant parses back to it, and consists of
    digits and [-T:.+Z], never the separator [|]. *)
Hypothesis rfc3339_roundtrip : ∀ ts, parse_from_rfc3339 (to_rfc3339 ts) = Some ts.
Hypothesis rfc3339_chars : ∀ ts,
  Forall (λ b, is_digit b = true ∨ In b (bytes "-T:.+Z")) (bytes (to_rfc3339 ts)).

Lemma rfc3339_ascii (ts : DateTime) :
  Forall (λ b, b < 128 ∧ b ≠ 124)%N (bytes (to_rfc3339 ts)).
Proof using rfc3339_chars.
  eapply Forall_impl; [apply rfc3339_chars|]. intros b [Hd|Hin].
  - unfold is_digit in Hd. rewrite andb_true_iff, !N.leb_le in Hd. lia.
  - cbn in Hin. lia.
Qed.

Lemma cursor_roundtrip_aux (c : AuditCursor) :
  (- 2 ^ 63 ≤ cur_id c ≤ I64_MAX)%Z →
  cursor_decode parse_from_rfc3339 (cursor_encode to_rfc3339 c) = Some c.
Proof using All.
  intros Hid. unfold cursor_decode, cursor_encode.
  pose proof (rfc3339_ascii (cur_ts c)) as Hts.
  pose proof (show_Z_lt (cur_id c)) as Hz.
  assert (Forall (λ b, b < 128)%N
    (bytes (to_rfc3339 (cur_ts c)) ++ 124%N :: show_Z (cur_id c))) as Hall.
  { apply Forall_app; split; [eapply Forall_impl; [done|]; naive_solver|].
    constructor; [done|]. eapply Forall_impl; [done|]. naive_solver. }
  rewrite decode_encode_base64
    by (eapply Forall_impl; [exact Hall|]; cbn; intros; lia).
  rewrite valid_utf8_ascii by done. cbn [negb].
  rewrite split_once_app.
  2: { intros Hin%list_elem_of_In. rewrite Forall_forall in Hts. naive_solver. }
  rewrite of_bytes_bytes, rfc3339_roundtrip, parse_show_i64 by done. by destruct c.
Qed.
End cursor_roundtrip.

(** *** Paged queries *)

#[export] Instance newer_eq_trans : Transitive newer_eq.
Proof. unfold newer_eq. intros x y z. lia. Qed.
#[export] Instance newer_eq_total : Total newer_eq.
Proof. unfold newer_eq. intros x y. lia. Qed.

Definition with_cursor (q : AuditQuery) (c : AuditCursor) : AuditQuery :=
  {| q_actor := q_actor q; q_action := q_action q; q_target := q_target q;
     q_outcome := q_outcome q; q_from := q_from q; q_to := q_to q;
     q_cursor := Some c; q_limit := q_limit q |}.

Definition cursor_of (r : AuditRow) : AuditCursor :=
  {| cur_ts := row_ts r; cur_id := row_id r |}.

(** Everything the query selects, newest first. *)
Definition selected (q : AuditQuery) (t : list AuditRow) : list AuditRow :=
  newest_first (List.filter (matches_query q) t).

Definition page_nat (q : AuditQuery) : nat := Z.to_nat (page_size q).

Lemma page_nat_pos (q : AuditQuery) : (1 ≤ page_nat q ≤ 200)%nat.
Proof. unfold page_nat, page_size. lia. Qed.

Lemma fetch_rows_take (q : AuditQuery) (t : list AuditRow) :
  fetch_rows q t = take (S (page_nat q)) (selected q t).
Proof.
  unfold fetch_rows, selected, effective_limit, page_nat. f_equal.
  unfold page_size. lia.
Qed.

Lemma has_more_iff (q : AuditQuery) (t : list AuditRow) :
  has_more q t = bool_decide (page_nat q < length (selected q t))%nat.
Proof.
  unfold has_more. rewrite fetch_rows_take, length_take.
  unfold effective_limit. pose proof (page_nat_pos q) as Hp. unfold page_nat in *.
  case_bool_decide as E; [apply Z.eqb_eq | apply Z.eqb_neq]; lia.
Qed.

Lemma page_rows_take (q : AuditQuery) (t : list AuditRow) :
  page_rows q t = take (page_nat q) (selected q t).
Proof.
  unfold page_rows. rewrite has_more_iff, fetch_rows_take.
  case_bool_decide as E.
  - rewrite length_take, take_take. f_equal. lia.
  - rewrite !take_ge by lia. done.
Qed.

Lemma next_cursor_lookup (q : AuditQuery) (t : list AuditRow) :
  page_next_cursor (query q t) = cursor_of <$> selected q t !! page_nat q.
Proof.
  cbn. rewrite has_more_iff, fetch_rows_take. case_bool_decide as E.
  - rewrite last_lookup, length_take, lookup_take_lt by lia.
    replace (S (page_nat q) `min` length (selected q t)) with (S (page_nat q)) by lia.
    cbn. by destruct (selected q t !! page_nat q).
  - rewrite lookup_ge_None_2 by lia. done.
Qed.

Lemma selected_elem (q : AuditQuery) (t : list AuditRow) (r : AuditRow) :
  r ∈ selected q t ↔ r ∈ t ∧ matches_query q r = true.
Proof.
  unfold selected, newest_first. rewrite merge_sort_Permutation, !list_elem_of_In, filter_In.
  done.
Qed.

Lemma selected_sorted (q : AuditQuery) (t : list AuditRow) :
  StronglySorted newer_eq (selected q t).
Proof. apply StronglySorted_merge_sort; apply _. Qed.

Lemma filter_ids (p : AuditRow → bool) (t : list AuditRow) :
  NoDup (map row_id t) → NoDup (map row_id (List.filter p t)).
Proof.
  intros H. apply (delete_where_NoDup row_id (λ r, negb (p r))) in H.
  unfold delete_where in H. erewrite filter_ext in H; [exact H|].
  intros r. apply negb_involutive.
Qed.

Lemma selected_ids (q : AuditQuery) (t : list AuditRow) :
  NoDup (map row_id t) → NoDup (map row_id (selected q t)).
Proof.
  intros H. unfold selected, newest_first. change (map row_id) with (fmap (M:=list) row_id).
  rewrite merge_sort_Permutation. by apply filter_ids.
Qed.

(** Rows behind position [i] are exactly the selected rows after its cursor. *)
Lemma after_cursor_drop (q : AuditQuery) (t : list AuditRow) (i : nat) (x r : AuditRow) :
  NoDup (map row_id t) → selected q t !! i = Some x →
  r ∈ drop (S i) (selected q t) ↔ r ∈ selected q t ∧ after_cursor (cursor_of x) r = true.
Proof.
  intros Hnd Hx. pose proof (selected_sorted q t) as Hs.
  pose proof (selected_ids q t Hnd) as Hids.
  rewrite <- (take_drop_middle _ _ _ Hx) in Hs, Hids |- * at 2.
  change (map row_id) with (fmap (M:=list) row_id) in Hids.
  rewrite fmap_app, fmap_cons in Hids.
  apply NoDup_app in Hids as (_ & Hdis & [Hx1 _]%NoDup_cons).
  unfold after_cursor, cursor_of; cbn [cur_ts cur_id].
  rewrite orb_true_iff, andb_true_iff, !Z.ltb_lt, Z.eqb_eq. split.
  - intros Hr. split; [set_solver|].
    assert (newer_eq x r) as Hn.
    { apply StronglySorted_app_1_r, StronglySorted_inv in Hs as [_ Hf].
      rewrite Forall_forall in Hf. by apply Hf. }
    assert (row_id r ≠ row_id x) by (intros E; apply Hx1; rewrite <- E; by apply list_elem_of_fmap_2).
    unfold newer_eq in Hn. lia.
  - rewrite elem_of_app, elem_of_cons. intros [[Hr|[->|Hr]] Ha]; [| lia | done].
    assert (newer_eq r x) as Hn.
    { eapply StronglySorted_app_1_elem_of; [exact Hs | exact Hr | set_solver]. }
    exfalso. unfold newer_eq in Hn. lia.
Qed.

Lemma after_cursor_trans (q : AuditQuery) (x r : AuditRow) :
  opt_cond (q_cursor q) (λ c, after_cursor c x) = true →
  after_cursor (cursor_of x) r = true →
  opt_cond (q_cursor q) (λ c, after_cursor c r) = true.
Proof.
  destruct (q_cursor q) as [c|]; cbn; [|done]. unfold after_cursor; cbn.
  rewrite !orb_true_iff, !andb_true_iff, !Z.ltb_lt, !Z.eqb_eq. lia.
Qed.

(** The page behind a cursor selects what follows the cursor's row. *)
Lemma selected_next (q : AuditQuery) (t : list AuditRow) (x : AuditRow) (i : nat) :
  NoDup (map row_id t) → selected q t !! i = Some x →
  selected (with_cursor q (cursor_of x)) t = drop (S i) (selected q t).
Proof.
  intros Hnd Hx.
  assert (x ∈ t ∧ matches_query q x = true) as [Hxt Hxq]
    by (apply selected_elem; by eapply list_elem_of_lookup_2).
  apply (StronglySorted_unique_strong newer_eq).
  - intros a b [Ha _]%selected_elem Hb. apply list_elem_of_In in Ha.
    assert (In b t) as Hbt.
    { apply list_elem_of_In. apply (selected_elem q t).
      rewrite <- (take_drop (S i)). apply elem_of_app; by right. }
    unfold newer_eq. intros. eapply (NoDup_key_inj row_id t); [done..|]. lia.
  - apply selected_sorted.
  - pose proof (selected_sorted q t) as Hs. rewrite <- (take_drop (S i)) in Hs.
    by apply StronglySorted_app_1_r in Hs.
  - apply NoDup_Permutation.
    + eapply NoDup_fmap_1. apply selected_ids, Hnd.
    + eapply sublist_NoDup; [|apply sublist_drop]. eapply NoDup_fmap_1, (selected_ids q), Hnd.
    + intros r. rewrite (after_cursor_drop q t i x r Hnd Hx), !selected_elem.
      unfold matches_query. cbn [q_cursor with_cursor opt_cond].
      change (matches_filters (with_cursor q (cursor_of x)) r) with (matches_filters q r).
      unfold matches_query in Hxq. rewrite !andb_true_iff in *.
      naive_solver eauto using after_cursor_trans.
Qed.

(** All the rows shown when the cursors are followed to the end. *)
Fixpoint all_pages (fuel : nat) (q : AuditQuery) (t : list AuditRow) : list AuditRow :=
  match fuel with
  | O => []
  | S f =>
      page_rows q t ++
      match page_next_cursor (query q t) with
      | None => []
      | Some c => all_pages f (with_cursor q c) t
      end
  end.

(** Keep [n] elements, drop one, and so on. *)
Fixpoint skip_every (fuel n : nat) {A} (l : list A) : list A :=
  match fuel with
  | O => []
  | S f =>
      take n l ++ match drop n l with [] => [] | _ :: l' => skip_every f n l' end
  end.

Lemma all_pages_skip (fuel : nat) (q : AuditQuery) (t : list AuditRow) :
  NoDup (map row_id t) →
  all_pages fuel q t = skip_every fuel (page_nat q) (selected q t).
Proof.
  intros Hnd. revert q; induction fuel as [|f IH]; intros q; [done|].
  cbn [all_pages skip_every]. rewrite page_rows_take, next_cursor_lookup. f_equal.
  destruct (selected q t !! page_nat q) as [x|] eqn:E; cbn.
  - rewrite IH, (selected_next q t x _ Hnd E), (drop_S _ _ _ E).
    by change (page_nat (with_cursor q (cursor_of x))) with (page_nat q).
  - apply lookup_ge_None in E. by rewrite drop_ge by lia.
Qed.

Lemma skip_every_elem (fuel n : nat) {A} (l : list A) x : x ∈ skip_every fuel n l → x ∈ l.
Proof.
  revert l. induction fuel as [|f IH]; intros l; cbn; [by intros ?%list_elem_of_In|].
  rewrite elem_of_app. intros [Hx|Hx].
  - rewrite <- (take_drop n l). apply elem_of_app. by left.
  - rewrite <- (take_drop n l). apply elem_of_app. right.
    destruct (drop n l) as [|y l']; [by apply list_elem_of_In in Hx|].
    apply elem_of_cons. right. by apply IH.
Qed.

(** ** Properties *)

(** Redaction.  Redacted metadata has no member with a secret-shaped name and no
    secret-looking string at any depth; redacting again changes nothing; and what is
    found along names that are not secret is what was stored there, redacted. *)
Theorem redaction_spec (v : Json) :
  render_safe (redact_metadata v) = true
  ∧ redact_metadata (redact_metadata v) = redact_metadata v
  ∧ ∀ path, Forall (λ k, is_secret_key k = false) path →
      json_get path (redact_metadata v) = redact_metadata <$> json_get path v.
Proof.
  split_and!; [apply redact_safe | apply redact_id_on_safe, redact_safe |].
  intros path. apply json_get_redact.
Qed.

(** Audit pages.  A query shows, as redacted views, the decodable ones among the
    first [clamp(limit, 1, 200)] rows of the rows that match it, newest first; there
    is a next cursor exactly when more rows match. *)
Theorem audit_page_exact (q : AuditQuery) (t : list AuditRow) :
  page_events (query q t) = map from_event (omap parse_audit_row (take (page_nat q) (selected q t)))
  ∧ (1 ≤ page_nat q ≤ 200)%nat
  ∧ (∀ r, r ∈ selected q t ↔ r ∈ t ∧ matches_query q r = true)
  ∧ StronglySorted newer_eq (selected q t)
  ∧ (page_next_cursor (query q t) = None ↔ (length (selected q t) ≤ page_nat q)%nat)
  ∧ Forall (λ e, render_safe (av_metadata e) = true) (page_events (query q t)).
Proof.
  split_and!; try apply page_nat_pos.
  - cbn. by rewrite page_rows_take.
  - intros r. apply selected_elem.
  - apply selected_sorted.
  - rewrite next_cursor_lookup, fmap_None. apply lookup_ge_None.
  - apply List.Forall_forall. intros e. cbn. intros (ev & <- & _)%in_map_iff. apply redact_safe.
Qed.

(** Audit paging.  When a page is full and more rows match, the cursor it returns
    is that of the first row it does not show, and no page reached by following the
    cursors shows that row. *)
Theorem paging_drops_boundary_row (q : AuditQuery) (t : list AuditRow) (x : AuditRow) :
  NoDup (map row_id t) → selected q t !! page_nat q = Some x →
  page_next_cursor (query q t) = Some (cursor_of x) ∧ ∀ fuel, x ∉ all_pages fuel q t.
Proof.
  intros Hnd Hx. split; [by rewrite next_cursor_lookup, Hx|]. intros fuel.
  rewrite all_pages_skip by done. pose proof (selected_ids q t Hnd) as Hids.
  apply NoDup_fmap_1 in Hids. rewrite <- (take_drop_middle _ _ _ Hx) in Hids.
  apply NoDup_app in Hids as (_ & Hdis & [Hx1 _]%NoDup_cons).
  destruct fuel as [|f]; cbn; [by intros ?%list_elem_of_In|]. rewrite elem_of_app.
  intros [Hin|Hin]; [apply (Hdis x Hin); apply elem_of_cons; by left|].
  rewrite (drop_S _ _ _ Hx) in Hin. by apply skip_every_elem in Hin.
Qed.

(** Base64.  The cursor codec decodes what it encodes, for every byte string. *)
Theorem base64_roundtrip (bs : list N) :
  Forall (λ b, b < 256)%N bs → decode_base64 (encode_base64 bs) = Some bs.
Proof. apply decode_encode_base64. Qed.

(** Cursors.  Every cursor with an [i64] row id decodes from its token, given that
    [chrono]'s RFC 3339 text parses back and consists of digits and [-T:.+Z]. *)
Theorem cursor_roundtrip (to_rfc3339 : DateTime → string)
    (parse_from_rfc3339 : string → option DateTime) (c : AuditCursor) :
  (∀ ts, parse_from_rfc3339 (to_rfc3339 ts) = Some ts) →
  (∀ ts, Forall (λ b, is_digit b = true ∨ In b (bytes "-T:.+Z")) (bytes (to_rfc3339 ts))) →
  (- 2 ^ 63 ≤ cur_id c ≤ I64_MAX)%Z →
  cursor_decode parse_from_rfc3339 (cursor_encode to_rfc3339 c) = Some c.
Proof. intros. by apply cursor_roundtrip_aux. Qed.
