(* ===== verification/Accounts.v ===== *)
(** * Accounts: value objects, users and sessions

    [crates/openpanel-domain/src/common/] (usernames, email addresses, passwords)
    and [crates/openpanel-domain/src/identity/] (roles, users, sessions, errors). *)
From S2P Require Import Prelude Text.

(** ** Usernames ([common/username.rs]) *)

Inductive UsernameError : Type :=
| UsernameLength
| InvalidChar (c : N).

Definition username_char (c : N) : bool :=
  is_ascii_alphanumeric c || (c =? 45)%N || (c =? 95)%N || (c =? 46)%N.

(** The loop over the characters: the first refused one is reported. *)
Fixpoint username_chars_ok (cs : list N) : result unit UsernameError :=
  match cs with
  | [] => Ok tt
  | c :: cs' => if username_char c then username_chars_ok cs' else Err (InvalidChar c)
  end.

Definition username_validate (s : string) : result unit UsernameError :=
  if ((str_len s <? 3) || (32 <? str_len s))%N then Err UsernameLength
  else username_chars_ok (chars s).

(** [Username::new]; the value object is the validated text. *)
Definition username_new (s : string) : result string UsernameError :=
  _ <-? username_validate s ;; Ok s.

(** [UsernameError::to_string()]. *)
Definition username_error_text (e : UsernameError) : string :=
  match e with
  | UsernameLength => "username must be 3-32 chars long"
  | InvalidChar c =>
      "username contains invalid character `" +:+ of_bytes (encode_char c) +:+ "`"
  end.

(** ** Email addresses ([common/email.rs]) *)

(** [DomainError::Validation]; the other variants are not produced here. *)
Inductive DomainError : Type := Validation (msg : string).

Definition email_validate (s : string) : result unit DomainError :=
  if ((str_len s =? 0) || (254 <? str_len s))%N
  then Err (Validation "email length out of range")
  else match split_once 64 (bytes s) with
  | None => Err (Validation "email missing '@'")
  | Some (local_part, domain) =>
      match local_part, domain with
      | [], _ | _, [] => Err (Validation "email has empty local/domain part")
      | _, d :: _ =>
          if negb (existsb (N.eqb 46) domain)
          then Err (Validation "email domain must contain a dot")
          else if (d =? 46)%N || (default 0%N (last domain) =? 46)%N
          then Err (Validation "email domain cannot start or end with a dot")
          else if negb (forallb (λ c, is_ascii_graphic c || (c =? 32)%N) (chars s))
          then Err (Validation "email contains invalid characters")
          else Ok tt
      end
  end.

(** [Email::new]. *)
Definition email_new (s : string) : result string DomainError :=
  _ <-? email_validate s ;; Ok s.

Definition domain_error_text (e : DomainError) : string :=
  match e with Validation m => "validation error: " +:+ m end.

(** ** Roles ([identity/role.rs]) *)

Inductive Role : Type := Owner | Admin | User.

#[export] Instance Role_eq_dec : EqDecision Role.
Proof. solve_decision. Defined.

Definition role_as_str (r : Role) : string :=
  match r with
  | Owner => "owner"
  | Admin => "admin"
  | User => "user"
  end.

(** [Role::from_str]; the error carries the text. *)
Definition role_from_str (s : string) : result Role string :=
  if String.eqb s "owner" then Ok Owner
  else if String.eqb s "admin" then Ok Admin
  else if String.eqb s "user" then Ok User
  else Err s.

Definition can_manage_users (r : Role) : bool :=
  match r with Owner => true | _ => false end.
Definition can_change_roles (r : Role) : bool :=
  match r with Owner => true | _ => false end.
Definition can_manage_sites (r : Role) : bool :=
  match r with Owner | Admin => true | _ => false end.
Definition can_manage_databases (r : Role) : bool :=
  match r with Owner | Admin => true | _ => false end.
Definition can_manage_files (r : Role) : bool :=
  match r with Owner | Admin => true | _ => false end.

(** ** Identity errors ([identity/error.rs]) *)

Inductive IdentityError : Type :=
| InvalidCredentials
| AccountDisabled
| PasswordTooShort
| UsernameTaken
| EmailTaken
| UserNotFound
| SessionExpired
| Forbidden
| LastOwner
| InvalidToken
| ParentAccountCycle
| Persistence (msg : string).

Definition identity_error_text (e : IdentityError) : string :=
  match e with
  | InvalidCredentials => "invalid credentials"
  | AccountDisabled => "account disabled"
  | PasswordTooShort => "password too short (minimum 12 chars)"
  | UsernameTaken => "username already taken"
  | EmailTaken => "email already taken"
  | UserNotFound => "user not found"
  | SessionExpired => "session expired"
  | Forbidden => "permission denied"
  | LastOwner => "cannot demote the last owner"
  | InvalidToken => "session token invalid"
  | ParentAccountCycle => "account hierarchy cycle detected"
  | Persistence m => "identity persistence error: " +:+ m
  end.

(** ** Users ([identity/user.rs]) *)

(** [struct User]; the password is its argon2id hash text. *)
Record UserRec := mkUser {
  u_id : Uuid;
  u_username : string;
  u_email : string;
  u_password : string;
  u_role : Role;
  u_parent_account_id : option Uuid;
  u_hosting_plan_id : option Uuid;
  u_created_at : DateTime;
  u_disabled_at : option DateTime;
  u_last_login_at : option DateTime
}.

Definition is_disabled (u : UserRec) : bool :=
  match u_disabled_at u with Some _ => true | None => false end.

(** [User::new_with_parents]; [now] is the [Utc::now()] it reads. *)
Definition new_with_parents (now : DateTime) (id : Uuid) (username email password : string)
    (role : Role) (parent plan : option Uuid) : result UserRec IdentityError :=
  if match parent with Some p => (p =? id)%N | None => false end
  then Err ParentAccountCycle
  else Ok {| u_id := id; u_username := username; u_email := email;
             u_password := password; u_role := role; u_parent_account_id := parent;
             u_hosting_plan_id := plan; u_created_at := now; u_disabled_at := None;
             u_last_login_at := None |}.

(** [User::disable], [enable], [record_login]. *)
Definition user_set_disabled_at (d : option DateTime) (u : UserRec) : UserRec :=
  {| u_id := u_id u; u_username := u_username u; u_email := u_email u;
     u_password := u_password u; u_role := u_role u;
     u_parent_account_id := u_parent_account_id u;
     u_hosting_plan_id := u_hosting_plan_id u; u_created_at := u_created_at u;
     u_disabled_at := d; u_last_login_at := u_last_login_at u |}.

Definition user_disable (now : DateTime) (u : UserRec) : UserRec :=
  user_set_disabled_at (Some now) u.
Definition user_enable (u : UserRec) : UserRec := user_set_disabled_at None u.

Definition record_login (now : DateTime) (u : UserRec) : UserRec :=
  {| u_id := u_id u; u_username := u_username u; u_email := u_email u;
     u_password := u_password u; u_role := u_role u;
     u_parent_account_id := u_parent_account_id u;
     u_hosting_plan_id := u_hosting_plan_id u; u_created_at := u_created_at u;
     u_disabled_at := u_disabled_at u; u_last_login_at := Some now |}.

(** [User::change_role]: an owner is never demoted. *)
Definition user_change_role (role : Role) (u : UserRec) : result UserRec IdentityError :=
  match u_role u, role with
  | Owner, Admin | Owner, User => Err LastOwner
  | _, _ =>
      Ok {| u_id := u_id u; u_username := u_username u; u_email := u_email u;
            u_password := u_password u; u_role := role;
            u_parent_account_id := u_parent_account_id u;
            u_hosting_plan_id := u_hosting_plan_id u; u_created_at := u_created_at u;
            u_disabled_at := u_disabled_at u; u_last_login_at := u_last_login_at u |}
  end.

(** [User::set_parent_account_id]. *)
Definition user_set_parent (parent : option Uuid) (u : UserRec) : result UserRec IdentityError :=
  if match parent with Some p => (p =? u_id u)%N | None => false end
  then Err ParentAccountCycle
  else Ok {| u_id := u_id u; u_username := u_username u; u_email := u_email u;
             u_password := u_password u; u_role := u_role u;
             u_parent_account_id := parent;
             u_hosting_plan_id := u_hosting_plan_id u; u_created_at := u_created_at u;
             u_disabled_at := u_disabled_at u; u_last_login_at := u_last_login_at u |}.

(** [User::set_hosting_plan_id]. *)
Definition user_set_plan (plan : option Uuid) (u : UserRec) : UserRec :=
  {| u_id := u_id u; u_username := u_username u; u_email := u_email u;
     u_password := u_password u; u_role := u_role u;
     u_parent_account_id := u_parent_account_id u;
     u_hosting_plan_id := plan; u_created_at := u_created_at u;
     u_disabled_at := u_disabled_at u; u_last_login_at := u_last_login_at u |}.

(** ** Sessions ([identity/session.rs]) *)

Definition SESSION_INACTIVITY : Duration := hours 24.
Definition SESSION_ABSOLUTE : Duration := days 7.

Record Session := mkSession {
  s_id : Uuid;
  s_user_id : Uuid;
  s_token_hash : string;
  s_role : Role;
  s_created_at : DateTime;
  s_last_seen_at : DateTime;
  s_absolute_expires_at : DateTime;
  s_source_ip : option string;
  s_user_agent : option string
}.

(** [Session::touch]. *)
Definition session_touch (now : DateTime) (s : Session) : Session :=
  {| s_id := s_id s; s_user_id := s_user_id s; s_token_hash := s_token_hash s;
     s_role := s_role s; s_created_at := s_created_at s; s_last_seen_at := now;
     s_absolute_expires_at := s_absolute_expires_at s; s_source_ip := s_source_ip s;
     s_user_agent := s_user_agent s |}.

(** [Session::is_expired]. *)
Definition is_expired (now : DateTime) (s : Session) : bool :=
  ((s_absolute_expires_at s <? now) || (SESSION_INACTIVITY <? now - s_last_seen_at s))%Z.

(** ** Theorems *)

Lemma role_roundtrip (r : Role) : role_from_str (role_as_str r) = Ok r.
Proof. by destruct r. Qed.

Lemma user_change_role_ok (role : Role) (u u' : UserRec) :
  user_change_role role u = Ok u' →
  u_role u' = role ∧ u_id u' = u_id u ∧ (u_role u = Owner → role = Owner).
Proof. unfold user_change_role. destruct (u_role u), role; intros; naive_solver. Qed.

Lemma username_chars_ok_spec (cs : list N) :
  username_chars_ok cs = Ok tt ↔ Forall (λ c, username_char c = true) cs.
Proof.
  induction cs as [|c cs IH]; cbn; [split; [constructor | done]|].
  destruct (username_char c) eqn:E; rewrite ?IH, Forall_cons; naive_solver congruence.
Qed.

Lemma username_char_lt (c : N) : username_char c = true → (c < 128)%N.
Proof.
  unfold username_char, is_ascii_alphanumeric, is_digit, is_upper, is_lower.
  rewrite !orb_true_iff, !andb_true_iff, !N.leb_le, !N.eqb_eq. lia.
Qed.

(** Usernames.  A text is accepted as a username, unchanged, exactly when it has 3
    to 32 bytes and every character is an ASCII letter or digit, [-], [_] or [.]. *)
Theorem username_accepted (s : string) :
  username_new s = Ok s ↔ (3 ≤ str_len s ≤ 32)%N ∧ Forall (λ c, username_char c = true) (chars s).
Proof.
  unfold username_new, username_validate. rewrite <- username_chars_ok_spec.
  destruct (N.ltb_spec (str_len s) 3), (N.ltb_spec 32 (str_len s)); cbn;
    try (split; [done | lia]).
  destruct (username_chars_ok (chars s)) as [[]|]; cbn; naive_solver lia.
Qed.
