(* ===== verification/CronJobs.v ===== *)
(** * Cron jobs and runs

    [crates/openpanel-domain/src/cron/mod.rs]: schedules, working directories, jobs and
    their runs, and [scope.rs]: who may create which job and how many. *)
From S2P Require Import Prelude Text Accounts Paths.
Open Scope N_scope.

Inductive CronError : Type :=
| InvalidSchedule (reason : string)
| InvalidTimezone (name : string)
| InvalidWorkingDirectory
| InvalidExecutable
| InvalidJob (reason : string)
| RunTerminal
| InvalidRunTransition.

Definition cron_error_text (e : CronError) : string :=
  match e with
  | InvalidSchedule r => "invalid cron schedule: " +:+ r
  | InvalidTimezone n => "unknown timezone: " +:+ n
  | InvalidWorkingDirectory => "invalid working directory"
  | InvalidExecutable => "invalid executable"
  | InvalidJob r => "invalid job: " +:+ r
  | RunTerminal => "run is already terminal"
  | InvalidRunTransition => "invalid run transition"
  end.

(** The crates [chrono_tz] and [cron], and the Unicode table of [str::to_uppercase]. *)
Class Scheduler := {
  (** [Tz::from_str(name).is_ok()] *)
  tz_known : string → bool;
  (** the error of [cron::Schedule::from_str], if any *)
  schedule_error : string → option string;
  (** [Schedule::from_str(expr).after(t in tz).next()], back in UTC *)
  next_occurrence : string → string → DateTime → option DateTime;
  uppercase : string → string
}.

(** [Schedule::after] documents occurrences strictly later than the given instant. *)
Class SchedulerLaws `{Scheduler} : Prop := {
  next_occurrence_later : ∀ expr tz t t', next_occurrence expr tz t = Some t' → (t < t')%Z
}.

(** ** Schedules *)

Record CronSchedule := mkSchedule {
  sch_expression : string;
  sch_timezone : string
}.

(** [split_whitespace().count()]; [inside] says whether a word has begun. *)
Fixpoint count_words (inside : bool) (cs : list N) : N :=
  match cs with
  | [] => 0
  | c :: cs' =>
      if is_whitespace c then count_words false cs'
      else (if inside then 0 else 1) + count_words true cs'
  end.

Section schedule.
Context `{Scheduler}.

Definition schedule_parse (expression timezone : string) : result CronSchedule CronError :=
  if negb (count_words false (chars expression) =? 5) then Err (InvalidSchedule expression)
  else if negb (tz_known timezone) then Err (InvalidTimezone timezone)
  else match schedule_error ("0 " +:+ expression) with
       | Some e => Err (InvalidSchedule e)
       | None => Ok (mkSchedule expression timezone)
       end.

Definition next_after (s : CronSchedule) (after : DateTime) : result DateTime CronError :=
  if negb (tz_known (sch_timezone s)) then Err (InvalidTimezone (sch_timezone s))
  else match schedule_error ("0 " +:+ sch_expression s) with
       | Some e => Err (InvalidSchedule e)
       | None =>
           match next_occurrence ("0 " +:+ sch_expression s) (sch_timezone s) after with
           | Some t => Ok t
           | None => Err (InvalidSchedule "schedule has no future occurrence")
           end
       end.
End schedule.

(** ** What a job does *)

(** [OwnedWorkingDirectory::new]; paths are their text. *)
Definition owned_working_directory (path : list N) (owned_roots : list (list N))
    : result (list N) CronError :=
  if negb (is_absolute path) || existsb (λ c, bool_decide (c = ParentDir)) (components path)
  then Err InvalidWorkingDirectory
  else if negb (existsb (λ root, is_absolute root && path_starts_with path root) owned_roots)
  then Err InvalidWorkingDirectory
  else Ok path.

Inductive JobKind : Type :=
| Command (executable : list N) (arguments : list string) (working_directory : list N)
| Http (url method : string).

Definition job_command (executable : list N) (arguments : list string) (dir : list N)
    : result JobKind CronError :=
  if negb (is_absolute executable) || bool_decide (executable = []) then Err InvalidExecutable
  else Ok (Command executable arguments dir).

Definition job_http `{Scheduler} (url method : string) : result JobKind CronError :=
  if negb (starts_with url "http://" || starts_with url "https://")
  then Err (InvalidJob "HTTP URL must use http or https")
  else Ok (Http url (uppercase method)).

(** ** Jobs *)

(** [OverlapPolicy] has the one value [Skip]. *)
Inductive OverlapPolicy : Type := Skip.

Record CronJob := mkCronJob {
  cj_id : Uuid;
  cj_owner_id : Uuid;
  cj_name : string;
  cj_schedule : CronSchedule;
  cj_kind : JobKind;
  cj_timeout_secs : Z;
  cj_overlap_policy : OverlapPolicy;
  cj_enabled : bool;
  cj_next_run_at : DateTime;
  cj_created_at : DateTime;
  cj_updated_at : DateTime
}.

(** The check shared by [CronJob::new] and [CronJob::update]; the timeout in seconds. *)
Definition job_fields_ok (name : string) (timeout : Z) : bool :=
  negb (bool_decide (trim (chars name) = []) || (timeout =? 0)%Z || (86400 <? timeout)%Z).

Section job.
Context `{Scheduler}.

Definition cron_job_new (id owner : Uuid) (name : string) (schedule : CronSchedule)
    (kind : JobKind) (timeout : Z) (policy : OverlapPolicy) (t : DateTime)
    : result CronJob CronError :=
  if negb (job_fields_ok name timeout) then Err (InvalidJob "name and timeout must be valid")
  else
    next <-? next_after schedule t ;;
    Ok (mkCronJob id owner name schedule kind timeout policy true next t t).

Definition cron_job_disable (t : DateTime) (j : CronJob) : CronJob :=
  mkCronJob (cj_id j) (cj_owner_id j) (cj_name j) (cj_schedule j) (cj_kind j)
    (cj_timeout_secs j) (cj_overlap_policy j) false (cj_next_run_at j) (cj_created_at j) t.

Definition cron_job_enable (t : DateTime) (j : CronJob) : result CronJob CronError :=
  next <-? next_after (cj_schedule j) t ;;
  Ok (mkCronJob (cj_id j) (cj_owner_id j) (cj_name j) (cj_schedule j) (cj_kind j)
        (cj_timeout_secs j) (cj_overlap_policy j) true next (cj_created_at j) t).

Definition cron_job_update (name : string) (schedule : CronSchedule) (kind : JobKind)
    (timeout : Z) (t : DateTime) (j : CronJob) : result CronJob CronError :=
  if negb (job_fields_ok name timeout) then Err (InvalidJob "name and timeout must be valid")
  else
    next <-? next_after schedule t ;;
    Ok (mkCronJob (cj_id j) (cj_owner_id j) name schedule kind timeout (cj_overlap_policy j)
          (cj_enabled j) next (cj_created_at j) t).

Definition cron_job_advance (after : DateTime) (j : CronJob) : result CronJob CronError :=
  next <-? next_after (cj_schedule j) after ;;
  Ok (mkCronJob (cj_id j) (cj_owner_id j) (cj_name j) (cj_schedule j) (cj_kind j)
        (cj_timeout_secs j) (cj_overlap_policy j) (cj_enabled j) next (cj_created_at j) after).
End job.

(** ** Runs *)

Inductive RunState : Type :=
| Leased | Running | Succeeded | Failed | TimedOut | Skipped | Interrupted.

#[export] Instance RunState_eq_dec : EqDecision RunState.
Proof. solve_decision. Defined.

Definition state_terminal (s : RunState) : bool :=
  match s with Leased | Running => false | _ => true end.

Record JobRun := mkJobRun {
  jr_id : Uuid;
  jr_job_id : Uuid;
  jr_state : RunState;
  jr_leased_at : DateTime;
  jr_lease_until : DateTime;
  jr_started_at : option DateTime;
  jr_finished_at : option DateTime;
  jr_exit_code : option Z;
  jr_stdout : list N;
  jr_stderr : list N
}.

Definition is_terminal (r : JobRun) : bool := state_terminal (jr_state r).

Definition run_leased (id job : Uuid) (t lease_until : DateTime) : JobRun :=
  mkJobRun id job Leased t lease_until None None None [] [].
Definition run_skipped (id job : Uuid) (t : DateTime) : JobRun :=
  mkJobRun id job Skipped t t None (Some t) None [] [].

Definition run_start (t : DateTime) (r : JobRun) : result JobRun CronError :=
  if negb (bool_decide (jr_state r = Leased)) then Err InvalidRunTransition
  else Ok (mkJobRun (jr_id r) (jr_job_id r) Running (jr_leased_at r) (jr_lease_until r)
             (Some t) (jr_finished_at r) (jr_exit_code r) (jr_stdout r) (jr_stderr r)).

Definition ensure_active (r : JobRun) : result unit CronError :=
  if is_terminal r then Err RunTerminal else Ok tt.

Definition run_complete (t : DateTime) (code : Z) (stdout stderr : list N) (r : JobRun)
    : result JobRun CronError :=
  _ <-? ensure_active r ;;
  Ok (mkJobRun (jr_id r) (jr_job_id r) (if (code =? 0)%Z then Succeeded else Failed)
        (jr_leased_at r) (jr_lease_until r) (jr_started_at r) (Some t) (Some code) stdout stderr).

Definition run_finish (s : RunState) (t : DateTime) (r : JobRun) : result JobRun CronError :=
  _ <-? ensure_active r ;;
  Ok (mkJobRun (jr_id r) (jr_job_id r) s (jr_leased_at r) (jr_lease_until r)
        (jr_started_at r) (Some t) (jr_exit_code r) (jr_stdout r) (jr_stderr r)).

Definition run_timeout (t : DateTime) (r : JobRun) : result JobRun CronError :=
  run_finish TimedOut t r.
Definition run_interrupt (t : DateTime) (r : JobRun) : result JobRun CronError :=
  run_finish Interrupted t r.

(** ** Scopes and quotas *)

Inductive JobScope : Type := SystemScope | PerSite | PerUser.

Record CronQuota := mkCronQuota {
  max_concurrent : Z;
  max_due_per_minute : Z;
  max_total : Z
}.

Definition default_for_user : CronQuota := mkCronQuota 4 30 100.

(** [GlobalDefault] has the fields of [CronQuota]. *)
Definition PANEL_DEFAULT : CronQuota := mkCronQuota 4 30 100.

Definition effective (global user : CronQuota) : CronQuota :=
  mkCronQuota (Z.max (max_concurrent global) (max_concurrent user))
    (Z.max (max_due_per_minute global) (max_due_per_minute user))
    (Z.max (max_total global) (max_total user)).

Inductive CronScopeError : Type :=
| QuotaExceededTotal | QuotaExceededConcurrent | QuotaExceededPerMinute.

Definition role_allows_scope (role : Role) (scope : JobScope) : bool :=
  match role, scope with
  | Owner, _ => true
  | Admin, PerSite | Admin, PerUser => true
  | Admin, SystemScope => true
  | User, PerSite | User, PerUser => true
  | User, SystemScope => false
  end.

Definition is_under_owned_site (workdir : list N) (owned_roots : list (list N)) : bool :=
  existsb (path_starts_with workdir) owned_roots.

Definition is_executable_allowed (executable : string) (allow_list : list string) : bool :=
  existsb (λ allowed, String.eqb allowed executable) allow_list.

Definition check_quota (quota : CronQuota) (total concurrent recent : Z)
    : result unit CronScopeError :=
  if (max_total quota <=? total)%Z then Err QuotaExceededTotal
  else if (max_concurrent quota <=? concurrent)%Z then Err QuotaExceededConcurrent
  else if (max_due_per_minute quota <=? recent)%Z then Err QuotaExceededPerMinute
  else Ok tt.

(** ** Lemmas *)

Lemma next_after_later `{SchedulerLaws} s t t' : next_after s t = Ok t' → (t < t')%Z.
Proof.
  unfold next_after. destruct (tz_known _); cbn; [|done].
  destruct (schedule_error _); [done|]. destruct (next_occurrence _ _ _) eqn:E; [|done].
  intros [= <-]. by eapply next_occurrence_later.
Qed.

(** A finished run keeps its identity and is terminal. *)
Lemma run_complete_ok t c o e r r' :
  run_complete t c o e r = Ok r' →
  is_terminal r = false ∧ is_terminal r' = true ∧ jr_id r' = jr_id r ∧ jr_job_id r' = jr_job_id r.
Proof.
  unfold run_complete, ensure_active. destruct (is_terminal r) eqn:E; cbn; [done|].
  intros [= <-]. unfold is_terminal. cbn. by destruct (_ =? _)%Z.
Qed.

Lemma run_finish_ok s t r r' :
  state_terminal s = true → run_finish s t r = Ok r' →
  is_terminal r = false ∧ is_terminal r' = true ∧ jr_id r' = jr_id r ∧ jr_job_id r' = jr_job_id r.
Proof.
  unfold run_finish, ensure_active. intros Hs. destruct (is_terminal r) eqn:E; cbn; [done|].
  by intros [= <-].
Qed.
