(* ===== verification/BackupRuns.v ===== *)
(** * Backup plans and runs

    [crates/openpanel-domain/src/backups/mod.rs]: what a plan selects, the states of a run, the
    copies that are kept and the paths an archive may hold. *)
From S2P Require Import Prelude Text Accounts Paths CronJobs.
Open Scope N_scope.

Inductive BackupError : Type :=
| BackupInvalid (reason : string)
| BackupInvalidTransition
| UnsupportedFormat (version : N).

Definition backup_error_text (e : BackupError) : string :=
  match e with
  | BackupInvalid r => "invalid backup value: " +:+ r
  | BackupInvalidTransition => "invalid backup transition"
  | UnsupportedFormat v => "unsupported backup format version " +:+ of_bytes (show_N v)
  end.

Inductive BackupResource : Type :=
| SiteFiles (id : Uuid)
| DatabaseDump (id : Uuid)
| PanelMetadata.
#[export] Instance BackupResource_eq_dec : EqDecision BackupResource.
Proof. solve_decision. Defined.

(** ** Retention *)

(** [RetentionPolicy], by its number of copies. *)
Abbreviation RetentionCopies := nat.
Definition retention_copies (copies : nat) : result RetentionCopies BackupError :=
  if bool_decide (copies = 0%nat) then Err (BackupInvalid "retention copies must be positive")
  else Ok copies.

Record RetentionCandidate := mkCandidate {
  rcd_id : Uuid;
  rcd_sequence : Z;
  rcd_completed : bool;
  rcd_pinned : bool
}.
Definition candidate_completed (id : Uuid) (sequence : Z) (pinned : bool) : RetentionCandidate :=
  mkCandidate id sequence true pinned.
Definition candidate_active (id : Uuid) (sequence : Z) : RetentionCandidate :=
  mkCandidate id sequence false false.

Definition eligible (c : RetentionCandidate) : bool := rcd_completed c && negb (rcd_pinned c).
(** [sort_by_key(Reverse(sequence))]. *)
Definition newest_candidate (a b : RetentionCandidate) : Prop := (rcd_sequence b ≤ rcd_sequence a)%Z.
#[export] Instance newest_candidate_dec : RelDecision newest_candidate.
Proof. unfold newest_candidate. intros a b. apply _. Defined.

Definition deletions (policy : RetentionCopies) (candidates : list RetentionCandidate) : list Uuid :=
  map rcd_id (drop policy (merge_sort newest_candidate (List.filter eligible candidates))).

(** ** Plans *)

Record BackupPlan := mkBackupPlan {
  bp_id : Uuid;
  bp_owner_id : Uuid;
  bp_name : string;
  bp_resources : list BackupResource;
  bp_schedule : string;
  bp_timezone : string;
  bp_retention : RetentionCopies;
  bp_enabled : bool;
  bp_created_at : DateTime;
  bp_updated_at : DateTime;
  bp_cron_job_id : option Uuid
}.

Definition backup_plan_new `{Scheduler} (id owner : Uuid) (name : string)
    (resources : list BackupResource) (schedule timezone : string) (retention : RetentionCopies)
    (t : DateTime) : result BackupPlan BackupError :=
  if bool_decide (trim (chars name) = []) || bool_decide (resources = [])
  then Err (BackupInvalid "name and resources are required")
  else
    _ <-? result_map_err (λ e, BackupInvalid (cron_error_text e)) (schedule_parse schedule timezone) ;;
    Ok (mkBackupPlan id owner name resources schedule timezone retention true t t None).

Definition backup_plan_enabled (enabled : bool) (t : DateTime) (p : BackupPlan) : BackupPlan :=
  mkBackupPlan (bp_id p) (bp_owner_id p) (bp_name p) (bp_resources p) (bp_schedule p) (bp_timezone p)
    (bp_retention p) enabled (bp_created_at p) t (bp_cron_job_id p).
Definition backup_plan_link_cron (job : Uuid) (t : DateTime) (p : BackupPlan) : BackupPlan :=
  mkBackupPlan (bp_id p) (bp_owner_id p) (bp_name p) (bp_resources p) (bp_schedule p) (bp_timezone p)
    (bp_retention p) (bp_enabled p) (bp_created_at p) t (Some job).
Definition backup_plan_update (name : option string) (retention : option RetentionCopies) (t : DateTime)
    (p : BackupPlan) : result BackupPlan BackupError :=
  new_name <-? match name with
               | Some n => if bool_decide (trim (chars n) = []) then Err (BackupInvalid "name is required")
                           else Ok n
               | None => Ok (bp_name p)
               end ;;
  Ok (mkBackupPlan (bp_id p) (bp_owner_id p) new_name (bp_resources p) (bp_schedule p) (bp_timezone p)
        (default (bp_retention p) retention) (bp_enabled p) (bp_created_at p) t (bp_cron_job_id p)).

(** ** Artifacts and runs *)

Record BackupArtifact := mkArtifact {
  art_resource : BackupResource;
  art_path : string;
  art_size : Z;
  art_sha256 : string;
  art_format_version : N
}.

Record BackupManifest := mkManifest {
  bm_format_version : N;
  bm_run_id : Uuid;
  bm_artifacts : list BackupArtifact;
  bm_created_at : DateTime
}.
Definition manifest_new (run_id : Uuid) (artifacts : list BackupArtifact) (t : DateTime)
    : result BackupManifest BackupError :=
  match artifacts with
  | [] => Err (BackupInvalid "manifest must contain artifacts")
  | _ => Ok (mkManifest 1 run_id artifacts t)
  end.

Inductive BackupRunState : Type :=
| BackupPending | BackupRunning | BackupCompleted | BackupFailed | BackupCancelled | BackupCorrupt.
#[export] Instance BackupRunState_eq_dec : EqDecision BackupRunState.
Proof. solve_decision. Defined.

Record BackupRunRec := mkBackupRun {
  br_id : Uuid;
  br_plan_id : Uuid;
  br_owner_id : Uuid;
  br_state : BackupRunState;
  br_artifacts : list BackupArtifact;
  br_finalized : bool;
  br_pinned : bool;
  br_created_at : DateTime;
  br_started_at : option DateTime;
  br_finished_at : option DateTime;
  br_error : option string
}.

Definition backup_run_new (id plan owner : Uuid) (t : DateTime) : BackupRunRec :=
  mkBackupRun id plan owner BackupPending [] false false t None None None.

Definition backup_run_start (t : DateTime) (r : BackupRunRec) : result BackupRunRec BackupError :=
  if bool_decide (br_state r = BackupPending) then
    Ok (mkBackupRun (br_id r) (br_plan_id r) (br_owner_id r) BackupRunning (br_artifacts r)
          (br_finalized r) (br_pinned r) (br_created_at r) (Some t) (br_finished_at r) (br_error r))
  else Err BackupInvalidTransition.

Definition add_artifact (a : BackupArtifact) (r : BackupRunRec) : result BackupRunRec BackupError :=
  if bool_decide (br_state r = BackupRunning) && negb (br_finalized r) then
    Ok (mkBackupRun (br_id r) (br_plan_id r) (br_owner_id r) (br_state r) (br_artifacts r ++ [a])
          (br_finalized r) (br_pinned r) (br_created_at r) (br_started_at r) (br_finished_at r)
          (br_error r))
  else Err BackupInvalidTransition.

Definition mark_finalized (r : BackupRunRec) : result BackupRunRec BackupError :=
  if bool_decide (br_state r = BackupRunning) && negb (bool_decide (length (br_artifacts r) = 0%nat)) then
    Ok (mkBackupRun (br_id r) (br_plan_id r) (br_owner_id r) (br_state r) (br_artifacts r)
          true (br_pinned r) (br_created_at r) (br_started_at r) (br_finished_at r) (br_error r))
  else Err BackupInvalidTransition.

(** The end of a run: its state, its time and its error. *)
Definition backup_run_end (s : BackupRunState) (t : DateTime) (error : option string) (r : BackupRunRec)
    : BackupRunRec :=
  mkBackupRun (br_id r) (br_plan_id r) (br_owner_id r) s (br_artifacts r) (br_finalized r)
    (br_pinned r) (br_created_at r) (br_started_at r) (Some t) error.

Definition backup_run_complete (t : DateTime) (r : BackupRunRec) : result BackupRunRec BackupError :=
  if bool_decide (br_state r = BackupRunning) && br_finalized r
  then Ok (backup_run_end BackupCompleted t (br_error r) r)
  else Err BackupInvalidTransition.

Definition run_is_active (r : BackupRunRec) : bool :=
  match br_state r with BackupPending | BackupRunning => true | _ => false end.

Definition backup_run_fail (t : DateTime) (reason : string) (r : BackupRunRec) : result BackupRunRec BackupError :=
  if run_is_active r then Ok (backup_run_end BackupFailed t (Some reason) r)
  else Err BackupInvalidTransition.
Definition backup_run_cancel (t : DateTime) (r : BackupRunRec) : result BackupRunRec BackupError :=
  if run_is_active r then Ok (backup_run_end BackupCancelled t (br_error r) r)
  else Err BackupInvalidTransition.
Definition mark_corrupt (t : DateTime) (r : BackupRunRec) : result BackupRunRec BackupError :=
  if bool_decide (br_state r = BackupCompleted) then Ok (backup_run_end BackupCorrupt t (br_error r) r)
  else Err BackupInvalidTransition.

(** ** Paths of an archive *)

(** [RestorePath::new]. *)
Definition unsafe_part (c : Component) : bool :=
  match c with ParentDir | RootDir => true | _ => false end.
Definition restore_path_new (path : list N) : result (list N) BackupError :=
  if bool_decide (path = []) || is_absolute path || existsb unsafe_part (components path)
  then Err (BackupInvalid "unsafe restore path")
  else Ok path.
(** [RestorePath::as_str]: nothing when the path is not UTF-8. *)
Definition restore_path_str (path : list N) : list N := if valid_utf8 path then path else [].

(** [OverwriteConfirmation::new]; the length counts bytes. *)
Definition overwrite_confirmation (token : string) : result string BackupError :=
  if str_len token <? 12 then Err (BackupInvalid "overwrite confirmation is invalid") else Ok token.

(** ** Lemmas *)

Lemma restore_path_ok p q :
  restore_path_new p = Ok q →
  q = p ∧ p ≠ [] ∧ has_root p = false ∧ ~ In ParentDir (components p).
Proof.
  unfold restore_path_new, is_absolute. destruct (bool_decide (p = [])) eqn:E1; [done|]. cbn.
  destruct (has_root p) eqn:E2; [done|]. cbn. destruct (existsb unsafe_part (components p)) eqn:E3; [done|].
  intros [= <-]. split_and!; [done | by apply bool_decide_eq_false in E1 | done|]. intros Hin.
  assert (existsb unsafe_part (components p) = true) by (apply existsb_exists; by exists ParentDir).
  congruence.
Qed.
