(* ===== verification/Float64.v ===== *)
(** * [f64]

    Binary64 numbers as the Standard Library specifies them ([SpecFloat]), with the
    operations of [f64] that the code uses. *)
From Stdlib Require Import SpecFloat.
From S2P Require Import Prelude.

Abbreviation f64 := spec_float.
Definition f64_add : f64 → f64 → f64 := SFadd 53 1024.
Definition f64_sub : f64 → f64 → f64 := SFsub 53 1024.
Definition f64_mul : f64 → f64 → f64 := SFmul 53 1024.
Definition f64_div : f64 → f64 → f64 := SFdiv 53 1024.
Definition f64_ltb : f64 → f64 → bool := SFltb.

(** [n as f64], rounded to the nearest. *)
Definition f64_of_Z (z : Z) : f64 := binary_normalize 53 1024 z 0 false.

(** [f64::min]: the other operand when one is no number. *)
Definition f64_min (x y : f64) : f64 :=
  match x, y with
  | S754_nan, _ => y
  | _, S754_nan => x
  | _, _ => if f64_ltb y x then y else x
  end.

(** [Duration::as_secs_f64] of a number of nanoseconds. *)
Definition as_secs_f64 (nanos : Z) : f64 :=
  f64_add (f64_of_Z (nanos / 1000000000))
    (f64_div (f64_of_Z (nanos mod 1000000000)) (f64_of_Z 1000000000)).

(** [x.ceil().max(1.0) as u64]: a cast saturates, and [max] prefers a number. *)
Definition ceil_max_1 (x : f64) : Z :=
  match x with
  | S754_infinity false => U64_MAX
  | S754_finite false m e =>
      let c := if (0 <=? e)%Z then (Z.pos m * 2 ^ e)%Z else (- (- Z.pos m / 2 ^ (- e)))%Z in
      Z.min U64_MAX (Z.max 1 c)
  | _ => 1
  end.
