(* ===== verification/Plans.v ===== *)
(** * Hosting plans, domain

    [crates/openpanel-domain/src/hosting_plans/mod.rs]: quota caps, features, prices and the
    plan aggregate.  A method that touches the plan takes the instant it reads. *)
From S2P Require Import Prelude Text.
From stdpp Require Import countable.

Inductive HostingPlansError : Type :=
| DuplicateName | PlanDisabledError | PlanInUse | PlanNotFound
| InvalidName (reason : string) | InvalidPrice (reason : string)
| InvalidPhpRuntime (reason : string)
| PlanUserNotFound | WouldShrinkBelowUsage | PlanPersistence (reason : string).

Inductive PlanStatus : Type := StatusActive | StatusDisabled.
Inductive PlanFeatureState : Type := FeatureDisabled | FeatureOptional | FeatureRequired.
Inductive PlanFeature : Type :=
| FSmtp | FCron | FSftp | FDocker | FApiTokens | FMail | FDatabases | FBackups | FWebApps
| FMalwareScanner.

#[export] Instance PlanFeature_eq_dec : EqDecision PlanFeature.
Proof. solve_decision. Defined.

(** The order of the variants, as derived. *)
Definition feature_index (f : PlanFeature) : nat :=
  match f with
  | FSmtp => 0 | FCron => 1 | FSftp => 2 | FDocker => 3 | FApiTokens => 4
  | FMail => 5 | FDatabases => 6 | FBackups => 7 | FWebApps => 8 | FMalwareScanner => 9
  end.
Definition all_features : list PlanFeature :=
  [FSmtp; FCron; FSftp; FDocker; FApiTokens; FMail; FDatabases; FBackups; FWebApps; FMalwareScanner].
#[export] Instance PlanFeature_countable : Countable PlanFeature.
Proof.
  refine (inj_countable feature_index (λ n, all_features !! n) _). by intros [].
Defined.

(** [HostedPhpRuntimeRef::parse]; 46 is a dot, 45 a dash. *)
Definition runtime_parse (value : string) : result string HostingPlansError :=
  if (str_len value =? 0)%N then Err (InvalidPhpRuntime "runtime must not be empty")
  else if (64 <? str_len value)%N then Err (InvalidPhpRuntime "runtime exceeds 64 chars")
  else if negb (forallb (λ b, is_ascii_alphanumeric b || (b =? 46)%N || (b =? 45)%N) (bytes value))
  then Err (InvalidPhpRuntime "runtime contains invalid characters")
  else Ok value.

Record PlanPrice := mkPrice {
  price_amount_minor : Z;
  price_currency : string;
  price_period : string
}.

Definition currency_ok (currency : string) : bool :=
  (str_len currency =? 3)%N && forallb is_upper (bytes currency).
Definition currency_error (currency : string) : HostingPlansError :=
  InvalidPrice ("currency must be 3 uppercase ASCII letters, got `" +:+ currency +:+ "`").

Definition price_new (amount : Z) (currency period : string) : result PlanPrice HostingPlansError :=
  if negb (currency_ok currency) then Err (currency_error currency)
  else if (str_len period =? 0)%N || (32 <? str_len period)%N
  then Err (InvalidPrice ("period must be 1..=32 chars, got `" +:+ of_bytes (show_N (str_len period)) +:+ "`"))
  else Ok (mkPrice amount currency period).

Record PlanQuotas := mkQuotas {
  disk_bytes : Z;
  bandwidth_bytes_per_month : Z;
  max_sites : Z;
  max_databases : Z;
  max_mail_domains : Z;
  max_mailboxes : Z;
  max_cron_jobs : Z;
  max_api_tokens : Z;
  max_fleet_agents : Z
}.
Definition quotas_zero : PlanQuotas := mkQuotas 0 0 0 0 0 0 0 0 0.
Definition quotas_min (a b : PlanQuotas) : PlanQuotas :=
  mkQuotas (Z.min (disk_bytes a) (disk_bytes b))
    (Z.min (bandwidth_bytes_per_month a) (bandwidth_bytes_per_month b))
    (Z.min (max_sites a) (max_sites b)) (Z.min (max_databases a) (max_databases b))
    (Z.min (max_mail_domains a) (max_mail_domains b)) (Z.min (max_mailboxes a) (max_mailboxes b))
    (Z.min (max_cron_jobs a) (max_cron_jobs b)) (Z.min (max_api_tokens a) (max_api_tokens b))
    (Z.min (max_fleet_agents a) (max_fleet_agents b)).

(** [EffectiveQuotas] has the fields of the caps. *)
Record EffectiveQuotas := mkEffective {
  eff_disk_bytes : Z;
  eff_bandwidth_bytes_per_month : Z;
  eff_max_sites : Z;
  eff_max_databases : Z;
  eff_max_mail_domains : Z;
  eff_max_mailboxes : Z;
  eff_max_cron_jobs : Z;
  eff_max_api_tokens : Z;
  eff_max_fleet_agents : Z
}.
Definition from_caps (c : PlanQuotas) : EffectiveQuotas :=
  mkEffective (disk_bytes c) (bandwidth_bytes_per_month c) (max_sites c) (max_databases c)
    (max_mail_domains c) (max_mailboxes c) (max_cron_jobs c) (max_api_tokens c) (max_fleet_agents c).

(** ** The aggregate

    [branding_scope] is left out: it is not stored, and only its setter changes it. *)
Record HostingPlan := mkPlan {
  plan_id : Uuid;
  plan_name : string;
  plan_description : string;
  plan_prices : list PlanPrice;
  plan_features : gmap PlanFeature PlanFeatureState;
  plan_quota_caps : PlanQuotas;
  plan_allowed_apps : list Uuid;
  plan_allowed_php_runtimes : list string;
  plan_status : PlanStatus;
  plan_created_at : DateTime;
  plan_updated_at : DateTime
}.

Definition plan_new (id : Uuid) (name description : string) (caps : PlanQuotas) (t1 t2 : DateTime)
    : result HostingPlan HostingPlansError :=
  if (str_len name <? 3)%N || (64 <? str_len name)%N
  then Err (InvalidName ("name must be 3..=64 chars, got " +:+ of_bytes (show_N (str_len name))))
  else Ok (mkPlan id name description [] ∅ caps [] [] StatusActive t1 t2).

Definition set_prices (prices : list PlanPrice) (t : DateTime) (p : HostingPlan)
    : result HostingPlan HostingPlansError :=
  match List.find (λ x, negb (currency_ok (price_currency x))) prices with
  | Some bad => Err (currency_error (price_currency bad))
  | None => Ok (mkPlan (plan_id p) (plan_name p) (plan_description p) prices (plan_features p)
                  (plan_quota_caps p) (plan_allowed_apps p) (plan_allowed_php_runtimes p)
                  (plan_status p) (plan_created_at p) t)
  end.

Definition set_feature (f : PlanFeature) (s : PlanFeatureState) (t : DateTime) (p : HostingPlan)
    : HostingPlan :=
  mkPlan (plan_id p) (plan_name p) (plan_description p) (plan_prices p) (<[f := s]> (plan_features p))
    (plan_quota_caps p) (plan_allowed_apps p) (plan_allowed_php_runtimes p) (plan_status p)
    (plan_created_at p) t.
Definition set_quota_caps (caps : PlanQuotas) (t : DateTime) (p : HostingPlan) : HostingPlan :=
  mkPlan (plan_id p) (plan_name p) (plan_description p) (plan_prices p) (plan_features p) caps
    (plan_allowed_apps p) (plan_allowed_php_runtimes p) (plan_status p) (plan_created_at p) t.
Definition set_description (d : string) (t : DateTime) (p : HostingPlan) : HostingPlan :=
  mkPlan (plan_id p) (plan_name p) d (plan_prices p) (plan_features p) (plan_quota_caps p)
    (plan_allowed_apps p) (plan_allowed_php_runtimes p) (plan_status p) (plan_created_at p) t.
Definition set_allowed_apps (apps : list Uuid) (t : DateTime) (p : HostingPlan) : HostingPlan :=
  mkPlan (plan_id p) (plan_name p) (plan_description p) (plan_prices p) (plan_features p)
    (plan_quota_caps p) apps (plan_allowed_php_runtimes p) (plan_status p) (plan_created_at p) t.
Definition set_allowed_php_runtimes (runtimes : list string) (t : DateTime) (p : HostingPlan)
    : result HostingPlan HostingPlansError :=
  parsed <-? collect runtime_parse runtimes ;;
  Ok (mkPlan (plan_id p) (plan_name p) (plan_description p) (plan_prices p) (plan_features p)
        (plan_quota_caps p) (plan_allowed_apps p) parsed (plan_status p) (plan_created_at p) t).
Definition plan_with_status (s : PlanStatus) (t : DateTime) (p : HostingPlan) : HostingPlan :=
  mkPlan (plan_id p) (plan_name p) (plan_description p) (plan_prices p) (plan_features p)
    (plan_quota_caps p) (plan_allowed_apps p) (plan_allowed_php_runtimes p) s (plan_created_at p) t.
Definition plan_disable : DateTime → HostingPlan → HostingPlan := plan_with_status StatusDisabled.
Definition plan_enable : DateTime → HostingPlan → HostingPlan := plan_with_status StatusActive.
Definition accepts_assignments (p : HostingPlan) : bool :=
  match plan_status p with StatusActive => true | StatusDisabled => false end.

Definition clone_with_name (id : Uuid) (name : string) (t1 t2 : DateTime) (p : HostingPlan)
    : result HostingPlan HostingPlansError :=
  c <-? plan_new id name (plan_description p) (plan_quota_caps p) t1 t2 ;;
  Ok (mkPlan (plan_id c) (plan_name c) (plan_description c) (plan_prices p) (plan_features p)
        (plan_quota_caps c) (plan_allowed_apps p) (plan_allowed_php_runtimes p) (plan_status c)
        (plan_created_at c) (plan_updated_at c)).

Definition plan_restore (id : Uuid) (name description : string) (prices : list PlanPrice)
    (features : gmap PlanFeature PlanFeatureState) (caps : PlanQuotas) (apps : list Uuid)
    (runtimes : list string) (status : PlanStatus) (created_at updated_at : DateTime)
    : result HostingPlan HostingPlansError :=
  parsed <-? collect runtime_parse runtimes ;;
  Ok (mkPlan id name description prices features caps apps parsed status created_at updated_at).

(** ** Assignments *)

Record PlanAssignment := mkAssignment {
  asg_user_id : Uuid;
  asg_plan_id : Uuid;
  asg_assigned_at : DateTime;
  asg_assigned_by : Uuid;
  asg_replaced_at : option DateTime
}.
Definition assignment_new (user plan by_ : Uuid) (t : DateTime) : PlanAssignment :=
  mkAssignment user plan t by_ None.
Definition is_current (a : PlanAssignment) : bool := bool_decide (asg_replaced_at a = None).
