(* ===== verification/Maintenance.v ===== *)
(** * Maintenance windows, domain

    [crates/openpanel-domain/src/maintenance_windows/mod.rs]: windows that block classes of
    destructive actions, and overrides. *)
From S2P Require Import Prelude Text.

Inductive MaintenanceError : Type :=
| MaintenanceForbidden | WindowOverlap | InvalidWindow | DestructiveBlocked
| OverrideMissing | OverrideExpired | MaintenancePersistence (reason : string).

Inductive DestructiveActionClass : Type := PackageInstall | SchemaMigration | FilesystemRewrite.
#[export] Instance DestructiveActionClass_eq_dec : EqDecision DestructiveActionClass.
Proof. solve_decision. Defined.

Definition class_str (c : DestructiveActionClass) : string :=
  match c with
  | PackageInstall => "package_install"
  | SchemaMigration => "schema_migration"
  | FilesystemRewrite => "filesystem_rewrite"
  end.

Record MaintenanceWindow := mkWindow {
  win_id : Uuid;
  win_label : string;
  win_starts_at : DateTime;
  win_ends_at : DateTime;
  win_blocked_classes : list DestructiveActionClass;
  win_created_at : DateTime;
  win_created_by : Uuid
}.
Definition window_is_active (t : DateTime) (w : MaintenanceWindow) : bool :=
  ((win_starts_at w <=? t) && (t <=? win_ends_at w))%Z.
Definition window_validate (w : MaintenanceWindow) : result unit MaintenanceError :=
  if (win_ends_at w <=? win_starts_at w)%Z then Err InvalidWindow
  else match win_blocked_classes w with [] => Err InvalidWindow | _ => Ok tt end.

Record MaintenanceOverride := mkOverride {
  ov_id : Uuid;
  ov_target_class : DestructiveActionClass;
  ov_reason : string;
  ov_ttl_secs : Z;
  ov_created_at : DateTime;
  ov_expires_at : DateTime;
  ov_consumed_at : option DateTime;
  ov_issued_by : Uuid
}.
Definition override_is_valid (t : DateTime) (o : MaintenanceOverride) : bool :=
  bool_decide (ov_consumed_at o = None) && (t <=? ov_expires_at o)%Z.
Definition override_consume (t : DateTime) (o : MaintenanceOverride) : MaintenanceOverride :=
  mkOverride (ov_id o) (ov_target_class o) (ov_reason o) (ov_ttl_secs o) (ov_created_at o)
    (ov_expires_at o) (Some t) (ov_issued_by o).
