(* ===== verification/HostingTables.v ===== *)
(** * Tables of the hosting contexts

    The rows of the sites, staging, cron, registry, token, collaborator, plan, maintenance, load
    balancer, quota, database, recovery and backup tables ([app/src/migrations/]), and the record that holds them in the
    database of [Store]. *)
From S2P Require Import Prelude Text Float64 Accounts Paths CronJobs BackupRuns Plans Maintenance.

(** [sites]; [aliases] as the list its JSON text holds. *)
Record SiteRow := mkSiteRow {
  si_id : Uuid;
  si_owner_id : Uuid;
  si_primary_domain : string;
  si_aliases : list string;
  si_document_root : string;
  si_php_enabled : bool;
  si_php_version : option string;
  si_status : string;
  si_created_at : DateTime;
  si_updated_at : DateTime;
  si_created_by : string;
  si_modified_by : string
}.

(** [staging_slots], [staging_snapshots], [promotion_runs], [staging_locks]. *)
Record SlotRow := mkSlotRow {
  sl_id : Uuid;
  sl_site_id : Uuid;
  sl_subdomain : string;
  sl_document_root : string;
  sl_db_name : string;
  sl_php_version : option string;
  sl_sync_policy : string;
  sl_schedule : option string;
  sl_current_snapshot : option Z;
  sl_last_promoted_snapshot : option Z;
  sl_mail_capture : Z;
  sl_created_at : DateTime;
  sl_updated_at : DateTime
}.

Record SnapshotRow := mkSnapshotRow {
  sn_site_id : Uuid;
  sn_snapshot : Z;
  sn_taken_at : DateTime
}.

Record PromotionRow := mkPromotionRow {
  pm_id : Uuid;
  pm_site_id : Uuid;
  pm_snapshot : Z;
  pm_confirmed_at : DateTime;
  pm_status : string;
  pm_requested_by : string;
  pm_requested_at : DateTime;
  pm_updated_at : DateTime;
  pm_failure_reason : option string
}.

Record LockRow := mkLockRow {
  lk_site_id : Uuid;
  lk_locked_by : string;
  lk_locked_at : DateTime
}.

(** [cron_jobs] and [cron_runs]; a payload as the value its JSON text holds. *)
Record CronJobRow := mkCronJobRow {
  cjr_id : Uuid;
  cjr_owner_id : Uuid;
  cjr_payload : CronJob
}.

Record CronRunRow := mkCronRunRow {
  crr_id : Uuid;
  crr_job_id : Uuid;
  crr_owner_id : Uuid;
  crr_payload : JobRun;
  crr_active : bool;
  crr_created_at : DateTime
}.

(** [image_namespaces], [stored_images], [scan_results]. *)
Record NamespaceRow := mkNamespaceRow {
  nr_namespace_id : string;
  nr_owner : Uuid;
  nr_quota_bytes : Z;
  nr_used_bytes : Z;
  nr_created_at : DateTime
}.

Record ImageRow := mkImageRow {
  ir_digest : string;
  ir_namespace : string;
  ir_size_bytes : Z;
  ir_pushed_at : DateTime;
  ir_reference : option string;
  ir_scan_status : string
}.

(** The findings of a scan: identifier, severity, summary. *)
Record ScanFinding := mkFinding {
  sf_id : string;
  sf_severity : string;
  sf_summary : string
}.

Record ScanRow := mkScanRow {
  sc_digest : string;
  sc_scanned_at : DateTime;
  sc_findings : list ScanFinding
}.

(** [api_tokens]; the JSON texts of the scopes and of the allowlist as the lists they hold. *)
Record TokenRow := mkTokenRow {
  tk_id : Uuid;
  tk_user_id : Uuid;
  tk_label : string;
  tk_hash : list N;
  tk_scopes : list string;
  tk_cidr_allowlist : option (list string);
  tk_created_at : DateTime;
  tk_expires_at : DateTime;
  tk_last_used_at : option DateTime;
  tk_revoked_at : option DateTime
}.

(** The bucket of a token; instants of the monotonic clock in nanoseconds. *)
Record Bucket := mkBucket {
  bk_tokens : f64;
  bk_last_refill : Z
}.

(** [collaborators] and [site_grants]. *)
Record CollaboratorRow := mkCollaboratorRow {
  cb_id : Uuid;
  cb_account_id : Uuid;
  cb_email : string;
  cb_status : string;
  cb_invited_at : DateTime;
  cb_accepted_at : option DateTime;
  cb_revoked_at : option DateTime
}.
Record SiteGrantRow := mkSiteGrantRow {
  gr_collaborator_id : Uuid;
  gr_site_id : Uuid;
  gr_permissions : Z;
  gr_granted_at : DateTime
}.
Record AccessTables := mkAccessTables {
  ac_collaborators : list CollaboratorRow;
  ac_grants : list SiteGrantRow
}.
Definition set_collaborators x (a : AccessTables) : AccessTables := mkAccessTables x (ac_grants a).
Definition set_grants x (a : AccessTables) : AccessTables := mkAccessTables (ac_collaborators a) x.

(** [hosting_plans] and [user_plan_assignments]; the JSON texts as the values they hold.
    [pl_cache] is what the plan service keeps in memory. *)
Record PlanRow := mkPlanRow {
  hp_id : Uuid;
  hp_name : string;
  hp_description : string;
  hp_prices : list PlanPrice;
  hp_features : gmap PlanFeature PlanFeatureState;
  hp_quota_caps : PlanQuotas;
  hp_allowed_apps : list Uuid;
  hp_allowed_php_runtimes : list string;
  hp_status : string;
  hp_created_at : DateTime;
  hp_updated_at : DateTime
}.
Record AssignmentRow := mkAssignmentRow {
  ua_user_id : Uuid;
  ua_plan_id : Uuid;
  ua_assigned_at : DateTime;
  ua_assigned_by : Uuid;
  ua_replaced_at : option DateTime
}.
Record PlanTables := mkPlanTables {
  pl_plans : list PlanRow;
  pl_assignments : list AssignmentRow;
  pl_cache : gmap Uuid (EffectiveQuotas * DateTime)
}.
Definition set_plans x (t : PlanTables) : PlanTables := mkPlanTables x (pl_assignments t) (pl_cache t).
Definition set_assignments x (t : PlanTables) : PlanTables := mkPlanTables (pl_plans t) x (pl_cache t).
Definition set_cache x (t : PlanTables) : PlanTables := mkPlanTables (pl_plans t) (pl_assignments t) x.

(** [maintenance_windows] and [maintenance_overrides]; [blocked_classes] as the list
    its JSON text holds. *)
Record WindowRow := mkWindowRow {
  mw_id : Uuid;
  mw_label : string;
  mw_starts_at : DateTime;
  mw_ends_at : DateTime;
  mw_blocked_classes : list DestructiveActionClass;
  mw_created_at : DateTime;
  mw_created_by : Uuid
}.
Record OverrideRow := mkOverrideRow {
  mo_id : Uuid;
  mo_target_class : string;
  mo_reason : string;
  mo_ttl_secs : Z;
  mo_created_at : DateTime;
  mo_expires_at : DateTime;
  mo_consumed_at : option DateTime;
  mo_issued_by : Uuid
}.
Record MaintenanceTables := mkMaintenanceTables {
  mt_windows : list WindowRow;
  mt_overrides : list OverrideRow
}.
Definition set_windows x (t : MaintenanceTables) : MaintenanceTables := mkMaintenanceTables x (mt_overrides t).
Definition set_overrides x (t : MaintenanceTables) : MaintenanceTables := mkMaintenanceTables (mt_windows t) x.

(** [lb_pools] and [lb_members]. *)
Record LbPoolRow := mkLbPoolRow {
  lp_id : Uuid;
  lp_name : string;
  lp_algorithm : string;
  lp_created_at : DateTime
}.
Record LbMemberRow := mkLbMemberRow {
  lm_id : Uuid;
  lm_pool_id : Uuid;
  lm_address : string;
  lm_weight : Z;
  lm_status : string;
  lm_last_probe_at : option DateTime;
  lm_failed_probe_count : Z
}.
Record LbTables := mkLbTables {
  lb_pools : list LbPoolRow;
  lb_members : list LbMemberRow
}.
Definition set_lb_pools x (t : LbTables) : LbTables := mkLbTables x (lb_members t).
Definition set_lb_members x (t : LbTables) : LbTables := mkLbTables (lb_pools t) x.

(** [quota_policies] and [quota_usages], integers as SQLite keeps them; the [AUTOINCREMENT] key
    of a usage, which nothing reads, is left out. *)
Record QuotaPolicyRow := mkQuotaPolicyRow {
  qp_id : Uuid;
  qp_subject_kind : string;
  qp_subject_id : Uuid;
  qp_disk_soft_bytes : Z;
  qp_disk_hard_bytes : Z;
  qp_disk_grace_days : Z;
  qp_bandwidth_soft_bytes : Z;
  qp_bandwidth_hard_bytes : Z;
  qp_bandwidth_grace_days : Z;
  qp_inodes_soft : Z;
  qp_inodes_hard : Z;
  qp_inodes_grace_days : Z;
  qp_max_file_size_bytes : option Z;
  qp_cpu_shares : option Z;
  qp_created_at : DateTime;
  qp_updated_at : DateTime
}.
Record QuotaUsageRow := mkQuotaUsageRow {
  qu_subject_id : Uuid;
  qu_sampled_at : DateTime;
  qu_disk_used_bytes : Z;
  qu_disk_inodes_used : Z;
  qu_bandwidth_used_bytes : Z;
  qu_over_soft : list string;
  qu_over_hard : list string
}.
Record QuotaTables := mkQuotaTables {
  qt_policies : list QuotaPolicyRow;
  qt_usages : list QuotaUsageRow
}.
Definition set_policies x (t : QuotaTables) : QuotaTables := mkQuotaTables x (qt_usages t).
Definition set_usages x (t : QuotaTables) : QuotaTables := mkQuotaTables (qt_policies t) x.

(** [databases] and the tables of point-in-time recovery, [binlog_streams], [pitr_restores] and
    [incremental_backups]; a log position as the hexadecimal text of its column. *)
Record DatabaseRow := mkDatabaseRow {
  dbr_id : Uuid;
  dbr_owner_id : Uuid;
  dbr_name : string;
  dbr_db_user : string;
  dbr_db_host : string;
  dbr_engine : string;
  dbr_charset : string;
  dbr_status : string;
  dbr_password_ciphertext : string;
  dbr_created_at : DateTime;
  dbr_created_by : string
}.
Record StreamRow := mkStreamRow {
  bs_id : Uuid;
  bs_database_id : Uuid;
  bs_target_id : Uuid;
  bs_last_flushed : string;
  bs_continuous : Z;
  bs_status : string;
  bs_created_at : DateTime;
  bs_updated_at : DateTime
}.
Record RestoreRow := mkRestoreRow {
  rs_id : Uuid;
  rs_database_id : Uuid;
  rs_request_ts : DateTime;
  rs_base_backup : option Uuid;
  rs_replay_to : option string;
  rs_staging_db_id : option Uuid;
  rs_status : string;
  rs_requested_by : string;
  rs_requested_at : DateTime;
  rs_updated_at : DateTime;
  rs_failure_reason : option string
}.
Record IncrementalRow := mkIncrementalRow {
  inr_id : Uuid;
  inr_database_id : Uuid;
  inr_base_backup : Uuid;
  inr_delta_ref : string;
  inr_mode : string;
  inr_bytes : Z;
  inr_captured_through : string;
  inr_captured_at : DateTime
}.

(** The position of an engine's log: its raw bytes. *)
Definition LogSeq : Type := list N.
Record BinlogSegment := mkSegment {
  sg_from : LogSeq;
  sg_to : LogSeq;
  sg_generated_at : DateTime;
  sg_bytes : list N
}.
(** What the in-memory sink holds: segments by database and start position, and the range
    of each database. *)
Record SinkState := mkSinkState {
  sk_segments : gmap (Uuid * string) BinlogSegment;
  sk_ranges : gmap Uuid (LogSeq * LogSeq * DateTime * DateTime)
}.

(** [dt_mysql] lists the statements handed to the [mysql] command, with whether it reported
    success. *)
Record DatabaseTables := mkDatabaseTables {
  dt_databases : list DatabaseRow;
  dt_mysql : list (string * bool);
  dt_streams : list StreamRow;
  dt_restores : list RestoreRow;
  dt_incrementals : list IncrementalRow;
  dt_sink : SinkState
}.
Definition set_databases x (t : DatabaseTables) : DatabaseTables :=
  mkDatabaseTables x (dt_mysql t) (dt_streams t) (dt_restores t) (dt_incrementals t) (dt_sink t).
Definition set_mysql x (t : DatabaseTables) : DatabaseTables :=
  mkDatabaseTables (dt_databases t) x (dt_streams t) (dt_restores t) (dt_incrementals t) (dt_sink t).
Definition set_streams x (t : DatabaseTables) : DatabaseTables :=
  mkDatabaseTables (dt_databases t) (dt_mysql t) x (dt_restores t) (dt_incrementals t) (dt_sink t).
Definition set_restores x (t : DatabaseTables) : DatabaseTables :=
  mkDatabaseTables (dt_databases t) (dt_mysql t) (dt_streams t) x (dt_incrementals t) (dt_sink t).
Definition set_incrementals x (t : DatabaseTables) : DatabaseTables :=
  mkDatabaseTables (dt_databases t) (dt_mysql t) (dt_streams t) (dt_restores t) x (dt_sink t).
Definition set_sink x (t : DatabaseTables) : DatabaseTables :=
  mkDatabaseTables (dt_databases t) (dt_mysql t) (dt_streams t) (dt_restores t) (dt_incrementals t) x.

(** [backup_plans], [backup_runs] and [restore_jobs]; a payload as the value its JSON text holds.
    None of them has a foreign key. *)
Record BackupPlanRow := mkBackupPlanRow {
  bpr_id : Uuid;
  bpr_owner_id : Uuid;
  bpr_payload : BackupPlan
}.
Record BackupRunRow := mkBackupRunRow {
  brr_id : Uuid;
  brr_plan_id : Uuid;
  brr_owner_id : Uuid;
  brr_payload : BackupRunRec;
  brr_created_at : DateTime
}.
Record RestoreJobRow := mkRestoreJobRow {
  rjr_id : Uuid;
  rjr_run_id : Uuid;
  rjr_owner_id : Uuid;
  rjr_state : string;
  rjr_created_at : DateTime
}.
Record BackupTables := mkBackupTables {
  bt_plans : list BackupPlanRow;
  bt_runs : list BackupRunRow;
  bt_restore_jobs : list RestoreJobRow
}.
Definition set_backup_plans x (t : BackupTables) : BackupTables :=
  mkBackupTables x (bt_runs t) (bt_restore_jobs t).
Definition set_backup_runs x (t : BackupTables) : BackupTables :=
  mkBackupTables (bt_plans t) x (bt_restore_jobs t).
Definition set_restore_jobs x (t : BackupTables) : BackupTables :=
  mkBackupTables (bt_plans t) (bt_runs t) x.

(** [ht_blobs] is what the registry's storage layer holds, by path, and [ht_buckets] what the
    token service keeps in memory. *)
Record HostingTables := mkHostingTables {
  ht_sites : list SiteRow;
  ht_slots : list SlotRow;
  ht_snapshots : list SnapshotRow;
  ht_promotions : list PromotionRow;
  ht_locks : list LockRow;
  ht_cron_jobs : list CronJobRow;
  ht_cron_runs : list CronRunRow;
  ht_namespaces : list NamespaceRow;
  ht_images : list ImageRow;
  ht_scans : list ScanRow;
  ht_blobs : gmap string (list N);
  ht_tokens : list TokenRow;
  ht_buckets : gmap Uuid Bucket;
  ht_access : AccessTables;
  ht_plans : PlanTables;
  ht_maintenance : MaintenanceTables;
  ht_lb : LbTables;
  ht_quotas : QuotaTables;
  ht_databases : DatabaseTables;
  ht_backups : BackupTables
}.

Definition set_sites x (h : HostingTables) : HostingTables :=
  mkHostingTables x (ht_slots h) (ht_snapshots h) (ht_promotions h) (ht_locks h)
    (ht_cron_jobs h) (ht_cron_runs h) (ht_namespaces h) (ht_images h) (ht_scans h) (ht_blobs h)
    (ht_tokens h) (ht_buckets h) (ht_access h)
    (ht_plans h) (ht_maintenance h) (ht_lb h) (ht_quotas h) (ht_databases h) (ht_backups h).
Definition set_slots x (h : HostingTables) : HostingTables :=
  mkHostingTables (ht_sites h) x (ht_snapshots h) (ht_promotions h) (ht_locks h)
    (ht_cron_jobs h) (ht_cron_runs h) (ht_namespaces h) (ht_images h) (ht_scans h) (ht_blobs h)
    (ht_tokens h) (ht_buckets h) (ht_access h)
    (ht_plans h) (ht_maintenance h) (ht_lb h) (ht_quotas h) (ht_databases h) (ht_backups h).
Definition set_snapshots x (h : HostingTables) : HostingTables :=
  mkHostingTables (ht_sites h) (ht_slots h) x (ht_promotions h) (ht_locks h)
    (ht_cron_jobs h) (ht_cron_runs h) (ht_namespaces h) (ht_images h) (ht_scans h) (ht_blobs h)
    (ht_tokens h) (ht_buckets h) (ht_access h)
    (ht_plans h) (ht_maintenance h) (ht_lb h) (ht_quotas h) (ht_databases h) (ht_backups h).
Definition set_promotions x (h : HostingTables) : HostingTables :=
  mkHostingTables (ht_sites h) (ht_slots h) (ht_snapshots h) x (ht_locks h)
    (ht_cron_jobs h) (ht_cron_runs h) (ht_namespaces h) (ht_images h) (ht_scans h) (ht_blobs h)
    (ht_tokens h) (ht_buckets h) (ht_access h)
    (ht_plans h) (ht_maintenance h) (ht_lb h) (ht_quotas h) (ht_databases h) (ht_backups h).
Definition set_locks x (h : HostingTables) : HostingTables :=
  mkHostingTables (ht_sites h) (ht_slots h) (ht_snapshots h) (ht_promotions h) x
    (ht_cron_jobs h) (ht_cron_runs h) (ht_namespaces h) (ht_images h) (ht_scans h) (ht_blobs h)
    (ht_tokens h) (ht_buckets h) (ht_access h)
    (ht_plans h) (ht_maintenance h) (ht_lb h) (ht_quotas h) (ht_databases h) (ht_backups h).
Definition set_cron_jobs x (h : HostingTables) : HostingTables :=
  mkHostingTables (ht_sites h) (ht_slots h) (ht_snapshots h) (ht_promotions h) (ht_locks h)
    x (ht_cron_runs h) (ht_namespaces h) (ht_images h) (ht_scans h) (ht_blobs h)
    (ht_tokens h) (ht_buckets h) (ht_access h)
    (ht_plans h) (ht_maintenance h) (ht_lb h) (ht_quotas h) (ht_databases h) (ht_backups h).
Definition set_cron_runs x (h : HostingTables) : HostingTables :=
  mkHostingTables (ht_sites h) (ht_slots h) (ht_snapshots h) (ht_promotions h) (ht_locks h)
    (ht_cron_jobs h) x (ht_namespaces h) (ht_images h) (ht_scans h) (ht_blobs h)
    (ht_tokens h) (ht_buckets h) (ht_access h)
    (ht_plans h) (ht_maintenance h) (ht_lb h) (ht_quotas h) (ht_databases h) (ht_backups h).
Definition set_namespaces x (h : HostingTables) : HostingTables :=
  mkHostingTables (ht_sites h) (ht_slots h) (ht_snapshots h) (ht_promotions h) (ht_locks h)
    (ht_cron_jobs h) (ht_cron_runs h) x (ht_images h) (ht_scans h) (ht_blobs h)
    (ht_tokens h) (ht_buckets h) (ht_access h)
    (ht_plans h) (ht_maintenance h) (ht_lb h) (ht_quotas h) (ht_databases h) (ht_backups h).
Definition set_images x (h : HostingTables) : HostingTables :=
  mkHostingTables (ht_sites h) (ht_slots h) (ht_snapshots h) (ht_promotions h) (ht_locks h)
    (ht_cron_jobs h) (ht_cron_runs h) (ht_namespaces h) x (ht_scans h) (ht_blobs h)
    (ht_tokens h) (ht_buckets h) (ht_access h)
    (ht_plans h) (ht_maintenance h) (ht_lb h) (ht_quotas h) (ht_databases h) (ht_backups h).
Definition set_scans x (h : HostingTables) : HostingTables :=
  mkHostingTables (ht_sites h) (ht_slots h) (ht_snapshots h) (ht_promotions h) (ht_locks h)
    (ht_cron_jobs h) (ht_cron_runs h) (ht_namespaces h) (ht_images h) x (ht_blobs h)
    (ht_tokens h) (ht_buckets h) (ht_access h)
    (ht_plans h) (ht_maintenance h) (ht_lb h) (ht_quotas h) (ht_databases h) (ht_backups h).
Definition set_blobs x (h : HostingTables) : HostingTables :=
  mkHostingTables (ht_sites h) (ht_slots h) (ht_snapshots h) (ht_promotions h) (ht_locks h)
    (ht_cron_jobs h) (ht_cron_runs h) (ht_namespaces h) (ht_images h) (ht_scans h) x
    (ht_tokens h) (ht_buckets h) (ht_access h)
    (ht_plans h) (ht_maintenance h) (ht_lb h) (ht_quotas h) (ht_databases h) (ht_backups h).
Definition set_tokens x (h : HostingTables) : HostingTables :=
  mkHostingTables (ht_sites h) (ht_slots h) (ht_snapshots h) (ht_promotions h) (ht_locks h)
    (ht_cron_jobs h) (ht_cron_runs h) (ht_namespaces h) (ht_images h) (ht_scans h) (ht_blobs h)
    x (ht_buckets h) (ht_access h)
    (ht_plans h) (ht_maintenance h) (ht_lb h) (ht_quotas h) (ht_databases h) (ht_backups h).
Definition set_buckets x (h : HostingTables) : HostingTables :=
  mkHostingTables (ht_sites h) (ht_slots h) (ht_snapshots h) (ht_promotions h) (ht_locks h)
    (ht_cron_jobs h) (ht_cron_runs h) (ht_namespaces h) (ht_images h) (ht_scans h) (ht_blobs h)
    (ht_tokens h) x (ht_access h)
    (ht_plans h) (ht_maintenance h) (ht_lb h) (ht_quotas h) (ht_databases h) (ht_backups h).
Definition set_access x (h : HostingTables) : HostingTables :=
  mkHostingTables (ht_sites h) (ht_slots h) (ht_snapshots h) (ht_promotions h) (ht_locks h)
    (ht_cron_jobs h) (ht_cron_runs h) (ht_namespaces h) (ht_images h) (ht_scans h) (ht_blobs h)
    (ht_tokens h) (ht_buckets h) x
    (ht_plans h) (ht_maintenance h) (ht_lb h) (ht_quotas h) (ht_databases h) (ht_backups h).
Definition set_plan_tables x (h : HostingTables) : HostingTables :=
  mkHostingTables (ht_sites h) (ht_slots h) (ht_snapshots h) (ht_promotions h) (ht_locks h)
    (ht_cron_jobs h) (ht_cron_runs h) (ht_namespaces h) (ht_images h) (ht_scans h) (ht_blobs h)
    (ht_tokens h) (ht_buckets h) (ht_access h)
    x (ht_maintenance h) (ht_lb h) (ht_quotas h) (ht_databases h) (ht_backups h).
Definition set_maintenance x (h : HostingTables) : HostingTables :=
  mkHostingTables (ht_sites h) (ht_slots h) (ht_snapshots h) (ht_promotions h) (ht_locks h)
    (ht_cron_jobs h) (ht_cron_runs h) (ht_namespaces h) (ht_images h) (ht_scans h) (ht_blobs h)
    (ht_tokens h) (ht_buckets h) (ht_access h)
    (ht_plans h) x (ht_lb h) (ht_quotas h) (ht_databases h) (ht_backups h).
Definition set_lb x (h : HostingTables) : HostingTables :=
  mkHostingTables (ht_sites h) (ht_slots h) (ht_snapshots h) (ht_promotions h) (ht_locks h)
    (ht_cron_jobs h) (ht_cron_runs h) (ht_namespaces h) (ht_images h) (ht_scans h) (ht_blobs h)
    (ht_tokens h) (ht_buckets h) (ht_access h)
    (ht_plans h) (ht_maintenance h) x (ht_quotas h) (ht_databases h) (ht_backups h).
Definition set_quotas x (h : HostingTables) : HostingTables :=
  mkHostingTables (ht_sites h) (ht_slots h) (ht_snapshots h) (ht_promotions h) (ht_locks h)
    (ht_cron_jobs h) (ht_cron_runs h) (ht_namespaces h) (ht_images h) (ht_scans h) (ht_blobs h)
    (ht_tokens h) (ht_buckets h) (ht_access h)
    (ht_plans h) (ht_maintenance h) (ht_lb h) x (ht_databases h) (ht_backups h).

Definition set_database_tables x (h : HostingTables) : HostingTables :=
  mkHostingTables (ht_sites h) (ht_slots h) (ht_snapshots h) (ht_promotions h) (ht_locks h)
    (ht_cron_jobs h) (ht_cron_runs h) (ht_namespaces h) (ht_images h) (ht_scans h) (ht_blobs h)
    (ht_tokens h) (ht_buckets h) (ht_access h)
    (ht_plans h) (ht_maintenance h) (ht_lb h) (ht_quotas h) x (ht_backups h).
Definition set_backup_tables x (h : HostingTables) : HostingTables :=
  mkHostingTables (ht_sites h) (ht_slots h) (ht_snapshots h) (ht_promotions h) (ht_locks h)
    (ht_cron_jobs h) (ht_cron_runs h) (ht_namespaces h) (ht_images h) (ht_scans h) (ht_blobs h)
    (ht_tokens h) (ht_buckets h) (ht_access h)
    (ht_plans h) (ht_maintenance h) (ht_lb h) (ht_quotas h) (ht_databases h) x.

Definition no_plans : PlanTables := mkPlanTables [] [] ∅.
Definition no_maintenance : MaintenanceTables := mkMaintenanceTables [] [].
Definition no_lb : LbTables := mkLbTables [] [].
Definition no_quotas : QuotaTables := mkQuotaTables [] [].
Definition no_sink : SinkState := mkSinkState ∅ ∅.
Definition no_databases : DatabaseTables := mkDatabaseTables [] [] [] [] [] no_sink.
Definition no_backups : BackupTables := mkBackupTables [] [] [].
