(* ===== verification/Store.v ===== *)
(** * The database, the outside world and the audit writer

    The tables are those of the migrations under
    [crates/openpanel-app/src/migrations/] ([identity], [account_hierarchy],
    [ip_allocation], [000_audit.sql]) with their [UNIQUE] and [FOREIGN KEY]
    constraints ([PRAGMA foreign_keys] is on, [core/src/database.rs]).  A table is
    the list of its rows in insertion order.  Uuid and timestamp columns hold the
    text that [uuid] and [chrono] print and parse back; they are kept as values. *)
From S2P Require Import Prelude Text AuditActions AuditLog Accounts Paths CronJobs HostingTables.

(** ** Rows *)

Record UserRow := mkUserRow {
  ur_id : Uuid;
  ur_username : string;
  ur_email : string;
  ur_password_hash : string;
  ur_role : string;
  ur_parent_account_id : option Uuid;
  ur_hosting_plan_id : option Uuid;
  ur_created_at : DateTime;
  ur_disabled_at : option DateTime;
  ur_last_login_at : option DateTime
}.

Record SessionRow := mkSessionRow {
  sr_id : Uuid;
  sr_user_id : Uuid;
  sr_token_hash : string;
  sr_role : string;
  sr_created_at : DateTime;
  sr_last_seen_at : DateTime;
  sr_absolute_expires_at : DateTime;
  sr_source_ip : option string;
  sr_user_agent : option string
}.

(** [account_relationships], [quota_pools], [pool_claims]; the [INTEGER] columns
    hold an [i64]. *)
Record RelationshipRow := mkRelRow {
  rr_parent_id : Uuid;
  rr_child_id : Uuid;
  rr_created_at : DateTime;
  rr_created_by : Uuid;
  rr_status : string
}.

Record PoolRow := mkPoolRow {
  pr_parent_id : Uuid;
  pr_axis : string;
  pr_total_bytes : Z;
  pr_updated_at : DateTime
}.

Record ClaimRow := mkClaimRow {
  cr_parent_id : Uuid;
  cr_child_id : Uuid;
  cr_axis : string;
  cr_share_bytes : Z;
  cr_claimed_at : DateTime
}.

Record IpPoolRow := mkIpPoolRow {
  ipr_id : Uuid;
  ipr_name : string;
  ipr_kind : string;
  ipr_family : string;
  ipr_cidr : string;
  ipr_created_at : DateTime
}.

Record IpAllocationRow := mkIpAllocRow {
  iar_id : Uuid;
  iar_pool_id : Uuid;
  iar_address : string;
  iar_site_id : Uuid;
  iar_status : string;
  iar_allocated_at : DateTime;
  iar_bound_at : option DateTime
}.

(** [user_factors], [recovery_codes], [login_challenges],
    [totp_enrollment_challenges], [webauthn_credentials], [webauthn_challenges]. *)
Record FactorRow := mkFactorRow {
  fr_id : Uuid;
  fr_user_id : Uuid;
  fr_kind : string;
  fr_created_at : DateTime;
  fr_verified_at : DateTime;
  fr_last_used_at : option DateTime;
  fr_revoked_at : option DateTime;
  fr_last_used_step : option Z;
  fr_totp_secret_encrypted : option string
}.

Record RecoveryRow := mkRecoveryRow {
  rc_id : Z;
  rc_user_id : Uuid;
  rc_code_hash : string;
  rc_created_at : DateTime;
  rc_consumed_at : option DateTime
}.

Record ChallengeRow := mkChallengeRow {
  lc_id : Uuid;
  lc_user_id : Uuid;
  lc_token_hash : string;
  lc_created_at : DateTime;
  lc_expires_at : DateTime;
  lc_consumed_at : option DateTime;
  lc_source_ip : option string;
  lc_user_agent : option string
}.

Record EnrollmentRow := mkEnrollmentRow {
  er_id : Uuid;
  er_user_id : Uuid;
  er_encrypted_secret : string;
  er_created_at : DateTime;
  er_expires_at : DateTime;
  er_consumed_at : option DateTime
}.

Record CredentialRow := mkCredentialRow {
  wr_id : Uuid;
  wr_user_id : Uuid;
  wr_factor_id : Uuid;
  wr_credential_id : string;
  wr_public_key_spki : string;
  wr_sign_count : Z;
  wr_transports : option string;
  wr_uv_policy : string;
  wr_passkey_json : string;
  wr_created_at : DateTime;
  wr_last_used_at : option DateTime;
  wr_revoked_at : option DateTime
}.

Record CeremonyRow := mkCeremonyRow {
  wc_id : Uuid;
  wc_user_id : Uuid;
  wc_kind : string;
  wc_state_json : string;
  wc_created_at : DateTime;
  wc_expires_at : DateTime;
  wc_consumed_at : option DateTime
}.

(** [tf_recovery_seq] is the [sqlite_sequence] entry of [recovery_codes], the
    largest key it ever had. *)
Record FactorTables := mkFactorTables {
  tf_factors : list FactorRow;
  tf_recovery : list RecoveryRow;
  tf_recovery_seq : Z;
  tf_challenges : list ChallengeRow;
  tf_enrollments : list EnrollmentRow;
  tf_credentials : list CredentialRow;
  tf_ceremonies : list CeremonyRow
}.

Record Db := mkDb {
  db_users : list UserRow;
  db_sessions : list SessionRow;
  db_relationships : list RelationshipRow;
  db_pools : list PoolRow;
  db_claims : list ClaimRow;
  db_factors : FactorTables;
  db_hosting : HostingTables;
  db_ip_pools : list IpPoolRow;
  db_ip_allocations : list IpAllocationRow;
  db_audit : list AuditRow
}.

Definition set_users x (d : Db) : Db :=
  mkDb x (db_sessions d) (db_relationships d) (db_pools d) (db_claims d)
    (db_factors d) (db_hosting d) (db_ip_pools d) (db_ip_allocations d) (db_audit d).
Definition set_sessions x (d : Db) : Db :=
  mkDb (db_users d) x (db_relationships d) (db_pools d) (db_claims d)
    (db_factors d) (db_hosting d) (db_ip_pools d) (db_ip_allocations d) (db_audit d).
Definition set_relationships x (d : Db) : Db :=
  mkDb (db_users d) (db_sessions d) x (db_pools d) (db_claims d)
    (db_factors d) (db_hosting d) (db_ip_pools d) (db_ip_allocations d) (db_audit d).
Definition set_pools x (d : Db) : Db :=
  mkDb (db_users d) (db_sessions d) (db_relationships d) x (db_claims d)
    (db_factors d) (db_hosting d) (db_ip_pools d) (db_ip_allocations d) (db_audit d).
Definition set_claims x (d : Db) : Db :=
  mkDb (db_users d) (db_sessions d) (db_relationships d) (db_pools d) x
    (db_factors d) (db_hosting d) (db_ip_pools d) (db_ip_allocations d) (db_audit d).
Definition set_factors x (d : Db) : Db :=
  mkDb (db_users d) (db_sessions d) (db_relationships d) (db_pools d) (db_claims d)
    x (db_hosting d) (db_ip_pools d) (db_ip_allocations d) (db_audit d).
Definition set_hosting x (d : Db) : Db :=
  mkDb (db_users d) (db_sessions d) (db_relationships d) (db_pools d) (db_claims d)
    (db_factors d) x (db_ip_pools d) (db_ip_allocations d) (db_audit d).
Definition set_ip_pools x (d : Db) : Db :=
  mkDb (db_users d) (db_sessions d) (db_relationships d) (db_pools d) (db_claims d)
    (db_factors d) (db_hosting d) x (db_ip_allocations d) (db_audit d).
Definition set_ip_allocations x (d : Db) : Db :=
  mkDb (db_users d) (db_sessions d) (db_relationships d) (db_pools d) (db_claims d)
    (db_factors d) (db_hosting d) (db_ip_pools d) x (db_audit d).
Definition set_audit x (d : Db) : Db :=
  mkDb (db_users d) (db_sessions d) (db_relationships d) (db_pools d) (db_claims d)
    (db_factors d) (db_hosting d) (db_ip_pools d) (db_ip_allocations d) x.

(** ** The outside world

    [w_step] counts the interactions with the outside; the [k]-th one reads the
    oracles of [Env] at [k]. *)
Record World := mkWorld { w_step : nat; w_db : Db }.

Definition tick (w : World) : World := mkWorld (S (w_step w)) (w_db w).
Definition with_db (f : Db → Db) (w : World) : World := mkWorld (w_step w) (f (w_db w)).

(** What the code takes from the operating system and from third-party crates. *)
Class Env := {
  (** [chrono::Utc::now()] *)
  utc_now : nat → DateTime;
  (** [uuid::Uuid::new_v4()] *)
  new_v4 : nat → Uuid;
  (** [Uuid::to_string()] *)
  uuid_text : Uuid → string;
  (** [SessionToken::generate]: the base64url text of 32 bytes from [OsRng] *)
  random_token : nat → string;
  (** argon2id of a text under the [k]-th random salt, with the costs of
      [Password::hash] (which may fail) and with the default costs *)
  argon2_hash : nat → string → result string string;
  argon2_default_hash : nat → string → string;
  (** [PasswordHash::new] on the stored text, then [verify_password] *)
  argon2_verify : string → string → result bool string;
  (** [sqlx]: why the [k]-th statement could not be executed, if so *)
  sql_fault : nat → option string;
  (** [sqlx::Error::to_string()] for a violated constraint *)
  constraint_text : string → string
}.

(** [RepoError]. *)
Abbreviation RepoError := string.

Section store.
Context `{Env}.

Definition now {E} : M World E DateTime := λ w, (Ok (utc_now (w_step w)), tick w).
Definition fresh_uuid {E} : M World E Uuid := λ w, (Ok (new_v4 (w_step w)), tick w).
Definition generate_token {E} : M World E string :=
  λ w, (Ok (random_token (w_step w)), tick w).

(** A statement: it fails as a whole, violates a constraint, or takes effect. *)
Definition statement {A} (f : Db → result (A * Db) string) : M World RepoError A := λ w,
  match sql_fault (w_step w) with
  | Some msg => (Err msg, tick w)
  | None =>
      match f (w_db w) with
      | Ok (a, db') => (Ok a, tick (mkWorld (w_step w) db'))
      | Err c => (Err (constraint_text c), tick w)
      end
  end.

Definition select {A} (f : Db → A) : M World RepoError A :=
  statement (λ d, Ok (f d, d)).
Definition execute (f : Db → Db) : M World RepoError unit :=
  statement (λ d, Ok (tt, f d)).

(** [INSERT INTO audit_log]: the [AUTOINCREMENT] key is one more than any key
    used before; rows are only ever appended here. *)
Definition next_audit_id (t : list AuditRow) : Z :=
  (1 + foldr (λ r m, Z.max (row_id r) m) 0 t)%Z.

Definition audit_row (id : Z) (e : AuditEvent) : AuditRow :=
  {| row_id := id; row_ts := ev_ts e; row_actor := ev_actor e;
     row_action := as_str (ev_action e); row_target := ev_target e;
     row_source_ip := ev_source_ip e; row_outcome := outcome_as_str (ev_outcome e);
     row_metadata := Some (ev_metadata e) |}.

(** [SqliteAuditService::record]. *)
Definition record (e : AuditEvent) : M World RepoError unit :=
  execute (λ d, set_audit (db_audit d ++ [audit_row (next_audit_id (db_audit d)) e]) d).

(** [self.audit.record(AuditEvent::new(..)..).await.ok()]: the event is stamped
    when it is built and a failed write is ignored. *)
Definition audit {E} (actor : string) (action : AuditAction) (outcome : AuditOutcome)
    (build : AuditEvent → AuditEvent) : M World E unit :=
  ts <- now ;;
  _ <- attempt (record (build (event_new ts actor action outcome))) ;;
  ret tt.

(** [pool.begin()], the statements of [body], [tx.commit()]: when one of them fails the
    database is as before. *)
Definition in_transaction {A} (on_begin on_commit : RepoError → RepoError)
    (body : M World RepoError A) : M World RepoError A := λ w,
  let all :=
    map_err on_begin (select (λ _, tt)) ;;;
    a <- body ;;
    map_err on_commit (select (λ _, tt)) ;;;
    ret a in
  match all w with
  | (Ok a, w') => (Ok a, w')
  | (Err e, w') => (Err e, mkWorld (w_step w') (w_db w))
  end.

(** *** What these primitives keep *)

Lemma execute_ok (f : Db → Db) w a w' :
  execute f w = (Ok a, w') → w_db w' = f (w_db w).
Proof.
  unfold execute, statement. destruct (sql_fault (w_step w)); [done|]. by intros [= _ <-].
Qed.

(** A statement that fails changes nothing. *)
Lemma statement_err {A} (f : Db → result (A * Db) string) w e w' :
  statement f w = (Err e, w') → w_db w' = w_db w.
Proof.
  unfold statement. destruct (sql_fault (w_step w)); [by intros [= _ <-]|].
  destruct (f (w_db w)) as [[a d']|]; [done|]. by intros [= _ <-].
Qed.

Lemma within_now {E} (R : relation World) :
  (∀ w, R w (tick w)) → within R (now (E:=E)).
Proof. intros HR w; apply HR. Qed.

Lemma within_fresh_uuid {E} (R : relation World) :
  (∀ w, R w (tick w)) → within R (fresh_uuid (E:=E)).
Proof. intros HR w; apply HR. Qed.

Lemma within_generate_token {E} (R : relation World) :
  (∀ w, R w (tick w)) → within R (generate_token (E:=E)).
Proof. intros HR w; apply HR. Qed.

Lemma within_statement {A} (R : relation World) (f : Db → result (A * Db) string) :
  (∀ w, R w (tick w)) →
  (∀ k d a d', f d = Ok (a, d') → R (mkWorld k d) (mkWorld (S k) d')) →
  within R (statement f).
Proof.
  intros HR Hf w. unfold statement. destruct (sql_fault (w_step w)); [apply HR|].
  destruct (f (w_db w)) as [[a d']|] eqn:E; [|apply HR]. destruct w; cbn in *.
  by eapply Hf.
Qed.

Lemma within_select {A} (R : relation World) (f : Db → A) :
  (∀ w, R w (tick w)) → within R (select f).
Proof.
  intros HR. apply within_statement; [done|]. intros k d a d' [= <- <-]. apply (HR (mkWorld k d)).
Qed.

Lemma within_execute (R : relation World) (f : Db → Db) :
  (∀ w, R w (tick w)) → (∀ k d, R (mkWorld k d) (mkWorld (S k) (f d))) →
  within R (execute f).
Proof.
  intros HR Hf. apply within_statement; [done|]. intros k d a d' [= <- <-]. apply Hf.
Qed.
End store.

(** *** Statements that are executed *)

Section no_faults.
Context `{Env}.
Hypothesis no_faults : ∀ k, sql_fault k = None.

Lemma execute_no_fault f w :
  execute f w = (Ok tt, mkWorld (S (w_step w)) (f (w_db w))).
Proof using no_faults. unfold execute, statement. by rewrite no_faults. Qed.

Lemma select_no_fault {A} (f : Db → A) w : select f w = (Ok (f (w_db w)), tick w).
Proof using no_faults.
  unfold select, statement. rewrite no_faults. by destruct w.
Qed.
End no_faults.

(** A two-state property that looks at the database only. *)
Definition on_db (R : relation Db) : relation World := λ w w', R (w_db w) (w_db w').

#[export] Instance on_db_preorder (R : relation Db) : PreOrder R → PreOrder (on_db R).
Proof. intros [HR HT]; split; repeat intro; unfold on_db in *; [apply HR | eapply HT; eauto]. Qed.

(** The audit log is not part of what the other components look at. *)
Class AuditBlind (R : relation Db) := audit_blind : ∀ d t, R d (set_audit t d).

Section on_db.
Context `{Env} (R : relation Db) `{!PreOrder R}.

Lemma on_db_tick (w : World) : on_db R w (tick w).
Proof. unfold on_db; cbn. reflexivity. Qed.

Lemma on_db_now {E} : within (on_db R) (now (E:=E)).
Proof. apply within_now, on_db_tick. Qed.
Lemma on_db_fresh_uuid {E} : within (on_db R) (fresh_uuid (E:=E)).
Proof. apply within_fresh_uuid, on_db_tick. Qed.
Lemma on_db_generate_token {E} : within (on_db R) (generate_token (E:=E)).
Proof. apply within_generate_token, on_db_tick. Qed.
Lemma on_db_select {A} (f : Db → A) : within (on_db R) (select f).
Proof. apply within_select, on_db_tick. Qed.
Lemma on_db_execute (f : Db → Db) : (∀ d, R d (f d)) → within (on_db R) (execute f).
Proof. intros Hf. apply within_execute; [apply on_db_tick|]. intros; apply Hf. Qed.
Lemma on_db_statement {A} (f : Db → result (A * Db) string) :
  (∀ d a d', f d = Ok (a, d') → R d d') → within (on_db R) (statement f).
Proof.
  intros Hf. apply within_statement; [apply on_db_tick|]. intros k d a d' E.
  unfold on_db; cbn. by eapply Hf.
Qed.
Lemma on_db_audit `{!AuditBlind R} {E} actor action outcome build :
  within (on_db R) (audit (E:=E) actor action outcome build).
Proof.
  pose proof (on_db_now (E:=E)). unfold audit, record. within_tac.
  apply on_db_execute. intros d. apply audit_blind.
Qed.

(** An audit call never stops the method. *)
Lemma audit_ok `{!AuditBlind R} {E} actor action outcome build w :
  ∃ w', audit (E:=E) actor action outcome build w = (Ok tt, w') ∧ on_db R w w'.
Proof.
  pose proof (on_db_audit (E:=E) actor action outcome build w) as Hs.
  destruct (audit actor action outcome build w) as [r w'] eqn:Ha. exists w'. split; [|exact Hs].
  unfold audit, bind, attempt in Ha. cbn [now] in Ha.
  destruct (record _ _) as [[] w1]; by injection Ha as <- <-.
Qed.
End on_db.

#[export] Hint Resolve on_db_now on_db_fresh_uuid on_db_generate_token on_db_select
  on_db_audit : within.
#[export] Hint Extern 1 (AuditBlind _) => typeclasses eauto : within.

(** The counter of interactions never goes back, so a later draw has a later number. *)
Definition forward : relation World := λ w w', (w_step w ≤ w_step w')%nat.

#[export] Instance forward_preorder : PreOrder forward.
Proof. unfold forward. split; repeat intro; lia. Qed.

Section forward.
Context `{Env}.

Lemma forward_tick w : forward w (tick w).
Proof. unfold forward. cbn. lia. Qed.
Lemma forward_now {E} : within forward (now (E:=E)).
Proof. apply within_now, forward_tick. Qed.
Lemma forward_fresh_uuid {E} : within forward (fresh_uuid (E:=E)).
Proof. apply within_fresh_uuid, forward_tick. Qed.
Lemma forward_statement {A} (f : Db → result (A * Db) string) : within forward (statement f).
Proof. apply within_statement; [apply forward_tick|]. intros; unfold forward; cbn; lia. Qed.
Lemma forward_select {A} (f : Db → A) : within forward (select f).
Proof. apply forward_statement. Qed.
Lemma forward_execute (f : Db → Db) : within forward (execute f).
Proof. apply forward_statement. Qed.
Lemma forward_audit {E} actor action outcome build :
  within forward (audit (E:=E) actor action outcome build).
Proof. pose proof (forward_now (E:=E)). pose proof forward_execute. unfold audit, record. within_tac. Qed.

(** From step [n] on no identifier is drawn twice. *)
Definition draws_differ (n : nat) : Prop := ∀ j k, (n ≤ j)%nat → (j < k)%nat → new_v4 k ≠ new_v4 j.
Lemma draws_differ_later n n' : (n ≤ n')%nat → draws_differ n → draws_differ n'.
Proof. intros Hn Hd j k Hj Hk. apply Hd; lia. Qed.
End forward.

#[export] Hint Resolve forward_now forward_fresh_uuid forward_statement forward_select forward_execute
  forward_audit : within.

(** ** Properties *)

(** Recorded events.  The event stored by [record] is read back unchanged, except
    that an event of one of the 45 actions without an arm in [parse_action] is not
    read back at all. *)
Theorem recorded_event_roundtrip (id : Z) (e : AuditEvent) :
  length unparsed = 45%nat
  ∧ parse_audit_row (audit_row id e)
    = if unparsed_name (as_str (ev_action e)) then None else Some e.
Proof.
  split; [done|].
  unfold parse_audit_row. cbn [row_action audit_row]. rewrite parse_action_as_str.
  destruct (unparsed_name _); [done|]. by destruct e as [? ? ? ? ? [] ?].
Qed.
