(* ===== verification/Users.v ===== *)
(** * SQLite repositories for users and sessions

    [crates/openpanel-app/src/identity/repo.rs]: [SqliteUserRepository] and
    [SqliteSessionRepository], with the row decoders. *)
From S2P Require Import Prelude Text Accounts CronJobs HostingTables Store.

(** ** Rows and values *)

(** [UserRow::into_user]: the stored texts are validated again. *)
Definition into_user (r : UserRow) : result UserRec RepoError :=
  username <-? result_map_err username_error_text (username_new (ur_username r)) ;;
  email <-? result_map_err domain_error_text (email_new (ur_email r)) ;;
  role <-? result_map_err (λ s, "unknown role `" +:+ s +:+ "`") (role_from_str (ur_role r)) ;;
  Ok {| u_id := ur_id r; u_username := username; u_email := email;
        u_password := ur_password_hash r; u_role := role;
        u_parent_account_id := ur_parent_account_id r;
        u_hosting_plan_id := ur_hosting_plan_id r; u_created_at := ur_created_at r;
        u_disabled_at := ur_disabled_at r; u_last_login_at := ur_last_login_at r |}.

(** The row [SqliteUserRepository::insert] binds. *)
Definition user_row (u : UserRec) : UserRow :=
  {| ur_id := u_id u; ur_username := u_username u; ur_email := u_email u;
     ur_password_hash := u_password u; ur_role := role_as_str (u_role u);
     ur_parent_account_id := u_parent_account_id u;
     ur_hosting_plan_id := u_hosting_plan_id u; ur_created_at := u_created_at u;
     ur_disabled_at := u_disabled_at u; ur_last_login_at := u_last_login_at u |}.

(** [SessionRow::into_session]. *)
Definition into_session (r : SessionRow) : result Session RepoError :=
  role <-? result_map_err (λ s, "unknown role `" +:+ s +:+ "`") (role_from_str (sr_role r)) ;;
  Ok {| s_id := sr_id r; s_user_id := sr_user_id r; s_token_hash := sr_token_hash r;
        s_role := role; s_created_at := sr_created_at r;
        s_last_seen_at := sr_last_seen_at r;
        s_absolute_expires_at := sr_absolute_expires_at r;
        s_source_ip := sr_source_ip r; s_user_agent := sr_user_agent r |}.

Definition session_row (s : Session) : SessionRow :=
  {| sr_id := s_id s; sr_user_id := s_user_id s; sr_token_hash := s_token_hash s;
     sr_role := role_as_str (s_role s); sr_created_at := s_created_at s;
     sr_last_seen_at := s_last_seen_at s;
     sr_absolute_expires_at := s_absolute_expires_at s;
     sr_source_ip := s_source_ip s; sr_user_agent := s_user_agent s |}.

(** Column updates of [users]. *)
Definition row_set_role (role : string) (r : UserRow) : UserRow :=
  mkUserRow (ur_id r) (ur_username r) (ur_email r) (ur_password_hash r) role
    (ur_parent_account_id r) (ur_hosting_plan_id r) (ur_created_at r)
    (ur_disabled_at r) (ur_last_login_at r).
Definition row_set_disabled (d : option DateTime) (r : UserRow) : UserRow :=
  mkUserRow (ur_id r) (ur_username r) (ur_email r) (ur_password_hash r) (ur_role r)
    (ur_parent_account_id r) (ur_hosting_plan_id r) (ur_created_at r)
    d (ur_last_login_at r).
Definition row_set_last_login (t : option DateTime) (r : UserRow) : UserRow :=
  mkUserRow (ur_id r) (ur_username r) (ur_email r) (ur_password_hash r) (ur_role r)
    (ur_parent_account_id r) (ur_hosting_plan_id r) (ur_created_at r)
    (ur_disabled_at r) t.
Definition row_set_password (h : string) (r : UserRow) : UserRow :=
  mkUserRow (ur_id r) (ur_username r) (ur_email r) h (ur_role r)
    (ur_parent_account_id r) (ur_hosting_plan_id r) (ur_created_at r)
    (ur_disabled_at r) (ur_last_login_at r).
Definition row_set_parent (p : option Uuid) (r : UserRow) : UserRow :=
  mkUserRow (ur_id r) (ur_username r) (ur_email r) (ur_password_hash r) (ur_role r)
    p (ur_hosting_plan_id r) (ur_created_at r)
    (ur_disabled_at r) (ur_last_login_at r).
Definition row_set_plan (p : option Uuid) (r : UserRow) : UserRow :=
  mkUserRow (ur_id r) (ur_username r) (ur_email r) (ur_password_hash r) (ur_role r)
    (ur_parent_account_id r) p (ur_created_at r)
    (ur_disabled_at r) (ur_last_login_at r).

Definition session_row_touch (t : DateTime) (r : SessionRow) : SessionRow :=
  mkSessionRow (sr_id r) (sr_user_id r) (sr_token_hash r) (sr_role r) (sr_created_at r)
    t (sr_absolute_expires_at r) (sr_source_ip r) (sr_user_agent r).

Definition id_is (id : Uuid) (r : UserRow) : bool := (ur_id r =? id)%N.
Definition session_id_is (id : Uuid) (r : SessionRow) : bool := (sr_id r =? id)%N.
Definition session_of (user : Uuid) (r : SessionRow) : bool := (sr_user_id r =? user)%N.

Definition by_created_at (r1 r2 : UserRow) : Prop := (ur_created_at r1 ≤ ur_created_at r2)%Z.
#[export] Instance by_created_at_dec : RelDecision by_created_at.
Proof. unfold by_created_at. intros r1 r2. apply _. Defined.

Definition by_last_seen_desc (r1 r2 : SessionRow) : Prop :=
  (sr_last_seen_at r2 ≤ sr_last_seen_at r1)%Z.
#[export] Instance by_last_seen_desc_dec : RelDecision by_last_seen_desc.
Proof. unfold by_last_seen_desc. intros r1 r2. apply _. Defined.

(** The constraints of an [INSERT INTO users]. *)
Definition insert_user_row (r : UserRow) (d : Db) : result (unit * Db) string :=
  if existsb (λ x, (ur_id x =? ur_id r)%N) (db_users d) then Err "users.id"
  else if existsb (λ x, String.eqb (ur_username x) (ur_username r)) (db_users d)
  then Err "users.username"
  else if existsb (λ x, String.eqb (ur_email x) (ur_email r)) (db_users d)
  then Err "users.email"
  else Ok (tt, set_users (db_users d ++ [r]) d).

(** The constraints of an [INSERT INTO sessions]. *)
Definition insert_session_row (r : SessionRow) (d : Db) : result (unit * Db) string :=
  if existsb (λ x, (sr_id x =? sr_id r)%N) (db_sessions d) then Err "sessions.id"
  else if existsb (λ x, String.eqb (sr_token_hash x) (sr_token_hash r)) (db_sessions d)
  then Err "sessions.token_hash"
  else if existsb (id_is (sr_user_id r)) (db_users d)
  then Ok (tt, set_sessions (db_sessions d ++ [r]) d)
  else Err "FOREIGN KEY".

(** [ON DELETE CASCADE] of the second-factor tables. *)
Definition delete_user_factors (id : Uuid) (t : FactorTables) : FactorTables :=
  {| tf_factors := delete_where (λ r, (fr_user_id r =? id)%N) (tf_factors t);
     tf_recovery := delete_where (λ r, (rc_user_id r =? id)%N) (tf_recovery t);
     tf_recovery_seq := tf_recovery_seq t;
     tf_challenges := delete_where (λ r, (lc_user_id r =? id)%N) (tf_challenges t);
     tf_enrollments := delete_where (λ r, (er_user_id r =? id)%N) (tf_enrollments t);
     tf_credentials := delete_where (λ r, (wr_user_id r =? id)%N) (tf_credentials t);
     tf_ceremonies := delete_where (λ r, (wc_user_id r =? id)%N) (tf_ceremonies t) |}.

(** [DELETE FROM users WHERE id = ?]: refused while a site or a database names
    the user as owner, otherwise cascading to sessions, relationships, pools,
    claims and the tables of the second factors. *)
Definition delete_user_db (id : Uuid) (d : Db) : Db :=
  mkDb (delete_where (id_is id) (db_users d))
    (delete_where (session_of id) (db_sessions d))
    (delete_where (λ r, (rr_parent_id r =? id)%N || (rr_child_id r =? id)%N)
       (db_relationships d))
    (delete_where (λ r, (pr_parent_id r =? id)%N) (db_pools d))
    (delete_where (λ r, (cr_parent_id r =? id)%N || (cr_child_id r =? id)%N)
       (db_claims d))
    (delete_user_factors id (db_factors d))
    (set_tokens (delete_where (λ r, (tk_user_id r =? id)%N) (ht_tokens (db_hosting d))) (db_hosting d))
    (db_ip_pools d) (db_ip_allocations d) (db_audit d).

(** The users that rows of [sites] and [databases] refer to with [ON DELETE RESTRICT]. *)
Definition owner_refs (d : Db) : list Uuid :=
  (map si_owner_id (ht_sites (db_hosting d)) ++ map dbr_owner_id (dt_databases (ht_databases (db_hosting d))))%list.

Definition delete_user_row (id : Uuid) (d : Db) : result (unit * Db) string :=
  if existsb (id_is id) (db_users d) && existsb (N.eqb id) (owner_refs d)
  then Err "FOREIGN KEY"
  else Ok (tt, delete_user_db id d).

Section repos.
Context `{Env}.

(** ** [SqliteUserRepository] *)

Definition users_insert (u : UserRec) : M World RepoError unit :=
  statement (insert_user_row (user_row u)).

Definition fetch_user (p : UserRow → bool) : M World RepoError (option UserRec) :=
  row <- select (λ d, List.find p (db_users d)) ;;
  lift (transpose into_user row).

Definition users_find_by_id (id : Uuid) : M World RepoError (option UserRec) :=
  fetch_user (id_is id).
Definition users_find_by_username (name : string) : M World RepoError (option UserRec) :=
  fetch_user (λ r, String.eqb (ur_username r) name).
Definition users_find_by_email (email : string) : M World RepoError (option UserRec) :=
  fetch_user (λ r, String.eqb (ur_email r) email).

Definition users_list : M World RepoError (list UserRec) :=
  rows <- select (λ d, merge_sort by_created_at (db_users d)) ;;
  lift (collect into_user rows).

Definition update_users (id : Uuid) (f : UserRow → UserRow) : M World RepoError unit :=
  execute (λ d, set_users (update_where (id_is id) f (db_users d)) d).

Definition users_update_role (id : Uuid) (role : Role) : M World RepoError unit :=
  update_users id (row_set_role (role_as_str role)).
Definition users_disable (id : Uuid) : M World RepoError unit :=
  t <- now ;; update_users id (row_set_disabled (Some t)).
Definition users_enable (id : Uuid) : M World RepoError unit :=
  update_users id (row_set_disabled None).
Definition users_update_last_login (id : Uuid) : M World RepoError unit :=
  t <- now ;; update_users id (row_set_last_login (Some t)).
Definition users_update_password (id : Uuid) (hash : string) : M World RepoError unit :=
  update_users id (row_set_password hash).
Definition users_update_parent_account_id (id : Uuid) (parent : option Uuid)
    : M World RepoError unit :=
  update_users id (row_set_parent parent).
Definition users_update_hosting_plan_id (id : Uuid) (plan : option Uuid)
    : M World RepoError unit :=
  update_users id (row_set_plan plan).
Definition users_delete (id : Uuid) : M World RepoError unit :=
  statement (delete_user_row id).
Definition users_count : M World RepoError Z :=
  select (λ d, Z.of_nat (length (db_users d))).

(** The two lookups the trait answers by default; the adapter does not override
    them. *)
Definition users_find_children (parent : Uuid) : M World RepoError (list UserRec) := ret [].
Definition users_find_by_plan (plan : Uuid) : M World RepoError (list UserRec) := ret [].

(** ** [SqliteSessionRepository] *)

Definition sessions_insert (s : Session) : M World RepoError unit :=
  statement (insert_session_row (session_row s)).

(** [Session::verify_token]: a hash that does not parse matches nothing. *)
Definition verify_token (s : Session) (token : string) : bool :=
  match argon2_verify (s_token_hash s) token with
  | Ok b => b
  | Err _ => false
  end.

(** The scan of [find_by_token_hash_match]: rows that do not decode are passed
    over. *)
Fixpoint first_match (rows : list SessionRow) (token : string) : option Session :=
  match rows with
  | [] => None
  | r :: rows' =>
      match into_session r with
      | Ok s => if verify_token s token then Some s else first_match rows' token
      | Err _ => first_match rows' token
      end
  end.

Definition find_by_token_hash_match (token : string) : M World RepoError (option Session) :=
  rows <- select db_sessions ;; ret (first_match rows token).

Definition sessions_find_by_id (id : Uuid) : M World RepoError (option Session) :=
  row <- select (λ d, List.find (session_id_is id) (db_sessions d)) ;;
  lift (transpose into_session row).

Definition sessions_touch (id : Uuid) : M World RepoError unit :=
  t <- now ;;
  execute (λ d, set_sessions
    (update_where (session_id_is id) (session_row_touch t) (db_sessions d)) d).
Definition sessions_delete (id : Uuid) : M World RepoError unit :=
  execute (λ d, set_sessions (delete_where (session_id_is id) (db_sessions d)) d).
Definition sessions_delete_for_user (user : Uuid) : M World RepoError unit :=
  execute (λ d, set_sessions (delete_where (session_of user) (db_sessions d)) d).

Definition sessions_list_for_user (user : Uuid) : M World RepoError (list Session) :=
  rows <- select (λ d, merge_sort by_last_seen_desc
                         (select_where (session_of user) (db_sessions d))) ;;
  lift (collect into_session rows).

Definition purge_expired : M World RepoError Z :=
  t <- now ;;
  statement (λ d,
    let gone r := (sr_absolute_expires_at r <? t)%Z in
    Ok (Z.of_nat (length (select_where gone (db_sessions d))),
        set_sessions (delete_where gone (db_sessions d)) d)).
End repos.

(** ** The invariant of the account tables *)

Definition user_row_ok (r : UserRow) : Prop := is_ok (into_user r) = true.
Definition session_row_ok (r : SessionRow) : Prop := is_ok (into_session r) = true.

(** The tables that hang off the account identifiers [ids]: keys are unique, every
    reference names an account, a child has at most one active parent, and every row
    decodes. *)
Definition rel_active (r : RelationshipRow) : bool := String.eqb (rr_status r) "active".
Definition rel_key (r : RelationshipRow) : Uuid * Uuid := (rr_parent_id r, rr_child_id r).
Definition pool_key (r : PoolRow) : Uuid * string := (pr_parent_id r, pr_axis r).
Definition claim_key (r : ClaimRow) : Uuid * Uuid * string :=
  (cr_parent_id r, cr_child_id r, cr_axis r).

(** The texts and amounts that the decoders of these rows accept. *)
Definition rel_row_ok (r : RelationshipRow) : Prop := In (rr_status r) ["active"; "detached"].
Definition axis_text (s : string) : Prop :=
  In s ["disk_bytes"; "bandwidth_bytes_per_month"; "max_child_accounts"].
Definition pool_row_ok (r : PoolRow) : Prop :=
  axis_text (pr_axis r) ∧ i64_as_u64 (pr_total_bytes r) ≠ 0%Z.
Definition claim_row_ok (r : ClaimRow) : Prop :=
  axis_text (cr_axis r) ∧ i64_as_u64 (cr_share_bytes r) ≠ 0%Z.

Record hier_wf (ids : list Uuid) (rels : list RelationshipRow) (pools : list PoolRow)
    (claims : list ClaimRow) : Prop := {
  wf_rel_keys : NoDup (map rel_key rels);
  wf_rel_users : ∀ r, In r rels → In (rr_parent_id r) ids ∧ In (rr_child_id r) ids;
  wf_one_parent : ∀ r1 r2, In r1 rels → In r2 rels → rel_active r1 = true →
    rel_active r2 = true → rr_child_id r1 = rr_child_id r2 → r1 = r2;
  wf_pool_keys : NoDup (map pool_key pools);
  wf_pool_users : ∀ r, In r pools → In (pr_parent_id r) ids;
  wf_claim_keys : NoDup (map claim_key claims);
  wf_claim_users : ∀ r, In r claims → In (cr_parent_id r) ids ∧ In (cr_child_id r) ids;
  wf_rels_ok : ∀ r, In r rels → rel_row_ok r;
  wf_pools_ok : ∀ r, In r pools → pool_row_ok r;
  wf_claims_ok : ∀ r, In r claims → claim_row_ok r
}.

Lemma hier_wf_mono ids ids' rels pools claims :
  (∀ x, In x ids → In x ids') → hier_wf ids rels pools claims → hier_wf ids' rels pools claims.
Proof.
  intros Hsub [H1 H2 H3 H4 H5 H6 H7 H8 H9 H10]. split; try done.
  - intros r Hr. destruct (H2 r Hr). auto.
  - auto.
  - intros r Hr. destruct (H7 r Hr). auto.
Qed.

(** Rows may be deleted from the three tables freely. *)
Lemma hier_wf_delete ids rels pools claims p q c :
  hier_wf ids rels pools claims →
  hier_wf ids (delete_where p rels) (delete_where q pools) (delete_where c claims).
Proof.
  intros [H1 H2 H3 H4 H5 H6 H7 H8 H9 H10].
  split; try (by apply delete_where_NoDup); try (intros r [Hr _]%delete_where_In; auto).
  intros r1 r2 [? _]%delete_where_In [? _]%delete_where_In. auto.
Qed.

(** Keys are unique, every row decodes, and every session belongs to a user. *)
Record accounts_wf (d : Db) : Prop := {
  wf_user_ids : NoDup (map ur_id (db_users d));
  wf_usernames : NoDup (map ur_username (db_users d));
  wf_emails : NoDup (map ur_email (db_users d));
  wf_users_ok : Forall user_row_ok (db_users d);
  wf_session_ids : NoDup (map sr_id (db_sessions d));
  wf_session_hashes : NoDup (map sr_token_hash (db_sessions d));
  wf_sessions_ok : Forall session_row_ok (db_sessions d);
  wf_session_users :
    ∀ s, In s (db_sessions d) → In (sr_user_id s) (map ur_id (db_users d));
  wf_hier : hier_wf (map ur_id (db_users d)) (db_relationships d) (db_pools d) (db_claims d);
  wf_owner_refs : ∀ i, In i (owner_refs d) → In i (map ur_id (db_users d))
}.

(** The account tables: everything the invariant speaks about, and the rows of other
    components that refer to users. *)
Definition accounts_of (d : Db) :=
  (db_users d, db_sessions d, db_relationships d, db_pools d, db_claims d, owner_refs d).

#[export] Instance accounts_of_blind : AuditBlind (same accounts_of).
Proof. done. Qed.

(** The account tables with the second-factor tables. *)
Definition identity_of (d : Db) := (accounts_of d, db_factors d).

#[export] Instance identity_of_blind : AuditBlind (same identity_of).
Proof. done. Qed.

(** The identifiers of the accounts stored as owners. *)
Definition is_owner_row (r : UserRow) : bool := String.eqb (ur_role r) "owner".
Definition owner (d : Db) (id : Uuid) : Prop :=
  ∃ r, In r (db_users d) ∧ ur_id r = id ∧ is_owner_row r = true.

(** One step of the account tables: the invariant is kept and no owner is lost. *)
Definition accounts_step (d d' : Db) : Prop :=
  accounts_wf d → accounts_wf d' ∧ ∀ id, owner d id → owner d' id.

#[export] Instance accounts_step_preorder : PreOrder accounts_step.
Proof. unfold accounts_step. split; [naive_solver|]. intros x y z H1 H2 Hx. naive_solver. Qed.

#[export] Instance accounts_step_blind : AuditBlind accounts_step.
Proof. intros d t []. split; [by split | done]. Qed.

(** Rows of other tables do not matter. *)
Lemma accounts_step_same (d d' : Db) : accounts_of d' = accounts_of d → accounts_step d d'.
Proof.
  unfold accounts_of. intros [= Hu Hs Hr Hp Hc Ho] [].
  split; [split; rewrite ?Ho, ?Hu, ?Hs, ?Hr, ?Hp, ?Hc; done | unfold owner; by rewrite Hu].
Qed.

Lemma find_id_row (id : Uuid) (t : list UserRow) (r : UserRow) :
  List.find (id_is id) t = Some r → In r t ∧ ur_id r = id.
Proof. intros [Hin Hid%N.eqb_eq]%List.find_some. done. Qed.

(** *** Updates of user rows *)

Lemma user_row_ok_iff (r : UserRow) :
  user_row_ok r ↔ is_ok (username_new (ur_username r)) = true
    ∧ is_ok (email_new (ur_email r)) = true ∧ is_ok (role_from_str (ur_role r)) = true.
Proof.
  unfold user_row_ok, into_user.
  destruct (username_new (ur_username r)); cbn; [|naive_solver].
  destruct (email_new (ur_email r)); cbn; [|naive_solver].
  destruct (role_from_str (ur_role r)); cbn; naive_solver.
Qed.

(** An update that keeps the key and the validated columns is an account step
    when it does not demote an owner. *)
Lemma update_users_step (id : Uuid) (f : UserRow → UserRow) (d : Db) :
  (∀ r, ur_id (f r) = ur_id r ∧ ur_username (f r) = ur_username r ∧ ur_email (f r) = ur_email r) →
  (∀ r, In r (db_users d) → ur_id r = id →
     is_ok (role_from_str (ur_role (f r))) = true
     ∧ (is_owner_row r = true → is_owner_row (f r) = true)) →
  accounts_step d (set_users (update_where (id_is id) f (db_users d)) d).
Proof.
  intros Hkeys Hrole Hwf. split.
  - destruct Hwf as [H1 H2 H3 H4 H5 H6 H7 H8 H9 H10]. split; cbn; try done.
    + rewrite update_where_key; [done | apply Hkeys].
    + rewrite update_where_key; [done | apply Hkeys].
    + rewrite update_where_key; [done | apply Hkeys].
    + apply List.Forall_forall. rewrite List.Forall_forall in H4.
      intros r (r' & Hin & ->)%update_where_In.
      destruct (id_is id r') eqn:E; [|by apply H4]. apply N.eqb_eq in E.
      specialize (H4 _ Hin). rewrite user_row_ok_iff in H4 |- *.
      destruct (Hkeys r') as (_ & -> & ->). destruct (Hrole r' Hin E) as [? _].
      destruct H4 as (? & ? & _). auto.
    + rewrite update_where_key; [done | apply Hkeys].
    + rewrite update_where_key; [done | apply Hkeys].
    + rewrite update_where_key; [done | apply Hkeys].
  - intros x (r & Hin & Hid & Hown). unfold owner; cbn.
    exists (if id_is id r then f r else r). split; [apply update_where_In; eauto|].
    destruct (id_is id r) eqn:E; [|done]. apply N.eqb_eq in E.
    destruct (Hkeys r) as (-> & _). destruct (Hrole r Hin E). naive_solver.
Qed.

Lemma update_users_step_role (id : Uuid) (f : UserRow → UserRow) (d : Db) :
  (∀ r, ur_id (f r) = ur_id r ∧ ur_username (f r) = ur_username r
        ∧ ur_email (f r) = ur_email r ∧ ur_role (f r) = ur_role r) →
  accounts_step d (set_users (update_where (id_is id) f (db_users d)) d).
Proof.
  intros Hk Hwf. apply update_users_step; [naive_solver | | done].
  intros r Hin _. destruct (Hk r) as (_ & _ & _ & Hr). unfold is_owner_row. rewrite Hr.
  split; [|done]. destruct Hwf as [_ _ _ H4 _ _ _ _ _ _]. rewrite List.Forall_forall in H4.
  specialize (H4 _ Hin). rewrite user_row_ok_iff in H4. naive_solver.
Qed.

(** *** Sessions *)

Lemma session_row_ok_iff (r : SessionRow) :
  session_row_ok r ↔ is_ok (role_from_str (sr_role r)) = true.
Proof. unfold session_row_ok, into_session. by destruct (role_from_str (sr_role r)). Qed.

Lemma delete_sessions_step (p : SessionRow → bool) (d : Db) :
  accounts_step d (set_sessions (delete_where p (db_sessions d)) d).
Proof.
  intros [H1 H2 H3 H4 H5 H6 H7 H8 H9 H10]. split; [|done]. split; cbn; try done.
  - by apply delete_where_NoDup.
  - by apply delete_where_NoDup.
  - rewrite List.Forall_forall in *. intros r [Hr _]%delete_where_In. auto.
  - intros s [Hs _]%delete_where_In. auto.
Qed.

Lemma touch_sessions_step (p : SessionRow → bool) (t : DateTime) (d : Db) :
  accounts_step d (set_sessions (update_where p (session_row_touch t) (db_sessions d)) d).
Proof.
  intros [H1 H2 H3 H4 H5 H6 H7 H8 H9 H10]. split; [|done]. split; cbn; try done.
  - by rewrite update_where_key.
  - by rewrite update_where_key.
  - rewrite List.Forall_forall in *. intros r (r' & Hr & ->)%update_where_In.
    specialize (H7 _ Hr). rewrite session_row_ok_iff in *. by destruct (p r').
  - intros s (r' & Hr & ->)%update_where_In. specialize (H8 _ Hr). by destruct (p r').
Qed.

Lemma existsb_key_false {A K} (key : A → K) (eqb : K → K → bool) (t : list A) (k : K) :
  (∀ a b, eqb a b = true ↔ a = b) →
  existsb (λ x, eqb (key x) k) t = false → ~ In k (map key t).
Proof.
  intros He Hx Hin. apply in_map_iff in Hin as (x & <- & Hx').
  pose proof (proj1 (existsb_false _ _) Hx _ Hx') as Hf. cbn in Hf.
  assert (eqb (key x) (key x) = true) by by apply He. congruence.
Qed.

Lemma insert_session_step (s : Session) (d : Db) a d' :
  insert_session_row (session_row s) d = Ok (a, d') → accounts_step d d'.
Proof.
  unfold insert_session_row. intros Hins [H1 H2 H3 H4 H5 H6 H7 H8 H9 H10].
  destruct (existsb _ (db_sessions d)) eqn:E1; [done|].
  destruct (existsb _ (db_sessions d)) eqn:E2 in Hins; [done|].
  destruct (existsb (id_is _) _) eqn:E3; [|done]. injection Hins as <- <-.
  split; [|done]. split; cbn; try done.
  - apply (NoDup_snoc sr_id); [done|]. eapply existsb_key_false, E1. apply N.eqb_eq.
  - apply (NoDup_snoc sr_token_hash); [done|]. eapply existsb_key_false, E2. apply String.eqb_eq.
  - apply Forall_app; split; [done|]. repeat constructor. rewrite session_row_ok_iff.
    cbn. by rewrite role_roundtrip.
  - intros r [Hr|[<-|[]]]%in_app_iff; [auto|]. cbn.
    apply existsb_exists in E3 as (x & Hx & Hid%N.eqb_eq). cbn in Hid. rewrite <- Hid.
    by apply in_map.
Qed.

(** *** Inserting and deleting users *)

Lemma insert_user_step (u : UserRec) (d : Db) a d' :
  is_ok (username_new (u_username u)) = true → is_ok (email_new (u_email u)) = true →
  insert_user_row (user_row u) d = Ok (a, d') → accounts_step d d'.
Proof.
  intros Hn He Hins [H1 H2 H3 H4 H5 H6 H7 H8 H9 H10]. unfold insert_user_row in Hins.
  destruct (existsb _ (db_users d)) eqn:E1; [done|].
  destruct (existsb _ (db_users d)) eqn:E2 in Hins; [done|].
  destruct (existsb _ (db_users d)) eqn:E3 in Hins; [done|]. injection Hins as <- <-.
  split.
  - split; cbn; try done.
    + apply (NoDup_snoc ur_id); [done|]. eapply existsb_key_false, E1. apply N.eqb_eq.
    + apply (NoDup_snoc ur_username); [done|]. eapply existsb_key_false, E2. apply String.eqb_eq.
    + apply (NoDup_snoc ur_email); [done|]. eapply existsb_key_false, E3. apply String.eqb_eq.
    + apply Forall_app; split; [done|]. repeat constructor. rewrite user_row_ok_iff. cbn.
      by rewrite role_roundtrip.
    + intros s Hs. rewrite map_app, in_app_iff. left; auto.
    + eapply hier_wf_mono, H9. intros x Hx. rewrite map_app, in_app_iff. auto.
    + intros i Hi. rewrite map_app, in_app_iff. left. by apply H10.
  - intros id (r & Hin & Hid & Ho). exists r. split; [|done]. cbn. rewrite in_app_iff. auto.
Qed.

(** [ON DELETE CASCADE] leaves no reference to the deleted account. *)
Lemma hier_wf_cascade id users rels pools claims :
  hier_wf (map ur_id users) rels pools claims →
  hier_wf (map ur_id (delete_where (id_is id) users))
    (delete_where (λ r, (rr_parent_id r =? id)%N || (rr_child_id r =? id)%N) rels)
    (delete_where (λ r, (pr_parent_id r =? id)%N) pools)
    (delete_where (λ r, (cr_parent_id r =? id)%N || (cr_child_id r =? id)%N) claims).
Proof.
  assert (∀ x, In x (map ur_id users) → (x =? id)%N = false →
    In x (map ur_id (delete_where (id_is id) users))) as Hkeep.
  { intros x (r & <- & Hr)%in_map_iff Hne. apply in_map_iff. exists r. split; [done|].
    by apply delete_where_In. }
  intros Hwf. pose proof (hier_wf_delete _ _ _ _ (λ r, (rr_parent_id r =? id)%N ||
    (rr_child_id r =? id)%N) (λ r, (pr_parent_id r =? id)%N)
    (λ r, (cr_parent_id r =? id)%N || (cr_child_id r =? id)%N) Hwf) as [K1 _ K3 K4 _ K6 _ K8 K9 K10].
  destruct Hwf as [_ H2 _ _ H5 _ H7 _ _ _]. split; try done.
  - intros r [Hr [??]%orb_false_iff]%delete_where_In. destruct (H2 r Hr). auto.
  - intros r [Hr ?]%delete_where_In. auto.
  - intros r [Hr [??]%orb_false_iff]%delete_where_In. destruct (H7 r Hr). auto.
Qed.

Lemma delete_user_step (id : Uuid) (d : Db) a d' :
  ~ owner d id → delete_user_row id d = Ok (a, d') → accounts_step d d'.
Proof.
  intros Ho Hdel [H1 H2 H3 H4 H5 H6 H7 H8 H9 H10]. unfold delete_user_row in Hdel.
  destruct (_ && _) eqn:Eref; [done|]. injection Hdel as <- <-. split.
  - split; cbn; try by apply delete_where_NoDup.
    + rewrite List.Forall_forall in *. intros r [Hr _]%delete_where_In. auto.
    + rewrite List.Forall_forall in *. intros r [Hr _]%delete_where_In. auto.
    + intros s [Hs Hne%N.eqb_neq]%delete_where_In.
      apply H8, in_map_iff in Hs as (r & Hid & Hr). apply in_map_iff. exists r.
      split; [done|]. apply delete_where_In. split; [done|]. apply N.eqb_neq. congruence.
    + by apply hier_wf_cascade.
    + change (∀ i, In i (owner_refs d) → In i (map ur_id (delete_where (id_is id) (db_users d)))).
      intros i Hi. destruct (proj1 (in_map_iff _ _ _) (H10 i Hi)) as (r & Hid & Hr).
      apply in_map_iff. exists r. split; [done|]. apply delete_where_In. split; [done|].
      apply N.eqb_neq. intros E. rewrite E in Hid. subst i.
      apply andb_false_iff in Eref as [Ex|Ex]; rewrite existsb_false in Ex.
      * specialize (Ex r Hr). unfold id_is in Ex. by rewrite E, N.eqb_refl in Ex.
      * specialize (Ex id Hi). by rewrite N.eqb_refl in Ex.
  - intros x (r & Hin & Hid & Hr). exists r. split; [|done]. cbn. apply delete_where_In.
    split; [done|]. apply N.eqb_neq. intros E. apply Ho. exists r. auto.
Qed.

(** ** The repository methods under the invariant *)

Section repo_steps.
Context `{Env}.

Lemma step_fetch_user p : within (on_db accounts_step) (fetch_user p).
Proof. unfold fetch_user. within_tac. Qed.
Lemma step_users_list : within (on_db accounts_step) users_list.
Proof. unfold users_list. within_tac. Qed.

Lemma step_update_users id f :
  (∀ r, ur_id (f r) = ur_id r ∧ ur_username (f r) = ur_username r
        ∧ ur_email (f r) = ur_email r ∧ ur_role (f r) = ur_role r) →
  within (on_db accounts_step) (update_users id f).
Proof.
  intros Hf. apply on_db_execute; [apply _|]. intros d. by apply update_users_step_role.
Qed.

Lemma step_users_disable id : within (on_db accounts_step) (users_disable id).
Proof. unfold users_disable. within_tac. by apply step_update_users. Qed.
Lemma step_users_enable id : within (on_db accounts_step) (users_enable id).
Proof. by apply step_update_users. Qed.
Lemma step_users_last_login id : within (on_db accounts_step) (users_update_last_login id).
Proof. unfold users_update_last_login. within_tac. by apply step_update_users. Qed.
Lemma step_users_password id h : within (on_db accounts_step) (users_update_password id h).
Proof. by apply step_update_users. Qed.
Lemma step_users_parent id p :
  within (on_db accounts_step) (users_update_parent_account_id id p).
Proof. by apply step_update_users. Qed.
Lemma step_users_plan id p : within (on_db accounts_step) (users_update_hosting_plan_id id p).
Proof. by apply step_update_users. Qed.

Lemma step_sessions_insert s : within (on_db accounts_step) (sessions_insert s).
Proof. apply on_db_statement; [apply _|]. apply insert_session_step. Qed.
Lemma step_sessions_touch id : within (on_db accounts_step) (sessions_touch id).
Proof.
  unfold sessions_touch. within_tac. apply on_db_execute; [apply _|]. intros d.
  apply touch_sessions_step.
Qed.
Lemma step_sessions_delete id : within (on_db accounts_step) (sessions_delete id).
Proof. apply on_db_execute; [apply _|]. intros d. apply delete_sessions_step. Qed.
Lemma step_sessions_delete_for_user id :
  within (on_db accounts_step) (sessions_delete_for_user id).
Proof. apply on_db_execute; [apply _|]. intros d. apply delete_sessions_step. Qed.
Lemma step_find_by_token t : within (on_db accounts_step) (find_by_token_hash_match t).
Proof. unfold find_by_token_hash_match. within_tac. Qed.
Lemma step_purge_expired : within (on_db accounts_step) purge_expired.
Proof.
  unfold purge_expired. within_tac. apply on_db_statement; [apply _|].
  intros d x d' [= <- <-]. apply delete_sessions_step.
Qed.
End repo_steps.

#[export] Hint Resolve step_fetch_user step_users_list step_users_disable step_users_enable
  step_users_last_login step_users_password step_users_parent step_users_plan
  step_sessions_insert step_sessions_touch step_sessions_delete
  step_sessions_delete_for_user step_find_by_token step_purge_expired : within.

(** ** Reading rows back *)

Lemma role_from_str_ok (s : string) (r : Role) : role_from_str s = Ok r → s = role_as_str r.
Proof.
  unfold role_from_str.
  destruct (String.eqb_spec s "owner"), (String.eqb_spec s "admin"),
    (String.eqb_spec s "user"); naive_solver.
Qed.

(** A row that decodes is the row its user would be stored as. *)
Lemma into_user_row (r : UserRow) (u : UserRec) : into_user r = Ok u → r = user_row u.
Proof.
  unfold into_user, username_new, email_new.
  destruct (username_validate (ur_username r)); cbn; [|done].
  destruct (email_validate (ur_email r)); cbn; [|done].
  destruct (role_from_str (ur_role r)) as [role|] eqn:E; cbn; [|done].
  intros [= <-]. apply role_from_str_ok in E. destruct r; cbn in *. by subst.
Qed.

Lemma into_session_row (r : SessionRow) (s : Session) :
  into_session r = Ok s → r = session_row s.
Proof.
  unfold into_session. destruct (role_from_str (sr_role r)) as [role|] eqn:E; cbn; [|done].
  intros [= <-]. apply role_from_str_ok in E. destruct r; cbn in *. by subst.
Qed.

Lemma into_session_session_row (s : Session) : into_session (session_row s) = Ok s.
Proof. unfold into_session; cbn. rewrite role_roundtrip. by destruct s. Qed.

Lemma is_owner_user_row (u : UserRec) : is_owner_row (user_row u) = bool_decide (u_role u = Owner).
Proof. unfold is_owner_row; cbn. by destruct (u_role u). Qed.

Section lookups.
Context `{Env}.

Lemma select_run {A} (f : Db → A) w r w' :
  select f w = (r, w') →
  w_db w' = w_db w ∧ match r with
    | Ok a => a = f (w_db w) ∧ sql_fault (w_step w) = None
    | Err _ => sql_fault (w_step w) ≠ None
    end.
Proof.
  unfold select, statement. destruct (sql_fault (w_step w)) eqn:E; intros [= <- <-]; done.
Qed.

(** A successful lookup leaves the database as it is and returns the first row
    that matches. *)
Lemma fetch_user_run p w o w' :
  fetch_user p w = (Ok o, w') →
  w_db w' = w_db w ∧ match o with
    | None => List.find p (db_users (w_db w)) = None
    | Some u => List.find p (db_users (w_db w)) = Some (user_row u)
                ∧ into_user (user_row u) = Ok u
    end.
Proof.
  unfold fetch_user, bind. destruct (select _ w) as [[row|e] w1] eqn:E; [|done].
  apply select_run in E as [Hdb [-> _]].
  destruct (List.find p (db_users (w_db w))) as [r|]; cbn.
  - destruct (into_user r) as [u|] eqn:Eu; cbn; intros [= <- <-].
    pose proof (into_user_row _ _ Eu) as ->. done.
  - by intros [= <- <-].
Qed.

Lemma first_match_run rows token s :
  first_match rows token = Some s →
  In (session_row s) rows ∧ verify_token s token = true.
Proof.
  induction rows as [|r rows IH]; cbn; [done|].
  destruct (into_session r) as [s'|] eqn:E; [|naive_solver].
  destruct (verify_token s' token) eqn:Ev; [|naive_solver].
  intros [= <-]. pose proof (into_session_row _ _ E) as ->. auto.
Qed.

Lemma find_by_token_run token w o w' :
  find_by_token_hash_match token w = (Ok o, w') →
  w_db w' = w_db w ∧ o = first_match (db_sessions (w_db w)) token.
Proof.
  unfold find_by_token_hash_match, bind.
  destruct (select _ w) as [[rows|e] w1] eqn:E; [|done].
  apply select_run in E as [Hdb [-> _]]. by intros [= <- <-].
Qed.
End lookups.
