(* ===== verification/Identity.v ===== *)
(** * The identity service

    [crates/openpanel-app/src/identity/service.rs]: user management, password
    login, second-factor completion and session resolution, over the repositories
    of [Users].  The two-factor service is an interface here. *)
From S2P Require Import Prelude Text AuditActions AuditLog Accounts Store Users.

(** ** Passwords ([common/password.rs]) *)

Inductive PasswordError : Type :=
| TooShort (min : N)
| TooLong
| Hash (msg : string)
| Verify (msg : string).

Definition MIN_PASSWORD_LEN : N := 12.

Definition password_error_text (e : PasswordError) : string :=
  match e with
  | TooShort n => "password must be at least " +:+ of_bytes (show_N n) +:+ " characters"
  | TooLong => "password exceeds maximum length"
  | Hash m => "argon2 hash error: " +:+ m
  | Verify m => "argon2 verify error: " +:+ m
  end.

(** ** The two-factor service as seen by the login flow *)

Inductive TwoFactorError : Type :=
| NoFactor
| InvalidCode
| CodeReplayed
| Revoked
| FactorNotFound
| NoRecoveryCodes
| Invalid (msg : string)
| Storage (msg : string)
| RememberDeviceInvalid
| RememberDeviceExpired
| RememberDeviceMismatch
| WebAuthnUnavailable
| WebAuthnCeremony (msg : string)
| WebAuthnCeremonyExpired.

Definition two_factor_error_text (e : TwoFactorError) : string :=
  match e with
  | NoFactor => "no enrolled factor"
  | InvalidCode => "invalid factor code"
  | CodeReplayed => "factor code replayed"
  | Revoked => "factor has been revoked"
  | FactorNotFound => "factor not found for user"
  | NoRecoveryCodes => "no recovery codes remain"
  | Invalid m => "invalid request: " +:+ m
  | Storage m => "storage failure: " +:+ m
  | RememberDeviceInvalid => "remember-device cookie invalid"
  | RememberDeviceExpired => "remember-device cookie expired"
  | RememberDeviceMismatch => "remember-device cookie does not match this device"
  | WebAuthnUnavailable => "WebAuthn is not configured"
  | WebAuthnCeremony m => "WebAuthn ceremony: " +:+ m
  | WebAuthnCeremonyExpired => "WebAuthn ceremony expired"
  end.

Record ChallengeView := mkChallenge {
  challenge_id : Uuid;
  challenge_token : string;
  challenge_expires_at : DateTime
}.

(** A submitted [FactorResponse]: the code, or the ceremony and its JSON. *)
Inductive FactorResponse : Type :=
| Totp (code : string)
| Recovery (code : string)
| WebAuthn (ceremony : Uuid) (credential : Json).

Class TwoFactorService := {
  has_active_factor : Uuid → M World TwoFactorError bool;
  accept_remember_device :
    string → string → string → DateTime → M World TwoFactorError (Uuid * Uuid);
  issue_login_challenge :
    Uuid → option string → option string → DateTime → M World TwoFactorError ChallengeView;
  verify_login_challenge_with_factor :
    string → Uuid → string → FactorResponse → DateTime →
    M World TwoFactorError (Uuid * option Uuid)
}.

(** What the two-factor service promises the login flow: it works on its own
    tables and on the audit log, and leaves the account tables alone. *)
Class TwoFactorFrame `{TwoFactorService} : Prop := {
  frame_has_active_factor : ∀ u, within (on_db (same accounts_of)) (has_active_factor u);
  frame_accept_remember_device : ∀ c ua ip t,
    within (on_db (same accounts_of)) (accept_remember_device c ua ip t);
  frame_issue_login_challenge : ∀ u ip ua t,
    within (on_db (same accounts_of)) (issue_login_challenge u ip ua t);
  frame_verify_login_challenge : ∀ a c tok r t,
    within (on_db (same accounts_of)) (verify_login_challenge_with_factor a c tok r t)
}.

(** [LoginOutcome]. *)
Inductive LoginOutcome : Type :=
| Authenticated (user : UserRec) (token : string)
| FactorRequired (user : UserRec) (challenge : ChallengeView).

Definition reason (s : string) : Json := JObject [("reason", JString s)].

Definition field_update (field : string) (value : Json) : Json :=
  JObject [("field", JString field); ("value", value)].

Section identity.
Context `{Env} `{TwoFactorService}.

Definition uuid_json (o : option Uuid) : Json :=
  match o with Some u => JString (uuid_text u) | None => JNull end.

(** [Password::hash]. *)
Definition password_hash (plaintext : string) : M World PasswordError string :=
  if (str_len plaintext <? MIN_PASSWORD_LEN)%N then throw (TooShort MIN_PASSWORD_LEN)
  else if (1024 <? str_len plaintext)%N then throw TooLong
  else λ w,
    match argon2_hash (w_step w) plaintext with
    | Ok h => (Ok h, tick w)
    | Err m => (Err (Hash m), tick w)
    end.

(** [Password::verify]. *)
Definition password_verify (hash plaintext : string) : result bool PasswordError :=
  result_map_err Verify (argon2_verify hash plaintext).

(** [Session::new]. *)
Definition session_new (user_id : Uuid) (role : Role) (token : string)
    (ip ua : option string) : M World IdentityError Session := λ w,
  let h := argon2_default_hash (w_step w) token in
  (t <- now ;;
   id <- fresh_uuid ;;
   ret {| s_id := id; s_user_id := user_id; s_token_hash := h; s_role := role;
          s_created_at := t; s_last_seen_at := t;
          s_absolute_expires_at := (t + SESSION_ABSOLUTE)%Z;
          s_source_ip := ip; s_user_agent := ua |}) (tick w).

(** ** Users *)

(** [create_user_with_parents]. *)
Definition create_user_with_parents (username email plaintext : string) (role : Role)
    (parent plan : option Uuid) (actor : string) : M World IdentityError UserRec :=
  first <- attempt (password_hash plaintext) ;;
  match first with
  | None =>
      audit actor UserCreated Failure (with_metadata (reason "password_too_short")) ;;;
      throw PasswordTooShort
  | Some _ =>
      username <- lift (result_map_err (λ _, Forbidden) (username_new username)) ;;
      email <- lift (result_map_err (λ _, Forbidden) (email_new email)) ;;
      password <- map_err (λ _, PasswordTooShort) (password_hash plaintext) ;;
      by_name <- attempt (users_find_by_username username) ;;
      match by_name with
      | Some (Some _) => throw UsernameTaken
      | _ =>
          by_email <- attempt (users_find_by_email email) ;;
          match by_email with
          | Some (Some _) => throw EmailTaken
          | _ =>
              id <- fresh_uuid ;;
              t <- now ;;
              user <- lift (new_with_parents t id username email password role parent plan) ;;
              map_err Persistence (users_insert user) ;;;
              audit actor UserCreated Success
                (λ e, with_metadata
                   (JObject [("hosting_plan_id", uuid_json plan);
                             ("parent_account_id", uuid_json parent)])
                   (with_target (uuid_text (u_id user)) e)) ;;;
              ret user
          end
      end
  end.

(** [create_user]. *)
Definition create_user (username email plaintext : string) (role : Role) (actor : string)
    : M World IdentityError UserRec :=
  create_user_with_parents username email plaintext role None None actor.

(** [self.users.find_by_id(id).await.map_err(..)?.ok_or(UserNotFound)?]. *)
Definition require_user (id : Uuid) : M World IdentityError UserRec :=
  o <- map_err Persistence (users_find_by_id id) ;; ok_or o UserNotFound.

Definition update_parent_account_id (user_id : Uuid) (parent : option Uuid) (actor : string)
    : M World IdentityError unit :=
  user <- require_user user_id ;;
  lift (user_set_parent parent user) ;;;
  map_err Persistence (users_update_parent_account_id user_id parent) ;;;
  audit actor UserUpdated Success
    (λ e, with_metadata (field_update "parent_account_id" (uuid_json parent))
            (with_target (uuid_text user_id) e)).

Definition update_hosting_plan_id (user_id : Uuid) (plan : option Uuid) (actor : string)
    : M World IdentityError unit :=
  user <- require_user user_id ;;
  map_err Persistence (users_update_hosting_plan_id user_id plan) ;;;
  audit actor UserUpdated Success
    (λ e, with_metadata (field_update "hosting_plan_id" (uuid_json plan))
            (with_target (uuid_text user_id) e)).

Definition find_children (parent : Uuid) : M World IdentityError (list UserRec) :=
  map_err Persistence (users_find_children parent).
Definition find_by_plan (plan : Uuid) : M World IdentityError (list UserRec) :=
  map_err Persistence (users_find_by_plan plan).

Definition list_users : M World IdentityError (list UserRec) :=
  map_err Persistence users_list.

Definition change_role (target : Uuid) (new_role : Role) (actor : string)
    : M World IdentityError unit :=
  user <- require_user target ;;
  user <- lift (result_map_err (λ _, LastOwner) (user_change_role new_role user)) ;;
  map_err Persistence (users_update_role (u_id user) (u_role user)) ;;;
  audit actor RoleChanged Success
    (λ e, with_metadata (JObject [("new_role", JString (role_as_str new_role))])
            (with_target (uuid_text (u_id user)) e)).

Definition disable_user (target : Uuid) (actor : string) : M World IdentityError unit :=
  user <- require_user target ;;
  t <- now ;;
  let user := user_disable t user in
  map_err Persistence (users_disable (u_id user)) ;;;
  map_err Persistence (sessions_delete_for_user (u_id user)) ;;;
  audit actor UserDisabled Success (with_target (uuid_text (u_id user))).

Definition enable_user (target : Uuid) (actor : string) : M World IdentityError unit :=
  user <- require_user target ;;
  let user := user_enable user in
  map_err Persistence (users_enable (u_id user)) ;;;
  audit actor UserEnabled Success (with_target (uuid_text (u_id user))).

Definition delete_user (target : Uuid) (actor : string) : M World IdentityError unit :=
  count <- map_err Persistence users_count ;;
  if (count <=? 1)%Z then throw LastOwner
  else
    user <- require_user target ;;
    match u_role user with
    | Owner => throw LastOwner
    | _ =>
        map_err Persistence (sessions_delete_for_user (u_id user)) ;;;
        map_err Persistence (users_delete (u_id user)) ;;;
        audit actor UserDeleted Success (with_target (uuid_text (u_id user)))
    end.

Definition change_password (target : Uuid) (plaintext actor : string)
    : M World IdentityError unit :=
  hash <- map_err (λ _, PasswordTooShort) (password_hash plaintext) ;;
  map_err Persistence (users_update_password target hash) ;;;
  audit actor PasswordChanged Success (with_target (uuid_text target)).

(** ** Login *)

(** The end of every successful login: a fresh token, its session row, the
    activity stamps and the audit event. *)
Definition issue_session (user : UserRec) (ip ua : option string)
    : M World IdentityError (UserRec * string) :=
  token <- generate_token ;;
  session <- session_new (u_id user) (u_role user) token ip ua ;;
  map_err Persistence (sessions_insert session) ;;;
  attempt (sessions_touch (s_id session)) ;;;
  t <- now ;;
  let user := record_login t user in
  attempt (users_update_last_login (u_id user)) ;;;
  t' <- now ;;
  let session := session_touch t' session in
  audit (u_username user) Login Success
    (with_source_ip (default "" (s_source_ip session))) ;;;
  ret (user, token).

Definition audit_failure (user : UserRec) (action : AuditAction) (outcome : AuditOutcome)
    (ip : option string) (why : string) : M World IdentityError unit :=
  audit (u_username user) action outcome
    (λ e, with_metadata (reason why) (with_source_ip (default "" ip) e)).

(** The lookup by username, then by email. *)
Definition find_login (name : string) : M World IdentityError UserRec :=
  o <- map_err Persistence (users_find_by_username name) ;;
  match o with
  | Some u => ret u
  | None =>
      o' <- map_err Persistence (users_find_by_email name) ;;
      ok_or o' InvalidCredentials
  end.

(** A remember-device cookie is accepted when the two-factor service accepts it
    for this very user; every other presentation is audited and ignored. *)
Definition cookie_accepted (user : UserRec) (cookie : string) (ip ua : option string)
    (t : DateTime) : M World IdentityError bool := λ w,
  match accept_remember_device cookie (default "" ua) (default "" ip) t w with
  | (Ok (cookie_user, _), w') =>
      if negb (cookie_user =? u_id user)%N then
        (audit_failure user TwoFactorFailed Denied ip "remember_device_user_mismatch" ;;;
         ret false) w'
      else
        (audit (u_username user) DeviceRemembered Success
           (with_source_ip (default "" ip)) ;;; ret true) w'
  | (Err e, w') =>
      (audit_failure user TwoFactorFailed Denied ip
         ("remember_device: " +:+ two_factor_error_text e) ;;;
       ret false) w'
  end.

Definition login (name plaintext : string) (ip ua remember : option string)
    : M World IdentityError LoginOutcome :=
  user <- find_login name ;;
  if is_disabled user then
    audit_failure user Login Failure ip "account_disabled" ;;; throw AccountDisabled
  else
    verified <- lift (result_map_err (λ e, Persistence (password_error_text e))
                        (password_verify (u_password user) plaintext)) ;;
    if negb verified then
      audit_failure user Login Failure ip "bad_credentials" ;;; throw InvalidCredentials
    else
      t <- now ;;
      has_factor <- map_err (λ e, Persistence (two_factor_error_text e))
                      (has_active_factor (u_id user)) ;;
      if has_factor then
        accepted <- match remember with
                    | Some cookie => cookie_accepted user cookie ip ua t
                    | None => ret false
                    end ;;
        if accepted then
          p <- issue_session user ip ua ;; ret (Authenticated p.1 p.2)
        else
          challenge <- map_err (λ e, Persistence (two_factor_error_text e))
                         (issue_login_challenge (u_id user) ip ua t) ;;
          ret (FactorRequired user challenge)
      else
        p <- issue_session user ip ua ;; ret (Authenticated p.1 p.2).

Definition factor_error (e : TwoFactorError) : IdentityError :=
  match e with
  | InvalidCode | CodeReplayed | NoFactor | Revoked => InvalidCredentials
  | other => Persistence (two_factor_error_text other)
  end.

(** [verify_login_factor_with_factor]. *)
Definition verify_login_factor_with_factor (challenge : Uuid) (token : string)
    (response : FactorResponse) (ip ua : option string)
    : M World IdentityError (UserRec * option Uuid * string) :=
  t <- now ;;
  p <- map_err factor_error
         (verify_login_challenge_with_factor "two_factor" challenge token response t) ;;
  user <- require_user p.1 ;;
  if is_disabled user then throw AccountDisabled
  else
    s <- issue_session user ip ua ;; ret (s.1, p.2, s.2).

(** [verify_login_factor]. *)
Definition verify_login_factor (challenge : Uuid) (token : string)
    (response : FactorResponse) (ip ua : option string)
    : M World IdentityError (UserRec * string) :=
  r <- verify_login_factor_with_factor challenge token response ip ua ;;
  ret (r.1.1, r.2).

(** [self.sessions.find_by_token_hash_match(token)..ok_or(InvalidToken)?]. *)
Definition require_session (token : string) : M World IdentityError Session :=
  o <- map_err Persistence (find_by_token_hash_match token) ;; ok_or o InvalidToken.

Definition logout (token actor : string) : M World IdentityError unit :=
  session <- require_session token ;;
  map_err Persistence (sessions_delete (s_id session)) ;;;
  audit actor Logout Success id.

Definition resolve_session (token : string) : M World IdentityError (UserRec * Session) :=
  session <- require_session token ;;
  t <- now ;;
  if is_expired t session then
    attempt (sessions_delete (s_id session)) ;;; throw SessionExpired
  else
    user <- require_user (s_user_id session) ;;
    if is_disabled user then
      attempt (sessions_delete (s_id session)) ;;; throw AccountDisabled
    else ret (user, session).

(** ** The service as a state machine *)

Inductive IdentityOp : Type :=
| OpCreateUser (username email plaintext : string) (role : Role)
    (parent plan : option Uuid) (actor : string)
| OpUpdateParent (user : Uuid) (parent : option Uuid) (actor : string)
| OpUpdatePlan (user : Uuid) (plan : option Uuid) (actor : string)
| OpChangeRole (target : Uuid) (role : Role) (actor : string)
| OpDisableUser (target : Uuid) (actor : string)
| OpEnableUser (target : Uuid) (actor : string)
| OpDeleteUser (target : Uuid) (actor : string)
| OpChangePassword (target : Uuid) (plaintext actor : string)
| OpLogin (name plaintext : string) (ip ua remember : option string)
| OpVerifyFactor (challenge : Uuid) (token : string) (response : FactorResponse)
    (ip ua : option string)
| OpLogout (token actor : string)
| OpResolve (token : string)
| OpPurge.

(** The world after an operation, whatever its outcome. *)
Definition run_op (op : IdentityOp) (w : World) : World :=
  match op with
  | OpCreateUser n e p r pa pl a => (create_user_with_parents n e p r pa pl a w).2
  | OpUpdateParent u p a => (update_parent_account_id u p a w).2
  | OpUpdatePlan u p a => (update_hosting_plan_id u p a w).2
  | OpChangeRole u r a => (change_role u r a w).2
  | OpDisableUser u a => (disable_user u a w).2
  | OpEnableUser u a => (enable_user u a w).2
  | OpDeleteUser u a => (delete_user u a w).2
  | OpChangePassword u p a => (change_password u p a w).2
  | OpLogin n p ip ua c => (login n p ip ua c w).2
  | OpVerifyFactor c t r ip ua => (verify_login_factor_with_factor c t r ip ua w).2
  | OpLogout t a => (logout t a w).2
  | OpResolve t => (resolve_session t w).2
  | OpPurge => (purge_expired w).2
  end.

Inductive identity_step : World → World → Prop :=
| IdentityStep op w : identity_step w (run_op op w).
End identity.

(** ** Theorems *)

Section identity_theorems.
Context `{Env} `{TwoFactorService}.

(** *** Reading through the service *)

Lemma require_user_run id w u w' :
  require_user id w = (Ok u, w') →
  w_db w' = w_db w ∧ List.find (id_is id) (db_users (w_db w)) = Some (user_row u)
  ∧ u_id u = id.
Proof.
  unfold require_user, bind, map_err.
  destruct (users_find_by_id id w) as [[o|e] w1] eqn:E; [|done].
  apply fetch_user_run in E as [Hdb Ho]. destruct o as [u'|]; cbn; intros [= <- <-].
  destruct Ho as [Hf _]. pose proof (find_id_row _ _ _ Hf) as [_ Hid]. done.
Qed.

Lemma require_session_run token w s w' :
  require_session token w = (Ok s, w') →
  w_db w' = w_db w ∧ first_match (db_sessions (w_db w)) token = Some s.
Proof.
  unfold require_session, bind, map_err.
  destruct (find_by_token_hash_match token w) as [[o|e] w1] eqn:E; [|done].
  apply find_by_token_run in E as [Hdb ->].
  destruct (first_match _ _); cbn; intros [= <- <-]. done.
Qed.

Lemma frame_password_hash p w : w_db (password_hash p w).2 = w_db w.
Proof.
  unfold password_hash. do 2 (destruct (_ <? _)%N; [done|]). by destruct (argon2_hash _ _).
Qed.

(** *** Every operation is an account step *)

Lemma frame_accounts {E A} (c : M World E A) :
  within (on_db (same accounts_of)) c → within (on_db accounts_step) c.
Proof.
  intros Hc w. specialize (Hc w). by apply accounts_step_same.
Qed.

Lemma step_require_user id : within (on_db accounts_step) (require_user id).
Proof. unfold require_user, users_find_by_id. within_tac. Qed.
Lemma step_require_session t : within (on_db accounts_step) (require_session t).
Proof. unfold require_session. within_tac. Qed.

Lemma step_password_hash p : within (on_db accounts_step) (password_hash p).
Proof.
  unfold password_hash. do 2 (destruct (_ <? _)%N; [within_tac|]).
  intros w. destruct (argon2_hash _ _); apply on_db_tick; apply _.
Qed.

Lemma step_session_new u r t ip ua : within (on_db accounts_step) (session_new u r t ip ua).
Proof.
  intros w. unfold session_new. set (c := bind _ _).
  assert (within (on_db accounts_step) c) as Hc by (subst c; within_tac).
  exact (Hc (tick w)).
Qed.
End identity_theorems.

#[export] Hint Resolve step_require_user step_require_session step_password_hash
  step_session_new : within.

Section identity_invariant.
Context `{Env} `{TwoFactorFrame}.

Lemma step_issue_session u ip ua : within (on_db accounts_step) (issue_session u ip ua).
Proof. unfold issue_session. within_tac. Qed.

Lemma step_users_insert u :
  is_ok (username_new (u_username u)) = true → is_ok (email_new (u_email u)) = true →
  within (on_db accounts_step) (users_insert u).
Proof.
  intros Hn He. apply on_db_statement; [apply _|]. intros d a d'. by apply insert_user_step.
Qed.

(** A user built from validated texts has a row that decodes. *)
Lemma new_user_valid {E F} (f : UsernameError → E) (g : DomainError → F)
    n e n' e' t id p r pa pl u :
  result_map_err f (username_new n) = Ok n' → result_map_err g (email_new e) = Ok e' →
  new_with_parents t id n' e' p r pa pl = Ok u →
  is_ok (username_new (u_username u)) = true ∧ is_ok (email_new (u_email u)) = true.
Proof.
  unfold new_with_parents, username_new, email_new. intros Hn He Hu.
  destruct (username_validate n) eqn:En; [|done]. destruct (email_validate e) eqn:Ee; [|done].
  cbn in Hn, He. simplify_eq.
  destruct (match pa with Some _ => _ | None => _ end); [done|]. injection Hu as <-. cbn.
  by rewrite En, Ee.
Qed.

Lemma step_create_user n e p r pa pl a :
  within (on_db accounts_step) (create_user_with_parents n e p r pa pl a).
Proof.
  unfold create_user_with_parents, users_find_by_username, users_find_by_email.
  within_tac.
  all: apply step_users_insert; by eapply new_user_valid.
Qed.

(** A continuation of [require_user] may use the row that was found. *)
Lemma step_bind_require_user {B} id (k : UserRec → M World IdentityError B) :
  (∀ w u, List.find (id_is id) (db_users (w_db w)) = Some (user_row u) → u_id u = id →
     on_db accounts_step w (k u w).2) →
  within (on_db accounts_step) (bind (require_user id) k).
Proof.
  intros Hk. apply within_bind_run; [apply step_require_user|].
  intros w u w' Hrun _. apply require_user_run in Hrun as (Hdb & Hf & Hid).
  rewrite <- Hdb in Hf. specialize (Hk _ _ Hf Hid). unfold on_db in *. by rewrite <- Hdb.
Qed.

Lemma owner_find d id u :
  accounts_wf d → List.find (id_is id) (db_users d) = Some (user_row u) →
  owner d id ↔ u_role u = Owner.
Proof.
  intros Hwf Hf. pose proof (find_id_row _ _ _ Hf) as [Hin Hid]. split.
  - intros (r & Hr & Hrid & Ho).
    assert (r = user_row u) as ->
      by (eapply (NoDup_key_inj ur_id); [apply Hwf | done.. | congruence]).
    rewrite is_owner_user_row in Ho. by apply bool_decide_eq_true in Ho.
  - intros Hr. exists (user_row u). rewrite is_owner_user_row. split_and!; [done..|].
    by apply bool_decide_eq_true.
Qed.

Lemma step_users_update_role id role w :
  (accounts_wf (w_db w) → owner (w_db w) id → role = Owner) →
  on_db accounts_step w (users_update_role id role w).2.
Proof.
  intros Ho. unfold users_update_role, update_users, execute, statement.
  destruct (sql_fault (w_step w)); [apply on_db_tick; apply _|]. unfold on_db; cbn.
  intros Hwf. apply update_users_step; [done | | done]. intros r Hin Hid.
  cbn. rewrite role_roundtrip. split; [done|]. intros Hr.
  rewrite Ho; [done | done |]. exists r. auto.
Qed.

Lemma step_change_role id role a : within (on_db accounts_step) (change_role id role a).
Proof.
  apply step_bind_require_user. intros w u Hf Hid.
  destruct (user_change_role role u) as [u'|] eqn:E;
    [|change (on_db accounts_step w w); reflexivity].
  apply user_change_role_ok in E as (Hr & Hu & Hown). cbn [result_map_err].
  rewrite bind_lift_ok. apply bind_at; [apply _ | |].
  - apply map_err_at, step_users_update_role. rewrite Hr, Hu, Hid. intros Hwf Ho.
    by apply Hown, (owner_find (w_db w) id u).
  - intros _ w' _. apply on_db_audit; apply _.
Qed.

Lemma step_users_delete id w :
  (accounts_wf (w_db w) → ~ owner (w_db w) id) →
  on_db accounts_step w (users_delete id w).2.
Proof.
  intros Ho. unfold users_delete, statement.
  destruct (sql_fault (w_step w)); [apply on_db_tick; apply _|].
  destruct (delete_user_row id (w_db w)) as [[x d']|] eqn:E; unfold on_db; cbn; [|reflexivity].
  intros Hwf. eapply delete_user_step; eauto.
Qed.

Lemma step_delete_user id a : within (on_db accounts_step) (delete_user id a).
Proof.
  unfold delete_user. apply within_bind; [apply _ | unfold users_count; within_tac |].
  intros n. destruct (n <=? 1)%Z; [within_tac|].
  apply step_bind_require_user. intros w u Hf Hid.
  assert (u_role u ≠ Owner → on_db accounts_step w (((map_err Persistence
    (sessions_delete_for_user (u_id u))) ;;; (map_err Persistence (users_delete (u_id u)) ;;;
    audit a UserDeleted Success (with_target (uuid_text (u_id u))))) w).2) as Hgo.
  { intros Hr. apply bind_at; [apply _ | |].
    - apply map_err_at, step_sessions_delete_for_user.
    - intros [] w1 Hw1%map_err_ok%execute_ok.
      apply bind_at; [apply _ | | intros _ w2 _; apply on_db_audit; apply _].
      apply map_err_at, step_users_delete. rewrite Hid. intros Hwf Ho.
      apply Hr, (owner_find (w_db w1) id u); [done | by rewrite Hw1 | done]. }
  destruct (u_role u) eqn:Er; [change (on_db accounts_step w w); reflexivity | |];
    by apply Hgo.
Qed.

Lemma within_cookie_accepted (R : relation Db) `{!PreOrder R, !AuditBlind R} u c ip ua t :
  within (on_db R) (accept_remember_device c (default "" ua) (default "" ip) t) →
  within (on_db R) (cookie_accepted u c ip ua t).
Proof.
  intros Hf w. specialize (Hf w). unfold cookie_accepted, audit_failure.
  destruct (accept_remember_device _ _ _ t w) as [[[cu f]|e] w1]; cbn in Hf;
    [destruct (negb _)|]; (etransitivity; [exact Hf|]);
    apply bind_at; try apply _; intros; (apply on_db_audit || apply within_ret); apply _.
Qed.

Lemma step_cookie_accepted u c ip ua t :
  within (on_db accounts_step) (cookie_accepted u c ip ua t).
Proof. apply within_cookie_accepted, frame_accounts, frame_accept_remember_device; apply _. Qed.

Lemma step_login n p ip ua c : within (on_db accounts_step) (login n p ip ua c).
Proof.
  pose proof step_issue_session. pose proof step_cookie_accepted.
  pose proof (λ u, frame_accounts _ (frame_has_active_factor u)).
  pose proof (λ u ip ua t, frame_accounts _ (frame_issue_login_challenge u ip ua t)).
  unfold login, find_login, audit_failure, users_find_by_username, users_find_by_email.
  within_tac.
Qed.

Lemma step_verify_factor c t r ip ua :
  within (on_db accounts_step) (verify_login_factor_with_factor c t r ip ua).
Proof.
  pose proof step_issue_session.
  pose proof (λ a c tok r t, frame_accounts _ (frame_verify_login_challenge a c tok r t)).
  unfold verify_login_factor_with_factor. within_tac.
Qed.

Lemma step_run_op op w : on_db accounts_step w (run_op op w).
Proof.
  destruct op; cbn [run_op].
  - apply step_create_user.
  - enough (within (on_db accounts_step) (update_parent_account_id user parent actor)) by done.
    unfold update_parent_account_id. within_tac.
  - enough (within (on_db accounts_step) (update_hosting_plan_id user plan actor)) by done.
    unfold update_hosting_plan_id. within_tac.
  - apply step_change_role.
  - enough (within (on_db accounts_step) (disable_user target actor)) by done.
    unfold disable_user. within_tac.
  - enough (within (on_db accounts_step) (enable_user target actor)) by done.
    unfold enable_user. within_tac.
  - apply step_delete_user.
  - enough (within (on_db accounts_step) (change_password target plaintext actor)) by done.
    unfold change_password. within_tac.
  - apply step_login.
  - apply step_verify_factor.
  - enough (within (on_db accounts_step) (logout token actor)) by done.
    unfold logout. within_tac.
  - enough (within (on_db accounts_step) (resolve_session token)) by done.
    unfold resolve_session. within_tac.
  - apply step_purge_expired.
Qed.
End identity_invariant.

(** ** What a successful login has checked *)

Section login_safety.
Context `{Env} `{TwoFactorService}.

Lemma find_login_run name w u w' :
  find_login name w = (Ok u, w') →
  w_db w' = w_db w ∧ In (user_row u) (db_users (w_db w))
  ∧ (u_username u = name ∨ u_email u = name).
Proof.
  unfold find_login. intros Hr. inv_bind Hr.
  apply map_err_ok, fetch_user_run in R as [Hdb Ho]. destruct a as [u1|].
  - injection Hr as <- <-. destruct Ho as [[Hin Hn%String.eqb_eq]%List.find_some _]. auto.
  - inv_bind Hr. apply map_err_ok, fetch_user_run in R as [Hdb' Ho'].
    apply ok_or_ok in Hr as [-> ->]. rewrite Hdb in *.
    destruct Ho' as [[Hin Hn%String.eqb_eq]%List.find_some _]. auto.
Qed.

Lemma cookie_accepted_run u cookie ip ua t w w' :
  cookie_accepted u cookie ip ua t w = (Ok true, w') →
  ∃ fid w1, accept_remember_device cookie (default "" ua) (default "" ip) t w
            = (Ok (u_id u, fid), w1).
Proof.
  unfold cookie_accepted.
  destruct (accept_remember_device _ _ _ t w) as [[[cu f]|e] w1].
  - destruct (N.eqb_spec cu (u_id u)) as [->|]; cbn [negb]; intros Hr; [eauto|].
    inv_bind Hr. done.
  - intros Hr. inv_bind Hr. done.
Qed.

Lemma issue_session_user u ip ua w p w' :
  issue_session u ip ua w = (Ok p, w') → u_id p.1 = u_id u.
Proof. unfold issue_session. intros Hr. repeat inv_bind Hr. by injection Hr as <- _. Qed.

(** On the tables [d], the second factor was either not enrolled, or waived by a
    cookie accepted for this very user. *)
Definition second_factor_settled (d : Db) (user : Uuid) (ip ua remember : option string) : Prop :=
  ∃ w1, w_db w1 = d ∧
    ((∃ w2, has_active_factor user w1 = (Ok false, w2)) ∨
     (∃ cookie k fid w2 w3, remember = Some cookie ∧ has_active_factor user w1 = (Ok true, w2) ∧
        accept_remember_device cookie (default "" ua) (default "" ip) (utc_now k) w2
        = (Ok (user, fid), w3))).

Lemma login_authenticated name plaintext ip ua remember w u tok w' :
  login name plaintext ip ua remember w = (Ok (Authenticated u tok), w') →
  ∃ u0, u_id u = u_id u0 ∧ In (user_row u0) (db_users (w_db w))
    ∧ (u_username u0 = name ∨ u_email u0 = name) ∧ is_disabled u0 = false
    ∧ argon2_verify (u_password u0) plaintext = Ok true
    ∧ second_factor_settled (w_db w) (u_id u0) ip ua remember.
Proof.
  unfold login. intros Hr. inv_bind Hr. apply find_login_run in R as (Hdb & Hin & Hn).
  destruct (is_disabled a) eqn:Ed; [by inv_bind Hr|].
  inv_bind Hr. apply lift_ok in R as [R ->]. apply result_map_err_ok in R.
  destruct a0; cbn [negb] in Hr; [|by inv_bind Hr].
  inv_bind Hr. injection R0 as <- <-. inv_bind Hr. apply map_err_ok in R0.
  assert (argon2_verify (u_password a) plaintext = Ok true) as Hv.
  { unfold password_verify in R. by destruct (argon2_verify _ _) as [[]|]. }
  exists a. destruct a0.
  - inv_bind Hr. destruct a0; [|by inv_bind Hr]. inv_bind Hr.
    apply issue_session_user in R2. injection Hr as <- _ _. split_and!; try done.
    eexists. split; [|right; destruct remember as [cookie|]; [|done]].
    2: { apply cookie_accepted_run in R1 as (fid & w1' & R1). naive_solver. }
    exact Hdb.
  - inv_bind Hr. apply issue_session_user in R1. injection Hr as <- _ _.
    split_and!; try done. eexists. split; [|left; eauto]. exact Hdb.
Qed.

(** *** Session resolution *)

Lemma resolve_session_run token w u s w' :
  resolve_session token w = (Ok (u, s), w') →
  w_db w' = w_db w ∧ first_match (db_sessions (w_db w)) token = Some s
  ∧ (∃ k, is_expired (utc_now k) s = false)
  ∧ List.find (id_is (s_user_id s)) (db_users (w_db w)) = Some (user_row u)
  ∧ u_id u = s_user_id s ∧ is_disabled u = false.
Proof.
  unfold resolve_session. intros Hr. inv_bind Hr.
  apply require_session_run in R as [Hdb Hm]. inv_bind Hr. injection R as <- <-.
  destruct (is_expired _ a) eqn:Ee; [by inv_bind Hr|].
  inv_bind Hr. apply require_user_run in R as (Hdb' & Hf & Hid). cbn in *.
  destruct (is_disabled a0) eqn:Ed; [by inv_bind Hr|]. injection Hr as <- <- <-.
  rewrite Hdb in *. split_and!; eauto.
Qed.

Lemma disable_user_run target actor w w' :
  disable_user target actor w = (Ok tt, w') →
  (∀ s, In s (db_sessions (w_db w')) → sr_user_id s ≠ target)
  ∧ (∀ r, In r (db_users (w_db w')) → ur_id r = target → ur_disabled_at r ≠ None).
Proof.
  unfold disable_user. intros Hr. inv_bind Hr.
  apply require_user_run in R as (Hdb & Hf & Hid). inv_bind Hr. injection R as <- <-.
  cbn [user_disable user_set_disabled_at u_id] in Hr. rewrite Hid in Hr.
  inv_bind Hr. apply map_err_ok in R. unfold users_disable in R. inv_bind R.
  injection R0 as <- <-. apply execute_ok in R. inv_bind Hr.
  apply map_err_ok, execute_ok in R0.
  pose proof (on_db_audit (same accounts_of) (E:=IdentityError) actor UserDisabled Success
    (with_target (uuid_text target)) w2) as Ha.
  rewrite Hr in Ha. unfold on_db, same, accounts_of in Ha. cbn in Ha.
  injection Ha as Hu Hs _ _ _. rewrite Hu, Hs, R0. cbn. rewrite R. cbn. split.
  - by intros s [_ Hne%N.eqb_neq]%delete_where_In.
  - intros r (r' & Hin & ->)%update_where_In. destruct (id_is target r') eqn:E; [done|].
    apply N.eqb_neq in E. done.
Qed.
End login_safety.

(** ** A session that was just issued resolves *)

Section login_roundtrip.
Context `{Env} `{TwoFactorFrame}.
Hypothesis no_faults : ∀ k, sql_fault k = None.
(** argon2: a hash verifies exactly the text it was made from. *)
Hypothesis argon2_correct : ∀ k t t',
  argon2_verify (argon2_default_hash k t) t' = Ok (String.eqb t t').
(** The readings of the clock lie within one inactivity window. *)
Hypothesis clock_window : ∀ i j, (utc_now j ≤ utc_now i + SESSION_INACTIVITY)%Z.

Definition touched (t : DateTime) (s : Session) : Session := session_touch t s.

Lemma issue_session_no_fault u ip ua w u' tok w' :
  issue_session u ip ua w = (Ok (u', tok), w') →
  ∃ s i j k l,
    s_user_id s = u_id u ∧ s_token_hash s = argon2_default_hash i tok
    ∧ s_absolute_expires_at s = (utc_now j + SESSION_ABSOLUTE)%Z
    ∧ (∀ r, In r (db_sessions (w_db w)) → sr_id r ≠ s_id s)
    ∧ db_sessions (w_db w') =
        update_where (session_id_is (s_id s)) (session_row_touch (utc_now k))
          (db_sessions (w_db w) ++ [session_row s])
    ∧ db_users (w_db w') =
        update_where (id_is (u_id u)) (row_set_last_login (Some (utc_now l)))
          (db_users (w_db w)).
Proof using no_faults.
  unfold issue_session. intros Hr. inv_bind Hr. injection R as <- <-.
  inv_bind Hr. unfold session_new in R. inv_bind R. injection R0 as <- <-.
  inv_bind R. injection R0 as <- <-. injection R as <- <-. cbn [s_id u_id] in Hr.
  inv_bind Hr. apply map_err_ok in R. unfold sessions_insert, statement in R.
  rewrite no_faults in R.
  destruct (insert_session_row _ _) as [[[] d1]|] eqn:Ei; [|done]. injection R as <- <-.
  inv_bind Hr. unfold attempt, sessions_touch, bind, now in R.
  rewrite execute_no_fault in R by done. injection R as <- <-.
  inv_bind Hr. injection R as <- <-. inv_bind Hr.
  unfold attempt, users_update_last_login, update_users, bind, now in R.
  rewrite execute_no_fault in R by done. injection R as <- <-.
  inv_bind Hr. injection R as <- <-. inv_bind Hr. injection Hr as <- <- <-.
  pose proof (on_db_audit (same accounts_of) (E:=IdentityError)
    (u_username u) Login Success (with_source_ip (default "" ip))) as Ha.
  unfold within, on_db, same, accounts_of in Ha.
  match type of R with _ ?w = _ => specialize (Ha w) end.
  cbn in R, Ha. rewrite R in Ha. cbn in Ha. injection Ha as Hu Hs _ _ _.
  unfold insert_session_row in Ei. cbn [sr_id sr_token_hash sr_user_id session_row s_id
    s_token_hash s_user_id] in Ei.
  destruct (existsb _ (db_sessions _)) eqn:E1; [done|].
  destruct (existsb _ (db_sessions _)) eqn:E2 in Ei; [done|].
  destruct (existsb (id_is _) _) eqn:E3; [|done]. injection Ei as <-.
  rewrite Hs, Hu. cbn.
  eexists {| s_id := _; s_user_id := u_id u; s_token_hash := argon2_default_hash _ _;
    s_role := u_role u; s_created_at := _; s_last_seen_at := _;
    s_absolute_expires_at := _; s_source_ip := ip; s_user_agent := ua |}.
  cbn [s_user_id s_token_hash s_absolute_expires_at s_id].
  do 4 eexists. split_and!; [done | reflexivity | reflexivity | | reflexivity | reflexivity].
  intros r Hr'. apply (proj1 (existsb_false _ _) E1) in Hr'. by apply N.eqb_neq in Hr'.
Qed.

Lemma update_where_snoc_fresh {A} (p : A → bool) (f : A → A) t x :
  (∀ r, In r t → p r = false) → p x = true →
  update_where p f (t ++ [x]) = (t ++ [f x])%list.
Proof.
  intros Ht Hx. unfold update_where. rewrite map_app. cbn. rewrite Hx. f_equal.
  rewrite <- (map_id t) at 2. apply map_ext_in. intros r Hr. by rewrite Ht.
Qed.

Lemma first_match_app rows1 rows2 token :
  first_match (rows1 ++ rows2) token =
  match first_match rows1 token with Some s => Some s | None => first_match rows2 token end.
Proof.
  induction rows1 as [|r rows1 IH]; cbn; [done|].
  destruct (into_session r); [|done]. by destruct (verify_token _ _).
Qed.

Lemma find_user_wf d id :
  accounts_wf d → In id (map ur_id (db_users d)) →
  ∃ u, List.find (id_is id) (db_users d) = Some (user_row u) ∧ into_user (user_row u) = Ok u
       ∧ In (user_row u) (db_users d) ∧ u_id u = id.
Proof.
  intros Hwf (r & <- & Hr)%in_map_iff.
  pose proof (wf_users_ok d Hwf) as Hok. rewrite List.Forall_forall in Hok.
  specialize (Hok _ Hr). unfold user_row_ok in Hok.
  destruct (into_user r) as [u|] eqn:Eu; [|done]. pose proof (into_user_row _ _ Eu) as ->.
  exists u. split_and!; [|done..]. cbn.
  apply (find_key ur_id N.eqb _ (user_row u)); [apply N.eqb_eq | apply Hwf | done].
Qed.

Lemma login_frames_before name plaintext ip ua remember w u tok w' :
  login name plaintext ip ua remember w = (Ok (Authenticated u tok), w') →
  ∃ u0 w1 p, issue_session u0 ip ua w1 = (Ok p, w') ∧ p = (u, tok)
    ∧ accounts_of (w_db w1) = accounts_of (w_db w) ∧ is_disabled u0 = false
    ∧ In (user_row u0) (db_users (w_db w)).
Proof using Type*.
  unfold login. intros Hr. inv_bind Hr. apply find_login_run in R as (Hdb & Hin & Hn).
  destruct (is_disabled a) eqn:Ed; [by inv_bind Hr|].
  inv_bind Hr. apply lift_ok in R as [R ->]. destruct a0; cbn [negb] in Hr; [|by inv_bind Hr].
  inv_bind Hr. injection R0 as <- <-. inv_bind Hr. apply map_err_ok in R0.
  pose proof (frame_has_active_factor (u_id a) (tick w0)) as Hf. rewrite R0 in Hf.
  unfold on_db, same in Hf. cbn in Hf. rewrite Hdb in Hf.
  destruct a0.
  - inv_bind Hr. destruct a0; [|by inv_bind Hr]. inv_bind Hr.
    exists a, w2, a0. split_and!; try done.
    + by injection Hr as <- <- ->.
    + by destruct a0; injection Hr as -> -> _.
    + rewrite <- Hf. destruct remember as [cookie|]; [|done].
      pose proof (within_cookie_accepted (same accounts_of) a cookie ip ua
        (utc_now (w_step w0)) (frame_accept_remember_device _ _ _ _) w1) as Hc.
      rewrite R1 in Hc. apply Hc.
  - inv_bind Hr. exists a, w1, a0. split_and!; try done.
    + by injection Hr as <- <- ->.
    + by destruct a0; injection Hr as -> -> _.
Qed.

Lemma resolve_no_fault token w s u :
  first_match (db_sessions (w_db w)) token = Some s →
  is_expired (utc_now (S (w_step w))) s = false →
  List.find (id_is (s_user_id s)) (db_users (w_db w)) = Some (user_row u) →
  into_user (user_row u) = Ok u → is_disabled u = false →
  resolve_session token w = (Ok (u, s), tick (tick (tick w))).
Proof using no_faults.
  intros Hm He Hf Hu Hd. unfold resolve_session, require_session, find_by_token_hash_match.
  unfold bind, map_err. rewrite select_no_fault by done. cbn [ret ok_or]. rewrite Hm.
  cbn [ret ok_or now w_step tick]. rewrite He. cbn.
  unfold require_user, users_find_by_id, fetch_user, bind, map_err.
  rewrite select_no_fault by done. cbn [w_db tick]. rewrite Hf.
  unfold transpose, result_bind. rewrite Hu. cbn. by rewrite Hd.
Qed.

Lemma login_resolves name plaintext ip ua remember w u tok w' :
  accounts_wf (w_db w) → first_match (db_sessions (w_db w)) tok = None →
  login name plaintext ip ua remember w = (Ok (Authenticated u tok), w') →
  ∃ u1 s w2, resolve_session tok w' = (Ok (u1, s), w2) ∧ u_id u1 = u_id u
    ∧ w_db w2 = w_db w'.
Proof using Type*.
  intros Hwf Hnone Hl.
  pose proof (step_login name plaintext ip ua remember w) as Hstep. rewrite Hl in Hstep.
  destruct (Hstep Hwf) as [Hwf' _]. cbn in Hwf'.
  apply login_frames_before in Hl as (u0 & w1 & p & Hi & -> & Hacc & Hen & Hin).
  unfold accounts_of in Hacc. injection Hacc as Hus Hss _ _ _.
  pose proof (issue_session_user _ _ _ _ _ _ Hi) as Hid. cbn in Hid.
  apply issue_session_no_fault in Hi as (s & i & j & k & l & Hsu & Hh & Habs & Hnew & Hs & Hu).
  rewrite update_where_snoc_fresh in Hs.
  2: { intros r Hr. apply N.eqb_neq. auto. }
  2: { apply N.eqb_refl. }
  rewrite Hss in Hs.
  assert (first_match (db_sessions (w_db w')) tok = Some (touched (utc_now k) s)) as Hfm.
  { rewrite Hs, first_match_app, Hnone. cbn [first_match].
    change (session_row_touch (utc_now k) (session_row s))
      with (session_row (touched (utc_now k) s)).
    rewrite into_session_session_row. unfold verify_token. cbn. rewrite Hh, argon2_correct.
    by rewrite String.eqb_refl. }
  destruct (find_user_wf (w_db w') (u_id u0) Hwf') as (u1 & Hf1 & Hiu & Hin1 & Hid1).
  { rewrite <- Hsu. apply (wf_session_users _ Hwf' (session_row (touched (utc_now k) s))).
    rewrite Hs. apply in_app_iff; right; by left. }
  assert (is_disabled u1 = false) as Hen1.
  { rewrite Hu, Hus in Hin1. apply update_where_In in Hin1 as (r & Hr & Hrow).
    assert (r = user_row u0) as ->.
    { eapply (NoDup_key_inj ur_id _ _ _ (wf_user_ids _ Hwf)); [done..|]. cbn.
      rewrite <- Hid1. change (u_id u1) with (ur_id (user_row u1)). rewrite Hrow.
      by destruct (id_is _ _). }
    unfold is_disabled. change (u_disabled_at u1) with (ur_disabled_at (user_row u1)).
    rewrite Hrow. by destruct (id_is _ _). }
  exists u1, (touched (utc_now k) s), (tick (tick (tick w'))).
  split_and!; [|congruence|done]. apply resolve_no_fault; try done.
  - unfold is_expired. cbn. rewrite Habs. apply orb_false_iff; rewrite !Z.ltb_ge.
    pose proof (clock_window j (S (w_step w'))). pose proof (clock_window k (S (w_step w'))).
    unfold SESSION_INACTIVITY, SESSION_ABSOLUTE, hours, days in *. lia.
  - cbn. by rewrite Hsu.
Qed.
End login_roundtrip.

(** ** What a token opens *)

(** The token verifies against a stored hash. *)
Definition opens `{Env} (token : string) (r : SessionRow) : Prop :=
  argon2_verify (sr_token_hash r) token = Ok true.
(** Not past its absolute end, and seen within the last day. *)
Definition live (t : DateTime) (r : SessionRow) : Prop :=
  (t ≤ sr_absolute_expires_at r ∧ t - sr_last_seen_at r ≤ SESSION_INACTIVITY)%Z.
(** [row] is the first session the token opens, with [l1] before and [l2] after it. *)
Definition opened `{Env} (token : string) (d : Db) (l1 : list SessionRow) (row : SessionRow)
    (l2 : list SessionRow) : Prop :=
  db_sessions d = (l1 ++ row :: l2)%list ∧ opens token row ∧ ∀ r, In r l1 → ~ opens token r.

(** What resolving a token at [t] answers, and the sessions it leaves. *)
Inductive resolves `{Env} (t : DateTime) (token : string) (d : Db)
    : result (UserRec * Session) IdentityError → list SessionRow → Prop :=
| ResolvesUnknown :
    (∀ r, In r (db_sessions d) → ~ opens token r) →
    resolves t token d (Err InvalidToken) (db_sessions d)
| ResolvesExpired l1 row l2 :
    opened token d l1 row l2 → ~ live t row →
    resolves t token d (Err SessionExpired) (l1 ++ l2)
| ResolvesDisabled l1 row l2 user :
    opened token d l1 row l2 → live t row →
    In user (db_users d) → ur_id user = sr_user_id row → ur_disabled_at user ≠ None →
    resolves t token d (Err AccountDisabled) (l1 ++ l2)
| ResolvesOpen l1 row l2 user u s :
    opened token d l1 row l2 → live t row →
    In user (db_users d) → ur_id user = sr_user_id row → ur_disabled_at user = None →
    into_user user = Ok u → into_session row = Ok s →
    resolves t token d (Ok (u, s)) (db_sessions d).

Section resolve_exact.
Context `{Env} `{TwoFactorService}.

Lemma first_match_spec token rows :
  Forall session_row_ok rows →
  match first_match rows token with
  | None => ∀ r, In r rows → ~ opens token r
  | Some s => ∃ l1 row l2, rows = (l1 ++ row :: l2)%list ∧ opens token row
      ∧ (∀ r, In r l1 → ~ opens token r) ∧ into_session row = Ok s
  end.
Proof.
  induction 1 as [|r rows Hr _ IH]; cbn [first_match]; [by intros r []|].
  unfold session_row_ok in Hr. destruct (into_session r) as [s|] eqn:Es; [|done].
  assert (s_token_hash s = sr_token_hash r) as Hh.
  { unfold into_session in Es. destruct (result_map_err _ _); [|done]. by injection Es as <-. }
  assert (verify_token s token = true ↔ opens token r) as Hv.
  { unfold verify_token, opens. rewrite Hh. destruct (argon2_verify _ _) as [[]|]; naive_solver. }
  destruct (verify_token s token).
  - exists [], r, rows. split_and!; [done | by apply Hv | by intros ? [] | done].
  - destruct (first_match rows token).
    + destruct IH as (l1 & row & l2 & -> & Ho & Hno & Hi). exists (r :: l1), row, l2.
      split_and!; [done | done | | done]. intros x [<-|Hx]; [by intros ?%Hv | by apply Hno].
    + intros x [<-|Hx]; [by intros ?%Hv | by apply IH].
Qed.

Lemma live_expired t row s : into_session row = Ok s → is_expired t s = false ↔ live t row.
Proof.
  unfold into_session. destruct (result_map_err _ _); [|done]. intros [= <-].
  unfold is_expired, live. cbn. rewrite orb_false_iff, !Z.ltb_ge. done.
Qed.

(** Deleting the session that was found, unless the statement fails. *)
Lemma drop_session id w :
  ∃ r w', attempt (F:=IdentityError) (sessions_delete id) w = (Ok r, w')
    ∧ db_users (w_db w') = db_users (w_db w)
    ∧ (db_sessions (w_db w') = delete_where (session_id_is id) (db_sessions (w_db w))
       ∨ (∃ k m, sql_fault k = Some m) ∧ db_sessions (w_db w') = db_sessions (w_db w)).
Proof.
  unfold attempt, sessions_delete, execute, statement. destruct (sql_fault (w_step w)) eqn:E; cbn.
  - do 2 eexists. split_and!; [done..|]. right. eauto.
  - do 2 eexists. split_and!; [done..|]. by left.
Qed.

Lemma delete_found l1 row l2 :
  NoDup (map sr_id (l1 ++ row :: l2)) →
  delete_where (session_id_is (sr_id row)) (l1 ++ row :: l2) = (l1 ++ l2)%list.
Proof.
  intros Hn. rewrite map_app in Hn. cbn in Hn. apply NoDup_app in Hn as (_ & H1 & H2%NoDup_cons). destruct H2 as [H2 _].
  assert (∀ l, ~ In (sr_id row) (map sr_id l) → delete_where (session_id_is (sr_id row)) l = l) as Hk.
  { unfold delete_where. induction l as [|x l IH]; cbn; [done|]. intros Hx.
    destruct (session_id_is (sr_id row) x) eqn:E; cbn; [apply N.eqb_eq in E; naive_solver|]. f_equal. naive_solver. }
  unfold delete_where in *. rewrite List.filter_app. cbn. unfold session_id_is at 2. rewrite N.eqb_refl. cbn.
  rewrite !Hk; [done|..].
  - intros Hx%list_elem_of_In. by apply H2.
  - intros Hx. apply list_elem_of_In in Hx. apply (H1 _ Hx). by left.
Qed.

Lemma require_session_fault token w :
  (∃ k m, sql_fault k = Some m ∧ require_session token w = (Err (Persistence m), tick w))
  ∨ require_session token w =
    (match first_match (db_sessions (w_db w)) token with Some s => Ok s | None => Err InvalidToken end, tick w).
Proof.
  unfold require_session, find_by_token_hash_match, bind, map_err, select, statement.
  destruct (sql_fault (w_step w)) eqn:E; [left; eauto|]. right. cbn.
  destruct w. cbn. by destruct (first_match _ _).
Qed.

Lemma require_user_fault row u w :
  List.find (id_is (ur_id row)) (db_users (w_db w)) = Some row → into_user row = Ok u →
  (∃ k m, sql_fault k = Some m ∧ require_user (ur_id row) w = (Err (Persistence m), tick w))
  ∨ require_user (ur_id row) w = (Ok u, tick w).
Proof.
  intros Hf Hu. unfold require_user, users_find_by_id, fetch_user, bind, map_err, select, statement.
  destruct (sql_fault (w_step w)) eqn:E; [left; eauto|]. right. cbn. rewrite Hf. cbn. rewrite Hu. by destruct w.
Qed.

Lemma resolve_exact token w :
  accounts_wf (w_db w) →
  ∃ res w', resolve_session token w = (res, w') ∧ db_users (w_db w') = db_users (w_db w)
    ∧ ((∃ k m, sql_fault k = Some m ∧ res = Err (Persistence m) ∧ db_sessions (w_db w') = db_sessions (w_db w))
       ∨ ∃ rows, resolves (utc_now (S (w_step w))) token (w_db w) res rows
           ∧ (db_sessions (w_db w') = rows
              ∨ (∃ k m, sql_fault k = Some m) ∧ db_sessions (w_db w') = db_sessions (w_db w))).
Proof.
  intros Hwf. set (t := utc_now (S (w_step w))). unfold resolve_session.
  destruct (require_session_fault token w) as [(k & m & Hk & Hs)|Hs].
  { do 2 eexists. split; [by rewrite (bind_stop _ _ _ _ _ Hs)|]. split; [done|]. left. eauto 6. }
  pose proof (first_match_spec token _ (wf_sessions_ok _ Hwf)) as Hfm.
  destruct (first_match (db_sessions (w_db w)) token) as [s|].
  2: { do 2 eexists. split; [by rewrite (bind_stop _ _ _ _ _ Hs)|]. split; [done|]. right.
       eexists. split; [by apply ResolvesUnknown | by left]. }
  destruct Hfm as (l1 & row & l2 & Hl & Ho & Hno & Hi).
  assert (opened token (w_db w) l1 row l2) as Hop by done.
  assert (s_id s = sr_id row ∧ s_user_id s = sr_user_id row) as [Hsid Hsu].
  { unfold into_session in Hi. destruct (result_map_err _ _); [|done]. by injection Hi as <-. }
  assert (delete_where (session_id_is (s_id s)) (db_sessions (w_db w)) = (l1 ++ l2)%list) as Hdel.
  { rewrite Hsid, Hl. apply delete_found. rewrite <- Hl. apply Hwf. }
  rewrite (bind_run _ _ _ _ _ Hs). erewrite bind_run by reflexivity. cbn [w_step tick]. fold t.
  destruct (is_expired t s) eqn:Ex.
  { destruct (drop_session (s_id s) (tick (tick w))) as (r & w' & Hd & Hu & Hsess).
    rewrite (bind_run _ _ _ _ _ Hd). do 2 eexists. split; [done|]. split; [done|]. right. eexists.
    split; [eapply ResolvesExpired; [done|]|].
    - intros Hlive%(live_expired _ _ _ Hi). congruence.
    - cbn in Hsess. by rewrite Hdel in Hsess. }
  apply (live_expired _ _ _ Hi) in Ex.
  assert (In row (db_sessions (w_db w))) as Hrow by (rewrite Hl; apply in_app_iff; right; by left).
  apply (wf_session_users _ Hwf), in_map_iff in Hrow as (user & Hid & Huser).
  assert (List.find (id_is (ur_id user)) (db_users (w_db w)) = Some user) as Hf.
  { destruct (List.find _ _) as [x|] eqn:E.
    - apply List.find_some in E as [Hx Hxid%N.eqb_eq]. f_equal. eapply (NoDup_key_inj ur_id); [apply Hwf | done..].
    - eapply List.find_none in E; [|exact Huser]. unfold id_is in E. by rewrite N.eqb_refl in E. }
  assert (∃ u, into_user user = Ok u) as [u Hu].
  { pose proof (wf_users_ok _ Hwf) as Hok. rewrite List.Forall_forall in Hok. specialize (Hok _ Huser).
    unfold user_row_ok in Hok. destruct (into_user user); [by eexists | done]. }
  assert (is_disabled u = match ur_disabled_at user with Some _ => true | None => false end) as Hdis
    by (by rewrite (into_user_row _ _ Hu)).
  rewrite Hsu, <- Hid. destruct (require_user_fault user u (tick (tick w)) Hf Hu) as [(k & m & Hk & Hr)|Hr].
  { do 2 eexists. split; [by rewrite (bind_stop _ _ _ _ _ Hr)|]. split; [done|]. left. eauto 6. }
  rewrite (bind_run _ _ _ _ _ Hr), Hdis. destruct (ur_disabled_at user) eqn:Ed.
  - destruct (drop_session (s_id s) (tick (tick (tick w)))) as (r & w' & Hd & Hus & Hsess).
    rewrite (bind_run _ _ _ _ _ Hd). do 2 eexists. split; [done|]. split; [done|]. right. eexists.
    split; [eapply (ResolvesDisabled _ _ _ _ _ _ user); try done; by rewrite Ed|].
    cbn in Hsess. by rewrite Hdel in Hsess.
  - do 2 eexists. split; [done|]. split; [done|]. right. eexists.
    split; [by eapply ResolvesOpen | by left].
Qed.
End resolve_exact.

(** ** Creating accounts *)

Section create_exact.
Context `{Env} `{TwoFactorService}.

Lemma password_hash_ok p w h w' :
  password_hash p w = (Ok h, w') → (12 ≤ str_len p ≤ 1024)%N ∧ w_db w' = w_db w
  ∧ argon2_hash (w_step w) p = Ok h.
Proof.
  unfold password_hash. destruct (N.ltb_spec (str_len p) MIN_PASSWORD_LEN); [done|].
  destruct (N.ltb_spec 1024 (str_len p)); [done|].
  destruct (argon2_hash (w_step w) p); [|done]. intros [= -> <-].
  unfold MIN_PASSWORD_LEN in *. done.
Qed.

Lemma username_new_ok s n : username_new s = Ok n → n = s.
Proof. unfold username_new. destruct (username_validate s); cbn; [by intros [= <-] | done]. Qed.
Lemma email_new_ok s e : email_new s = Ok e → e = s.
Proof. unfold email_new. destruct (email_validate s); cbn; [by intros [= <-] | done]. Qed.

Lemma attempt_fetch p w o w' :
  attempt (F:=IdentityError) (fetch_user p) w = (Ok o, w') → w_db w' = w_db w.
Proof.
  intros ->%attempt_run. assert (within (on_db (same id)) (fetch_user p)) as Hf
    by (unfold fetch_user; within_tac). exact (Hf w).
Qed.

Lemma users_insert_ok u w x w' :
  users_insert u w = (Ok x, w') →
  w_db w' = set_users (db_users (w_db w) ++ [user_row u]) (w_db w)
  ∧ ∀ r, In r (db_users (w_db w)) →
      ur_id r ≠ u_id u ∧ ur_username r ≠ u_username u ∧ ur_email r ≠ u_email u.
Proof.
  unfold users_insert, statement. destruct (sql_fault _); [done|]. unfold insert_user_row.
  destruct (existsb _ _) eqn:E1; [done|]. destruct (existsb _ _) eqn:E2 in |- *; [done|].
  destruct (existsb _ _) eqn:E3 in |- *; [done|]. intros [= _ <-]. split; [done|]. intros r Hr.
  pose proof (proj1 (existsb_false _ _) E1 r Hr) as H1%N.eqb_neq.
  pose proof (proj1 (existsb_false _ _) E2 r Hr) as H2%String.eqb_neq.
  pose proof (proj1 (existsb_false _ _) E3 r Hr) as H3%String.eqb_neq. done.
Qed.

Lemma create_user_run n e p r pa pl actor w u w' :
  create_user_with_parents n e p r pa pl actor w = (Ok u, w') →
  (12 ≤ str_len p ≤ 1024)%N
  ∧ is_ok (username_new n) = true ∧ is_ok (email_new e) = true
  ∧ u_username u = n ∧ u_email u = e ∧ u_role u = r ∧ u_parent_account_id u = pa
  ∧ u_hosting_plan_id u = pl ∧ is_disabled u = false ∧ pa ≠ Some (u_id u)
  ∧ (∃ k, argon2_hash k p = Ok (u_password u))
  ∧ db_users (w_db w') = (db_users (w_db w) ++ [user_row u])%list
  ∧ ∀ x, In x (db_users (w_db w)) →
      ur_id x ≠ u_id u ∧ ur_username x ≠ n ∧ ur_email x ≠ e.
Proof.
  unfold create_user_with_parents. intros Hr. inv_bind Hr.
  apply attempt_run in R. pose proof (frame_password_hash p w) as Hw0. rewrite <- R in Hw0.
  destruct a as [h0|]; [|by inv_bind Hr]. inv_bind Hr. apply lift_ok in R0 as [Hn ->].
  inv_bind Hr. apply lift_ok in R0 as [He ->]. inv_bind Hr.
  apply map_err_ok, password_hash_ok in R0 as (Hlen & Hw1 & Hh).
  apply result_map_err_ok in Hn, He. pose proof (username_new_ok _ _ Hn) as ->.
  pose proof (email_new_ok _ _ He) as ->.
  inv_bind Hr. apply attempt_fetch in R0.
  assert (∃ w3, w_db w3 = w_db w ∧ (id <- fresh_uuid ;; t <- now ;;
    user <- lift (new_with_parents t id n e a1 r pa pl) ;;
    map_err Persistence (users_insert user) ;;;
    audit actor UserCreated Success (λ ev, with_metadata
      (JObject [("hosting_plan_id", uuid_json pl); ("parent_account_id", uuid_json pa)])
      (with_target (uuid_text (u_id user)) ev)) ;;; ret user) w3 = (Ok u, w'))
    as (w3 & Hw3 & Ht).
  { destruct a as [[?|]|]; [done| |]; inv_bind Hr; apply attempt_fetch in R1;
      (destruct a as [[?|]|]; [done| |]); exists w3; (split; [congruence | exact Hr]). }
  clear Hr. do 2 inv_bind Ht. injection R1 as <- <-. injection R2 as <- <-.
  inv_bind Ht. apply lift_ok in R1 as [Hu ->]. inv_bind Ht.
  apply map_err_ok, users_insert_ok in R1 as [Hins Hnew]. inv_bind Ht. injection Ht as <- <-.
  match type of R1 with audit ?a ?b ?c ?f ?w0 = _ =>
    pose proof (on_db_audit (same accounts_of) (E:=IdentityError) a b c f w0) as Ha end.
  rewrite R1 in Ha. unfold on_db, same, accounts_of in Ha. cbn in Ha. injection Ha as Hus _ _ _ _.
  assert (pa ≠ Some (new_v4 (w_step w3)) ∧ a0 = {| u_id := new_v4 (w_step w3); u_username := n;
    u_email := e; u_password := a1; u_role := r; u_parent_account_id := pa;
    u_hosting_plan_id := pl; u_created_at := utc_now (w_step (tick w3)); u_disabled_at := None;
    u_last_login_at := None |}) as [Hpar ->].
  { unfold new_with_parents in Hu. destruct pa as [q|]; [|by injection Hu as <-].
    destruct (N.eqb_spec q (new_v4 (w_step w3))); [done|]. injection Hu as <-.
    split; [congruence | done]. }
  cbn in *. rewrite Hw3 in *. rewrite Hn, He, Hus, Hins. split_and!; try done; [lia | lia | eauto].
Qed.
End create_exact.

(** ** Properties *)

Section identity_properties.
Context `{Env} `{TwoFactorFrame}.

(** Creating an account.  A successful [create_user_with_parents] appends exactly
    one account, with the validated username and email, the argon2 hash of a password
    of 12 to 1024 bytes, the given role, parent and plan, enabled, and with an id,
    username and email no stored account had. *)
Theorem create_user_stores n e p r pa pl actor w u w' :
  create_user_with_parents n e p r pa pl actor w = (Ok u, w') →
  (12 ≤ str_len p ≤ 1024)%N
  ∧ is_ok (username_new n) = true ∧ is_ok (email_new e) = true
  ∧ u_username u = n ∧ u_email u = e ∧ u_role u = r ∧ u_parent_account_id u = pa
  ∧ u_hosting_plan_id u = pl ∧ is_disabled u = false ∧ pa ≠ Some (u_id u)
  ∧ (∃ k, argon2_hash k p = Ok (u_password u))
  ∧ db_users (w_db w') = (db_users (w_db w) ++ [user_row u])%list
  ∧ ∀ x, In x (db_users (w_db w)) →
      ur_id x ≠ u_id u ∧ ur_username x ≠ n ∧ ur_email x ≠ e.
Proof using Type. apply create_user_run. Qed.

(** C32 (login).  A login that returns a session token was for a stored account found
    by that username or email, not disabled, whose argon2 hash verified the
    password, and whose second factor was not enrolled or was waived by a
    remember-device cookie accepted for this very account. *)
Theorem login_checks name plaintext ip ua remember w u tok w' :
  login name plaintext ip ua remember w = (Ok (Authenticated u tok), w') →
  ∃ u0, u_id u = u_id u0 ∧ In (user_row u0) (db_users (w_db w))
    ∧ (u_username u0 = name ∨ u_email u0 = name) ∧ is_disabled u0 = false
    ∧ argon2_verify (u_password u0) plaintext = Ok true
    ∧ second_factor_settled (w_db w) (u_id u0) ip ua remember.
Proof using Type. apply login_authenticated. Qed.

(** C21 (session resolution).  On well-formed account tables, whatever statements fail,
    [resolve_session] ends as [resolves] says: an unknown token, a session past its end or not
    seen for a day, a session of a disabled account, and otherwise the account of the first
    session the token opens.  The users stay as they are, and of the sessions exactly the
    expired one or the one of the disabled account is removed, unless a statement failed and
    nothing was removed; the only other outcome is the error of a failed statement, which
    changes nothing. *)
Theorem resolve_session_exact token w :
  accounts_wf (w_db w) →
  ∃ res w', resolve_session token w = (res, w') ∧ db_users (w_db w') = db_users (w_db w)
    ∧ ((∃ k m, sql_fault k = Some m ∧ res = Err (Persistence m) ∧ db_sessions (w_db w') = db_sessions (w_db w))
       ∨ ∃ rows, resolves (utc_now (S (w_step w))) token (w_db w) res rows
           ∧ (db_sessions (w_db w') = rows
              ∨ (∃ k m, sql_fault k = Some m) ∧ db_sessions (w_db w') = db_sessions (w_db w))).
Proof using Type. apply resolve_exact. Qed.

(** C18 (disabling).  Once [disable_user] has succeeded, no token resolves to the
    account, no login authenticates it, and no second-factor completion does. *)
Theorem disable_user_locks_out target actor w w' :
  disable_user target actor w = (Ok tt, w') →
  (∀ token u s w2, resolve_session token w' = (Ok (u, s), w2) → u_id u ≠ target)
  ∧ (∀ name plaintext ip ua remember u tok w2,
       login name plaintext ip ua remember w' = (Ok (Authenticated u tok), w2) →
       u_id u ≠ target)
  ∧ (∀ c tok r ip ua u f s w2,
       verify_login_factor_with_factor c tok r ip ua w' = (Ok (u, f, s), w2) →
       u_id u ≠ target).
Proof using Type*.
  intros Hd. apply disable_user_run in Hd as [_ Hdis].
  assert (∀ u, In (user_row u) (db_users (w_db w')) → is_disabled u = false → u_id u ≠ target)
    as Hno.
  { intros u Hin Hen Hid. apply (Hdis _ Hin Hid). unfold is_disabled in Hen. cbn.
    by destruct (u_disabled_at u). }
  split_and!.
  - intros token u s w2 Hr. apply resolve_session_run in Hr as (_ & _ & _ & Hf & _ & Hen).
    apply find_id_row in Hf as [Hin _]. auto.
  - intros name plaintext ip ua remember u tok w2 Hl.
    apply login_authenticated in Hl as (u0 & -> & Hin & _ & Hen & _). auto.
  - intros c tok r ip ua u f s w2 Hv. unfold verify_login_factor_with_factor in Hv.
    inv_bind Hv. injection R as <- <-. inv_bind Hv. apply map_err_ok in R.
    pose proof (frame_verify_login_challenge "two_factor" c tok r (utc_now (w_step w')) (tick w'))
      as Hfr. rewrite R in Hfr. unfold on_db, same, accounts_of in Hfr. injection Hfr as Hus _ _ _ _.
    inv_bind Hv. apply require_user_run in R0 as (_ & Hf & _).
    apply find_id_row in Hf as [Hin _]. cbn in Hus. rewrite Hus in Hin.
    destruct (is_disabled a0) eqn:Ed; [done|]. inv_bind Hv.
    apply issue_session_user in R0. injection Hv as <- _ _ _. rewrite R0. auto.
Qed.

(** Login, then use.  When statements do not fail, argon2 verifies exactly the
    hashed text and the clock stays within one inactivity window, the token a login
    returned (not already matched by an older session) resolves to the account that
    logged in, and resolving changes nothing. *)
Theorem login_then_resolve name plaintext ip ua remember w u tok w' :
  (∀ k, sql_fault k = None) →
  (∀ k t t', argon2_verify (argon2_default_hash k t) t' = Ok (String.eqb t t')) →
  (∀ i j, utc_now j ≤ utc_now i + SESSION_INACTIVITY)%Z →
  accounts_wf (w_db w) → first_match (db_sessions (w_db w)) tok = None →
  login name plaintext ip ua remember w = (Ok (Authenticated u tok), w') →
  ∃ u1 s w2, resolve_session tok w' = (Ok (u1, s), w2) ∧ u_id u1 = u_id u
    ∧ w_db w2 = w_db w'.
Proof using Type*. intros Hnf Harg Hclk. by apply login_resolves. Qed.

(** Logout.  A successful logout deletes exactly the session the token matched. *)
Theorem logout_ends_session token actor w w' :
  logout token actor w = (Ok tt, w') →
  ∃ s, first_match (db_sessions (w_db w)) token = Some s
    ∧ db_users (w_db w') = db_users (w_db w)
    ∧ db_sessions (w_db w') = delete_where (session_id_is (s_id s)) (db_sessions (w_db w)).
Proof using Type.
  unfold logout. intros Hr. inv_bind Hr. apply require_session_run in R as [Hdb Hm].
  inv_bind Hr. apply map_err_ok, execute_ok in R.
  destruct (audit_ok (same accounts_of) (E:=IdentityError) actor Logout Success id w1)
    as (w2 & Ha & Hs). rewrite Hr in Ha. injection Ha as ->.
  unfold on_db, same, accounts_of in Hs. injection Hs as Hu Hss _ _ _.
  exists a. rewrite Hu, Hss, R. cbn. by rewrite Hdb.
Qed.

(** Deleting an account.  A successful [delete_user] removes the account and every
    session, relationship, pool, claim and second-factor row that refers to it; the
    parent column of other accounts is not touched, so children keep naming the deleted
    parent. *)
Theorem delete_user_effect target actor w w' :
  delete_user target actor w = (Ok tt, w') →
  db_users (w_db w') = delete_where (id_is target) (db_users (w_db w))
  ∧ (∀ s, In s (db_sessions (w_db w')) → sr_user_id s ≠ target)
  ∧ (∀ r, In r (db_relationships (w_db w')) → rr_parent_id r ≠ target ∧ rr_child_id r ≠ target)
  ∧ (∀ r, In r (db_pools (w_db w')) → pr_parent_id r ≠ target)
  ∧ (∀ r, In r (db_claims (w_db w')) → cr_parent_id r ≠ target ∧ cr_child_id r ≠ target)
  ∧ db_factors (w_db w') = delete_user_factors target (db_factors (w_db w))
  ∧ (∀ r, In r (db_users (w_db w)) → ur_parent_account_id r = Some target → ur_id r ≠ target →
       In r (db_users (w_db w'))).
Proof using Type.
  unfold delete_user. intros Hr. inv_bind Hr. apply map_err_ok, select_run in R as [Hw0 _].
  destruct (a <=? 1)%Z; [done|]. inv_bind Hr. apply require_user_run in R as (Hw1 & _ & Hid).
  assert ((map_err Persistence (sessions_delete_for_user (u_id a0)) ;;;
    map_err Persistence (users_delete (u_id a0)) ;;;
    audit actor UserDeleted Success (with_target (uuid_text (u_id a0)))) w1 = (Ok tt, w')) as Hgo
    by (destruct (u_role a0); [done | exact Hr | exact Hr]).
  rewrite Hid in Hgo. clear Hr. inv_bind Hgo. apply map_err_ok, execute_ok in R.
  inv_bind Hgo. apply map_err_ok in R0. unfold users_delete, statement in R0.
  destruct (sql_fault _); [done|]. unfold delete_user_row in R0.
  destruct (_ && _); [done|]. injection R0 as _ <-.
  destruct (audit_ok (same identity_of) (E:=IdentityError) actor
    UserDeleted Success (with_target (uuid_text target))
    (tick (mkWorld (w_step w2) (delete_user_db target (w_db w2)))))
    as (w4 & Ha & Hs). rewrite Hgo in Ha. injection Ha as ->.
  unfold on_db, same, identity_of, accounts_of, delete_user_db in Hs. cbn -[delete_where] in Hs.
  injection Hs as Hu Hss Hre Hpo Hcl _ Hfa.
  rewrite Hu, Hss, Hre, Hpo, Hcl, Hfa, R. cbn -[delete_where].
  rewrite Hw1, Hw0. split_and!; [done|..].
  - by intros s [_ Hne%N.eqb_neq]%delete_where_In.
  - by intros r [_ [?%N.eqb_neq ?%N.eqb_neq]%orb_false_iff]%delete_where_In.
  - by intros r [_ Hne%N.eqb_neq]%delete_where_In.
  - by intros r [_ [?%N.eqb_neq ?%N.eqb_neq]%orb_false_iff]%delete_where_In.
  - done.
  - intros r Hin _ Hne. apply delete_where_In. split; [done|]. by apply N.eqb_neq.
Qed.

(** Password change for an unknown id.  [change_password] does not look the
    account up: for an id without an account it reports success and leaves the
    account tables as they were. *)
Theorem change_password_unknown target plaintext actor hash w :
  (∀ k, sql_fault k = None) →
  (12 ≤ str_len plaintext ≤ 1024)%N → argon2_hash (w_step w) plaintext = Ok hash →
  ~ In target (map ur_id (db_users (w_db w))) →
  ∃ w', change_password target plaintext actor w = (Ok tt, w')
    ∧ accounts_of (w_db w') = accounts_of (w_db w).
Proof using Type.
  intros Hnf [Hlo Hhi] Hh Hno. unfold change_password, password_hash.
  assert ((str_len plaintext <? MIN_PASSWORD_LEN)%N = false) as -> by by apply N.ltb_ge.
  assert ((1024 <? str_len plaintext)%N = false) as -> by by apply N.ltb_ge.
  erewrite bind_run by (apply map_err_run; by rewrite Hh).
  erewrite bind_run by (apply map_err_run, execute_no_fault, Hnf).
  destruct (audit_ok (same accounts_of) (E:=IdentityError) actor PasswordChanged Success
    (with_target (uuid_text target)) (mkWorld (S (w_step (tick w))) (set_users (update_where
      (id_is target) (row_set_password hash) (db_users (w_db w))) (w_db w)))) as (w' & Ha & Hs).
  exists w'. split; [exact Ha|]. unfold on_db, same, accounts_of in *. cbn -[update_where] in Hs.
  rewrite Hs. do 5 f_equal. unfold update_where. rewrite <- (map_id (db_users (w_db w))) at 2.
  apply map_ext_in. intros r Hr. destruct (id_is target r) eqn:E; [|done].
  exfalso. apply Hno. apply N.eqb_eq in E as <-. by apply in_map.
Qed.
End identity_properties.
