(* ===== verification/Secrets.v ===== *)
(** * Secrets at rest

    [crates/openpanel-app/src/databases/crypto.rs]: the AES-256-GCM envelope the
    panel stores database passwords and TOTP secrets in. *)
From S2P Require Import Prelude Text Store.

Local Open Scope N_scope.

Definition is_byte (b : N) : Prop := b < 256.

Definition NONCE_LEN : nat := 12.
Definition KEY_LEN : nat := 32.

(** The [DatabaseError]s of the envelope. *)
Inductive CipherError : Type :=
| MasterKeyMissing
| Encryption (reason : string)
| Decryption (reason : string).

Definition cipher_error_text (e : CipherError) : string :=
  match e with
  | MasterKeyMissing =>
      of_bytes (bytes "master key missing " ++ [226; 128; 148]
                ++ bytes " set OPENPANEL__DATABASE__MASTER_KEY")%list
  | Encryption r => "encryption error: " +:+ r
  | Decryption r => "decryption error: " +:+ r
  end.

(** The crates [hex], [base64] and [aes_gcm], and the nonces drawn from [rand]. *)
Class Vault := {
  hex_encode : list N → string;
  hex_decode : string → result (list N) string;
  b64_standard_decode : string → result (list N) string;
  nonce_bytes : nat → list N;
  aes_encrypt : list N → list N → list N → result (list N) string;
  aes_decrypt : list N → list N → list N → result (list N) string;
  (** [FromUtf8Error::to_string()] *)
  utf8_error_text : list N → string
}.

(** What they document: [hex] writes hexadecimal digits and reads them back, a nonce
    has the twelve bytes of its buffer, and the cipher opens what it sealed under the
    same key and nonce. *)
Class VaultLaws `{Vault} : Prop := {
  hex_digits : ∀ l, Forall (λ c, is_ascii_hexdigit c = true) (bytes (hex_encode l));
  hex_roundtrip : ∀ l, Forall is_byte l → hex_decode (hex_encode l) = Ok l;
  nonce_len : ∀ k, length (nonce_bytes k) = NONCE_LEN;
  nonce_byte : ∀ k, Forall is_byte (nonce_bytes k);
  aes_roundtrip : ∀ key n p c, aes_encrypt key n p = Ok c → aes_decrypt key n c = Ok p;
  aes_bytes : ∀ key n p c, aes_encrypt key n p = Ok c → Forall is_byte c
}.

(** [String::from_utf8]. *)
Definition from_utf8 (l : list N) : option string :=
  if valid_utf8 l then Some (of_bytes l) else None.

Section vault.
Context `{Env} `{Vault}.

Definition decode_master_key (s : string) : result (list N) CipherError :=
  if String.eqb s "" then Err MasterKeyMissing
  else
    raw <-? result_map_err (λ e, Encryption ("base64 decode: " +:+ e)) (b64_standard_decode s) ;;
    if negb (length raw =? KEY_LEN)%nat then
      Err (Encryption ("master key length " +:+ of_bytes (show_N (N.of_nat (length raw)))
                       +:+ " != 32"))
    else Ok raw.

Definition encrypt_to_storage (master_key : list N) (plaintext : string)
    : M World CipherError string :=
  nonce <- (λ w, (Ok (nonce_bytes (w_step w)), tick w)) ;;
  ct <- lift (result_map_err Encryption (aes_encrypt master_key nonce (bytes plaintext))) ;;
  ret (hex_encode nonce +:+ ":" +:+ hex_encode ct).

(** 58 is [:]. *)
Definition decrypt_from_storage (master_key : list N) (stored : string)
    : result string CipherError :=
  match split_once 58 (bytes stored) with
  | None => Err (Decryption "missing `:` separator")
  | Some (nonce_hex, ct_hex) =>
      match hex_decode (of_bytes nonce_hex) with
      | Err _ => Err (Decryption ("bad nonce hex `" +:+ of_bytes nonce_hex +:+ "`"))
      | Ok nonce =>
          if negb (length nonce =? NONCE_LEN)%nat then
            Err (Decryption ("nonce length " +:+ of_bytes (show_N (N.of_nat (length nonce)))
                             +:+ " != 12"))
          else
            match hex_decode (of_bytes ct_hex) with
            | Err _ => Err (Decryption "bad ciphertext hex")
            | Ok ct =>
                pt <-? result_map_err Decryption (aes_decrypt master_key nonce ct) ;;
                match from_utf8 pt with
                | Some s => Ok s
                | None => Err (Decryption (utf8_error_text pt))
                end
            end
      end
  end.
End vault.

(** ** Properties *)

Lemma no_colon `{VaultLaws} l : ~ In 58 (bytes (hex_encode l)).
Proof.
  intros Hin. pose proof (hex_digits l) as Hd. rewrite List.Forall_forall in Hd.
  by apply Hd in Hin.
Qed.

(** Envelope.  What [encrypt_to_storage] stores, [decrypt_from_storage] opens to
    the same text under the same key; a stored text without a colon, or whose first
    part is not the hexadecimal form of twelve bytes, is refused. *)
Theorem envelope_roundtrip `{Env} `{VaultLaws} key plaintext :
  valid_utf8 (bytes plaintext) = true →
  (∀ stored w w', encrypt_to_storage key plaintext w = (Ok stored, w') →
     decrypt_from_storage key stored = Ok plaintext)
  ∧ ∀ stored text, decrypt_from_storage key stored = Ok text →
     ∃ nonce_hex ct_hex nonce, bytes stored = (nonce_hex ++ 58 :: ct_hex)%list
       ∧ hex_decode (of_bytes nonce_hex) = Ok nonce ∧ length nonce = NONCE_LEN.
Proof.
  intros Hutf. split.
  - intros stored w w' Hr. unfold encrypt_to_storage in Hr. inv_bind Hr. injection R as <- <-.
    inv_bind Hr. apply lift_ok in R as [R ->]. apply result_map_err_ok in R.
    injection Hr as <- _. unfold decrypt_from_storage.
    rewrite !bytes_app. cbn [bytes app].
    rewrite split_once_app by apply no_colon. rewrite !of_bytes_bytes.
    rewrite hex_roundtrip by apply nonce_byte. rewrite nonce_len. cbn [Nat.eqb negb NONCE_LEN].
    rewrite hex_roundtrip by by eapply aes_bytes.
    rewrite (aes_roundtrip _ _ _ _ R). cbn. unfold from_utf8. by rewrite Hutf, of_bytes_bytes.
  - intros stored text. unfold decrypt_from_storage.
    destruct (split_once 58 (bytes stored)) as [[a b]|] eqn:Es; [|done].
    destruct (hex_decode (of_bytes a)) as [n|] eqn:En; [|done].
    destruct (length n =? NONCE_LEN)%nat eqn:El; [|done]. intros _.
    exists a, b, n. apply Nat.eqb_eq in El. split_and!; try done. by apply split_once_spec.
Qed.
