(* ===== verification/Factors.v ===== *)
(** * Second factors

    [crates/openpanel-domain/src/identity/factor.rs]: enrolled factors, TOTP secrets,
    recovery codes, pending logins and WebAuthn credentials. *)
From S2P Require Import Prelude Text Accounts Store.

Local Open Scope N_scope.

Inductive FactorError : Type :=
| FactorRevoked | NotVerified | InvalidCodeFormat | CodeMismatch | StepReplayed
| RecoveryMismatch | RecoveryConsumed | WebAuthnCounterRegression | InvalidSecret.

Definition factor_error_text (e : FactorError) : string :=
  match e with
  | FactorRevoked => "factor has been revoked"
  | NotVerified => "factor is not yet verified"
  | InvalidCodeFormat => "invalid TOTP code format"
  | CodeMismatch => "TOTP code did not match"
  | StepReplayed => "TOTP code has already been used"
  | RecoveryMismatch => "recovery code did not match"
  | RecoveryConsumed => "recovery code has already been consumed"
  | WebAuthnCounterRegression => "WebAuthn signature counter did not advance"
  | InvalidSecret => "TOTP secret is malformed"
  end.

Inductive FactorKind : Type := TotpKind | WebAuthnKind.

#[export] Instance FactorKind_eq_dec : EqDecision FactorKind.
Proof. solve_decision. Defined.

Definition kind_str (k : FactorKind) : string :=
  match k with TotpKind => "totp" | WebAuthnKind => "webauthn" end.

Definition parse_kind (s : string) : option FactorKind :=
  if String.eqb s "totp" then Some TotpKind
  else if String.eqb s "webauthn" then Some WebAuthnKind
  else None.

Record Factor := mkFactor {
  f_id : Uuid;
  f_user_id : Uuid;
  f_kind : FactorKind;
  f_created_at : DateTime;
  f_verified_at : DateTime;
  f_last_used_at : option DateTime;
  f_revoked_at : option DateTime;
  f_last_used_step : option Z
}.

(** [Factor::new_verified]. *)
Definition new_verified (id user : Uuid) (kind : FactorKind) (t : DateTime) : Factor :=
  mkFactor id user kind t t None None None.

(** [Option::is_none]. *)
Definition is_none {A} (o : option A) : bool :=
  match o with Some _ => false | None => true end.

Definition factor_usable (f : Factor) : bool := is_none (f_revoked_at f).

Definition factor_revoke (t : DateTime) (f : Factor) : Factor :=
  mkFactor (f_id f) (f_user_id f) (f_kind f) (f_created_at f) (f_verified_at f)
    (f_last_used_at f) (Some t) (f_last_used_step f).

Definition step_used (step : Z) (t : DateTime) (f : Factor) : Factor :=
  mkFactor (f_id f) (f_user_id f) (f_kind f) (f_created_at f) (f_verified_at f)
    (Some t) (f_revoked_at f) (Some step).

(** [record_used_step]: refused unless the step is beyond the last one. *)
Definition replayed (step : Z) (f : Factor) : bool :=
  match f_last_used_step f with
  | Some prev => (step <=? prev)%Z
  | None => false
  end.

Definition record_used_step `{Env} (step : Z) (f : Factor) : M World FactorError Factor :=
  if negb (factor_usable f) then throw FactorRevoked
  else if replayed step f then throw StepReplayed
  else t <- now ;; ret (step_used step t f).

(** ** TOTP *)

(** The algorithm is always SHA-1. *)
Record TotpSecret := mkSecret {
  ts_bytes : list N;
  ts_digits : N;
  ts_period : Z
}.

Definition secret_from_bytes (l : list N) : result TotpSecret FactorError :=
  match l with
  | [] => Err InvalidSecret
  | _ => Ok (mkSecret l 6 30)
  end.

(** The crates [totp_rs] and [bcrypt], and the bytes drawn from [OsRng]. *)
Class FactorCrypto := {
  (** [TOTP::generate] of the calculator that [totp] builds *)
  totp_generate : TotpSecret → Z → string;
  (** [TOTP::get_url] for an issuer and an account name *)
  totp_url : TotpSecret → string → string → string;
  (** [bcrypt::hash] under the [k]-th salt, and [bcrypt::verify] *)
  bcrypt_hash : nat → string → option string;
  bcrypt_verify : string → string → option bool;
  (** the eight bytes of [generate_recovery_code] *)
  code_bytes : nat → list N
}.

(** [DateTime::timestamp]: whole seconds, rounded down. *)
Definition timestamp (t : DateTime) : Z := (t / 1000000000)%Z.

(** [timestamp() / period], a division of [i64]s. *)
Definition current_step (s : TotpSecret) (t : DateTime) : Z :=
  Z.quot (timestamp t) (ts_period s).

(** [constant_time_eq] on two byte slices. *)
Definition diff_bits (a b : list N) : N :=
  fold_left (λ diff xy, N.lor diff (N.lxor xy.1 xy.2)) (combine a b) 0.

Definition constant_time_eq (a b : list N) : bool :=
  (length a =? length b)%nat && (diff_bits a b =? 0).

(** [code.trim().replace(' ', "")]; 32 is the space. *)
Definition normalize_code (code : string) : list N :=
  List.filter (λ c, negb (c =? 32)) (trim (chars code)).

Section totp.
Context `{FactorCrypto}.

(** The loop of [TotpSecret::verify] over the offsets. *)
Fixpoint match_step (s : TotpSecret) (code : list N) (current : Z) (offsets : list Z)
    : result Z FactorError :=
  match offsets with
  | [] => Err CodeMismatch
  | offset :: rest =>
      let step := (current + offset)%Z in
      if (step <? 0)%Z then Err InvalidSecret
      else if constant_time_eq (bytes (totp_generate s step)) code then Ok step
      else match_step s code current rest
  end.

Definition totp_verify (s : TotpSecret) (code : string) (t : DateTime) : result Z FactorError :=
  let normalized := normalize_code code in
  if negb (chars_len normalized =? ts_digits s) || negb (forallb is_digit normalized)
  then Err InvalidCodeFormat
  else match_step s normalized (current_step s t) [0; -1; 1]%Z.
End totp.

(** ** Recovery codes *)

Definition CROCKFORD : list N := bytes "0123456789ABCDEFGHJKMNPQRSTVWXYZ".
Definition BASE32 : list N := bytes "ABCDEFGHIJKLMNOPQRSTUVWXYZ234567".

(** The state of the base-32 loop: a [u64] buffer, the number of bits waiting in it,
    and the characters written. *)
Record B32 := mkB32 { b32_buffer : N; b32_bits : N; b32_out : list N }.

Definition alphabet_at (alphabet : list N) (i : N) : N := nth (N.to_nat i) alphabet 0.

(** [while bits >= 5]. *)
Fixpoint b32_drain (alphabet : list N) (fuel : nat) (s : B32) : B32 :=
  match fuel with
  | O => s
  | S fuel' =>
      if b32_bits s <? 5 then s
      else
        let bits := b32_bits s - 5 in
        let idx := N.land (N.shiftr (b32_buffer s) bits) 31 in
        b32_drain alphabet fuel'
          (mkB32 (b32_buffer s) bits (b32_out s ++ [alphabet_at alphabet idx])%list)
  end.

(** Fewer than 5 bits wait before a byte, so its 8 bits leave in two turns. *)
Definition b32_byte (alphabet : list N) (s : B32) (byte : N) : B32 :=
  b32_drain alphabet 2
    (mkB32 (N.lor (N.shiftl (b32_buffer s) 8 mod 2 ^ 64) byte) (b32_bits s + 8) (b32_out s)).

Definition b32_finish (alphabet : list N) (s : B32) : list N :=
  if 0 <? b32_bits s then
    let idx := N.land (N.shiftl (b32_buffer s) (5 - b32_bits s) mod 2 ^ 64) 31 in
    (b32_out s ++ [alphabet_at alphabet idx])%list
  else b32_out s.

Definition base32 (alphabet : list N) (l : list N) : list N :=
  b32_finish alphabet (fold_left (b32_byte alphabet) l (mkB32 0 0 [])).

(** [encode_base32] and [base32_crockford] run the same loop. *)
Definition encode_base32 (l : list N) : string := of_bytes (base32 BASE32 l).
Definition base32_crockford (l : list N) : string := of_bytes (base32 CROCKFORD l).

(** The format of [generate_recovery_code]; 45 is [-]. *)
Definition group_code (l : list N) : string :=
  let s := firstn 12 l in
  of_bytes (firstn 4 s ++ 45 :: firstn 4 (skipn 4 s) ++ 45 :: skipn 8 s)%list.

Record RecoveryEntry := mkEntry { re_hash : string; re_consumed_at : option DateTime }.

Record RecoveryCodeSet := mkCodeSet {
  cs_user_id : Uuid;
  cs_created_at : DateTime;
  cs_remaining : N;
  cs_entries : list RecoveryEntry
}.

Section recovery.
Context `{Env} `{FactorCrypto}.

Definition generate_recovery_code {E} : M World E string :=
  λ w, (Ok (group_code (base32 CROCKFORD (code_bytes (w_step w)))), tick w).

(** [RecoveryCode::hash]. *)
Definition recovery_hash (plaintext : string) : M World FactorError string := λ w,
  match bcrypt_hash (w_step w) plaintext with
  | Some h => (Ok h, tick w)
  | None => (Err InvalidSecret, tick w)
  end.

(** [RecoveryCode::verify(..).is_ok()]. *)
Definition recovery_verify (plaintext hash : string) : bool :=
  match bcrypt_verify plaintext hash with
  | Some b => b
  | None => false
  end.

(** [RecoveryCodeSet::generate]: the loop over the codes. *)
Fixpoint generate_entries {E} (count : nat) : M World E (list RecoveryEntry * list string) :=
  match count with
  | O => ret ([], [])
  | S count' =>
      code <- generate_recovery_code ;;
      hash <- attempt (recovery_hash code) ;;
      rest <- generate_entries count' ;;
      ret (mkEntry (default "" hash) None :: rest.1, code :: rest.2)
  end.

Definition generate_code_set {E} (user : Uuid) (count : nat) (t : DateTime)
    : M World E (RecoveryCodeSet * list string) :=
  r <- generate_entries count ;;
  ret (mkCodeSet user t (N.of_nat count) r.1, r.2).

(** [RecoveryCodeSet::restore]; the count is cast to a [u8]. *)
Definition restore_code_set (user : Uuid) (t : DateTime)
    (entries : list (string * option DateTime)) : RecoveryCodeSet :=
  {| cs_user_id := user; cs_created_at := t;
     cs_remaining := N.of_nat (length (List.filter (λ e, is_none e.2) entries)) mod 256;
     cs_entries := map (λ e, mkEntry e.1 e.2) entries |}.

(** The scan of [RecoveryCodeSet::consume]. *)
Fixpoint consume_entry (plaintext : string) (t : DateTime) (l : list RecoveryEntry)
    : option (list RecoveryEntry) :=
  match l with
  | [] => None
  | e :: l' =>
      if is_none (re_consumed_at e) && recovery_verify plaintext (re_hash e)
      then Some (mkEntry (re_hash e) (Some t) :: l')
      else match consume_entry plaintext t l' with
           | Some l'' => Some (e :: l'')
           | None => None
           end
  end.

Definition code_set_consume (plaintext : string) (t : DateTime) (s : RecoveryCodeSet)
    : result (N * RecoveryCodeSet) FactorError :=
  match consume_entry plaintext t (cs_entries s) with
  | Some entries =>
      let remaining := cs_remaining s - 1 in
      Ok (remaining, mkCodeSet (cs_user_id s) (cs_created_at s) remaining entries)
  | None => Err RecoveryMismatch
  end.
End recovery.

(** ** Pending logins and enrollments *)

Definition minutes (m : Z) : Duration := (m * 60 * 1000000000)%Z.

(** [TotpEnrollmentChallenge]. *)
Record Enrollment := mkEnrollment {
  e_id : Uuid;
  e_user_id : Uuid;
  e_encrypted_secret : string;
  e_created_at : DateTime;
  e_expires_at : DateTime
}.

Definition enrollment_new (id user : Uuid) (secret : string) (t : DateTime) : Enrollment :=
  mkEnrollment id user secret t (t + minutes 10)%Z.

Definition enrollment_usable (t : DateTime) (e : Enrollment) : bool := (t <? e_expires_at e)%Z.

(** [TwoFactorChallenge]. *)
Record Challenge := mkLoginChallenge {
  c_id : Uuid;
  c_user_id : Uuid;
  c_token_hash : string;
  c_created_at : DateTime;
  c_expires_at : DateTime;
  c_consumed_at : option DateTime;
  c_source_ip : option string;
  c_user_agent : option string
}.

Definition challenge_usable (t : DateTime) (c : Challenge) : bool :=
  is_none (c_consumed_at c) && (t <? c_expires_at c)%Z.

(** [TwoFactorChallenge::consume]. *)
Definition challenge_consume (t : DateTime) (c : Challenge)
    : result (Uuid * Challenge) FactorError :=
  if negb (challenge_usable t c) then Err StepReplayed
  else Ok (c_user_id c,
           mkLoginChallenge (c_id c) (c_user_id c) (c_token_hash c) (c_created_at c)
             (c_expires_at c) (Some t) (c_source_ip c) (c_user_agent c)).

Section challenges.
Context `{Env}.

(** [hash_token]: argon2id with the default costs under a random salt. *)
Definition hash_token {E} (token : string) : M World E string :=
  λ w, (Ok (argon2_default_hash (w_step w) token), tick w).

(** [TwoFactorChallenge::create_with_lifetime]. *)
Definition challenge_create {E} (user : Uuid) (ip ua : option string) (t : DateTime)
    (lifetime : Duration) : M World E (Challenge * string) :=
  id <- fresh_uuid ;;
  token <- generate_token ;;
  hash <- hash_token token ;;
  ret ({| c_id := id; c_user_id := user; c_token_hash := hash; c_created_at := t;
          c_expires_at := (t + lifetime)%Z; c_consumed_at := None; c_source_ip := ip;
          c_user_agent := ua |}, token).

(** [TwoFactorChallenge::verify_token]. *)
Definition challenge_verify_token (c : Challenge) (token : string) : bool :=
  match argon2_verify (c_token_hash c) token with
  | Ok b => b
  | Err _ => false
  end.
End challenges.

(** ** WebAuthn *)

Inductive UserVerificationPolicy : Type := UvRequired | UvPreferred | UvDiscouraged.

Definition uv_str (p : UserVerificationPolicy) : string :=
  match p with
  | UvRequired => "required"
  | UvPreferred => "preferred"
  | UvDiscouraged => "discouraged"
  end.

Definition parse_uv (s : string) : option UserVerificationPolicy :=
  if String.eqb s "required" then Some UvRequired
  else if String.eqb s "preferred" then Some UvPreferred
  else if String.eqb s "discouraged" then Some UvDiscouraged
  else None.

Record WebAuthnCredential := mkCredential {
  w_id : Uuid;
  w_user_id : Uuid;
  w_factor_id : Uuid;
  w_credential_id : string;
  w_public_key_spki : string;
  w_sign_count : Z;
  w_transports : string;
  w_uv_policy : UserVerificationPolicy;
  w_passkey_json : string;
  w_created_at : DateTime;
  w_last_used_at : option DateTime;
  w_revoked_at : option DateTime
}.

Definition credential_usable (c : WebAuthnCredential) : bool := is_none (w_revoked_at c).

(** [record_assertion]: the signature counter must advance. *)
Definition record_assertion (counter : Z) (t : DateTime) (c : WebAuthnCredential)
    : result WebAuthnCredential FactorError :=
  if negb (credential_usable c) then Err FactorRevoked
  else if (counter <=? w_sign_count c)%Z then Err WebAuthnCounterRegression
  else Ok (mkCredential (w_id c) (w_user_id c) (w_factor_id c) (w_credential_id c)
             (w_public_key_spki c) counter (w_transports c) (w_uv_policy c)
             (w_passkey_json c) (w_created_at c) (Some t) (w_revoked_at c)).

Definition KIND_ASSERT : string := "assert".
Definition KIND_REGISTER : string := "register".

(** [WebAuthnChallenge]. *)
Record Ceremony := mkCeremony {
  m_id : Uuid;
  m_user_id : Uuid;
  m_kind : string;
  m_state_json : string;
  m_created_at : DateTime;
  m_expires_at : DateTime;
  m_consumed_at : option DateTime
}.

Definition ceremony_usable (t : DateTime) (m : Ceremony) : bool :=
  is_none (m_consumed_at m) && (t <? m_expires_at m)%Z.

(** ** Lemmas *)

Lemma constant_time_eq_spec (a b : list N) :
  constant_time_eq a b = true ↔ a = b.
Proof.
  unfold constant_time_eq, diff_bits. rewrite andb_true_iff, Nat.eqb_eq, N.eqb_eq.
  assert (∀ l d, fold_left (λ diff xy, N.lor diff (N.lxor xy.1 xy.2)) l d = 0 ↔
    d = 0 ∧ Forall (λ xy, xy.1 = xy.2) l) as Hfold.
  { induction l as [|[x y] l IH]; intros d; cbn.
    - split; [by intros -> | by intros [-> _]].
    - rewrite IH, N.lor_eq_0_iff, N.lxor_eq_0_iff, Forall_cons. tauto. }
  rewrite Hfold. split.
  - intros [Hlen [_ Hall]]. revert b Hlen Hall.
    induction a as [|x a IH]; intros [|y b]; cbn; intros Hlen Hall; try done.
    apply Forall_cons in Hall as [Hxy Hall]. cbn in Hxy. subst y. f_equal. apply IH; [lia|done].
  - intros ->. split; [done|]. split; [done|]. induction b; cbn; by constructor.
Qed.

(** The steps [TotpSecret::verify] accepts. *)
Lemma totp_verify_ok `{FactorCrypto} s code t step :
  totp_verify s code t = Ok step →
  In step [current_step s t; current_step s t - 1; current_step s t + 1]%Z ∧ (0 ≤ step)%Z
  ∧ bytes (totp_generate s step) = normalize_code code.
Proof.
  unfold totp_verify. destruct (_ || _); [done|].
  rewrite <- (Z.add_0_r (current_step s t)) at 2.
  change (current_step s t - 1)%Z with (current_step s t + -1)%Z.
  assert (∀ offsets, match_step s (normalize_code code) (current_step s t) offsets = Ok step →
    In step (map (Z.add (current_step s t)) offsets) ∧ (0 ≤ step)%Z
    ∧ bytes (totp_generate s step) = normalize_code code) as Hm.
  { induction offsets as [|o offsets IH]; cbn; [done|].
    destruct (Z.ltb_spec (current_step s t + o) 0); [done|].
    destruct (constant_time_eq _ _) eqn:E; [|naive_solver].
    intros [= <-]. split_and!; auto. by apply constant_time_eq_spec. }
  apply (Hm [0; -1; 1]%Z).
Qed.

(** ** TOTP counters *)

Section totp_counters.
Context `{FactorCrypto}.
(** [totp_rs]: [generate(time)] is the HOTP value at the counter [time / step], with
    [time] in seconds. *)
Variable hotp : list N → Z → string.
Hypothesis generate_seconds : ∀ s time, ts_period s = 30%Z →
  totp_generate s time = hotp (ts_bytes s) (time / 30)%Z.

(** TOTP counters.  [TotpSecret::verify] passes the time step, not seconds, to
    [generate]: an accepted code is the HOTP value at a thirtieth of the accepted step.
    So a code accepted at its current step is accepted again thirty seconds later, at a
    step that the replay protection has not seen, whenever both steps lie in one block
    of thirty. *)
Theorem totp_code_reused s code t :
  ts_period s = 30%Z → (0 ≤ t)%Z →
  (∀ step, totp_verify s code t = Ok step →
     normalize_code code = bytes (hotp (ts_bytes s) (step / 30)%Z))
  ∧ (totp_verify s code t = Ok (current_step s t) →
     ((current_step s t + 1) / 30 = current_step s t / 30)%Z →
     let t' := (t + 30 * 1000000000)%Z in
     totp_verify s code t' = Ok (current_step s t + 1)%Z
     ∧ ∀ f, f_last_used_step f = Some (current_step s t) →
         replayed (current_step s t + 1) f = false).
Proof using generate_seconds.
  intros Hper Ht. split.
  - intros step (_ & _ & Hcode)%totp_verify_ok. by rewrite <- Hcode, generate_seconds.
  - intros Hv Hblock t'. pose proof (totp_verify_ok _ _ _ _ Hv) as (_ & Hpos & Hcode).
    assert (current_step s t' = (current_step s t + 1)%Z) as Hstep.
    { unfold current_step, timestamp, t'. rewrite Hper.
      rewrite !Z.quot_div_nonneg by (try apply Z.div_pos; lia).
      rewrite Z.div_add by lia. by rewrite <- (Z.div_add _ 1 30) by lia. }
    split.
    + unfold totp_verify in *. destruct (_ || _); [done|]. cbn [match_step].
      rewrite Hstep, Z.add_0_r. destruct (Z.ltb_spec (current_step s t + 1) 0); [lia|].
      rewrite generate_seconds, Hblock, <- generate_seconds by done.
      by rewrite (proj2 (constant_time_eq_spec _ _) Hcode).
    + intros f Hf. unfold replayed. rewrite Hf. apply Z.leb_gt. lia.
Qed.
End totp_counters.
