(* ===== verification/FactorRepo.v ===== *)
(** * SQLite repository of the second factors

    [crates/openpanel-app/src/identity/factor_repo.rs]: [SqliteFactorRepository] with
    the row decoders, over the tables of migrations [V002] to [V004]. *)
From S2P Require Import Prelude Text Accounts Store Users Factors.

(** ** Tables *)

Definition with_factors (x : list FactorRow) (t : FactorTables) : FactorTables :=
  mkFactorTables x (tf_recovery t) (tf_recovery_seq t) (tf_challenges t) (tf_enrollments t)
    (tf_credentials t) (tf_ceremonies t).
Definition with_recovery (x : list RecoveryRow) (seq : Z) (t : FactorTables) : FactorTables :=
  mkFactorTables (tf_factors t) x seq (tf_challenges t) (tf_enrollments t)
    (tf_credentials t) (tf_ceremonies t).
Definition with_challenges (x : list ChallengeRow) (t : FactorTables) : FactorTables :=
  mkFactorTables (tf_factors t) (tf_recovery t) (tf_recovery_seq t) x (tf_enrollments t)
    (tf_credentials t) (tf_ceremonies t).
Definition with_enrollments (x : list EnrollmentRow) (t : FactorTables) : FactorTables :=
  mkFactorTables (tf_factors t) (tf_recovery t) (tf_recovery_seq t) (tf_challenges t) x
    (tf_credentials t) (tf_ceremonies t).
Definition with_credentials (x : list CredentialRow) (t : FactorTables) : FactorTables :=
  mkFactorTables (tf_factors t) (tf_recovery t) (tf_recovery_seq t) (tf_challenges t)
    (tf_enrollments t) x (tf_ceremonies t).
Definition with_ceremonies (x : list CeremonyRow) (t : FactorTables) : FactorTables :=
  mkFactorTables (tf_factors t) (tf_recovery t) (tf_recovery_seq t) (tf_challenges t)
    (tf_enrollments t) (tf_credentials t) x.

Definition on_factors (f : FactorTables → FactorTables) (d : Db) : Db :=
  set_factors (f (db_factors d)) d.

Definition factor_is (id : Uuid) (r : FactorRow) : bool := (fr_id r =? id)%N.
Definition factor_of (user : Uuid) (r : FactorRow) : bool := (fr_user_id r =? user)%N.
Definition active_totp (user : Uuid) (r : FactorRow) : bool :=
  factor_of user r && String.eqb (fr_kind r) "totp" && is_none (fr_revoked_at r).
Definition challenge_is (id : Uuid) (r : ChallengeRow) : bool := (lc_id r =? id)%N.
Definition enrollment_is (id : Uuid) (r : EnrollmentRow) : bool := (er_id r =? id)%N.
Definition credential_is (id : string) (r : CredentialRow) : bool :=
  String.eqb (wr_credential_id r) id.
Definition ceremony_is (id : Uuid) (r : CeremonyRow) : bool := (wc_id r =? id)%N.
Definition recovery_is (id : Z) (r : RecoveryRow) : bool := (rc_id r =? id)%Z.
Definition recovery_of (user : Uuid) (r : RecoveryRow) : bool := (rc_user_id r =? user)%N.
Definition unused_code (user : Uuid) (r : RecoveryRow) : bool :=
  recovery_of user r && is_none (rc_consumed_at r).

Definition credential_created_desc (r1 r2 : CredentialRow) : Prop :=
  (wr_created_at r2 ≤ wr_created_at r1)%Z.
#[export] Instance credential_created_desc_dec : RelDecision credential_created_desc.
Proof. unfold credential_created_desc. intros r1 r2. apply _. Defined.

(** ** Rows and values *)

Definition row_to_factor (r : FactorRow) : result Factor RepoError :=
  match parse_kind (fr_kind r) with
  | None => Err ("factor kind: " +:+ fr_kind r)
  | Some kind =>
      Ok {| f_id := fr_id r; f_user_id := fr_user_id r; f_kind := kind;
            f_created_at := fr_created_at r; f_verified_at := fr_verified_at r;
            f_last_used_at := fr_last_used_at r; f_revoked_at := fr_revoked_at r;
            f_last_used_step := fr_last_used_step r |}
  end.

Definition factor_row (f : Factor) (secret : string) : FactorRow :=
  {| fr_id := f_id f; fr_user_id := f_user_id f; fr_kind := kind_str (f_kind f);
     fr_created_at := f_created_at f; fr_verified_at := f_verified_at f;
     fr_last_used_at := f_last_used_at f; fr_revoked_at := f_revoked_at f;
     fr_last_used_step := f_last_used_step f; fr_totp_secret_encrypted := Some secret |}.

(** The columns [update_factor] writes. *)
Definition factor_row_set (f : Factor) (r : FactorRow) : FactorRow :=
  {| fr_id := fr_id r; fr_user_id := fr_user_id r; fr_kind := fr_kind r;
     fr_created_at := fr_created_at r; fr_verified_at := fr_verified_at r;
     fr_last_used_at := f_last_used_at f; fr_revoked_at := f_revoked_at f;
     fr_last_used_step := f_last_used_step f;
     fr_totp_secret_encrypted := fr_totp_secret_encrypted r |}.

Definition row_to_totp_enrollment (r : EnrollmentRow) : result Enrollment RepoError :=
  Ok (mkEnrollment (er_id r) (er_user_id r) (er_encrypted_secret r) (er_created_at r)
        (er_expires_at r)).

Definition enrollment_row (e : Enrollment) : EnrollmentRow :=
  mkEnrollmentRow (e_id e) (e_user_id e) (e_encrypted_secret e) (e_created_at e)
    (e_expires_at e) None.

Definition enrollment_row_consume (t : DateTime) (r : EnrollmentRow) : EnrollmentRow :=
  mkEnrollmentRow (er_id r) (er_user_id r) (er_encrypted_secret r) (er_created_at r)
    (er_expires_at r) (Some t).

Definition row_to_challenge (r : ChallengeRow) : result Challenge RepoError :=
  Ok (mkLoginChallenge (lc_id r) (lc_user_id r) (lc_token_hash r) (lc_created_at r)
        (lc_expires_at r) (lc_consumed_at r) (lc_source_ip r) (lc_user_agent r)).

Definition challenge_row (c : Challenge) : ChallengeRow :=
  mkChallengeRow (c_id c) (c_user_id c) (c_token_hash c) (c_created_at c)
    (c_expires_at c) (c_consumed_at c) (c_source_ip c) (c_user_agent c).

Definition challenge_row_consume (t : DateTime) (r : ChallengeRow) : ChallengeRow :=
  mkChallengeRow (lc_id r) (lc_user_id r) (lc_token_hash r) (lc_created_at r)
    (lc_expires_at r) (Some t) (lc_source_ip r) (lc_user_agent r).

Definition recovery_row_consume (t : DateTime) (r : RecoveryRow) : RecoveryRow :=
  mkRecoveryRow (rc_id r) (rc_user_id r) (rc_code_hash r) (rc_created_at r) (Some t).

Definition row_to_webauthn_credential (r : CredentialRow) : result WebAuthnCredential RepoError :=
  match parse_uv (wr_uv_policy r) with
  | None => Err ("webauthn uv_policy: " +:+ wr_uv_policy r)
  | Some uv =>
      Ok {| w_id := wr_id r; w_user_id := wr_user_id r; w_factor_id := wr_factor_id r;
            w_credential_id := wr_credential_id r; w_public_key_spki := wr_public_key_spki r;
            w_sign_count := wr_sign_count r; w_transports := default "" (wr_transports r);
            w_uv_policy := uv; w_passkey_json := wr_passkey_json r;
            w_created_at := wr_created_at r; w_last_used_at := wr_last_used_at r;
            w_revoked_at := wr_revoked_at r |}
  end.

Definition credential_row_touch (counter : Z) (t : DateTime) (r : CredentialRow) : CredentialRow :=
  mkCredentialRow (wr_id r) (wr_user_id r) (wr_factor_id r) (wr_credential_id r)
    (wr_public_key_spki r) counter (wr_transports r) (wr_uv_policy r) (wr_passkey_json r)
    (wr_created_at r) (Some t) (wr_revoked_at r).

Definition credential_row_revoke (t : DateTime) (r : CredentialRow) : CredentialRow :=
  mkCredentialRow (wr_id r) (wr_user_id r) (wr_factor_id r) (wr_credential_id r)
    (wr_public_key_spki r) (wr_sign_count r) (wr_transports r) (wr_uv_policy r)
    (wr_passkey_json r) (wr_created_at r) (wr_last_used_at r) (Some t).

Definition row_to_webauthn_challenge (r : CeremonyRow) : result Ceremony RepoError :=
  Ok (mkCeremony (wc_id r) (wc_user_id r) (wc_kind r) (wc_state_json r) (wc_created_at r)
        (wc_expires_at r) (wc_consumed_at r)).

Definition ceremony_row_consume (t : DateTime) (r : CeremonyRow) : CeremonyRow :=
  mkCeremonyRow (wc_id r) (wc_user_id r) (wc_kind r) (wc_state_json r) (wc_created_at r)
    (wc_expires_at r) (Some t).

(** ** Inserts, with the constraints of the tables *)

Definition known_user (user : Uuid) (d : Db) : bool := existsb (id_is user) (db_users d).

Definition insert_factor_row (r : FactorRow) (d : Db) : result (unit * Db) string :=
  if existsb (factor_is (fr_id r)) (tf_factors (db_factors d)) then Err "user_factors.id"
  else if known_user (fr_user_id r) d
  then Ok (tt, on_factors (λ t, with_factors (tf_factors t ++ [r]) t) d)
  else Err "FOREIGN KEY".

Definition insert_enrollment_row (r : EnrollmentRow) (d : Db) : result (unit * Db) string :=
  if existsb (enrollment_is (er_id r)) (tf_enrollments (db_factors d))
  then Err "totp_enrollment_challenges.id"
  else if known_user (er_user_id r) d
  then Ok (tt, on_factors (λ t, with_enrollments (tf_enrollments t ++ [r]) t) d)
  else Err "FOREIGN KEY".

(** The key is the next number of the [AUTOINCREMENT] sequence. *)
Definition insert_recovery_row (user : Uuid) (hash : string) (created : DateTime) (d : Db)
    : result (unit * Db) string :=
  if known_user user d then
    Ok (tt, on_factors (λ t,
      let id := (tf_recovery_seq t + 1)%Z in
      with_recovery (tf_recovery t ++ [mkRecoveryRow id user hash created None]) id t) d)
  else Err "FOREIGN KEY".

Definition insert_challenge_row (r : ChallengeRow) (d : Db) : result (unit * Db) string :=
  if existsb (challenge_is (lc_id r)) (tf_challenges (db_factors d))
  then Err "login_challenges.id"
  else if existsb (λ x, String.eqb (lc_token_hash x) (lc_token_hash r))
            (tf_challenges (db_factors d))
  then Err "login_challenges.token_hash"
  else if known_user (lc_user_id r) d
  then Ok (tt, on_factors (λ t, with_challenges (tf_challenges t ++ [r]) t) d)
  else Err "FOREIGN KEY".

Definition insert_credential_row (r : CredentialRow) (d : Db) : result (unit * Db) string :=
  if existsb (λ x, (wr_id x =? wr_id r)%N) (tf_credentials (db_factors d))
  then Err "webauthn_credentials.id"
  else if existsb (credential_is (wr_credential_id r)) (tf_credentials (db_factors d))
  then Err "webauthn_credentials.credential_id"
  else if known_user (wr_user_id r) d
  then Ok (tt, on_factors (λ t, with_credentials (tf_credentials t ++ [r]) t) d)
  else Err "FOREIGN KEY".

Definition insert_ceremony_row (r : CeremonyRow) (d : Db) : result (unit * Db) string :=
  if existsb (ceremony_is (wc_id r)) (tf_ceremonies (db_factors d))
  then Err "webauthn_challenges.id"
  else if known_user (wc_user_id r) d
  then Ok (tt, on_factors (λ t, with_ceremonies (tf_ceremonies t ++ [r]) t) d)
  else Err "FOREIGN KEY".

(** The transaction of a method; its errors carry a label. *)
Definition transaction `{Env} {A} (label : string) (body : M World RepoError A)
    : M World RepoError A :=
  in_transaction (λ e, label +:+ " begin: " +:+ e) (λ e, label +:+ " commit: " +:+ e) body.

Section factor_repo.
Context `{Env} `{FactorCrypto}.
Abbreviation MR A := (M World RepoError A).

(** [.map_err(|e| RepoError(format!("<label>: {e}")))]. *)
Definition labelled {A} (label : string) (c : MR A) : MR A :=
  map_err (λ e, label +:+ ": " +:+ e) c.

(** ** Factors *)

Definition insert_factor (f : Factor) (secret : string) : MR unit :=
  labelled "insert_factor" (statement (insert_factor_row (factor_row f secret))).

Definition find_factor (id : Uuid) : MR (option Factor) :=
  row <- labelled "find_factor"
    (select (λ d, List.find (factor_is id) (tf_factors (db_factors d)))) ;;
  lift (transpose row_to_factor row).

Definition update_factor (f : Factor) : MR unit :=
  labelled "update_factor" (execute (on_factors (λ t,
    with_factors (update_where (factor_is (f_id f)) (factor_row_set f) (tf_factors t)) t))).

Definition list_factors_for_user (user : Uuid) : MR (list Factor) :=
  rows <- labelled "list_factors_for_user"
    (select (λ d, select_where (factor_of user) (tf_factors (db_factors d)))) ;;
  lift (collect row_to_factor rows).

Definition find_active_totp_factor (user : Uuid) : MR (option Factor) :=
  row <- labelled "find_active_totp_factor"
    (select (λ d, List.find (active_totp user) (tf_factors (db_factors d)))) ;;
  lift (transpose row_to_factor row).

Definition find_totp_secret_encrypted (factor : Uuid) : MR (option string) :=
  row <- labelled "find_totp_secret_encrypted"
    (select (λ d, List.find (factor_is factor) (tf_factors (db_factors d)))) ;;
  ret (match row with Some r => fr_totp_secret_encrypted r | None => None end).

(** ** Enrollments *)

Definition insert_totp_enrollment (e : Enrollment) : MR unit :=
  labelled "insert_totp_enrollment" (statement (insert_enrollment_row (enrollment_row e))).

Definition find_totp_enrollment (id : Uuid) : MR (option Enrollment) :=
  row <- labelled "find_totp_enrollment"
    (select (λ d, List.find (λ r, enrollment_is id r && is_none (er_consumed_at r))
                    (tf_enrollments (db_factors d)))) ;;
  lift (transpose row_to_totp_enrollment row).

(** An [UPDATE] with the number of rows it changed. *)
Definition enrollment_open (id : Uuid) (t : DateTime) (r : EnrollmentRow) : bool :=
  enrollment_is id r && is_none (er_consumed_at r) && (t <? er_expires_at r)%Z.

Definition consume_totp_enrollment (id : Uuid) (t : DateTime) : MR bool :=
  labelled "consume_totp_enrollment" (statement (λ d,
    let rows := tf_enrollments (db_factors d) in
    Ok ((length (select_where (enrollment_open id t) rows) =? 1)%nat,
        on_factors (with_enrollments
          (update_where (enrollment_open id t) (enrollment_row_consume t) rows)) d))).

(** ** Recovery codes *)

Fixpoint insert_codes (user : Uuid) (entries : list (string * DateTime)) : MR unit :=
  match entries with
  | [] => ret tt
  | (hash, created) :: entries' =>
      labelled "replace_recovery_codes insert"
        (statement (insert_recovery_row user hash created)) ;;;
      insert_codes user entries'
  end.

Definition replace_recovery_codes (user : Uuid) (entries : list (string * DateTime)) : MR unit :=
  transaction "replace_recovery_codes" (
    labelled "replace_recovery_codes delete" (execute (on_factors (λ t,
      with_recovery (delete_where (recovery_of user) (tf_recovery t)) (tf_recovery_seq t) t))) ;;;
    insert_codes user entries).

Definition list_recovery_codes (user : Uuid) : MR (list (string * option DateTime)) :=
  rows <- labelled "list_recovery_codes"
    (select (λ d, select_where (recovery_of user) (tf_recovery (db_factors d)))) ;;
  ret (map (λ r, (rc_code_hash r, rc_consumed_at r)) rows).

(** The loop over the selected rows: the first whose hash verifies. *)
Definition matching_code (plaintext : string) (rows : list RecoveryRow) : option RecoveryRow :=
  List.find (λ r, recovery_verify plaintext (rc_code_hash r)) rows.

Definition consume_recovery_code (user : Uuid) (plaintext : string) (t : DateTime) : MR bool :=
  rows <- labelled "consume_recovery_code select"
    (select (λ d, select_where (unused_code user) (tf_recovery (db_factors d)))) ;;
  match matching_code plaintext rows with
  | None => ret false
  | Some r =>
      labelled "consume_recovery_code update" (execute (on_factors (λ t',
        with_recovery (update_where (recovery_is (rc_id r)) (recovery_row_consume t)
                         (tf_recovery t')) (tf_recovery_seq t') t'))) ;;;
      ret true
  end.

(** ** Pending logins *)

Definition insert_challenge (c : Challenge) : MR unit :=
  labelled "insert_challenge" (statement (insert_challenge_row (challenge_row c))).

Definition find_challenge (id : Uuid) : MR (option Challenge) :=
  row <- labelled "find_challenge"
    (select (λ d, List.find (challenge_is id) (tf_challenges (db_factors d)))) ;;
  lift (transpose row_to_challenge row).

Definition delete_challenge (id : Uuid) : MR unit :=
  labelled "delete_challenge" (execute (on_factors (λ t,
    with_challenges (delete_where (challenge_is id) (tf_challenges t)) t))).

Definition verify_challenge_token (id : Uuid) (plaintext : string) : MR bool :=
  o <- find_challenge id ;;
  ret (match o with Some c => challenge_verify_token c plaintext | None => false end).

Definition consume_challenge (id : Uuid) (t : DateTime) : MR (option Uuid) :=
  o <- find_challenge id ;;
  match o with
  | None => ret None
  | Some c =>
      match challenge_consume t c with
      | Ok (user, _) =>
          labelled "consume_challenge update" (execute (on_factors (λ t',
            with_challenges (update_where (challenge_is id) (challenge_row_consume t)
                               (tf_challenges t')) t'))) ;;;
          ret (Some user)
      | Err _ => ret None
      end
  end.

Definition purge_expired_challenges (t : DateTime) : MR Z :=
  labelled "purge_expired_challenges" (statement (λ d,
    let gone r := (lc_expires_at r <? t)%Z in
    let rows := tf_challenges (db_factors d) in
    Ok (Z.of_nat (length (select_where gone rows)),
        on_factors (with_challenges (delete_where gone rows)) d))).

(** ** WebAuthn *)

Definition insert_webauthn_credential (credential_id : string) (user factor : Uuid)
    (public_key : string) (sign_count : Z) (transports : option string)
    (uv_policy passkey_json : string) (created : DateTime) : MR unit :=
  id <- fresh_uuid ;;
  labelled "insert_webauthn_credential" (statement (insert_credential_row
    (mkCredentialRow id user factor credential_id public_key sign_count transports
       uv_policy passkey_json created None None))).

Definition list_webauthn_credentials (user : Uuid) : MR (list WebAuthnCredential) :=
  rows <- labelled "list_webauthn_credentials"
    (select (λ d, merge_sort credential_created_desc
      (select_where (λ r, (wr_user_id r =? user)%N && is_none (wr_revoked_at r))
         (tf_credentials (db_factors d))))) ;;
  lift (collect row_to_webauthn_credential rows).

Definition find_webauthn_credential_by_id (id : string) : MR (option WebAuthnCredential) :=
  row <- labelled "find_webauthn_credential_by_id"
    (select (λ d, List.find (credential_is id) (tf_credentials (db_factors d)))) ;;
  lift (transpose row_to_webauthn_credential row).

Definition update_credentials (label id : string) (f : CredentialRow → CredentialRow) : MR unit :=
  labelled label (execute (on_factors (λ t,
    with_credentials (update_where (credential_is id) f (tf_credentials t)) t))).

Definition touch_webauthn_credential (id : string) (counter : Z) (t : DateTime) : MR unit :=
  update_credentials "touch_webauthn_credential" id (credential_row_touch counter t).

Definition revoke_webauthn_credential (id : string) (t : DateTime) : MR unit :=
  update_credentials "revoke_webauthn_credential" id (credential_row_revoke t).

Definition insert_webauthn_challenge (id user : Uuid) (kind state_json : string)
    (created expires : DateTime) : MR unit :=
  labelled "insert_webauthn_challenge" (statement (insert_ceremony_row
    (mkCeremonyRow id user kind state_json created expires None))).

Definition find_webauthn_challenge (id : Uuid) : MR (option Ceremony) :=
  row <- labelled "find_webauthn_challenge"
    (select (λ d, List.find (ceremony_is id) (tf_ceremonies (db_factors d)))) ;;
  lift (transpose row_to_webauthn_challenge row).

Definition ceremony_open (id : Uuid) (t : DateTime) (r : CeremonyRow) : bool :=
  ceremony_is id r && is_none (wc_consumed_at r) && (t <? wc_expires_at r)%Z.

Definition consume_webauthn_challenge (id : Uuid) (t : DateTime) : MR (option Ceremony) :=
  o <- find_webauthn_challenge id ;;
  match o with
  | None => ret None
  | Some m =>
      if negb (ceremony_usable t m) then ret None
      else
        changed <- labelled "consume_webauthn_challenge" (statement (λ d,
          let rows := tf_ceremonies (db_factors d) in
          Ok ((length (select_where (ceremony_open id t) rows) =? 1)%nat,
              on_factors (with_ceremonies
                (update_where (ceremony_open id t) (ceremony_row_consume t) rows)) d))) ;;
        ret (if changed : bool then Some m else None)
  end.
End factor_repo.
