(* ===== verification/Remember.v ===== *)
(** * Remembered devices

    [crates/openpanel-domain/src/identity/remember.rs] (the payload and what it is bound
    to) and [crates/openpanel-app/src/identity/remember_device.rs] (the signed cookie). *)
From S2P Require Import Prelude Text AuditActions AuditLog Accounts Store Users Identity Secrets Factors Net.

Local Open Scope N_scope.

Definition REMEMBER_DEVICE_VERSION : N := 1.

Record RememberedDevicePayload := mkPayload {
  p_v : N;
  p_factor_id : Uuid;
  p_user_id : Uuid;
  p_ua_hash : string;
  p_ip_prefix : string;
  p_exp : DateTime;
  p_nonce : Uuid
}.

(** The crates [hmac], [sha2] and [base64] (URL-safe, unpadded), and [serde_json] on
    the payload. *)
Class CookieCrypto := {
  hmac_sha256 : list N → list N → list N;
  sha256 : list N → list N;
  b64url_encode : list N → string;
  b64url_decode : string → option (list N);
  payload_to_vec : RememberedDevicePayload → list N;
  payload_from_slice : list N → option RememberedDevicePayload
}.

(** What they document: a tag has 32 bytes, the base64 text has no dot and reads back,
    and the payload's JSON reads back. *)
Class CookieLaws `{CookieCrypto} : Prop := {
  hmac_len : ∀ key msg, length (hmac_sha256 key msg) = 32%nat;
  hmac_bytes : ∀ key msg, Forall is_byte (hmac_sha256 key msg);
  b64url_no_dot : ∀ l, ~ In 46 (bytes (b64url_encode l));
  b64url_roundtrip : ∀ l, Forall is_byte l → b64url_decode (b64url_encode l) = Some l;
  payload_bytes : ∀ p, Forall is_byte (payload_to_vec p);
  payload_roundtrip : ∀ p, payload_from_slice (payload_to_vec p) = Some p
}.

(** 46 is [.], 58 is [:]. *)
Definition ip_prefix (ip : string) : string :=
  match parse_ip ip with
  | Some (IpV4 octets) => of_bytes (joined 46 (map show_N (firstn 3 octets)))
  | Some (IpV6 segments) => of_bytes (joined 58 (map show_hex16 (firstn 4 segments)))
  | None => ip
  end.

Definition is_live (t : DateTime) (p : RememberedDevicePayload) : bool := (t <? p_exp p)%Z.

Section cookies.
Context `{Env} `{Vault} `{CookieCrypto}.

Definition hash_user_agent (ua : string) : string := hex_encode (sha256 (bytes ua)).

Definition matches_request (ua prefix : string) (p : RememberedDevicePayload) : bool :=
  String.eqb (p_ua_hash p) (hash_user_agent ua) && String.eqb (p_ip_prefix p) prefix.

(** [derive_signing_key]: extract with a zero salt block, then one block of expand. *)
Definition derive_signing_key (master_key : list N) : list N :=
  let prk := hmac_sha256 master_key (repeat 0 32) in
  hmac_sha256 prk (bytes "openpanel_2fa_remember" ++ [1])%list.

Definition sign (cookie_key payload : list N) : list N := hmac_sha256 cookie_key payload.

(** [constant_time_eq_32]. *)
Definition constant_time_eq_32 (a b : list N) : bool :=
  if negb (length b =? 32)%nat then false else diff_bits a b =? 0.

Definition issue_remember_device_with_lifetime {E} (master_key : list N) (user factor : Uuid)
    (ua ip : string) (t : DateTime) (lifetime : Duration) : M World E string :=
  nonce <- fresh_uuid ;;
  let payload := {| p_v := REMEMBER_DEVICE_VERSION; p_factor_id := factor; p_user_id := user;
                    p_ua_hash := hash_user_agent ua; p_ip_prefix := ip_prefix ip;
                    p_exp := (t + lifetime)%Z; p_nonce := nonce |} in
  let payload_bytes := payload_to_vec payload in
  let tag := sign (derive_signing_key master_key) payload_bytes in
  ret (b64url_encode payload_bytes +:+ "." +:+ b64url_encode tag).

Definition issue_remember_device {E} (master_key : list N) (user factor : Uuid)
    (ua ip : string) (t : DateTime) : M World E string :=
  issue_remember_device_with_lifetime master_key user factor ua ip t (days 30).

(** [.map_err(|_| RememberDeviceInvalid)?] on an optional value. *)
Definition or_invalid {A} (o : option A) : result A TwoFactorError :=
  match o with Some a => Ok a | None => Err RememberDeviceInvalid end.

Definition validate_remember_device (master_key : list N) (cookie ua ip : string)
    (t : DateTime) : result RememberedDevicePayload TwoFactorError :=
  parts <-? or_invalid (split_once 46 (bytes cookie)) ;;
  payload_bytes <-? or_invalid (b64url_decode (of_bytes parts.1)) ;;
  expected <-? or_invalid (b64url_decode (of_bytes parts.2)) ;;
  let actual := sign (derive_signing_key master_key) payload_bytes in
  if negb (constant_time_eq_32 actual expected) then Err RememberDeviceInvalid
  else
    payload <-? or_invalid (payload_from_slice payload_bytes) ;;
    if negb (p_v payload =? REMEMBER_DEVICE_VERSION) then Err RememberDeviceInvalid
    else if negb (is_live t payload) then Err RememberDeviceExpired
    else if negb (matches_request ua (ip_prefix ip) payload) then Err RememberDeviceMismatch
    else Ok payload.
End cookies.

(** ** Properties *)

Lemma constant_time_eq_32_spec a b :
  length a = 32%nat → constant_time_eq_32 a b = true ↔ a = b.
Proof.
  intros Ha. rewrite <- constant_time_eq_spec. unfold constant_time_eq_32, constant_time_eq.
  rewrite Ha. destruct (Nat.eqb_spec (length b) 32) as [->|Hne]; [done|].
  split; [done|]. intros [Hl%Nat.eqb_eq _]%andb_true_iff. congruence.
Qed.

(** Remembered devices.  A cookie that was issued is judged exactly by its
    expiry, the hash of the user agent and the address prefix: until it expires, a
    request from the same browser and network gets the account and factor it was issued
    for.  Any accepted cookie carries the tag of its own payload under the key derived
    from the master key, version 1, an expiry in the future and the fingerprints of the
    request. *)
Theorem remember_device_exact `{Env} `{Vault} `{CookieLaws} key :
  (∀ (E : Type) user factor ua ip t lifetime w cookie w' ua' ip' t',
     issue_remember_device_with_lifetime (E:=E) key user factor ua ip t lifetime w
       = (Ok cookie, w') →
     validate_remember_device key cookie ua' ip' t' =
       if negb (t' <? t + lifetime)%Z then Err RememberDeviceExpired
       else if negb (String.eqb (hash_user_agent ua) (hash_user_agent ua')
                     && String.eqb (ip_prefix ip) (ip_prefix ip'))
       then Err RememberDeviceMismatch
       else Ok {| p_v := 1; p_factor_id := factor; p_user_id := user;
                  p_ua_hash := hash_user_agent ua; p_ip_prefix := ip_prefix ip;
                  p_exp := (t + lifetime)%Z; p_nonce := new_v4 (w_step w) |})
  ∧ ∀ cookie ua ip t p, validate_remember_device key cookie ua ip t = Ok p →
     (∃ head tail body, bytes cookie = (head ++ 46 :: tail)%list
        ∧ b64url_decode (of_bytes head) = Some body ∧ payload_from_slice body = Some p
        ∧ b64url_decode (of_bytes tail) = Some (sign (derive_signing_key key) body))
     ∧ p_v p = REMEMBER_DEVICE_VERSION ∧ (t < p_exp p)%Z
     ∧ p_ua_hash p = hash_user_agent ua ∧ p_ip_prefix p = ip_prefix ip.
Proof.
  split.
  - intros E user factor ua ip t lifetime w cookie w' ua' ip' t' Hr.
    unfold issue_remember_device_with_lifetime in Hr. injection Hr as <- _.
    unfold validate_remember_device. rewrite !bytes_app. cbn [bytes app].
    rewrite split_once_app by apply b64url_no_dot. cbn [or_invalid result_bind fst snd].
    rewrite !of_bytes_bytes, b64url_roundtrip by apply payload_bytes. cbn [or_invalid result_bind].
    rewrite b64url_roundtrip by apply hmac_bytes. cbn [or_invalid result_bind].
    rewrite (proj2 (constant_time_eq_32_spec _ _ (hmac_len _ _)) eq_refl). cbn [negb].
    rewrite payload_roundtrip. done.
  - intros cookie ua ip t p. unfold validate_remember_device.
    destruct (split_once 46 (bytes cookie)) as [[head tail]|] eqn:Es; [|done].
    apply split_once_spec in Es. cbn [or_invalid result_bind fst snd].
    destruct (b64url_decode (of_bytes head)) as [body|] eqn:Eh; [|done].
    destruct (b64url_decode (of_bytes tail)) as [tag|] eqn:Et; [|done].
    cbn [or_invalid result_bind]. destruct (constant_time_eq_32 _ _) eqn:Ec; [|done].
    apply constant_time_eq_32_spec in Ec; [|apply hmac_len]. subst tag. cbn [negb].
    destruct (payload_from_slice body) as [q|] eqn:Ep; [|done]. cbn [or_invalid result_bind].
    destruct (p_v q =? _) eqn:Ev; [|done]. destruct (is_live t q) eqn:El; [|done].
    destruct (matches_request _ _ _) eqn:Em; [|done]. intros [= <-].
    apply andb_true_iff in Em as [Hu%String.eqb_eq Hi%String.eqb_eq].
    apply N.eqb_eq in Ev. apply Z.ltb_lt in El. split_and!; try done. by exists head, tail, body.
Qed.

(** Address prefixes.  A device is bound to the /24 of its IPv4 address: two
    dotted-quad addresses have the same prefix exactly when they differ in the last
    octet at most. *)
Theorem ip_prefix_v4 (o o' : list N) :
  length o = 4%nat → length o' = 4%nat → Forall is_byte o → Forall is_byte o' →
  ip_prefix (of_bytes (joined 46 (map show_N o))) = of_bytes (joined 46 (map show_N (firstn 3 o)))
  ∧ (ip_prefix (of_bytes (joined 46 (map show_N o)))
       = ip_prefix (of_bytes (joined 46 (map show_N o'))) ↔ firstn 3 o = firstn 3 o').
Proof.
  intros Hl Hl' Ho Ho'. unfold ip_prefix. rewrite !parse_ip_v4 by done. split; [done|].
  split; [|by intros ->]. apply joined_inj.
  - by destruct o.
  - rewrite !length_firstn. lia.
  - by apply Forall_take.
  - by apply Forall_take.
Qed.
