(* ===== verification/TwoFactor.v ===== *)
(** * The two-factor service

    [crates/openpanel-app/src/identity/two_factor.rs]: TOTP enrollment, recovery codes,
    pending logins, WebAuthn ceremonies and remembered devices, over the repository of
    [FactorRepo].  The service implements the interface the login flow of [Identity]
    is proved against; the last part shows that it leaves the other tables alone. *)
From S2P Require Import Prelude Text Net AuditActions AuditLog Accounts Store Users Identity Secrets Factors FactorRepo Remember.

Definition map_factor_error (e : FactorError) : TwoFactorError :=
  match e with
  | StepReplayed | WebAuthnCounterRegression => CodeReplayed
  | FactorRevoked => Revoked
  | InvalidCodeFormat | CodeMismatch => InvalidCode
  | RecoveryMismatch | RecoveryConsumed => InvalidCode
  | InvalidSecret => Storage "invalid secret"
  | NotVerified => InvalidCode
  end.

Record TotpEnrollment := mkTotpEnrollment {
  enrollment_id : Uuid;
  enrollment_secret : TotpSecret;
  provisioning_uri : string
}.

Record VerifiedTotpEnrollment := mkVerified {
  verified_factor : Factor;
  recovery_codes : list string
}.

(** [RegisteredWebAuthnCredential]; the credential id as its bytes. *)
Record RegisteredCredential := mkRegistered {
  reg_credential_id : list N;
  reg_public_key : string;
  reg_sign_count : Z;
  reg_transports : option string;
  reg_passkey_json : string
}.

Record VerifiedAssertion := mkAssertion {
  va_credential_id : list N;
  va_sign_count : Z
}.

(** The [TwoFactorCrypto] trait object; what starts a ceremony or a secret draws
    randomness. *)
Class TwoFactorCrypto := {
  generate_totp_secret : nat → TotpSecret;
  crypto_begin_register : nat → Uuid → string → result (Json * string) TwoFactorError;
  crypto_finish_register : Json → string → result RegisteredCredential TwoFactorError;
  crypto_begin_assert : nat → list string → result (Json * string) TwoFactorError;
  crypto_finish_assert : Json → string → result VerifiedAssertion TwoFactorError
}.

(** The fields of the service that are values: master key and settings. *)
Class TwoFactorConfig := {
  master_key : list N;
  issuer_label : string;
  challenge_lifetime : Duration;
  recovery_code_count : N;
  remember_device_lifetime : Duration
}.

Module Service.
Section service.
Context `{Env} `{Vault} `{FactorCrypto} `{CookieCrypto} `{TwoFactorCrypto} `{TwoFactorConfig}.
Abbreviation MT A := (M World TwoFactorError A).

(** [From<RepoError>]. *)
Definition repo {A} (c : M World RepoError A) : MT A := map_err Storage c.

(** [self.audit.record(..).await.map_err(|e| Storage(format!("audit: {e}")))?]. *)
Definition audit_or_fail (actor : string) (action : AuditAction) (outcome : AuditOutcome)
    (build : AuditEvent → AuditEvent) : MT unit :=
  ts <- now ;;
  map_err (λ e, Storage ("audit: sqlx error: " +:+ e))
    (record (build (event_new ts actor action outcome))).

(** ** TOTP *)

Definition open_secret (encrypted : string) (bad : FactorError → TwoFactorError)
    : result TotpSecret TwoFactorError :=
  plaintext <-? result_map_err (λ e, Storage ("decrypt: " +:+ cipher_error_text e))
                  (decrypt_from_storage master_key encrypted) ;;
  raw <-? result_map_err (λ e, Storage ("hex decode: " +:+ e)) (hex_decode plaintext) ;;
  result_map_err bad (secret_from_bytes raw).

Definition active_totp_factor (user : Uuid) : MT (option (Factor * TotpSecret)) :=
  o <- repo (find_active_totp_factor user) ;;
  match o with
  | None => ret None
  | Some factor =>
      e <- repo (find_totp_secret_encrypted (f_id factor)) ;;
      match e with
      | None => ret None
      | Some encrypted =>
          secret <- lift (open_secret encrypted
            (λ e, Storage ("invalid secret: " +:+ factor_error_text e))) ;;
          ret (Some (factor, secret))
      end
  end.

Definition enroll_totp (user : Uuid) (actor account_name : string) (t : DateTime)
    : MT TotpEnrollment :=
  secret <- (λ w, (Ok (generate_totp_secret (w_step w)), tick w)) ;;
  encrypted <- map_err (λ e, Storage ("encrypt: " +:+ cipher_error_text e))
                 (encrypt_to_storage master_key (hex_encode (ts_bytes secret))) ;;
  id <- fresh_uuid ;;
  repo (insert_totp_enrollment (enrollment_new id user encrypted t)) ;;;
  ret {| enrollment_id := id; enrollment_secret := secret;
         provisioning_uri := totp_url secret issuer_label account_name |}.

(** [hash_plaintext_codes]. *)
Fixpoint hash_plaintext_codes (codes : list string) (t : DateTime)
    : MT (list (string * DateTime)) :=
  match codes with
  | [] => ret []
  | code :: codes' =>
      hash <- map_err (λ e, Storage (factor_error_text e)) (recovery_hash code) ;;
      rest <- hash_plaintext_codes codes' t ;;
      ret ((hash, t) :: rest)
  end.

(** A fresh set of codes: generated, hashed, stored in place of the old ones. *)
Definition renew_codes (user : Uuid) (t : DateTime) : MT (list string) :=
  r <- generate_code_set user (N.to_nat recovery_code_count) t ;;
  entries <- hash_plaintext_codes r.2 t ;;
  repo (replace_recovery_codes user entries) ;;;
  ret r.2.

Definition verify_totp_enrollment (actor : string) (user enrollment : Uuid) (code : string)
    (t : DateTime) : MT VerifiedTotpEnrollment :=
  o <- repo (find_totp_enrollment enrollment) ;;
  e <- ok_or (match o with
              | Some e => if (e_user_id e =? user)%N && enrollment_usable t e
                          then Some e else None
              | None => None
              end) InvalidCode ;;
  secret <- lift (open_secret (e_encrypted_secret e) map_factor_error) ;;
  step <- lift (result_map_err map_factor_error (totp_verify secret code t)) ;;
  consumed <- repo (consume_totp_enrollment enrollment t) ;;
  if negb consumed then throw CodeReplayed
  else
    fid <- fresh_uuid ;;
    factor <- map_err map_factor_error (record_used_step step (new_verified fid user TotpKind t)) ;;
    repo (insert_factor factor (e_encrypted_secret e)) ;;;
    codes <- renew_codes user t ;;
    audit_or_fail actor TwoFactorEnrolled Success id ;;;
    ret {| verified_factor := factor; recovery_codes := codes |}.

Definition list_factors (user : Uuid) : MT (list Factor) := repo (list_factors_for_user user).

Definition has_active_factor (user : Uuid) : MT bool :=
  fs <- repo (list_factors_for_user user) ;;
  ret (existsb (λ f, is_none (f_revoked_at f)) fs).

(** The count is cast to a [u8]. *)
Definition count_recovery_codes (user : Uuid) : MT N :=
  entries <- repo (list_recovery_codes user) ;;
  ret (N.of_nat (length (List.filter (λ e, is_none e.2) entries)) mod 256)%N.

(** The loop of [revoke_factor] over the credentials. *)
Fixpoint revoke_credentials (factor : Uuid) (t : DateTime) (l : list WebAuthnCredential)
    : MT unit :=
  match l with
  | [] => ret tt
  | c :: l' =>
      (if (w_factor_id c =? factor)%N
       then repo (revoke_webauthn_credential (w_credential_id c) t) else ret tt) ;;;
      revoke_credentials factor t l'
  end.

Definition revoke_factor (actor : string) (user factor : Uuid) (t : DateTime) : MT unit :=
  o <- repo (find_factor factor) ;;
  f <- ok_or o FactorNotFound ;;
  if negb (f_user_id f =? user)%N then throw FactorNotFound
  else if negb (is_none (f_revoked_at f)) then ret tt
  else
    let f := factor_revoke t f in
    repo (update_factor f) ;;;
    match f_kind f with
    | WebAuthnKind =>
        l <- repo (list_webauthn_credentials user) ;; revoke_credentials factor t l
    | TotpKind => ret tt
    end ;;;
    audit_or_fail actor TwoFactorRevoked Success id.

Definition regenerate_recovery_codes (actor : string) (user : Uuid) (t : DateTime)
    : MT (list string) :=
  codes <- renew_codes user t ;;
  audit_or_fail actor TwoFactorRevoked Success id ;;;
  ret codes.

(** ** Pending logins *)

Definition issue_login_challenge (user : Uuid) (ip ua : option string) (t : DateTime)
    : MT ChallengeView :=
  r <- challenge_create user ip ua t challenge_lifetime ;;
  repo (insert_challenge r.1) ;;;
  ret {| challenge_id := c_id r.1; challenge_token := r.2;
         challenge_expires_at := c_expires_at r.1 |}.

Definition verify_totp_code (user : Uuid) (code : string) (t : DateTime)
    : MT (option Uuid * string) :=
  o <- active_totp_factor user ;;
  match o with
  | None => throw NoFactor
  | Some (factor, secret) =>
      step <- lift (result_map_err map_factor_error (totp_verify secret code t)) ;;
      factor <- map_err map_factor_error (record_used_step step factor) ;;
      repo (update_factor factor) ;;;
      ret (Some (f_id factor), "totp")
  end.

Definition verify_recovery_code (user : Uuid) (code : string) (t : DateTime)
    : MT (option Uuid * string) :=
  consumed <- repo (consume_recovery_code user code t) ;;
  if consumed : bool then ret (None, "recovery") else throw InvalidCode.

(** ** WebAuthn ceremonies *)

Definition begin_webauthn_register (user : Uuid) (username : string)
    : MT (Uuid * Json * string) :=
  r <- (λ w, (crypto_begin_register (w_step w) user username, tick w)) ;;
  id <- fresh_uuid ;;
  ret (id, r.1, r.2).

Definition persist_webauthn_register (id user : Uuid) (state_json : string) (t : DateTime)
    : MT unit :=
  repo (insert_webauthn_challenge id user KIND_REGISTER state_json t (t + challenge_lifetime)%Z).

Definition begin_webauthn_assert (user : Uuid) : MT (Uuid * Json) :=
  creds <- repo (list_webauthn_credentials user) ;;
  match creds with
  | [] => throw NoFactor
  | _ =>
      r <- (λ w, (crypto_begin_assert (w_step w) (map w_passkey_json creds), tick w)) ;;
      id <- fresh_uuid ;;
      t <- now ;;
      repo (insert_webauthn_challenge id user KIND_ASSERT r.2 t (t + challenge_lifetime)%Z) ;;;
      ret (id, r.1)
  end.

Definition begin_webauthn_login (challenge : Uuid) (token : string) (t : DateTime)
    : MT (Uuid * Json) :=
  ok <- repo (verify_challenge_token challenge token) ;;
  if negb ok then throw InvalidCode
  else
    o <- repo (find_challenge challenge) ;;
    c <- ok_or o InvalidCode ;;
    if negb (challenge_usable t c) then throw CodeReplayed
    else begin_webauthn_assert (c_user_id c).

Definition finish_webauthn_register (actor : string) (ceremony user : Uuid) (response : Json)
    (t : DateTime) : MT Uuid :=
  o <- repo (consume_webauthn_challenge ceremony t) ;;
  m <- ok_or o WebAuthnCeremonyExpired ;;
  if negb (m_user_id m =? user)%N || negb (String.eqb (m_kind m) KIND_REGISTER)
  then throw InvalidCode
  else
    cred <- lift (crypto_finish_register response (m_state_json m)) ;;
    factor <- fresh_uuid ;;
    repo (insert_factor (new_verified factor user WebAuthnKind t) "") ;;;
    repo (insert_webauthn_credential (b64url_encode (reg_credential_id cred)) user factor
            (reg_public_key cred) (reg_sign_count cred) (reg_transports cred)
            (uv_str UvPreferred) (reg_passkey_json cred) t) ;;;
    n <- count_recovery_codes user ;;
    (if (n =? 0)%N then (_ <- renew_codes user t ;; ret tt) else ret tt) ;;;
    audit_or_fail actor TwoFactorEnrolled Success id ;;;
    ret factor.

Definition finish_webauthn_assert (actor : string) (ceremony : Uuid) (response : Json)
    (t : DateTime) : MT (Uuid * Uuid) :=
  o <- repo (consume_webauthn_challenge ceremony t) ;;
  m <- ok_or o WebAuthnCeremonyExpired ;;
  if negb (String.eqb (m_kind m) KIND_ASSERT) then throw InvalidCode
  else
    result <- lift (crypto_finish_assert response (m_state_json m)) ;;
    let credential_id := b64url_encode (va_credential_id result) in
    c <- repo (find_webauthn_credential_by_id credential_id) ;;
    cred <- ok_or c InvalidCode ;;
    match record_assertion (va_sign_count result) t cred with
    | Err e =>
        audit_or_fail actor TwoFactorFailed Failure id ;;;
        throw (map_factor_error e)
    | Ok cred =>
        repo (touch_webauthn_credential credential_id (va_sign_count result) t) ;;;
        ret (w_user_id cred, w_factor_id cred)
    end.

(** ** Completing a login *)

(** A failed assertion leaves [verify_login_challenge_with_factor] at once; a failed
    TOTP or recovery code is a value there. *)
Definition factor_verdict (actor : string) (user : Uuid) (response : FactorResponse)
    (t : DateTime) : MT (result (option Uuid * string) TwoFactorError) :=
  match response with
  | Totp code => try_run (verify_totp_code user code t)
  | Recovery code => try_run (verify_recovery_code user code t)
  | WebAuthn ceremony credential =>
      r <- finish_webauthn_assert actor ceremony credential t ;;
      ret (if negb (r.1 =? user)%N then Err InvalidCode else Ok (Some r.2, "webauthn"))
  end.

Definition verify_login_challenge_with_factor (actor : string) (challenge : Uuid)
    (token : string) (response : FactorResponse) (t : DateTime) : MT (Uuid * option Uuid) :=
  ok <- repo (verify_challenge_token challenge token) ;;
  if negb ok then throw InvalidCode
  else
    o <- repo (find_challenge challenge) ;;
    c <- ok_or o InvalidCode ;;
    if negb (challenge_usable t c) then throw CodeReplayed
    else
      verdict <- factor_verdict actor (c_user_id c) response t ;;
      match verdict with
      | Ok (factor, kind) =>
          repo (consume_challenge challenge t) ;;;
          audit_or_fail actor TwoFactorVerified Success
            (with_metadata (JObject [("kind", JString kind)])) ;;;
          ret (c_user_id c, factor)
      | Err error =>
          audit_or_fail actor TwoFactorFailed Failure
            (with_metadata (reason (two_factor_error_text error))) ;;;
          throw error
      end.

Definition verify_login_challenge (actor : string) (challenge : Uuid) (token : string)
    (response : FactorResponse) (t : DateTime) : MT Uuid :=
  r <- verify_login_challenge_with_factor actor challenge token response t ;; ret r.1.

(** ** Remembered devices *)

Definition accept_remember_device (cookie ua ip : string) (t : DateTime) : MT (Uuid * Uuid) :=
  payload <- lift (validate_remember_device master_key cookie ua ip t) ;;
  factors <- repo (list_factors_for_user (p_user_id payload)) ;;
  f <- ok_or (List.find (λ f, (f_id f =? p_factor_id payload)%N && is_none (f_revoked_at f))
                factors) RememberDeviceMismatch ;;
  ret (p_user_id payload, f_id f).

Definition issue_remember_device_cookie (user factor : Uuid) (ua ip : string) (t : DateTime)
    : MT string :=
  issue_remember_device_with_lifetime master_key user factor ua ip t remember_device_lifetime.
End service.
End Service.

(** The service behind the login flow. *)
#[export] Instance panel_two_factor `{Env} `{Vault} `{FactorCrypto} `{CookieCrypto}
    `{TwoFactorCrypto} `{TwoFactorConfig} : TwoFactorService := {|
  has_active_factor := Service.has_active_factor;
  accept_remember_device := Service.accept_remember_device;
  issue_login_challenge := Service.issue_login_challenge;
  verify_login_challenge_with_factor := Service.verify_login_challenge_with_factor
|}.

(** * What the two-factor service leaves alone

    The service implements the interface of [Identity]: it works on its own tables and
    on the audit log.  The file also holds the generic argument by which a fact about
    the second-factor tables survives every operation of the identity and two-factor
    services. *)

(** A transaction that fails leaves the database; one that succeeds did its body. *)
Lemma within_transaction `{Env} {A} (R : relation World) `{!PreOrder R} label
    (body : M World RepoError A) :
  (∀ w, R w (tick w)) → (∀ w k, (w_step w ≤ k)%nat → R w (mkWorld k (w_db w))) →
  within R body → within forward body → within R (transaction label body).
Proof.
  intros Ht Hk Hb Hf w. unfold transaction, in_transaction.
  set (all := bind _ _).
  assert (within R all) as HR.
  { subst all. apply within_bind; [done|by apply within_map_err, within_select|]. intros _.
    apply within_bind; [done..|]. intros a.
    apply within_bind; [done|by apply within_map_err, within_select|]. intros _. by apply within_ret. }
  assert (within forward all) as HF.
  { assert (∀ w, forward w (tick w)) as Hft by (unfold forward; cbn; lia).
    subst all. apply within_bind; [apply _|by apply within_map_err, within_select|]. intros _.
    apply within_bind; [apply _|done|]. intros a.
    apply within_bind; [apply _|by apply within_map_err, within_select|]. intros _.
    by apply within_ret, _. }
  specialize (HR w). specialize (HF w). destruct (all w) as [[a|e] w'] eqn:E; cbn in *; [done|].
  by apply Hk.
Qed.

(** ** The frame of the account tables *)

Ltac insert_cases :=
  unfold insert_factor_row, insert_enrollment_row, insert_recovery_row, insert_challenge_row,
    insert_credential_row, insert_ceremony_row in *;
  repeat match goal with
    | H : context [if ?b then _ else _] |- _ => destruct b eqn:?; try discriminate H
    end.

Section frame.
Context `{Env} `{Vault} `{FactorCrypto} `{CookieCrypto} `{TwoFactorCrypto} `{TwoFactorConfig}.
Abbreviation F c := (within (on_db (same accounts_of)) c).

Lemma frame_execute f : F (execute (on_factors f)).
Proof. apply on_db_execute; [apply _|]. intros d. reflexivity. Qed.

Lemma frame_audit actor action outcome build :
  F (Service.audit_or_fail actor action outcome build).
Proof.
  unfold Service.audit_or_fail, record. within_tac. apply on_db_execute; [apply _|]. intros d. reflexivity.
Qed.
End frame.
#[export] Hint Resolve frame_execute frame_audit : within.

Section frame_ops.
Context `{Env} `{Vault} `{FactorCrypto} `{CookieCrypto} `{TwoFactorCrypto} `{TwoFactorConfig}.
Abbreviation F c := (within (on_db (same accounts_of)) c).

Ltac frame :=
  within_tac;
  repeat first
    [ apply within_try_run; within_tac
    | apply on_db_statement; [apply _ ..|]; intros ? ? ? Hs; insert_cases;
      injection Hs as _ <-; reflexivity
    | intros w; reflexivity ].

#[export] Instance panel_two_factor_frame : TwoFactorFrame.
Proof.
  split.
  - intros u. cbn. unfold Service.has_active_factor, Service.repo, list_factors_for_user, labelled.
    frame.
  - intros c ua ip t. cbn.
    unfold Service.accept_remember_device, Service.repo, list_factors_for_user, labelled. frame.
  - intros u ip ua t. cbn.
    unfold Service.issue_login_challenge, Service.repo, insert_challenge, labelled,
      challenge_create, hash_token. frame.
  - intros a c tok r t. cbn.
    unfold Service.verify_login_challenge_with_factor, Service.factor_verdict,
      Service.verify_totp_code, Service.verify_recovery_code, Service.finish_webauthn_assert,
      Service.active_totp_factor, Service.repo, verify_challenge_token,
      consume_challenge, find_challenge, consume_recovery_code, update_factor, find_active_totp_factor,
      find_totp_secret_encrypted, consume_webauthn_challenge, find_webauthn_challenge,
      find_webauthn_credential_by_id, touch_webauthn_credential, update_credentials,
      record_used_step, labelled. frame.
Qed.
End frame_ops.
