(* ===== verification/TwoFactorKept.v ===== *)
(** * Facts about the second-factor tables that survive every operation

    A fact [J] about the tables that every single change keeps ([Stable]) is kept by every
    method of the two-factor and identity services, wherever statements fail.  The change
    may assume that a new row does not take the identifier [c] again: random identifiers
    from step [n0] on differ from [c].  [None] assumes nothing. *)
From S2P Require Import Prelude Text AuditActions AuditLog Accounts Store Users Identity Secrets Factors FactorRepo Net Remember TwoFactor.

(** What the service writes back into a factor it has read. *)
Inductive advance : Factor → Factor → Prop :=
| AdvanceStep s t f : factor_usable f = true → replayed s f = false → advance f (step_used s t f)
| AdvanceRevoke t f : advance f (factor_revoke t f).

Definition owns_credential (t : FactorTables) (r : CredentialRow) : Prop :=
  ∃ f, In f (tf_factors t) ∧ fr_id f = wr_factor_id r ∧ fr_user_id f = wr_user_id r
       ∧ fr_kind f = "webauthn".

(** The changes the repository makes to the tables. *)
Class Stable (c : option Uuid) (J : FactorTables → Prop) : Prop := {
  st_cascade : ∀ u t, J t → J (delete_user_factors u t);
  st_factor : ∀ r t, Some (fr_id r) ≠ c → existsb (factor_is (fr_id r)) (tf_factors t) = false →
    is_none (parse_kind (fr_kind r)) = false → J t →
    J (with_factors (tf_factors t ++ [r]) t);
  st_advance : ∀ r f g t, In r (tf_factors t) → row_to_factor r = Ok f → advance f g → J t →
    J (with_factors (update_where (factor_is (f_id f)) (factor_row_set g) (tf_factors t)) t);
  st_challenge : ∀ r t, Some (lc_id r) ≠ c → existsb (challenge_is (lc_id r)) (tf_challenges t) = false →
    J t → J (with_challenges (tf_challenges t ++ [r]) t);
  st_consume : ∀ i m t, J t →
    J (with_challenges (update_where (challenge_is i) (challenge_row_consume m) (tf_challenges t)) t);
  st_drop : ∀ u t, J t →
    J (with_recovery (delete_where (recovery_of u) (tf_recovery t)) (tf_recovery_seq t) t);
  st_code : ∀ u h m t, J t →
    J (with_recovery (tf_recovery t ++ [mkRecoveryRow (tf_recovery_seq t + 1)%Z u h m None])
         (tf_recovery_seq t + 1)%Z t);
  st_use : ∀ i m t, J t →
    J (with_recovery (update_where (recovery_is i) (recovery_row_consume m) (tf_recovery t))
         (tf_recovery_seq t) t);
  st_enrollments : ∀ x t, J t → J (with_enrollments x t);
  st_ceremonies : ∀ x t, J t → J (with_ceremonies x t);
  st_credential : ∀ r t, Some (wr_factor_id r) ≠ c → owns_credential t r →
    existsb (credential_is (wr_credential_id r)) (tf_credentials t) = false →
    is_none (parse_uv (wr_uv_policy r)) = false → J t →
    J (with_credentials (tf_credentials t ++ [r]) t);
  st_touch : ∀ i n m t, J t →
    J (with_credentials (update_where (credential_is i) (credential_row_touch n m)
         (tf_credentials t)) t);
  st_revoke : ∀ i m t, J t →
    J (with_credentials (update_where (credential_is i) (credential_row_revoke m)
         (tf_credentials t)) t)
}.

(** The two-state property the methods are walked with. *)
Definition stays (n0 : nat) (J : FactorTables → Prop) (w w' : World) : Prop :=
  (n0 ≤ w_step w)%nat →
  (n0 ≤ w_step w')%nat ∧ (J (db_factors (w_db w)) → J (db_factors (w_db w'))).

#[export] Instance stays_preorder n0 J : PreOrder (stays n0 J).
Proof. unfold stays. split; repeat intro; naive_solver. Qed.

Section leaves.
Context `{Env} (n0 : nat) (J : FactorTables → Prop).
Abbreviation S c := (within (stays n0 J) c).

Lemma stays_tick w : stays n0 J w (tick w).
Proof. unfold stays; cbn. intros ?. split; [lia | done]. Qed.

Lemma stays_time w k : (w_step w ≤ k)%nat → stays n0 J w (mkWorld k (w_db w)).
Proof. unfold stays; cbn. intros ??. split; [lia | done]. Qed.

Lemma stays_now {E} : S (now (E:=E)).
Proof. apply within_now, stays_tick. Qed.
Lemma stays_fresh_uuid {E} : S (fresh_uuid (E:=E)).
Proof. apply within_fresh_uuid, stays_tick. Qed.
Lemma stays_generate_token {E} : S (generate_token (E:=E)).
Proof. apply within_generate_token, stays_tick. Qed.
Lemma stays_select {A} (f : Db → A) : S (select f).
Proof. apply within_select, stays_tick. Qed.

(** A draw of randomness or a call outside. *)
Lemma stays_draw {E A} (f : World → result A E) : S (λ w, (f w, tick w)).
Proof. intros w. apply stays_tick. Qed.

Lemma stays_statement {A} (f : Db → result (A * Db) string) :
  (∀ d a d', f d = Ok (a, d') → J (db_factors d) → J (db_factors d')) → S (statement f).
Proof.
  intros Hf. apply within_statement; [apply stays_tick|]. intros k d a d' E. unfold stays; cbn.
  intros ?. split; [lia|]. by eapply Hf.
Qed.

Lemma stays_execute f :
  (∀ d, J (db_factors d) → J (db_factors (f d))) → S (execute f).
Proof. intros Hf. apply stays_statement. intros d a d' [= _ <-]. apply Hf. Qed.

Lemma stays_record e : S (record e).
Proof. by apply stays_execute. Qed.

Lemma stays_audit {E} actor action outcome build : S (audit (E:=E) actor action outcome build).
Proof.
  pose proof (@stays_now E). pose proof stays_record. unfold audit. within_tac.
Qed.

(** A new identifier is not [c]. *)
Lemma stays_bind_fresh {E B} c (k : Uuid → M World E B) :
  (∀ i, (n0 ≤ i)%nat → Some (new_v4 i) ≠ c) →
  (∀ a, Some a ≠ c → S (k a)) → S (bind fresh_uuid k).
Proof.
  intros Hfresh Hk w Hn. cbn. assert (n0 ≤ w_step (tick w))%nat as Hn' by (cbn; lia).
  destruct (Hk (new_v4 (w_step w)) (Hfresh _ Hn) (tick w) Hn') as [H1 H2].
  split; [exact H1 | exact H2].
Qed.
End leaves.

#[export] Hint Resolve stays_now stays_fresh_uuid stays_generate_token stays_select stays_draw
  stays_record stays_audit : within.

(** ** The repository *)

Section kept_repo.
Context `{Env} `{FactorCrypto} (n0 : nat) (c : option Uuid) (J : FactorTables → Prop) `{!Stable c J}.
Abbreviation S m := (within (stays n0 J) m).

Lemma kept_insert_factor f secret :
  Some (f_id f) ≠ c → S (insert_factor f secret).
Proof using Type*.
  intros Hid. apply within_map_err, stays_statement. intros d a d' Hs. insert_cases.
  injection Hs as _ <-. cbn.
  apply st_factor; [done..|]. by destruct f as [? ? [] ? ? ? ? ?].
Qed.

Lemma kept_insert_totp_enrollment e : S (insert_totp_enrollment e).
Proof using Type*.
  apply within_map_err, stays_statement. intros d a d' Hs. insert_cases.
  injection Hs as _ <-. apply st_enrollments.
Qed.

Lemma kept_consume_totp_enrollment i t : S (consume_totp_enrollment i t).
Proof using Type*.
  apply within_map_err, stays_statement. intros d a d' [= _ <-]. apply st_enrollments.
Qed.

Lemma kept_insert_codes u l : S (insert_codes u l).
Proof using Type*.
  induction l as [|[h t] l IH]; cbn [insert_codes]; within_tac.
  apply within_map_err, stays_statement. intros d a d' Hs. insert_cases.
  injection Hs as _ <-. apply st_code.
Qed.

Lemma forward_insert_codes u l : within forward (insert_codes u l).
Proof using Type.
  induction l as [|[h t] l IH]; cbn [insert_codes]; within_tac.
  apply within_map_err, within_statement; unfold forward; cbn; intros; lia.
Qed.

Lemma kept_replace_recovery_codes u l : S (replace_recovery_codes u l).
Proof using Type*.
  pose proof (kept_insert_codes u l). pose proof (forward_insert_codes u l).
  apply within_transaction; [apply _|apply stays_tick|apply stays_time| |]; within_tac;
    apply within_map_err.
  - apply stays_execute. intros d. apply st_drop.
  - apply within_execute; unfold forward; cbn; intros; lia.
Qed.

Lemma kept_consume_recovery_code u p t : S (consume_recovery_code u p t).
Proof using Type*.
  unfold consume_recovery_code, labelled. within_tac. apply stays_execute. intros d. apply st_use.
Qed.

Lemma kept_insert_challenge ch : Some (c_id ch) ≠ c → S (insert_challenge ch).
Proof using Type*.
  intros Hid. apply within_map_err, stays_statement. intros d a d' Hs. insert_cases.
  injection Hs as _ <-. by apply st_challenge.
Qed.

Lemma kept_find_challenge i : S (find_challenge i).
Proof using Type. unfold find_challenge, labelled. within_tac. Qed.

Lemma kept_consume_challenge i t : S (consume_challenge i t).
Proof using Type*.
  pose proof (kept_find_challenge i). unfold consume_challenge, labelled. within_tac.
  apply stays_execute. intros d. apply st_consume.
Qed.

Lemma kept_touch i n t : S (touch_webauthn_credential i n t).
Proof using Type*.
  apply within_map_err, stays_execute. intros d. apply st_touch.
Qed.

Lemma kept_revoke_credential i t : S (revoke_webauthn_credential i t).
Proof using Type*.
  apply within_map_err, stays_execute. intros d. apply st_revoke.
Qed.

Lemma kept_insert_ceremony i u k s t t' : S (insert_webauthn_challenge i u k s t t').
Proof using Type*.
  apply within_map_err, stays_statement. intros d a d' Hs. insert_cases.
  injection Hs as _ <-. apply st_ceremonies.
Qed.

Lemma kept_consume_ceremony i t : S (consume_webauthn_challenge i t).
Proof using Type*.
  unfold consume_webauthn_challenge, find_webauthn_challenge, labelled. within_tac.
  apply stays_statement. intros d a' d' [= _ <-]. apply st_ceremonies.
Qed.

(** An update writes back a factor that was read from the table. *)
Lemma kept_update_factor r f g w :
  In r (tf_factors (db_factors (w_db w))) → row_to_factor r = Ok f → advance f g →
  stays n0 J w (update_factor g w).2.
Proof using Type*.
  intros Hin Hr Hadv. unfold update_factor, labelled. apply map_err_at.
  unfold execute, statement.
  destruct (sql_fault (w_step w)); [apply stays_tick|]. unfold stays; cbn. intros ?.
  split; [lia|]. assert (f_id g = f_id f) as -> by (by destruct Hadv). by eapply st_advance.
Qed.

Lemma kept_insert_credential i u f pk n tr uv pj t w :
  Some f ≠ c → owns_credential (db_factors (w_db w)) (mkCredentialRow 0 u f i pk n tr uv pj t None None) →
  is_none (parse_uv uv) = false →
  stays n0 J w (insert_webauthn_credential i u f pk n tr uv pj t w).2.
Proof using Type*.
  intros Hf Hown Huv. unfold insert_webauthn_credential, labelled. apply bind_at; [apply _|apply stays_tick|].
  intros id w' [= <- <-]. apply map_err_at. unfold statement.
  destruct (sql_fault _); [apply stays_tick|].
  destruct (insert_credential_row _ _) as [[[] d']|] eqn:Hs; [|apply stays_tick].
  insert_cases. injection Hs as <-. unfold stays; cbn. intros ?. split; [lia|]. by apply st_credential.
Qed.
End kept_repo.

#[export] Hint Resolve kept_insert_totp_enrollment kept_consume_totp_enrollment
  kept_replace_recovery_codes kept_consume_recovery_code kept_find_challenge
  kept_consume_challenge kept_touch kept_revoke_credential kept_insert_ceremony
  kept_consume_ceremony : within.

(** ** Reads that name the row they found *)

Section reads.
Context `{Env}.

Lemma find_read {A} (f : FactorTables → option A) {B} (dec : A → result B RepoError) label w o w' :
  (row <- labelled label (select (λ d, f (db_factors d))) ;; lift (transpose dec row)) w
    = (Ok o, w') →
  w_db w' = w_db w
  ∧ match o with
    | Some b => ∃ r, f (db_factors (w_db w)) = Some r ∧ dec r = Ok b
    | None => f (db_factors (w_db w)) = None
    end.
Proof.
  intros Hr. inv_bind Hr. apply map_err_ok, select_run in R as (Hdb & -> & _).
  apply lift_ok in Hr as [Ht ->]. split; [done|].
  destruct (f (db_factors (w_db w))) as [r|]; cbn in Ht; [|by injection Ht as <-].
  destruct (dec r) eqn:E; [|done]. injection Ht as <-. eauto.
Qed.

(** What a lookup returned, read off the tables. *)
Definition found {A B} (dec : A → result B RepoError) (row : option A) (o : option B) : Prop :=
  match o with
  | Some b => ∃ r, row = Some r ∧ dec r = Ok b
  | None => row = None
  end.

Lemma find_factor_run i w o w' :
  find_factor i w = (Ok o, w') → w_db w' = w_db w
  ∧ found row_to_factor (List.find (factor_is i) (tf_factors (db_factors (w_db w)))) o.
Proof. exact (find_read (λ t, List.find (factor_is i) (tf_factors t)) _ _ w o w'). Qed.

Lemma find_active_totp_run u w o w' :
  find_active_totp_factor u w = (Ok o, w') → w_db w' = w_db w
  ∧ found row_to_factor (List.find (active_totp u) (tf_factors (db_factors (w_db w)))) o.
Proof. exact (find_read (λ t, List.find (active_totp u) (tf_factors t)) _ _ w o w'). Qed.

Lemma find_challenge_run i w o w' :
  find_challenge i w = (Ok o, w') → w_db w' = w_db w
  ∧ found row_to_challenge (List.find (challenge_is i) (tf_challenges (db_factors (w_db w)))) o.
Proof. exact (find_read (λ t, List.find (challenge_is i) (tf_challenges t)) _ _ w o w'). Qed.

Lemma find_enrollment_run i w o w' :
  find_totp_enrollment i w = (Ok o, w') → w_db w' = w_db w
  ∧ found row_to_totp_enrollment
      (List.find (λ r, enrollment_is i r && is_none (er_consumed_at r))
         (tf_enrollments (db_factors (w_db w)))) o.
Proof.
  exact (find_read (λ t, List.find (λ r, enrollment_is i r && is_none (er_consumed_at r))
    (tf_enrollments t)) _ _ w o w').
Qed.

Lemma find_ceremony_run i w o w' :
  find_webauthn_challenge i w = (Ok o, w') → w_db w' = w_db w
  ∧ found row_to_webauthn_challenge
      (List.find (ceremony_is i) (tf_ceremonies (db_factors (w_db w)))) o.
Proof. exact (find_read (λ t, List.find (ceremony_is i) (tf_ceremonies t)) _ _ w o w'). Qed.

Lemma find_credential_run i w o w' :
  find_webauthn_credential_by_id i w = (Ok o, w') → w_db w' = w_db w
  ∧ found row_to_webauthn_credential
      (List.find (credential_is i) (tf_credentials (db_factors (w_db w)))) o.
Proof. exact (find_read (λ t, List.find (credential_is i) (tf_credentials t)) _ _ w o w'). Qed.

Lemma active_totp_run `{Vault} `{TwoFactorConfig} u w o w' :
  Service.active_totp_factor u w = (Ok o, w') →
  w_db w' = w_db w
  ∧ match o with
    | Some (f, s) => ∃ r, List.find (active_totp u) (tf_factors (db_factors (w_db w))) = Some r
        ∧ row_to_factor r = Ok f
        ∧ ∃ r' encrypted, List.find (factor_is (f_id f)) (tf_factors (db_factors (w_db w))) = Some r'
           ∧ fr_totp_secret_encrypted r' = Some encrypted
           ∧ Service.open_secret encrypted
               (λ e, Storage ("invalid secret: " +:+ factor_error_text e)) = Ok s
    | None => True
    end.
Proof.
  unfold Service.active_totp_factor, Service.repo. intros Hr. inv_bind Hr.
  apply map_err_ok, find_active_totp_run in R as [Hdb Ho]. destruct a as [f|]; [|by injection Hr as <- <-].
  destruct Ho as (r & Hf & Hrow). inv_bind Hr. apply map_err_ok in R.
  unfold find_totp_secret_encrypted in R. inv_bind R.
  apply map_err_ok, select_run in R0 as (Hdb1 & -> & _). injection R as <- <-.
  rewrite Hdb in *.
  destruct (List.find (factor_is (f_id f)) _) as [r'|] eqn:Ef;
    [|injection Hr as <- <-; split; [congruence | done]].
  destruct (fr_totp_secret_encrypted r') as [enc|] eqn:Ee;
    [|injection Hr as <- <-; split; [congruence | done]].
  inv_bind Hr. apply lift_ok in R as [R ->]. injection Hr as <- <-. split; [congruence|].
  exists r. split_and!; [done..|]. by exists r', enc.
Qed.

Lemma record_used_step_run s f w g w' :
  record_used_step s f w = (Ok g, w') → w_db w' = w_db w ∧ advance f g
    ∧ f_last_used_step g = Some s ∧ replayed s f = false.
Proof.
  unfold record_used_step. destruct (factor_usable f) eqn:Eu; [|done]. cbn [negb].
  destruct (replayed s f) eqn:E; [done|]. intros [= <- <-]. split_and!; try done. by constructor.
Qed.
End reads.

(** ** The two-factor service *)

Section kept_service.
Context `{Env} `{Vault} `{FactorCrypto} `{CookieCrypto} `{TwoFactorCrypto} `{TwoFactorConfig}.
Context (n0 : nat) (c : option Uuid) (J : FactorTables → Prop) `{!Stable c J}.
Hypothesis fresh : ∀ k, (n0 ≤ k)%nat → Some (new_v4 k) ≠ c.
Abbreviation S m := (within (stays n0 J) m).

Lemma kept_audit_or_fail actor action outcome build :
  S (Service.audit_or_fail actor action outcome build).
Proof using Type. unfold Service.audit_or_fail. within_tac. Qed.

Lemma kept_active_totp_factor u : S (Service.active_totp_factor u).
Proof using Type.
  unfold Service.active_totp_factor, Service.repo, find_active_totp_factor,
    find_totp_secret_encrypted, labelled. within_tac.
Qed.

Lemma kept_encrypt key p : S (encrypt_to_storage key p).
Proof using Type. unfold encrypt_to_storage. within_tac. Qed.

Lemma kept_recovery_hash p : S (recovery_hash p).
Proof using Type. intros w. unfold recovery_hash. destruct (bcrypt_hash _ _); apply stays_tick. Qed.

Lemma kept_generate_entries {E} n : S (generate_entries (E:=E) n).
Proof using Type.
  pose proof kept_recovery_hash.
  induction n; cbn [generate_entries]; unfold generate_recovery_code; within_tac.
Qed.

Lemma kept_hash_codes l t : S (Service.hash_plaintext_codes l t).
Proof using Type.
  pose proof kept_recovery_hash. induction l; cbn [Service.hash_plaintext_codes]; within_tac.
Qed.

Lemma kept_renew_codes u t : S (Service.renew_codes u t).
Proof using Type*.
  pose proof (λ n, kept_generate_entries (E:=TwoFactorError) n). pose proof kept_hash_codes.
  unfold Service.renew_codes, generate_code_set, Service.repo. within_tac.
Qed.

Lemma kept_enroll_totp u a n t : S (Service.enroll_totp u a n t).
Proof using Type*.
  pose proof kept_encrypt. unfold Service.enroll_totp, Service.repo. within_tac.
Qed.

Lemma advance_id f g : advance f g → f_id g = f_id f.
Proof using Type. by destruct 1. Qed.

(** Sequencing after a step that keeps the database. *)
Lemma kept_then {E B} (m : M World E B) w w' :
  stays n0 J w w' → S m → stays n0 J w (m w').2.
Proof using Type. intros Hw Hm. etransitivity; [exact Hw | apply Hm]. Qed.

Lemma kept_record_used_step s f : S (record_used_step s f).
Proof using Type. unfold record_used_step. within_tac. Qed.

Lemma kept_verify_totp_enrollment a u e code t : S (Service.verify_totp_enrollment a u e code t).
Proof using Type*.
  pose proof kept_renew_codes. pose proof kept_audit_or_fail.
  unfold Service.verify_totp_enrollment, Service.repo, find_totp_enrollment, labelled.
  within_step; [within_tac|]. intros o. within_step; [within_tac|]. intros en.
  within_step. intros secret _. within_step. intros step _. within_step; [within_tac|].
  intros consumed. destruct (negb consumed); [within_tac|].
  apply stays_bind_fresh with (c := c); [exact fresh|]. intros fid Hfid.
  apply within_bind_run; [apply within_map_err, kept_record_used_step |].
  intros w g w' Hrun HR. apply map_err_ok, record_used_step_run in Hrun as (_ & Hadv & _).
  apply (kept_then _ _ _ HR). apply advance_id in Hadv.
  within_step; [|within_tac]. apply within_map_err, (kept_insert_factor n0 c J). rewrite Hadv. exact Hfid.
Qed.

Lemma kept_verify_totp_code u code t : S (Service.verify_totp_code u code t).
Proof using Type*.
  intros w. unfold Service.verify_totp_code, Service.repo. apply bind_at; [apply _|apply kept_active_totp_factor|].
  intros o w1 Hrun. apply active_totp_run in Hrun as [Hdb Ho]. destruct o as [[f s]|];
    [|apply within_throw; apply _]. destruct Ho as (r & [Hin _]%List.find_some & Hrow & _).
  apply bind_at; [apply _|apply within_lift; apply _|]. intros step w2 [_ ->]%lift_ok.
  apply bind_at; [apply _|apply map_err_at, kept_record_used_step|].
  intros g w3 (Hdb3 & Hadv & _)%map_err_ok%record_used_step_run.
  apply bind_at; [apply _| |intros _ w4 _; apply within_ret; apply _].
  apply map_err_at, (kept_update_factor _ c _ r f); [|done..]. by rewrite Hdb3, Hdb.
Qed.

Lemma kept_revoke_credentials f t l : S (Service.revoke_credentials f t l).
Proof using Type*. induction l; cbn [Service.revoke_credentials]; unfold Service.repo; within_tac. Qed.

Lemma kept_revoke_factor a u f t : S (Service.revoke_factor a u f t).
Proof using Type*.
  pose proof kept_revoke_credentials. pose proof kept_audit_or_fail.
  intros w. unfold Service.revoke_factor, Service.repo. apply bind_at; [apply _| |].
  { unfold find_factor, labelled. apply within_map_err. within_tac. }
  intros o w1 [Hdb Ho]%map_err_ok%find_factor_run.
  apply bind_at; [apply _|apply within_ok_or; apply _|]. intros g w2 [-> ->]%ok_or_ok.
  destruct Ho as (r & [Hin _]%List.find_some & Hrow).
  destruct (negb (f_user_id g =? u)%N); [apply within_throw; apply _|].
  destruct (negb _); [apply within_ret; apply _|]. cbv zeta.
  apply bind_at; [apply _| |].
  - apply map_err_at, (kept_update_factor _ c _ r g); [by rewrite Hdb|done|constructor].
  - intros _ w3 _. unfold list_webauthn_credentials, labelled.
    match goal with |- stays _ _ _ (?m _).2 => enough (S m) as Hm by apply Hm end. within_tac.
Qed.

Lemma kept_regenerate a u t : S (Service.regenerate_recovery_codes a u t).
Proof using Type*.
  pose proof kept_renew_codes. pose proof kept_audit_or_fail.
  unfold Service.regenerate_recovery_codes. within_tac.
Qed.

Lemma kept_issue_login_challenge u ip ua t : S (Service.issue_login_challenge u ip ua t).
Proof using Type*.
  unfold Service.issue_login_challenge, challenge_create, hash_token, Service.repo.
  apply within_bind_run; [within_tac|]. intros w r w' Hrun HR Hn.
  destruct (HR Hn) as [Hn' HJ]. inv_bind Hrun. injection R as <- <-. inv_bind Hrun.
  injection R as <- <-. inv_bind Hrun. injection R as <- <-. injection Hrun as <- <-.
  match goal with |- _ ∧ (_ → J (db_factors (w_db (?m ?w1).2))) =>
    enough (S m) as Hm; [destruct (Hm w1 Hn') as [? ?]; split; auto|] end.
  within_step; [|within_tac]. apply within_map_err, (kept_insert_challenge n0 c J). cbn. by apply fresh.
Qed.

Lemma kept_list_credentials u : S (list_webauthn_credentials u).
Proof using Type. unfold list_webauthn_credentials, labelled. within_tac. Qed.

Lemma kept_begin_register u n : S (Service.begin_webauthn_register u n).
Proof using Type. unfold Service.begin_webauthn_register. within_tac. Qed.

Lemma kept_persist_register i u s t : S (Service.persist_webauthn_register i u s t).
Proof using Type*. unfold Service.persist_webauthn_register, Service.repo. within_tac. Qed.

Lemma kept_begin_assert u : S (Service.begin_webauthn_assert u).
Proof using Type*.
  pose proof kept_list_credentials. unfold Service.begin_webauthn_assert, Service.repo. within_tac.
Qed.

Lemma kept_begin_login i tok t : S (Service.begin_webauthn_login i tok t).
Proof using Type*.
  pose proof kept_begin_assert.
  unfold Service.begin_webauthn_login, Service.repo, verify_challenge_token. within_tac.
Qed.

Lemma kept_count_codes u : S (Service.count_recovery_codes u).
Proof using Type.
  unfold Service.count_recovery_codes, Service.repo, list_recovery_codes, labelled. within_tac.
Qed.

Lemma kept_finish_assert a i r t : S (Service.finish_webauthn_assert a i r t).
Proof using Type*.
  pose proof kept_audit_or_fail.
  unfold Service.finish_webauthn_assert, Service.repo, find_webauthn_credential_by_id, labelled.
  within_tac.
Qed.

Lemma kept_factor_verdict a u r t : S (Service.factor_verdict a u r t).
Proof using Type*.
  pose proof kept_finish_assert.
  destruct r; cbn [Service.factor_verdict]; [apply within_try_run..|within_tac].
  - apply kept_verify_totp_code.
  - unfold Service.verify_recovery_code, Service.repo. within_tac.
Qed.

Lemma kept_verify_login_challenge a i tok r t :
  S (Service.verify_login_challenge_with_factor a i tok r t).
Proof using Type*.
  pose proof kept_audit_or_fail. pose proof kept_factor_verdict.
  unfold Service.verify_login_challenge_with_factor, Service.repo, verify_challenge_token.
  within_tac.
Qed.

Lemma kept_list_factors u : S (list_factors_for_user u).
Proof using Type. unfold list_factors_for_user, labelled. within_tac. Qed.

Lemma kept_accept_remember_device ck ua ip t : S (Service.accept_remember_device ck ua ip t).
Proof using Type.
  pose proof kept_list_factors. unfold Service.accept_remember_device, Service.repo. within_tac.
Qed.

Lemma kept_has_active_factor u : S (Service.has_active_factor u).
Proof using Type.
  pose proof kept_list_factors. unfold Service.has_active_factor, Service.repo. within_tac.
Qed.

(** After a successful insert the factor is in the table. *)
Lemma insert_factor_run f secret w x w' :
  insert_factor f secret w = (Ok x, w') →
  In (factor_row f secret) (tf_factors (db_factors (w_db w'))).
Proof using Type.
  intros Hr%map_err_ok. unfold statement in Hr. destruct (sql_fault _); [done|].
  destruct (insert_factor_row _ _) as [[[] d']|] eqn:Hs; [|done]. injection Hr as _ <-.
  insert_cases. injection Hs as <-. cbn. apply in_app_iff. right. by left.
Qed.

Lemma kept_finish_register a i u r t : S (Service.finish_webauthn_register a i u r t).
Proof using Type*.
  pose proof kept_audit_or_fail. pose proof kept_renew_codes. pose proof kept_count_codes.
  unfold Service.finish_webauthn_register, Service.repo.
  within_step; [within_tac|]. intros o. within_step; [within_tac|]. intros m.
  destruct (negb (m_user_id m =? u)%N || _); [within_tac|]. within_step. intros cred _.
  apply stays_bind_fresh with (c := c); [exact fresh|]. intros fid Hfid w.
  apply bind_at; [apply _|apply map_err_at, (kept_insert_factor n0 c J); done|].
  intros x w1 Hin%map_err_ok%insert_factor_run.
  apply bind_at; [apply _| |].
  - apply map_err_at, (kept_insert_credential n0 c J); [done| |done].
    by exists (factor_row (new_verified fid u WebAuthnKind t) "").
  - intros _ w2 _.
    match goal with |- stays _ _ _ (?m _).2 => enough (S m) as Hm by apply Hm end. within_tac.
Qed.
End kept_service.

(** ** The two services together *)

Section services.
Context `{Env} `{Vault} `{FactorCrypto} `{CookieCrypto} `{TwoFactorCrypto} `{TwoFactorConfig}.

Inductive TwoFactorOp : Type :=
| OpEnroll (user : Uuid) (actor account : string) (t : DateTime)
| OpVerifyEnrollment (actor : string) (user enrollment : Uuid) (code : string) (t : DateTime)
| OpRevokeFactor (actor : string) (user factor : Uuid) (t : DateTime)
| OpRegenerate (actor : string) (user : Uuid) (t : DateTime)
| OpChallenge (user : Uuid) (ip ua : option string) (t : DateTime)
| OpVerifyLogin (actor : string) (challenge : Uuid) (token : string)
    (response : FactorResponse) (t : DateTime)
| OpPersistRegister (ceremony user : Uuid) (state : string) (t : DateTime)
| OpBeginAssert (user : Uuid)
| OpBeginLogin (challenge : Uuid) (token : string) (t : DateTime)
| OpFinishRegister (actor : string) (ceremony user : Uuid) (response : Json) (t : DateTime)
| OpFinishAssert (actor : string) (ceremony : Uuid) (response : Json) (t : DateTime).

Definition run_factor (op : TwoFactorOp) (w : World) : World :=
  match op with
  | OpEnroll u a n t => (Service.enroll_totp u a n t w).2
  | OpVerifyEnrollment a u e code t => (Service.verify_totp_enrollment a u e code t w).2
  | OpRevokeFactor a u f t => (Service.revoke_factor a u f t w).2
  | OpRegenerate a u t => (Service.regenerate_recovery_codes a u t w).2
  | OpChallenge u ip ua t => (Service.issue_login_challenge u ip ua t w).2
  | OpVerifyLogin a i tok r t => (Service.verify_login_challenge_with_factor a i tok r t w).2
  | OpPersistRegister i u s t => (Service.persist_webauthn_register i u s t w).2
  | OpBeginAssert u => (Service.begin_webauthn_assert u w).2
  | OpBeginLogin i tok t => (Service.begin_webauthn_login i tok t w).2
  | OpFinishRegister a i u r t => (Service.finish_webauthn_register a i u r t w).2
  | OpFinishAssert a i r t => (Service.finish_webauthn_assert a i r t w).2
  end.

(** Either service takes a step; the identity service calls this two-factor service. *)
Inductive auth_step : World → World → Prop :=
| AuthIdentity op w : auth_step w (run_op op w)
| AuthFactor op w : auth_step w (run_factor op w).

Section kept.
Context (n0 : nat) (c : option Uuid) (J : FactorTables → Prop) `{!Stable c J}.
Hypothesis fresh : ∀ k, (n0 ≤ k)%nat → Some (new_v4 k) ≠ c.
Abbreviation S m := (within (stays n0 J) m).

Lemma kept_run_factor op w : stays n0 J w (run_factor op w).
Proof using Type*.
  destruct op; cbn [run_factor].
  - by eapply kept_enroll_totp.
  - by eapply kept_verify_totp_enrollment.
  - by eapply kept_revoke_factor.
  - by eapply kept_regenerate.
  - by eapply kept_issue_login_challenge.
  - by eapply kept_verify_login_challenge.
  - by eapply kept_persist_register.
  - by eapply kept_begin_assert.
  - by eapply kept_begin_login.
  - by eapply kept_finish_register.
  - by eapply kept_finish_assert.
Qed.

Lemma kept_statement_users {A} (f : Db → result (A * Db) string) :
  (∀ d a d', f d = Ok (a, d') → db_factors d' = db_factors d) → S (statement f).
Proof using Type. intros Hf. apply stays_statement. by intros d a d' ->%Hf. Qed.

Lemma kept_update_users i f : S (update_users i f).
Proof using Type. by apply stays_execute. Qed.

Lemma kept_users_insert u : S (users_insert u).
Proof using Type.
  apply kept_statement_users. intros d a d' Hs. unfold insert_user_row in Hs.
  repeat match goal with H : context [if ?b then _ else _] |- _ => destruct b; [done|] end.
  by injection Hs as _ <-.
Qed.

Lemma kept_sessions_insert s : S (sessions_insert s).
Proof using Type.
  apply kept_statement_users. intros d a d' Hs. unfold insert_session_row in Hs.
  destruct (existsb _ _) in Hs; [done|]. destruct (existsb _ _) in Hs; [done|].
  destruct (existsb _ _) in Hs; [|done]. by injection Hs as _ <-.
Qed.

Lemma kept_users_delete i : S (users_delete i).
Proof using Type*.
  apply stays_statement. intros d a d' Hs. unfold delete_user_row in Hs.
  destruct (_ && _); [done|]. injection Hs as _ <-. apply st_cascade.
Qed.

Lemma kept_purge : S purge_expired.
Proof using Type.
  unfold purge_expired. within_tac. apply kept_statement_users. by intros d a' d' [= _ <-].
Qed.

Lemma kept_password_hash p : S (password_hash p).
Proof using Type.
  unfold password_hash. within_tac. intros w. destruct (argon2_hash _ _); apply stays_tick.
Qed.

Lemma kept_session_new u r t ip ua : S (session_new u r t ip ua).
Proof using Type. intros w. unfold stays. cbn. intros ?. split; [lia | done]. Qed.

Lemma kept_issue_session u ip ua : S (issue_session u ip ua).
Proof using Type.
  pose proof kept_session_new. pose proof kept_sessions_insert. pose proof kept_update_users.
  unfold issue_session, sessions_touch, users_update_last_login. within_tac.
  by apply stays_execute.
Qed.

Lemma kept_fetch_user p : S (fetch_user p).
Proof using Type. unfold fetch_user. within_tac. Qed.

Lemma kept_cookie_accepted u ck ip ua t : S (cookie_accepted u ck ip ua t).
Proof using Type.
  pose proof (kept_accept_remember_device n0 J ck (default "" ua) (default "" ip) t) as Hc.
  intros w. specialize (Hc w). unfold cookie_accepted, audit_failure.
  change (accept_remember_device ck) with (Service.accept_remember_device ck).
  destruct (Service.accept_remember_device _ _ _ t w) as [[[cu f]|e] w1]; cbn in Hc;
    [destruct (negb _)|]; (etransitivity; [exact Hc|]);
    apply bind_at; try apply _; intros; (apply stays_audit || apply within_ret; apply _).
Qed.

Lemma kept_login n p ip ua ck : S (login n p ip ua ck).
Proof using Type*.
  pose proof kept_issue_session. pose proof kept_cookie_accepted. pose proof kept_fetch_user.
  pose proof (kept_has_active_factor n0 J). pose proof (kept_issue_login_challenge n0 c J fresh).
  unfold login, find_login, audit_failure, users_find_by_username, users_find_by_email.
  cbn [has_active_factor issue_login_challenge panel_two_factor]. within_tac.
Qed.

Lemma kept_run_op op w : stays n0 J w (run_op op w).
Proof using Type*.
  pose proof kept_update_users. pose proof kept_users_insert. pose proof kept_users_delete.
  pose proof kept_fetch_user. pose proof kept_password_hash. pose proof kept_issue_session.
  pose proof (kept_verify_login_challenge n0 c J).
  assert (∀ i, S (sessions_delete_for_user i)) by (intros i; by apply stays_execute).
  assert (∀ i, S (sessions_delete i)) by (intros i; by apply stays_execute).
  destruct op; cbn [run_op];
    match goal with |- stays _ _ _ (?m _).2 => enough (S m) as Hm by apply Hm end.
  - unfold create_user_with_parents, users_find_by_username, users_find_by_email. within_tac.
  - unfold update_parent_account_id, users_update_parent_account_id, require_user, users_find_by_id. within_tac.
  - unfold update_hosting_plan_id, users_update_hosting_plan_id, require_user, users_find_by_id. within_tac.
  - unfold change_role, users_update_role, require_user, users_find_by_id. within_tac.
  - unfold disable_user, users_disable, require_user, users_find_by_id. within_tac.
  - unfold enable_user, users_enable, require_user, users_find_by_id. within_tac.
  - unfold delete_user, users_count, require_user, users_find_by_id. within_tac.
  - unfold change_password, users_update_password. within_tac.
  - apply kept_login.
  - unfold verify_login_factor_with_factor, require_user, users_find_by_id.
    cbn [verify_login_challenge_with_factor panel_two_factor]. within_tac.
  - unfold logout, require_session, find_by_token_hash_match. within_tac.
  - unfold resolve_session, require_session, find_by_token_hash_match, require_user,
      users_find_by_id. within_tac.
  - apply kept_purge.
Qed.

(** A stable fact survives every sequence of operations. *)
Lemma kept_steps w w' :
  rtc auth_step w w' → (n0 ≤ w_step w)%nat → J (db_factors (w_db w)) →
  (n0 ≤ w_step w')%nat ∧ J (db_factors (w_db w')).
Proof using Type*.
  induction 1 as [w|w w1 w' Hstep _ IH]; [done|]. intros Hn HJ.
  assert (stays n0 J w w1) as Hs
    by (destruct Hstep; [apply kept_run_op | apply kept_run_factor]; done).
  destruct (Hs Hn) as [Hn1 HJ1]. auto.
Qed.
End kept.
End services.
