(* ===== verification/TwoFactorSafety.v ===== *)
(** * Second factors are used once, and revoked for good

    The facts about the second-factor tables that every operation keeps, and what they
    give: pending logins, recovery codes and TOTP steps are accepted once, a revoked
    factor is never accepted again.  The last part is about enrollment. *)
From S2P Require Import Prelude Text Net AuditActions AuditLog Accounts Store Users Identity Secrets Factors FactorRepo Remember TwoFactor TwoFactorKept.

(** ** The invariant of the second-factor tables *)

Definition factor_row_ok (r : FactorRow) : Prop := is_none (parse_kind (fr_kind r)) = false.
Definition credential_row_ok (r : CredentialRow) : Prop :=
  is_none (parse_uv (wr_uv_policy r)) = false.

Record factors_wf (t : FactorTables) : Prop := {
  wf_factor_ids : NoDup (map fr_id (tf_factors t));
  wf_factor_rows : Forall factor_row_ok (tf_factors t);
  wf_challenge_ids : NoDup (map lc_id (tf_challenges t));
  wf_code_ids : NoDup (map rc_id (tf_recovery t));
  wf_code_seq : ∀ r, In r (tf_recovery t) → (rc_id r ≤ tf_recovery_seq t)%Z;
  wf_credential_ids : NoDup (map wr_credential_id (tf_credentials t));
  wf_credential_rows : Forall credential_row_ok (tf_credentials t);
  wf_owned : ∀ r, In r (tf_credentials t) → owns_credential t r
}.

(** Rows keep their key under an update, and updated rows keep a property. *)
Lemma update_where_Forall {A} (P : A → Prop) p f (t : list A) :
  (∀ r, P r → P (f r)) → Forall P t → Forall P (update_where p f t).
Proof.
  intros Hf. unfold update_where. induction 1; cbn; constructor; [|done]. destruct (p _); auto.
Qed.

Lemma delete_where_Forall {A} (P : A → Prop) p (t : list A) :
  Forall P t → Forall P (delete_where p t).
Proof.
  rewrite !List.Forall_forall. intros Ht r [Hr _]%delete_where_In. auto.
Qed.

Lemma key_absent {A K} (key : A → K) (eqb : K → K → bool) (k : K) (t : list A) :
  (∀ a b, eqb a b = true ↔ a = b) →
  existsb (λ r, eqb (key r) k) t = false → ~ In k (map key t).
Proof.
  intros Heq Hno (r & Hk & Hr)%in_map_iff. rewrite existsb_false in Hno.
  specialize (Hno r Hr). rewrite Hk in Hno. assert (eqb k k = true) by by apply Heq. congruence.
Qed.

(** Credentials stay owned when the factors keep their identity columns. *)
Lemma owned_update t p f r :
  (∀ x, fr_id (f x) = fr_id x ∧ fr_user_id (f x) = fr_user_id x ∧ fr_kind (f x) = fr_kind x) →
  owns_credential t r → owns_credential (with_factors (update_where p f (tf_factors t)) t) r.
Proof.
  intros Hf (x & Hx & Hid & Hu & Hk). exists (if p x then f x else x). split.
  - cbn. apply update_where_In. eauto.
  - destruct (p x); [|done]. destruct (Hf x) as (-> & -> & ->). done.
Qed.

Lemma owned_cascade u t r :
  owns_credential t r → wr_user_id r ≠ u → owns_credential (delete_user_factors u t) r.
Proof.
  intros (x & Hx & Hid & Hu & Hk) Hne. exists x. split; [|done]. cbn. apply delete_where_In.
  split; [done|]. apply N.eqb_neq. congruence.
Qed.

#[export] Instance factors_wf_stable c : Stable c factors_wf.
Proof.
  split.
  - intros u t [H1 H2 H3 H4 H5 H6 H7 H8].
    split; cbn; try (by apply delete_where_NoDup); try by apply delete_where_Forall.
    + intros r [Hr _]%delete_where_In. auto.
    + intros r [Hr Hne%N.eqb_neq]%delete_where_In. apply owned_cascade; auto.
  - intros r t _ Hno Hk [H1 H2 H3 H4 H5 H6 H7 H8]. split; cbn; try done.
    + apply NoDup_snoc; [done|]. by apply (key_absent fr_id N.eqb _ _ N.eqb_eq).
    + apply Forall_app; split; [done|]. by constructor.
    + intros x (f & Hf & ?)%H8. exists f. split; [|done]. cbn. apply in_app_iff. by left.
  - intros r f g t _ _ _ [H1 H2 H3 H4 H5 H6 H7 H8]. split; cbn; try done.
    + by rewrite update_where_key.
    + by apply update_where_Forall.
    + intros x Hx. by apply owned_update, H8.
  - intros r t _ Hno [H1 H2 H3 H4 H5 H6 H7 H8]. split; cbn; try done.
    apply NoDup_snoc; [done|]. by apply (key_absent lc_id N.eqb _ _ N.eqb_eq).
  - intros i m t [H1 H2 H3 H4 H5 H6 H7 H8]. split; cbn; try done. by rewrite update_where_key.
  - intros u t [H1 H2 H3 H4 H5 H6 H7 H8]. split; cbn; try done; [by apply delete_where_NoDup|].
    intros r [Hr _]%delete_where_In. auto.
  - intros u h m t [H1 H2 H3 H4 H5 H6 H7 H8]. split; cbn; try done.
    + apply NoDup_snoc; [done|]. cbn. intros (r & Hid & Hr)%in_map_iff. apply H5 in Hr. lia.
    + intros r [Hr|[<-|[]]]%in_app_iff; [apply H5 in Hr; lia | cbn; lia].
  - intros i m t [H1 H2 H3 H4 H5 H6 H7 H8]. split; cbn; try done; [by rewrite update_where_key|].
    intros r (x & Hx & ->)%update_where_In. apply H5 in Hx. by destruct (recovery_is i x).
  - by intros x t [].
  - by intros x t [].
  - intros r t _ Hown Hno Hk [H1 H2 H3 H4 H5 H6 H7 H8]. split; cbn; try done.
    + apply NoDup_snoc; [done|]. by apply (key_absent wr_credential_id String.eqb _ _ String.eqb_eq).
    + apply Forall_app; split; [done|]. by constructor.
    + intros x [Hx|[<-|[]]]%in_app_iff; [by apply H8 | done].
  - intros i n m t [H1 H2 H3 H4 H5 H6 H7 H8]. split; cbn; try done.
    + by rewrite update_where_key.
    + by apply update_where_Forall.
    + intros x (y & Hy & ->)%update_where_In. apply H8 in Hy. by destruct (credential_is i y).
  - intros i m t [H1 H2 H3 H4 H5 H6 H7 H8]. split; cbn; try done.
    + by rewrite update_where_key.
    + by apply update_where_Forall.
    + intros x (y & Hy & ->)%update_where_In. apply H8 in Hy. by destruct (credential_is i y).
Qed.

(** ** Facts that last *)

(** The pending login [c], if still stored, has been used. *)
Definition spent (c : Uuid) (t : FactorTables) : Prop :=
  ∀ r, In r (tf_challenges t) → lc_id r = c → is_none (lc_consumed_at r) = false.

#[export] Instance spent_stable c : Stable (Some c) (spent c).
Proof.
  split; try (by intros); try (by intros ? ? ? ? ? ? ? ?).
  - intros u t HJ r [Hr _]%delete_where_In. by apply HJ.
  - intros r t Hne _ HJ x [Hx|[<-|[]]]%in_app_iff; [by apply HJ | congruence].
  - intros i m t HJ x (r & Hr & ->)%update_where_In. destruct (challenge_is i r); [done|].
    by apply HJ.
Qed.

(** The recovery code with key [k], if still stored, has been used, and no new code
    takes that key. *)
Definition used (k : Z) (t : FactorTables) : Prop :=
  (k ≤ tf_recovery_seq t)%Z
  ∧ ∀ r, In r (tf_recovery t) → rc_id r = k → is_none (rc_consumed_at r) = false.

#[export] Instance used_stable c k : Stable c (used k).
Proof.
  split; try (by intros); try (by intros ? ? ? ? ? ? ? ?).
  - intros u t [Hs HJ]. split; [done|]. intros r [Hr _]%delete_where_In. by apply HJ.
  - intros u t [Hs HJ]. split; [done|]. intros r [Hr _]%delete_where_In. by apply HJ.
  - intros u h m t [Hs HJ]. split; [cbn; lia|].
    intros r [Hr|[<-|[]]]%in_app_iff; [by apply HJ|]. cbn. lia.
  - intros i m t [Hs HJ]. split; [done|]. intros x (r & Hr & ->)%update_where_In.
    destruct (recovery_is i r); [done|]. by apply HJ.
Qed.

(** The row a factor was read from is the only one an update writes. *)
Lemma advanced_row t r f g x :
  NoDup (map fr_id (tf_factors t)) → In r (tf_factors t) → row_to_factor r = Ok f →
  In x (update_where (factor_is (f_id f)) (factor_row_set g) (tf_factors t)) →
  (In x (tf_factors t) ∧ fr_id x ≠ fr_id r) ∨ x = factor_row_set g r.
Proof.
  intros Hnd Hr Hrow (y & Hy & ->)%update_where_In. unfold row_to_factor in Hrow.
  destruct (parse_kind (fr_kind r)); [|done]. injection Hrow as <-. cbn.
  unfold factor_is. destruct (N.eqb_spec (fr_id y) (fr_id r)) as [He|Hne]; [|by left].
  right. f_equal. by eapply (NoDup_key_inj fr_id).
Qed.

Lemma row_to_factor_columns r f :
  row_to_factor r = Ok f →
  f_id f = fr_id r ∧ f_user_id f = fr_user_id r ∧ f_revoked_at f = fr_revoked_at r
  ∧ f_last_used_step f = fr_last_used_step r ∧ kind_str (f_kind f) = fr_kind r.
Proof.
  unfold row_to_factor, parse_kind.
  destruct (String.eqb_spec (fr_kind r) "totp") as [E|_];
    [|destruct (String.eqb_spec (fr_kind r) "webauthn") as [E|_]; [|done]];
    intros [= <-]; cbn; by rewrite E.
Qed.

(** The last accepted TOTP step of [f] is [s] or later. *)
Definition beyond (f : Uuid) (s : Z) (t : FactorTables) : Prop :=
  NoDup (map fr_id (tf_factors t))
  ∧ ∀ r, In r (tf_factors t) → fr_id r = f →
      ∃ s', fr_last_used_step r = Some s' ∧ (s ≤ s')%Z.

#[export] Instance beyond_stable f s : Stable (Some f) (beyond f s).
Proof.
  split; try (by intros); try (by intros ? ? ? ? ? ? ? ?).
  - intros u t [Hnd HJ]. split; [by apply delete_where_NoDup|].
    intros r [Hr _]%delete_where_In. by apply HJ.
  - intros r t Hne Hno _ [Hnd HJ]. split.
    + apply NoDup_snoc; [done|]. by apply (key_absent fr_id N.eqb _ _ N.eqb_eq).
    + intros x [Hx|[<-|[]]]%in_app_iff; [by apply HJ | congruence].
  - intros r f' g t Hr Hrow Hadv [Hnd HJ]. split; [by cbn; rewrite update_where_key|].
    intros x Hx Hid. destruct (advanced_row t r f' g x Hnd Hr Hrow Hx) as [[Hx' _]| ->]; [by apply HJ|].
    cbn in Hid. destruct (HJ r Hr Hid) as (p & Hp & Hle).
    apply row_to_factor_columns in Hrow as (_ & _ & _ & Hstep & _). cbn.
    destruct Hadv as [s0 t0 f0 _ Hrep|t0 f0]; cbn; [|rewrite Hstep; eauto].
    unfold replayed in Hrep. rewrite Hstep, Hp in Hrep. apply Z.leb_gt in Hrep.
    exists s0. split; [done | lia].
Qed.

(** The factor [f] and its credentials, as far as they are stored, are revoked. *)
Definition retired (f : Uuid) (t : FactorTables) : Prop :=
  NoDup (map fr_id (tf_factors t))
  ∧ (∀ r, In r (tf_factors t) → fr_id r = f → is_none (fr_revoked_at r) = false)
  ∧ (∀ r, In r (tf_credentials t) → wr_factor_id r = f → is_none (wr_revoked_at r) = false).

#[export] Instance retired_stable f : Stable (Some f) (retired f).
Proof.
  split; try (by intros); try (by intros ? ? ? ? ? ? ? ?).
  - intros u t (Hnd & HJ & HC). split_and!; [by apply delete_where_NoDup|..];
      intros r [Hr _]%delete_where_In; auto.
  - intros r t Hne Hno _ (Hnd & HJ & HC). split_and!; [|intros x [Hx|[<-|[]]]%in_app_iff|]; auto.
    + apply NoDup_snoc; [done|]. by apply (key_absent fr_id N.eqb _ _ N.eqb_eq).
    + congruence.
  - intros r f' g t Hr Hrow Hadv (Hnd & HJ & HC). split_and!; [by cbn; rewrite update_where_key| |done].
    intros x Hx Hid. destruct (advanced_row t r f' g x Hnd Hr Hrow Hx) as [[Hx' _]| ->]; [by apply HJ|].
    cbn in Hid |- *. apply row_to_factor_columns in Hrow as (_ & _ & Hrev & _).
    destruct Hadv; cbn; [|done]. rewrite Hrev. by apply HJ.
  - intros r t Hne Hown Hno Huv (Hnd & HJ & HC). split_and!; [done..|].
    intros x [Hx|[<-|[]]]%in_app_iff; [by apply HC | congruence].
  - intros i n m t (Hnd & HJ & HC). split_and!; [done..|].
    intros x (y & Hy & ->)%update_where_In. destruct (credential_is i y); cbn; auto.
  - intros i m t (Hnd & HJ & HC). split_and!; [done..|].
    intros x (y & Hy & ->)%update_where_In. destruct (credential_is i y); cbn; [done|auto].
Qed.

(** ** What a completed login did *)

Definition challenges_of (d : Db) := tf_challenges (db_factors d).

#[export] Instance challenges_of_blind : AuditBlind (same challenges_of).
Proof. done. Qed.
#[export] Instance factors_blind : AuditBlind (same db_factors).
Proof. done. Qed.

Section completed.
Context `{Env} `{Vault} `{FactorCrypto} `{CookieCrypto} `{TwoFactorCrypto} `{TwoFactorConfig}.

Lemma audit_or_fail_run actor action outcome build w x w' :
  Service.audit_or_fail actor action outcome build w = (Ok x, w') →
  db_factors (w_db w') = db_factors (w_db w) ∧ accounts_of (w_db w') = accounts_of (w_db w).
Proof.
  unfold Service.audit_or_fail. intros Hr. inv_bind Hr. injection R as <- <-.
  apply map_err_ok, execute_ok in Hr. by rewrite Hr.
Qed.

Lemma audit_challenges actor action outcome build :
  within (on_db (same challenges_of)) (Service.audit_or_fail actor action outcome build).
Proof.
  unfold Service.audit_or_fail, record. within_tac. apply on_db_execute; [apply _|]. by intros d.
Qed.

Lemma verdict_challenges a u r t :
  within (on_db (same challenges_of)) (Service.factor_verdict a u r t).
Proof.
  pose proof audit_challenges.
  destruct r; cbn [Service.factor_verdict]; [apply within_try_run..|];
    unfold Service.verify_totp_code, Service.active_totp_factor, Service.verify_recovery_code,
      Service.finish_webauthn_assert, Service.repo, consume_recovery_code, update_factor,
      find_active_totp_factor, find_totp_secret_encrypted, consume_webauthn_challenge,
      find_webauthn_challenge, find_webauthn_credential_by_id, touch_webauthn_credential,
      update_credentials, record_used_step, labelled; within_tac;
    try (apply on_db_execute; [apply _|]; by intros d).
  apply on_db_statement; [apply _|]. by intros d a' d' [= _ <-].
Qed.

Lemma consume_challenge_run c t w o w' :
  consume_challenge c t w = (Ok o, w') →
  (∀ row ch, List.find (challenge_is c) (challenges_of (w_db w)) = Some row →
     row_to_challenge row = Ok ch → challenge_usable t ch = true →
     w_db w' = on_factors (λ x, with_challenges
       (update_where (challenge_is c) (challenge_row_consume t) (tf_challenges x)) x) (w_db w)).
Proof.
  unfold consume_challenge. intros Hr row ch Hf Hrow Hus. inv_bind Hr.
  apply find_challenge_run in R as [Hdb Ho]. unfold challenges_of in Hf. rewrite Hf in Ho.
  destruct a as [ch'|]; [|done]. destruct Ho as (r & [= <-] & Hrow').
  rewrite Hrow in Hrow'. injection Hrow' as <-. unfold challenge_consume in Hr.
  rewrite Hus in Hr. cbn [negb] in Hr. inv_bind Hr. injection Hr as <- <-.
  apply map_err_ok, execute_ok in R. by rewrite R, Hdb.
Qed.

Lemma verify_login_run a c tok r t w u f w' :
  Service.verify_login_challenge_with_factor a c tok r t w = (Ok (u, f), w') →
  ∃ row ch kind w1 w2,
    List.find (challenge_is c) (tf_challenges (db_factors (w_db w))) = Some row
    ∧ row_to_challenge row = Ok ch ∧ challenge_usable t ch = true ∧ c_user_id ch = u
    ∧ challenge_verify_token ch tok = true
    ∧ w_db w1 = w_db w ∧ Service.factor_verdict a u r t w1 = (Ok (Ok (f, kind)), w2)
    ∧ db_factors (w_db w') = with_challenges
        (update_where (challenge_is c) (challenge_row_consume t) (tf_challenges (db_factors (w_db w2))))
        (db_factors (w_db w2)).
Proof.
  unfold Service.verify_login_challenge_with_factor, Service.repo. intros Hr. inv_bind Hr.
  apply map_err_ok in R. unfold verify_challenge_token in R. inv_bind R.
  apply find_challenge_run in R0 as [Hdb0 Ho0]. injection R as <- <-.
  destruct (negb _) eqn:Etok; [done|]. inv_bind Hr. apply map_err_ok, find_challenge_run in R as [Hdb1 Ho1].
  inv_bind Hr. apply ok_or_ok in R as [-> ->]. destruct Ho1 as (row & Hf & Hrow). rewrite Hdb0 in *.
  rename a2 into ch, w0 into v.
  assert (challenge_verify_token ch tok = true) as Htok.
  { destruct a1 as [ch'|]; [|done]. destruct Ho0 as (row' & Hf' & Hrow').
    rewrite Hf in Hf'. injection Hf' as <-. rewrite Hrow in Hrow'. injection Hrow' as <-.
    by destruct (challenge_verify_token _ _). }
  destruct (challenge_usable t ch) eqn:Hus; [|done]. cbn [negb] in Hr. apply bind_ok in Hr as (vd & v' & R & Hr).
  pose proof (verdict_challenges a (c_user_id ch) r t v) as Hfr. rewrite R in Hfr. cbn in Hfr.
  destruct vd as [[fac kind]|e]; [|by inv_bind Hr]. inv_bind Hr. apply map_err_ok in R0.
  inv_bind Hr. apply audit_or_fail_run in R1 as [Ha _]. injection Hr as <- <- <-.
  unfold on_db, same, challenges_of in Hfr. rewrite Hdb1 in Hfr.
  eapply consume_challenge_run in R0; [|unfold challenges_of; by rewrite Hfr | done..].
  exists row, ch, kind, v, v'. split_and!; try done. by rewrite Ha, R0.
Qed.
End completed.

(** *** Revoking *)

Section revoked.
Context `{Env} `{Vault} `{FactorCrypto} `{CookieCrypto} `{TwoFactorCrypto} `{TwoFactorConfig}.

(** The loop over the credentials: rows keep their identity, factors are untouched, and
    the rows named by the list under factor [f] are revoked. *)
Lemma revoke_credentials_run f t l w x w' :
  Service.revoke_credentials f t l w = (Ok x, w') →
  tf_factors (db_factors (w_db w')) = tf_factors (db_factors (w_db w))
  ∧ ∀ r', In r' (tf_credentials (db_factors (w_db w'))) →
      is_none (wr_revoked_at r') = false
      ∨ (In r' (tf_credentials (db_factors (w_db w)))
         ∧ ∀ c, In c l → w_factor_id c = f → w_credential_id c ≠ wr_credential_id r').
Proof.
  revert w. induction l as [|c l IH]; cbn [Service.revoke_credentials]; intros w Hr.
  - injection Hr as _ <-. split; [done|]. intros r' Hr'. right. by split.
  - inv_bind Hr. apply IH in Hr as [Hf Hc]. destruct (N.eqb_spec (w_factor_id c) f) as [Hcf|Hne].
    + apply map_err_ok, map_err_ok, execute_ok in R. rewrite R in Hf, Hc. cbn in Hf, Hc.
      split; [done|]. intros r' [Hrev|[Hr' Hl]]%Hc; [by left|].
      apply update_where_In in Hr' as (y & Hy & ->). unfold credential_is in *.
      destruct (String.eqb_spec (wr_credential_id y) (w_credential_id c)); [by left|].
      right. split; [done|]. intros c' [<-|Hin'] Hf'; [congruence | by apply Hl].
    + injection R as _ <-. split; [done|]. intros r' [Hrev|[Hr' Hl]]%Hc; [by left|].
      right. split; [done|]. intros c' [<-|Hin'] Hf'; [done | by apply Hl].
Qed.

(** The credentials listed for an account are its unrevoked rows. *)
Lemma list_credentials_run u w l w' r :
  list_webauthn_credentials u w = (Ok l, w') →
  w_db w' = w_db w
  ∧ (In r (tf_credentials (db_factors (w_db w))) → wr_user_id r = u →
     is_none (wr_revoked_at r) = true →
     ∃ c, In c l ∧ w_credential_id c = wr_credential_id r ∧ w_factor_id c = wr_factor_id r).
Proof.
  unfold list_webauthn_credentials. intros Hr. inv_bind Hr.
  apply map_err_ok, select_run in R as (Hdb & -> & _). apply lift_ok in Hr as [Hc ->].
  split; [done|]. intros Hin Hu Hrev. apply collect_Forall2 in Hc.
  assert (r ∈ merge_sort credential_created_desc
    (select_where (λ r, (wr_user_id r =? u)%N && is_none (wr_revoked_at r))
       (tf_credentials (db_factors (w_db w))))) as Hmem.
  { rewrite merge_sort_Permutation. apply list_elem_of_In, filter_In. split; [done|].
    by rewrite Hu, N.eqb_refl, Hrev. }
  apply list_elem_of_lookup in Hmem as (i & Hi).
  destruct (Forall2_lookup_l _ _ _ _ _ Hc Hi) as (c & Hl & Hrow). exists c.
  split; [apply list_elem_of_In, list_elem_of_lookup; eauto|].
  unfold row_to_webauthn_credential in Hrow. destruct (parse_uv _); [|done].
  by injection Hrow as <-.
Qed.

(** A credential of factor [r] belongs to its account, and [r] is a WebAuthn factor. *)
Lemma owned_by t r x :
  factors_wf t → In r (tf_factors t) → In x (tf_credentials t) → wr_factor_id x = fr_id r →
  wr_user_id x = fr_user_id r ∧ fr_kind r = "webauthn".
Proof.
  intros Hwf Hr (y & Hy & Hid & Hu & Hk)%(wf_owned t Hwf) Hx.
  assert (y = r) as -> by (eapply (NoDup_key_inj fr_id); [apply Hwf|done..|congruence]). done.
Qed.

(** What [revoke_factor] does after its checks. *)
Lemma revoke_credentials_of u f t k w x w' :
  (match k with
   | WebAuthnKind =>
       l <- Service.repo (list_webauthn_credentials u) ;; Service.revoke_credentials f t l
   | TotpKind => ret tt
   end) w = (Ok x, w') →
  tf_factors (db_factors (w_db w')) = tf_factors (db_factors (w_db w))
  ∧ ∀ r, In r (tf_credentials (db_factors (w_db w'))) → wr_factor_id r = f →
      is_none (wr_revoked_at r) = false
      ∨ (In r (tf_credentials (db_factors (w_db w))) ∧ (k = TotpKind ∨ wr_user_id r ≠ u)).
Proof.
  destruct k; intros Hr.
  - injection Hr as _ <-. split; [done|]. intros r Hr _. right. auto.
  - inv_bind Hr. apply map_err_ok in R. pose proof (λ r, list_credentials_run u w a w0 r R) as Hl.
    assert (w_db w0 = w_db w) as Hdb by by apply (Hl (mkCredentialRow 0 0 0 "" "" 0 None "" "" 0 None None)).
    apply revoke_credentials_run in Hr as [Hf Hc]. rewrite Hdb in Hf, Hc. split; [done|].
    intros r [Hrev|[Hin Hno]]%Hc Hrf; [by left|].
    destruct (is_none (wr_revoked_at r)) eqn:Hrev; [|by left]. right. split; [done|]. right.
    intros Hu. destruct (Hl r) as [_ Hlist]. destruct (Hlist Hin Hu Hrev) as (c & Hc' & Hid & Hfc).
    apply (Hno c Hc'); congruence.
Qed.

Lemma revoke_retires a u f t w w' r :
  factors_wf (db_factors (w_db w)) → In r (tf_factors (db_factors (w_db w))) → fr_id r = f →
  is_none (fr_revoked_at r) = true →
  Service.revoke_factor a u f t w = (Ok tt, w') → retired f (db_factors (w_db w')).
Proof.
  intros Hwf Hin Hid Hun Hr. unfold Service.revoke_factor in Hr. inv_bind Hr.
  apply map_err_ok, find_factor_run in R as [Hdb Ho]. inv_bind Hr. apply ok_or_ok in R as [-> ->].
  destruct Ho as (r0 & [Hin0 Hid0%N.eqb_eq]%List.find_some & Hrow).
  assert (r0 = r) as -> by (eapply (NoDup_key_inj fr_id); [apply Hwf|done..|congruence]).
  apply row_to_factor_columns in Hrow as (Hf & Hu & Hrev & _ & Hk).
  destruct (N.eqb_spec (f_user_id a1) u) as [Hua|]; [|done]. rewrite Hrev, Hun in Hr.
  cbn [negb] in Hr. cbv zeta in Hr. inv_bind Hr. apply map_err_ok, map_err_ok, execute_ok in R.
  inv_bind Hr. apply audit_or_fail_run in Hr as [Ha _]. rewrite Ha. clear Ha.
  apply revoke_credentials_of in R0 as [Hfac Hcr]. rewrite R, Hdb in Hfac, Hcr. cbn in Hfac, Hcr.
  split_and!.
  - rewrite Hfac, update_where_key by done. apply Hwf.
  - rewrite Hfac. intros x (y & Hy & ->)%update_where_In Hx. unfold factor_is in *.
    rewrite Hf, Hid in *. destruct (N.eqb_spec (fr_id y) f); done.
  - intros x Hx Hxf. destruct (Hcr x Hx Hxf) as [?|[Hx0 Hor]]; [done|]. exfalso.
    destruct (owned_by _ r x Hwf Hin Hx0) as [Hxu Hkr]; [congruence|].
    destruct Hor as [Hkt|Hne]; [|congruence]. cbn in Hkt. by rewrite <- Hk, Hkt in Hkr.
Qed.
End revoked.

Section completed_codes.
Context `{Env} `{Vault} `{FactorCrypto} `{CookieCrypto} `{TwoFactorCrypto} `{TwoFactorConfig}.

(** A pending login that is spent completes no login. *)
Lemma spent_refused a c tok r t w :
  spent c (db_factors (w_db w)) →
  is_ok (Service.verify_login_challenge_with_factor a c tok r t w).1 = false.
Proof.
  intros Hs. destruct (Service.verify_login_challenge_with_factor a c tok r t w) as [[[u f]|e] w']
    eqn:E; [|done]. exfalso.
  apply verify_login_run in E as (row & ch & _ & _ & _ & Hf & Hrow & Hus & _).
  apply List.find_some in Hf as [Hin Hid%N.eqb_eq]. specialize (Hs _ Hin Hid).
  injection Hrow as <-. unfold challenge_usable in Hus. cbn in Hus. by destruct (lc_consumed_at row).
Qed.

Lemma completed_spent a c tok r t w u f w' :
  Service.verify_login_challenge_with_factor a c tok r t w = (Ok (u, f), w') →
  spent c (db_factors (w_db w')).
Proof.
  intros (row & ch & kind & w1 & w2 & _ & _ & _ & _ & _ & _ & _ & ->)%verify_login_run.
  intros x (y & Hy & ->)%update_where_In. unfold challenge_is.
  destruct (N.eqb_spec (lc_id y) c); [done|]. done.
Qed.

(** What a successful TOTP check read and wrote. *)
Lemma verify_totp_run u code t w o k w' :
  Service.verify_totp_code u code t w = (Ok (o, k), w') →
  ∃ r f g s secret,
    List.find (active_totp u) (tf_factors (db_factors (w_db w))) = Some r
    ∧ row_to_factor r = Ok f ∧ o = Some (fr_id r) ∧ ts_period secret = 30%Z
    ∧ totp_verify secret code t = Ok s ∧ replayed s f = false
    ∧ f_last_used_step g = Some s
    ∧ db_factors (w_db w') = with_factors
        (update_where (factor_is (fr_id r)) (factor_row_set g) (tf_factors (db_factors (w_db w))))
        (db_factors (w_db w)).
Proof.
  unfold Service.verify_totp_code, Service.repo. intros Hr. inv_bind Hr.
  apply active_totp_run in R as [Hdb Ho]. destruct a as [[f secret]|]; [|done].
  destruct Ho as (r & Hf & Hrow & r' & enc & _ & _ & Hopen). inv_bind Hr.
  apply lift_ok in R as [Hv ->]. apply result_map_err_ok in Hv. inv_bind Hr.
  apply map_err_ok, record_used_step_run in R as (Hdb1 & Hadv & Hstep & Hrep).
  inv_bind Hr. apply map_err_ok, map_err_ok, execute_ok in R. injection Hr as <- _ <-.
  apply advance_id in Hadv as Hid. pose proof (row_to_factor_columns _ _ Hrow) as (Hfid & _).
  exists r, f, a0, a, secret. split_and!; try done; [congruence| |by rewrite R, Hdb1, Hdb, Hid, Hfid].
  unfold Service.open_secret in Hopen. destruct (decrypt_from_storage _ _); [|done].
  cbn in Hopen. destruct (hex_decode _) as [raw|]; [|done]. cbn in Hopen.
  destruct raw; [done|]. by injection Hopen as <-.
Qed.

Lemma verify_recovery_run u code t w o k w' :
  Service.verify_recovery_code u code t w = (Ok (o, k), w') →
  ∃ row, o = None ∧ In row (tf_recovery (db_factors (w_db w)))
    ∧ unused_code u row = true ∧ recovery_verify code (rc_code_hash row) = true
    ∧ db_factors (w_db w') = with_recovery
        (update_where (recovery_is (rc_id row)) (recovery_row_consume t)
           (tf_recovery (db_factors (w_db w))))
        (tf_recovery_seq (db_factors (w_db w))) (db_factors (w_db w)).
Proof.
  unfold Service.verify_recovery_code, Service.repo. intros Hr. inv_bind Hr.
  apply map_err_ok in R. destruct a; [|done]. injection Hr as <- _ <-.
  unfold consume_recovery_code in R. inv_bind R.
  apply map_err_ok, select_run in R0 as (Hdb & -> & _). unfold matching_code in R.
  destruct (List.find _ _) as [row|] eqn:Ef; [|done].
  apply List.find_some in Ef as [[Hin Hun]%filter_In Hv]. inv_bind R. injection R as ->.
  apply map_err_ok, execute_ok in R0. exists row. split_and!; try done. by rewrite R0, Hdb.
Qed.

Definition credentials_of (d : Db) := tf_credentials (db_factors d).

Lemma consume_ceremony_credentials i t :
  within (on_db (same credentials_of)) (consume_webauthn_challenge i t).
Proof.
  unfold consume_webauthn_challenge, find_webauthn_challenge, labelled. within_tac.
  apply on_db_statement; [apply _|]. by intros d a' d' [= _ <-].
Qed.

(** An accepted assertion names a stored credential that is not revoked. *)
Lemma finish_assert_run a i r t w u f w' :
  Service.finish_webauthn_assert a i r t w = (Ok (u, f), w') →
  ∃ row, In row (tf_credentials (db_factors (w_db w))) ∧ wr_user_id row = u
    ∧ wr_factor_id row = f ∧ is_none (wr_revoked_at row) = true.
Proof.
  unfold Service.finish_webauthn_assert, Service.repo. intros Hr.
  pose proof (consume_ceremony_credentials i t w) as Hfr. inv_bind Hr. apply map_err_ok in R.
  rewrite R in Hfr. unfold on_db, same, credentials_of in Hfr. cbn in Hfr.
  inv_bind Hr. apply ok_or_ok in R0 as [-> ->]. destruct (negb _); [done|].
  inv_bind Hr. apply lift_ok in R0 as [_ ->]. cbv zeta in Hr. inv_bind Hr.
  apply map_err_ok, find_credential_run in R0 as [Hdb Ho].
  inv_bind Hr. apply ok_or_ok in R0 as [-> ->].
  destruct Ho as (row & [Hin _]%List.find_some & Hrow). rewrite Hfr in Hin.
  unfold record_assertion, credential_usable in Hr.
  unfold row_to_webauthn_credential in Hrow. destruct (parse_uv _); [|done].
  injection Hrow as <-. cbn in Hr. destruct (is_none (wr_revoked_at row)) eqn:Hrev;
    cbn [negb] in Hr; [|by inv_bind Hr]. destruct (_ <=? _)%Z; [by inv_bind Hr|].
  inv_bind Hr. injection Hr as <- <- _. eauto.
Qed.

Lemma list_factors_run u w l w' :
  list_factors_for_user u w = (Ok l, w') →
  w_db w' = w_db w
  ∧ collect row_to_factor (select_where (factor_of u) (tf_factors (db_factors (w_db w)))) = Ok l.
Proof.
  unfold list_factors_for_user. intros Hr. inv_bind Hr.
  apply map_err_ok, select_run in R as (Hdb & -> & _). by apply lift_ok in Hr as [Hc ->].
Qed.

(** An accepted cookie was signed for a stored factor of the account that is not
    revoked. *)
Lemma accept_run cookie ua ip t w u f w' :
  Service.accept_remember_device cookie ua ip t w = (Ok (u, f), w') →
  ∃ p row, validate_remember_device master_key cookie ua ip t = Ok p ∧ p_user_id p = u
    ∧ p_factor_id p = f ∧ In row (tf_factors (db_factors (w_db w))) ∧ fr_id row = f
    ∧ fr_user_id row = u ∧ is_none (fr_revoked_at row) = true.
Proof.
  unfold Service.accept_remember_device, Service.repo. intros Hr. inv_bind Hr.
  apply lift_ok in R as [Hv ->]. inv_bind Hr. apply map_err_ok, list_factors_run in R as [_ Hc].
  inv_bind Hr. apply ok_or_ok in R as [Hf ->]. injection Hr as <- <- _.
  apply List.find_some in Hf as [Hin [Hid%N.eqb_eq Hrev]%andb_true_iff].
  eapply collect_In in Hin as (row & Hrow & Hdec); [|exact Hc].
  apply filter_In in Hrow as [Hrow Hu%N.eqb_eq].
  apply row_to_factor_columns in Hdec as (Hi & _ & Hr & _). rewrite Hr in Hrev.
  exists a, row. split_and!; congruence.
Qed.

Lemma retired_refused f w :
  retired f (db_factors (w_db w)) →
  (∀ a c tok r t u w', Service.verify_login_challenge_with_factor a c tok r t w
     ≠ (Ok (u, Some f), w'))
  ∧ ∀ cookie ua ip t u w', Service.accept_remember_device cookie ua ip t w ≠ (Ok (u, f), w').
Proof.
  intros (_ & Hfac & Hcr). split.
  - intros a c tok r t u w' (ro & ch & kind & v & v' & _ & _ & _ & _ & _ & Hdb & Hv & _)%verify_login_run.
    destruct r as [code|code|i cred]; cbn in Hv; unfold try_run in Hv.
    + destruct (Service.verify_totp_code u code t v) as [[[o k]|] v2] eqn:E; [|done].
      injection Hv as -> -> ->.
      apply verify_totp_run in E as (row & _ & _ & _ & _ & Hf & _ & [= Hid] & _).
      rewrite Hdb in Hf. apply List.find_some in Hf as [Hin [_ Hrev]%andb_true_iff].
      rewrite Hfac in Hrev; congruence.
    + destruct (Service.verify_recovery_code u code t v) as [[[o k]|] v2] eqn:E; [|done].
      injection Hv as -> -> ->. by apply verify_recovery_run in E as (row & [=] & _).
    + inv_bind Hv. destruct a0 as [u0 f0]. apply finish_assert_run in R as (row & Hin & _ & Hf & Hrev).
      cbn in Hv. destruct (negb _); [done|]. injection Hv as -> _ _. rewrite Hdb in Hin.
      rewrite Hcr in Hrev; congruence.
  - intros cookie ua ip t u w' (p & row & _ & _ & _ & Hin & Hid & _ & Hrev)%accept_run.
    rewrite Hfac in Hrev; congruence.
Qed.
End completed_codes.

(** The 30-second time step, and the last step stored for a factor. *)
Definition time_step (t : DateTime) : Z := Z.quot (timestamp t) 30.
Definition last_step (f : Uuid) (d : Db) : option Z :=
  match List.find (factor_is f) (tf_factors (db_factors d)) with
  | Some r => fr_last_used_step r
  | None => None
  end.

(** ** Properties *)

Section two_factor_properties.
Context `{Env} `{Vault} `{FactorCrypto} `{CookieCrypto} `{TwoFactorCrypto} `{TwoFactorConfig}.

Lemma last_step_updated f g d d' r :
  In r (tf_factors (db_factors d)) → fr_id r = f →
  tf_factors (db_factors d')
    = update_where (factor_is f) (factor_row_set g) (tf_factors (db_factors d)) →
  last_step f d' = f_last_used_step g.
Proof using Type.
  intros Hin Hid Hd. unfold last_step. rewrite Hd. clear Hd.
  induction (tf_factors (db_factors d)) as [|x l IH]; [done|].
  cbn. destruct (factor_is f x) eqn:E; [|cbn; rewrite E; destruct Hin as [->|Hin]].
  - change (factor_is f (factor_row_set g x)) with (factor_is f x). by rewrite E.
  - unfold factor_is in E. rewrite Hid, N.eqb_refl in E. done.
  - by apply IH.
Qed.

(** The step a completed TOTP login stored. *)
Lemma totp_login_step a c tok code t w u f w' :
  Service.verify_login_challenge_with_factor a c tok (Totp code) t w = (Ok (u, Some f), w') →
  ∃ r g s, In r (tf_factors (db_factors (w_db w))) ∧ fr_id r = f
    ∧ match fr_last_used_step r with Some prev => (prev < s)%Z | None => True end
    ∧ (Z.abs (s - time_step t) ≤ 1)%Z ∧ f_last_used_step g = Some s
    ∧ tf_factors (db_factors (w_db w'))
      = update_where (factor_is f) (factor_row_set g) (tf_factors (db_factors (w_db w))).
Proof using Type.
  intros (row & ch & kind & w1 & w2 & _ & _ & _ & _ & _ & Hdb & Hv & Hfin)%verify_login_run.
  cbn in Hv. unfold try_run in Hv. destruct (Service.verify_totp_code u code t w1) as [[[o k]|] w3] eqn:E;
    [|done]. injection Hv as -> -> ->.
  apply verify_totp_run in E as (r & f0 & g & s & secret & Hf & Hrow & [= ->] & Hper & Hs & Hrep & Hg & Hd).
  rewrite Hdb in *. apply List.find_some in Hf as [Hin _].
  exists r, g, s. split_and!; try done.
  - apply row_to_factor_columns in Hrow as (_ & _ & _ & Hst & _). unfold replayed in Hrep.
    rewrite Hst in Hrep. destruct (fr_last_used_step r); [|done]. by apply Z.leb_gt.
  - apply totp_verify_ok in Hs as [Hw _]. unfold current_step in Hw. rewrite Hper in Hw.
    unfold time_step. cbn in Hw. lia.
  - by rewrite Hfin, Hd.
Qed.

(** C2 (pending logins are used once).  Once a pending login has been completed, no
    later sequence of identity and two-factor operations, with statements failing
    anywhere, makes it complete a second login, whatever token and code are presented,
    as long as the generator of random identifiers does not return its identifier
    again. *)
Theorem challenge_single_use a c tok r t w u f w1 w2 :
  Service.verify_login_challenge_with_factor a c tok r t w = (Ok (u, f), w1) →
  (∀ k, (w_step w1 ≤ k)%nat → new_v4 k ≠ c) → rtc auth_step w1 w2 →
  (∀ a' tok' r' t', is_ok (Service.verify_login_challenge_with_factor a' c tok' r' t' w2).1 = false)
  ∧ (∀ tok' r' ip ua, is_ok (verify_login_factor_with_factor c tok' r' ip ua w2).1 = false).
Proof using Type.
  intros Hok%completed_spent Hfresh Hsteps.
  assert (∀ k, (w_step w1 ≤ k)%nat → Some (new_v4 k) ≠ Some c) as Hf
    by (intros k Hk [= Hc]; by apply (Hfresh k)).
  destruct (kept_steps _ _ _ Hf _ _ Hsteps (le_n _) Hok) as [_ Hs].
  split; [intros; by apply spent_refused|]. intros tok' r' ip ua.
  pose proof (spent_refused "two_factor" c tok' r' (utc_now (w_step w2)) (tick w2) Hs) as Hno.
  unfold verify_login_factor_with_factor. erewrite bind_run by reflexivity.
  unfold bind at 1, map_err. cbn [verify_login_challenge_with_factor panel_two_factor].
  by destruct (Service.verify_login_challenge_with_factor _ _ _ _ _ _) as [[]].
Qed.

(** C37 (TOTP steps are used once).  Two logins completed with TOTP codes of the same
    factor, with any operations in between, were accepted at different time steps, the
    later one at a later step; each step is within one of the clock of its login. *)
Theorem totp_step_once a c tok code t w u f w1 w2 a' c' tok' code' t' u' w3 :
  NoDup (map fr_id (tf_factors (db_factors (w_db w)))) →
  Service.verify_login_challenge_with_factor a c tok (Totp code) t w = (Ok (u, Some f), w1) →
  (∀ k, (w_step w1 ≤ k)%nat → new_v4 k ≠ f) → rtc auth_step w1 w2 →
  Service.verify_login_challenge_with_factor a' c' tok' (Totp code') t' w2 = (Ok (u', Some f), w3) →
  ∃ s s', last_step f (w_db w1) = Some s ∧ last_step f (w_db w3) = Some s' ∧ (s < s')%Z
    ∧ (Z.abs (s - time_step t) ≤ 1)%Z ∧ (Z.abs (s' - time_step t') ≤ 1)%Z.
Proof using Type.
  intros Hnd First%totp_login_step Hfresh Hsteps Second%totp_login_step.
  destruct First as (r & g & s & Hin & Hid & _ & Hw & Hg & Hd).
  destruct Second as (r' & g' & s' & Hin' & Hid' & Hlt & Hw' & Hg' & Hd').
  assert (∀ k, (w_step w1 ≤ k)%nat → Some (new_v4 k) ≠ Some f) as Hf
    by (intros k Hk [= Hc]; by apply (Hfresh k)).
  assert (beyond f s (db_factors (w_db w1))) as Hb.
  { split; [by rewrite Hd, update_where_key|]. intros x Hx Hxid. rewrite Hd in Hx.
    apply update_where_In in Hx as (y & Hy & ->). unfold factor_is in *.
    destruct (N.eqb_spec (fr_id y) f); [|done]. cbn. rewrite Hg. eauto with lia. }
  destruct (kept_steps _ _ _ Hf _ _ Hsteps (le_n _) Hb) as [_ [_ Hs]].
  destruct (Hs r' Hin' Hid') as (p & Hp & Hle). rewrite Hp in Hlt.
  exists s, s'. split_and!; try done; [..|lia].
  - by rewrite (last_step_updated f g (w_db w) _ r).
  - by rewrite (last_step_updated f g' (w_db w2) _ r').
Qed.

(** One row leaves a selection. *)
Lemma select_minus_one {A} (key : A → Z) (p : A → bool) g (l : list A) r :
  NoDup (map key l) → In r l → p r = true →
  (∀ x, key (g x) = key x) → p (g r) = false →
  S (length (select_where p (update_where (λ x, (key x =? key r)%Z) g l)))
    = length (select_where p l).
Proof using Type.
  intros Hnd Hin Hp Hk Hg. induction l as [|x l IH]; [done|]. cbn in Hnd.
  apply NoDup_cons in Hnd as [Hx Hnd]. rewrite list_elem_of_In in Hx.
  destruct Hin as [->|Hin].
  - unfold select_where, update_where in *. cbn. rewrite Z.eqb_refl, Hg, Hp. cbn. f_equal. f_equal.
    f_equal. rewrite <- (map_id l) at 2. apply map_ext_in. intros y Hy.
    destruct (Z.eqb_spec (key y) (key r)) as [E|]; [|done].
    exfalso. apply Hx. rewrite <- E. by apply in_map.
  - assert (key x ≠ key r) as Hne%Z.eqb_neq by (intros E; apply Hx; rewrite E; by apply in_map).
    specialize (IH Hnd Hin). unfold select_where, update_where in *. cbn. rewrite Hne.
    destruct (p x); cbn; lia.
Qed.

(** C38 (recovery codes are used once).  A login completed with a recovery code used up
    exactly one unused code of the account, one whose hash verifies the text: the number
    of unused codes drops by one, and whatever happens later no row with that key is
    unused again. *)
Theorem recovery_code_once a c tok code t w u f w1 :
  factors_wf (db_factors (w_db w)) →
  Service.verify_login_challenge_with_factor a c tok (Recovery code) t w = (Ok (u, f), w1) →
  ∃ row, f = None ∧ In row (tf_recovery (db_factors (w_db w)))
    ∧ unused_code u row = true ∧ recovery_verify code (rc_code_hash row) = true
    ∧ tf_recovery (db_factors (w_db w1)) = update_where (recovery_is (rc_id row))
        (recovery_row_consume t) (tf_recovery (db_factors (w_db w)))
    ∧ S (length (select_where (unused_code u) (tf_recovery (db_factors (w_db w1)))))
      = length (select_where (unused_code u) (tf_recovery (db_factors (w_db w))))
    ∧ ∀ w2 r, rtc auth_step w1 w2 → In r (tf_recovery (db_factors (w_db w2))) →
        rc_id r = rc_id row → is_none (rc_consumed_at r) = false.
Proof using Type.
  intros Hwf (ro & ch & kind & v & v' & _ & _ & _ & _ & _ & Hdb & Hv & Hfin)%verify_login_run.
  cbn in Hv. unfold try_run in Hv.
  destruct (Service.verify_recovery_code u code t v) as [[[o k]|] v2] eqn:E; [|done].
  injection Hv as -> -> ->. apply verify_recovery_run in E as (row & -> & Hin & Hun & Hver & Hd).
  rewrite Hdb in *. exists row.
  assert (tf_recovery (db_factors (w_db w1)) = update_where (recovery_is (rc_id row))
    (recovery_row_consume t) (tf_recovery (db_factors (w_db w)))) as Hrec by (by rewrite Hfin, Hd).
  split_and!; try done.
  - rewrite Hrec. apply (select_minus_one rc_id); [apply Hwf|done..|].
    unfold unused_code. cbn. by rewrite andb_false_r.
  - intros w2 r Hsteps Hr Hid.
    assert (used (rc_id row) (db_factors (w_db w1))) as Hu.
    { split; [rewrite Hfin, Hd; by apply Hwf|]. rewrite Hrec.
      intros x (y & Hy & ->)%update_where_In. unfold recovery_is.
      destruct (Z.eqb_spec (rc_id y) (rc_id row)); done. }
    destruct (kept_steps (w_step w1) None _ ltac:(done) _ _ Hsteps (le_n _) Hu) as [_ [_ Hall]].
    by apply Hall.
Qed.

(** Second-factor tables.  Along any sequence of identity and two-factor
    operations, with statements failing anywhere, factor, pending-login, recovery-code
    and credential keys stay unique, the stored kinds and policies decode, no recovery
    code has a key beyond the sequence, and every credential belongs to a WebAuthn
    factor of the same account. *)
Theorem factor_tables_invariant w w' :
  rtc auth_step w w' → factors_wf (db_factors (w_db w)) → factors_wf (db_factors (w_db w')).
Proof using Type.
  intros Hsteps Hwf.
  by destruct (kept_steps (w_step w) None factors_wf ltac:(done) _ _ Hsteps (le_n _) Hwf) as [_ ?].
Qed.

(** C31 (revoked factors).  Once [revoke_factor] has succeeded on a factor that was not
    revoked before, and whose identifier is not drawn again, no later sequence of operations
    makes it count again: no login is completed
    with it, by code or by passkey, and no remembered device bound to it is accepted. *)
Theorem revoked_factor_rejected a u f t w w1 w2 r :
  factors_wf (db_factors (w_db w)) → In r (tf_factors (db_factors (w_db w))) → fr_id r = f →
  is_none (fr_revoked_at r) = true →
  Service.revoke_factor a u f t w = (Ok tt, w1) →
  (∀ k, (w_step w1 ≤ k)%nat → new_v4 k ≠ f) → rtc auth_step w1 w2 →
  (∀ a' c tok r' t' u' w', Service.verify_login_challenge_with_factor a' c tok r' t' w2
     ≠ (Ok (u', Some f), w'))
  ∧ ∀ cookie ua ip t' u' w', Service.accept_remember_device cookie ua ip t' w2 ≠ (Ok (u', f), w').
Proof using Type.
  intros Hwf Hin Hid Hun Hrev Hfresh Hsteps.
  assert (∀ k, (w_step w1 ≤ k)%nat → Some (new_v4 k) ≠ Some f) as Hf
    by (intros k Hk [= Hc]; by apply (Hfresh k)).
  pose proof (revoke_retires _ _ _ _ _ _ _ Hwf Hin Hid Hun Hrev) as Hret.
  destruct (kept_steps _ _ _ Hf _ _ Hsteps (le_n _) Hret) as [_ Hs]. by apply retired_refused.
Qed.

(** C8 (login with a second factor).  With the panel's two-factor service, a password
    login that returns a session was for an account without an unrevoked factor, or
    presented a cookie whose tag verifies under the key derived from the master key,
    that has not expired, matches the request's user agent and address prefix, and names
    an unrevoked factor of this very account. *)
Theorem login_requires_factor name plaintext ip ua remember w u tok w' :
  login name plaintext ip ua remember w = (Ok (Authenticated u tok), w') →
  (∀ r, In r (tf_factors (db_factors (w_db w))) → fr_user_id r = u_id u →
     is_none (fr_revoked_at r) = false)
  ∨ ∃ cookie k p r, remember = Some cookie
      ∧ validate_remember_device master_key cookie (default "" ua) (default "" ip) (utc_now k) = Ok p
      ∧ p_user_id p = u_id u ∧ In r (tf_factors (db_factors (w_db w)))
      ∧ fr_id r = p_factor_id p ∧ fr_user_id r = u_id u ∧ is_none (fr_revoked_at r) = true.
Proof using Type.
  intros (u0 & -> & _ & _ & _ & _ & w1 & Hdb & Hset)%login_authenticated.
  assert (∀ b w2, has_active_factor (u_id u0) w1 = (Ok b, w2) →
    w_db w2 = w_db w ∧ (b = false → ∀ r, In r (tf_factors (db_factors (w_db w))) →
      fr_user_id r = u_id u0 → is_none (fr_revoked_at r) = false)) as Hhas.
  { intros b w2 Hr. cbn in Hr. unfold Service.has_active_factor, Service.repo in Hr. inv_bind Hr.
    apply map_err_ok, list_factors_run in R as [Hdb2 Hc]. injection Hr as <- <-.
    rewrite Hdb in *. split; [done|]. intros Hno r Hr Hu. apply collect_Forall2 in Hc.
    assert (r ∈ select_where (factor_of (u_id u0)) (tf_factors (db_factors (w_db w)))) as Hmem
      by (apply list_elem_of_In, filter_In; split; [done|]; unfold factor_of; by rewrite Hu, N.eqb_refl).
    apply list_elem_of_lookup in Hmem as (i & Hi).
    destruct (Forall2_lookup_l _ _ _ _ _ Hc Hi) as (g & Hl & Hrow).
    apply row_to_factor_columns in Hrow as (_ & _ & Hrev & _). rewrite <- Hrev.
    rewrite existsb_false in Hno. apply Hno, list_elem_of_In, list_elem_of_lookup. eauto. }
  destruct Hset as [(w2 & Hno)|(cookie & k & fid & w2 & w3 & -> & Hyes & Hacc)].
  - left. destruct (Hhas _ _ Hno) as [_ Hall]. by apply Hall.
  - right. destruct (Hhas _ _ Hyes) as [Hdb2 _]. cbn in Hacc.
    apply accept_run in Hacc as (p & r & Hv & Hpu & Hpf & Hin & Hid & Hu & Hrev).
    rewrite Hdb2 in Hin. exists cookie, k, p, r. split_and!; congruence.
Qed.

(** Revoking a factor a second time answers success without looking at its credentials:
    a passkey that an interrupted first attempt left unrevoked stays so. *)
Theorem revoke_again_keeps_passkeys a u f t w r :
  (∀ k, sql_fault k = None) → factors_wf (db_factors (w_db w)) →
  In r (tf_factors (db_factors (w_db w))) → fr_id r = f → fr_user_id r = u →
  is_none (fr_revoked_at r) = false →
  ∃ w', Service.revoke_factor a u f t w = (Ok tt, w') ∧ w_db w' = w_db w.
Proof using Type.
  intros Hnf Hwf Hin Hid Hu Hrev.
  assert (List.find (factor_is f) (tf_factors (db_factors (w_db w))) = Some r) as Hf.
  { rewrite <- Hid. apply (find_key fr_id N.eqb); [apply N.eqb_eq | apply Hwf | done]. }
  pose proof (wf_factor_rows _ Hwf) as Hok. rewrite List.Forall_forall in Hok.
  specialize (Hok r Hin). unfold factor_row_ok in Hok.
  destruct (row_to_factor r) as [g|] eqn:Hrow;
    [|unfold row_to_factor in Hrow; by destruct (parse_kind (fr_kind r))].
  pose proof (row_to_factor_columns _ _ Hrow) as (Hgi & Hgu & Hgr & _).
  exists (tick w). split; [|done]. unfold Service.revoke_factor, Service.repo.
  assert (find_factor f w = (Ok (Some g), tick w)) as Hfind.
  { unfold find_factor. erewrite bind_run.
    2: { unfold labelled. eapply map_err_run. by apply select_no_fault. }
    rewrite Hf. cbn. by rewrite Hrow. }
  erewrite bind_run by (eapply map_err_run; exact Hfind). cbn.
  unfold bind, ok_or. cbn. rewrite Hgu, Hu, N.eqb_refl. cbn. rewrite Hgr, Hrev. done.
Qed.
End two_factor_properties.

(** * Enrollment and recovery codes

    What a verified TOTP enrollment stores, and how the recovery codes are replaced. *)

Section codes.
Context `{Env} `{Vault} `{FactorCrypto} `{CookieCrypto} `{TwoFactorCrypto} `{TwoFactorConfig}.

(** The stored rows of a list of hashed codes. *)
Definition stored_code (u : Uuid) (e : string * DateTime) (r : RecoveryRow) : Prop :=
  rc_user_id r = u ∧ rc_code_hash r = e.1 ∧ rc_created_at r = e.2 ∧ rc_consumed_at r = None.

Lemma insert_codes_run u l w x w' :
  insert_codes u l w = (Ok x, w') →
  ∃ rows seq, Forall2 (stored_code u) l rows
    ∧ db_factors (w_db w')
      = with_recovery (tf_recovery (db_factors (w_db w)) ++ rows) seq (db_factors (w_db w)).
Proof.
  revert w. induction l as [|[h t] l IH]; cbn [insert_codes]; intros w Hr.
  - injection Hr as _ <-. exists [], (tf_recovery_seq (db_factors (w_db w))).
    split; [constructor|]. rewrite app_nil_r. by destruct (db_factors (w_db w)).
  - inv_bind Hr. apply IH in Hr as (rows & seq & Hrows & Hd). apply map_err_ok in R.
    unfold statement in R. destruct (sql_fault _); [done|].
    destruct (insert_recovery_row _ _ _ _) as [[[] d']|] eqn:Hs; [|done]. injection R as _ <-.
    insert_cases. injection Hs as <-. cbn in Hd. rewrite <- app_assoc in Hd.
    eexists (_ :: rows), seq. split; [|exact Hd]. constructor; [|done]. done.
Qed.

Lemma replace_codes_run u l w x w' :
  replace_recovery_codes u l w = (Ok x, w') →
  ∃ rows seq, Forall2 (stored_code u) l rows
    ∧ db_factors (w_db w') = with_recovery
        (delete_where (recovery_of u) (tf_recovery (db_factors (w_db w))) ++ rows) seq
        (db_factors (w_db w)).
Proof.
  unfold replace_recovery_codes, transaction, in_transaction. intros Hr.
  match type of Hr with context [match ?m w with _ => _ end] => destruct (m w) as [[y|e] v] eqn:E end;
    [|done]. injection Hr as <- <-.
  inv_bind E. apply map_err_ok, select_run in R as [Hdb0 _]. inv_bind E. inv_bind R.
  apply map_err_ok, execute_ok in R0. apply insert_codes_run in R as (rows & seq & Hrows & Hd).
  inv_bind E. apply map_err_ok, select_run in R as [Hdb1 _]. injection E as _ <-.
  exists rows, seq. split; [done|]. by rewrite Hdb1, Hd, R0, Hdb0.
Qed.

(** A failed replacement leaves the database as it was. *)
Lemma replace_codes_atomic u l w e w' :
  replace_recovery_codes u l w = (Err e, w') → w_db w' = w_db w.
Proof.
  unfold replace_recovery_codes, transaction, in_transaction.
  match goal with |- context [match ?m w with _ => _ end] => destruct (m w) as [[y|e'] v] end;
    [done|]. by intros [= _ <-].
Qed.

(** Drawing and hashing codes does not touch the database. *)
Lemma recovery_hash_run p w h w' :
  recovery_hash p w = (Ok h, w') → w_db w' = w_db w ∧ bcrypt_hash (w_step w) p = Some h.
Proof. unfold recovery_hash. destruct (bcrypt_hash _ _); [|done]. by intros [= <- <-]. Qed.

Lemma attempt_hash_db {E} p w o w' :
  attempt (E:=FactorError) (F:=E) (recovery_hash p) w = (Ok o, w') → w_db w' = w_db w.
Proof.
  unfold attempt, recovery_hash. destruct (bcrypt_hash _ _); by intros [= _ <-].
Qed.

Lemma generate_entries_run {E} n w r w' :
  generate_entries (E:=E) n w = (Ok r, w') → w_db w' = w_db w ∧ length r.2 = n.
Proof.
  revert w r w'. induction n as [|n IH]; cbn [generate_entries]; intros w r w' Hr.
  - by injection Hr as <- <-.
  - inv_bind Hr. injection R as <- <-. inv_bind Hr. apply attempt_hash_db in R.
    inv_bind Hr. apply IH in R0 as [Hdb Hl]. injection Hr as <- <-. cbn.
    split; [by rewrite Hdb, R | by rewrite Hl].
Qed.

Definition hashed (t : DateTime) (code : string) (e : string * DateTime) : Prop :=
  (∃ k, bcrypt_hash k code = Some e.1) ∧ e.2 = t.

Lemma hash_codes_run codes t w l w' :
  Service.hash_plaintext_codes codes t w = (Ok l, w') →
  w_db w' = w_db w ∧ Forall2 (hashed t) codes l.
Proof.
  revert w l w'. induction codes as [|code codes IH]; cbn [Service.hash_plaintext_codes]; intros w l w' Hr.
  - injection Hr as <- <-. by split; [|constructor].
  - inv_bind Hr. apply map_err_ok, recovery_hash_run in R as [Hdb Hh]. inv_bind Hr.
    apply IH in R as [Hdb' Hl]. injection Hr as <- <-. split; [congruence|].
    constructor; [|done]. split; [by eexists|done].
Qed.

(** The row of a code that was handed out: unused, and its hash was made from the
    code. *)
Definition code_row (u : Uuid) (t : DateTime) (code : string) (r : RecoveryRow) : Prop :=
  rc_user_id r = u ∧ rc_created_at r = t ∧ rc_consumed_at r = None
  ∧ ∃ k, bcrypt_hash k code = Some (rc_code_hash r).

Lemma hashed_stored u t codes es rows :
  Forall2 (hashed t) codes es → Forall2 (stored_code u) es rows → Forall2 (code_row u t) codes rows.
Proof.
  intros Hh. revert rows. induction Hh as [|c e cs es [Hk He] _ IH]; intros rows Hrows;
    inversion Hrows as [|? r ? rows' (Hu & Hr & Hc & Hn)]; subst; constructor; [|by apply IH].
  split_and!; try done. by rewrite Hr.
Qed.

Lemma renew_codes_run u t w codes w' :
  Service.renew_codes u t w = (Ok codes, w') →
  length codes = N.to_nat recovery_code_count
  ∧ ∃ rows seq, Forall2 (code_row u t) codes rows
    ∧ db_factors (w_db w') = with_recovery
        (delete_where (recovery_of u) (tf_recovery (db_factors (w_db w))) ++ rows) seq
        (db_factors (w_db w)).
Proof.
  unfold Service.renew_codes, generate_code_set, Service.repo. intros Hr. inv_bind Hr. inv_bind R.
  apply generate_entries_run in R0 as [Hdb Hlen]. injection R as <- <-. cbn in Hr.
  inv_bind Hr. apply hash_codes_run in R as [Hdb1 Hhash]. inv_bind Hr.
  apply map_err_ok, replace_codes_run in R as (rows & seq & Hrows & Hd). injection Hr as <- <-.
  split; [done|]. exists rows, seq. split; [|by rewrite Hd, Hdb1, Hdb].
  by eapply hashed_stored.
Qed.

(** The factor a verified enrollment stores. *)
Lemma consume_enrollment_run i t w b w' :
  consume_totp_enrollment i t w = (Ok b, w') →
  db_factors (w_db w') = with_enrollments
    (update_where (enrollment_open i t) (enrollment_row_consume t)
       (tf_enrollments (db_factors (w_db w)))) (db_factors (w_db w)).
Proof.
  intros Hr%map_err_ok. unfold statement in Hr. destruct (sql_fault _); [done|].
  by injection Hr as _ <-.
Qed.

Lemma insert_factor_tables f secret w x w' :
  insert_factor f secret w = (Ok x, w') →
  db_factors (w_db w') = with_factors
    (tf_factors (db_factors (w_db w)) ++ [factor_row f secret]) (db_factors (w_db w)).
Proof.
  intros Hr%map_err_ok. unfold statement in Hr. destruct (sql_fault _); [done|].
  destruct (insert_factor_row _ _) as [[[] d']|] eqn:Hs; [|done]. injection Hr as _ <-.
  insert_cases. by injection Hs as <-.
Qed.

Lemma open_secret_period enc bad s : Service.open_secret enc bad = Ok s → ts_period s = 30%Z.
Proof.
  unfold Service.open_secret. destruct (decrypt_from_storage _ _); [|done]. cbn.
  destruct (hex_decode _) as [[|b raw]|]; [done| |done]. cbn. by intros [= <-].
Qed.
End codes.

(** ** Properties *)

Section enroll_properties.
Context `{Env} `{Vault} `{FactorCrypto} `{CookieCrypto} `{TwoFactorCrypto} `{TwoFactorConfig}.

(** Enrollment.  A verified enrollment was pending, of this account and not
    expired; it stores exactly one new unrevoked TOTP factor with the enrolled secret,
    its last step within one of the clock, uses the enrollment up, and replaces the
    account's recovery codes by the configured number of unused codes, each stored as a
    hash of the code that was handed out. *)
Theorem enrollment_activates a u e code t w v w' :
  Service.verify_totp_enrollment a u e code t w = (Ok v, w') →
  let f := verified_factor v in
  (∃ row, In row (tf_enrollments (db_factors (w_db w))) ∧ er_id row = e ∧ er_user_id row = u
     ∧ er_consumed_at row = None ∧ (t < er_expires_at row)%Z
     ∧ tf_factors (db_factors (w_db w'))
       = (tf_factors (db_factors (w_db w)) ++ [factor_row f (er_encrypted_secret row)])%list)
  ∧ f_user_id f = u ∧ f_kind f = TotpKind ∧ f_revoked_at f = None
  ∧ (∃ s, f_last_used_step f = Some s ∧ (Z.abs (s - time_step t) ≤ 1)%Z)
  ∧ (∀ r, In r (tf_enrollments (db_factors (w_db w'))) → enrollment_open e t r = false)
  ∧ length (recovery_codes v) = N.to_nat recovery_code_count
  ∧ ∃ rows, Forall2 (code_row u t) (recovery_codes v) rows
      ∧ tf_recovery (db_factors (w_db w'))
        = (delete_where (recovery_of u) (tf_recovery (db_factors (w_db w))) ++ rows)%list.
Proof using Type.
  unfold Service.verify_totp_enrollment, Service.repo. intros Hr. inv_bind Hr.
  apply map_err_ok, find_enrollment_run in R as [Hdb Ho]. apply bind_ok in Hr as (en & v1 & R & Hr).
  apply ok_or_ok in R as [Hen ->]. destruct a0 as [en'|]; [|done].
  destruct ((e_user_id en' =? u)%N && enrollment_usable t en') eqn:Hus; [|done]. injection Hen as ->.
  destruct Ho as (row & [Hin [Hid%N.eqb_eq Hnc]%andb_true_iff]%List.find_some & [= <-]).
  cbn in Hr, Hus. apply andb_true_iff in Hus as [Hu%N.eqb_eq Hlive%Z.ltb_lt]. cbn in Hlive.
  inv_bind Hr. apply lift_ok in R as [Hopen ->]. apply open_secret_period in Hopen.
  inv_bind Hr. apply lift_ok in R as [Hs ->]. apply result_map_err_ok in Hs.
  inv_bind Hr. apply map_err_ok, consume_enrollment_run in R. rewrite Hdb in R.
  destruct (negb _); [done|]. apply bind_ok in Hr as (fid & v2 & R2 & Hr). injection R2 as <- <-.
  apply bind_ok in Hr as (g & v3 & R2 & Hr).
  apply map_err_ok in R2. injection R2 as <- <-.
  apply bind_ok in Hr as ([] & v4 & R3 & Hr). apply map_err_ok, insert_factor_tables in R3.
  apply bind_ok in Hr as (codes & v5 & R4 & Hr). apply renew_codes_run in R4 as (Hlen & rows & seq & Hrows & R4).
  apply bind_ok in Hr as ([] & v6 & R5 & Hr). apply audit_or_fail_run in R5 as [Ha _].
  injection Hr as <- <-. rewrite Ha, R4, R3. cbn. rewrite R. cbn.
  apply totp_verify_ok in Hs as [Hw _]. unfold current_step in Hw. rewrite Hopen in Hw. cbn in Hw.
  split_and!; try done.
  - exists row. destruct (er_consumed_at row); [done|]. by split_and!.
  - exists a1. split; [done|]. unfold time_step. lia.
  - intros r (y & Hy & ->)%update_where_In. destruct (enrollment_open e t y) eqn:E; [|done].
    unfold enrollment_open. cbn. by rewrite andb_false_r.
  - by exists rows.
Qed.
End enroll_properties.
