(* ===== verification/Demo.v ===== *)
(** * A concrete environment

    Stand-ins for the clock, the database driver and the cryptographic crates under which
    the definitions run: argon2 and bcrypt prefix the text, AES seals nothing, HMAC
    truncates, hexadecimal is hexadecimal.  They satisfy the laws the theorems assume of
    the crates. *)
From S2P Require Import Prelude Text AuditActions AuditLog Accounts Store Users Identity Secrets Factors FactorRepo Net Remember TwoFactor.
From stdpp Require Import countable strings.

Definition salted (t : string) : string := "h:" +:+ t.

#[export] Instance demo_env : Env := {|
  utc_now k := Z.of_nat (Nat.min k 1000);
  new_v4 k := (1000 + N.of_nat k)%N;
  uuid_text u := of_bytes (show_N u);
  random_token k := "token-" +:+ of_bytes (show_N (N.of_nat k));
  argon2_hash _ t := Ok (salted t);
  argon2_default_hash _ t := salted t;
  argon2_verify h t := Ok (String.eqb h (salted t));
  sql_fault _ := None;
  constraint_text c := c
|}.

(** ** Hexadecimal *)

Local Open Scope N_scope.

Definition hex_of_byte (b : N) : list N := [hex_char (b / 16 mod 16); hex_char (b mod 16)].
Definition hex_bytes (l : list N) : list N := flat_map hex_of_byte l.

Fixpoint unhex (l : list N) : option (list N) :=
  match l with
  | [] => Some []
  | a :: b :: l' =>
      match to_digit 16 a, to_digit 16 b, unhex l' with
      | Some x, Some y, Some r => Some (x * 16 + y :: r)
      | _, _, _ => None
      end
  | [_] => None
  end.

Definition hex_byte_ok (b : N) : bool :=
  match unhex (hex_of_byte b) with Some [c] => c =? b | _ => false end.

Lemma hex_char_digit d : d < 16 → is_ascii_hexdigit (hex_char d) = true ∧ hex_char d < 256.
Proof.
  intros Hd. assert (∀ d, In d (map N.of_nat (seq 0 16)) →
    is_ascii_hexdigit (hex_char d) = true ∧ hex_char d < 256) as Hall.
  { apply List.Forall_forall. apply (bool_decide_unpack _). vm_compute. done. }
  apply Hall. rewrite <- (N2Nat.id d). apply in_map, in_seq. lia.
Qed.

Lemma hex_bytes_digits l :
  Forall (λ c, is_ascii_hexdigit c = true ∧ c < 256) (hex_bytes l).
Proof.
  induction l as [|b l IH]; cbn; [constructor|].
  do 2 (constructor; [apply hex_char_digit, N.mod_lt; done|]). done.
Qed.

Lemma hex_bytes_text l : bytes (of_bytes (hex_bytes l)) = hex_bytes l.
Proof.
  apply bytes_of_bytes. eapply Forall_impl; [apply hex_bytes_digits|]. by intros c [_ ?].
Qed.

Lemma unhex_byte b l : b < 256 →
  unhex (hex_of_byte b ++ l) = (λ r, b :: r) <$> unhex l.
Proof.
  intros Hb. assert (hex_byte_ok b = true) as Hok.
  { assert (forallb hex_byte_ok (map N.of_nat (seq 0 256)) = true) as Hall
      by (vm_compute; reflexivity).
    rewrite forallb_forall in Hall. apply Hall. rewrite <- (N2Nat.id b).
    apply in_map, in_seq. lia. }
  unfold hex_byte_ok in Hok. unfold hex_of_byte in *. cbn [app unhex] in *.
  destruct (to_digit 16 (hex_char (b / 16 mod 16))); [|done].
  destruct (to_digit 16 (hex_char (b mod 16))); [|done].
  apply N.eqb_eq in Hok as ->. by destruct (unhex l).
Qed.

Lemma unhex_hex l : Forall is_byte l → unhex (hex_bytes l) = Some l.
Proof.
  induction 1 as [|b l Hb _ IH]; [done|]. change (hex_bytes (b :: l)) with (hex_of_byte b ++ hex_bytes l)%list.
  by rewrite unhex_byte, IH.
Qed.

(** ** The envelope *)

Definition all_bytes (l : list N) : bool := forallb (λ b, b <? 256) l.

Lemma all_bytes_spec l : all_bytes l = true ↔ Forall is_byte l.
Proof.
  unfold all_bytes. rewrite forallb_forall, List.Forall_forall.
  by setoid_rewrite N.ltb_lt.
Qed.

#[export] Instance demo_vault : Vault := {|
  hex_encode l := of_bytes (hex_bytes l);
  hex_decode s := match unhex (bytes s) with Some l => Ok l | None => Err "invalid hex" end;
  b64_standard_decode _ := Err "not available";
  nonce_bytes k := repeat 7 12;
  aes_encrypt _ _ p := if all_bytes p then Ok p else Err "not bytes";
  aes_decrypt _ _ c := Ok c;
  utf8_error_text _ := "invalid utf-8"
|}.

#[export] Instance demo_vault_laws : VaultLaws.
Proof.
  split.
  - intros l. cbn. rewrite hex_bytes_text.
    eapply Forall_impl; [apply hex_bytes_digits|]. by intros c [? _].
  - intros l Hl. cbn. by rewrite hex_bytes_text, unhex_hex.
  - done.
  - intros k. repeat constructor.
  - intros key n p c. cbn. by destruct (all_bytes p); intros [= ->].
  - intros key n p c. cbn. destruct (all_bytes p) eqn:E; [|done]. intros [= <-].
    by apply all_bytes_spec.
Qed.

(** ** Codes *)

(** Six decimal digits. *)
Definition six_digits (n : N) : string :=
  of_bytes (map (λ p, 48 + n / p mod 10) [100000; 10000; 1000; 100; 10; 1]).

(** The HOTP stand-in of a counter. *)
Definition demo_hotp (secret : list N) (counter : Z) : string :=
  six_digits (Z.to_N counter * 7 + N.of_nat (length secret)).

Definition hashed_code (p : string) : string := "b:" +:+ p.

#[export] Instance demo_factor_crypto : FactorCrypto := {|
  totp_generate s time := demo_hotp (ts_bytes s) (time / 30)%Z;
  totp_url _ issuer account := "otpauth://totp/" +:+ issuer +:+ ":" +:+ account;
  bcrypt_hash _ p := Some (hashed_code p);
  bcrypt_verify p h := Some (String.eqb h (hashed_code p));
  code_bytes k := map (λ i, N.of_nat (k + i) mod 256) (seq 0 8)
|}.

(** ** Cookies *)

(** A number of payload fields as bytes: the bits of its code. *)
Fixpoint bits_of (p : positive) : list N :=
  match p with
  | xH => []
  | xO p' => 0 :: bits_of p'
  | xI p' => 1 :: bits_of p'
  end.

Fixpoint of_bits (l : list N) : positive :=
  match l with
  | [] => xH
  | b :: l' => if b =? 0 then xO (of_bits l') else xI (of_bits l')
  end.

Lemma of_bits_of p : of_bits (bits_of p) = p.
Proof. induction p as [p IH|p IH|]; cbn; by rewrite ?IH. Qed.

Lemma bits_bytes p : Forall is_byte (bits_of p).
Proof. induction p; cbn; repeat constructor; done. Qed.

Definition payload_tuple (p : RememberedDevicePayload) :=
  (p_v p, p_factor_id p, p_user_id p, p_ua_hash p, p_ip_prefix p, p_exp p, p_nonce p).

Definition tuple_payload (x : N * N * N * string * string * Z * N) : RememberedDevicePayload :=
  let '(v, f, u, h, i, e, n) := x in mkPayload v f u h i e n.

(** The last 32 bytes of key and message, padded. *)
Definition demo_mac (key msg : list N) : list N :=
  firstn 32 (map (λ b, b mod 256) (rev (key ++ msg)) ++ repeat 0 32).

#[export] Instance demo_cookies : CookieCrypto := {|
  hmac_sha256 := demo_mac;
  sha256 l := l;
  b64url_encode l := of_bytes (hex_bytes l);
  b64url_decode s := unhex (bytes s);
  payload_to_vec p := bits_of (encode (payload_tuple p));
  payload_from_slice l := tuple_payload <$> decode (of_bits l)
|}.

#[export] Instance demo_cookie_laws : CookieLaws.
Proof.
  split.
  - intros key msg. cbn. unfold demo_mac.
    rewrite length_firstn, length_app, repeat_length. lia.
  - intros key msg. cbn. unfold demo_mac. apply Forall_take, Forall_app. split.
    + apply Forall_map, List.Forall_forall. intros b _. by apply N.mod_lt.
    + apply List.Forall_forall. by intros b ->%repeat_spec.
  - intros l. cbn. rewrite hex_bytes_text. intros Hin.
    pose proof (hex_bytes_digits l) as Hd. rewrite List.Forall_forall in Hd.
    by destruct (Hd _ Hin).
  - intros l Hl. cbn. by rewrite hex_bytes_text, unhex_hex.
  - intros p. apply bits_bytes.
  - intros [v f u h i e n]. cbn -[decode encode]. by rewrite of_bits_of, decode_encode.
Qed.

(** ** Ceremonies and settings *)

#[export] Instance demo_ceremonies : TwoFactorCrypto := {|
  generate_totp_secret _ := mkSecret [1; 2; 3] 6 30;
  crypto_begin_register _ _ _ := Ok (JNull, "register-state");
  crypto_finish_register _ _ := Ok (mkRegistered [9] "key" 0 None "passkey");
  crypto_begin_assert _ _ := Ok (JNull, "assert-state");
  crypto_finish_assert _ _ := Ok (mkAssertion [9] 5)
|}.

#[export] Instance demo_config : TwoFactorConfig := {|
  master_key := repeat 1 32;
  issuer_label := "OpenPanel";
  challenge_lifetime := minutes 5;
  recovery_code_count := 2;
  remember_device_lifetime := days 30
|}.
