(* ===== verification/Hierarchy.v ===== *)
(** * Account hierarchy

    [crates/openpanel-domain/src/account_hierarchy/mod.rs] (relationships, quota
    pools, claims, the cycle walk), [crates/openpanel-app/src/account_hierarchy/repo.rs]
    (the SQLite adapter) and [service.rs] (attach, detach, tree, pools, children).
    A walk that need not end takes fuel: [None] means the fuel ran out. *)
From S2P Require Import Prelude Text AuditActions AuditLog Accounts Store Users Identity.

(** ** Domain types *)

Inductive HierarchyStatus : Type := Active | Detached.

Record AccountRelationship := mkRel {
  rel_parent_id : Uuid;
  rel_child_id : Uuid;
  rel_created_at : DateTime;
  rel_created_by : Uuid;
  rel_status : HierarchyStatus
}.

Definition relationship_new (parent child created_by : Uuid) (now : DateTime)
    : AccountRelationship :=
  {| rel_parent_id := parent; rel_child_id := child; rel_created_at := now;
     rel_created_by := created_by; rel_status := Active |}.

Inductive PoolAxis : Type := DiskBytes | BandwidthBytesPerMonth | MaxChildAccounts.

#[export] Instance PoolAxis_eq_dec : EqDecision PoolAxis.
Proof. solve_decision. Defined.

Inductive AccountHierarchyError : Type :=
| Cycle
| AlreadyAttached
| HUserNotFound
| InvalidPoolTotal
| InvalidClaim
| PoolExhausted
| PoolNotFound
| HForbidden
| HPersistence (msg : string).

Record QuotaPool := mkQuotaPool {
  pool_parent_id : Uuid;
  pool_axis : PoolAxis;
  pool_total_bytes : Z;
  pool_updated_at : DateTime
}.

Definition pool_new (parent : Uuid) (axis : PoolAxis) (total : Z) (now : DateTime)
    : result QuotaPool AccountHierarchyError :=
  if (total =? 0)%Z then Err InvalidPoolTotal
  else Ok {| pool_parent_id := parent; pool_axis := axis; pool_total_bytes := total;
             pool_updated_at := now |}.

(** [QuotaPool::set_total_bytes]. *)
Definition set_total_bytes (total : Z) (now : DateTime) (p : QuotaPool)
    : result QuotaPool AccountHierarchyError :=
  if (total =? 0)%Z then Err InvalidPoolTotal
  else Ok {| pool_parent_id := pool_parent_id p; pool_axis := pool_axis p;
             pool_total_bytes := total; pool_updated_at := now |}.

Record PoolClaim := mkPoolClaim {
  claim_parent_id : Uuid;
  claim_child_id : Uuid;
  claim_axis : PoolAxis;
  claim_share_bytes : Z;
  claim_claimed_at : DateTime
}.

Definition claim_new (parent child : Uuid) (axis : PoolAxis) (share : Z) (now : DateTime)
    : result PoolClaim AccountHierarchyError :=
  if (share =? 0)%Z then Err InvalidClaim
  else Ok {| claim_parent_id := parent; claim_child_id := child; claim_axis := axis;
             claim_share_bytes := share; claim_claimed_at := now |}.

Inductive HierarchyNode : Type :=
| Node (user_id : Uuid) (parent_id : option Uuid) (depth : Z) (children : list HierarchyNode).

Definition node_user (n : HierarchyNode) : Uuid := let '(Node u _ _ _) := n in u.
Definition node_parent (n : HierarchyNode) : option Uuid := let '(Node _ p _ _) := n in p.
Definition node_depth (n : HierarchyNode) : Z := let '(Node _ _ d _) := n in d.
Definition node_children (n : HierarchyNode) : list HierarchyNode :=
  let '(Node _ _ _ cs) := n in cs.

(** [HierarchyNode::push_child]. *)
Definition push_child (c n : HierarchyNode) : HierarchyNode :=
  let '(Node u p d cs) := n in Node u p d (cs ++ [c]).

(** ** [would_cycle]

    The stack is a list whose head is the top; [None]: out of fuel. *)
Definition kids_of (m : gmap Uuid (list Uuid)) (u : Uuid) : list Uuid := default [] (m !! u).

Fixpoint would_cycle_loop (fuel : nat) (child : Uuid) (m : gmap Uuid (list Uuid))
    (stack : list Uuid) : option bool :=
  match fuel with
  | O => None
  | S fuel' =>
      match stack with
      | [] => Some false
      | current :: rest =>
          if (current =? child)%N then Some true
          else would_cycle_loop fuel' child m (rev (kids_of m current) ++ rest)
      end
  end.

Definition would_cycle (fuel : nat) (proposed_parent child : Uuid) (m : gmap Uuid (list Uuid))
    : option bool :=
  if (proposed_parent =? child)%N then Some true
  else would_cycle_loop fuel child m [proposed_parent].

(** ** [check_pool_claim] *)
Definition check_pool_claim (pool_total current_claimed requested : Z)
    : result unit AccountHierarchyError :=
  let new_total := u64_saturating_add current_claimed requested in
  if (pool_total <? new_total)%Z then Err PoolExhausted else Ok tt.

(** ** Stored texts *)

Definition relationship_status_str (s : HierarchyStatus) : string :=
  match s with Active => "active" | Detached => "detached" end.

Definition parse_relationship_status (s : string)
    : result HierarchyStatus AccountHierarchyError :=
  if String.eqb s "active" then Ok Active
  else if String.eqb s "detached" then Ok Detached
  else Err (HPersistence ("unknown hierarchy status `" +:+ s +:+ "`")).

Definition pool_axis_str (a : PoolAxis) : string :=
  match a with
  | DiskBytes => "disk_bytes"
  | BandwidthBytesPerMonth => "bandwidth_bytes_per_month"
  | MaxChildAccounts => "max_child_accounts"
  end.

Definition parse_pool_axis (s : string) : result PoolAxis AccountHierarchyError :=
  if String.eqb s "disk_bytes" then Ok DiskBytes
  else if String.eqb s "bandwidth_bytes_per_month" then Ok BandwidthBytesPerMonth
  else if String.eqb s "max_child_accounts" then Ok MaxChildAccounts
  else Err (HPersistence ("unknown pool axis `" +:+ s +:+ "`")).

(** [RelationshipRow::into_relationship]: the status is checked, then the
    relationship is rebuilt as an active one. *)
Definition into_relationship (r : RelationshipRow)
    : result AccountRelationship AccountHierarchyError :=
  _ <-? parse_relationship_status (rr_status r) ;;
  Ok (relationship_new (rr_parent_id r) (rr_child_id r) (rr_created_by r) (rr_created_at r)).

Definition into_pool (r : PoolRow) : result QuotaPool AccountHierarchyError :=
  axis <-? parse_pool_axis (pr_axis r) ;;
  pool_new (pr_parent_id r) axis (i64_as_u64 (pr_total_bytes r)) (pr_updated_at r).

Definition into_claim (r : ClaimRow) : result PoolClaim AccountHierarchyError :=
  axis <-? parse_pool_axis (cr_axis r) ;;
  claim_new (cr_parent_id r) (cr_child_id r) axis (i64_as_u64 (cr_share_bytes r))
    (cr_claimed_at r).

(** The rows the inserts bind. *)
Definition relationship_row (r : AccountRelationship) : RelationshipRow :=
  {| rr_parent_id := rel_parent_id r; rr_child_id := rel_child_id r;
     rr_created_at := rel_created_at r; rr_created_by := rel_created_by r;
     rr_status := relationship_status_str (rel_status r) |}.

Definition pool_row (p : QuotaPool) : PoolRow :=
  {| pr_parent_id := pool_parent_id p; pr_axis := pool_axis_str (pool_axis p);
     pr_total_bytes := u64_as_i64 (pool_total_bytes p); pr_updated_at := pool_updated_at p |}.

Definition claim_row (c : PoolClaim) : ClaimRow :=
  {| cr_parent_id := claim_parent_id c; cr_child_id := claim_child_id c;
     cr_axis := pool_axis_str (claim_axis c);
     cr_share_bytes := u64_as_i64 (claim_share_bytes c);
     cr_claimed_at := claim_claimed_at c |}.

(** ** Statements *)

Definition rel_is (parent child : Uuid) (r : RelationshipRow) : bool :=
  (rr_parent_id r =? parent)%N && (rr_child_id r =? child)%N.
Definition active_child (child : Uuid) (r : RelationshipRow) : bool :=
  (rr_child_id r =? child)%N && rel_active r.
Definition active_parent (parent : Uuid) (r : RelationshipRow) : bool :=
  (rr_parent_id r =? parent)%N && rel_active r.
Definition pool_is (parent : Uuid) (axis : string) (r : PoolRow) : bool :=
  (pr_parent_id r =? parent)%N && String.eqb (pr_axis r) axis.
Definition claim_on (parent : Uuid) (axis : string) (r : ClaimRow) : bool :=
  (cr_parent_id r =? parent)%N && String.eqb (cr_axis r) axis.
Definition claim_is (parent child : Uuid) (axis : string) (r : ClaimRow) : bool :=
  (cr_parent_id r =? parent)%N && (cr_child_id r =? child)%N && String.eqb (cr_axis r) axis.

Definition user_exists (id : Uuid) (d : Db) : bool := existsb (id_is id) (db_users d).

(** [INSERT INTO account_relationships]. *)
Definition insert_relationship_row (r : RelationshipRow) (d : Db)
    : result (unit * Db) string :=
  if existsb (rel_is (rr_parent_id r) (rr_child_id r)) (db_relationships d)
  then Err "account_relationships.parent_id, account_relationships.child_id"
  else if user_exists (rr_parent_id r) d && user_exists (rr_child_id r) d
  then Ok (tt, set_relationships (db_relationships d ++ [r]) d)
  else Err "FOREIGN KEY".

Definition rel_set_status (s : string) (r : RelationshipRow) : RelationshipRow :=
  mkRelRow (rr_parent_id r) (rr_child_id r) (rr_created_at r) (rr_created_by r) s.

Definition pool_update (new r : PoolRow) : PoolRow :=
  mkPoolRow (pr_parent_id r) (pr_axis r) (pr_total_bytes new) (pr_updated_at new).

(** [INSERT INTO quota_pools .. ON CONFLICT(parent_id, axis) DO UPDATE]. *)
Definition upsert_pool_row (r : PoolRow) (d : Db) : result (unit * Db) string :=
  if existsb (pool_is (pr_parent_id r) (pr_axis r)) (db_pools d)
  then Ok (tt, set_pools (update_where (pool_is (pr_parent_id r) (pr_axis r))
                            (pool_update r) (db_pools d)) d)
  else if user_exists (pr_parent_id r) d
  then Ok (tt, set_pools (db_pools d ++ [r]) d)
  else Err "FOREIGN KEY".

(** [INSERT INTO pool_claims]. *)
Definition insert_claim_row (r : ClaimRow) (d : Db) : result (unit * Db) string :=
  if existsb (claim_is (cr_parent_id r) (cr_child_id r) (cr_axis r)) (db_claims d)
  then Err "pool_claims.parent_id, pool_claims.child_id, pool_claims.axis"
  else if user_exists (cr_parent_id r) d && user_exists (cr_child_id r) d
  then Ok (tt, set_claims (db_claims d ++ [r]) d)
  else Err "FOREIGN KEY".

(** [SUM] over an [INTEGER] column: an error as soon as a partial sum leaves the
    [i64] range. *)
Fixpoint sum_i64 (acc : Z) (l : list Z) : option Z :=
  match l with
  | [] => Some acc
  | x :: l' =>
      let s := (acc + x)%Z in
      if ((- 2 ^ 63 <=? s) && (s <=? I64_MAX))%Z then sum_i64 s l' else None
  end.

(** Sort keys. *)
Definition rel_created_le (r1 r2 : RelationshipRow) : Prop :=
  (rr_created_at r1 ≤ rr_created_at r2)%Z.
#[export] Instance rel_created_le_dec : RelDecision rel_created_le.
Proof. unfold rel_created_le. intros r1 r2. apply _. Defined.

Definition rel_created_ge (r1 r2 : RelationshipRow) : Prop :=
  (rr_created_at r2 ≤ rr_created_at r1)%Z.
#[export] Instance rel_created_ge_dec : RelDecision rel_created_ge.
Proof. unfold rel_created_ge. intros r1 r2. apply _. Defined.

Definition axis_le (r1 r2 : PoolRow) : Prop := String.leb (pr_axis r1) (pr_axis r2) = true.
#[export] Instance axis_le_dec : RelDecision axis_le.
Proof. unfold axis_le. intros r1 r2. apply _. Defined.

Definition claim_le (r1 r2 : ClaimRow) : Prop :=
  (if String.eqb (cr_axis r1) (cr_axis r2)
   then (cr_claimed_at r1 <=? cr_claimed_at r2)%Z
   else String.leb (cr_axis r1) (cr_axis r2)) = true.
#[export] Instance claim_le_dec : RelDecision claim_le.
Proof. unfold claim_le. intros r1 r2. apply _. Defined.

(** ** [SqliteHierarchyRepository] *)

Section hierarchy_repo.
Context `{Env}.
Abbreviation MH A := (M World AccountHierarchyError A).

Definition insert_relationship (r : AccountRelationship) : MH unit :=
  map_err HPersistence (statement (insert_relationship_row (relationship_row r))).

Definition children_of (parent : Uuid) : MH (list AccountRelationship) :=
  rows <- map_err HPersistence (select (λ d, merge_sort rel_created_le
            (select_where (active_parent parent) (db_relationships d)))) ;;
  lift (collect into_relationship rows).

Definition parent_of (child : Uuid) : MH (option AccountRelationship) :=
  row <- map_err HPersistence (select (λ d, head (merge_sort rel_created_ge
           (select_where (active_child child) (db_relationships d))))) ;;
  lift (transpose into_relationship row).

Definition detach (parent child : Uuid) : MH unit :=
  map_err HPersistence (execute (λ d, set_relationships
    (update_where (rel_is parent child) (rel_set_status "detached") (db_relationships d)) d)).

Definition upsert_pool (p : QuotaPool) : MH unit :=
  map_err HPersistence (statement (upsert_pool_row (pool_row p))).

Definition pools_of (parent : Uuid) : MH (list QuotaPool) :=
  rows <- map_err HPersistence (select (λ d, merge_sort axis_le
            (select_where (λ r, (pr_parent_id r =? parent)%N) (db_pools d)))) ;;
  lift (collect into_pool rows).

Definition insert_claim (c : PoolClaim) : MH unit :=
  map_err HPersistence (statement (insert_claim_row (claim_row c))).

Definition claims_of (parent : Uuid) : MH (list PoolClaim) :=
  rows <- map_err HPersistence (select (λ d, merge_sort claim_le
            (select_where (λ r, (cr_parent_id r =? parent)%N) (db_claims d)))) ;;
  lift (collect into_claim rows).

Definition remove_claim (parent child : Uuid) (axis : PoolAxis) : MH unit :=
  map_err HPersistence (execute (λ d, set_claims
    (delete_where (claim_is parent child (pool_axis_str axis)) (db_claims d)) d)).

(** [SELECT COALESCE(SUM(share_bytes), 0)]. *)
Definition repo_pool_usage (parent : Uuid) (axis : PoolAxis) : MH Z :=
  total <- map_err HPersistence (statement (λ d,
    match sum_i64 0 (map cr_share_bytes
            (select_where (claim_on parent (pool_axis_str axis)) (db_claims d))) with
    | Some s => Ok (s, d)
    | None => Err "integer overflow"
    end)) ;;
  ret (i64_as_u64 total).

(** The loop of [path_exists]; [n] counts the lookups left before the guard
    stops it. *)
Fixpoint path_loop (n : nat) (ancestor current : Uuid) : MH bool :=
  if (current =? ancestor)%N then ret true
  else match n with
  | O => ret false
  | S n' =>
      next <- map_err HPersistence (select (λ d,
                List.find (active_child current) (db_relationships d))) ;;
      match next with
      | Some r => path_loop n' ancestor (rr_parent_id r)
      | None => ret false
      end
  end.

(** [guard] runs from 0 and the walk stops once it exceeds 1024. *)
Definition path_exists (ancestor descendant : Uuid) : MH bool :=
  path_loop 1025 ancestor descendant.

Definition exists_user (id : Uuid) : M World RepoError bool :=
  select (λ d, (0 <? Z.of_nat (length (select_where (id_is id) (db_users d))))%Z).
End hierarchy_repo.

(** ** [HierarchyService] *)

Record CreateChildRequest := mkCreateChild {
  req_username : string;
  req_email : string;
  req_password : string;
  req_role : Role;
  req_initial_plan_id : option Uuid
}.

Record PoolUsageRow := mkUsage {
  usage_axis : PoolAxis;
  usage_total_bytes : Z;
  usage_used_bytes : Z
}.

Definition pool_axis_label (a : PoolAxis) : string :=
  match a with
  | DiskBytes => "disk_bytes"
  | BandwidthBytesPerMonth => "bandwidth_bytes_per_month"
  | MaxChildAccounts => "max_child_accounts"
  end.

Definition can_create_child (caller child : Role) : bool :=
  match caller, child with
  | Owner, Admin | Owner, User | Admin, User => true
  | _, _ => false
  end.

Definition map_identity_err (e : IdentityError) : AccountHierarchyError :=
  match e with
  | ParentAccountCycle => Cycle
  | UserNotFound => HUserNotFound
  | Forbidden => HForbidden
  | e => HPersistence (identity_error_text e)
  end.

Definition number (z : Z) : Json := JNumber (of_bytes (show_Z z)).

(** The [parent -> children] map of [tree]. *)
Definition add_child (m : gmap Uuid (list Uuid)) (u : UserRec) : gmap Uuid (list Uuid) :=
  match u_parent_account_id u with
  | Some p => <[p := (kids_of m p ++ [u_id u])%list]> m
  | None => m
  end.

Definition by_parent_map (us : list UserRec) : gmap Uuid (list Uuid) :=
  fold_left add_child us ∅.

(** [append_children]: the node with its subtrees appended, in map order.  One turn
    of the loop labels the kid with its own first child when it has one. *)
Definition kid_node (m : gmap Uuid (list Uuid)) (parent kid : Uuid) (depth : Z) : HierarchyNode :=
  let parent_id :=
    match m !! kid with
    | Some (first :: _) => first
    | _ => parent
    end in
  Node kid (Some parent_id) (depth + 1) [].

Definition append_kid (descend : HierarchyNode → option HierarchyNode)
    (m : gmap Uuid (list Uuid)) (depth : Z) (acc : option HierarchyNode) (kid : Uuid)
    : option HierarchyNode :=
  match acc with
  | Some node =>
      match descend (kid_node m (node_user node) kid depth) with
      | Some child => Some (push_child child node)
      | None => None
      end
  | None => None
  end.

Fixpoint append_children (fuel : nat) (m : gmap Uuid (list Uuid)) (node : HierarchyNode)
    (depth : Z) : option HierarchyNode :=
  match fuel with
  | O => None
  | S fuel' =>
      fold_left (append_kid (λ n, append_children fuel' m n (depth + 1)) m depth)
        (kids_of m (node_user node)) (Some node)
  end.

Section hierarchy_service.
Context `{Env}.
Abbreviation MH A := (M World AccountHierarchyError A).

Definition require_account (id : Uuid) : MH UserRec :=
  o <- map_err HPersistence (users_find_by_id id) ;; ok_or o HUserNotFound.

Definition parent_metadata (parent : Uuid) : Json :=
  JObject [("parent_id", JString (uuid_text parent))].

Definition attach_child (parent child : Uuid) (actor : string) (actor_id : Uuid)
    : MH AccountRelationship :=
  if (parent =? child)%N then throw Cycle
  else
    require_account parent ;;;
    require_account child ;;;
    current <- parent_of child ;;
    match current with
    | Some _ => throw AlreadyAttached
    | None =>
        cycle <- path_exists parent child ;;
        if cycle : bool then throw Cycle
        else
          t <- now ;;
          let rel := relationship_new parent child actor_id t in
          insert_relationship rel ;;;
          map_err HPersistence (users_update_parent_account_id child (Some parent)) ;;;
          audit actor AccountHierarchyAttached Success
            (λ e, with_metadata (parent_metadata parent)
                    (with_target (uuid_text child) e)) ;;;
          ret rel
    end.

Definition detach_child (parent child : Uuid) (actor : string) : MH unit :=
  current <- parent_of child ;;
  rel <- ok_or current HUserNotFound ;;
  if negb (rel_parent_id rel =? parent)%N then throw HUserNotFound
  else
    detach parent child ;;;
    map_err HPersistence (users_update_parent_account_id child None) ;;;
    audit actor AccountHierarchyDetached Success
      (λ e, with_metadata (parent_metadata parent) (with_target (uuid_text child) e)).

(** [children]: the loop over the relationships. *)
Fixpoint load_users (rels : list AccountRelationship) : MH (list UserRec) :=
  match rels with
  | [] => ret []
  | rel :: rels' =>
      o <- map_err HPersistence (users_find_by_id (rel_child_id rel)) ;;
      us <- load_users rels' ;;
      ret (match o with Some u => u :: us | None => us end)
  end.

Definition children (parent : Uuid) : MH (list UserRec) :=
  rels <- children_of parent ;; load_users rels.

(** [tree]; the result is [None] when the recursion outlives the fuel. *)
Definition tree (fuel : nat) (root : Uuid) : MH (option HierarchyNode) :=
  u <- require_account root ;;
  us <- map_err HPersistence users_list ;;
  ret (append_children fuel (by_parent_map us)
         (Node (u_id u) (u_parent_account_id u) 0 []) 0).

Definition set_pool (parent : Uuid) (axis : PoolAxis) (total : Z) (actor : string)
    : MH QuotaPool :=
  t <- now ;;
  pool <- lift (pool_new parent axis total t) ;;
  upsert_pool pool ;;;
  audit actor AccountHierarchyPoolSet Success
    (λ e, with_metadata (JObject [("axis", JString (pool_axis_label axis));
                                  ("total_bytes", number total)])
            (with_target (uuid_text parent) e)) ;;;
  ret pool.

Definition axis_eqb (a b : PoolAxis) : bool := bool_decide (a = b).

Definition claim_pool (parent child : Uuid) (axis : PoolAxis) (share : Z) (actor : string)
    : MH PoolClaim :=
  pools <- pools_of parent ;;
  pool <- ok_or (List.find (λ p, axis_eqb (pool_axis p) axis) pools) PoolNotFound ;;
  used <- repo_pool_usage parent axis ;;
  lift (check_pool_claim (pool_total_bytes pool) used share) ;;;
  t <- now ;;
  claim <- lift (claim_new parent child axis share t) ;;
  insert_claim claim ;;;
  audit actor AccountHierarchyPoolClaimed Success
    (λ e, with_metadata (JObject [("axis", JString (pool_axis_label axis));
                                  ("parent_id", JString (uuid_text parent));
                                  ("share_bytes", number share)])
            (with_target (uuid_text child) e)) ;;;
  ret claim.

Definition release_claim (parent child : Uuid) (axis : PoolAxis) (actor : string) : MH unit :=
  remove_claim parent child axis ;;;
  audit actor AccountHierarchyPoolReleased Success
    (λ e, with_metadata (JObject [("axis", JString (pool_axis_label axis));
                                  ("parent_id", JString (uuid_text parent))])
            (with_target (uuid_text child) e)).

(** [pool_usage]: the loop over the pools. *)
Fixpoint usage_rows (parent : Uuid) (pools : list QuotaPool) : MH (list PoolUsageRow) :=
  match pools with
  | [] => ret []
  | p :: pools' =>
      used <- repo_pool_usage parent (pool_axis p) ;;
      rows <- usage_rows parent pools' ;;
      ret ({| usage_axis := pool_axis p; usage_total_bytes := pool_total_bytes p;
              usage_used_bytes := used |} :: rows)
  end.

Definition pool_usage (parent : Uuid) : MH (list PoolUsageRow) :=
  pools <- pools_of parent ;; usage_rows parent pools.

(** [create_child], in two parts: the checks that build the account, and the
    statements that store it. *)
Definition build_child (parent : Uuid) (req : CreateChildRequest) : MH UserRec :=
  p <- require_account parent ;;
  if negb (can_create_child (u_role p) (req_role req)) then throw HForbidden
  else
    password <- map_err (λ _, HPersistence "password too short")
                  (password_hash (req_password req)) ;;
    username <- lift (result_map_err (λ e, HPersistence (username_error_text e))
                        (username_new (req_username req))) ;;
    email <- lift (result_map_err (λ e, HPersistence (domain_error_text e))
                     (email_new (req_email req))) ;;
    id <- fresh_uuid ;;
    t <- now ;;
    lift (result_map_err map_identity_err
            (new_with_parents t id username email password (req_role req)
               (Some parent) (req_initial_plan_id req))).

Definition store_child (parent : Uuid) (plan : option Uuid) (actor : string)
    (actor_id : Uuid) (user : UserRec) : MH UserRec :=
  map_err HPersistence (users_insert user) ;;;
  t <- now ;;
  insert_relationship (relationship_new parent (u_id user) actor_id t) ;;;
  match plan with
  | Some p => map_err HPersistence (users_update_hosting_plan_id (u_id user) (Some p))
  | None => ret tt
  end ;;;
  audit actor AccountHierarchyChildCreated Success
    (λ e, with_metadata (parent_metadata parent)
            (with_target (uuid_text (u_id user)) e)) ;;;
  ret user.

Definition create_child (parent : Uuid) (req : CreateChildRequest) (actor : string)
    (actor_id : Uuid) : MH UserRec :=
  user <- build_child parent req ;;
  store_child parent (req_initial_plan_id req) actor actor_id user.

(** ** The service as a state machine *)

Inductive HierarchyOp : Type :=
| OpAttach (parent child : Uuid) (actor : string) (actor_id : Uuid)
| OpDetach (parent child : Uuid) (actor : string)
| OpSetPool (parent : Uuid) (axis : PoolAxis) (total : Z) (actor : string)
| OpClaim (parent child : Uuid) (axis : PoolAxis) (share : Z) (actor : string)
| OpRelease (parent child : Uuid) (axis : PoolAxis) (actor : string)
| OpCreateChild (parent : Uuid) (req : CreateChildRequest) (actor : string)
    (actor_id : Uuid).

Definition run_hier (op : HierarchyOp) (w : World) : World :=
  match op with
  | OpAttach p c a i => (attach_child p c a i w).2
  | OpDetach p c a => (detach_child p c a w).2
  | OpSetPool p x t a => (set_pool p x t a w).2
  | OpClaim p c x s a => (claim_pool p c x s a w).2
  | OpRelease p c x a => (release_claim p c x a w).2
  | OpCreateChild p r a i => (create_child p r a i w).2
  end.
End hierarchy_service.

(** ** The claim check *)

Lemma check_pool_claim_ok total used share :
  check_pool_claim total used share = Ok tt ↔
  (used + share ≤ total)%Z ∨ (U64_MAX ≤ total)%Z.
Proof.
  unfold check_pool_claim, u64_saturating_add. destruct (Z.ltb_spec total (Z.min (used + share) U64_MAX));
    split; try done; lia.
Qed.

(** Claim check.  [check_pool_claim] accepts exactly the requests that fit the
    remaining capacity, and every request against a pool of [u64::MAX]. *)
Theorem check_pool_claim_spec (total used share : Z) :
  is_u64 total →
  (check_pool_claim total used share = Ok tt ↔ (used + share ≤ total)%Z ∨ total = U64_MAX)
  ∧ (check_pool_claim total used share = Ok tt
     ∨ check_pool_claim total used share = Err PoolExhausted).
Proof.
  intros [? ?]. split; [rewrite check_pool_claim_ok; lia|].
  unfold check_pool_claim. destruct (_ <? _)%Z; auto.
Qed.
