(* ===== verification/HierarchyInvariant.v ===== *)
(** * The account invariant under the hierarchy service

    Every statement of the hierarchy repository and every method of the service
    keeps [accounts_wf], also when a later statement fails. *)
From S2P Require Import Prelude Text AuditActions AuditLog Accounts Store Users Identity Hierarchy.

(** ** The account invariant under the hierarchy statements *)

Lemma user_exists_In (id : Uuid) (d : Db) :
  user_exists id d = true ↔ In id (map ur_id (db_users d)).
Proof.
  unfold user_exists, id_is. rewrite existsb_exists, in_map_iff.
  split; intros (r & H1 & H2); exists r; rewrite N.eqb_eq in *; naive_solver.
Qed.

(** *** Decoding *)

Lemma axis_text_iff s : is_ok (parse_pool_axis s) = true ↔ axis_text s.
Proof.
  unfold parse_pool_axis, axis_text. cbn [In].
  destruct (String.eqb_spec s "disk_bytes") as [->|]; [naive_solver|].
  destruct (String.eqb_spec s "bandwidth_bytes_per_month") as [->|]; [naive_solver|].
  destruct (String.eqb_spec s "max_child_accounts") as [->|]; naive_solver.
Qed.

Lemma axis_str_text a : axis_text (pool_axis_str a).
Proof. apply axis_text_iff. by destruct a. Qed.

Lemma rel_row_ok_iff r : is_ok (into_relationship r) = true ↔ rel_row_ok r.
Proof.
  unfold into_relationship, parse_relationship_status, rel_row_ok. cbn [In].
  destruct (String.eqb_spec (rr_status r) "active") as [->|]; [naive_solver|].
  destruct (String.eqb_spec (rr_status r) "detached") as [->|]; naive_solver.
Qed.

Lemma pool_row_ok_iff r : is_ok (into_pool r) = true ↔ pool_row_ok r.
Proof.
  unfold into_pool, pool_row_ok, pool_new. rewrite <- axis_text_iff.
  destruct (parse_pool_axis _); cbn; [|naive_solver]. destruct (Z.eqb_spec (i64_as_u64 (pr_total_bytes r)) 0); naive_solver.
Qed.

Lemma claim_row_ok_iff r : is_ok (into_claim r) = true ↔ claim_row_ok r.
Proof.
  unfold into_claim, claim_row_ok, claim_new. rewrite <- axis_text_iff.
  destruct (parse_pool_axis _); cbn; [|naive_solver]. destruct (Z.eqb_spec (i64_as_u64 (cr_share_bytes r)) 0); naive_solver.
Qed.

(** *** Statements *)

(** A statement on the three hierarchy tables keeps the rest of the invariant. *)
Lemma hier_step (d d' : Db) :
  db_users d' = db_users d → db_sessions d' = db_sessions d → owner_refs d' = owner_refs d →
  (hier_wf (map ur_id (db_users d)) (db_relationships d) (db_pools d) (db_claims d) →
   hier_wf (map ur_id (db_users d)) (db_relationships d') (db_pools d') (db_claims d')) →
  accounts_step d d'.
Proof.
  intros Hu Hs Ho Hh []. split; [split; rewrite ?Ho, ?Hu, ?Hs; auto | unfold owner; by rewrite Hu].
Qed.

Lemma rel_is_key p c r : rel_is p c r = true ↔ rel_key r = (p, c).
Proof. unfold rel_is, rel_key. rewrite andb_true_iff, !N.eqb_eq. naive_solver. Qed.

Lemma pool_is_key p a r : pool_is p a r = true ↔ pool_key r = (p, a).
Proof. unfold pool_is, pool_key. rewrite andb_true_iff, N.eqb_eq, String.eqb_eq. naive_solver. Qed.

Lemma claim_is_key p c a r : claim_is p c a r = true ↔ claim_key r = (p, c, a).
Proof.
  unfold claim_is, claim_key. rewrite !andb_true_iff, !N.eqb_eq, String.eqb_eq. naive_solver.
Qed.

Lemma existsb_no_key {A K} (key : A → K) (p : A → bool) (k : K) (t : list A) :
  (∀ r, p r = true ↔ key r = k) → existsb p t = false → ~ In k (map key t).
Proof.
  intros Hp Hx (r & Hk & Hr)%in_map_iff. apply Hp in Hk.
  apply (proj1 (existsb_false _ _) Hx) in Hr. congruence.
Qed.

Lemma active_child_iff c r : active_child c r = true ↔ rr_child_id r = c ∧ rel_active r = true.
Proof. unfold active_child. rewrite andb_true_iff, N.eqb_eq. done. Qed.

Lemma insert_relationship_step (r : RelationshipRow) (d : Db) a d' :
  rel_row_ok r → existsb (active_child (rr_child_id r)) (db_relationships d) = false →
  insert_relationship_row r d = Ok (a, d') → accounts_step d d'.
Proof.
  unfold insert_relationship_row. intros Hok Hfree Hins.
  destruct (existsb (rel_is _ _) _) eqn:Ek; [done|].
  destruct (_ && _) eqn:Eu; [|done]. injection Hins as <- <-.
  apply andb_true_iff in Eu as [Ep%user_exists_In Ec%user_exists_In].
  assert (∀ x, In x (db_relationships d) → rel_active x = true →
    rr_child_id x ≠ rr_child_id r) as Hother.
  { intros x Hx Ha Hc. apply (proj1 (existsb_false _ _) Hfree) in Hx.
    assert (active_child (rr_child_id r) x = true) by by apply active_child_iff. congruence. }
  apply hier_step; [done..|]. intros [H1 H2 H3 H4 H5 H6 H7 H8 H9 H10]. split; cbn; try done.
  - apply (NoDup_snoc rel_key); [done|]. eapply existsb_no_key, Ek. apply rel_is_key.
  - intros x [Hx|[<-|[]]]%in_app_iff; auto.
  - intros x y [Hx|[<-|[]]]%in_app_iff [Hy|[<-|[]]]%in_app_iff Hax Hay Hxy; auto.
    + by apply Hother in Hxy.
    + by apply symmetry, Hother in Hxy.
  - intros x [Hx|[<-|[]]]%in_app_iff; [by apply H8 | exact Hok].
Qed.

Lemma detach_step (parent child : Uuid) (d : Db) :
  accounts_step d (set_relationships (update_where (rel_is parent child)
    (rel_set_status "detached") (db_relationships d)) d).
Proof.
  assert (∀ x, In x (update_where (rel_is parent child) (rel_set_status "detached")
    (db_relationships d)) → rel_active x = true → In x (db_relationships d)) as Hold.
  { intros x (x' & Hx & ->)%update_where_In. by destruct (rel_is _ _ x'). }
  apply hier_step; [done..|]. intros [H1 H2 H3 H4 H5 H6 H7 H8 H9 H10]. split; cbn; try done.
  - by rewrite update_where_key.
  - intros x (x' & Hx & ->)%update_where_In. destruct (rel_is _ _ x'); exact (H2 _ Hx).
  - intros x y Hx Hy Hax Hay. apply H3; auto.
  - intros x (x' & Hx & ->)%update_where_In. destruct (rel_is _ _ x'); [right; by left | by apply H8].
Qed.

Lemma upsert_pool_step (r : PoolRow) (d : Db) a d' :
  pool_row_ok r → upsert_pool_row r d = Ok (a, d') → accounts_step d d'.
Proof.
  unfold upsert_pool_row. intros Hok Hins.
  destruct (existsb (pool_is _ _) _) eqn:Ek.
  - injection Hins as <- <-. apply hier_step; [done..|].
    intros [H1 H2 H3 H4 H5 H6 H7 H8 H9 H10]. split; cbn; try done.
    + by rewrite update_where_key.
    + intros x (x' & Hx & ->)%update_where_In. destruct (pool_is _ _ x'); exact (H5 _ Hx).
    + intros x (x' & Hx & ->)%update_where_In. destruct (H9 _ Hx). destruct (pool_is _ _ x'); [|done].
      split; [done|]. apply Hok.
  - destruct (user_exists _ _) eqn:Eu; [|done]. injection Hins as <- <-.
    apply user_exists_In in Eu. apply hier_step; [done..|].
    intros [H1 H2 H3 H4 H5 H6 H7 H8 H9 H10]. split; cbn; try done.
    + apply (NoDup_snoc pool_key); [done|]. eapply existsb_no_key, Ek. apply pool_is_key.
    + intros x [Hx|[<-|[]]]%in_app_iff; auto.
    + intros x [Hx|[<-|[]]]%in_app_iff; auto.
Qed.

Lemma insert_claim_step (r : ClaimRow) (d : Db) a d' :
  claim_row_ok r → insert_claim_row r d = Ok (a, d') → accounts_step d d'.
Proof.
  unfold insert_claim_row. intros Hok Hins.
  destruct (existsb (claim_is _ _ _) _) eqn:Ek; [done|].
  destruct (_ && _) eqn:Eu; [|done]. injection Hins as <- <-.
  apply andb_true_iff in Eu as [Ep%user_exists_In Ec%user_exists_In].
  apply hier_step; [done..|]. intros [H1 H2 H3 H4 H5 H6 H7 H8 H9 H10]. split; cbn; try done.
  - apply (NoDup_snoc claim_key); [done|]. eapply existsb_no_key, Ek. apply claim_is_key.
  - intros x [Hx|[<-|[]]]%in_app_iff; auto.
  - intros x [Hx|[<-|[]]]%in_app_iff; auto.
Qed.

Lemma delete_claims_step (p : ClaimRow → bool) (d : Db) :
  accounts_step d (set_claims (delete_where p (db_claims d)) d).
Proof.
  apply hier_step; [done..|]. intros [H1 H2 H3 H4 H5 H6 H7 H8 H9 H10]. split; cbn; try done.
  - by apply delete_where_NoDup.
  - intros r [Hr _]%delete_where_In. auto.
  - intros r [Hr _]%delete_where_In. auto.
Qed.

Section hierarchy_steps.
Context `{Env}.

Lemma step_detach p c : within (on_db accounts_step) (detach p c).
Proof. apply within_map_err, on_db_execute; [apply _|]. intros d. apply detach_step. Qed.
Lemma step_upsert_pool parent axis total t p :
  is_u64 total → pool_new parent axis total t = Ok p → within (on_db accounts_step) (upsert_pool p).
Proof.
  intros Hu Hp. apply within_map_err, on_db_statement; [apply _|]. intros d a d'. apply upsert_pool_step.
  unfold pool_new in Hp. destruct (Z.eqb_spec total 0); [done|]. injection Hp as <-.
  split; [apply axis_str_text|]. cbn. by rewrite u64_i64_u64.
Qed.
Lemma step_insert_claim parent child axis share t c :
  is_u64 share → claim_new parent child axis share t = Ok c → within (on_db accounts_step) (insert_claim c).
Proof.
  intros Hu Hc. apply within_map_err, on_db_statement; [apply _|]. intros d a d'. apply insert_claim_step.
  unfold claim_new in Hc. destruct (Z.eqb_spec share 0); [done|]. injection Hc as <-.
  split; [apply axis_str_text|]. cbn. by rewrite u64_i64_u64.
Qed.
Lemma step_remove_claim p c x : within (on_db accounts_step) (remove_claim p c x).
Proof. apply within_map_err, on_db_execute; [apply _|]. intros d. apply delete_claims_step. Qed.

(** Reads change nothing, for any two-state property of the database. *)
Lemma read_pool_usage (R : relation Db) `{!PreOrder R} p x :
  within (on_db R) (repo_pool_usage p x).
Proof.
  unfold repo_pool_usage. within_tac. apply on_db_statement; [apply _|].
  intros d s d'. destruct (sum_i64 _ _); [|done]. by intros [= <- <-].
Qed.
Lemma read_parent_of (R : relation Db) `{!PreOrder R} c : within (on_db R) (parent_of c).
Proof. unfold parent_of. within_tac. Qed.
Lemma read_pools_of (R : relation Db) `{!PreOrder R} p : within (on_db R) (pools_of p).
Proof. unfold pools_of. within_tac. Qed.
Lemma read_path_loop (R : relation Db) `{!PreOrder R} n a c :
  within (on_db R) (path_loop n a c).
Proof.
  revert c. induction n as [|n IH]; intros c; cbn [path_loop];
    destruct (c =? a)%N; within_tac.
Qed.
Lemma read_require_account (R : relation Db) `{!PreOrder R} id :
  within (on_db R) (require_account id).
Proof. unfold require_account, users_find_by_id, fetch_user. within_tac. Qed.
End hierarchy_steps.

#[export] Hint Resolve step_detach step_remove_claim
  read_pool_usage read_parent_of read_pools_of read_path_loop read_require_account : within.

(** ** Reading relationships *)

Lemma select_where_nil {A} (p : A → bool) (t : list A) :
  select_where p t = [] → existsb p t = false.
Proof.
  intros Hs. apply existsb_false. intros r Hr. destruct (p r) eqn:E; [|done].
  assert (In r (select_where p t)) as Hin by by apply filter_In.
  by rewrite Hs in Hin.
Qed.

Lemma merge_sort_head_None {A} (R : relation A) `{!RelDecision R} (l : list A) :
  head (merge_sort R l) = None → l = [].
Proof.
  intros Hh. pose proof (merge_sort_Permutation R l) as Hp.
  destruct (merge_sort R l); [by apply Permutation_nil_l in Hp | done].
Qed.

Lemma merge_sort_head_In {A} (R : relation A) `{!RelDecision R} (l : list A) x :
  head (merge_sort R l) = Some x → In x l.
Proof.
  intros Hh. pose proof (merge_sort_Permutation R l) as Hp.
  destruct (merge_sort R l) as [|y l']; [done|]. injection Hh as ->.
  apply list_elem_of_In. rewrite <- Hp. apply list_elem_of_here.
Qed.

Lemma into_relationship_ok r rel :
  into_relationship r = Ok rel →
  rel_parent_id rel = rr_parent_id r ∧ rel_child_id rel = rr_child_id r.
Proof.
  unfold into_relationship. destruct (parse_relationship_status _); cbn; [|done].
  by intros [= <-].
Qed.

Section hierarchy_invariant.
Context `{Env}.

Lemma parent_of_run child w o w' :
  parent_of child w = (Ok o, w') →
  w_db w' = w_db w ∧ match o with
    | None => existsb (active_child child) (db_relationships (w_db w)) = false
    | Some rel => ∃ r, In r (db_relationships (w_db w)) ∧ active_child child r = true
                  ∧ rel_parent_id rel = rr_parent_id r
    end.
Proof.
  unfold parent_of. intros Hr. inv_bind Hr. apply map_err_ok, select_run in R as [Hdb [-> _]].
  apply lift_ok in Hr as [Ht ->]. split; [done|].
  destruct (head _) as [r|] eqn:Eh; cbn in Ht.
  - destruct (into_relationship r) as [rel|] eqn:Er; [|done]. injection Ht as <-.
    apply merge_sort_head_In, filter_In in Eh as [Hin Ha].
    apply into_relationship_ok in Er as [? _]. eauto.
  - injection Ht as <-. by apply merge_sort_head_None, select_where_nil in Eh.
Qed.

Lemma require_account_run id w u w' :
  require_account id w = (Ok u, w') →
  w_db w' = w_db w ∧ List.find (id_is id) (db_users (w_db w)) = Some (user_row u)
  ∧ u_id u = id.
Proof.
  unfold require_account. intros Hr. inv_bind Hr. apply map_err_ok, fetch_user_run in R as [Hdb Ho].
  apply ok_or_ok in Hr as [-> ->]. destruct Ho as [Hf _].
  by pose proof (find_id_row _ _ _ Hf) as [_ Hid].
Qed.

Lemma path_loop_run n a c w b w' : path_loop n a c w = (Ok b, w') → w_db w' = w_db w.
Proof.
  intros Hr. pose proof (read_path_loop (same id) n a c w) as Hs. rewrite Hr in Hs. exact Hs.
Qed.

Lemma step_insert_relationship rel w :
  (accounts_wf (w_db w) →
   existsb (active_child (rel_child_id rel)) (db_relationships (w_db w)) = false) →
  on_db accounts_step w (insert_relationship rel w).2.
Proof.
  intros Hfree. unfold insert_relationship. apply map_err_at. unfold statement.
  destruct (sql_fault _); [apply on_db_tick; apply _|].
  destruct (insert_relationship_row _ _) as [[x d']|] eqn:E; unfold on_db; cbn; [|reflexivity].
  intros Hwf. eapply (insert_relationship_step (relationship_row rel)); [|by apply Hfree | done..].
  unfold rel_row_ok. cbn. destruct (rel_status rel); naive_solver.
Qed.

Lemma step_attach p c a i : within (on_db accounts_step) (attach_child p c a i).
Proof.
  unfold attach_child. destruct (p =? c)%N; [within_tac|].
  apply within_bind; [apply _ | by apply read_require_account, _ | intros _].
  apply within_bind; [apply _ | by apply read_require_account, _ | intros _].
  apply within_bind_run; [by apply read_parent_of, _|].
  intros w o w1 Hp Hs. etransitivity; [exact Hs|].
  apply parent_of_run in Hp as [Hdb Ho]. destruct o; [apply within_throw; apply _|].
  apply bind_at; [apply _ | by apply read_path_loop, _|]. intros b w2 Hl%path_loop_run.
  destruct b; [apply within_throw; apply _|].
  apply bind_at; [apply _ | apply on_db_now; apply _|]. intros t w3 [= _ <-].
  apply bind_at; [apply _ | |].
  - apply step_insert_relationship. cbn. intros _. by rewrite Hl, Hdb.
  - intros _ w4 _. enough (within (on_db accounts_step)
      (map_err HPersistence (users_update_parent_account_id c (Some p)) ;;;
       audit a AccountHierarchyAttached Success (λ e, with_metadata (parent_metadata p)
         (with_target (uuid_text c) e)) ;;; ret (relationship_new p c i t))) as Hw by apply Hw.
    within_tac.
Qed.

(** Just after an account was inserted nothing refers to it. *)
Lemma users_insert_fresh u w x w' :
  accounts_wf (w_db w) → users_insert u w = (Ok x, w') →
  db_relationships (w_db w') = db_relationships (w_db w)
  ∧ ∀ r, In r (db_relationships (w_db w)) → rr_parent_id r ≠ u_id u ∧ rr_child_id r ≠ u_id u.
Proof.
  intros Hwf. unfold users_insert, statement. destruct (sql_fault _); [done|].
  unfold insert_user_row. destruct (existsb _ _) eqn:E1; [done|].
  destruct (existsb _ _) in |- *; [done|]. destruct (existsb _ _) in |- *; [done|].
  intros [= <- <-]. split; [done|]. cbn in E1.
  assert (~ In (u_id u) (map ur_id (db_users (w_db w)))) as Hnew
    by (eapply existsb_key_false, E1; apply N.eqb_eq).
  intros r Hr. pose proof (wf_rel_users _ _ _ _ (wf_hier _ Hwf) r Hr) as [Hp Hc].
  split; intros Heq; apply Hnew; by rewrite <- Heq.
Qed.

Lemma fresh_child_free u w x w' :
  accounts_wf (w_db w) → users_insert u w = (Ok x, w') →
  existsb (active_child (u_id u)) (db_relationships (w_db w')) = false.
Proof.
  intros Hwf Hi. destruct (users_insert_fresh _ _ _ _ Hwf Hi) as [-> Hno].
  apply existsb_false. intros r Hr. destruct (Hno r Hr) as [_ Hc].
  unfold active_child. by apply N.eqb_neq in Hc as ->.
Qed.

(** Sequencing where the continuation may use the invariant at the start. *)
Lemma step_bind_wf {E A B} (c : M World E A) (k : A → M World E B) :
  within (on_db accounts_step) c →
  (∀ w a w', accounts_wf (w_db w) → c w = (Ok a, w') → on_db accounts_step w' (k a w').2) →
  within (on_db accounts_step) (bind c k).
Proof.
  intros Hc Hk w Hwf. refine (bind_at (on_db accounts_step) c k w (Hc w) _ Hwf).
  intros a w' Hrun. by eapply Hk.
Qed.

(** What a successful [build_child] has checked. *)
Lemma build_child_run parent req w u w' :
  build_child parent req w = (Ok u, w') →
  w_db w' = w_db w
  ∧ is_ok (username_new (u_username u)) = true ∧ is_ok (email_new (u_email u)) = true
  ∧ u_parent_account_id u = Some parent ∧ u_role u = req_role req
  ∧ u_hosting_plan_id u = req_initial_plan_id req
  ∧ ∃ p, In (user_row p) (db_users (w_db w)) ∧ u_id p = parent
         ∧ can_create_child (u_role p) (u_role u) = true.
Proof.
  unfold build_child. intros Hr. inv_bind Hr. apply require_account_run in R as (Hdb & Hf & Hid).
  apply List.find_some in Hf as [Hf _].
  destruct (can_create_child _ _) eqn:Ec; cbn [negb] in Hr; [|done].
  inv_bind Hr. apply map_err_ok in R. pose proof (frame_password_hash (req_password req) w0) as Hw1.
  rewrite R in Hw1. cbn in Hw1. inv_bind Hr. apply lift_ok in R0 as [Hn ->].
  inv_bind Hr. apply lift_ok in R0 as [He ->]. do 2 inv_bind Hr.
  injection R0 as <- <-. injection R1 as <- <-. apply lift_ok in Hr as [Hu ->].
  apply result_map_err_ok in Hu.
  destruct (new_user_valid _ _ _ _ _ _ _ _ _ _ _ _ _ Hn He Hu) as [Hvn Hve].
  unfold new_with_parents in Hu. destruct (_ =? _)%N; [done|]. injection Hu as <-.
  cbn in *. split_and!; try done; [congruence|]. exists a. done.
Qed.

Lemma step_store_child p plan a i u :
  is_ok (username_new (u_username u)) = true → is_ok (email_new (u_email u)) = true →
  within (on_db accounts_step) (store_child p plan a i u).
Proof.
  intros Hvn Hve. unfold store_child.
  apply step_bind_wf; [by apply within_map_err, step_users_insert|].
  intros w x w1 Hwf Hi%map_err_ok.
  apply bind_at; [apply _ | apply on_db_now; apply _|]. intros t' w2 [= _ <-].
  apply bind_at; [apply _ | |].
  - apply step_insert_relationship. cbn. intros _. by eapply fresh_child_free.
  - intros _ w3 _. revert w3. match goal with |- ∀ w, on_db _ w (?c w).2 =>
      enough (within (on_db accounts_step) c) by done end.
    within_tac.
Qed.

Lemma read_build_child (R : relation Db) `{!PreOrder R} p req :
  within (on_db R) (build_child p req).
Proof.
  assert (∀ pw, within (on_db R) (password_hash pw)) as Hph.
  { intros pw w. unfold on_db. by rewrite frame_password_hash. }
  unfold build_child. apply within_bind; [apply _ | by apply read_require_account |].
  intros u. destruct (negb _); within_tac.
Qed.

Lemma step_create_child p req a i : within (on_db accounts_step) (create_child p req a i).
Proof.
  unfold create_child. apply step_bind_wf; [by apply read_build_child, _|].
  intros w u w1 _ Hb. apply build_child_run in Hb as (_ & Hn & He & _).
  by apply step_store_child.
Qed.

(** The amounts of a request are [u64]s. *)
Definition u64_amounts (op : HierarchyOp) : Prop :=
  match op with
  | OpSetPool _ _ total _ => is_u64 total
  | OpClaim _ _ _ share _ => is_u64 share
  | _ => True
  end.

Lemma step_run_hier op w : u64_amounts op → on_db accounts_step w (run_hier op w).
Proof.
  destruct op; cbn [run_hier u64_amounts]; intros Hu.
  - apply step_attach.
  - enough (within (on_db accounts_step) (detach_child parent child actor)) by done.
    unfold detach_child. within_tac.
  - enough (within (on_db accounts_step) (set_pool parent axis total actor)) by done.
    unfold set_pool. within_tac. by eapply step_upsert_pool.
  - enough (within (on_db accounts_step) (claim_pool parent child axis share actor)) by done.
    unfold claim_pool. within_tac. by eapply step_insert_claim.
  - enough (within (on_db accounts_step) (release_claim parent child axis actor)) by done.
    unfold release_claim. within_tac.
  - apply step_create_child.
Qed.
End hierarchy_invariant.

(** ** Pool methods and the other tables *)

Section pool_frames.
Context `{Env}.

Definition links_of_db (d : Db) := (db_users d, db_relationships d).

#[local] Instance links_of_db_blind : AuditBlind (same links_of_db).
Proof. done. Qed.

Lemma frame_set_pool p x t a : within (on_db (same links_of_db)) (set_pool p x t a).
Proof.
  unfold set_pool, upsert_pool. within_tac. apply on_db_statement; [apply _|].
  intros d y d'. unfold upsert_pool_row.
  destruct (existsb _ _); [|destruct (user_exists _ _); [|done]]; by intros [= <- <-].
Qed.

Lemma frame_claim_pool p c x s a : within (on_db (same links_of_db)) (claim_pool p c x s a).
Proof.
  unfold claim_pool, insert_claim. within_tac. apply on_db_statement; [apply _|].
  intros d y d'. unfold insert_claim_row.
  destruct (existsb _ _); [done|]. destruct (_ && _); [|done]. by intros [= <- <-].
Qed.

Lemma frame_release_claim p c x a : within (on_db (same links_of_db)) (release_claim p c x a).
Proof.
  unfold release_claim, remove_claim. within_tac. by apply on_db_execute; [apply _|].
Qed.
End pool_frames.

(** ** Properties *)

(** The identity and the hierarchy service run on the same tables, in any order. *)
Inductive account_step `{Env} `{TwoFactorService} : World → World → Prop :=
| StepIdentity op w : account_step w (run_op op w)
| StepHierarchy op w : u64_amounts op → account_step w (run_hier op w).

(** Account tables.  Along any sequence of identity and hierarchy operations,
    whatever their outcome and wherever a statement fails, ids, usernames, emails,
    session hashes and relationship, pool and claim keys stay unique, every row still
    decodes, every session, relationship, pool and claim refers to stored accounts, a
    child has at most one active parent, and no owner account is lost or demoted. *)
Theorem account_tables_invariant `{Env} `{TwoFactorFrame} (w w' : World) :
  rtc account_step w w' → accounts_wf (w_db w) →
  accounts_wf (w_db w') ∧ ∀ id, owner (w_db w) id → owner (w_db w') id.
Proof.
  intros Hr Hwf. induction Hr as [w|w w1 w' Hs _ IH]; [done|].
  assert (accounts_step (w_db w) (w_db w1)) as Hst
    by (destruct Hs; [apply step_run_op | by apply step_run_hier]).
  destruct (Hst Hwf) as [Hwf1 Ho1]. destruct (IH Hwf1) as [Hwf' Ho']. auto.
Qed.
