(* ===== verification/HierarchyLinks.v ===== *)
(** * Attaching, detaching and creating children

    What the relationship methods of [HierarchyService] do when statements do not
    fail, and the agreement of the two records of the hierarchy: the parent column of
    [users] and the active rows of [account_relationships]. *)
From S2P Require Import Prelude Text AuditActions AuditLog Accounts Store Users Identity Hierarchy HierarchyInvariant.

(** [c]'s account row names [p] as its parent. *)
Definition child_of (d : Db) (p c : Uuid) : Prop :=
  ∃ r, In r (db_users d) ∧ ur_id r = c ∧ ur_parent_account_id r = Some p.

(** ** Attaching and detaching without faults *)

Definition REL_PK : string := "account_relationships.parent_id, account_relationships.child_id".

Section attach_theorems.
Context `{Env}.
Hypothesis no_faults : ∀ k, sql_fault k = None.

Lemma require_account_no_fault id w :
  accounts_wf (w_db w) →
  if user_exists id (w_db w)
  then ∃ u, require_account id w = (Ok u, tick w) ∧ u_id u = id
            ∧ List.find (id_is id) (db_users (w_db w)) = Some (user_row u)
  else require_account id w = (Err HUserNotFound, tick w).
Proof using no_faults.
  intros Hwf. unfold require_account, users_find_by_id, fetch_user, map_err, bind.
  rewrite select_no_fault by done. destruct (user_exists id (w_db w)) eqn:E.
  - apply user_exists_In in E. destruct (find_user_wf _ _ Hwf E) as (u & Hf & Hu & _ & Hid).
    exists u. rewrite Hf. cbn. unfold transpose, result_bind. by rewrite Hu.
  - assert (List.find (id_is id) (db_users (w_db w)) = None) as ->; [|done].
    destruct (List.find _ _) as [r|] eqn:Ef; [|done]. exfalso.
    apply List.find_some in Ef as [Hin Hid]. unfold user_exists in E.
    apply (proj1 (existsb_false _ _) E) in Hin. congruence.
Qed.

Lemma parent_of_no_fault child w :
  ∃ o, parent_of child w = (Ok o, tick w) ∧ match o with
    | None => existsb (active_child child) (db_relationships (w_db w)) = false
    | Some rel => ∃ r, In r (db_relationships (w_db w)) ∧ active_child child r = true
                  ∧ rel_parent_id rel = rr_parent_id r
    end.
Proof using no_faults.
  destruct (parent_of child w) as [[o|e] w'] eqn:E.
  - exists o. pose proof (parent_of_run _ _ _ _ E) as [Hdb Ho]. split; [|done].
    do 2 f_equal. unfold parent_of, bind, map_err in E.
    rewrite select_no_fault in E by done. by apply lift_ok in E as [_ ->].
  - exfalso. unfold parent_of, bind, map_err in E. rewrite select_no_fault in E by done.
    destruct (head _) as [r|] eqn:Eh; cbn in E; [|done].
    apply merge_sort_head_In, filter_In in Eh as [_ [_ Ha]%active_child_iff].
    unfold rel_active in Ha. apply String.eqb_eq in Ha.
    unfold into_relationship, parse_relationship_status in E. by rewrite Ha in E.
Qed.

Lemma path_exists_top ancestor child w :
  (child =? ancestor)%N = false →
  existsb (active_child child) (db_relationships (w_db w)) = false →
  path_exists ancestor child w = (Ok false, tick w).
Proof using no_faults.
  intros Hne Hnone. unfold path_exists. generalize 1024%nat as k. intros k.
  cbn [path_loop]. rewrite Hne. unfold bind, map_err. rewrite select_no_fault by done.
  assert (List.find (active_child child) (db_relationships (w_db w)) = None) as ->; [|done].
  destruct (List.find _ _) as [r|] eqn:Ef; [|done]. apply List.find_some in Ef as [Hin Ha].
  apply (proj1 (existsb_false _ _) Hnone) in Hin. congruence.
Qed.

Lemma audit_frame {E} a act out b w :
  ∃ w', audit (E:=E) a act out b w = (Ok tt, w') ∧ accounts_of (w_db w') = accounts_of (w_db w).
Proof using Type. exact (audit_ok (same accounts_of) a act out b w). Qed.

Lemma insert_relationship_no_fault rel w :
  let p := rel_parent_id rel in let c := rel_child_id rel in
  if existsb (rel_is p c) (db_relationships (w_db w))
  then insert_relationship rel w = (Err (HPersistence (constraint_text REL_PK)), tick w)
  else user_exists p (w_db w) && user_exists c (w_db w) = true →
    ∃ w', insert_relationship rel w = (Ok tt, w')
      ∧ w_db w' = set_relationships (db_relationships (w_db w) ++ [relationship_row rel]) (w_db w).
Proof using no_faults.
  cbn. unfold insert_relationship, map_err, statement. rewrite no_faults.
  unfold insert_relationship_row. cbn.
  destruct (existsb _ _); [done|]. intros ->. by eexists.
Qed.

(** What [attach_child] answers, read off the tables. *)
Definition attach_refusal (parent child : Uuid) (d : Db) : option AccountHierarchyError :=
  if (parent =? child)%N then Some Cycle
  else if negb (user_exists parent d && user_exists child d) then Some HUserNotFound
  else if existsb (active_child child) (db_relationships d) then Some AlreadyAttached
  else if existsb (rel_is parent child) (db_relationships d)
  then Some (HPersistence (constraint_text REL_PK))
  else None.

Definition attached_row (parent child actor_id : Uuid) (t : DateTime) : RelationshipRow :=
  relationship_row (relationship_new parent child actor_id t).

Lemma attach_exact parent child actor actor_id w :
  accounts_wf (w_db w) →
  ∃ w', match attach_refusal parent child (w_db w) with
  | Some e =>
      attach_child parent child actor actor_id w = (Err e, w') ∧ w_db w' = w_db w
  | None => ∃ t,
      attach_child parent child actor actor_id w
      = (Ok (relationship_new parent child actor_id t), w')
      ∧ accounts_of (w_db w') =
        (update_where (id_is child) (row_set_parent (Some parent)) (db_users (w_db w)),
         db_sessions (w_db w),
         (db_relationships (w_db w) ++ [attached_row parent child actor_id t])%list,
         db_pools (w_db w), db_claims (w_db w), owner_refs (w_db w))
  end.
Proof using no_faults.
  intros Hwf. unfold attach_refusal, attach_child.
  destruct (parent =? child)%N eqn:Epc; [by eexists|].
  pose proof (require_account_no_fault parent w Hwf) as Hp.
  destruct (user_exists parent (w_db w)) eqn:Ep; cbn [andb negb];
    [|rewrite (bind_stop _ _ _ _ _ Hp); by eexists].
  destruct Hp as (pu & Hp & _). rewrite (bind_run _ _ _ _ _ Hp).
  pose proof (require_account_no_fault child (tick w) Hwf) as Hc. cbn [w_db tick] in Hc.
  destruct (user_exists child (w_db w)) eqn:Ec; cbn [negb];
    [|rewrite (bind_stop _ _ _ _ _ Hc); by eexists].
  destruct Hc as (cu & Hc & _). rewrite (bind_run _ _ _ _ _ Hc).
  destruct (parent_of_no_fault child (tick (tick w))) as (o & Hpo & Ho). cbn [w_db tick] in Ho.
  rewrite (bind_run _ _ _ _ _ Hpo). destruct o as [rel|].
  { destruct Ho as (r & Hr & Ha & _).
    assert (existsb (active_child child) (db_relationships (w_db w)) = true) as ->
      by (apply existsb_exists; eauto). by eexists. }
  rewrite Ho. erewrite bind_run by (apply path_exists_top; [by rewrite N.eqb_sym | done]).
  cbv beta iota zeta. erewrite bind_run by reflexivity.
  pose proof (insert_relationship_no_fault (relationship_new parent child actor_id
    (utc_now (w_step (tick (tick (tick (tick w))))))) (tick (tick (tick (tick (tick w)))))) as Hi.
  cbn [w_db tick rel_parent_id rel_child_id relationship_new] in Hi. rewrite Ep, Ec in Hi.
  destruct (existsb (rel_is parent child) _) eqn:Ek.
  { rewrite (bind_stop _ _ _ _ _ Hi). by eexists. }
  destruct (Hi eq_refl) as [w1 [Hi' Hdb]]. rewrite (bind_run _ _ _ _ _ Hi').
  unfold users_update_parent_account_id, update_users.
  erewrite bind_run by (apply map_err_run, execute_no_fault, no_faults).
  edestruct (audit_frame (E:=AccountHierarchyError)) as (w' & Ha & Hf).
  rewrite (bind_run _ _ _ _ _ Ha). exists w'. eexists. split; [reflexivity|].
  rewrite Hf. cbn. by rewrite Hdb.
Qed.
End attach_theorems.

Section agreement.
Context `{Env}.
Hypothesis no_faults : ∀ k, sql_fault k = None.

Lemma detach_exact parent child actor w :
  accounts_wf (w_db w) →
  (∃ r, In r (db_relationships (w_db w)) ∧ rr_parent_id r = parent
        ∧ active_child child r = true) →
  ∃ w', detach_child parent child actor w = (Ok tt, w')
    ∧ accounts_of (w_db w') =
      (update_where (id_is child) (row_set_parent None) (db_users (w_db w)),
       db_sessions (w_db w),
       update_where (rel_is parent child) (rel_set_status "detached")
         (db_relationships (w_db w)),
       db_pools (w_db w), db_claims (w_db w), owner_refs (w_db w)).
Proof using no_faults.
  intros Hwf (r & Hr & Hp & Hact). unfold detach_child.
  destruct (parent_of_no_fault no_faults child w) as (o & Hpo & Ho).
  rewrite (bind_run _ _ _ _ _ Hpo). destruct o as [rel|].
  2: { apply (proj1 (existsb_false _ _) Ho) in Hr. congruence. }
  destruct Ho as (r' & Hr' & Hact' & Hrp). cbn [ok_or].
  assert (r' = r) as ->.
  { apply active_child_iff in Hact as [??], Hact' as [??].
    eapply (wf_one_parent _ _ _ _ (wf_hier _ Hwf)); [done..|congruence]. }
  rewrite Hp in Hrp. erewrite bind_run by reflexivity. rewrite Hrp, N.eqb_refl. cbn [negb].
  unfold detach, users_update_parent_account_id, update_users.
  erewrite bind_run by (apply map_err_run, execute_no_fault, no_faults).
  erewrite bind_run by (apply map_err_run, execute_no_fault, no_faults).
  edestruct (audit_frame (E:=AccountHierarchyError)) as (w' & Ha & Hf).
  exists w'. split; [exact Ha|]. by rewrite Hf.
Qed.

Lemma detach_refused parent child actor w r w' :
  detach_child parent child actor w = (r, w') →
  w_db w' = w_db w ∨ ∃ x, In x (db_relationships (w_db w)) ∧ rr_parent_id x = parent
                           ∧ active_child child x = true.
Proof using no_faults.
  unfold detach_child. destruct (parent_of_no_fault no_faults child w) as (o & Hpo & Ho).
  rewrite (bind_run _ _ _ _ _ Hpo). destruct o as [rel|]; cbn [ok_or].
  - erewrite bind_run by reflexivity. destruct (N.eqb_spec (rel_parent_id rel) parent); cbn [negb].
    + right. destruct Ho as (x & ? & ? & ?). exists x. split_and!; congruence.
    + intros [= <- <-]. by left.
  - intros [= <- <-]. by left.
Qed.

(** A successful [create_child] adds one account and one active relationship. *)
Lemma store_child_exact parent plan actor actor_id u w r w' :
  accounts_wf (w_db w) → user_exists parent (w_db w) = true →
  u_hosting_plan_id u = plan →
  store_child parent plan actor actor_id u w = (r, w') →
  match r with
  | Err _ => accounts_of (w_db w') = accounts_of (w_db w)
  | Ok u' => ∃ t, u' = u ∧ accounts_of (w_db w') =
      ((db_users (w_db w) ++ [user_row u])%list, db_sessions (w_db w),
       (db_relationships (w_db w) ++ [attached_row parent (u_id u) actor_id t])%list,
       db_pools (w_db w), db_claims (w_db w), owner_refs (w_db w))
  end.
Proof using no_faults.
  intros Hwf Hp Hplan. unfold store_child.
  destruct (users_insert u w) as [[[]|e] w1] eqn:Ei.
  2: { erewrite bind_stop by (apply map_err_stop, Ei). intros [= <- <-].
       unfold users_insert, statement in Ei. rewrite no_faults in Ei.
       destruct (insert_user_row _ _) as [[]|]; [done|]. by injection Ei as _ <-. }
  erewrite bind_run by (apply map_err_run, Ei).
  pose proof (users_insert_fresh _ _ _ _ Hwf Ei) as [_ Hno].
  assert (w_db w1 = set_users (db_users (w_db w) ++ [user_row u]) (w_db w)
    ∧ ∀ x, In x (db_users (w_db w)) → id_is (u_id u) x = false) as [Hdb Hids].
  { unfold users_insert, statement in Ei. rewrite no_faults in Ei.
    unfold insert_user_row in Ei. destruct (existsb _ _) eqn:E1; [done|].
    destruct (existsb _ _) in Ei; [done|]. destruct (existsb _ _) in Ei; [done|].
    injection Ei as <-. split; [done|]. by apply existsb_false. }
  erewrite bind_run by reflexivity.
  pose proof (insert_relationship_no_fault no_faults (relationship_new parent (u_id u) actor_id
    (utc_now (w_step w1))) (tick w1)) as Hi. cbn [rel_parent_id rel_child_id relationship_new] in Hi.
  destruct (existsb _ _) eqn:Ek.
  { exfalso. cbn in Ek. rewrite Hdb in Ek. apply existsb_exists in Ek as (x & Hx & Hk).
    apply rel_is_key in Hk. apply Hno in Hx as [_ []]. by injection Hk. }
  destruct Hi as (w2 & Hi & Hdb2).
  { cbn. rewrite Hdb. apply andb_true_iff; split; apply existsb_exists.
    - apply existsb_exists in Hp as (x & Hx & Hxp). exists x. cbn. rewrite in_app_iff. auto.
    - exists (user_row u). cbn. rewrite in_app_iff. split; [right; by left | apply N.eqb_refl]. }
  rewrite (bind_run _ _ _ _ _ Hi). cbn in Hdb2. rewrite Hdb in Hdb2.
  assert (∃ w3, match plan with
    | Some p => map_err HPersistence (users_update_hosting_plan_id (u_id u) (Some p))
    | None => ret tt end w2 = (Ok tt, w3) ∧ w_db w3 = w_db w2) as (w3 & Hw3 & Hdb3).
  { destruct plan as [p|]; [|by eexists]. eexists. split.
    - unfold users_update_hosting_plan_id, update_users.
      apply map_err_run, execute_no_fault, no_faults.
    - cbn -[update_where]. rewrite Hdb2. unfold set_users, set_relationships. cbn -[update_where].
      rewrite update_where_snoc_fresh; [|done | apply N.eqb_refl].
      do 2 f_equal. unfold row_set_plan, user_row. cbn. by rewrite Hplan. }
  rewrite (bind_run _ _ _ _ _ Hw3).
  edestruct (audit_frame (E:=AccountHierarchyError)) as (w4 & Ha & Hf).
  rewrite (bind_run _ _ _ _ _ Ha). intros [= <- <-]. eexists. split; [done|].
  rewrite Hf. unfold accounts_of. by rewrite Hdb3, Hdb2.
Qed.

Lemma create_child_exact parent req actor actor_id w r w' :
  accounts_wf (w_db w) → create_child parent req actor actor_id w = (r, w') →
  match r with
  | Err _ => accounts_of (w_db w') = accounts_of (w_db w)
  | Ok u => ∃ t, u_parent_account_id u = Some parent ∧ u_role u = req_role req
      ∧ (∃ p, In (user_row p) (db_users (w_db w)) ∧ u_id p = parent
              ∧ can_create_child (u_role p) (u_role u) = true)
      ∧ accounts_of (w_db w') =
        ((db_users (w_db w) ++ [user_row u])%list, db_sessions (w_db w),
         (db_relationships (w_db w) ++ [attached_row parent (u_id u) actor_id t])%list,
         db_pools (w_db w), db_claims (w_db w), owner_refs (w_db w))
  end.
Proof using no_faults.
  intros Hwf. unfold create_child.
  destruct (build_child parent req w) as [[u|e] w1] eqn:Eb.
  - rewrite (bind_run _ _ _ _ _ Eb). apply build_child_run in Eb as (Hdb & _ & _ & Hpar & Hrole & Hplan & p & Hp & Hid & Hcan).
    intros Hs. apply store_child_exact in Hs; rewrite ?Hdb in *; [|done| |done].
    + destruct r as [u'|]; [|done]. destruct Hs as (t & -> & Hacc). exists t. eauto 10.
    + apply user_exists_In. rewrite <- Hid. change (u_id p) with (ur_id (user_row p)).
      by apply in_map.
  - rewrite (bind_stop _ _ _ _ _ Eb). intros [= <- <-].
    pose proof (read_build_child (same id) parent req w) as Hs. rewrite Eb in Hs.
    unfold on_db, same, id in Hs. cbn in Hs. by rewrite Hs.
Qed.

(** *** The parent column and the relationship table say the same *)

Definition linked (d : Db) (p c : Uuid) : Prop :=
  ∃ r, In r (db_relationships d) ∧ rr_parent_id r = p ∧ active_child c r = true.
Definition parents_agree (d : Db) : Prop := ∀ p c, child_of d p c ↔ linked d p c.

Lemma child_of_set_parent d d' child parent p c :
  db_users d' = update_where (id_is child) (row_set_parent parent) (db_users d) →
  In child (map ur_id (db_users d)) →
  child_of d' p c ↔ if (c =? child)%N then parent = Some p else child_of d p c.
Proof using Type.
  unfold child_of. intros -> (x & Hxid & Hx)%in_map_iff. destruct (N.eqb_spec c child) as [->|Hne].
  - split.
    + intros (r & (r' & Hr & ->)%update_where_In & Hid & Hpar).
      destruct (id_is child r') eqn:E; [done|]. apply N.eqb_neq in E. congruence.
    + intros ->. exists (row_set_parent (Some p) x). rewrite update_where_In.
      split_and!; [|done..]. exists x. unfold id_is. by rewrite Hxid, N.eqb_refl.
  - split.
    + intros (r & (r' & Hr & ->)%update_where_In & Hid & Hpar).
      destruct (id_is child r') eqn:E; [apply N.eqb_eq in E; cbn in *; congruence|]. eauto.
    + intros (r & Hr & Hid & Hpar). exists r. rewrite update_where_In. split_and!; [|done..].
      exists r. split; [done|]. unfold id_is. rewrite Hid. by apply N.eqb_neq in Hne as ->.
Qed.

Lemma linked_attached d d' parent child i t p c :
  db_relationships d' = (db_relationships d ++ [attached_row parent child i t])%list →
  linked d' p c ↔ linked d p c ∨ (p = parent ∧ c = child).
Proof using Type.
  unfold linked. intros ->. split.
  - intros (r & [Hr|[<-|[]]]%in_app_iff & Hp & Ha); [left; eauto|].
    apply active_child_iff in Ha as [Hc _]. right. done.
  - intros [(r & Hr & Hp & Ha)|[-> ->]].
    + exists r. rewrite in_app_iff. auto.
    + exists (attached_row parent child i t). rewrite in_app_iff. split_and!; [|done|].
      * right; by left.
      * by apply active_child_iff.
Qed.

Lemma agree_attach parent child actor i w :
  accounts_wf (w_db w) → parents_agree (w_db w) →
  parents_agree (w_db (attach_child parent child actor i w).2).
Proof using no_faults.
  intros Hwf Hag. destruct (attach_exact no_faults parent child actor i w Hwf) as (w' & Hat).
  destruct (attach_refusal parent child (w_db w)) as [e|] eqn:Er.
  { destruct Hat as [-> Hdb]. cbn. by rewrite Hdb. }
  destruct Hat as (t & -> & Hacc). unfold accounts_of in Hacc. injection Hacc as Hu _ Hr _ _ _. cbn.
  unfold attach_refusal in Er. destruct (parent =? child)%N; [done|].
  destruct (user_exists child (w_db w)) eqn:Ec; [|by rewrite andb_false_r in Er].
  destruct (negb _); [done|]. destruct (existsb (active_child child) _) eqn:Ea; [done|].
  apply user_exists_In in Ec. intros p c.
  rewrite (child_of_set_parent _ _ _ _ _ _ Hu Ec), (linked_attached _ _ _ _ _ _ _ _ Hr).
  rewrite <- (Hag p c). destruct (N.eqb_spec c child) as [->|Hne]; [|naive_solver].
  split; [intros [= ->]; auto|]. intros [(x & Hx & _ & Ha)%Hag|[-> _]]; [|done].
  apply (proj1 (existsb_false _ _) Ea) in Hx. congruence.
Qed.

Lemma agree_detach parent child actor w :
  accounts_wf (w_db w) → parents_agree (w_db w) →
  parents_agree (w_db (detach_child parent child actor w).2).
Proof using no_faults.
  intros Hwf Hag. destruct (detach_child parent child actor w) as [r w'] eqn:Ed. cbn.
  destruct (detach_refused _ _ _ _ _ _ Ed) as [->|Hlink]; [done|].
  destruct (detach_exact parent child actor w Hwf Hlink) as (w1 & Ed' & Hacc).
  rewrite Ed in Ed'. injection Ed' as -> ->.
  unfold accounts_of in Hacc. injection Hacc as Hu _ Hr _ _ _.
  destruct Hlink as (x & Hx & Hxp & Hxa). apply active_child_iff in Hxa as [Hxc Hxa].
  assert (In child (map ur_id (db_users (w_db w)))) as Hin.
  { rewrite <- Hxc. eapply (wf_rel_users _ _ _ _ (wf_hier _ Hwf)), Hx. }
  intros p c. rewrite (child_of_set_parent _ _ _ _ _ _ Hu Hin).
  assert (∀ y, In y (db_relationships (w_db w)) → active_child child y = true → y = x) as Hone.
  { intros y Hy [Hyc Hya]%active_child_iff.
    eapply (wf_one_parent _ _ _ _ (wf_hier _ Hwf)); [done..|congruence]. }
  unfold linked. rewrite Hr. destruct (N.eqb_spec c child) as [->|Hne].
  - split; [done|]. intros (y & (y' & Hy & ->)%update_where_In & Hp & Ha). exfalso.
    destruct (rel_is parent child y') eqn:E.
    + apply active_child_iff in Ha as [_ Ha]. done.
    + rewrite (Hone y' Hy Ha) in E. unfold rel_is in E.
      by rewrite Hxp, Hxc, !N.eqb_refl in E.
  - rewrite (Hag p c). split; intros (y & Hy & Hp & Ha).
    + exists y. rewrite update_where_In. split_and!; [|done..]. exists y. split; [done|].
      unfold rel_is. apply active_child_iff in Ha as [-> _].
      apply N.eqb_neq in Hne as ->. by rewrite andb_false_r.
    + apply update_where_In in Hy as (y' & Hy & ->). destruct (rel_is parent child y') eqn:E.
      * apply active_child_iff in Ha as [_ Ha]. done.
      * exists y'. auto.
Qed.

Lemma agree_create parent req actor i w :
  accounts_wf (w_db w) → parents_agree (w_db w) →
  parents_agree (w_db (create_child parent req actor i w).2).
Proof using no_faults.
  intros Hwf Hag. destruct (create_child parent req actor i w) as [r w'] eqn:Ec. cbn.
  apply create_child_exact in Ec; [|done]. destruct r as [u|].
  - destruct Ec as (t & Hpar & _ & _ & Hacc). unfold accounts_of in Hacc.
    injection Hacc as Hu _ Hr _ _ _. intros p c. rewrite (linked_attached _ _ _ _ _ _ _ _ Hr).
    rewrite <- (Hag p c). unfold child_of. rewrite Hu. split.
    + intros (x & [Hx|[<-|[]]]%in_app_iff & Hid & Hp); [left; eauto|]. right.
      cbn in *. split; congruence.
    + intros [(x & Hx & Hid & Hp)|[-> ->]].
      * exists x. rewrite in_app_iff. auto.
      * exists (user_row u). rewrite in_app_iff. split_and!; [right; by left | done..].
  - unfold accounts_of in Ec. injection Ec as Hu _ Hr _ _ _. unfold parents_agree, child_of, linked.
    by rewrite Hu, Hr.
Qed.
End agreement.

Section path_walk.
Context `{Env}.
Hypothesis no_faults : ∀ k, sql_fault k = None.

Lemma find_linked d c :
  accounts_wf d →
  match List.find (active_child c) (db_relationships d) with
  | Some r => ∀ p, linked d p c ↔ p = rr_parent_id r
  | None => ∀ p, ~ linked d p c
  end.
Proof using Type.
  intros Hwf. destruct (List.find _ _) as [r|] eqn:E.
  - apply List.find_some in E as [Hin Ha]. intros p. split.
    + intros (x & Hx & <- & Hxa). apply active_child_iff in Ha as [??], Hxa as [??].
      f_equal. eapply (wf_one_parent _ _ _ _ (wf_hier _ Hwf)); [done..|congruence].
    + intros ->. exists r. done.
  - intros p (x & Hx & _ & Ha). eapply List.find_none in E; [|exact Hx]. congruence.
Qed.

Lemma path_loop_exact n a c w :
  accounts_wf (w_db w) →
  ∃ b w', path_loop n a c w = (Ok b, w') ∧ w_db w' = w_db w
    ∧ (b = true ↔ ∃ k, (k ≤ n)%nat ∧ nsteps (λ x y, linked (w_db w) y x) k c a).
Proof using no_faults.
  revert c w. induction n as [|n IH]; intros c w Hwf; cbn [path_loop];
    (destruct (N.eqb_spec c a) as [->|Hne];
     [exists true, w; split_and!; [done..|]; split; [|done]; intros _; exists 0%nat;
      split; [lia | constructor]|]).
  - exists false, w. split_and!; [done..|]. split; [done|]. intros ([|k] & Hk & Hs); [|lia].
    by inversion Hs.
  - erewrite bind_run by (apply map_err_run, select_no_fault, no_faults).
    pose proof (find_linked (w_db w) c Hwf) as Hl.
    destruct (List.find _ _) as [r|].
    + destruct (IH (rr_parent_id r) (tick w) Hwf) as (b & w' & Hrun & Hdb & Hb).
      exists b, w'. split_and!; [done..|]. rewrite Hb. split.
      * intros (k & Hk & Hs). exists (S k). split; [lia|]. econstructor; [|done]. by apply Hl.
      * intros ([|k] & Hk & Hs); inversion Hs as [|? ? y ? Hcy Hya]; simplify_eq.
        apply Hl in Hcy as ->. exists k. split; [lia | done].
    + exists false, (tick w). split_and!; [done..|]. split; [done|].
      intros ([|k] & Hk & Hs); inversion Hs as [|? ? y ? Hcy Hya]; simplify_eq.
      by apply Hl in Hcy.
Qed.

(** *** Two attachments in opposite directions *)

Lemma attach_accepted p c actor i w :
  accounts_wf (w_db w) → attach_refusal p c (w_db w) = None →
  ∃ t w', attach_child p c actor i w = (Ok (relationship_new p c i t), w')
    ∧ accounts_wf (w_db w')
    ∧ db_users (w_db w') = update_where (id_is c) (row_set_parent (Some p)) (db_users (w_db w))
    ∧ db_relationships (w_db w') = (db_relationships (w_db w) ++ [attached_row p c i t])%list.
Proof using no_faults.
  intros Hwf Href. destruct (attach_exact no_faults p c actor i w Hwf) as (w' & Hat).
  rewrite Href in Hat. destruct Hat as (t & Hrun & Hacc). exists t, w'.
  unfold accounts_of in Hacc. injection Hacc as Hu _ Hr _ _ _. split_and!; try done.
  pose proof (step_attach p c actor i w Hwf) as [Hw _]. by rewrite Hrun in Hw.
Qed.

End path_walk.

(** ** Properties *)

Section link_properties.
Context `{Env}.
Hypothesis no_faults : ∀ k, sql_fault k = None.

(** Attach.  When statements do not fail, [attach_child] decides by the tables
    alone: equal ids, a missing account, a child with an active parent and an old
    row of the same pair are refused, leaving the database as it was; every other
    pair is accepted, adding the active relationship and setting the child's parent
    column, and nothing else in the account tables. *)
Theorem attach_child_exact parent child actor actor_id w :
  accounts_wf (w_db w) →
  ∃ w', match attach_refusal parent child (w_db w) with
  | Some e =>
      attach_child parent child actor actor_id w = (Err e, w') ∧ w_db w' = w_db w
  | None => ∃ t,
      attach_child parent child actor actor_id w
      = (Ok (relationship_new parent child actor_id t), w')
      ∧ accounts_of (w_db w') =
        (update_where (id_is child) (row_set_parent (Some parent)) (db_users (w_db w)),
         db_sessions (w_db w),
         (db_relationships (w_db w) ++ [attached_row parent child actor_id t])%list,
         db_pools (w_db w), db_claims (w_db w), owner_refs (w_db w))
  end.
Proof using no_faults. by apply attach_exact. Qed.

(** Parent column and relationships.  When statements do not fail, every
    hierarchy operation keeps the two records of the hierarchy in step: an account
    row names [p] as parent exactly when the active relationship ([p], account) is
    stored. *)
Theorem hierarchy_records_agree op w :
  accounts_wf (w_db w) → parents_agree (w_db w) → parents_agree (w_db (run_hier op w)).
Proof using no_faults.
  intros Hwf Hag.
  assert (∀ w', same (λ d, (db_users d, db_relationships d)) (w_db w) (w_db w') →
    parents_agree (w_db w')) as Hsame.
  { unfold same, parents_agree, child_of, linked. intros w' Heq. injection Heq as -> ->. exact Hag. }
  destruct op; cbn [run_hier].
  - by apply agree_attach.
  - by apply agree_detach.
  - apply Hsame, frame_set_pool.
  - apply Hsame, frame_claim_pool.
  - apply Hsame, frame_release_claim.
  - by apply agree_create.
Qed.

(** Re-attaching.  A child detached from its parent cannot be attached to the
    same parent again: the kept row makes the insert violate the primary key. *)
Theorem reattach_refused parent child actor i w :
  accounts_wf (w_db w) → parent ≠ child → linked (w_db w) parent child →
  ∃ w1 w2, detach_child parent child actor w = (Ok tt, w1)
    ∧ attach_child parent child actor i w1
      = (Err (HPersistence (constraint_text REL_PK)), w2).
Proof using no_faults.
  intros Hwf Hne Hl. destruct (detach_exact no_faults parent child actor w Hwf Hl) as (w1 & Hd & Hacc).
  pose proof (step_run_hier (OpDetach parent child actor) w I Hwf) as [Hwf1 _].
  cbn [run_hier] in Hwf1. rewrite Hd in Hwf1. cbn in Hwf1.
  unfold accounts_of in Hacc. injection Hacc as Hu _ Hr _ _ _.
  destruct (attach_exact no_faults parent child actor i w1 Hwf1) as (w2 & Hat).
  exists w1, w2. split; [done|]. destruct Hl as (r & Hin & Hp & Ha).
  pose proof (proj1 (active_child_iff _ _) Ha) as [Hc Hact].
  pose proof (wf_rel_users _ _ _ _ (wf_hier _ Hwf) r Hin) as [Hpe Hce].
  assert (∀ x, In x (map ur_id (db_users (w_db w))) → user_exists x (w_db w1) = true) as Hex.
  { intros x Hx. by rewrite user_exists_In, Hu, update_where_key. }
  unfold attach_refusal in Hat. apply N.eqb_neq in Hne as Hne'. rewrite Hne' in Hat.
  rewrite <- Hp, <- Hc, !Hex in Hat by done. rewrite Hp, Hc in Hat. cbn [andb negb] in Hat.
  assert (existsb (rel_is parent child) (db_relationships (w_db w1)) = true) as Hpk.
  { rewrite Hr. apply existsb_exists. exists (rel_set_status "detached" r). split.
    - apply update_where_In. exists r. split; [done|]. unfold rel_is.
      by rewrite Hp, Hc, !N.eqb_refl.
    - apply rel_is_key. unfold rel_key. cbn. congruence. }
  assert (existsb (active_child child) (db_relationships (w_db w1)) = false) as Hno.
  { rewrite Hr. apply existsb_false. intros y (y' & Hy & ->)%update_where_In.
    destruct (rel_is parent child y') eqn:E; [by unfold active_child; rewrite andb_false_r|].
    destruct (active_child child y') eqn:E'; [|done]. exfalso.
    apply active_child_iff in E' as [??].
    assert (y' = r) as -> by (eapply (wf_one_parent _ _ _ _ (wf_hier _ Hwf)); [done..|congruence]).
    unfold rel_is in E. by rewrite Hp, Hc, !N.eqb_refl in E. }
  rewrite Hno, Hpk in Hat. apply Hat.
Qed.

(** Path walk.  When statements do not fail, [path_exists] answers whether the
    ancestor is reached from the descendant by at most 1025 active parent links. *)
Theorem path_exists_exact ancestor descendant w :
  accounts_wf (w_db w) →
  ∃ b w', path_exists ancestor descendant w = (Ok b, w') ∧ w_db w' = w_db w
    ∧ (b = true ↔ ∃ k, (k ≤ 1025)%nat
         ∧ nsteps (λ x y, linked (w_db w) y x) k descendant ancestor).
Proof using no_faults. by apply path_loop_exact. Qed.

(** Creating a child.  [create_child] either leaves the account tables alone
    or stores exactly one new account under the given parent, of a role strictly
    below the parent's, together with its active relationship. *)
Theorem create_child_spec parent req actor actor_id w r w' :
  accounts_wf (w_db w) → create_child parent req actor actor_id w = (r, w') →
  match r with
  | Err _ => accounts_of (w_db w') = accounts_of (w_db w)
  | Ok u => ∃ t, u_parent_account_id u = Some parent ∧ u_role u = req_role req
      ∧ (∃ p, In (user_row p) (db_users (w_db w)) ∧ u_id p = parent
              ∧ can_create_child (u_role p) (u_role u) = true)
      ∧ accounts_of (w_db w') =
        ((db_users (w_db w) ++ [user_row u])%list, db_sessions (w_db w),
         (db_relationships (w_db w) ++ [attached_row parent (u_id u) actor_id t])%list,
         db_pools (w_db w), db_claims (w_db w), owner_refs (w_db w))
  end.
Proof using no_faults. by apply create_child_exact. Qed.
End link_properties.
