(* ===== verification/HierarchyTree.v ===== *)
(** * The account tree and the cycle walks

    [tree]/[append_children] over the parent columns, and [would_cycle] over a
    children map. *)
From S2P Require Import Prelude Text AuditActions AuditLog Accounts Store Users Identity Hierarchy HierarchyInvariant HierarchyLinks.

(** ** Trees *)

Section trees.
Variable m : gmap Uuid (list Uuid).

Definition kid (u k : Uuid) : Prop := In k (kids_of m u).

(** What the loop over the kids builds. *)
Lemma append_fold descend depth kids u p d cs n :
  fold_left (append_kid descend m depth) kids (Some (Node u p d cs)) = Some n ↔
  ∃ subs, n = Node u p d (cs ++ subs)
    ∧ Forall2 (λ k s, descend (kid_node m u k depth) = Some s) kids subs.
Proof.
  revert cs. induction kids as [|k kids IH]; intros cs; cbn.
  - split.
    + intros [= <-]. exists []. by rewrite app_nil_r.
    + intros (subs & -> & Hf). inversion Hf. by rewrite app_nil_r.
  - destruct (descend (kid_node m u k depth)) as [s|] eqn:E.
    + cbn. rewrite IH. split.
      * intros (subs & -> & Hf). exists (s :: subs). rewrite <- app_assoc. split; [done|].
        by constructor.
      * intros (subs & -> & Hf). inversion Hf as [|? s' ? subs' Hs Hrest]; subst.
        rewrite E in Hs. injection Hs as <-. exists subs'. by rewrite <- app_assoc.
    + split.
      * assert (∀ l, fold_left (append_kid descend m depth) l None = None) as ->; [|done].
        intros l. by induction l.
      * intros (subs & _ & Hf). inversion Hf. congruence.
Qed.

Lemma append_children_iff fuel u p d depth n :
  append_children (S fuel) m (Node u p d []) depth = Some n ↔
  ∃ subs, n = Node u p d subs
    ∧ Forall2 (λ k s, append_children fuel m (kid_node m u k depth) (depth + 1) = Some s)
        (kids_of m u) subs.
Proof. cbn [append_children node_user]. apply append_fold. Qed.

(** *** Divergence *)

Lemma append_children_diverges (P : Uuid → Prop) fuel u p d depth :
  (∀ x, P x → ∃ k, kid x k ∧ P k) → P u →
  append_children fuel m (Node u p d []) depth = None.
Proof.
  intros Hcyc. revert u p d depth. induction fuel as [|fuel IH]; intros u p d depth Hu; [done|].
  destruct (append_children _ _ _ _) as [n|] eqn:E; [|done].
  apply append_children_iff in E as (subs & _ & Hf). destruct (Hcyc u Hu) as (k & Hk & Pk).
  apply list_elem_of_In, list_elem_of_lookup in Hk as (i & Hi).
  destruct (Forall2_lookup_l _ _ _ _ _ Hf Hi) as (s & _ & Hs).
  unfold kid_node in Hs. by rewrite IH in Hs.
Qed.

(** *** Termination *)

Lemma append_children_total (ids path : list Uuid) fuel u p d depth :
  (∀ x, ~ tc kid x x) → (∀ x k, kid x k → In k ids) →
  NoDup path → (∀ x, In x path → In x ids ∧ rtc kid x u) → In u path →
  (length ids < length path + fuel)%nat →
  ∃ n, append_children fuel m (Node u p d []) depth = Some n.
Proof.
  intros Hacyc Hids. revert path u p d depth.
  induction fuel as [|fuel IH]; intros path u p d depth Hnd Hpath Hu Hlen.
  - exfalso. assert (length path ≤ length ids)%nat; [|lia].
    apply NoDup_incl_length; [by apply NoDup_ListNoDup|]. intros x Hx. by apply Hpath.
  - assert (∃ subs, Forall2 (λ k s, append_children fuel m (kid_node m u k depth) (depth + 1)
      = Some s) (kids_of m u) subs) as [subs Hf].
    { assert (∀ k, In k (kids_of m u) → kid u k) as Hk by done. revert Hk.
      induction (kids_of m u) as [|k l IHl]; intros Hk; [exists []; constructor|].
      destruct IHl as [subs Hf]; [naive_solver|].
      assert (kid u k) as Huk by (apply Hk; by left).
      destruct (IH (k :: path) k (node_parent (kid_node m u k depth)) (depth + 1)%Z
        (depth + 1)%Z) as [s Hs].
      - apply NoDup_cons. split; [|done]. intros Hin%list_elem_of_In.
        apply Hpath in Hin as [_ Hr]. apply (Hacyc k). eapply tc_rtc_l; [done|].
        by apply tc_once.
      - intros x [<-|Hx]; [split; [by eapply Hids | done]|].
        apply Hpath in Hx as [? Hr]. split; [done|]. by eapply rtc_r.
      - by left.
      - cbn. lia.
      - exists (s :: subs). by constructor. }
    exists (Node u p d subs). apply append_children_iff. eauto.
Qed.

(** *** The entries of a tree *)

Fixpoint node_entries (n : HierarchyNode) : list (Uuid * Z) :=
  let '(Node u _ d cs) := n in (u, d) :: flat_map node_entries cs.

Lemma append_children_entries fuel u p d n x z :
  append_children fuel m (Node u p d []) d = Some n →
  In (x, z) (node_entries n) ↔ ∃ k : nat, z = (d + Z.of_nat k)%Z ∧ nsteps kid k u x.
Proof.
  revert u p d n. induction fuel as [|fuel IH]; intros u p d n; [done|].
  intros (subs & -> & Hf)%append_children_iff. cbn. rewrite in_flat_map. split.
  - intros [[= <- <-]|(s & Hs & Hin)].
    + exists 0%nat. split; [lia | constructor].
    + apply list_elem_of_In, list_elem_of_lookup in Hs as (i & Hi).
      destruct (Forall2_lookup_r _ _ _ _ _ Hf Hi) as (k & Hk & Ha).
      destruct (proj1 (IH _ _ _ _ Ha) Hin) as (j & Hz & Hj). exists (S j). split; [lia|].
      econstructor; [|done]. apply list_elem_of_In. by apply list_elem_of_lookup; eauto.
  - intros ([|j] & Hz & Hk); inversion Hk as [|? ? y ? Huy Hyx]; simplify_eq.
    + left. f_equal. lia.
    + right. apply list_elem_of_In, list_elem_of_lookup in Huy as (i & Hi).
      destruct (Forall2_lookup_l _ _ _ _ _ Hf Hi) as (s & Hs & Ha). exists s. split.
      * apply list_elem_of_In. by apply list_elem_of_lookup; eauto.
      * apply (proj2 (IH _ _ _ _ Ha)). exists j. split; [lia | done].
Qed.

(** *** Every account appears once *)

Section forest.
Hypothesis acyclic : ∀ x, ~ tc kid x x.
Hypothesis one_parent : ∀ x y k, kid x k → kid y k → x = y.
Hypothesis kids_once : ∀ u, NoDup (kids_of m u).

Lemma forest_comparable a b x : rtc kid a x → rtc kid b x → rtc kid a b ∨ rtc kid b a.
Proof using one_parent.
  intros Ha. revert x Ha b. refine (rtc_ind_r (λ x, ∀ b, rtc kid b x → _) a _ _); [auto|].
  intros y z Hay Hyz IH b Hb. apply rtc_inv_r in Hb as [->|(y' & Hby & Hy'z)].
  - left. by eapply rtc_r.
  - rewrite (one_parent _ _ _ Hyz Hy'z) in *. by apply IH.
Qed.

Lemma forest_disjoint u k1 k2 x :
  kid u k1 → kid u k2 → rtc kid k1 x → rtc kid k2 x → k1 = k2.
Proof using acyclic one_parent.
  assert (∀ a b, kid u a → kid u b → rtc kid a b → a = b) as Hsib.
  { intros a b Ha Hb Hab. apply rtc_inv_r in Hab as [?|(y & Hay & Hyb)]; [done|].
    rewrite (one_parent _ _ _ Hyb Hb) in Hay. destruct (acyclic u).
    eapply tc_rtc_r; [apply tc_once, Ha | done]. }
  intros H1 H2 Hx1 Hx2. destruct (forest_comparable _ _ _ Hx1 Hx2); [|symmetry]; auto.
Qed.

Lemma entries_reach fuel u p d n x :
  append_children fuel m (Node u p d []) d = Some n →
  In x (map fst (node_entries n)) → rtc kid u x.
Proof.
  intros Ha ([y z] & <- & Hin)%in_map_iff.
  apply (append_children_entries _ _ _ _ _ _ _ Ha) in Hin as (k & _ & Hk).
  by apply rtc_nsteps_2 in Hk.
Qed.

Lemma append_children_NoDup fuel u p d n :
  append_children fuel m (Node u p d []) d = Some n → NoDup (map fst (node_entries n)).
Proof using acyclic one_parent kids_once.
  revert u p d n. induction fuel as [|fuel IH]; intros u p d n; [done|].
  intros (subs & -> & Hf)%append_children_iff. cbn. apply NoDup_cons.
  pose proof (kids_once u) as Hnd.
  assert (∀ k, In k (kids_of m u) → kid u k) as Hk by done.
  revert Hnd Hk. induction Hf as [|k s l subs Hs Hf IHf]; intros Hnd Hk; cbn.
  { split; [by intros ?%list_elem_of_In | constructor]. }
  apply NoDup_cons in Hnd as [Hkl Hnd]. destruct IHf as [Hu Hrest]; [done | naive_solver|].
  rewrite map_app, elem_of_app. unfold kid_node in Hs. split.
  - intros [Hin|?]; [|done]. apply list_elem_of_In, (entries_reach _ _ _ _ _ _ Hs) in Hin.
    destruct (acyclic u). eapply tc_rtc_r; [apply tc_once, Hk; by left | done].
  - apply NoDup_app. split_and!; [by eapply IH | | done].
    intros x Hx Hx'. apply list_elem_of_In, (entries_reach _ _ _ _ _ _ Hs) in Hx.
    apply list_elem_of_In, in_map_iff in Hx' as (e & <- & He).
    apply in_flat_map in He as (s' & Hs' & He).
    apply list_elem_of_In, list_elem_of_lookup in Hs' as (i & Hi).
    destruct (Forall2_lookup_r _ _ _ _ _ Hf Hi) as (k' & Hk' & Ha).
    assert (In k' l) as Hin' by (apply list_elem_of_In, list_elem_of_lookup; eauto).
    apply Hkl. rewrite (forest_disjoint u k k' e.1); [by apply list_elem_of_In| | |done|].
    + apply Hk; by left.
    + apply Hk; by right.
    + eapply entries_reach; [exact Ha|]. by apply in_map.
Qed.
End forest.
End trees.

(** *** The map [tree] walks *)

Definition parent_is (p : Uuid) (u : UserRec) : bool := bool_decide (u_parent_account_id u = Some p).

Lemma add_child_kids m u p :
  kids_of (add_child m u) p = (kids_of m p ++ if parent_is p u then [u_id u] else [])%list.
Proof.
  unfold add_child, parent_is, kids_of. destruct (u_parent_account_id u) as [q|] eqn:E.
  - destruct (decide (q = p)) as [->|Hne].
    + rewrite lookup_insert_eq. by rewrite bool_decide_true.
    + rewrite lookup_insert_ne by done. rewrite bool_decide_false by congruence.
      by rewrite app_nil_r.
  - rewrite bool_decide_false by done. by rewrite app_nil_r.
Qed.

Lemma by_parent_map_kids us p :
  kids_of (by_parent_map us) p = map u_id (List.filter (parent_is p) us).
Proof.
  unfold by_parent_map. change (map u_id (List.filter (parent_is p) us)) with
    (kids_of ∅ p ++ map u_id (List.filter (parent_is p) us))%list.
  generalize (∅ : gmap Uuid (list Uuid)). induction us as [|u us IH]; intros m; cbn.
  - by rewrite app_nil_r.
  - rewrite IH, add_child_kids, <- app_assoc. f_equal. by destruct (parent_is p u).
Qed.

Lemma by_parent_map_child_of d us p c :
  map user_row us ≡ₚ db_users d → kid (by_parent_map us) p c ↔ child_of d p c.
Proof.
  intros Hp. unfold kid, child_of. rewrite by_parent_map_kids, in_map_iff.
  assert (∀ r, In r (db_users d) ↔ In r (map user_row us)) as Hr.
  { intros r. rewrite <- !list_elem_of_In. by rewrite Hp. }
  split.
  - intros (u & <- & [Hu Hpar%bool_decide_eq_true]%filter_In). exists (user_row u).
    rewrite Hr. split_and!; [by apply in_map | done..].
  - intros (r & Hin & <- & Hpar). rewrite Hr in Hin. apply in_map_iff in Hin as (u & <- & Hu).
    exists u. rewrite filter_In. split_and!; [done..|]. by apply bool_decide_eq_true.
Qed.

Section tree_theorems.
Context `{Env}.
Hypothesis no_faults : ∀ k, sql_fault k = None.

Lemma users_list_no_fault w :
  accounts_wf (w_db w) →
  ∃ us, users_list w = (Ok us, tick w) ∧ map user_row us ≡ₚ db_users (w_db w).
Proof using no_faults.
  intros Hwf. unfold users_list, bind. rewrite select_no_fault by done.
  pose proof (merge_sort_Permutation by_created_at (db_users (w_db w))) as Hp.
  destruct (collect_ok into_user (merge_sort by_created_at (db_users (w_db w))))
    as (us & Hc & Hf); [rewrite Hp; apply Hwf|].
  exists us. unfold lift. rewrite Hc. split; [done|]. rewrite <- Hp.
  apply reflexive_eq. clear -Hf. induction Hf as [|r u l us Hr _ IH]; cbn; [done|].
  apply into_user_row in Hr as ->. by rewrite IH.
Qed.

(** The map [tree] builds, and the walk it starts. *)
Lemma tree_no_fault fuel root w :
  accounts_wf (w_db w) → user_exists root (w_db w) = true →
  ∃ us p, map user_row us ≡ₚ db_users (w_db w)
    ∧ tree fuel root w =
      (Ok (append_children fuel (by_parent_map us) (Node root p 0 []) 0), tick (tick w)).
Proof using no_faults.
  intros Hwf He. unfold tree, bind, map_err.
  pose proof (require_account_no_fault no_faults root w Hwf) as Hr. rewrite He in Hr.
  destruct Hr as (u & -> & <- & _).
  destruct (users_list_no_fault (tick w) Hwf) as (us & -> & Hp). eauto.
Qed.

Lemma tree_terminates root w :
  accounts_wf (w_db w) → user_exists root (w_db w) = true →
  (∀ x, ~ tc (child_of (w_db w)) x x) →
  ∃ n, tree (length (db_users (w_db w))) root w = (Ok (Some n), tick (tick w))
    ∧ (∀ x z, In (x, z) (node_entries n) ↔
         ∃ k : nat, z = Z.of_nat k ∧ nsteps (child_of (w_db w)) k root x)
    ∧ NoDup (map fst (node_entries n)).
Proof using no_faults.
  intros Hwf He Hacyc.
  destruct (tree_no_fault (length (db_users (w_db w))) root w Hwf He) as (us & p & Hp & Ht).
  pose proof (λ x c, by_parent_map_child_of _ us x c Hp) as Hkid.
  assert (∀ x, ~ tc (kid (by_parent_map us)) x x) as Hacyc'.
  { intros x Hx. apply (Hacyc x). revert Hx. apply (tc_congruence (λ y, y)). intros a b. by rewrite Hkid. }
  assert (∀ x y k, kid (by_parent_map us) x k → kid (by_parent_map us) y k → x = y) as Hone.
  { intros x y k. rewrite !Hkid. intros (r1 & H1 & Hk1 & Hx1) (r2 & H2 & Hk2 & Hx2).
    assert (r1 = r2) as -> by (eapply (NoDup_key_inj ur_id); [apply Hwf | done.. | congruence]).
    congruence. }
  destruct (append_children_total (by_parent_map us) (map ur_id (db_users (w_db w))) [root]
    (length (db_users (w_db w))) root p 0 0) as [n Hn].
  - done.
  - intros x k. rewrite Hkid. intros (r & Hr & <- & _). by apply in_map.
  - apply NoDup_singleton.
  - intros x [<-|[]]. split; [by apply user_exists_In | done].
  - by left.
  - rewrite length_map. cbn. lia.
  - exists n. rewrite Ht, Hn. split_and!; [done| |].
    + intros x z. rewrite (append_children_entries _ _ _ _ _ _ x z Hn).
      split; intros (k & Hz & Hk); exists k; (split; [lia|]);
        revert Hk; apply (nsteps_congruence (λ y, y)); intros a b; by rewrite Hkid.
    + eapply append_children_NoDup; [done | done | | done].
      intros u. rewrite by_parent_map_kids. apply (select_where_NoDup u_id).
      replace (map u_id us) with (map ur_id (map user_row us)) by by rewrite map_map.
      rewrite Hp. apply Hwf.
Qed.
End tree_theorems.

(** ** The two cycle walks *)

Section cycle_walks.
Variable m : gmap Uuid (list Uuid).

Lemma rtc_kid_cases u c : u ≠ c → rtc (kid m) u c ↔ ∃ k, kid m u k ∧ rtc (kid m) k c.
Proof.
  intros Hne. split.
  - intros Hr. inversion Hr; subst; [done | eauto].
  - intros (k & ? & ?). by eapply rtc_l.
Qed.

Lemma would_cycle_loop_sound fuel c stack b :
  would_cycle_loop fuel c m stack = Some b →
  b = true ↔ ∃ s, In s stack ∧ rtc (kid m) s c.
Proof.
  revert stack. induction fuel as [|fuel IH]; intros [|u stack]; cbn; try done.
  - intros [= <-]. naive_solver.
  - destruct (N.eqb_spec u c) as [->|Hne].
    + intros [= <-]. split; [|done]. intros _. exists c. split; [by left | done].
    + intros ->%IH. split.
      * intros (s & Hin & Hr). apply in_app_iff in Hin as [Hin%in_rev|Hin].
        -- exists u. split; [by left|]. apply rtc_kid_cases; eauto.
        -- exists s. split; [by right | done].
      * intros (s & [<-|Hin] & Hr).
        -- apply rtc_kid_cases in Hr as (k & Hk & Hr); [|done]. exists k.
           rewrite in_app_iff, <- in_rev. auto.
        -- exists s. rewrite in_app_iff. auto.
Qed.

Lemma would_cycle_loop_step u c stack :
  (∃ fuel b, would_cycle_loop fuel c m stack = Some b) → sn (kid m) u →
  ∃ fuel b, would_cycle_loop fuel c m (u :: stack) = Some b.
Proof.
  intros Hs Hsn. revert stack Hs. induction Hsn as [u _ IH]; intros stack Hs.
  destruct (N.eqb_spec u c) as [->|Hne].
  { exists 1%nat, true. cbn. by rewrite N.eqb_refl. }
  assert (∃ fuel b, would_cycle_loop fuel c m (rev (kids_of m u) ++ stack) = Some b)
    as (fuel & b & Hf).
  { assert (∀ k, In k (rev (kids_of m u)) → kid m u k) as Hk by (intros k; apply in_rev).
    induction (rev (kids_of m u)) as [|k l IHl]; [done|]. cbn.
    apply IH; [apply Hk; by left|]. apply IHl. intros k' ?. apply Hk. by right. }
  exists (S fuel), b. cbn. by apply N.eqb_neq in Hne as ->.
Qed.

Lemma kid_sn u : (∀ x, ~ tc (kid m) x x) → sn (kid m) u.
Proof.
  intros Hacyc. apply tc_finite_sn; [exact Hacyc|].
  exists (concat (map snd (map_to_list m))). intros x Hx.
  assert (∃ p, kid m p x) as (p & Hp).
  { clear Hacyc. by induction Hx; eauto. }
  unfold kid, kids_of in Hp. destruct (m !! p) as [l|] eqn:E; [|done].
  apply list_elem_of_In, in_concat. exists l. split; [|done].
  apply in_map_iff. exists (p, l). split; [done|].
  apply list_elem_of_In. by apply elem_of_map_to_list.
Qed.
End cycle_walks.

(** ** Properties *)

(** No relationship, active or not, has [c] as its child. *)
Definition unattached (d : Db) (c : Uuid) : Prop :=
  ∀ r, In r (db_relationships d) → rr_child_id r ≠ c.

Section tree_properties.
Context `{Env}.
Hypothesis no_faults : ∀ k, sql_fault k = None.

Lemma attach_refusal_free p c d :
  p ≠ c → user_exists p d = true → user_exists c d = true → unattached d c →
  attach_refusal p c d = None.
Proof using Type.
  intros Hne Hp Hc Hfree. unfold attach_refusal. apply N.eqb_neq in Hne as ->.
  rewrite Hp, Hc. cbn.
  assert (∀ q, (∀ r, q r = true → rr_child_id r = c) →
    existsb q (db_relationships d) = false) as Hno.
  { intros q Hq. apply existsb_false. intros r Hr. destruct (q r) eqn:E; [|done].
    apply Hq in E. by apply Hfree in Hr. }
  rewrite !Hno; [done| |].
  - intros r Hr%rel_is_key. by injection Hr.
  - by intros r [? _]%active_child_iff.
Qed.

(** C39 (tree).  On an acyclic hierarchy [tree] returns, with a recursion no deeper
    than the number of accounts: its nodes are exactly the accounts reachable from
    the root by parent columns, each once, at their distance from the root. *)
Theorem tree_correct root w :
  accounts_wf (w_db w) → user_exists root (w_db w) = true →
  (∀ x, ~ tc (child_of (w_db w)) x x) →
  ∃ n, tree (length (db_users (w_db w))) root w = (Ok (Some n), tick (tick w))
    ∧ (∀ x z, In (x, z) (node_entries n) ↔
         ∃ k : nat, z = Z.of_nat k ∧ nsteps (child_of (w_db w)) k root x)
    ∧ NoDup (map fst (node_entries n)).
Proof using no_faults. by apply tree_terminates. Qed.

(** Attach and cycles.  For two stored accounts without any relationship as a
    child, attaching [b] under [a] and then [a] under [b] both succeed; afterwards
    [tree] on [a] does not return, however much fuel it is given. *)
Theorem attach_builds_cycle a b actor i w :
  accounts_wf (w_db w) → a ≠ b →
  user_exists a (w_db w) = true → user_exists b (w_db w) = true →
  unattached (w_db w) a → unattached (w_db w) b →
  ∃ r1 w1 r2 w2, attach_child a b actor i w = (Ok r1, w1)
    ∧ attach_child b a actor i w1 = (Ok r2, w2)
    ∧ ∀ fuel, ∃ w3, tree fuel a w2 = (Ok None, w3).
Proof using no_faults.
  intros Hwf Hne Ha Hb Hfa Hfb.
  destruct (attach_accepted no_faults a b actor i w Hwf) as (t1 & w1 & H1 & Hwf1 & Hu1 & Hr1).
  { by apply attach_refusal_free. }
  assert (∀ x, user_exists x (w_db w) = true → user_exists x (w_db w1) = true) as Hex1.
  { intros x. rewrite !user_exists_In, Hu1. by rewrite update_where_key. }
  destruct (attach_accepted no_faults b a actor i w1 Hwf1) as (t2 & w2 & H2 & Hwf2 & Hu2 & _).
  { apply attach_refusal_free; auto. intros r. rewrite Hr1.
    intros [Hr|[<-|[]]]%in_app_iff; [by apply Hfa | done]. }
  assert (child_of (w_db w2) b a ∧ child_of (w_db w2) a b) as [Hba Hab].
  { rewrite !(child_of_set_parent _ _ _ _ _ _ Hu2 (proj1 (user_exists_In _ _) (Hex1 _ Ha))).
    rewrite N.eqb_refl. apply not_eq_sym, N.eqb_neq in Hne as ->. split; [done|].
    rewrite (child_of_set_parent _ _ _ _ _ _ Hu1 (proj1 (user_exists_In _ _) Hb)).
    by rewrite N.eqb_refl. }
  exists (relationship_new a b i t1), w1, (relationship_new b a i t2), w2.
  split_and!; [done..|]. intros fuel.
  assert (user_exists a (w_db w2) = true) as Ha2.
  { rewrite user_exists_In, Hu2, update_where_key by done. by apply user_exists_In, Hex1. }
  destruct (tree_no_fault no_faults fuel a w2 Hwf2 Ha2) as (us & p & Hp & ->).
  rewrite (append_children_diverges _ (λ x, x = a ∨ x = b)); [by eexists | | by left].
  intros x [->| ->]; [exists b | exists a]; rewrite (by_parent_map_child_of (w_db w2)); auto.
Qed.
End tree_properties.

(** [would_cycle].  On an acyclic children map the walk ends, and with any fuel
    an answer is [true] exactly when the child is reached from the proposed parent. *)
Theorem would_cycle_correct (m : gmap Uuid (list Uuid)) (parent child : Uuid) :
  ((∀ x, ~ tc (kid m) x x) → ∃ fuel b, would_cycle fuel parent child m = Some b)
  ∧ ∀ fuel b, would_cycle fuel parent child m = Some b → b = true ↔ rtc (kid m) parent child.
Proof.
  unfold would_cycle. destruct (N.eqb_spec parent child) as [->|Hne].
  - split; [exists 0%nat; eauto|]. intros _ b [= <-]. split; [|done]. intros _. constructor.
  - split.
    + intros Hacyc. apply would_cycle_loop_step; [|by apply kid_sn]. by exists 1%nat, false.
    + intros fuel b ->%would_cycle_loop_sound. split.
      * by intros (s & [<-|[]] & ?).
      * intros ?. exists parent. split; [by left | done].
Qed.
