(* ===== verification/HierarchyPools.v ===== *)
(** * Quota pools and claims

    The claims stored against a pool stay within its total. *)
From S2P Require Import Prelude Text AuditActions AuditLog Accounts Store Users Identity Hierarchy HierarchyInvariant.

(** ** Pools and claims *)

(** The bytes claimed from the pool of [parent] on the axis stored as [axis]. *)
Definition claimed (parent : Uuid) (axis : string) (claims : list ClaimRow) : Z :=
  foldr (λ r s, i64_as_u64 (cr_share_bytes r) + s)%Z 0%Z (select_where (claim_on parent axis) claims).

Definition pool_total (r : PoolRow) : Z := i64_as_u64 (pr_total_bytes r).

(** The claims of every pool fit its total; a pool of [u64::MAX] is unlimited. *)
Definition pools_fit (d : Db) : Prop := ∀ r, In r (db_pools d) →
  pool_total r = U64_MAX ∨ (claimed (pr_parent_id r) (pr_axis r) (db_claims d) ≤ pool_total r)%Z.

Lemma i64_as_u64_range x : is_u64 (i64_as_u64 x).
Proof. unfold is_u64, i64_as_u64, U64_MAX. pose proof (Z.mod_pos_bound x (2 ^ 64)). lia. Qed.

Lemma claimed_nonneg p a claims : (0 ≤ claimed p a claims)%Z.
Proof.
  unfold claimed. induction (select_where _ _) as [|r l IH]; cbn; [lia|].
  pose proof (i64_as_u64_range (cr_share_bytes r)) as []. lia.
Qed.

Lemma claimed_snoc p a claims r :
  claimed p a (claims ++ [r]) =
  (claimed p a claims + if claim_on p a r then i64_as_u64 (cr_share_bytes r) else 0)%Z.
Proof.
  unfold claimed, select_where. rewrite List.filter_app, foldr_app. cbn.
  assert (∀ l z, foldr (λ r s, i64_as_u64 (cr_share_bytes r) + s)%Z z l =
    (foldr (λ r s, i64_as_u64 (cr_share_bytes r) + s)%Z 0%Z l + z)%Z) as Hz.
  { induction l as [|y l IH]; intros z; cbn; [lia|]. rewrite IH. lia. }
  destruct (claim_on p a r); cbn; [|lia]. rewrite Hz. lia.
Qed.

Lemma claimed_delete p a q claims : (claimed p a (delete_where q claims) ≤ claimed p a claims)%Z.
Proof.
  unfold claimed, delete_where, select_where.
  induction claims as [|r l IH]; cbn; [lia|]. pose proof (i64_as_u64_range (cr_share_bytes r)) as [].
  destruct (q r), (claim_on p a r) eqn:E; cbn; rewrite ?E; cbn; lia.
Qed.

Lemma sum_i64_total acc l s :
  sum_i64 acc l = Some s → s = (acc + foldr Z.add 0 l)%Z.
Proof.
  revert acc. induction l as [|x l IH]; intros acc; cbn; [intros [= <-]; lia|].
  destruct (_ && _); [|done]. intros ->%IH. lia.
Qed.

(** The usage the repository reports is the claimed total, modulo [2^64]. *)
Lemma usage_claimed p a claims s :
  sum_i64 0 (map cr_share_bytes (select_where (claim_on p a) claims)) = Some s →
  i64_as_u64 s = (claimed p a claims mod 2 ^ 64)%Z.
Proof.
  intros ->%sum_i64_total. unfold claimed, i64_as_u64. rewrite Z.add_0_l.
  induction (select_where _ _) as [|r l IH]; cbn; [done|].
  rewrite <- Z.add_mod_idemp_r by lia. rewrite IH.
  rewrite Z.add_mod_idemp_r by lia. by rewrite Z.add_mod_idemp_l by lia.
Qed.

Lemma parse_pool_axis_ok s a : parse_pool_axis s = Ok a → s = pool_axis_str a.
Proof.
  unfold parse_pool_axis.
  destruct (String.eqb_spec s "disk_bytes"), (String.eqb_spec s "bandwidth_bytes_per_month"),
    (String.eqb_spec s "max_child_accounts"); naive_solver.
Qed.

Lemma into_pool_ok r p :
  into_pool r = Ok p → pool_parent_id p = pr_parent_id r
    ∧ pr_axis r = pool_axis_str (pool_axis p) ∧ pool_total_bytes p = pool_total r.
Proof.
  unfold into_pool, pool_new. destruct (parse_pool_axis _) as [a|] eqn:E; cbn; [|done].
  destruct (_ =? _)%Z; [done|]. intros [= <-]. cbn. by apply parse_pool_axis_ok in E.
Qed.

Section pool_invariant.
Context `{Env}.

Lemma pools_of_run parent w ps w' p :
  pools_of parent w = (Ok ps, w') → In p ps →
  ∃ r, In r (db_pools (w_db w)) ∧ pr_parent_id r = parent
    ∧ pr_axis r = pool_axis_str (pool_axis p) ∧ pool_total_bytes p = pool_total r.
Proof.
  unfold pools_of. intros Hr Hin. inv_bind Hr. apply map_err_ok, select_run in R as [_ [-> _]].
  apply lift_ok in Hr as [Hc _]. destruct (collect_In _ _ _ _ Hc Hin) as (r & Hr & Hp).
  apply into_pool_ok in Hp as (? & ? & ?). exists r.
  pose proof (merge_sort_Permutation axis_le
    (select_where (λ r, (pr_parent_id r =? parent)%N) (db_pools (w_db w)))) as Hperm.
  assert (In r (select_where (λ r, (pr_parent_id r =? parent)%N) (db_pools (w_db w)))) as Hs.
  { apply list_elem_of_In. rewrite <- Hperm. by apply list_elem_of_In. }
  apply filter_In in Hs as [Hs Hid%N.eqb_eq]. done.
Qed.

Lemma repo_pool_usage_run parent axis w used w' :
  repo_pool_usage parent axis w = (Ok used, w') →
  w_db w' = w_db w
  ∧ used = (claimed parent (pool_axis_str axis) (db_claims (w_db w)) mod 2 ^ 64)%Z.
Proof.
  unfold repo_pool_usage. intros Hr. inv_bind Hr. apply map_err_ok in R.
  unfold statement in R. destruct (sql_fault _); [done|].
  destruct (sum_i64 _ _) as [s|] eqn:Es; [|done]. injection R as <- <-.
  injection Hr as <- <-. split; [done|]. by apply usage_claimed.
Qed.

(** One more claim, when the check passed, still fits. *)
Lemma insert_claim_fits c d x d' r :
  accounts_wf d → pools_fit d → is_u64 (claim_share_bytes c) →
  In r (db_pools d) → pr_parent_id r = claim_parent_id c →
  pr_axis r = pool_axis_str (claim_axis c) →
  check_pool_claim (pool_total r)
    (claimed (pr_parent_id r) (pr_axis r) (db_claims d) mod 2 ^ 64) (claim_share_bytes c) = Ok tt →
  insert_claim_row (claim_row c) d = Ok (x, d') → pools_fit d'.
Proof.
  intros Hwf Hfit Hu Hr Hp Ha Hck Hins. unfold insert_claim_row in Hins.
  destruct (existsb _ _); [done|]. destruct (_ && _); [|done]. injection Hins as <- <-.
  intros y Hy. cbn [db_pools db_claims set_claims] in Hy |- *. rewrite claimed_snoc.
  destruct (claim_on _ _ (claim_row c)) eqn:Ec; [|rewrite Z.add_0_r; by apply Hfit].
  unfold claim_on in Ec. apply andb_true_iff in Ec as [Ey%N.eqb_eq Ez%String.eqb_eq]. cbn in Ey, Ez.
  assert (y = r) as ->.
  { eapply (NoDup_key_inj pool_key); [apply (wf_pool_keys _ _ _ _ (wf_hier _ Hwf)) | done..|].
    unfold pool_key. congruence. }
  cbn. rewrite u64_i64_u64 by done. pose proof (i64_as_u64_range (pr_total_bytes r)) as [Ht1 Ht2].
  fold (pool_total r) in Ht1, Ht2. destruct (Hfit r Hr) as [?|Hle]; [by left|].
  pose proof (claimed_nonneg (pr_parent_id r) (pr_axis r) (db_claims d)).
  rewrite Z.mod_small in Hck by (unfold U64_MAX in *; lia).
  apply check_pool_claim_ok in Hck. unfold is_u64 in Hu. lia.
Qed.

(** The pool tables, and methods that leave them alone. *)
Definition pools_of_db (d : Db) := (db_pools d, db_claims d).

#[export] Instance pools_of_db_blind : AuditBlind (same pools_of_db).
Proof. done. Qed.

Lemma pools_frame_statement {A} (f : Db → result (A * Db) string) :
  (∀ d a d', f d = Ok (a, d') → pools_of_db d' = pools_of_db d) →
  within (on_db (same pools_of_db)) (statement f).
Proof. intros Hf. apply on_db_statement; [apply _ | done]. Qed.

Lemma frame_update_users id f : within (on_db (same pools_of_db)) (update_users id f).
Proof. by apply pools_frame_statement; intros ??? [= <- <-]. Qed.

Lemma frame_insert_relationship rel :
  within (on_db (same pools_of_db)) (insert_relationship rel).
Proof.
  apply within_map_err, pools_frame_statement. intros d x d'. unfold insert_relationship_row.
  destruct (existsb _ _); [done|]. destruct (_ && _); [|done]. by intros [= <- <-].
Qed.

Lemma frame_users_insert u : within (on_db (same pools_of_db)) (users_insert u).
Proof.
  apply pools_frame_statement. intros d x d'. unfold insert_user_row.
  do 3 (destruct (existsb _ _); [done|]). by intros [= <- <-].
Qed.

Lemma frame_detach p c : within (on_db (same pools_of_db)) (detach p c).
Proof. apply within_map_err, pools_frame_statement. by intros ??? [= <- <-]. Qed.

Lemma frame_attach p c a i : within (on_db (same pools_of_db)) (attach_child p c a i).
Proof.
  pose proof frame_insert_relationship. pose proof frame_update_users.
  unfold attach_child, users_update_parent_account_id, path_exists. within_tac.
Qed.

Lemma frame_detach_child p c a : within (on_db (same pools_of_db)) (detach_child p c a).
Proof.
  pose proof frame_detach. pose proof frame_update_users.
  unfold detach_child, users_update_parent_account_id. within_tac.
Qed.

Lemma frame_create_child p req a i : within (on_db (same pools_of_db)) (create_child p req a i).
Proof.
  pose proof frame_insert_relationship. pose proof frame_update_users.
  pose proof frame_users_insert. pose proof (read_build_child (same pools_of_db)).
  unfold create_child, store_child, users_update_hosting_plan_id. within_tac.
Qed.

Lemma pools_fit_frame d d' : pools_of_db d' = pools_of_db d → pools_fit d → pools_fit d'.
Proof. unfold pools_of_db, pools_fit. by intros [= -> ->]. Qed.

(** An audit write after the last table update does not matter. *)
Lemma pools_fit_audit {E} a act out b w :
  pools_fit (w_db w) → pools_fit (w_db (audit (E:=E) a act out b w).2).
Proof.
  apply pools_fit_frame. apply (on_db_audit (same pools_of_db) (E:=E) a act out b w).
Qed.

Lemma claim_pool_fits parent child axis share actor w :
  is_u64 share → accounts_wf (w_db w) → pools_fit (w_db w) →
  pools_fit (w_db (claim_pool parent child axis share actor w).2).
Proof.
  intros Hu Hwf Hfit. unfold claim_pool. unfold bind at 1.
  assert (w_db (pools_of parent w).2 = w_db w) as Hdb1 by apply (read_pools_of (same id)).
  destruct (pools_of parent w) as [[ps|e] w1] eqn:Ep; cbn in Hdb1; [|by cbn; rewrite Hdb1].
  destruct (List.find _ ps) as [pool|] eqn:Ef; cbn [ok_or]; [|by cbn; rewrite Hdb1].
  apply List.find_some in Ef as [Hin Hax%bool_decide_eq_true].
  destruct (pools_of_run _ _ _ _ _ Ep Hin) as (r & Hr & Hrp & Hra & Hrt).
  erewrite bind_run by reflexivity. unfold bind at 1.
  assert (w_db (repo_pool_usage parent axis w1).2 = w_db w1) as Hdb2
    by apply (read_pool_usage (same id)).
  destruct (repo_pool_usage parent axis w1) as [[used|e] w2] eqn:Eu; cbn in Hdb2;
    [|by cbn; rewrite Hdb2, Hdb1].
  apply repo_pool_usage_run in Eu as [_ Hused].
  destruct (check_pool_claim _ _ _) as [[]|e] eqn:Eck; cbn [lift];
    [|by cbn; rewrite Hdb2, Hdb1].
  do 2 erewrite bind_run by reflexivity.
  destruct (claim_new _ _ _ _ _) as [c|e] eqn:Ecl; cbn [lift]; [|by cbn; rewrite Hdb2, Hdb1].
  erewrite bind_run by reflexivity. unfold claim_new in Ecl.
  destruct (share =? 0)%Z; [done|]. injection Ecl as <-. unfold bind at 1.
  unfold insert_claim, map_err, statement at 1. cbn [w_db w_step tick].
  destruct (sql_fault _); [by cbn; rewrite Hdb2, Hdb1|].
  rewrite Hdb2, Hdb1. destruct (insert_claim_row _ (w_db w)) as [[x d']|] eqn:Ei;
    [|by cbn; rewrite Hdb2, Hdb1].
  match goal with |- pools_fit (w_db (bind ?c ?k ?w0).2) =>
    enough (pools_fit (w_db (c w0).2)) as Hd; [unfold bind; by destruct (c w0) as [[]]|] end.
  apply pools_fit_audit. cbn. refine (insert_claim_fits _ (w_db w) x d' r _ _ _ _ _ _ _ Ei); try done.
  - by rewrite Hra, Hax.
  - rewrite Hra, Hax, Hrp. cbn. by rewrite <- Hrt, <- Hdb1, <- Hused.
Qed.

Lemma set_pool_fits parent axis total actor w :
  is_u64 total → pools_fit (w_db w) →
  (claimed parent (pool_axis_str axis) (db_claims (w_db w)) ≤ total)%Z →
  pools_fit (w_db (set_pool parent axis total actor w).2).
Proof.
  intros Hu Hfit Hle. unfold set_pool. erewrite bind_run by reflexivity.
  unfold pool_new. destruct (total =? 0)%Z; [done|]. cbn [lift].
  erewrite bind_run by reflexivity. unfold bind at 1, upsert_pool, map_err, statement at 1.
  cbn [w_db w_step tick]. destruct (sql_fault _); [done|].
  destruct (upsert_pool_row _ _) as [[x d']|] eqn:Ei; [|done].
  match goal with |- pools_fit (w_db (bind ?c ?k ?w0).2) =>
    enough (pools_fit (w_db (c w0).2)) as Hd; [unfold bind; by destruct (c w0) as [[]]|] end.
  apply pools_fit_audit. cbn [w_db tick]. unfold upsert_pool_row in Ei. cbn in Ei.
  destruct (existsb _ _); [|destruct (user_exists _ _); [|done]]; injection Ei as <- <-;
    intros y Hy; cbn [db_pools db_claims set_pools] in Hy |- *.
  - apply update_where_In in Hy as (y' & Hy & ->). destruct (pool_is _ _ y') eqn:E; [|by apply Hfit].
    apply pool_is_key in E. injection E as E1 E2. right. cbn. rewrite E1, E2.
    unfold pool_total. cbn. by rewrite u64_i64_u64.
  - apply in_app_iff in Hy as [Hy|[<-|[]]]; [by apply Hfit|]. right. cbn.
    unfold pool_total. cbn. by rewrite u64_i64_u64.
Qed.

Lemma release_claim_fits parent child axis actor w :
  pools_fit (w_db w) → pools_fit (w_db (release_claim parent child axis actor w).2).
Proof.
  intros Hfit. unfold release_claim, bind at 1, remove_claim, map_err, execute, statement at 1.
  destruct (sql_fault _); [done|]. apply pools_fit_audit. cbn [w_db tick].
  intros y Hy. cbn [db_pools db_claims set_claims] in Hy |- *.
  destruct (Hfit y Hy) as [?|Hle]; [by left|]. right.
  etransitivity; [apply claimed_delete | done].
Qed.

(** The arguments are [u64]s, and a pool is not set below what it has granted. *)
Definition op_admissible (op : HierarchyOp) (d : Db) : Prop :=
  match op with
  | OpSetPool p x total _ =>
      is_u64 total ∧ (claimed p (pool_axis_str x) (db_claims d) ≤ total)%Z
  | OpClaim _ _ _ share _ => is_u64 share
  | _ => True
  end.

Lemma run_hier_fits op w :
  op_admissible op (w_db w) → accounts_wf (w_db w) → pools_fit (w_db w) →
  pools_fit (w_db (run_hier op w)).
Proof.
  intros Hok Hwf Hfit. destruct op; cbn [run_hier op_admissible] in *.
  - eapply pools_fit_frame, Hfit. apply frame_attach.
  - eapply pools_fit_frame, Hfit. apply frame_detach_child.
  - destruct Hok. by apply set_pool_fits.
  - by apply claim_pool_fits.
  - by apply release_claim_fits.
  - eapply pools_fit_frame, Hfit. apply frame_create_child.
Qed.
End pool_invariant.

(** ** Properties *)

(** One admissible hierarchy operation. *)
Inductive pool_step `{Env} : World → World → Prop :=
| PoolStep op w : op_admissible op (w_db w) → pool_step w (run_hier op w).

(** C22 (quota pools).  A sequence of hierarchy operations with [u64] amounts in which no pool
    is set below what it has already granted keeps the claims of every pool with a total other
    than [u64::MAX] within its total, wherever statements fail.  A pool of [u64::MAX] bytes
    accepts every claim, since the sum it is compared with saturates. *)
Theorem pools_never_overcommitted `{Env} (w w' : World) :
  rtc pool_step w w' → accounts_wf (w_db w) → pools_fit (w_db w) → pools_fit (w_db w').
Proof.
  induction 1 as [w|w w1 w' [op w0 Hok] _ IH]; [done|]. intros Hwf Hfit.
  apply IH; [|by apply run_hier_fits].
  apply step_run_hier, Hwf. destruct op; cbn in *; tauto.
Qed.

(** Lowering a pool.  [set_pool] does not look at the claims: when statements do
    not fail it accepts any positive total for an existing account, also one below what
    the pool has already granted, and the pool is overcommitted afterwards. *)
Theorem set_pool_below_claims `{Env} parent axis total actor w :
  (∀ k, sql_fault k = None) → user_exists parent (w_db w) = true →
  (0 < total < U64_MAX)%Z →
  (total < claimed parent (pool_axis_str axis) (db_claims (w_db w)))%Z →
  ∃ pool w', set_pool parent axis total actor w = (Ok pool, w') ∧ ~ pools_fit (w_db w').
Proof.
  intros Hnf Hex Ht Hlt. unfold set_pool. erewrite bind_run by reflexivity.
  unfold pool_new. assert ((total =? 0)%Z = false) as -> by (apply Z.eqb_neq; lia). cbn [lift].
  erewrite bind_run by reflexivity.
  set (pool := {| pool_parent_id := parent |}).
  destruct (upsert_pool_row (pool_row pool) (w_db w)) as [[[] d']|] eqn:Ei.
  2: { unfold upsert_pool_row in Ei. cbn in Ei. rewrite Hex in Ei. by destruct (existsb _ _). }
  erewrite bind_run.
  2: { unfold upsert_pool. apply map_err_run. unfold statement. rewrite Hnf. cbn [w_db tick].
       rewrite Ei. reflexivity. }
  edestruct (audit_ok (same pools_of_db) (E:=AccountHierarchyError)) as (w' & Ha & Hs).
  rewrite (bind_run _ _ _ _ _ Ha). exists pool, w'. split; [done|].
  unfold on_db, same, pools_of_db in Hs. cbn in Hs. injection Hs as Hp Hc. intros Hfit.
  assert (∃ r, In r (db_pools d') ∧ pr_parent_id r = parent ∧ pr_axis r = pool_axis_str axis
    ∧ pool_total r = total ∧ db_claims d' = db_claims (w_db w)) as (r & Hr & H1 & H2 & H3 & H4).
  { unfold upsert_pool_row in Ei. destruct (existsb _ _) eqn:Ee.
    - injection Ei as <-. apply existsb_exists in Ee as (x & Hx & Hk).
      exists (pool_update (pool_row pool) x). apply pool_is_key in Hk as Hk'.
      injection Hk' as Hk1 Hk2. split_and!; try done.
      + apply update_where_In. exists x. split; [done|]. cbn in Hk |- *. by rewrite Hk.
      + unfold pool_total. cbn. apply u64_i64_u64. unfold is_u64. lia.
    - cbn in Ei. rewrite Hex in Ei. injection Ei as <-. exists (pool_row pool).
      split_and!; try done; [cbn; apply in_app_iff; right; by left|].
      unfold pool_total. cbn. apply u64_i64_u64. unfold is_u64. lia. }
  rewrite <- Hp in Hr. destruct (Hfit r Hr) as [?|Hle]; [lia|].
  rewrite Hc, H4, H1, H2, H3 in Hle. lia.
Qed.
