(* ===== verification/IpPools.v ===== *)
(** * Address pools

    [crates/openpanel-domain/src/ip_allocation/mod.rs] (pools, allocations, CIDR
    validation), [crates/openpanel-app/src/ip_allocation/repo.rs] (the SQLite
    adapter) and [service.rs] (the allocator and the vhost binder). *)
From S2P Require Import Prelude Text AuditActions AuditLog Accounts Store.

(** ** Domain types *)

Inductive IpError : Type :=
| IpForbidden
| InvalidCidr (msg : string)
| IpPoolExhausted
| AddressInUse (address : string)
| OutsidePool (address : string)
| IpNotFound (what : string)
| IpPersistence (msg : string).

Inductive IpFamily : Type := V4 | V6.
Inductive PoolKind : Type := Shared | Dedicated.
Inductive IpStatus : Type := IpReserved | IpActive | IpReleasedStatus.

#[export] Instance IpStatus_eq_dec : EqDecision IpStatus.
Proof. solve_decision. Defined.

Definition family_as_str (f : IpFamily) : string := match f with V4 => "v4" | V6 => "v6" end.
Definition kind_as_str (k : PoolKind) : string :=
  match k with Shared => "shared" | Dedicated => "dedicated" end.
Definition status_as_str (s : IpStatus) : string :=
  match s with
  | IpReserved => "reserved"
  | IpActive => "active"
  | IpReleasedStatus => "released"
  end.

Record IpPool := mkIpPool {
  ip_pool_id : Uuid;
  ip_pool_name : string;
  ip_pool_kind : PoolKind;
  ip_pool_family : IpFamily;
  ip_pool_cidr : string;
  ip_pool_created_at : DateTime
}.

Record IpAllocation := mkIpAllocation {
  ip_id : Uuid;
  ip_alloc_pool_id : Uuid;
  ip_address : string;
  ip_site_id : Uuid;
  ip_status : IpStatus;
  ip_allocated_at : DateTime;
  ip_bound_at : option DateTime
}.

Record SiteAddress := mkSiteAddress {
  sa_site_id : Uuid;
  sa_v4 : list string;
  sa_v6 : list string;
  sa_last_rebound_at : DateTime
}.

Definition is_some {A} (o : option A) : bool := match o with Some _ => true | None => false end.

(** [validate_cidr]. *)
Definition validate_cidr (cidr : string) (family : IpFamily) : result unit IpError :=
  match split_once 47 (bytes cidr) with
  | None => Err (InvalidCidr "missing /")
  | Some (addr, prefix_text) =>
      match parse_u8 prefix_text with
      | None => Err (InvalidCidr "prefix not u8")
      | Some prefix =>
          let ok :=
            match family with
            | V4 =>
                (prefix <=? 32)%N
                && (length (List.filter (λ p, negb (bool_decide (p = []))) (split 46 addr)) =? 4)%nat
                && forallb (λ p, is_some (parse_u8 p)) (split 46 addr)
            | V6 =>
                (prefix <=? 128)%N && existsb (N.eqb 58) addr
                && forallb (λ c, is_ascii_hexdigit c || (c =? 58)%N) (decode_utf8 addr)
            end in
          if negb ok then Err (InvalidCidr cidr) else Ok tt
      end
  end.

(** [candidate_addresses]: [format!("10.0.0.{i}#{prefix}")] for [i] in [1..=limit]. *)
Definition cidr_prefix (cidr : string) : string :=
  match split_once 47 (bytes cidr) with
  | Some (_, p) => of_bytes p
  | None => "0"
  end.

Definition candidate (family : IpFamily) (prefix : string) (i : nat) : string :=
  match family with
  | V4 => "10.0.0." +:+ of_bytes (show_N (N.of_nat i)) +:+ "#" +:+ prefix
  | V6 => "2001:db8::" +:+ of_bytes (show_N (N.of_nat i)) +:+ "#" +:+ prefix
  end.

Definition candidate_addresses (pool : IpPool) (limit : nat) : list string :=
  map (candidate (ip_pool_family pool) (cidr_prefix (ip_pool_cidr pool))) (seq 1 limit).

(** [address_in_cidr]. *)
Definition first_piece (c : N) (l : list N) : list N := default [] (head (split c l)).

Definition address_in_cidr (address cidr : string) : bool :=
  match split_once 47 (bytes cidr) with
  | None => false
  | Some (cidr_addr, _) =>
      if contains_char address 58
      then prefixb (first_piece 58 cidr_addr) (bytes address)
      else prefixb (first_piece 46 cidr_addr) (bytes address)
  end.

Definition require_admin (caller : UserRec) : result unit IpError :=
  match u_role caller with
  | Owner | Admin => Ok tt
  | _ => Err IpForbidden
  end.

(** ** Rows *)

Definition decode_kind (s : string) : result PoolKind RepoError :=
  if String.eqb s "shared" then Ok Shared
  else if String.eqb s "dedicated" then Ok Dedicated
  else Err ("unknown pool kind: " +:+ s).
Definition decode_family (s : string) : result IpFamily RepoError :=
  if String.eqb s "v4" then Ok V4
  else if String.eqb s "v6" then Ok V6
  else Err ("unknown family: " +:+ s).
Definition decode_status (s : string) : result IpStatus RepoError :=
  if String.eqb s "reserved" then Ok IpReserved
  else if String.eqb s "active" then Ok IpActive
  else if String.eqb s "released" then Ok IpReleasedStatus
  else Err ("unknown status: " +:+ s).

Definition decode_pool (r : IpPoolRow) : result IpPool RepoError :=
  kind <-? decode_kind (ipr_kind r) ;;
  family <-? decode_family (ipr_family r) ;;
  Ok {| ip_pool_id := ipr_id r; ip_pool_name := ipr_name r; ip_pool_kind := kind;
        ip_pool_family := family; ip_pool_cidr := ipr_cidr r;
        ip_pool_created_at := ipr_created_at r |}.

Definition decode_allocation (r : IpAllocationRow) : result IpAllocation RepoError :=
  status <-? decode_status (iar_status r) ;;
  Ok {| ip_id := iar_id r; ip_alloc_pool_id := iar_pool_id r; ip_address := iar_address r;
        ip_site_id := iar_site_id r; ip_status := status;
        ip_allocated_at := iar_allocated_at r; ip_bound_at := iar_bound_at r |}.

Definition ip_pool_row (p : IpPool) : IpPoolRow :=
  {| ipr_id := ip_pool_id p; ipr_name := ip_pool_name p; ipr_kind := kind_as_str (ip_pool_kind p);
     ipr_family := family_as_str (ip_pool_family p); ipr_cidr := ip_pool_cidr p;
     ipr_created_at := ip_pool_created_at p |}.

Definition allocation_row (a : IpAllocation) : IpAllocationRow :=
  {| iar_id := ip_id a; iar_pool_id := ip_alloc_pool_id a; iar_address := ip_address a;
     iar_site_id := ip_site_id a; iar_status := status_as_str (ip_status a);
     iar_allocated_at := ip_allocated_at a; iar_bound_at := ip_bound_at a |}.

(** ** Statements *)

Definition pool_id_is (id : Uuid) (r : IpPoolRow) : bool := (ipr_id r =? id)%N.
Definition alloc_pool_is (id : Uuid) (r : IpAllocationRow) : bool := (iar_pool_id r =? id)%N.
Definition alloc_site_is (id : Uuid) (r : IpAllocationRow) : bool := (iar_site_id r =? id)%N.
Definition alloc_at (pool : Uuid) (address : string) (r : IpAllocationRow) : bool :=
  (iar_pool_id r =? pool)%N && String.eqb (iar_address r) address.

(** [DELETE FROM ip_pools WHERE id = ?], with its cascade. *)
Definition delete_pool_row (id : Uuid) (d : Db) : Db :=
  if existsb (pool_id_is id) (db_ip_pools d)
  then set_ip_allocations (delete_where (alloc_pool_is id) (db_ip_allocations d))
         (set_ip_pools (delete_where (pool_id_is id) (db_ip_pools d)) d)
  else d.

(** [INSERT OR REPLACE INTO ip_pools]: the row with the same id is deleted first,
    and the deletion cascades. *)
Definition replace_pool_row (r : IpPoolRow) (d : Db) : Db :=
  let d' := delete_pool_row (ipr_id r) d in
  set_ip_pools (db_ip_pools d' ++ [r]) d'.

(** [INSERT OR REPLACE INTO ip_allocations]: rows with the same id or the same
    (pool, address) are deleted first; the pool must exist. *)
Definition conflicts (r x : IpAllocationRow) : bool :=
  (iar_id x =? iar_id r)%N || alloc_at (iar_pool_id r) (iar_address r) x.

Definition replace_allocation_row (r : IpAllocationRow) (d : Db) : result (unit * Db) string :=
  if existsb (pool_id_is (iar_pool_id r)) (db_ip_pools d)
  then Ok (tt, set_ip_allocations
                 (delete_where (conflicts r) (db_ip_allocations d) ++ [r]) d)
  else Err "FOREIGN KEY".

Definition pool_created_le (r1 r2 : IpPoolRow) : Prop :=
  (ipr_created_at r1 ≤ ipr_created_at r2)%Z.
#[export] Instance pool_created_le_dec : RelDecision pool_created_le.
Proof. unfold pool_created_le. intros r1 r2. apply _. Defined.

(** ** [SqliteIpRepository] *)

Section ip_repo.
Context `{Env}.

Definition save_pool (p : IpPool) : M World RepoError unit :=
  execute (replace_pool_row (ip_pool_row p)).
Definition repo_list_pools : M World RepoError (list IpPool) :=
  rows <- select (λ d, merge_sort pool_created_le (db_ip_pools d)) ;;
  lift (collect decode_pool rows).
Definition get_pool (id : Uuid) : M World RepoError (option IpPool) :=
  row <- select (λ d, List.find (pool_id_is id) (db_ip_pools d)) ;;
  lift (transpose decode_pool row).
Definition delete_pool (id : Uuid) : M World RepoError unit :=
  execute (delete_pool_row id).
Definition save_allocation (a : IpAllocation) : M World RepoError unit :=
  statement (replace_allocation_row (allocation_row a)).
Definition list_allocations_for_site (site : Uuid) : M World RepoError (list IpAllocation) :=
  rows <- select (λ d, select_where (alloc_site_is site) (db_ip_allocations d)) ;;
  lift (collect decode_allocation rows).
Definition list_allocations_for_pool (pool : Uuid) : M World RepoError (list IpAllocation) :=
  rows <- select (λ d, select_where (alloc_pool_is pool) (db_ip_allocations d)) ;;
  lift (collect decode_allocation rows).
Definition get_allocation_by_address (pool : Uuid) (address : string)
    : M World RepoError (option IpAllocation) :=
  row <- select (λ d, List.find (alloc_at pool address) (db_ip_allocations d)) ;;
  lift (transpose decode_allocation row).
End ip_repo.

(** ** [Allocator] and [VhostBinder] *)

Definition number_nat (n : nat) : Json := JNumber (of_bytes (show_N (N.of_nat n))).

Section ip_service.
Context `{Env}.
Abbreviation MI A := (M World IpError A).

Definition create_pool (caller : UserRec) (pool : IpPool) : MI IpPool :=
  lift (require_admin caller) ;;;
  lift (validate_cidr (ip_pool_cidr pool) (ip_pool_family pool)) ;;;
  map_err IpPersistence (save_pool pool) ;;;
  audit (u_username caller) IpPoolChanged Success
    (λ e, with_metadata
       (JObject [("cidr", JString (ip_pool_cidr pool));
                 ("family", JString (family_as_str (ip_pool_family pool)));
                 ("kind", JString (kind_as_str (ip_pool_kind pool)));
                 ("name", JString (ip_pool_name pool))])
       (with_target (uuid_text (ip_pool_id pool)) e)) ;;;
  ret pool.

Definition list_pools : MI (list IpPool) := map_err IpPersistence repo_list_pools.
Definition list_for_site (site : Uuid) : MI (list IpAllocation) :=
  map_err IpPersistence (list_allocations_for_site site).

Definition in_use_by (existing : list IpAllocation) (address : string) : bool :=
  existsb (λ a, String.eqb (ip_address a) address
                && negb (bool_decide (ip_status a = IpReleasedStatus))) existing.

(** Held by another site. *)
Definition held_by_other (site : Uuid) (o : option IpAllocation) : bool :=
  match o with
  | Some a => negb (bool_decide (ip_status a = IpReleasedStatus))
              && negb (ip_site_id a =? site)%N
  | None => false
  end.

(** The reservation written at the end of [allocate] and [reserve]. *)
Definition new_allocation (pool site : Uuid) (address : string) : MI IpAllocation :=
  id <- fresh_uuid ;;
  t <- now ;;
  ret {| ip_id := id; ip_alloc_pool_id := pool; ip_address := address; ip_site_id := site;
         ip_status := IpReserved; ip_allocated_at := t; ip_bound_at := None |}.

(** The loop of [allocate] over the candidates. *)
Fixpoint allocate_loop (caller : UserRec) (pool : IpPool) (pool_id site : Uuid)
    (existing : list IpAllocation) (candidates : list string) : MI IpAllocation :=
  match candidates with
  | [] => throw IpPoolExhausted
  | address :: rest =>
      if in_use_by existing address
      then allocate_loop caller pool pool_id site existing rest
      else
        taken <- match ip_pool_kind pool with
                 | Dedicated =>
                     o <- map_err IpPersistence (get_allocation_by_address pool_id address) ;;
                     ret (held_by_other site o)
                 | Shared => ret false
                 end ;;
        if taken : bool then allocate_loop caller pool pool_id site existing rest
        else
          allocation <- new_allocation pool_id site address ;;
          map_err IpPersistence (save_allocation allocation) ;;;
          audit (u_username caller) IpAllocated Success
            (λ e, with_metadata (JObject [("address", JString address);
                                          ("pool_id", JString (uuid_text pool_id))])
                    (with_target (uuid_text site) e)) ;;;
          ret allocation
  end.

Definition require_pool (pool_id : Uuid) : MI IpPool :=
  o <- map_err IpPersistence (get_pool pool_id) ;; ok_or o (IpNotFound (uuid_text pool_id)).

Definition allocate (caller : UserRec) (pool_id site : Uuid) : MI IpAllocation :=
  lift (require_admin caller) ;;;
  pool <- require_pool pool_id ;;
  existing <- map_err IpPersistence (list_allocations_for_pool pool_id) ;;
  allocate_loop caller pool pool_id site existing (candidate_addresses pool 64).

Definition reserve (caller : UserRec) (pool_id site : Uuid) (address : string)
    : MI IpAllocation :=
  lift (require_admin caller) ;;;
  pool <- require_pool pool_id ;;
  if negb (address_in_cidr address (ip_pool_cidr pool)) then throw (OutsidePool address)
  else
    o <- map_err IpPersistence (get_allocation_by_address pool_id address) ;;
    if held_by_other site o then throw (AddressInUse address)
    else
      allocation <- new_allocation pool_id site address ;;
      map_err IpPersistence (save_allocation allocation) ;;;
      ret allocation.

Definition deallocate (caller : UserRec) (allocation_id : Uuid) : MI unit :=
  lift (require_admin caller) ;;;
  throw (IpNotFound "use VhostBinder::release() for a (pool, address) pair").

(** [rebind]: the addresses still held, by family. *)
Definition held (a : IpAllocation) : bool := negb (bool_decide (ip_status a = IpReleasedStatus)).

Definition rebind (caller : UserRec) (site : Uuid) : MI SiteAddress :=
  lift (require_admin caller) ;;;
  allocations <- map_err IpPersistence (list_allocations_for_site site) ;;
  let addresses := map ip_address (List.filter held allocations) in
  let v4 := List.filter (λ a, negb (contains_char a 58)) addresses in
  let v6 := List.filter (λ a, contains_char a 58) addresses in
  t <- now ;;
  audit (u_username caller) IpVhostRebound Success
    (λ e, with_metadata (JObject [("v4_count", number_nat (length v4));
                                  ("v6_count", number_nat (length v6))])
            (with_target (uuid_text site) e)) ;;;
  ret {| sa_site_id := site; sa_v4 := v4; sa_v6 := v6; sa_last_rebound_at := t |}.

Definition set_status (s : IpStatus) (a : IpAllocation) : IpAllocation :=
  {| ip_id := ip_id a; ip_alloc_pool_id := ip_alloc_pool_id a; ip_address := ip_address a;
     ip_site_id := ip_site_id a; ip_status := s; ip_allocated_at := ip_allocated_at a;
     ip_bound_at := ip_bound_at a |}.

Definition release (caller : UserRec) (pool_id : Uuid) (address : string) : MI IpAllocation :=
  lift (require_admin caller) ;;;
  o <- map_err IpPersistence (get_allocation_by_address pool_id address) ;;
  allocation <- ok_or o (IpNotFound address) ;;
  let allocation := set_status IpReleasedStatus allocation in
  map_err IpPersistence (save_allocation allocation) ;;;
  audit (u_username caller) IpReleased Success
    (λ e, with_metadata (JObject [("address", JString address);
                                  ("pool_id", JString (uuid_text pool_id))])
            (with_target (uuid_text (ip_site_id allocation)) e)) ;;;
  ret allocation.
End ip_service.

(** ** The invariant of the address tables *)

Definition alloc_key (r : IpAllocationRow) : Uuid * string := (iar_pool_id r, iar_address r).

Record ip_wf (d : Db) : Prop := {
  wf_pool_ids : NoDup (map ipr_id (db_ip_pools d));
  wf_pools_ok : Forall (λ r, is_ok (decode_pool r) = true) (db_ip_pools d);
  wf_alloc_ids : NoDup (map iar_id (db_ip_allocations d));
  wf_alloc_keys : NoDup (map alloc_key (db_ip_allocations d));
  wf_allocs_ok : Forall (λ r, is_ok (decode_allocation r) = true) (db_ip_allocations d);
  wf_alloc_pools :
    ∀ r, In r (db_ip_allocations d) → In (iar_pool_id r) (map ipr_id (db_ip_pools d))
}.

Definition ip_tables (d : Db) := (db_ip_pools d, db_ip_allocations d).

#[export] Instance ip_wf_blind : AuditBlind (keeps ip_wf).
Proof. intros d t []. by split. Qed.
#[export] Instance ip_tables_blind : AuditBlind (same ip_tables).
Proof. done. Qed.

Lemma alloc_at_key p a r : alloc_at p a r = true ↔ alloc_key r = (p, a).
Proof. unfold alloc_at, alloc_key. rewrite andb_true_iff, N.eqb_eq, String.eqb_eq. naive_solver. Qed.

Lemma delete_where_keys_not {A K} (key : A → K) (p : A → bool) (k : K) (t : list A) :
  (∀ r, key r = k → p r = true) → ~ In k (map key (delete_where p t)).
Proof.
  intros Hp (r & Hk & [_ Hr]%delete_where_In)%in_map_iff. apply Hp in Hk. congruence.
Qed.

Lemma delete_pool_keeps id d : ip_wf d → ip_wf (delete_pool_row id d).
Proof.
  unfold delete_pool_row. destruct (existsb _ _); [|done]. intros [H1 H2 H3 H4 H5 H6].
  split; cbn -[delete_where]; try by apply delete_where_NoDup.
  - rewrite List.Forall_forall in *. intros r [Hr _]%delete_where_In. auto.
  - rewrite List.Forall_forall in *. intros r [Hr _]%delete_where_In. auto.
  - intros r [Hr Hne%N.eqb_neq]%delete_where_In. apply H6, in_map_iff in Hr as (x & Hx & Hin).
    apply in_map_iff. exists x. split; [done|]. apply delete_where_In. split; [done|].
    apply N.eqb_neq. congruence.
Qed.

Lemma decode_pool_row p : decode_pool (ip_pool_row p) = Ok p.
Proof. destruct p as [? ? [] [] ? ?]; reflexivity. Qed.

Lemma decode_allocation_row a : decode_allocation (allocation_row a) = Ok a.
Proof. destruct a as [? ? ? ? [] ? ?]; reflexivity. Qed.

Lemma decode_allocation_inv r a : decode_allocation r = Ok a → r = allocation_row a.
Proof.
  unfold decode_allocation, decode_status.
  destruct (String.eqb_spec (iar_status r) "reserved"), (String.eqb_spec (iar_status r) "active"),
    (String.eqb_spec (iar_status r) "released"); cbn; try done;
    intros [= <-]; destruct r; cbn in *; subst; done.
Qed.

(** After its own id was deleted, a pool row is new. *)
Lemma delete_pool_row_gone id d :
  ~ In id (map ipr_id (db_ip_pools (delete_pool_row id d))).
Proof.
  unfold delete_pool_row. destruct (existsb _ _) eqn:E; cbn -[delete_where].
  - apply delete_where_keys_not. intros r <-. apply N.eqb_refl.
  - intros (r & Hk & Hr)%in_map_iff. apply (proj1 (existsb_false _ _) E) in Hr.
    apply N.eqb_neq in Hr. done.
Qed.

Lemma replace_pool_keeps p d : ip_wf d → ip_wf (replace_pool_row (ip_pool_row p) d).
Proof.
  intros Hwf%(delete_pool_keeps (ip_pool_id p)). unfold replace_pool_row.
  change (ipr_id (ip_pool_row p)) with (ip_pool_id p).
  pose proof (delete_pool_row_gone (ip_pool_id p) d) as Hgone.
  destruct Hwf as [H1 H2 H3 H4 H5 H6]. split; cbn [db_ip_pools db_ip_allocations set_ip_pools]; try done.
  - by apply (NoDup_snoc ipr_id).
  - apply Forall_app. split; [done|]. repeat constructor. by rewrite decode_pool_row.
  - intros r Hr. rewrite map_app, in_app_iff. auto.
Qed.

Lemma replace_allocation_keeps a d x d' :
  ip_wf d → replace_allocation_row (allocation_row a) d = Ok (x, d') → ip_wf d'.
Proof.
  unfold replace_allocation_row. intros [H1 H2 H3 H4 H5 H6].
  destruct (existsb _ _) eqn:E; [|done]. intros [= <- <-].
  split; cbn [db_ip_pools db_ip_allocations set_ip_allocations]; try done.
  - apply (NoDup_snoc iar_id); [by apply delete_where_NoDup|]. apply delete_where_keys_not.
    intros r Hr. unfold conflicts. by rewrite Hr, N.eqb_refl.
  - apply (NoDup_snoc alloc_key); [by apply delete_where_NoDup|]. apply delete_where_keys_not.
    intros r Hr. unfold conflicts. apply orb_true_iff; right. by apply alloc_at_key.
  - rewrite Forall_app. split; [|repeat constructor; by rewrite decode_allocation_row].
    rewrite List.Forall_forall in *. intros r [Hr _]%delete_where_In. auto.
  - intros r [[Hr _]%delete_where_In|[<-|[]]]%in_app_iff; [auto|].
    apply existsb_exists in E as (y & Hy & Hid%N.eqb_eq). rewrite <- Hid. by apply in_map.
Qed.

Section ip_steps.
Context `{Env}.

Lemma read_get_pool (R : relation Db) `{!PreOrder R} id : within (on_db R) (get_pool id).
Proof. unfold get_pool. within_tac. Qed.
Lemma read_for_pool (R : relation Db) `{!PreOrder R} id :
  within (on_db R) (list_allocations_for_pool id).
Proof. unfold list_allocations_for_pool. within_tac. Qed.
Lemma read_for_site (R : relation Db) `{!PreOrder R} id :
  within (on_db R) (list_allocations_for_site id).
Proof. unfold list_allocations_for_site. within_tac. Qed.
Lemma read_by_address (R : relation Db) `{!PreOrder R} p a :
  within (on_db R) (get_allocation_by_address p a).
Proof. unfold get_allocation_by_address. within_tac. Qed.
Lemma read_require_pool (R : relation Db) `{!PreOrder R} p : within (on_db R) (require_pool p).
Proof. pose proof (read_get_pool R). unfold require_pool. within_tac. Qed.
Lemma read_new_allocation (R : relation Db) `{!PreOrder R} p s a :
  within (on_db R) (new_allocation p s a).
Proof. unfold new_allocation. within_tac. Qed.
Lemma keeps_save_allocation a : within (on_db (keeps ip_wf)) (save_allocation a).
Proof.
  apply on_db_statement; [apply _|]. intros d x d' E Hwf. by eapply replace_allocation_keeps.
Qed.
Lemma keeps_save_pool p : within (on_db (keeps ip_wf)) (save_pool p).
Proof. apply on_db_execute; [apply _|]. intros d Hd. by apply replace_pool_keeps. Qed.
Lemma keeps_delete_pool p : within (on_db (keeps ip_wf)) (delete_pool p).
Proof. apply on_db_execute; [apply _|]. intros d Hd. by apply delete_pool_keeps. Qed.
End ip_steps.

#[export] Hint Resolve read_get_pool read_for_pool read_for_site read_by_address
  read_require_pool read_new_allocation keeps_save_allocation keeps_save_pool
  keeps_delete_pool : within.

(** ** The service as a state machine *)

Inductive IpOp : Type :=
| OpCreatePool (caller : UserRec) (pool : IpPool)
| OpDeletePool (id : Uuid)
| OpAllocate (caller : UserRec) (pool site : Uuid)
| OpReserve (caller : UserRec) (pool site : Uuid) (address : string)
| OpReleaseIp (caller : UserRec) (pool : Uuid) (address : string)
| OpRebind (caller : UserRec) (site : Uuid).

Definition run_ip `{Env} (op : IpOp) (w : World) : World :=
  match op with
  | OpCreatePool u p => (create_pool u p w).2
  | OpDeletePool id => (delete_pool id w).2
  | OpAllocate u p s => (allocate u p s w).2
  | OpReserve u p s a => (reserve u p s a w).2
  | OpReleaseIp u p a => (release u p a w).2
  | OpRebind u s => (rebind u s w).2
  end.

Section ip_invariant.
Context `{Env}.

Lemma keeps_allocate_loop u pool p s existing cs :
  within (on_db (keeps ip_wf)) (allocate_loop u pool p s existing cs).
Proof.
  induction cs as [|a cs IH]; cbn [allocate_loop]; [within_tac|].
  destruct (in_use_by existing a); [done|].
  apply within_bind; [apply _ | destruct (ip_pool_kind pool); within_tac |].
  intros []; [done|]. within_tac.
Qed.

Lemma keeps_run_ip op w : on_db (keeps ip_wf) w (run_ip op w).
Proof.
  destruct op; cbn [run_ip].
  - enough (within (on_db (keeps ip_wf)) (create_pool caller pool)) by done.
    unfold create_pool. within_tac.
  - apply keeps_delete_pool.
  - enough (within (on_db (keeps ip_wf)) (allocate caller pool site)) by done.
    pose proof keeps_allocate_loop. unfold allocate. within_tac.
  - enough (within (on_db (keeps ip_wf)) (reserve caller pool site address)) by done.
    unfold reserve. within_tac.
  - enough (within (on_db (keeps ip_wf)) (release caller pool address)) by done.
    unfold release. within_tac.
  - enough (within (on_db (keeps ip_wf)) (rebind caller site)) by done.
    unfold rebind. within_tac.
Qed.
End ip_invariant.

(** ** Who holds an address *)

Definition row_held (r : IpAllocationRow) : bool := negb (String.eqb (iar_status r) "released").

(** [site] holds [address] of [pool]: reserved or active. *)
Definition holds (d : Db) (pool : Uuid) (address : string) (site : Uuid) : Prop :=
  ∃ r, In r (db_ip_allocations d) ∧ alloc_at pool address r = true
       ∧ iar_site_id r = site ∧ row_held r = true.

Definition occupied (d : Db) (pool : Uuid) (address : string) : bool :=
  existsb (λ r, alloc_at pool address r && row_held r) (db_ip_allocations d).

Lemma held_row a : row_held (allocation_row a) = held a.
Proof. unfold row_held, held. cbn. by destruct (ip_status a). Qed.

Lemma holds_unique d pool address s1 s2 :
  ip_wf d → holds d pool address s1 → holds d pool address s2 → s1 = s2.
Proof.
  intros Hwf (r1 & H1 & K1%alloc_at_key & <- & _) (r2 & H2 & K2%alloc_at_key & <- & _).
  f_equal. eapply (NoDup_key_inj alloc_key); [apply Hwf | done.. | congruence].
Qed.

(** The tables after [r] was stored on top of [d]. *)
Definition stored (r : IpAllocationRow) (d d' : Db) : Prop :=
  ip_tables d' = (db_ip_pools d, (delete_where (conflicts r) (db_ip_allocations d) ++ [r])%list).

(** What [allocate] and [reserve] do to the tables: nothing, or store a reservation under an id
    they draw at an address no other site holds. *)
Definition reservation `{Env} (w w' : World) : Prop :=
  forward w w' ∧
  (ip_tables (w_db w') = ip_tables (w_db w) ∨
   ∃ r k, stored r (w_db w) (w_db w') ∧ iar_id r = new_v4 k ∧ (w_step w ≤ k < w_step w')%nat
     ∧ row_held r = true ∧ ∀ s, holds (w_db w) (iar_pool_id r) (iar_address r) s → s = iar_site_id r).

Section ip_forward.
Context `{Env}.
Abbreviation F c := (within forward c).

Lemma forward_get_by_address pool address : F (get_allocation_by_address pool address).
Proof. unfold get_allocation_by_address. within_tac. Qed.
Lemma forward_list_for_pool pool : F (list_allocations_for_pool pool).
Proof. unfold list_allocations_for_pool. within_tac. Qed.
Lemma forward_list_for_site site : F (list_allocations_for_site site).
Proof. unfold list_allocations_for_site. within_tac. Qed.
Lemma forward_require_pool id : F (require_pool id).
Proof. unfold require_pool, get_pool. within_tac. Qed.
Lemma forward_save_allocation a : F (save_allocation a).
Proof. unfold save_allocation. within_tac. Qed.
Lemma forward_new_allocation pool site address : F (new_allocation pool site address).
Proof. unfold new_allocation. within_tac. Qed.
End ip_forward.
#[export] Hint Resolve forward_get_by_address forward_list_for_pool forward_list_for_site forward_require_pool
  forward_save_allocation forward_new_allocation : within.

Section ip_effects.
Context `{Env}.

Lemma db_of_read {E A} (c : M World E A) w :
  within (on_db (same id)) c → w_db (c w).2 = w_db w.
Proof. intros Hc. exact (Hc w). Qed.

Lemma audit_db {E} a act out b (w : World) :
  ip_tables (w_db (audit (E:=E) a act out b w).2) = ip_tables (w_db w).
Proof. exact (on_db_audit (same ip_tables) (E:=E) a act out b w). Qed.

(** The end of [allocate] and [reserve], when no other site holds the address. *)
Lemma store_reservation {B} pool site address (k : IpAllocation → M World IpError B) w :
  (∀ a, within (on_db (same ip_tables)) (k a)) → (∀ a, within forward (k a)) →
  (∀ s, holds (w_db w) pool address s → s = site) →
  reservation w ((a <- new_allocation pool site address ;;
                  map_err IpPersistence (save_allocation a) ;;; k a) w).2.
Proof.
  intros Hk Hkf Hfree. erewrite bind_run by reflexivity. unfold bind, map_err, save_allocation, statement.
  cbn [w_step tick w_db].
  assert (∀ n : nat, (w_step w ≤ S (S (n + w_step w)))%nat) as Hn by lia.
  destruct (sql_fault _); [split; [exact (Hn 1%nat) | by left]|]. unfold replace_allocation_row. cbn -[delete_where].
  destruct (existsb _ _); [|split; [exact (Hn 1%nat) | by left]]. cbn -[delete_where].
  match goal with |- context [k ?a ?w1] => pose proof (Hk a w1) as Hw; pose proof (Hkf a w1) as Hf end.
  unfold forward in Hf. cbn -[delete_where] in Hf. split; [unfold forward; lia|]. right.
  eexists {| iar_id := new_v4 (w_step w); iar_pool_id := pool; iar_address := address;
             iar_site_id := site; iar_status := "reserved";
             iar_allocated_at := utc_now (S (w_step w)); iar_bound_at := None |}, (w_step w).
  split; [exact Hw|]. split; [done|]. split; [lia|]. done.
Qed.

Lemma get_by_address_run pool address w o w' :
  get_allocation_by_address pool address w = (Ok o, w') →
  w_db w' = w_db w ∧ match o with
    | None => ∀ r, In r (db_ip_allocations (w_db w)) → alloc_at pool address r = false
    | Some a => In (allocation_row a) (db_ip_allocations (w_db w))
                ∧ alloc_at pool address (allocation_row a) = true
    end.
Proof.
  unfold get_allocation_by_address. intros Hr. inv_bind Hr.
  unfold select, statement in R. destruct (sql_fault _); [done|]. injection R as <- <-.
  apply lift_ok in Hr as [Ht ->]. split; [done|].
  destruct (List.find _ _) as [r|] eqn:E; cbn in Ht.
  - destruct (decode_allocation r) as [a|] eqn:Ed; [|done]. injection Ht as <-.
    apply decode_allocation_inv in Ed as ->. by apply List.find_some in E.
  - injection Ht as <-. intros r Hr. by eapply List.find_none in E.
Qed.

(** Nobody else holds an address that [held_by_other] lets through. *)
Lemma not_held_by_other pool address site w o w' :
  ip_wf (w_db w) →
  get_allocation_by_address pool address w = (Ok o, w') → held_by_other site o = false →
  ∀ s, holds (w_db w) pool address s → s = site.
Proof.
  intros Hwf Hg Hno s (r & Hr & Hat & <- & Hheld).
  apply get_by_address_run in Hg as [_ Ho]. destruct o as [a|].
  - destruct Ho as [Ha Hat']. apply alloc_at_key in Hat, Hat'.
    assert (r = allocation_row a) as ->
      by (eapply (NoDup_key_inj alloc_key); [apply Hwf | done.. | congruence]).
    rewrite held_row in Hheld. unfold held_by_other in Hno. unfold held in Hheld.
    rewrite Hheld in Hno. cbn in *. by apply negb_false_iff, N.eqb_eq in Hno.
  - apply Ho in Hr. congruence.
Qed.

(** The listed allocations are the rows of the pool. *)
Lemma existing_rows d pool existing :
  collect decode_allocation (select_where (alloc_pool_is pool) (db_ip_allocations d)) = Ok existing →
  map allocation_row existing = select_where (alloc_pool_is pool) (db_ip_allocations d).
Proof.
  intros Hf%collect_Forall2. induction Hf as [|r a l es Hr _ IH]; cbn; [done|].
  apply decode_allocation_inv in Hr as ->. by rewrite IH.
Qed.

Lemma in_use_occupied d pool existing address :
  map allocation_row existing = select_where (alloc_pool_is pool) (db_ip_allocations d) →
  in_use_by existing address = occupied d pool address.
Proof.
  intros Hrows. unfold in_use_by, occupied. apply eq_iff_eq_true. rewrite !existsb_exists. split.
  - intros (a & Ha & [Hk Hh]%andb_true_iff). exists (allocation_row a).
    assert (In (allocation_row a) (select_where (alloc_pool_is pool) (db_ip_allocations d)))
      as [Hin Hp]%filter_In by (rewrite <- Hrows; by apply in_map).
    split; [done|]. rewrite held_row. unfold held, alloc_at. unfold alloc_pool_is in Hp.
    cbn in *. by rewrite Hp, Hk, Hh.
  - intros (r & Hr & [Hk Hh]%andb_true_iff). unfold alloc_at in Hk.
    apply andb_true_iff in Hk as [Hp Hk].
    assert (In r (map allocation_row existing)) as (a & <- & Ha)%in_map_iff
      by (rewrite Hrows; by apply filter_In).
    exists a. split; [done|]. rewrite held_row in Hh. unfold held in Hh. cbn in Hk.
    by rewrite Hk, Hh.
Qed.

Lemma occupied_holds d pool address :
  occupied d pool address = true ↔ ∃ s, holds d pool address s.
Proof.
  unfold occupied, holds. rewrite existsb_exists. split.
  - intros (r & Hr & [Hk Hh]%andb_true_iff). exists (iar_site_id r), r. done.
  - intros (s & r & Hr & Hk & _ & Hh). exists r. by rewrite Hk, Hh.
Qed.
End ip_effects.

Section ip_allocate.
Context `{Env}.

Lemma reservation_then w w1 w' :
  w_db w1 = w_db w → forward w w1 → reservation w1 w' → reservation w w'.
Proof.
  intros Hd Hf [Hf' Hr]. split; [by etransitivity|]. rewrite Hd in Hr.
  destruct Hr as [?|(r & k & Hst & Hid & Hk & Hrest)]; [by left|]. right. exists r, k.
  unfold forward in Hf. split; [done|]. split; [done|]. split; [lia | done].
Qed.

Lemma allocate_loop_effect u pool p s existing cs w :
  ip_wf (w_db w) →
  map allocation_row existing = select_where (alloc_pool_is p) (db_ip_allocations (w_db w)) →
  reservation w (allocate_loop u pool p s existing cs w).2.
Proof.
  revert w. induction cs as [|a cs IH]; intros w Hwf Hex; cbn [allocate_loop]; [by split; [|left]|].
  destruct (in_use_by existing a) eqn:Eu; [by apply IH|].
  rewrite (in_use_occupied (w_db w) p) in Eu by done.
  match goal with |- context [bind ?c ?k w] =>
    set (read := c); set (cont := k) end.
  assert (w_db (read w).2 = w_db w) as Hdb.
  { apply db_of_read. subst read. destruct (ip_pool_kind pool); within_tac. }
  assert (forward w (read w).2) as Hfw.
  { enough (within forward read) as Hr by apply Hr. subst read. destruct (ip_pool_kind pool); within_tac. }
  apply (reservation_then w (read w).2); [done..|].
  unfold bind. destruct (read w) as [[t|e] w1]; cbn in Hdb |- *; [|by split; [|left]].
  subst cont. cbn beta. rewrite <- Hdb in *. destruct t; [by apply IH|].
  apply store_reservation.
  - intros al. within_tac.
  - intros al. within_tac.
  - intros s' Hs'. assert (occupied (w_db w1) p a = true); [|congruence].
    apply occupied_holds. eauto.
Qed.

Lemma list_for_pool_run p w existing w' :
  list_allocations_for_pool p w = (Ok existing, w') →
  w_db w' = w_db w
  ∧ map allocation_row existing = select_where (alloc_pool_is p) (db_ip_allocations (w_db w)).
Proof.
  unfold list_allocations_for_pool. intros Hr. inv_bind Hr.
  unfold select, statement in R. destruct (sql_fault _); [done|]. injection R as <- <-.
  apply lift_ok in Hr as [Hc ->]. split; [done|]. by apply existing_rows.
Qed.

(** Sequencing after a read. *)
Lemma reservation_after {A B} (c : M World IpError A) (k : A → M World IpError B) w :
  within (on_db (same id)) c → within forward c →
  (∀ a w1, c w = (Ok a, w1) → w_db w1 = w_db w → reservation w1 (k a w1).2) →
  reservation w (bind c k w).2.
Proof.
  intros Hc Hf Hk. apply db_of_read with (w := w) in Hc. specialize (Hf w). unfold bind.
  destruct (c w) as [[a|e] w1] eqn:E; cbn in Hc, Hf |- *; [|split; [done | left; by rewrite Hc]].
  apply (reservation_then w w1); [done..|]. by apply Hk.
Qed.

Lemma allocate_effect u p s w :
  ip_wf (w_db w) → reservation w (allocate u p s w).2.
Proof.
  intros Hwf. unfold allocate.
  apply reservation_after; [within_tac..|]. intros _ w1 _ Hw1.
  apply reservation_after; [within_tac..|]. intros pool w2 _ Hw2.
  apply reservation_after; [within_tac..|]. intros existing w3 Hl%map_err_ok Hw3.
  apply list_for_pool_run in Hl as [_ Hex]. rewrite <- Hw3 in Hex.
  apply allocate_loop_effect; [by rewrite Hw3, Hw2, Hw1 | done].
Qed.

Lemma reserve_effect u p s a w :
  ip_wf (w_db w) → reservation w (reserve u p s a w).2.
Proof.
  intros Hwf. unfold reserve.
  apply reservation_after; [within_tac..|]. intros _ w1 _ Hw1.
  apply reservation_after; [within_tac..|]. intros pool w2 _ Hw2.
  destruct (negb _); [by split; [|left]|].
  apply reservation_after; [within_tac..|]. intros o w3 Hg%map_err_ok Hw3.
  destruct (held_by_other s o) eqn:Eh; [by split; [|left]|].
  apply (store_reservation (B:=IpAllocation)); [intros al; within_tac..|].
  rewrite Hw3. eapply not_held_by_other; [by rewrite Hw2, Hw1 | done..].
Qed.

(** The site holds the address with a row whose id is not drawn from step [n] on. *)
Definition holds_kept (n : nat) (d : Db) (pool : Uuid) (address : string) (site : Uuid) : Prop :=
  ∃ r, In r (db_ip_allocations d) ∧ alloc_at pool address r = true
       ∧ iar_site_id r = site ∧ row_held r = true ∧ ∀ k, (n ≤ k)%nat → new_v4 k ≠ iar_id r.

(** A reservation takes no address from its holder. *)
Lemma reservation_holds w w' pool address site :
  draws_differ (w_step w) → reservation w w' →
  holds_kept (w_step w) (w_db w) pool address site → holds_kept (w_step w') (w_db w') pool address site.
Proof.
  intros Hdiff [Hf [Hsame|(r & k & Hst & Hid & Hk & Hheld & Hown)]] (x & Hx & Hat & Hs & Hxh & Hfr).
  - unfold ip_tables in Hsame. injection Hsame as _ Ha. exists x. rewrite Ha. unfold forward in Hf.
    split_and!; try done. intros j Hj. apply Hfr. lia.
  - unfold stored, ip_tables in Hst. injection Hst as _ Ha.
    destruct (alloc_at pool address r) eqn:Er.
    + apply alloc_at_key in Er as Ek. injection Ek as <- <-.
      exists r. rewrite Ha, in_app_iff. split_and!; [right; by left | done | | done|].
      * symmetry. apply Hown. by exists x.
      * intros j Hj. rewrite Hid. apply Hdiff; lia.
    + exists x. rewrite Ha, in_app_iff. unfold forward in Hf.
      split_and!; try done; [|intros j Hj; apply Hfr; lia]. left. apply delete_where_In. split; [done|].
      unfold conflicts. apply orb_false_iff. split.
      * apply N.eqb_neq. intros Heq. apply (Hfr k); [lia|]. by rewrite <- Hid, <- Heq.
      * destruct (alloc_at (iar_pool_id r) (iar_address r) x) eqn:E; [|done].
        apply alloc_at_key in E, Hat. rewrite E in Hat. injection Hat as <- <-.
        unfold alloc_at in Er. by rewrite N.eqb_refl, String.eqb_refl in Er.
Qed.
End ip_allocate.

Section ip_holders.
Context `{Env} (n : nat).

Lemma holds_frame d d' pool address site :
  db_ip_allocations d' = db_ip_allocations d → holds_kept n d pool address site → holds_kept n d' pool address site.
Proof. unfold holds_kept. by intros ->. Qed.

Lemma delete_pool_holds id d pool address site :
  id ≠ pool → holds_kept n d pool address site → holds_kept n (delete_pool_row id d) pool address site.
Proof.
  intros Hne Hh. unfold delete_pool_row. destruct (existsb _ _); [|done].
  destruct Hh as (r & Hr & Hat & Hs & Hh & Hf). exists r. split_and!; try done.
  cbn -[delete_where]. apply delete_where_In. split; [done|].
  apply alloc_at_key in Hat. injection Hat as Hp _. unfold alloc_pool_is.
  apply N.eqb_neq. congruence.
Qed.

(** Storing a row back under its own id and key leaves the other addresses alone. *)
Lemma update_row_holds a s d d' x pool address site :
  ip_wf d → In (allocation_row a) (db_ip_allocations d) → alloc_key (allocation_row a) ≠ (pool, address) →
  replace_allocation_row (allocation_row (set_status s a)) d = Ok (x, d') →
  holds_kept n d pool address site → holds_kept n d' pool address site.
Proof.
  intros Hwf Ha Hne Hrep (r & Hr & Hat & Hs & Hh & Hf). unfold replace_allocation_row in Hrep.
  destruct (existsb _ _); [|done]. injection Hrep as _ <-.
  exists r. split_and!; try done. cbn -[delete_where]. apply in_app_iff. left.
  apply delete_where_In. split; [done|]. apply alloc_at_key in Hat.
  unfold conflicts. apply orb_false_iff. split.
  - apply N.eqb_neq. intros Heq. apply Hne. rewrite <- Hat. f_equal.
    eapply (NoDup_key_inj iar_id); [apply Hwf | done.. | by symmetry].
  - destruct (alloc_at _ _ r) eqn:E; [|done]. apply alloc_at_key in E.
    exfalso. apply Hne. rewrite <- Hat, E. done.
Qed.

Lemma release_holds u p a w pool address site :
  ip_wf (w_db w) → (p, a) ≠ (pool, address) →
  holds_kept n (w_db w) pool address site → holds_kept n (w_db (release u p a w).2) pool address site.
Proof.
  intros Hwf Hne Hh. unfold release, bind at 1.
  destruct (require_admin u); cbn [lift ret throw]; [|done].
  assert (w_db (get_allocation_by_address p a w).2 = w_db w) as Hdb
    by (apply db_of_read; within_tac).
  unfold bind at 1, map_err at 1.
  destruct (get_allocation_by_address p a w) as [[o|e] w1] eqn:Eg; cbn in Hdb;
    [|cbn; by rewrite Hdb].
  apply get_by_address_run in Eg as [_ Ho].
  destruct o as [al|]; cbn [ok_or]; [|cbn; by rewrite Hdb].
  destruct Ho as [Hal Hat]. erewrite bind_run by reflexivity.
  unfold bind at 1, map_err, save_allocation, statement.
  destruct (sql_fault _); [cbn; by rewrite Hdb|]. rewrite Hdb.
  destruct (replace_allocation_row _ _) as [[x d']|] eqn:Er; [|cbn; by rewrite Hdb].
  assert (holds_kept n d' pool address site) as Hd'.
  { eapply update_row_holds; [done | exact Hal | | exact Er | done].
    apply alloc_at_key in Hat. by rewrite Hat. }
  match goal with |- holds_kept n (w_db (bind ?c ?k ?w0).2) _ _ _ =>
    assert (ip_tables (w_db (bind c k w0).2) = ip_tables (w_db w0)) as Ht;
      [enough (within (on_db (same ip_tables)) (bind c k)) as Hw by exact (Hw w0); within_tac|] end.
  unfold ip_tables in Ht. injection Ht as _ Ht. eapply holds_frame; [exact Ht|]. done.
Qed.

(** Operations that do not release [address] of [pool] or remove [pool] itself. *)
Definition spares (op : IpOp) (pool : Uuid) (address : string) : Prop :=
  match op with
  | OpCreatePool _ p => ip_pool_id p ≠ pool
  | OpDeletePool id => id ≠ pool
  | OpReleaseIp _ p a => (p, a) ≠ (pool, address)
  | OpAllocate _ _ _ | OpReserve _ _ _ _ | OpRebind _ _ => True
  end.

Lemma create_pool_holds u p w pool address site :
  ip_pool_id p ≠ pool → holds_kept n (w_db w) pool address site →
  holds_kept n (w_db (create_pool u p w).2) pool address site.
Proof.
  intros Hne Hh.
  assert (within (on_db (λ d d', holds_kept n d pool address site → holds_kept n d' pool address site))
    (create_pool u p)) as Hw; [|by apply Hw].
  assert (PreOrder (λ d d', holds_kept n d pool address site → holds_kept n d' pool address site))
    by (split; repeat intro; auto).
  assert (AuditBlind (λ d d', holds_kept n d pool address site → holds_kept n d' pool address site))
    by (intros d t; done).
  unfold create_pool, save_pool. within_tac. apply on_db_execute; [done|].
  intros d Hd. eapply (holds_frame (delete_pool_row (ip_pool_id p) d)); [done|].
  by apply delete_pool_holds.
Qed.

End ip_holders.

Section ip_steps.
Context `{Env}.

Lemma forward_run_ip op w : forward w (run_ip op w).
Proof.
  destruct op; cbn [run_ip]; match goal with |- forward _ (?c _).2 => enough (within forward c) by done end.
  - unfold create_pool, save_pool. within_tac.
  - unfold delete_pool. within_tac.
  - assert (∀ p l cs, within forward (allocate_loop caller p pool site l cs)).
    { intros p l cs. induction cs as [|x cs IH]; cbn [allocate_loop]; within_tac. }
    unfold allocate. within_tac.
  - unfold reserve. within_tac.
  - unfold release. within_tac.
  - unfold rebind. within_tac.
Qed.

Lemma holds_kept_later n n' d pool address site :
  (n ≤ n')%nat → holds_kept n d pool address site → holds_kept n' d pool address site.
Proof. intros Hn (r & ? & ? & ? & ? & Hf). exists r. split_and!; try done. intros k Hk. apply Hf. lia. Qed.

Lemma run_ip_holds op w pool address site :
  ip_wf (w_db w) → draws_differ (w_step w) → spares op pool address →
  holds_kept (w_step w) (w_db w) pool address site →
  holds_kept (w_step (run_ip op w)) (w_db (run_ip op w)) pool address site.
Proof.
  intros Hwf Hdiff Hsp Hh. pose proof (forward_run_ip op w) as Hfw.
  assert (∀ d, holds_kept (w_step w) d pool address site →
               holds_kept (w_step (run_ip op w)) d pool address site) as Hlater
    by (intros d; by apply holds_kept_later).
  destruct op; cbn [run_ip spares] in *.
  - by apply Hlater, create_pool_holds.
  - apply Hlater. unfold delete_pool, execute, statement. destruct (sql_fault _); [done|].
    by apply delete_pool_holds.
  - eapply reservation_holds; [done | by apply allocate_effect | done].
  - eapply reservation_holds; [done | by apply reserve_effect | done].
  - by apply Hlater, release_holds.
  - apply Hlater. assert (within (on_db (same ip_tables)) (rebind caller site0)) as Hw
      by (unfold rebind; within_tac).
    specialize (Hw w). unfold on_db, same, ip_tables in Hw. injection Hw as _ Ha.
    by eapply holds_frame.
Qed.
End ip_steps.

Section ip_exact.
Context `{Env}.
Hypothesis no_faults : ∀ k, sql_fault k = None.

Lemma collect_alloc_ok p (d : Db) :
  ip_wf d → ∃ l, collect decode_allocation (select_where p (db_ip_allocations d)) = Ok l
                 ∧ map allocation_row l = select_where p (db_ip_allocations d).
Proof using Type.
  intros Hwf. destruct (collect_ok decode_allocation (select_where p (db_ip_allocations d)))
    as (l & Hc & Hf).
  { pose proof (wf_allocs_ok _ Hwf) as Hok. rewrite List.Forall_forall in *.
    intros r [Hr _]%filter_In. auto. }
  exists l. split; [done|]. clear Hc. induction Hf as [|r a l' es Hr _ IH]; cbn; [done|].
  apply decode_allocation_inv in Hr as ->. by rewrite IH.
Qed.

Lemma get_by_address_no_fault p a w :
  ip_wf (w_db w) → ∃ o, get_allocation_by_address p a w = (Ok o, tick w).
Proof using no_faults.
  intros Hwf. unfold get_allocation_by_address, bind. rewrite select_no_fault by done.
  destruct (List.find _ _) as [r|] eqn:E; cbn; [|by eexists].
  apply List.find_some in E as [Hr _]. pose proof (wf_allocs_ok _ Hwf) as Hok.
  rewrite List.Forall_forall in Hok. apply Hok in Hr.
  destruct (decode_allocation r); [by eexists | done].
Qed.

Lemma save_allocation_no_fault al w :
  In (ip_alloc_pool_id al) (map ipr_id (db_ip_pools (w_db w))) →
  save_allocation al w =
  (Ok tt, mkWorld (S (w_step w)) (set_ip_allocations
     (delete_where (conflicts (allocation_row al)) (db_ip_allocations (w_db w))
      ++ [allocation_row al]) (w_db w))).
Proof using no_faults.
  intros (r & Hid & Hr)%in_map_iff. unfold save_allocation, statement. rewrite no_faults.
  unfold replace_allocation_row. cbn [allocation_row iar_pool_id].
  assert (existsb (pool_id_is (ip_alloc_pool_id al)) (db_ip_pools (w_db w)) = true) as ->; [|done].
  apply existsb_exists. exists r. split; [done|]. unfold pool_id_is. by rewrite Hid, N.eqb_refl.
Qed.

(** The rest of [allocate] for a free address. *)
Lemma store_free u p s a w :
  In p (map ipr_id (db_ip_pools (w_db w))) →
  ∃ al w', ((al <- new_allocation p s a ;;
            map_err IpPersistence (save_allocation al) ;;;
            audit (u_username u) IpAllocated Success
              (λ e, with_metadata (JObject [("address", JString a);
                                            ("pool_id", JString (uuid_text p))])
                      (with_target (uuid_text s) e)) ;;;
            ret al) w) = (Ok al, w')
    ∧ ip_address al = a ∧ ip_status al = IpReserved ∧ holds (w_db w') p a s.
Proof using no_faults.
  intros Hp. erewrite bind_run by reflexivity.
  erewrite bind_run by (apply map_err_run, save_allocation_no_fault, Hp).
  edestruct (audit_ok (same ip_tables) (E:=IpError)) as (w' & Ha & Hs).
  rewrite (bind_run _ _ _ _ _ Ha). eexists _, w'. split_and!; [done..|].
  unfold on_db, same, ip_tables in Hs. injection Hs as _ Hs. cbn -[delete_where] in Hs.
  unfold holds. rewrite Hs. eexists. split; [apply in_app_iff; right; by left|].
  split_and!; try done. by apply alloc_at_key.
Qed.

(** The first candidate that nobody holds. *)
Definition first_free (d : Db) (pool : IpPool) (p : Uuid) : option string :=
  List.find (λ a, negb (occupied d p a)) (candidate_addresses pool 64).

Lemma allocate_loop_exact u pool p s existing cs w :
  ip_wf (w_db w) → In p (map ipr_id (db_ip_pools (w_db w))) →
  map allocation_row existing = select_where (alloc_pool_is p) (db_ip_allocations (w_db w)) →
  match List.find (λ a, negb (occupied (w_db w) p a)) cs with
  | Some a => ∃ al w', allocate_loop u pool p s existing cs w = (Ok al, w')
      ∧ ip_address al = a ∧ ip_status al = IpReserved ∧ holds (w_db w') p a s
  | None => ∃ w', allocate_loop u pool p s existing cs w = (Err IpPoolExhausted, w')
      ∧ w_db w' = w_db w
  end.
Proof using no_faults.
  intros Hwf Hp Hex. induction cs as [|a cs IH]; cbn [allocate_loop List.find]; [by eexists|].
  rewrite (in_use_occupied (w_db w) p) by done.
  destruct (occupied (w_db w) p a) eqn:Eo; cbn [negb]; [exact IH|].
  assert (∀ o, held_by_other s o = false ∨ ∃ al, o = Some al ∧ held al = true) as Hcase.
  { intros [al|]; [|by left]. cbn. unfold held.
    destruct (negb (bool_decide _)) eqn:E; cbn; [right; eauto | by left]. }
  assert (∃ w1, match ip_pool_kind pool with
    | Dedicated => o <- map_err IpPersistence (get_allocation_by_address p a) ;;
                   ret (held_by_other s o)
    | Shared => ret false end w = (Ok false, w1) ∧ w_db w1 = w_db w) as (w1 & Hrun & Hdb).
  { destruct (ip_pool_kind pool); [by eexists|].
    destruct (get_by_address_no_fault p a w Hwf) as (o & Hg).
    erewrite bind_run by (apply map_err_run, Hg). exists (tick w). split; [|done].
    destruct (Hcase o) as [->|(al & -> & Hal)]; [done|]. exfalso.
    apply get_by_address_run in Hg as [_ [Hin Hat]].
    assert (occupied (w_db w) p a = true); [|congruence]. apply existsb_exists.
    exists (allocation_row al). by rewrite Hat, held_row. }
  rewrite (bind_run _ _ _ _ _ Hrun). rewrite <- Hdb in Hp.
  apply (store_free u p s a w1 Hp).
Qed.

Lemma require_pool_no_fault p pool w :
  List.find (pool_id_is p) (db_ip_pools (w_db w)) = Some (ip_pool_row pool) →
  require_pool p w = (Ok pool, tick w).
Proof using no_faults.
  intros Hf. unfold require_pool, get_pool, bind, map_err. rewrite select_no_fault by done.
  rewrite Hf. unfold lift, transpose. rewrite decode_pool_row. done.
Qed.

Lemma list_for_pool_no_fault p w :
  ip_wf (w_db w) → ∃ l, list_allocations_for_pool p w = (Ok l, tick w)
    ∧ map allocation_row l = select_where (alloc_pool_is p) (db_ip_allocations (w_db w)).
Proof using no_faults.
  intros Hwf. destruct (collect_alloc_ok (alloc_pool_is p) _ Hwf) as (l & Hc & Hm).
  exists l. split; [|done]. unfold list_allocations_for_pool, bind.
  rewrite select_no_fault by done. unfold lift. by rewrite Hc.
Qed.
End ip_exact.

(** ** Candidate addresses and the pool's network *)

Lemma first_piece_no_sep c l : ~ In c (first_piece c l).
Proof.
  unfold first_piece. induction l as [|b l IH]; cbn; [by intros []|].
  destruct (N.eqb_spec b c) as [->|Hne]; cbn; [by intros []|].
  pose proof (split_nonempty c l). destruct (split c l) as [|x xs]; [done|]. cbn in *.
  intros [?|?]; [congruence | by apply IH].
Qed.

Definition number_char (c : N) : Prop := is_digit c = true ∨ c = 43%N.

Lemma parse_digits_chars ds acc m : parse_digits acc ds = Some m → Forall number_char ds.
Proof.
  revert acc m. induction ds as [|d ds IH]; intros acc m; cbn; [constructor|].
  destruct (is_digit d) eqn:E; [|done]. intros Hp. constructor; [by left | by eapply IH].
Qed.

Lemma parse_u8_chars cs n : parse_u8 cs = Some n → Forall number_char cs.
Proof.
  assert (∀ ds, match parse_nonempty ds with
    | Some n => if (n <=? 255)%N then Some n else None | None => None end = Some n →
    Forall number_char ds) as Hd.
  { intros [|d ds]; [done|]. cbn [parse_nonempty].
    destruct (parse_digits 0 (d :: ds)) eqn:E; [|done]. intros _. by eapply parse_digits_chars. }
  destruct cs as [|c cs]; [done|]. destruct (decide (c = 43%N)) as [->|Hne].
  - intros Hp%Hd. constructor; [by right | done].
  - intros Hp. apply Hd. rewrite <- Hp. unfold parse_u8.
    replace (match c with 43%N => cs | _ => c :: cs end) with (c :: cs); [done|].
    destruct c as [|p]; [done|]. do 6 (destruct p as [p|p|]; try done).
Qed.

(** Only the first octet of the network can make a candidate look inside it. *)
Lemma candidate_outside cidr addr prefix i :
  split_once 47 (bytes cidr) = Some (addr, prefix) → Forall number_char prefix →
  first_piece 46 addr ≠ [] → first_piece 46 addr ≠ bytes "1" → first_piece 46 addr ≠ bytes "10" →
  address_in_cidr (candidate V4 (cidr_prefix cidr) i) cidr = false.
Proof.
  intros Hs Hp H0 H1 H2. unfold address_in_cidr, cidr_prefix. rewrite Hs.
  pose proof (first_piece_no_sep 46 addr) as Hsep.
  destruct (show_N_spec (N.of_nat i)) as (_ & Hd & _).
  assert (Forall (λ b, b < 256)%N (show_N (N.of_nat i))) as Hd'.
  { eapply Forall_impl; [exact Hd|]. unfold digit, is_digit. intros x. rewrite andb_true_iff, N.leb_le, N.leb_le. lia. }
  assert (Forall (λ b, b < 256)%N prefix) as Hp'.
  { eapply Forall_impl; [exact Hp|]. unfold number_char, is_digit. intros x. rewrite andb_true_iff, !N.leb_le. lia. }
  assert (bytes (candidate V4 (of_bytes prefix) i) =
    (bytes "10.0.0." ++ show_N (N.of_nat i) ++ bytes "#" ++ prefix)%list) as Hb.
  { unfold candidate. rewrite !bytes_app, !bytes_of_bytes by done. done. }
  assert (contains_char (candidate V4 (of_bytes prefix) i) 58 = false) as ->.
  { unfold contains_char. rewrite Hb. apply existsb_false. intros x Hx. apply N.eqb_neq. intros <-.
    rewrite !in_app_iff in Hx. rewrite List.Forall_forall in Hd, Hp.
    destruct Hx as [Hx|[Hx|[Hx|Hx]]].
    - cbn in Hx. repeat (destruct Hx as [Hx|Hx]; [done|]). done.
    - apply Hd in Hx. done.
    - cbn in Hx. destruct Hx as [Hx|Hx]; done.
    - apply Hp in Hx as [Hx|Hx]; done. }
  rewrite Hb. destruct (first_piece 46 addr) as [|a [|b [|c f]]] eqn:Ef; [done| | |];
    change (bytes "10.0.0.") with [49; 48; 46; 48; 46; 48; 46]%N; cbn [prefixb app].
  - destruct (N.eqb_spec a 49) as [->|]; [by destruct H1 | done].
  - destruct (N.eqb_spec a 49) as [->|]; [|done].
    destruct (N.eqb_spec b 48) as [->|]; [by destruct H2 | done].
  - destruct (N.eqb_spec c 46) as [->|]; [|by rewrite !andb_false_r].
    exfalso. apply Hsep. right; right; by left.
Qed.

Lemma allocate_loop_address `{Env} u pool p s existing cs w al w' :
  allocate_loop u pool p s existing cs w = (Ok al, w') → In (ip_address al) cs.
Proof.
  revert w. induction cs as [|a cs IH]; intros w; cbn [allocate_loop]; [done|].
  destruct (in_use_by existing a); [intros Hr; right; by eapply IH|].
  intros Hr. inv_bind Hr. destruct a0; [right; by eapply IH|].
  inv_bind Hr. inv_bind Hr. inv_bind Hr. injection Hr as <- _.
  unfold new_allocation in R0. repeat inv_bind R0. injection R0 as <- _. by left.
Qed.

Lemma validate_v4_inv cidr :
  validate_cidr cidr V4 = Ok tt ↔ ∃ addr prefix n,
    split_once 47 (bytes cidr) = Some (addr, prefix) ∧ parse_u8 prefix = Some n ∧ (n ≤ 32)%N
    ∧ length (split 46 addr) = 4%nat ∧ Forall (λ p, is_some (parse_u8 p) = true) (split 46 addr).
Proof.
  unfold validate_cidr. destruct (split_once 47 (bytes cidr)) as [[addr prefix]|]; [|naive_solver].
  destruct (parse_u8 prefix) as [n|] eqn:En; [|naive_solver].
  assert (∀ l, Forall (λ p, is_some (parse_u8 p) = true) l →
    List.filter (λ p, negb (bool_decide (p = []))) l = l) as Hall.
  { induction 1 as [|p l Hp _ IH]; cbn; [done|].
    destruct p; [done|]. cbn. by rewrite IH. }
  assert (forallb (λ p, is_some (parse_u8 p)) (split 46 addr) = true ↔
    Forall (λ p, is_some (parse_u8 p) = true) (split 46 addr)) as Hfa.
  { rewrite forallb_forall, List.Forall_forall. done. }
  split.
  - destruct (_ && _) eqn:E; cbn; [|done]. intros _. apply andb_true_iff in E as [E Hf%Hfa].
    apply andb_true_iff in E as [Hn%N.leb_le Hl%Nat.eqb_eq]. rewrite Hall in Hl by done.
    exists addr, prefix, n. done.
  - intros (addr' & prefix' & n' & [= <- <-] & Hn & Hle & Hlen & Hf). simplify_eq.
    apply Hfa in Hf as Hf'. rewrite Hf', Hall by done. rewrite Hlen.
    apply N.leb_le in Hle as ->. done.
Qed.

(** ** Properties *)

(** Address tables.  Every operation of the allocator and the vhost binder,
    whatever its outcome and wherever a statement fails, keeps pool ids, allocation
    ids and (pool, address) pairs unique, every allocation in a stored pool and every
    row decodable; in particular an address of a pool never has two holders. *)
Theorem ip_tables_invariant `{Env} (op : IpOp) (w : World) :
  ip_wf (w_db w) →
  ip_wf (w_db (run_ip op w))
  ∧ ∀ pool address s1 s2, holds (w_db (run_ip op w)) pool address s1 →
      holds (w_db (run_ip op w)) pool address s2 → s1 = s2.
Proof.
  intros Hwf. pose proof (keeps_run_ip op w Hwf) as Hwf'. split; [done|].
  intros. by eapply holds_unique.
Qed.

(** One operation that does not release the address or replace or delete its pool. *)
Inductive sparing_step `{Env} (pool : Uuid) (address : string) : World → World → Prop :=
| SparingStep op w : spares op pool address → sparing_step pool address w (run_ip op w).

(** C36 (no address is taken away).  A site that holds an address keeps it through any sequence
    of operations that neither release that address nor replace or delete its pool, whatever
    their outcome and wherever statements fail, as long as from now on no identifier is drawn
    twice and the one of the stored allocation is not drawn again; the draws of the past, that
    of the allocation itself among them, do not matter. *)
Theorem ip_holder_kept `{Env} w w' pool address site :
  ip_wf (w_db w) → draws_differ (w_step w) → holds_kept (w_step w) (w_db w) pool address site →
  rtc (sparing_step pool address) w w' → holds (w_db w') pool address site.
Proof.
  intros Hwf Hd Hh Hs. induction Hs as [w|w w1 w' [op w0 Hsp] _ IH].
  - destruct Hh as (r & ? & ? & ? & ? & _). by exists r.
  - apply IH; [by apply keeps_run_ip| |by apply run_ip_holds].
    pose proof (forward_run_ip op w0) as Hf. unfold forward in Hf. intros j k Hj Hk. apply Hd; lia.
Qed.

(** Allocation.  For an administrator and a stored pool, when statements do not
    fail, [allocate] reserves for the site the first of the pool's 64 candidates that
    nobody holds, and answers [PoolExhausted] exactly when all are held. *)
Theorem allocate_exact `{Env} u pool p site w :
  (∀ k, sql_fault k = None) → ip_wf (w_db w) → require_admin u = Ok tt →
  List.find (pool_id_is p) (db_ip_pools (w_db w)) = Some (ip_pool_row pool) →
  match first_free (w_db w) pool p with
  | Some a => ∃ al w', allocate u p site w = (Ok al, w')
      ∧ ip_address al = a ∧ ip_status al = IpReserved ∧ holds (w_db w') p a site
  | None => ∃ w', allocate u p site w = (Err IpPoolExhausted, w') ∧ w_db w' = w_db w
  end.
Proof.
  intros Hnf Hwf Hadm Hf. unfold allocate, first_free. rewrite Hadm.
  erewrite bind_run by reflexivity.
  rewrite (bind_run _ _ _ _ _ (require_pool_no_fault Hnf p pool w Hf)).
  destruct (list_for_pool_no_fault Hnf p (tick w) Hwf) as (l & Hl & Hm).
  erewrite bind_run by (apply map_err_run, Hl).
  apply (allocate_loop_exact Hnf u pool p site l _ (tick (tick w))); [done | | done].
  apply List.find_some in Hf as [Hin Hid%N.eqb_eq]. rewrite <- Hid. by apply in_map.
Qed.

(** Allocations and the pool's network.  In a valid IPv4 pool whose first octet
    is neither 1 nor 10, every address [allocate] hands out fails the check by which
    [reserve] decides that an address lies in the pool. *)
Theorem allocated_outside_network `{Env} u pool p site w al w' :
  List.find (pool_id_is p) (db_ip_pools (w_db w)) = Some (ip_pool_row pool) →
  ip_pool_family pool = V4 → validate_cidr (ip_pool_cidr pool) V4 = Ok tt →
  (∀ addr prefix, split_once 47 (bytes (ip_pool_cidr pool)) = Some (addr, prefix) →
     first_piece 46 addr ≠ bytes "1" ∧ first_piece 46 addr ≠ bytes "10") →
  allocate u p site w = (Ok al, w') → address_in_cidr (ip_address al) (ip_pool_cidr pool) = false.
Proof.
  intros Hf Hv4 Hval Hoct Hrun. unfold allocate in Hrun. inv_bind Hrun.
  apply lift_ok in R as [_ ->]. inv_bind Hrun. inv_bind Hrun.
  apply allocate_loop_address in Hrun.
  assert (a0 = pool) as ->.
  { unfold require_pool in R. inv_bind R. apply map_err_ok in R1. apply ok_or_ok in R as [-> ->].
    unfold get_pool in R1. inv_bind R1. unfold select, statement in R. destruct (sql_fault _); [done|].
    injection R as <- <-. rewrite Hf in R1. apply lift_ok in R1 as [Ht _].
    unfold transpose in Ht. rewrite decode_pool_row in Ht. by injection Ht as <-. }
  unfold candidate_addresses in Hrun. rewrite Hv4 in Hrun.
  apply in_map_iff in Hrun as (i & <- & _).
  apply validate_v4_inv in Hval as (addr & prefix & n & Hs & Hp & _ & Hlen & Hall).
  destruct (Hoct _ _ Hs) as [H1 H2].
  apply (candidate_outside _ addr prefix); try done; [by eapply parse_u8_chars|].
  unfold first_piece. destruct (split 46 addr) as [|x xs]; [done|]. cbn.
  inversion Hall as [|? ? Hx _]; subst. by destruct x.
Qed.

(** Rebinding.  [rebind] of an administrator returns exactly the addresses the
    site holds, those with a colon as IPv6 and the others as IPv4, and changes no
    address table. *)
Theorem rebind_exact `{Env} u site w :
  (∀ k, sql_fault k = None) → ip_wf (w_db w) → require_admin u = Ok tt →
  ∃ sa w', rebind u site w = (Ok sa, w') ∧ ip_tables (w_db w') = ip_tables (w_db w)
    ∧ (∀ a, In a (sa_v4 sa) ↔ (∃ p, holds (w_db w) p a site) ∧ contains_char a 58 = false)
    ∧ (∀ a, In a (sa_v6 sa) ↔ (∃ p, holds (w_db w) p a site) ∧ contains_char a 58 = true).
Proof.
  intros Hnf Hwf Hadm. unfold rebind. rewrite Hadm. erewrite bind_run by reflexivity.
  destruct (collect_alloc_ok (alloc_site_is site) _ Hwf) as (l & Hc & Hm).
  erewrite bind_run; [|apply map_err_run; unfold list_allocations_for_site, bind;
    rewrite select_no_fault by done; unfold lift; by rewrite Hc].
  erewrite bind_run by reflexivity.
  edestruct (audit_ok (same ip_tables) (E:=IpError)) as (w' & Ha & Hs).
  rewrite (bind_run _ _ _ _ _ Ha). eexists _, w'. split; [reflexivity|]. split; [exact Hs|]. cbn.
  assert (∀ a, In a (map ip_address (List.filter held l)) ↔ ∃ p, holds (w_db w) p a site) as Hin.
  { intros a. rewrite in_map_iff. split.
    - intros (al & <- & [Hal Hh]%filter_In). exists (ip_alloc_pool_id al), (allocation_row al).
      assert (In (allocation_row al) (select_where (alloc_site_is site) (db_ip_allocations (w_db w))))
        as [Hin Hsite%N.eqb_eq]%filter_In by (rewrite <- Hm; by apply in_map).
      rewrite held_row. split_and!; try done. by apply alloc_at_key.
    - intros (p & r & Hr & Hat%alloc_at_key & Hsite & Hh).
      assert (In r (map allocation_row l)) as (al & <- & Hal)%in_map_iff.
      { rewrite Hm. apply filter_In. split; [done|]. by apply N.eqb_eq. }
      exists al. injection Hat as _ <-. rewrite held_row in Hh. by rewrite filter_In. }
  split; intros a; rewrite filter_In, Hin; [|done]. by rewrite negb_true_iff.
Qed.

(** CIDR validation.  A text is accepted as an IPv4 CIDR exactly when it is four
    dot-separated numbers up to 255, a slash and a prefix length up to 32. *)
Theorem validate_cidr_v4_spec (cidr : string) :
  validate_cidr cidr V4 = Ok tt ↔ ∃ addr prefix n,
    split_once 47 (bytes cidr) = Some (addr, prefix) ∧ parse_u8 prefix = Some n ∧ (n ≤ 32)%N
    ∧ length (split 46 addr) = 4%nat ∧ Forall (λ p, is_some (parse_u8 p) = true) (split 46 addr).
Proof. apply validate_v4_inv. Qed.
