(* ===== verification/Sites.v ===== *)
(** * Sites

    [crates/openpanel-domain/src/sites/] ([site.rs], [status.rs], [error.rs]),
    [crates/openpanel-app/src/sites/repo.rs] and [service.rs].  The nginx generator is
    the class [Nginx]: what its calls answered. *)
From S2P Require Import Prelude Text AuditActions AuditLog Accounts Paths CronJobs HostingTables Store Users.
Open Scope N_scope.

(** ** Domain *)

Inductive SiteError : Type :=
| InvalidDomain (reason : string)
| DuplicateDomain (domain : string)
| InvalidAlias (alias reason : string)
| InvalidDocumentRoot (reason : string)
| SiteNotFound (id : string)
| SiteForbidden
| NginxTest (reason : string)
| NginxReload (reason : string)
| NginxMissing
| SiteIo (reason : string)
| SitePersistence (reason : string).

Inductive SiteStatus : Type := SiteActive | SiteDisabled.

#[export] Instance SiteStatus_eq_dec : EqDecision SiteStatus.
Proof. solve_decision. Defined.

Definition site_status_str (s : SiteStatus) : string :=
  match s with SiteActive => "active" | SiteDisabled => "disabled" end.

Definition parse_site_status (s : string) : result SiteStatus string :=
  if String.eqb s "active" then Ok SiteActive
  else if String.eqb s "disabled" then Ok SiteDisabled
  else Err ("unknown status `" +:+ s +:+ "`").

(** The references to a PHP runtime, a template and an origin are not stored by the
    repository and are left out. *)
Record Site := mkSite {
  site_id : Uuid;
  site_owner_id : Uuid;
  site_primary_domain : string;
  site_aliases : list string;
  site_document_root : string;
  site_php_enabled : bool;
  site_php_version : option string;
  site_status : SiteStatus;
  site_created_at : DateTime;
  site_updated_at : DateTime;
  site_created_by : string;
  site_modified_by : string
}.

(** [s.to_lowercase()] as text. *)
Definition lowercase (s : string) : string :=
  of_bytes (flat_map encode_char (to_lowercase (chars s))).

(** 45 is [-], 46 is [.], 42 is an asterisk. *)
Definition label_end (c : N) : bool := is_lower c || is_digit c.
Definition label_char (c : N) : bool := label_end c || (c =? 45).

(** One label of [DOMAIN_RE]: up to 63 characters, a letter or digit at both ends. *)
Definition label_ok (l : list N) : bool :=
  match l, last l with
  | c :: _, Some e => label_end c && label_end e && forallb label_char l && (length l <=? 63)%nat
  | _, _ => false
  end.

(** [DOMAIN_RE] and [ALIAS_RE], the same pattern: two labels or more. *)
Definition hostname_ok (s : string) : bool :=
  let labels := split 46 (bytes s) in
  (2 <=? length labels)%nat && forallb label_ok labels.

Definition length_ok (s : string) : bool := (1 <=? str_len s) && (str_len s <=? 253).

Definition validate_domain (s : string) : result unit SiteError :=
  if negb (length_ok s) then Err (InvalidDomain "length out of range")
  else if negb (hostname_ok s)
  then Err (InvalidDomain ("`" +:+ s +:+ "` does not match domain pattern"))
  else Ok tt.

Definition validate_alias (s : string) : result unit SiteError :=
  if negb (length_ok s) then Err (InvalidAlias s "length out of range")
  else if starts_with s "." || contains_char s 42
  then Err (InvalidAlias s "wildcards not allowed")
  else if negb (hostname_ok s) then Err (InvalidAlias s "invalid hostname")
  else Ok tt.

Definition validate_document_root (p : string) : result unit SiteError :=
  if negb (starts_with p "/") then Err (InvalidDocumentRoot p)
  else if contains_str p ".." then Err (InvalidDocumentRoot (p +:+ " contains `..`"))
  else if contains_char p 0 then Err (InvalidDocumentRoot (p +:+ " contains NUL"))
  else Ok tt.

(** The loop over the aliases of [Site::new] and [change_aliases]. *)
Fixpoint validate_aliases (primary : string) (done aliases : list string)
    : result (list string) SiteError :=
  match aliases with
  | [] => Ok done
  | alias :: rest =>
      let a := lowercase alias in
      if String.eqb a primary then Err (InvalidAlias a "alias matches primary domain")
      else
        _ <-? validate_alias a ;;
        if existsb (String.eqb a) done then Err (InvalidAlias a "duplicate alias")
        else validate_aliases primary (done ++ [a])%list rest
  end.

Definition touch (t : DateTime) (by_ : string) (s : Site) : Site :=
  mkSite (site_id s) (site_owner_id s) (site_primary_domain s) (site_aliases s)
    (site_document_root s) (site_php_enabled s) (site_php_version s) (site_status s)
    (site_created_at s) t (site_created_by s)
    (if String.eqb by_ "" then site_modified_by s else by_).

Definition with_status (st : SiteStatus) (s : Site) : Site :=
  mkSite (site_id s) (site_owner_id s) (site_primary_domain s) (site_aliases s)
    (site_document_root s) (site_php_enabled s) (site_php_version s) st
    (site_created_at s) (site_updated_at s) (site_created_by s) (site_modified_by s).

Definition with_aliases (l : list string) (s : Site) : Site :=
  mkSite (site_id s) (site_owner_id s) (site_primary_domain s) l
    (site_document_root s) (site_php_enabled s) (site_php_version s) (site_status s)
    (site_created_at s) (site_updated_at s) (site_created_by s) (site_modified_by s).

Definition site_enable (t : DateTime) (by_ : string) (s : Site) : Site :=
  touch t by_ (with_status SiteActive s).
Definition site_disable (t : DateTime) (by_ : string) (s : Site) : Site :=
  touch t by_ (with_status SiteDisabled s).
Definition site_change_owner (owner : Uuid) (t : DateTime) (by_ : string) (s : Site) : Site :=
  touch t by_ (mkSite (site_id s) owner (site_primary_domain s) (site_aliases s)
    (site_document_root s) (site_php_enabled s) (site_php_version s) (site_status s)
    (site_created_at s) (site_updated_at s) (site_created_by s) (site_modified_by s)).

(** ** Rows and statements *)

Definition site_row (s : Site) : SiteRow :=
  {| si_id := site_id s; si_owner_id := site_owner_id s;
     si_primary_domain := site_primary_domain s; si_aliases := site_aliases s;
     si_document_root := site_document_root s; si_php_enabled := site_php_enabled s;
     si_php_version := site_php_version s; si_status := site_status_str (site_status s);
     si_created_at := site_created_at s; si_updated_at := site_updated_at s;
     si_created_by := site_created_by s; si_modified_by := site_modified_by s |}.

Definition into_site (r : SiteRow) : result Site RepoError :=
  status <-? result_map_err (λ e, "bad status: " +:+ e) (parse_site_status (si_status r)) ;;
  Ok {| site_id := si_id r; site_owner_id := si_owner_id r;
        site_primary_domain := si_primary_domain r; site_aliases := si_aliases r;
        site_document_root := si_document_root r; site_php_enabled := si_php_enabled r;
        site_php_version := si_php_version r; site_status := status;
        site_created_at := si_created_at r; site_updated_at := si_updated_at r;
        site_created_by := si_created_by r; site_modified_by := si_modified_by r |}.

Definition site_row_set (status : string) (owner : Uuid) (aliases : list string)
    (t : DateTime) (by_ : string) (r : SiteRow) : SiteRow :=
  mkSiteRow (si_id r) owner (si_primary_domain r) aliases (si_document_root r)
    (si_php_enabled r) (si_php_version r) status (si_created_at r) t (si_created_by r) by_.

Definition site_is (id : Uuid) (r : SiteRow) : bool := si_id r =? id.

Definition on_hosting (f : HostingTables → HostingTables) (d : Db) : Db :=
  set_hosting (f (db_hosting d)) d.

(** A statement that looks at the hosting tables only. *)
Definition hosting_statement {A} (f : HostingTables → result (A * HostingTables) string)
    (d : Db) : result (A * Db) string :=
  match f (db_hosting d) with
  | Ok (a, h) => Ok (a, set_hosting h d)
  | Err e => Err e
  end.

(** The constraints of an [INSERT INTO sites]. *)
Definition insert_site_row (r : SiteRow) (d : Db) : result (unit * Db) string :=
  let h := db_hosting d in
  if existsb (site_is (si_id r)) (ht_sites h) then Err "sites.id"
  else if existsb (λ x, String.eqb (si_primary_domain x) (si_primary_domain r)) (ht_sites h)
  then Err "sites.primary_domain"
  else if existsb (id_is (si_owner_id r)) (db_users d)
  then Ok (tt, on_hosting (set_sites (ht_sites h ++ [r])) d)
  else Err "FOREIGN KEY".

(** [UPDATE sites SET owner_id]: the new owner must exist when a row changes. *)
Definition update_site_owner (id owner : Uuid) (t : DateTime) (by_ : string) (d : Db)
    : result (unit * Db) string :=
  let h := db_hosting d in
  if existsb (site_is id) (ht_sites h) && negb (existsb (id_is owner) (db_users d))
  then Err "FOREIGN KEY"
  else Ok (tt, on_hosting (set_sites (update_where (site_is id)
                 (λ r, site_row_set (si_status r) owner (si_aliases r) t by_ r) (ht_sites h))) d).

(** [DELETE FROM sites], cascading to the staging tables. *)
Definition delete_site_rows (id : Uuid) (h : HostingTables) : HostingTables :=
  if existsb (site_is id) (ht_sites h) then
    set_locks (delete_where (λ r, lk_site_id r =? id) (ht_locks h))
    (set_promotions (delete_where (λ r, pm_site_id r =? id) (ht_promotions h))
    (set_snapshots (delete_where (λ r, sn_site_id r =? id) (ht_snapshots h))
    (set_slots (delete_where (λ r, sl_site_id r =? id) (ht_slots h))
    (set_sites (delete_where (site_is id) (ht_sites h)) h))))
  else h.

Definition by_primary_domain (r1 r2 : SiteRow) : Prop :=
  String.leb (si_primary_domain r1) (si_primary_domain r2) = true.
#[export] Instance by_primary_domain_dec : RelDecision by_primary_domain.
Proof. unfold by_primary_domain. intros r1 r2. apply _. Defined.

(** ** [SqliteSiteRepository] *)

Section site_repo.
Context `{Env}.
Abbreviation MR A := (M World RepoError A).

Definition sites_insert (s : Site) : MR unit := statement (insert_site_row (site_row s)).
Definition fetch_site (p : SiteRow → bool) : MR (option Site) :=
  row <- select (λ d, List.find p (ht_sites (db_hosting d))) ;; lift (transpose into_site row).
Definition sites_find_by_id (id : Uuid) : MR (option Site) := fetch_site (site_is id).
Definition sites_find_by_domain (domain : string) : MR (option Site) :=
  fetch_site (λ r, String.eqb (si_primary_domain r) (lowercase domain)).
Definition sites_list_all : MR (list Site) :=
  rows <- select (λ d, merge_sort by_primary_domain (ht_sites (db_hosting d))) ;;
  lift (collect into_site rows).
Definition sites_list_by_owner (owner : Uuid) : MR (list Site) :=
  rows <- select (λ d, merge_sort by_primary_domain
                         (select_where (λ r, si_owner_id r =? owner) (ht_sites (db_hosting d)))) ;;
  lift (collect into_site rows).
Definition sites_update_status (id : Uuid) (status : SiteStatus) (by_ : string) : MR unit :=
  t <- now ;;
  execute (on_hosting (λ h, set_sites (update_where (site_is id)
    (λ r, site_row_set (site_status_str status) (si_owner_id r) (si_aliases r) t by_ r)
    (ht_sites h)) h)).
Definition sites_update_owner (id owner : Uuid) (by_ : string) : MR unit :=
  t <- now ;; statement (update_site_owner id owner t by_).
Definition sites_update_aliases (id : Uuid) (aliases : list string) (by_ : string) : MR unit :=
  t <- now ;;
  execute (on_hosting (λ h, set_sites (update_where (site_is id)
    (λ r, site_row_set (si_status r) (si_owner_id r) aliases t by_ r) (ht_sites h)) h)).
Definition sites_delete (id : Uuid) : MR unit := execute (on_hosting (delete_site_rows id)).
Definition sites_count : MR Z :=
  select (λ d, Z.of_nat (length (ht_sites (db_hosting d)))).
End site_repo.

(** ** [SitesService] *)

(** The calls of [NginxConfigGenerator] and of [DocumentRootProvisioner] that the service makes:
    the error of the [k]-th one, if any. *)
Class Nginx := {
  provision : nat → Site → option SiteError;
  nginx_apply : nat → Site → option SiteError;
  nginx_disable : nat → Site → option SiteError;
  nginx_remove : nat → Site → option SiteError
}.

Section sites_service.
Context `{Env} `{Nginx}.
Abbreviation MS A := (M World SiteError A).

Definition nginx_call (f : nat → Site → option SiteError) (s : Site) : MS unit := λ w,
  match f (w_step w) s with
  | Some e => (Err e, tick w)
  | None => (Ok tt, tick w)
  end.

(** [Site::new]: the instant is read once the fields are valid. *)
Definition site_new (id owner : Uuid) (primary_domain : string) (aliases : list string)
    (document_root : string) (php_enabled : bool) (php_version : option string)
    (created_by : string) : MS Site :=
  let primary := lowercase primary_domain in
  lift (validate_domain primary) ;;;
  l <- lift (validate_aliases primary [] aliases) ;;
  lift (validate_document_root document_root) ;;;
  t <- now ;;
  ret (mkSite id owner primary l document_root php_enabled php_version SiteActive t t
         created_by "").

(** [Site::change_aliases]. *)
Definition site_change_aliases (by_ : string) (aliases : list string) (s : Site) : MS Site :=
  l <- lift (validate_aliases (site_primary_domain s) [] aliases) ;;
  t <- now ;;
  ret (touch t by_ (with_aliases l s)).

Definition create_site (caller : UserRec) (owner : Uuid) (primary_domain : string)
    (aliases : list string) (php_enabled : bool) (php_version document_root : option string)
    : MS Site :=
  if negb (can_manage_sites (u_role caller)) then throw SiteForbidden
  else
    existing <- map_err SitePersistence (sites_find_by_domain primary_domain) ;;
    match existing with
    | Some s => throw (DuplicateDomain (site_primary_domain s))
    | None =>
        let root := default ("/var/www/" +:+ primary_domain +:+ "/public_html") document_root in
        id <- fresh_uuid ;;
        site <- site_new id owner primary_domain aliases root php_enabled php_version
                  (u_username caller) ;;
        map_err SitePersistence (sites_insert site) ;;;
        attempt (nginx_call provision site) ;;;
        applied <- try_run (nginx_call nginx_apply site) ;;
        match applied with
        | Err e => attempt (sites_delete (site_id site)) ;;; throw e
        | Ok _ =>
            audit (u_username caller) SiteCreated Success
              (λ e, with_metadata (JObject [("domain", JString (site_primary_domain site))])
                      (with_target (uuid_text (site_id site)) e)) ;;;
            ret site
        end
    end.

Definition list_sites (caller : UserRec) : MS (list Site) :=
  map_err SitePersistence
    (match u_role caller with
     | Owner => sites_list_all
     | _ => sites_list_by_owner (u_id caller)
     end).

Definition get_site (id : Uuid) : MS Site :=
  o <- map_err SitePersistence (sites_find_by_id id) ;; ok_or o (SiteNotFound (uuid_text id)).

(** Both branches for an admin allow the call. *)
Definition assert_can_manage (caller : UserRec) (site : Site) : result unit SiteError :=
  match u_role caller with
  | Owner | Admin => Ok tt
  | User => if site_owner_id site =? u_id caller then Ok tt else Err SiteForbidden
  end.

Definition delete_site (caller : UserRec) (id : Uuid) : MS unit :=
  site <- get_site id ;;
  lift (assert_can_manage caller site) ;;;
  nginx_call nginx_remove site ;;;
  map_err SitePersistence (sites_delete id) ;;;
  audit (u_username caller) SiteDeleted Success
    (λ e, with_metadata (JObject [("domain", JString (site_primary_domain site))])
            (with_target (uuid_text id) e)).

Definition enable_site (caller : UserRec) (id : Uuid) : MS unit :=
  site <- get_site id ;;
  lift (assert_can_manage caller site) ;;;
  t <- now ;;
  nginx_call nginx_apply (site_enable t (u_username caller) site) ;;;
  map_err SitePersistence (sites_update_status id SiteActive (u_username caller)) ;;;
  audit (u_username caller) SiteEnabled Success (with_target (uuid_text id)).

Definition disable_site (caller : UserRec) (id : Uuid) : MS unit :=
  site <- get_site id ;;
  lift (assert_can_manage caller site) ;;;
  t <- now ;;
  nginx_call nginx_disable (site_disable t (u_username caller) site) ;;;
  map_err SitePersistence (sites_update_status id SiteDisabled (u_username caller)) ;;;
  audit (u_username caller) AuditActions.SiteDisabled Success (with_target (uuid_text id)).

Definition change_owner (caller : UserRec) (id owner : Uuid) : MS unit :=
  match u_role caller with
  | Owner =>
      get_site id ;;;
      now ;;;
      map_err SitePersistence (sites_update_owner id owner (u_username caller)) ;;;
      audit (u_username caller) SiteOwnerChanged Success
        (λ e, with_metadata (JObject [("new_owner", JString (uuid_text owner))])
                (with_target (uuid_text id) e))
  | _ => throw SiteForbidden
  end.

Definition change_aliases (caller : UserRec) (id : Uuid) (aliases : list string) : MS unit :=
  site <- get_site id ;;
  lift (assert_can_manage caller site) ;;;
  site <- site_change_aliases (u_username caller) aliases site ;;
  map_err SitePersistence
    (sites_update_aliases id (site_aliases site) (u_username caller)) ;;;
  nginx_call nginx_apply site.
End sites_service.

(** ** Sequences of operations *)

Inductive SiteOp : Type :=
| OpCreateSite (caller : UserRec) (owner : Uuid) (domain : string) (aliases : list string)
    (php : bool) (version root : option string)
| OpDeleteSite (caller : UserRec) (id : Uuid)
| OpEnableSite (caller : UserRec) (id : Uuid)
| OpDisableSite (caller : UserRec) (id : Uuid)
| OpChangeOwner (caller : UserRec) (id owner : Uuid)
| OpChangeAliases (caller : UserRec) (id : Uuid) (aliases : list string).

Definition run_site `{Env} `{Nginx} (op : SiteOp) (w : World) : World :=
  match op with
  | OpCreateSite c o d a p v r => (create_site c o d a p v r w).2
  | OpDeleteSite c i => (delete_site c i w).2
  | OpEnableSite c i => (enable_site c i w).2
  | OpDisableSite c i => (disable_site c i w).2
  | OpChangeOwner c i o => (change_owner c i o w).2
  | OpChangeAliases c i a => (change_aliases c i a w).2
  end.
