(* ===== verification/Collaborators.v ===== *)
(** * Collaborators

    [crates/openpanel-domain/src/collaborators/] and [crates/openpanel-app/src/collaborators/]:
    permission sets, collaborators and their grants on sites, the repositories, the grant
    resolver and the service. *)
From S2P Require Import Prelude Text AuditActions AuditLog Accounts Paths CronJobs HostingTables Store Users Sites.
Open Scope N_scope.

(** ** Permissions *)

Inductive Permission : Type := PermFile | PermDatabase | PermMail | PermCron.
#[export] Instance Permission_eq_dec : EqDecision Permission.
Proof. solve_decision. Defined.

Definition permission_str (p : Permission) : string :=
  match p with
  | PermFile => "file" | PermDatabase => "database" | PermMail => "mail" | PermCron => "cron"
  end.
Definition permission_parse (s : string) : option Permission :=
  if String.eqb s "file" then Some PermFile
  else if String.eqb s "database" then Some PermDatabase
  else if String.eqb s "mail" then Some PermMail
  else if String.eqb s "cron" then Some PermCron
  else None.

Definition permission_bit (p : Permission) : N :=
  match p with PermFile => 0 | PermDatabase => 1 | PermMail => 2 | PermCron => 3 end.
Definition permission_from_bit (bit : N) : Permission :=
  match bit with 0 => PermFile | 1 => PermDatabase | 2 => PermMail | 3 => PermCron | _ => PermFile end.

(** A [u8]. *)
Abbreviation PermissionSet := N.
Definition perm_empty : PermissionSet := 0.
Definition perm_single (p : Permission) : PermissionSet := N.shiftl 1 (permission_bit p).
Definition perm_insert (p : Permission) (s : PermissionSet) : PermissionSet :=
  N.lor s (N.shiftl 1 (permission_bit p)).
Definition perm_remove (p : Permission) (s : PermissionSet) : PermissionSet :=
  N.land s (N.lxor 255 (N.shiftl 1 (permission_bit p))).
Definition perm_contains (s : PermissionSet) (p : Permission) : bool :=
  negb (N.land s (N.shiftl 1 (permission_bit p)) =? 0).
Definition perm_is_empty (s : PermissionSet) : bool := s =? 0.

(** [count_ones] and [trailing_zeros] of a [u8] that is not zero. *)
Definition perm_len (s : PermissionSet) : nat :=
  length (List.filter (N.testbit s) [0; 1; 2; 3; 4; 5; 6; 7]).
Definition trailing_zeros (s : N) : N :=
  default 8 (List.find (N.testbit s) [0; 1; 2; 3; 4; 5; 6; 7]).

Definition perm_union (s t : PermissionSet) : PermissionSet := N.lor s t.
Definition perm_intersection (s t : PermissionSet) : PermissionSet := N.land s t.

(** Each turn of the iterator clears a bit, so eight turns are enough for a [u8]. *)
Fixpoint perm_iter_from (fuel : nat) (bits : N) : list Permission :=
  match fuel with
  | O => []
  | S fuel =>
      if bits =? 0 then []
      else permission_from_bit (trailing_zeros bits) :: perm_iter_from fuel (N.land bits (bits - 1))
  end.
Definition perm_iter (s : PermissionSet) : list Permission := perm_iter_from 8 s.
Definition perm_from_iter (l : list Permission) : PermissionSet :=
  fold_left (λ s p, perm_insert p s) l perm_empty.

(** ** Collaborators and grants *)

Inductive CollaboratorError : Type :=
| CollabNotFound (id : string)
| GrantMissing (id site : string)
| ScopeNotAllowed (scope : string)
| CollabPersistenceError (reason : string)
| CollabNotAuthorised (site : string).

Inductive CollabStatus : Type := CollabInvited | CollabActive | CollabRevoked.
Definition collab_status_str (s : CollabStatus) : string :=
  match s with CollabInvited => "invited" | CollabActive => "active" | CollabRevoked => "revoked" end.

Record Collaborator := mkCollaborator {
  co_id : Uuid;
  co_account_id : Uuid;
  co_email : string;
  co_status : CollabStatus;
  co_invited_at : DateTime;
  co_accepted_at : option DateTime;
  co_revoked_at : option DateTime
}.
Definition new_invited (id account : Uuid) (email : string) (t : DateTime) : Collaborator :=
  mkCollaborator id account email CollabInvited t None None.
Definition collab_accept (t : DateTime) (c : Collaborator) : Collaborator :=
  mkCollaborator (co_id c) (co_account_id c) (co_email c) CollabActive (co_invited_at c) (Some t)
    (co_revoked_at c).
Definition collab_revoke (t : DateTime) (c : Collaborator) : Collaborator :=
  mkCollaborator (co_id c) (co_account_id c) (co_email c) CollabRevoked (co_invited_at c)
    (co_accepted_at c) (Some t).
Definition collab_is_active (c : Collaborator) : bool :=
  match co_status c with CollabActive => true | _ => false end.

Record SiteGrant := mkGrant {
  sg_collaborator_id : Uuid;
  sg_site_id : Uuid;
  sg_permissions : PermissionSet;
  sg_granted_at : DateTime
}.
Definition grant_allows (g : SiteGrant) (p : Permission) : bool := perm_contains (sg_permissions g) p.

(** ** Rows and statements *)

Definition parse_collab_status (s : string) : result CollabStatus RepoError :=
  if String.eqb s "invited" then Ok CollabInvited
  else if String.eqb s "active" then Ok CollabActive
  else if String.eqb s "revoked" then Ok CollabRevoked
  else Err ("unknown collaborator status `" +:+ s +:+ "`").

Definition collaborator_row (c : Collaborator) : CollaboratorRow :=
  mkCollaboratorRow (co_id c) (co_account_id c) (co_email c) (collab_status_str (co_status c))
    (co_invited_at c) (co_accepted_at c) (co_revoked_at c).
Definition row_to_collaborator (r : CollaboratorRow) : result Collaborator RepoError :=
  email <-? result_map_err domain_error_text (email_new (cb_email r)) ;;
  status <-? parse_collab_status (cb_status r) ;;
  Ok (mkCollaborator (cb_id r) (cb_account_id r) email status (cb_invited_at r) (cb_accepted_at r)
        (cb_revoked_at r)).

Definition grant_row (g : SiteGrant) : SiteGrantRow :=
  mkSiteGrantRow (sg_collaborator_id g) (sg_site_id g) (Z.of_N (sg_permissions g)) (sg_granted_at g).

(** [(row.permissions as u8) & 0x0F]. *)
Definition row_to_grant (r : SiteGrantRow) : SiteGrant :=
  mkGrant (gr_collaborator_id r) (gr_site_id r)
    (N.land (Z.to_N (gr_permissions r mod 256)) 15) (gr_granted_at r).

Definition collaborator_is (id : Uuid) (r : CollaboratorRow) : bool := cb_id r =? id.
Definition grant_is (id site : Uuid) (r : SiteGrantRow) : bool :=
  (gr_collaborator_id r =? id) && (gr_site_id r =? site).

(** [INSERT OR REPLACE]: the row with the same key goes. *)
Definition replace_collaborator_row (r : CollaboratorRow) (a : AccessTables) : AccessTables :=
  set_collaborators (delete_where (collaborator_is (cb_id r)) (ac_collaborators a) ++ [r])%list a.

(** The [CHECK] on permissions. *)
Definition permissions_ok (p : Z) : bool := ((0 <=? p) && (p <=? 15))%Z.
Definition replace_grant_row (r : SiteGrantRow) (a : AccessTables) : result (unit * AccessTables) string :=
  if permissions_ok (gr_permissions r)
  then Ok (tt, set_grants (delete_where (grant_is (gr_collaborator_id r) (gr_site_id r)) (ac_grants a)
                             ++ [r])%list a)
  else Err "CHECK".

Definition grant_row_permissions (p : Z) (r : SiteGrantRow) : SiteGrantRow :=
  mkSiteGrantRow (gr_collaborator_id r) (gr_site_id r) p (gr_granted_at r).

(** The rows an update matched, checked before they are written. *)
Definition update_grant_row (id site : Uuid) (p : Z) (a : AccessTables)
    : result (nat * AccessTables) string :=
  let n := length (select_where (grant_is id site) (ac_grants a)) in
  if negb (n =? 0)%nat && negb (permissions_ok p) then Err "CHECK"
  else Ok (n, set_grants (update_where (grant_is id site) (grant_row_permissions p) (ac_grants a)) a).

Definition collaborator_row_status (c : Collaborator) (r : CollaboratorRow) : CollaboratorRow :=
  mkCollaboratorRow (cb_id r) (cb_account_id r) (cb_email r) (collab_status_str (co_status c))
    (cb_invited_at r) (co_accepted_at c) (co_revoked_at c).

Definition by_invited_at (r1 r2 : CollaboratorRow) : Prop := (cb_invited_at r1 ≤ cb_invited_at r2)%Z.
#[export] Instance by_invited_at_dec : RelDecision by_invited_at.
Proof. unfold by_invited_at. intros r1 r2. apply _. Defined.
Definition by_granted_at (r1 r2 : SiteGrantRow) : Prop := (gr_granted_at r1 ≤ gr_granted_at r2)%Z.
#[export] Instance by_granted_at_dec : RelDecision by_granted_at.
Proof. unfold by_granted_at. intros r1 r2. apply _. Defined.

(** Statements over the two tables. *)
Definition access_statement {A} (f : AccessTables → result (A * AccessTables) string)
    : Db → result (A * Db) string :=
  hosting_statement (λ h, match f (ht_access h) with
                          | Ok (x, a) => Ok (x, set_access a h)
                          | Err e => Err e
                          end).
Definition on_access (f : AccessTables → AccessTables) : Db → Db :=
  on_hosting (λ h, set_access (f (ht_access h)) h).

Section collaborator_repo.
Context `{Env}.
Abbreviation MR A := (M World RepoError A).
Abbreviation access d := (ht_access (db_hosting d)).

Definition collaborators_insert (c : Collaborator) : MR unit :=
  execute (on_access (replace_collaborator_row (collaborator_row c))).
Definition collaborators_find (id : Uuid) : MR (option Collaborator) :=
  row <- select (λ d, List.find (collaborator_is id) (ac_collaborators (access d))) ;;
  lift (transpose row_to_collaborator row).
Definition collaborators_update_status (id : Uuid) (c : Collaborator) : MR unit :=
  n <- statement (access_statement (λ a,
         Ok (length (select_where (collaborator_is id) (ac_collaborators a)),
             set_collaborators (update_where (collaborator_is id) (collaborator_row_status c)
                                  (ac_collaborators a)) a))) ;;
  if (n =? 0)%nat then throw ("collaborator " +:+ uuid_text id +:+ " not found") else ret tt.
Definition collaborators_list_for_account (account : Uuid) : MR (list Collaborator) :=
  rows <- select (λ d, merge_sort by_invited_at
            (select_where (λ r, cb_account_id r =? account) (ac_collaborators (access d)))) ;;
  lift (collect row_to_collaborator rows).

Definition grants_insert (g : SiteGrant) : MR unit :=
  statement (access_statement (replace_grant_row (grant_row g))).
Definition grants_delete (id site : Uuid) : MR unit :=
  execute (on_access (λ a, set_grants (delete_where (grant_is id site) (ac_grants a)) a)).
Definition grant_missing (id site : Uuid) : string :=
  "site grant missing for collaborator " +:+ uuid_text id +:+ " on site " +:+ uuid_text site.
Definition grants_update_permissions (id site : Uuid) (p : PermissionSet) : MR unit :=
  n <- statement (access_statement (update_grant_row id site (Z.of_N p))) ;;
  if (n =? 0)%nat then throw (grant_missing id site) else ret tt.
Definition grants_find (id site : Uuid) : MR (option SiteGrant) :=
  row <- select (λ d, List.find (grant_is id site) (ac_grants (access d))) ;;
  ret (row_to_grant <$> row).
Definition grants_list_for_collaborator (id : Uuid) : MR (list SiteGrant) :=
  rows <- select (λ d, merge_sort by_granted_at
            (select_where (λ r, gr_collaborator_id r =? id) (ac_grants (access d)))) ;;
  ret (map row_to_grant rows).
Definition grants_list_for_site (site : Uuid) : MR (list SiteGrant) :=
  rows <- select (λ d, merge_sort by_granted_at
            (select_where (λ r, gr_site_id r =? site) (ac_grants (access d)))) ;;
  ret (map row_to_grant rows).
End collaborator_repo.

(** ** [GrantResolver] and [CollaboratorService] *)

Inductive InviteCollaboratorError : Type :=
| CollabDomain (e : CollaboratorError)
| CollabPersistence (reason : string).

Record InviteRequest := mkInvite {
  in_email : string;
  in_site_id : Uuid;
  in_permissions : PermissionSet
}.

Section collaborator_service.
Context `{Env}.
Abbreviation MC A := (M World InviteCollaboratorError A).

Definition collab_db {A} (c : M World RepoError A) : MC A := map_err CollabPersistence c.

Definition require_grant (id site : Uuid) : MC SiteGrant :=
  o <- collab_db (grants_find id site) ;;
  ok_or o (CollabDomain (GrantMissing (uuid_text id) (uuid_text site))).

Definition grant_resolve (id site : Uuid) : MC PermissionSet :=
  g <- require_grant id site ;; ret (sg_permissions g).
Definition resolver_allows (id site : Uuid) (p : Permission) : MC bool :=
  s <- grant_resolve id site ;; ret (perm_contains s p).

Definition scopes_json (s : PermissionSet) : Json :=
  JArray (map (λ p, JString (permission_str p)) (perm_iter s)).

Definition invite (account : Uuid) (request : InviteRequest) (actor : string) : MC Collaborator :=
  email <- lift (result_map_err (λ _, CollabDomain (ScopeNotAllowed "invalid email"))
             (email_new (in_email request))) ;;
  if perm_is_empty (in_permissions request)
  then throw (CollabDomain (ScopeNotAllowed "empty permission set"))
  else
    t <- now ;;
    id <- fresh_uuid ;;
    let c := new_invited id account email t in
    collab_db (collaborators_insert c) ;;;
    collab_db (grants_insert (mkGrant id (in_site_id request) (in_permissions request) t)) ;;;
    audit actor CollaboratorInvited Success
      (with_metadata (JObject [("site", JString (uuid_text (in_site_id request)));
                               ("scopes", scopes_json (in_permissions request))])) ;;;
    ret c.

Definition update_permissions (id site : Uuid) (permissions : PermissionSet) (actor : string)
    : MC SiteGrant :=
  collab_db (grants_update_permissions id site permissions) ;;;
  g <- require_grant id site ;;
  audit actor CollaboratorUpdated Success
    (with_metadata (JObject [("site", JString (uuid_text site));
                             ("scopes", scopes_json (sg_permissions g))])) ;;;
  ret g.

(** [revoke] after the grant is gone: the collaborator is revoked when no grant is left. *)
Definition revoke_if_last (id : Uuid) : MC unit :=
  t <- now ;;
  o <- collab_db (collaborators_find id) ;;
  match o with
  | Some c =>
      remaining <- collab_db (grants_list_for_collaborator id) ;;
      if (length remaining =? 0)%nat
      then collab_db (collaborators_update_status id (collab_revoke t c))
      else ret tt
  | None => ret tt
  end.

Definition revoke_grant (id site : Uuid) (actor : string) : MC unit :=
  collab_db (grants_delete id site) ;;;
  revoke_if_last id ;;;
  audit actor CollaboratorRevoked Success
    (with_metadata (JObject [("site", JString (uuid_text site))])).

Definition find_collaborator (id : Uuid) : MC (option Collaborator) := collab_db (collaborators_find id).
Definition list_for_account (account : Uuid) : MC (list Collaborator) :=
  collab_db (collaborators_list_for_account account).
Definition grants_for_site (site : Uuid) : MC (list SiteGrant) := collab_db (grants_list_for_site site).
End collaborator_service.
