(* ===== verification/ApiTokens.v ===== *)
(** * API tokens

    [crates/openpanel-domain/src/api_tokens/mod.rs]: scopes, networks, credentials and the
    token entity.  SHA-256 and its HMAC are those of [CookieCrypto]. *)
From S2P Require Import Prelude Text AuditActions AuditLog Accounts Float64 HostingTables Store Users Identity Secrets Factors Net Remember.
Open Scope N_scope.

Definition PREFIX : string := "openpanel_pat_".
Definition BODY_BYTES : nat := 15.
Definition BODY_CHARS : nat := 24.
Definition CHECKSUM_CHARS : nat := 4.
Definition ALPHABET : list N := bytes "ABCDEFGHIJKLMNOPQRSTUVWXYZ234567".

Inductive ApiTokenError : Type :=
| InvalidCredential | InvalidScope | InvalidCidr | InvalidLabel | EmptyScopes
| InvalidExpiration | TokenAlreadyRevoked | TokenNotFound | TokenForbidden
| TokenPersistence (reason : string).

Definition token_error_text (e : ApiTokenError) : string :=
  match e with
  | InvalidCredential => "invalid API token"
  | InvalidScope => "invalid token scope"
  | InvalidCidr => "invalid CIDR"
  | InvalidLabel => "invalid token label"
  | EmptyScopes => "token requires at least one scope"
  | InvalidExpiration => "token expiration must be in the future"
  | TokenAlreadyRevoked => "token is already revoked"
  | TokenNotFound => "API token not found"
  | TokenForbidden => "API token operation forbidden"
  | TokenPersistence r => "API token persistence failed: " +:+ r
  end.

(** ** Scopes *)

(** 95 is [_], 45 is [-]. *)
Definition valid_scope_part (p : list N) : bool :=
  match p with
  | [] => false
  | b :: _ =>
      (length p <=? 32)%nat && is_lower b
      && forallb (λ c, is_lower c || is_digit c || (c =? 95) || (c =? 45)) p
  end.

(** A scope is its text; 58 is a colon. *)
Definition scope_parse (value : string) : result string ApiTokenError :=
  match split 58 (bytes value) with
  | [context; verb] =>
      if valid_scope_part context && valid_scope_part verb then Ok value else Err InvalidScope
  | _ => Err InvalidScope
  end.

Definition scope_context (scope : string) : list N :=
  match split_once 58 (bytes scope) with Some (c, _) => c | None => [] end.
Definition scope_verb (scope : string) : list N :=
  match split_once 58 (bytes scope) with Some (_, v) => v | None => [] end.

(** [BTreeSet<TokenScope>]: the texts in their order, each once. *)
Definition text_le (s t : string) : Prop := String.leb s t = true.
#[export] Instance text_le_dec : RelDecision text_le.
Proof. unfold text_le. intros s t. apply _. Defined.
Definition scope_set (l : list string) : list string := merge_sort text_le (remove_dups l).

(** ** Networks *)

(** The longest run of zero segments, the first of them: start and length.  [i] is the
    position of the next segment and [cur] the run that reaches it. *)
Fixpoint longest_zeros (i : nat) (cur best : nat * nat) (segments : list N) : nat * nat :=
  match segments with
  | [] => best
  | s :: rest =>
      if s =? 0 then
        let cur := ((if (cur.2 =? 0)%nat then i else cur.1), S cur.2) in
        longest_zeros (S i) cur (if (best.2 <? cur.2)%nat then cur else best) rest
      else longest_zeros (S i) (0, 0)%nat best rest
  end.

(** [IpAddr]'s [Display]: a mapped IPv4 address in dotted form, a run of two or more zero
    segments shortened. *)
Definition show_ip (ip : IpAddr) : list N :=
  match ip with
  | IpV4 octets => joined 46 (map show_N octets)
  | IpV6 segments =>
      match segments with
      | [0; 0; 0; 0; 0; 65535; a; b] =>
          (bytes "::ffff:" ++ joined 46 (map show_N [a / 256; a mod 256; b / 256; b mod 256]))%list
      | _ =>
          let '(start, len) := longest_zeros 0 (0, 0)%nat (0, 0)%nat segments in
          if (1 <? len)%nat then
            (joined 58 (map show_hex16 (take start segments)) ++ bytes "::"
             ++ joined 58 (map show_hex16 (drop (start + len) segments)))%list
          else joined 58 (map show_hex16 segments)
      end
  end.

(** A network is its normalized text; 47 is a slash. *)
Definition cidr_parse (value : string) : result string ApiTokenError :=
  match split_once 47 (bytes value) with
  | None => Err InvalidCidr
  | Some (address, prefix) =>
      match parse_ip (of_bytes address), parse_u8 prefix with
      | Some ip, Some p =>
          if (match ip with IpV4 _ => 32 | IpV6 _ => 128 end) <? p then Err InvalidCidr
          else Ok (of_bytes (show_ip ip ++ 47 :: show_N p))
      | _, _ => Err InvalidCidr
      end
  end.

(** [u32::from] and [u128::from]. *)
Definition number_of (width : N) (parts : list N) : N :=
  fold_left (λ n p, n * 2 ^ width + p) parts 0.

(** [MAX << (width - prefix)], bits past the width lost. *)
Definition prefix_match (width : N) (network candidate : N) (prefix : N) : bool :=
  let mask := if prefix =? 0 then 0 else N.shiftl (2 ^ width - 1) (width - prefix) mod 2 ^ width in
  N.land network mask =? N.land candidate mask.

Definition cidr_contains (cidr : string) (candidate : IpAddr) : bool :=
  match split_once 47 (bytes cidr) with
  | None => false
  | Some (address, prefix) =>
      match parse_ip (of_bytes address), parse_u8 prefix with
      | Some network, Some p =>
          match network, candidate with
          | IpV4 n, IpV4 c => prefix_match 32 (number_of 8 n) (number_of 8 c) p
          | IpV6 n, IpV6 c => prefix_match 128 (number_of 16 n) (number_of 16 c) p
          | _, _ => false
          end
      | _, _ => false
      end
  end.

(** ** Credentials *)

(** The encoder's [while] loop has at most two turns per byte. *)
Definition encode_turn (s : N * N * list N) : N * N * list N :=
  let '(buffer, bits, out) := s in
  if bits <? 5 then s
  else (buffer, bits - 5,
        (out ++ [nth (N.to_nat (N.land (N.shiftr buffer (bits - 5)) 31)) ALPHABET 0])%list).
Definition encode_byte (s : N * N * list N) (byte : N) : N * N * list N :=
  let '(buffer, bits, out) := s in
  encode_turn (encode_turn (N.lor (N.shiftl buffer 8 mod 2 ^ 32) byte, bits + 8, out)).
Definition base32_encode (l : list N) : list N :=
  let '(buffer, bits, out) := fold_left encode_byte l (0, 0, []) in
  if 0 <? bits
  then (out ++ [nth (N.to_nat (N.land (N.shiftl buffer (5 - bits) mod 2 ^ 32) 31)) ALPHABET 0])%list
  else out.

Definition alphabet_index (byte : N) : option N :=
  N.of_nat <$> list_find (λ c, c = byte) ALPHABET ≫= λ p, Some p.1.

(** The loop of the decoder. *)
Fixpoint base32_loop (buffer bits : N) (out l : list N) : option (list N) :=
  match l with
  | [] => Some out
  | byte :: rest =>
      match alphabet_index byte with
      | None => None
      | Some index =>
          let buffer := N.lor (N.shiftl buffer 5 mod 2 ^ 32) index in
          let bits := bits + 5 in
          if 8 <=? bits
          then base32_loop buffer (bits - 8)
                 (out ++ [N.land (N.shiftr buffer (bits - 8)) 255])%list rest
          else base32_loop buffer bits out rest
      end
  end.
Definition base32_decode (l : list N) : option (list N) := base32_loop 0 0 [] l.

Record TokenCredential := mkCredential {
  cred_rendered : string;
  cred_body : list N
}.

Section credential.
Context `{CookieCrypto}.

Definition checksum (body : list N) : list N :=
  take CHECKSUM_CHARS (base32_encode (take 3 (sha256 body))).

(** [TokenCredential::generate] on the random bytes; 46 is a dot. *)
Definition credential_of (random : list N) : TokenCredential :=
  let body := base32_encode random in
  mkCredential (of_bytes (bytes PREFIX ++ body ++ 46 :: checksum body)) body.

Definition credential_parse (value : string) : result TokenCredential ApiTokenError :=
  if negb (starts_with value PREFIX) then Err InvalidCredential
  else
    match split_once 46 (drop (length (bytes PREFIX)) (bytes value)) with
    | None => Err InvalidCredential
    | Some (body, supplied) =>
        if negb (length body =? BODY_CHARS)%nat || negb (length supplied =? CHECKSUM_CHARS)%nat
           || bool_decide (base32_decode body = None)
           || negb (constant_time_eq supplied (checksum body))
        then Err InvalidCredential
        else Ok (mkCredential value body)
    end.

Definition credential_hash (pepper : list N) (c : TokenCredential) : list N :=
  hmac_sha256 pepper (cred_body c).
End credential.

(** [TokenHash::constant_time_eq]: both have 32 bytes. *)
Definition hash_eq (a b : list N) : bool := diff_bits a b =? 0.

(** ** Tokens *)

Record ApiToken := mkToken {
  tok_id : Uuid;
  tok_user_id : Uuid;
  tok_label : string;
  tok_hash : list N;
  tok_scopes : list string;
  tok_cidr_allowlist : list string;
  tok_created_at : DateTime;
  tok_expires_at : DateTime;
  tok_last_used_at : option DateTime;
  tok_revoked_at : option DateTime
}.

Definition token_restore (id user : Uuid) (label : string) (hash : list N)
    (scopes cidrs : list string) (created_at expires_at : DateTime)
    (last_used_at revoked_at : option DateTime) : result ApiToken ApiTokenError :=
  if bool_decide (trim (chars label) = []) || (120 <? str_len label) then Err InvalidLabel
  else if bool_decide (scopes = []) then Err EmptyScopes
  else if (expires_at <=? created_at)%Z then Err InvalidExpiration
  else Ok (mkToken id user (of_bytes (flat_map encode_char (trim (chars label)))) hash scopes cidrs
             created_at expires_at last_used_at revoked_at).

Definition token_new (id user : Uuid) (label : string) (hash : list N)
    (scopes cidrs : list string) (expires_at t : DateTime) : result ApiToken ApiTokenError :=
  token_restore id user label hash scopes cidrs t expires_at None None.

Definition token_revoke (t : DateTime) (k : ApiToken) : result ApiToken ApiTokenError :=
  match tok_revoked_at k with
  | Some _ => Err TokenAlreadyRevoked
  | None => Ok (mkToken (tok_id k) (tok_user_id k) (tok_label k) (tok_hash k) (tok_scopes k)
                  (tok_cidr_allowlist k) (tok_created_at k) (tok_expires_at k)
                  (tok_last_used_at k) (Some t))
  end.

Definition mark_used (t : DateTime) (k : ApiToken) : ApiToken :=
  mkToken (tok_id k) (tok_user_id k) (tok_label k) (tok_hash k) (tok_scopes k)
    (tok_cidr_allowlist k) (tok_created_at k) (tok_expires_at k) (Some t) (tok_revoked_at k).

Definition is_active (t : DateTime) (k : ApiToken) : bool :=
  bool_decide (tok_revoked_at k = None) && (t <? tok_expires_at k)%Z.

Definition allows_ip (ip : IpAddr) (k : ApiToken) : bool :=
  bool_decide (tok_cidr_allowlist k = [])
  || existsb (λ cidr, cidr_contains cidr ip) (tok_cidr_allowlist k).

Definition allows_scope (scope : string) (k : ApiToken) : bool :=
  existsb (String.eqb scope) (tok_scopes k).

(** [ApiTokenMetadata]: every field but the hash. *)
Record ApiTokenMetadata := mkMetadata {
  md_id : Uuid;
  md_user_id : Uuid;
  md_label : string;
  md_scopes : list string;
  md_cidr_allowlist : list string;
  md_created_at : DateTime;
  md_expires_at : DateTime;
  md_last_used_at : option DateTime;
  md_revoked_at : option DateTime
}.
Definition metadata (k : ApiToken) : ApiTokenMetadata :=
  mkMetadata (tok_id k) (tok_user_id k) (tok_label k) (tok_scopes k) (tok_cidr_allowlist k)
    (tok_created_at k) (tok_expires_at k) (tok_last_used_at k) (tok_revoked_at k).
