(* ===== verification/TokenService.v ===== *)
(** * The token service

    [crates/openpanel-app/src/api_tokens/] [repo.rs] and [service.rs].  [authenticate] is
    written as the part that reads and the part that stores the use, since another request
    may run between them. *)
From S2P Require Import Prelude Text AuditActions AuditLog Accounts Float64 Paths CronJobs HostingTables Store Users Identity Secrets Factors Net Remember Sites ApiTokens.
Open Scope N_scope.

(** ** Rows and statements *)

Definition token_row (k : ApiToken) : TokenRow :=
  {| tk_id := tok_id k; tk_user_id := tok_user_id k; tk_label := tok_label k;
     tk_hash := tok_hash k; tk_scopes := tok_scopes k;
     tk_cidr_allowlist := match tok_cidr_allowlist k with [] => None | l => Some l end;
     tk_created_at := tok_created_at k; tk_expires_at := tok_expires_at k;
     tk_last_used_at := tok_last_used_at k; tk_revoked_at := tok_revoked_at k |}.

Definition token_of_row (r : TokenRow) : result ApiToken RepoError :=
  hash <-? (if (length (tk_hash r) =? 32)%nat then Ok (tk_hash r) else Err "invalid token hash") ;;
  scopes <-? collect (λ s, result_map_err token_error_text (scope_parse s)) (tk_scopes r) ;;
  cidrs <-? collect (λ c, result_map_err token_error_text (cidr_parse c))
              (default [] (tk_cidr_allowlist r)) ;;
  result_map_err token_error_text
    (token_restore (tk_id r) (tk_user_id r) (tk_label r) hash (scope_set scopes) cidrs
       (tk_created_at r) (tk_expires_at r) (tk_last_used_at r) (tk_revoked_at r)).

Definition token_is (user id : Uuid) (r : TokenRow) : bool :=
  (tk_user_id r =? user) && (tk_id r =? id).
Definition hash_is (hash : list N) (r : TokenRow) : bool := bool_decide (tk_hash r = hash).

(** The primary key, the unique hash and the foreign key. *)
Definition insert_token_row (r : TokenRow) (d : Db) : result (unit * Db) string :=
  let h := db_hosting d in
  if existsb (λ x, tk_id x =? tk_id r) (ht_tokens h) then Err "api_tokens.id"
  else if existsb (hash_is (tk_hash r)) (ht_tokens h) then Err "api_tokens.hash"
  else if existsb (id_is (tk_user_id r)) (db_users d)
  then Ok (tt, on_hosting (set_tokens (ht_tokens h ++ [r])) d)
  else Err "FOREIGN KEY".

(** [UPDATE api_tokens SET ..]: every column but the keys and [created_at]. *)
Definition token_row_set (k : ApiToken) (r : TokenRow) : TokenRow :=
  {| tk_id := tk_id r; tk_user_id := tk_user_id r; tk_label := tok_label k;
     tk_hash := tok_hash k; tk_scopes := tok_scopes k;
     tk_cidr_allowlist := match tok_cidr_allowlist k with [] => None | l => Some l end;
     tk_created_at := tk_created_at r; tk_expires_at := tok_expires_at k;
     tk_last_used_at := tok_last_used_at k; tk_revoked_at := tok_revoked_at k |}.

(** The update keeps hashes unique unless it writes the hash of another row. *)
Definition update_token_row (k : ApiToken) (h : HostingTables)
    : result (unit * HostingTables) string :=
  if existsb (token_is (tok_user_id k) (tok_id k)) (ht_tokens h)
     && existsb (λ x, hash_is (tok_hash k) x && negb (token_is (tok_user_id k) (tok_id k) x))
          (ht_tokens h)
  then Err "api_tokens.hash"
  else Ok (tt, set_tokens (update_where (token_is (tok_user_id k) (tok_id k)) (token_row_set k)
                             (ht_tokens h)) h).

Definition revoke_token_row (k : ApiToken) (r : TokenRow) : TokenRow :=
  mkTokenRow (tk_id r) (tk_user_id r) (tk_label r) (tk_hash r) (tk_scopes r)
    (tk_cidr_allowlist r) (tk_created_at r) (tk_expires_at r) (tk_last_used_at r)
    (tok_revoked_at k).

Definition token_created_desc (r1 r2 : TokenRow) : Prop := (tk_created_at r2 ≤ tk_created_at r1)%Z.
#[export] Instance token_created_desc_dec : RelDecision token_created_desc.
Proof. unfold token_created_desc. intros r1 r2. apply _. Defined.

Section token_repo.
Context `{Env}.
Abbreviation MR A := (M World RepoError A).

Definition tokens_create (k : ApiToken) : MR unit := statement (insert_token_row (token_row k)).
Definition tokens_update (k : ApiToken) : MR unit :=
  statement (hosting_statement (update_token_row k)).
Definition tokens_rotate (old new : ApiToken) : MR unit :=
  in_transaction id id (
    execute (on_hosting (λ h, set_tokens (update_where (token_is (tok_user_id old) (tok_id old))
      (revoke_token_row old) (ht_tokens h)) h)) ;;;
    statement (insert_token_row (token_row new))).
Definition tokens_find (user token : Uuid) : MR (option ApiToken) :=
  row <- select (λ d, List.find (token_is user token) (ht_tokens (db_hosting d))) ;;
  lift (transpose token_of_row row).
Definition tokens_find_by_hash (hash : list N) : MR (option ApiToken) :=
  row <- select (λ d, List.find (hash_is hash) (ht_tokens (db_hosting d))) ;;
  lift (transpose token_of_row row).
Definition tokens_list (user : Uuid) : MR (list ApiToken) :=
  rows <- select (λ d, merge_sort token_created_desc
                   (select_where (λ r, tk_user_id r =? user) (ht_tokens (db_hosting d)))) ;;
  lift (collect token_of_row rows).
End token_repo.

(** ** [ApiTokenService] *)

Record RateLimitConfig := mkRate {
  rate_burst : Z;
  rate_per_minute : Z
}.
Definition rate_default : RateLimitConfig := mkRate 60 60.

Record CreateApiToken := mkCreateToken {
  ct_user_id : Uuid;
  ct_label : string;
  ct_scopes : list string;
  ct_expires_at : DateTime;
  ct_cidr_allowlist : list string
}.

(** [CreatedApiToken]; [shown_once] is always true. *)
Record CreatedApiToken := mkCreated {
  cr_metadata : ApiTokenMetadata;
  cr_plaintext : string
}.

Inductive TokenAuthError : Type :=
| TokenUnauthorized
| TokenExpiredError
| ScopeRejected
| CidrRejected
| TokenActorForbidden
| RateLimited (retry_after_seconds : Z)
| TokenInvalid (e : ApiTokenError)
| TokenInternal (reason : string).

(** [OsRng] for the body of a credential and [Instant::now()]. *)
Class TokenEnv := {
  token_bytes : nat → list N;
  instant_now : nat → Z
}.

(** What they promise: 15 bytes; SHA-256 has 32 bytes. *)
Class TokenLaws `{TokenEnv} `{CookieCrypto} : Prop := {
  token_bytes_len : ∀ k, length (token_bytes k) = BODY_BYTES;
  token_bytes_ok : ∀ k, Forall is_byte (token_bytes k);
  sha256_len : ∀ l, length (sha256 l) = 32%nat
}.

(** [consume] on the buckets at an instant. *)
Definition bucket_consume (rate : RateLimitConfig) (now : Z) (token : Uuid)
    (buckets : gmap Uuid Bucket) : result unit TokenAuthError * gmap Uuid Bucket :=
  let burst := f64_of_Z (rate_burst rate) in
  let bucket := default (mkBucket burst now) (buckets !! token) in
  let elapsed := as_secs_f64 (Z.max 0 (now - bk_last_refill bucket)) in
  let refill := f64_div (f64_of_Z (rate_per_minute rate)) (f64_of_Z 60) in
  let tokens := f64_min (f64_add (bk_tokens bucket) (f64_mul elapsed refill)) burst in
  if f64_ltb tokens (f64_of_Z 1) then
    (Err (RateLimited (ceil_max_1 (f64_div (f64_sub (f64_of_Z 1) tokens) refill))),
     <[token := mkBucket tokens now]> buckets)
  else (Ok tt, <[token := mkBucket (f64_sub tokens (f64_of_Z 1)) now]> buckets).

Section token_service.
Context `{Env} `{CookieCrypto} `{TokenEnv} (pepper : list N) (rate : RateLimitConfig).
Abbreviation MT A := (M World TokenAuthError A).

Definition internal {A} (c : M World RepoError A) : MT A := map_err TokenInternal c.
Definition token_check {A} (r : result A ApiTokenError) : MT A :=
  lift (result_map_err TokenInvalid r).

Definition fresh_credential : MT TokenCredential := λ w,
  (Ok (credential_of (token_bytes (w_step w))), tick w).

Definition consume (token : Uuid) : MT unit := λ w,
  let '(r, b) := bucket_consume rate (instant_now (w_step w)) token (ht_buckets (db_hosting (w_db w))) in
  (r, tick (with_db (on_hosting (set_buckets b)) w)).

Definition token_record (actor : UserRec) (action : AuditAction) (target : Uuid)
    (meta : list (string * Json)) : MT unit :=
  audit (u_username actor) action Success
    (λ e, with_metadata (JObject meta) (with_target (uuid_text target) e)).
Definition record_token (action : AuditAction) (outcome : AuditOutcome) (token : Uuid) : MT unit :=
  audit "api-token" action outcome
    (λ e, with_metadata (JObject [("token_id", JString (uuid_text token))])
            (with_target (uuid_text token) e)).

Definition created_token (k : ApiToken) (c : TokenCredential) : CreatedApiToken :=
  mkCreated (metadata k) (cred_rendered c).

Definition authorize_target (actor : UserRec) (user : Uuid) : MT UserRec :=
  o <- internal (users_find_by_id user) ;;
  target <- ok_or o TokenActorForbidden ;;
  if (u_id actor =? user) || bool_decide (u_role actor = Owner)
     || (bool_decide (u_role actor = Admin) && negb (bool_decide (u_role target = Owner)))
  then ret target
  else throw TokenActorForbidden.

Definition authorize_scopes (role : Role) (scopes : list string) : result unit TokenAuthError :=
  if bool_decide (role = User)
     && existsb (λ s, negb (bool_decide (scope_verb s = bytes "read"))) scopes
  then Err TokenActorForbidden
  else Ok tt.

Definition token_create (actor : UserRec) (input : CreateApiToken) : MT CreatedApiToken :=
  target <- authorize_target actor (ct_user_id input) ;;
  scopes <- token_check (collect scope_parse (ct_scopes input)) ;;
  let scopes := scope_set scopes in
  lift (authorize_scopes (u_role actor) scopes) ;;;
  t <- now ;;
  if (t + days 365 <? ct_expires_at input)%Z then throw (TokenInvalid InvalidExpiration)
  else
    cidrs <- token_check (collect cidr_parse (ct_cidr_allowlist input)) ;;
    credential <- fresh_credential ;;
    id <- fresh_uuid ;;
    token <- token_check (token_new id (u_id target) (ct_label input)
               (credential_hash pepper credential) scopes cidrs (ct_expires_at input) t) ;;
    internal (tokens_create token) ;;;
    token_record actor TokenCreated (tok_id token)
      [("token_id", JString (uuid_text (tok_id token)));
       ("user_id", JString (uuid_text (u_id target)))] ;;;
    ret (created_token token credential).

Definition token_list (actor : UserRec) (user : Uuid) : MT (list ApiTokenMetadata) :=
  authorize_target actor user ;;;
  l <- internal (tokens_list user) ;;
  ret (map metadata l).

Definition require_token (user id : Uuid) : MT ApiToken :=
  o <- internal (tokens_find user id) ;; ok_or o (TokenInvalid TokenNotFound).

Definition revoke (actor : UserRec) (user id : Uuid) : MT unit :=
  authorize_target actor user ;;;
  token <- require_token user id ;;
  t <- now ;;
  token <- token_check (token_revoke t token) ;;
  internal (tokens_update token) ;;;
  token_record actor TokenRevoked id [("token_id", JString (uuid_text id))].

Definition rotate (actor : UserRec) (user id : Uuid) : MT CreatedApiToken :=
  authorize_target actor user ;;;
  old <- require_token user id ;;
  t <- now ;;
  if negb (is_active t old) then throw TokenUnauthorized
  else
    t <- now ;;
    old <- token_check (token_revoke t old) ;;
    credential <- fresh_credential ;;
    new_id <- fresh_uuid ;;
    new <- token_check (token_new new_id (tok_user_id old) (tok_label old)
             (credential_hash pepper credential) (tok_scopes old) (tok_cidr_allowlist old)
             (tok_expires_at old) t) ;;
    internal (tokens_rotate old new) ;;;
    token_record actor TokenRotated (tok_id new)
      [("token_id", JString (uuid_text (tok_id new)));
       ("rotated_from", JString (uuid_text (tok_id old)))] ;;;
    ret (created_token new credential).

(** [authenticate] up to the user. *)
Definition auth_check (plaintext : string) (peer : IpAddr) (scope : string)
    : MT (UserRec * ApiToken * DateTime) :=
  match credential_parse plaintext with
  | Err _ => throw TokenUnauthorized
  | Ok credential =>
      let hash := credential_hash pepper credential in
      o <- internal (tokens_find_by_hash hash) ;;
      token <- ok_or (match o with
                      | Some k => if hash_eq (tok_hash k) hash then Some k else None
                      | None => None
                      end) TokenUnauthorized ;;
      t <- now ;;
      if negb (bool_decide (tok_revoked_at token = None)) then throw TokenUnauthorized
      else if (tok_expires_at token <=? t)%Z then
        record_token TokenExpired Denied (tok_id token) ;;; throw TokenExpiredError
      else if negb (allows_ip peer token) then
        record_token TokenCidrRejected Denied (tok_id token) ;;; throw CidrRejected
      else if negb (allows_scope scope token) then
        record_token TokenScopeRejected Denied (tok_id token) ;;; throw ScopeRejected
      else
        limited <- try_run (consume (tok_id token)) ;;
        match limited with
        | Err e => record_token TokenRateLimited Denied (tok_id token) ;;; throw e
        | Ok _ =>
            u <- internal (users_find_by_id (tok_user_id token)) ;;
            user <- ok_or (match u with
                           | Some u => if is_disabled u then None else Some u
                           | None => None
                           end) TokenUnauthorized ;;
            ret (user, token, t)
        end
  end.

(** The use is stored with every column of the token as it was read. *)
Definition auth_store (token : ApiToken) (t : DateTime) : MT unit :=
  internal (tokens_update (mark_used t token)) ;;;
  record_token TokenRequest Success (tok_id token).

Definition authenticate (plaintext : string) (peer : IpAddr) (scope : string)
    : MT (UserRec * Uuid) :=
  x <- auth_check plaintext peer scope ;;
  let '(user, token, t) := x in
  auth_store token t ;;;
  ret (user, tok_id token).
End token_service.
