(* ===== verification/Staging.v ===== *)
(** * Staging slots and promotions

    [crates/openpanel-domain/src/site_staging/] ([slot.rs], [promotion.rs], [error.rs]) and
    [crates/openpanel-app/src/site_staging/] ([repo.rs], [service.rs], the trait of
    [files.rs]).  The file-system layer, which shells out to [rsync] and [nginx], is the
    class [StagingFs]: what its calls answered. *)
From S2P Require Import Prelude Text AuditActions AuditLog Accounts Paths CronJobs HostingTables Store Users Sites.
Open Scope N_scope.

(** ** Domain *)

Inductive SiteStagingError : Type :=
| StagingInvalid (reason : string)
| InvalidTransition
| OutsideChroot (root : string)
| StagingAlreadyExists (site : string)
| StagingNotFound (site : string)
| InFlight
| ConfirmationExpired (reason : string)
| Filesystem (reason : string)
| Database (reason : string)
| SnapshotMismatch (expected got : string).

(** [SnapshotId::new] on an [i64]. *)
Definition snapshot_new (value : Z) : result Z SiteStagingError :=
  if (value <? 1)%Z
  then Err (StagingInvalid ("snapshot id " +:+ of_bytes (show_Z value) +:+ " must be >= 1"))
  else Ok value.
Definition snapshot_first : Z := 1.
(** [SnapshotId::next], an [i64] addition: numbers start at 1 and each stored snapshot takes the
    one after the last, so the bound of the type is [2^63 - 2] snapshots away. *)
Definition snapshot_next (s : Z) : Z := (s + 1)%Z.

Inductive SyncPolicy : Type := OnDemand | OnPromote | Scheduled.

#[export] Instance SyncPolicy_eq_dec : EqDecision SyncPolicy.
Proof. solve_decision. Defined.

Definition policy_str (p : SyncPolicy) : string :=
  match p with
  | OnDemand => "on_demand" | OnPromote => "on_promote" | Scheduled => "scheduled"
  end.

Record StagingSlot := mkSlot {
  slot_id : Uuid;
  slot_site_id : Uuid;
  slot_subdomain : string;
  slot_document_root : string;
  slot_db_name : string;
  slot_php_version : option string;
  slot_sync_policy : SyncPolicy;
  slot_schedule : option string;
  slot_current_snapshot : option Z;
  slot_last_promoted_snapshot : option Z;
  slot_mail_capture : bool;
  slot_created_at : DateTime;
  slot_updated_at : DateTime
}.

Definition slot_new (id site : Uuid) (subdomain root db_name : string)
    (php_version : option string) (policy : SyncPolicy) (t : DateTime)
    : result StagingSlot SiteStagingError :=
  if bool_decide (subdomain = "") then Err (StagingInvalid "subdomain is empty")
  else if negb (starts_with root "/")
  then Err (StagingInvalid ("document root `" +:+ root +:+ "` must be absolute"))
  else if contains_str root ".."
  then Err (StagingInvalid ("document root `" +:+ root +:+ "` contains `..`"))
  else if negb (contains_str root "staging")
  then Err (StagingInvalid ("document root `" +:+ root
                            +:+ "` must live under a `staging/` directory"))
  else if bool_decide (db_name = "") then Err (StagingInvalid "db_name is empty")
  else if negb (ends_with db_name "_staging")
  then Err (StagingInvalid ("db_name `" +:+ db_name +:+ "` must end with `_staging`"))
  else Ok (mkSlot id site subdomain root db_name php_version policy None None None false t t).

(** The slot with the fields the methods below change. *)
Definition slot_with (schedule : option string) (current promoted : option Z) (capture : bool)
    (t : DateTime) (s : StagingSlot) : StagingSlot :=
  mkSlot (slot_id s) (slot_site_id s) (slot_subdomain s) (slot_document_root s)
    (slot_db_name s) (slot_php_version s) (slot_sync_policy s) schedule current promoted
    capture (slot_created_at s) t.

Definition set_schedule (schedule : option string) (t : DateTime) (s : StagingSlot)
    : result StagingSlot SiteStagingError :=
  let blank := match schedule with
               | Some x => bool_decide (trim (chars x) = [])
               | None => false
               end in
  if blank then Err (StagingInvalid "schedule is empty")
  else if bool_decide (schedule ≠ None) && negb (bool_decide (slot_sync_policy s = Scheduled))
  then Err (StagingInvalid "schedule is only valid for SyncPolicy::Scheduled")
  else Ok (slot_with schedule (slot_current_snapshot s) (slot_last_promoted_snapshot s)
             (slot_mail_capture s) t s).

Definition slot_set_mail_capture (enabled : bool) (t : DateTime) (s : StagingSlot)
    : StagingSlot :=
  slot_with (slot_schedule s) (slot_current_snapshot s) (slot_last_promoted_snapshot s)
    enabled t s.

Definition slot_set_php_version (version : option string) (t : DateTime) (s : StagingSlot)
    : StagingSlot :=
  mkSlot (slot_id s) (slot_site_id s) (slot_subdomain s) (slot_document_root s)
    (slot_db_name s) version (slot_sync_policy s) (slot_schedule s) (slot_current_snapshot s)
    (slot_last_promoted_snapshot s) (slot_mail_capture s) (slot_created_at s) t.

Definition record_snapshot (snapshot : Z) (t : DateTime) (s : StagingSlot)
    : result StagingSlot SiteStagingError :=
  let stale := match slot_current_snapshot s with
               | Some existing => (snapshot <=? existing)%Z
               | None => false
               end in
  if stale then
    Err (StagingInvalid ("snapshot " +:+ of_bytes (show_Z snapshot)
      +:+ " is not greater than current "
      +:+ of_bytes (show_Z (default 0%Z (slot_current_snapshot s)))))
  else Ok (slot_with (slot_schedule s) (Some snapshot) (slot_last_promoted_snapshot s)
             (slot_mail_capture s) t s).

Definition record_promotion (snapshot : Z) (t : DateTime) (s : StagingSlot) : StagingSlot :=
  slot_with (slot_schedule s) (slot_current_snapshot s) (Some snapshot)
    (slot_mail_capture s) t s.

Inductive PromotionStatus : Type :=
| PromotionPending | Promoting | Promoted | RolledBack | PromotionFailed.

#[export] Instance PromotionStatus_eq_dec : EqDecision PromotionStatus.
Proof. solve_decision. Defined.

Definition promotion_str (s : PromotionStatus) : string :=
  match s with
  | PromotionPending => "pending" | Promoting => "promoting" | Promoted => "promoted"
  | RolledBack => "rolled_back" | PromotionFailed => "failed"
  end.

Record PromotionRun := mkRun {
  run_id : Uuid;
  run_site_id : Uuid;
  run_snapshot : Z;
  run_confirmed_at : DateTime;
  run_status : PromotionStatus;
  run_requested_by : string;
  run_requested_at : DateTime;
  run_updated_at : DateTime;
  run_failure_reason : option string
}.

Definition CONFIRMATION_WINDOW_SECONDS : Z := 60.

Definition run_new (id site : Uuid) (snapshot : Z) (confirmed_at : DateTime) (by_ : string)
    (t : DateTime) : result PromotionRun SiteStagingError :=
  if bool_decide (trim (chars by_) = []) then Err (StagingInvalid "requested_by is empty")
  else
    let age := num_seconds (t - confirmed_at) in
    if (CONFIRMATION_WINDOW_SECONDS <? Z.abs age)%Z
    then Err (ConfirmationExpired ("confirmed_at is " +:+ of_bytes (show_Z age)
                                   +:+ "s away from now"))
    else Ok (mkRun id site snapshot confirmed_at PromotionPending by_ t t None).

Definition run_with (st : PromotionStatus) (reason : option string) (t : DateTime)
    (r : PromotionRun) : PromotionRun :=
  mkRun (run_id r) (run_site_id r) (run_snapshot r) (run_confirmed_at r) st
    (run_requested_by r) (run_requested_at r) t reason.

Definition begin_promotion (t : DateTime) (r : PromotionRun)
    : result PromotionRun SiteStagingError :=
  match run_status r with
  | PromotionPending => Ok (run_with Promoting (run_failure_reason r) t r)
  | _ => Err InvalidTransition
  end.
Definition complete_promotion (t : DateTime) (r : PromotionRun)
    : result PromotionRun SiteStagingError :=
  match run_status r with
  | Promoting => Ok (run_with Promoted (run_failure_reason r) t r)
  | _ => Err InvalidTransition
  end.
Definition mark_rolled_back (reason : string) (t : DateTime) (r : PromotionRun)
    : result PromotionRun SiteStagingError :=
  match run_status r with
  | Promoted | RolledBack => Err InvalidTransition
  | _ => Ok (run_with RolledBack (Some reason) t r)
  end.
Definition mark_failed (reason : string) (t : DateTime) (r : PromotionRun)
    : result PromotionRun SiteStagingError :=
  match run_status r with
  | Promoted | PromotionFailed => Err InvalidTransition
  | _ => Ok (run_with PromotionFailed (Some reason) t r)
  end.
Definition is_in_flight (r : PromotionRun) : bool :=
  match run_status r with PromotionPending | Promoting => true | _ => false end.

(** ** Rows and statements *)

Definition parse_status (s : string) : result PromotionStatus SiteStagingError :=
  if String.eqb s "pending" then Ok PromotionPending
  else if String.eqb s "promoting" then Ok Promoting
  else if String.eqb s "promoted" then Ok Promoted
  else if String.eqb s "rolled_back" then Ok RolledBack
  else if String.eqb s "failed" then Ok PromotionFailed
  else Err (StagingInvalid ("unknown promotion status `" +:+ s +:+ "`")).

Definition parse_policy (s : string) : result SyncPolicy SiteStagingError :=
  if String.eqb s "on_demand" then Ok OnDemand
  else if String.eqb s "on_promote" then Ok OnPromote
  else if String.eqb s "scheduled" then Ok Scheduled
  else Err (StagingInvalid ("unknown sync policy `" +:+ s +:+ "`")).

Definition slot_row (s : StagingSlot) : SlotRow :=
  {| sl_id := slot_id s; sl_site_id := slot_site_id s; sl_subdomain := slot_subdomain s;
     sl_document_root := slot_document_root s; sl_db_name := slot_db_name s;
     sl_php_version := slot_php_version s; sl_sync_policy := policy_str (slot_sync_policy s);
     sl_schedule := slot_schedule s; sl_current_snapshot := slot_current_snapshot s;
     sl_last_promoted_snapshot := slot_last_promoted_snapshot s;
     sl_mail_capture := if slot_mail_capture s then 1%Z else 0%Z;
     sl_created_at := slot_created_at s; sl_updated_at := slot_updated_at s |}.

Definition into_slot (r : SlotRow) : result StagingSlot SiteStagingError :=
  policy <-? parse_policy (sl_sync_policy r) ;;
  current <-? transpose snapshot_new (sl_current_snapshot r) ;;
  promoted <-? transpose snapshot_new (sl_last_promoted_snapshot r) ;;
  Ok {| slot_id := sl_id r; slot_site_id := sl_site_id r; slot_subdomain := sl_subdomain r;
        slot_document_root := sl_document_root r; slot_db_name := sl_db_name r;
        slot_php_version := sl_php_version r; slot_sync_policy := policy;
        slot_schedule := sl_schedule r; slot_current_snapshot := current;
        slot_last_promoted_snapshot := promoted;
        slot_mail_capture := negb (sl_mail_capture r =? 0)%Z;
        slot_created_at := sl_created_at r; slot_updated_at := sl_updated_at r |}.

(** [UPDATE staging_slots]: every column but the keys and [created_at]. *)
Definition slot_row_set (s : StagingSlot) (r : SlotRow) : SlotRow :=
  {| sl_id := sl_id r; sl_site_id := sl_site_id r; sl_subdomain := slot_subdomain s;
     sl_document_root := slot_document_root s; sl_db_name := slot_db_name s;
     sl_php_version := slot_php_version s; sl_sync_policy := policy_str (slot_sync_policy s);
     sl_schedule := slot_schedule s; sl_current_snapshot := slot_current_snapshot s;
     sl_last_promoted_snapshot := slot_last_promoted_snapshot s;
     sl_mail_capture := if slot_mail_capture s then 1%Z else 0%Z;
     sl_created_at := sl_created_at r; sl_updated_at := slot_updated_at s |}.

Definition run_row (r : PromotionRun) : PromotionRow :=
  {| pm_id := run_id r; pm_site_id := run_site_id r; pm_snapshot := run_snapshot r;
     pm_confirmed_at := run_confirmed_at r; pm_status := promotion_str (run_status r);
     pm_requested_by := run_requested_by r; pm_requested_at := run_requested_at r;
     pm_updated_at := run_updated_at r; pm_failure_reason := run_failure_reason r |}.

Definition into_run (r : PromotionRow) : result PromotionRun SiteStagingError :=
  snapshot <-? snapshot_new (pm_snapshot r) ;;
  status <-? parse_status (pm_status r) ;;
  Ok {| run_id := pm_id r; run_site_id := pm_site_id r; run_snapshot := snapshot;
        run_confirmed_at := pm_confirmed_at r; run_status := status;
        run_requested_by := pm_requested_by r; run_requested_at := pm_requested_at r;
        run_updated_at := pm_updated_at r; run_failure_reason := pm_failure_reason r |}.

Definition run_row_set (p : PromotionRun) (r : PromotionRow) : PromotionRow :=
  {| pm_id := pm_id r; pm_site_id := pm_site_id r; pm_snapshot := run_snapshot p;
     pm_confirmed_at := run_confirmed_at p; pm_status := promotion_str (run_status p);
     pm_requested_by := run_requested_by p; pm_requested_at := run_requested_at p;
     pm_updated_at := run_updated_at p; pm_failure_reason := run_failure_reason p |}.

Definition slot_is (id : Uuid) (r : SlotRow) : bool := sl_id r =? id.
Definition slot_of (site : Uuid) (r : SlotRow) : bool := sl_site_id r =? site.
Definition snapshot_is (site : Uuid) (n : Z) (r : SnapshotRow) : bool :=
  (sn_site_id r =? site) && (sn_snapshot r =? n)%Z.
Definition promotion_is (id : Uuid) (r : PromotionRow) : bool := pm_id r =? id.
Definition lock_of (site : Uuid) (r : LockRow) : bool := lk_site_id r =? site.

Definition known_site (site : Uuid) (h : HostingTables) : bool :=
  existsb (site_is site) (ht_sites h).

Definition insert_slot_row (r : SlotRow) (h : HostingTables)
    : result (unit * HostingTables) string :=
  if existsb (slot_is (sl_id r)) (ht_slots h) then Err "staging_slots.id"
  else if existsb (slot_of (sl_site_id r)) (ht_slots h) then Err "staging_slots.site_id"
  else if known_site (sl_site_id r) h
  then Ok (tt, set_slots (ht_slots h ++ [r]) h)
  else Err "FOREIGN KEY".

Definition insert_snapshot_row (r : SnapshotRow) (h : HostingTables)
    : result (unit * HostingTables) string :=
  if existsb (snapshot_is (sn_site_id r) (sn_snapshot r)) (ht_snapshots h)
  then Err "staging_snapshots.site_id, staging_snapshots.snapshot"
  else if known_site (sn_site_id r) h
  then Ok (tt, set_snapshots (ht_snapshots h ++ [r]) h)
  else Err "FOREIGN KEY".

Definition insert_promotion_row (r : PromotionRow) (h : HostingTables)
    : result (unit * HostingTables) string :=
  if existsb (promotion_is (pm_id r)) (ht_promotions h) then Err "promotion_runs.id"
  else if known_site (pm_site_id r) h
  then Ok (tt, set_promotions (ht_promotions h ++ [r]) h)
  else Err "FOREIGN KEY".

(** SQLite's [datetime(t, '+d seconds')], as a number of seconds: the texts it makes are
    compared with [<]. *)
Class SqliteTime := sql_datetime : DateTime → Z → Z.

(** What SQLite documents: the result has whole seconds, follows the order of the
    instants, and the modifier adds to it.  Fractions are kept to the millisecond. *)
Class SqliteTimeLaws `{SqliteTime} : Prop := {
  sql_datetime_add : ∀ t d, sql_datetime t d = (sql_datetime t 0 + d)%Z;
  sql_datetime_mono : ∀ t t', (t ≤ t')%Z → (sql_datetime t 0 ≤ sql_datetime t' 0)%Z;
  sql_datetime_near : ∀ t, (sql_datetime t 0 * 1000000000 - 1000000 ≤ t
                            < (sql_datetime t 0 + 1) * 1000000000)%Z
}.

(** [INSERT INTO staging_locks .. ON CONFLICT(site_id) DO UPDATE .. WHERE ..]; the answer
    is whether a row was written. *)
Definition acquire_lock_row `{SqliteTime} (site : Uuid) (by_ : string) (t : DateTime)
    (h : HostingTables) : result (bool * HostingTables) string :=
  match List.find (lock_of site) (ht_locks h) with
  | Some l =>
      if (sql_datetime (lk_locked_at l) 300 <? sql_datetime t 0)%Z
         || String.eqb (lk_locked_by l) by_
      then Ok (true, set_locks (update_where (lock_of site)
                       (λ _, mkLockRow site by_ t) (ht_locks h)) h)
      else Ok (false, h)
  | None =>
      if known_site site h
      then Ok (true, set_locks (ht_locks h ++ [mkLockRow site by_ t]) h)
      else Err "FOREIGN KEY"
  end.

Definition release_lock_row (site : Uuid) (by_ : string) (h : HostingTables) : HostingTables :=
  set_locks (delete_where (λ l, lock_of site l && String.eqb (lk_locked_by l) by_)
               (ht_locks h)) h.

Definition slot_created_desc (r1 r2 : SlotRow) : Prop :=
  (sl_created_at r2 ≤ sl_created_at r1)%Z.
#[export] Instance slot_created_desc_dec : RelDecision slot_created_desc.
Proof. unfold slot_created_desc. intros r1 r2. apply _. Defined.
Definition snapshot_desc (r1 r2 : SnapshotRow) : Prop := (sn_snapshot r2 ≤ sn_snapshot r1)%Z.
#[export] Instance snapshot_desc_dec : RelDecision snapshot_desc.
Proof. unfold snapshot_desc. intros r1 r2. apply _. Defined.
Definition requested_desc (r1 r2 : PromotionRow) : Prop :=
  (pm_requested_at r2 ≤ pm_requested_at r1)%Z.
#[export] Instance requested_desc_dec : RelDecision requested_desc.
Proof. unfold requested_desc. intros r1 r2. apply _. Defined.

(** ** Repositories and the lock table *)

Section staging_repo.
Context `{Env} `{SqliteTime}.
Abbreviation MR A := (M World SiteStagingError A).

Definition sql {A} (c : M World RepoError A) : MR A := map_err Database c.
Definition hosting {A} (f : HostingTables → A) : MR A := sql (select (λ d, f (db_hosting d))).

Definition slots_insert (s : StagingSlot) : MR unit :=
  sql (statement (hosting_statement (insert_slot_row (slot_row s)))).
Definition slots_find_by_id (id : Uuid) : MR (option StagingSlot) :=
  row <- hosting (λ h, List.find (slot_is id) (ht_slots h)) ;; lift (transpose into_slot row).
Definition slots_find_by_site (site : Uuid) : MR (option StagingSlot) :=
  row <- hosting (λ h, List.find (slot_of site) (ht_slots h)) ;; lift (transpose into_slot row).
Definition slots_list_all : MR (list StagingSlot) :=
  rows <- hosting (λ h, merge_sort slot_created_desc (ht_slots h)) ;;
  lift (collect into_slot rows).
Definition slots_update (s : StagingSlot) : MR unit :=
  sql (execute (on_hosting (λ h,
    set_slots (update_where (slot_is (slot_id s)) (slot_row_set s) (ht_slots h)) h))).
Definition slots_delete (id : Uuid) : MR unit :=
  sql (execute (on_hosting (λ h, set_slots (delete_where (slot_is id) (ht_slots h)) h))).

Definition snapshots_insert (site : Uuid) (snapshot : Z) (taken_at : DateTime) : MR unit :=
  sql (statement (hosting_statement (insert_snapshot_row (mkSnapshotRow site snapshot taken_at)))).
Definition snapshots_list_by_site (site : Uuid) : MR (list SnapshotRow) :=
  rows <- hosting (λ h, merge_sort snapshot_desc
                          (select_where (λ r, sn_site_id r =? site) (ht_snapshots h))) ;;
  lift (collect (λ r, n <-? snapshot_new (sn_snapshot r) ;;
                      Ok (mkSnapshotRow (sn_site_id r) n (sn_taken_at r))) rows).

Definition promotions_insert (r : PromotionRun) : MR unit :=
  sql (statement (hosting_statement (insert_promotion_row (run_row r)))).
Definition promotions_find_by_id (id : Uuid) : MR (option PromotionRun) :=
  row <- hosting (λ h, List.find (promotion_is id) (ht_promotions h)) ;;
  lift (transpose into_run row).
Definition promotions_list_by_site (site : Uuid) : MR (list PromotionRun) :=
  rows <- hosting (λ h, merge_sort requested_desc
                          (select_where (λ r, pm_site_id r =? site) (ht_promotions h))) ;;
  lift (collect into_run rows).
Definition promotions_update (r : PromotionRun) : MR unit :=
  sql (execute (on_hosting (λ h,
    set_promotions (update_where (promotion_is (run_id r)) (run_row_set r) (ht_promotions h)) h))).

Definition try_acquire (site : Uuid) (by_ : string) (t : DateTime) : MR bool :=
  sql (statement (hosting_statement (acquire_lock_row site by_ t))).
Definition release_lock (site : Uuid) (by_ : string) : MR unit :=
  sql (execute (on_hosting (release_lock_row site by_))).
End staging_repo.

(** ** [StagingService] *)

Inductive PromoteOutcome : Type :=
| PromoteSuccess
| PromoteRolledBack (reason : string).

(** [StagingFilesystemLayer]: the answers of its [k]-th call. *)
Class StagingFs := {
  fs_create_slot : nat → Uuid → string → option SiteStagingError;
  fs_sync_snapshot : nat → Uuid → string → string → result DateTime SiteStagingError;
  fs_promote : nat → Uuid → string → string → result PromoteOutcome SiteStagingError;
  fs_destroy_slot : nat → Uuid → string → string → option SiteStagingError
}.

Record CreateSlotRequest := mkCreateSlot {
  rq_subdomain : option string;
  rq_document_root : option string;
  rq_sync_policy : option SyncPolicy;
  rq_php_version : option string;
  rq_schedule : option string
}.

Inductive PromotionServiceError : Type :=
| StagingError (e : SiteStagingError)
| StagingForbidden
| StagingSiteNotFound (id : Uuid).

Definition ensure_owner (caller : UserRec) : result unit PromotionServiceError :=
  match u_role caller with Owner => Ok tt | _ => Err StagingForbidden end.

(** [scope(caller).1]. *)
Definition can_manage_all (caller : UserRec) : bool :=
  match u_role caller with Owner => true | _ => false end.

Definition ensure_in_chroot (site : Site) (document_root : string) : result unit SiteStagingError :=
  let prod := trim_end_matches SLASH (bytes (site_document_root site)) in
  match rsplit_once SLASH prod with
  | Some (b :: prefix, _) =>
      let parent := (b :: prefix ++ [SLASH])%list in
      if negb (prefixb parent (bytes document_root)) || contains_str document_root ".."
         || negb (contains_str document_root "staging")
      then Err (OutsideChroot document_root)
      else Ok tt
  | _ => Err (OutsideChroot document_root)
  end.

Definition staging_docroot_default (prod : string) : string :=
  let parent := match rsplit_once SLASH (trim_end_matches SLASH (bytes prod)) with
                | Some (p, _) => p
                | None => bytes prod
                end in
  of_bytes (parent ++ bytes "/staging/public_html").

(** 95 is [_]. *)
Definition staging_db_name (domain : string) : string :=
  of_bytes (map (λ c, if is_ascii_alphanumeric c then c else 95) (chars domain))
  +:+ "_staging".

Definition json_uuid (text : Uuid → string) (id : Uuid) : Json := JString (text id).
Definition json_Z (z : Z) : Json := JNumber (of_bytes (show_Z z)).

Section staging_service.
Context `{Env} `{SqliteTime} `{StagingFs}.
Abbreviation MP A := (M World PromotionServiceError A).

Definition staging {A} (c : M World SiteStagingError A) : MP A := map_err StagingError c.

Definition fs_call {A} (f : nat → result A SiteStagingError) : MP A := λ w,
  match f (w_step w) with
  | Ok a => (Ok a, tick w)
  | Err e => (Err (StagingError e), tick w)
  end.
Definition fs_unit (f : nat → option SiteStagingError) : MP unit :=
  fs_call (λ k, match f k with Some e => Err e | None => Ok tt end).

Definition load_site (caller : UserRec) (site : Uuid) : MP Site :=
  o <- map_err (λ e, StagingError (Database e)) (sites_find_by_id site) ;;
  s <- ok_or o (StagingSiteNotFound site) ;;
  if negb (can_manage_all caller) && negb (site_owner_id s =? u_id caller)
  then throw StagingForbidden
  else ret s.

Definition require_slot (site : Uuid) : MP StagingSlot :=
  o <- staging (slots_find_by_site site) ;;
  ok_or o (StagingError (StagingNotFound (uuid_text site))).

(** The scope of a [LockGuard]: when [body] ends, however it ends, the release is spawned
    and its error is ignored. *)
Definition with_guard {A} (site : Uuid) (by_ : string) (body : MP A) : MP A := λ w,
  let '(r, w1) := body w in (r, (release_lock site by_ w1).2).

Definition acquire (site : Uuid) (by_ : string) : MP unit :=
  t <- now ;;
  acquired <- staging (try_acquire site by_ t) ;;
  if acquired : bool then ret tt else throw (StagingError InFlight).

Definition create_slot (caller : UserRec) (site_id : Uuid) (request : CreateSlotRequest)
    : MP StagingSlot :=
  lift (ensure_owner caller) ;;;
  site <- load_site caller site_id ;;
  existing <- staging (slots_find_by_site site_id) ;;
  match existing with
  | Some _ => throw (StagingError (StagingAlreadyExists (uuid_text site_id)))
  | None =>
      let subdomain := default "staging" (rq_subdomain request) in
      let root := default (staging_docroot_default (site_document_root site))
                    (rq_document_root request) in
      lift (result_map_err StagingError (ensure_in_chroot site root)) ;;;
      let db_name := staging_db_name (site_primary_domain site) in
      let policy := default OnPromote (rq_sync_policy request) in
      t <- now ;;
      id <- fresh_uuid ;;
      slot <- lift (result_map_err StagingError
                (slot_new id site_id subdomain root db_name (rq_php_version request) policy t)) ;;
      slot <- match rq_schedule request with
              | Some sched => lift (result_map_err StagingError (set_schedule (Some sched) t slot))
              | None => ret slot
              end ;;
      staging (slots_insert slot) ;;;
      fs_unit (λ k, fs_create_slot k site_id root) ;;;
      audit (u_username caller) StagingSlotCreated Success
        (λ e, with_metadata
           (JObject [("slot_id", json_uuid uuid_text (slot_id slot));
                     ("document_root", JString (slot_document_root slot));
                     ("db_name", JString (slot_db_name slot))])
           (with_target (uuid_text site_id) e)) ;;;
      ret slot
  end.

Definition delete_slot (caller : UserRec) (site_id : Uuid) (drop_db : bool) : MP unit :=
  lift (ensure_owner caller) ;;;
  o <- staging (slots_find_by_site site_id) ;;
  match o with
  | None => ret tt
  | Some slot =>
      t <- now ;;
      staging (try_acquire site_id (u_username caller) t) ;;;
      fs_unit (λ k, fs_destroy_slot k site_id (slot_document_root slot) (slot_db_name slot)) ;;;
      staging (slots_delete (slot_id slot)) ;;;
      attempt (release_lock site_id (u_username caller)) ;;;
      audit (u_username caller) StagingSlotDeleted Success
        (λ e, with_metadata (JObject [("slot_id", json_uuid uuid_text (slot_id slot));
                                      ("drop_db", JBool drop_db)])
                (with_target (uuid_text site_id) e))
  end.

Definition next_snapshot (slot : StagingSlot) : Z :=
  match slot_current_snapshot slot with
  | Some s => snapshot_next s
  | None => snapshot_first
  end.

Definition sync_snapshot (caller : UserRec) (site_id : Uuid) : MP StagingSlot :=
  lift (ensure_owner caller) ;;;
  site <- load_site caller site_id ;;
  slot <- require_slot site_id ;;
  acquire site_id (u_username caller) ;;;
  with_guard site_id (u_username caller) (
    taken_at <- fs_call (λ k, fs_sync_snapshot k site_id (site_document_root site)
                                (slot_document_root slot)) ;;
    let next_id := next_snapshot slot in
    slot <- lift (result_map_err StagingError (record_snapshot next_id taken_at slot)) ;;
    staging (snapshots_insert site_id next_id taken_at) ;;;
    staging (slots_update slot) ;;;
    audit (u_username caller) StagingSnapshotTaken Success
      (λ e, with_metadata (JObject [("slot_id", json_uuid uuid_text (slot_id slot));
                                    ("snapshot", json_Z next_id)])
              (with_target (uuid_text site_id) e)) ;;;
    ret slot).

(** What [promote] does with the answer of the file-system layer. *)
Definition promotion_outcome (caller : UserRec) (site_id : Uuid) (snapshot : Z)
    (slot : StagingSlot) (run : PromotionRun) (outcome : PromoteOutcome) : MP PromotionRun :=
  match outcome with
  | PromoteSuccess =>
      t <- now ;;
      run <- lift (result_map_err StagingError (complete_promotion t run)) ;;
      staging (promotions_update run) ;;;
      t <- now ;;
      staging (slots_update (record_promotion snapshot t slot)) ;;;
      audit (u_username caller) StagingPromoted Success
        (λ e, with_metadata (JObject [("snapshot", json_Z snapshot);
                                      ("promotion_id", json_uuid uuid_text (run_id run))])
                (with_target (uuid_text site_id) e)) ;;;
      ret run
  | PromoteRolledBack reason =>
      t <- now ;;
      run <- lift (result_map_err StagingError (mark_rolled_back reason t run)) ;;
      staging (promotions_update run) ;;;
      audit (u_username caller) StagingPromotionRolledBack Failure
        (λ e, with_metadata (JObject [("snapshot", json_Z snapshot);
                                      ("promotion_id", json_uuid uuid_text (run_id run));
                                      ("reason", JString reason)])
                (with_target (uuid_text site_id) e)) ;;;
      ret run
  end.

Definition promote (caller : UserRec) (site_id : Uuid) (snapshot : Z) (confirmed_at : DateTime)
    : MP PromotionRun :=
  lift (ensure_owner caller) ;;;
  site <- load_site caller site_id ;;
  slot <- require_slot site_id ;;
  current <- ok_or (slot_current_snapshot slot)
               (StagingError (StagingInvalid "no snapshot to promote")) ;;
  if negb (snapshot =? current)%Z
  then throw (StagingError (SnapshotMismatch (of_bytes (show_Z current))
                              (of_bytes (show_Z snapshot))))
  else
    acquire site_id (u_username caller) ;;;
    with_guard site_id (u_username caller) (
      t <- now ;;
      id <- fresh_uuid ;;
      run <- lift (result_map_err StagingError
               (run_new id site_id snapshot confirmed_at (u_username caller) t)) ;;
      run <- lift (result_map_err StagingError (begin_promotion t run)) ;;
      staging (promotions_insert run) ;;;
      outcome <- fs_call (λ k, fs_promote k site_id (site_document_root site)
                                 (slot_document_root slot)) ;;
      promotion_outcome caller site_id snapshot slot run outcome).

Definition set_mail_capture (caller : UserRec) (site_id : Uuid) (enabled : bool)
    : MP StagingSlot :=
  lift (ensure_owner caller) ;;;
  load_site caller site_id ;;;
  o <- staging (slots_find_by_site site_id) ;;
  slot <- ok_or o (StagingError (StagingNotFound ("slot for site " +:+ uuid_text site_id))) ;;
  t <- now ;;
  let slot := slot_set_mail_capture enabled t slot in
  staging (slots_update slot) ;;;
  audit (u_username caller) MailCaptureToggled Success
    (λ e, with_metadata (JObject [("slot_id", json_uuid uuid_text (slot_id slot));
                                  ("enabled", JBool enabled)])
            (with_target (uuid_text site_id) e)) ;;;
  ret slot.

Definition slot_for (caller : UserRec) (site_id : Uuid) : MP (option StagingSlot) :=
  lift (ensure_owner caller) ;;;
  load_site caller site_id ;;;
  staging (slots_find_by_site site_id).

Definition promotions (caller : UserRec) (site_id : Uuid) : MP (list PromotionRun) :=
  lift (ensure_owner caller) ;;;
  load_site caller site_id ;;;
  staging (promotions_list_by_site site_id).

(** ** Sequences of operations *)

Inductive StagingOp : Type :=
| OpCreateSlot (caller : UserRec) (site : Uuid) (request : CreateSlotRequest)
| OpDeleteSlot (caller : UserRec) (site : Uuid) (drop_db : bool)
| OpSync (caller : UserRec) (site : Uuid)
| OpPromote (caller : UserRec) (site : Uuid) (snapshot : Z) (confirmed_at : DateTime)
| OpMailCapture (caller : UserRec) (site : Uuid) (enabled : bool).

Definition run_staging (op : StagingOp) (w : World) : World :=
  match op with
  | OpCreateSlot c s r => (create_slot c s r w).2
  | OpDeleteSlot c s b => (delete_slot c s b w).2
  | OpSync c s => (sync_snapshot c s w).2
  | OpPromote c s n t => (promote c s n t w).2
  | OpMailCapture c s b => (set_mail_capture c s b w).2
  end.

Inductive staging_step : World → World → Prop :=
| StagingStep op w : staging_step w (run_staging op w).
End staging_service.
