(* ===== verification/StagingChanges.v ===== *)
(** * What the site and staging services do to their tables

    [hosting_change] lists the changes one statement can make to the tables of sites, slots,
    snapshots, promotions and locks, with what is true when it runs.  Every operation of the
    two services is a sequence of such changes, wherever statements fail
    ([run_site_changes], [run_staging_changes]); the theorems of [StagingSafety] are then
    proved by induction on the changes. *)
From S2P Require Import Prelude Text AuditActions AuditLog Accounts Paths CronJobs HostingTables Store Users Sites Staging.
Open Scope N_scope.

(** ** Relations on the hosting tables *)

(** A two-state property that looks at the hosting tables only. *)
Definition on_tables (R : relation HostingTables) : relation Db :=
  λ d d', R (db_hosting d) (db_hosting d').

#[export] Instance on_tables_preorder (R : relation HostingTables) :
  PreOrder R → PreOrder (on_tables R).
Proof. intros [HR HT]; split; repeat intro; unfold on_tables in *; [apply HR | eapply HT; eauto]. Qed.

#[export] Instance on_tables_audit (R : relation HostingTables) :
  PreOrder R → AuditBlind (on_tables R).
Proof. intros ? d t. unfold on_tables. cbn. reflexivity. Qed.

(** ** The changes *)

(** What [Site::new] checks of the row it makes; its aliases are checked when they change. *)
Definition site_row_ok (r : SiteRow) : Prop :=
  validate_domain (si_primary_domain r) = Ok tt
  ∧ validate_document_root (si_document_root r) = Ok tt
  ∧ is_ok (into_site r) = true.

(** A new slot: what [StagingSlot::new] checks, and nothing taken or promoted yet. *)
Definition new_slot (s : StagingSlot) : Prop :=
  (∃ id site sub root db php policy t s0,
      slot_new id site sub root db php policy t = Ok s0
      ∧ (s = s0 ∨ ∃ sched, set_schedule (Some sched) t s0 = Ok s)).

(** What the service writes back into a slot it has read; [taken] are the snapshots, and
    [sync] says whether a synchronisation is allowed. *)
Inductive slot_change (sync : bool) (taken : list SnapshotRow) : StagingSlot → StagingSlot → Prop :=
| SlotCapture b t s : slot_change sync taken s (slot_set_mail_capture b t s)
| SlotSnapshot t s s' : sync = true → record_snapshot (next_snapshot s) t s = Ok s' →
    existsb (snapshot_is (slot_site_id s) (next_snapshot s)) taken = true →
    slot_change sync taken s s'
| SlotPromoted n t s : slot_current_snapshot s = Some n →
    slot_change sync taken s (record_promotion n t s).

(** How a promotion ends. *)
Inductive run_end : PromotionRun → PromotionRun → Prop :=
| EndPromoted t r r' : complete_promotion t r = Ok r' → run_end r r'
| EndRolledBack reason t r r' : mark_rolled_back reason t r = Ok r' → run_end r r'.

Inductive site_change : relation HostingTables :=
| ChSite r h : site_row_ok r → existsb (site_is (si_id r)) (ht_sites h) = false →
    existsb (λ x, String.eqb (si_primary_domain x) (si_primary_domain r)) (ht_sites h) = false →
    site_change h (set_sites (ht_sites h ++ [r]) h)
| ChSiteSet id f h :
    (∀ r, si_id (f r) = si_id r ∧ si_primary_domain (f r) = si_primary_domain r
          ∧ (site_row_ok r → site_row_ok (f r))) →
    site_change h (set_sites (update_where (site_is id) f (ht_sites h)) h)
| ChSiteDrop id h : site_change h (delete_site_rows id h).

Inductive staging_change `{SqliteTime} (sync : bool) : relation HostingTables :=
| ChSlot s h h' : new_slot s → insert_slot_row (slot_row s) h = Ok (tt, h') →
    staging_change sync h h'
| ChSlotSet r s s' h : In r (ht_slots h) → into_slot r = Ok s →
    slot_change sync (ht_snapshots h) s s' →
    staging_change sync h
      (set_slots (update_where (slot_is (slot_id s')) (slot_row_set s') (ht_slots h)) h)
| ChSlotDrop id h : staging_change sync h (set_slots (delete_where (slot_is id) (ht_slots h)) h)
| ChSnapshot r s t h h' : sync = true → In r (ht_slots h) → into_slot r = Ok s →
    insert_snapshot_row (mkSnapshotRow (slot_site_id s) (next_snapshot s) t) h = Ok (tt, h') →
    staging_change sync h h'
| ChRun r s p h h' : In r (ht_slots h) → into_slot r = Ok s →
    slot_current_snapshot s = Some (run_snapshot p) → run_site_id p = slot_site_id s →
    run_status p = Promoting →
    insert_promotion_row (run_row p) h = Ok (tt, h') → staging_change sync h h'
| ChRunEnd p p' h : In (run_row p) (ht_promotions h) → run_status p = Promoting →
    run_end p p' →
    staging_change sync h
      (set_promotions (update_where (promotion_is (run_id p')) (run_row_set p')
                         (ht_promotions h)) h)
| ChAcquire site by_ t b h h' : acquire_lock_row site by_ t h = Ok (b, h') → staging_change sync h h'
| ChRelease site by_ h : staging_change sync h (release_lock_row site by_ h).

Definition hosting_change `{SqliteTime} (h h' : HostingTables) : Prop := site_change h h' ∨ staging_change true h h'.

(** A run of an operation is a sequence of changes. *)
Abbreviation changes_by R := (on_db (on_tables (rtc R))).

Section leaves.
Context `{Env} `{SqliteTime} (R : relation HostingTables).
Abbreviation changes := (changes_by R).

Lemma changes_tick w : changes w (tick w).
Proof. apply on_db_tick, _. Qed.

Lemma changes_tables {A} (f : HostingTables → result (A * HostingTables) string) w :
  (∀ a h', f (db_hosting (w_db w)) = Ok (a, h') → R (db_hosting (w_db w)) h') →
  changes w (statement (hosting_statement f) w).2.
Proof.
  intros Hf. unfold statement, hosting_statement.
  destruct (sql_fault _); [apply changes_tick|].
  destruct (f _) as [[a h']|]; [|apply changes_tick]. apply rtc_once, (Hf a). done.
Qed.

Lemma changes_on_hosting (f : HostingTables → HostingTables) w :
  R (db_hosting (w_db w)) (f (db_hosting (w_db w))) →
  changes w (execute (on_hosting f) w).2.
Proof.
  intros Hf. unfold execute, statement. destruct (sql_fault _); [apply changes_tick|].
  by apply rtc_once.
Qed.

Lemma changes_nginx (f : nat → Site → option SiteError) s : within changes (nginx_call f s).
Proof. intros w. unfold nginx_call. destruct (f _ s); apply changes_tick. Qed.

Lemma changes_fs {A} (f : nat → result A SiteStagingError) : within changes (fs_call f).
Proof. intros w. unfold fs_call. destruct (f _); apply changes_tick. Qed.

Lemma changes_fetch_site p : within changes (fetch_site p).
Proof. unfold fetch_site. within_tac. Qed.

Lemma changes_audit {E} actor action outcome build :
  within changes (audit (E:=E) actor action outcome build).
Proof. apply on_db_audit; apply _. Qed.
End leaves.

#[export] Hint Resolve changes_nginx changes_fs changes_fetch_site : within.

(** ** Sites *)

Lemma into_site_row (s : Site) : into_site (site_row s) = Ok s.
Proof. by destruct s as [? ? ? ? ? ? ? []]. Qed.

Lemma validate_ok_tt {E} (r : result unit E) x : r = Ok x → r = Ok tt.
Proof. by destruct x. Qed.

Section site_changes.
Context `{Env} `{Nginx}.
Abbreviation changes := (changes_by site_change).

Lemma site_new_run id owner dom al root php v by_ w s w' :
  site_new id owner dom al root php v by_ w = (Ok s, w') →
  w_db w' = w_db w ∧ site_row_ok (site_row s) ∧ site_id s = id ∧ site_owner_id s = owner
  ∧ site_primary_domain s = lowercase dom ∧ site_document_root s = root
  ∧ validate_aliases (lowercase dom) [] al = Ok (site_aliases s).
Proof.
  unfold site_new. intros Hr. do 3 (inv_bind Hr; apply lift_ok in R as [? ->]).
  injection Hr as <- <-. split_and!; try done. unfold site_row_ok. rewrite into_site_row. cbn.
  split_and!; [by eapply validate_ok_tt..|done].
Qed.

Lemma changes_get_site id : within changes (get_site id).
Proof. unfold get_site, sites_find_by_id. within_tac. Qed.

Lemma changes_sites_insert s w :
  site_row_ok (site_row s) → changes w (sites_insert s w).2.
Proof.
  intros Hok. unfold sites_insert, statement. destruct (sql_fault _); [apply changes_tick|].
  destruct (insert_site_row _ _) as [[[] d']|] eqn:E; [|apply changes_tick].
  unfold insert_site_row in E. destruct (existsb _ _) eqn:E1 in E; [done|].
  destruct (existsb _ _) eqn:E2 in E; [done|]. destruct (existsb _ _) in E; [|done].
  injection E as <-. by apply rtc_once, ChSite.
Qed.

Lemma site_row_set_ok st o al t by_ r :
  is_ok (parse_site_status st) = true → site_row_ok r → site_row_ok (site_row_set st o al t by_ r).
Proof.
  unfold site_row_ok, into_site. cbn. intros Hs (? & ? & ?). split_and!; try done.
  by destruct (parse_site_status st).
Qed.

Lemma site_row_status r : site_row_ok r → is_ok (parse_site_status (si_status r)) = true.
Proof.
  unfold site_row_ok, into_site. intros (_ & _ & Hs). by destruct (parse_site_status _).
Qed.

Lemma changes_site_set id (f : SiteRow → SiteRow) :
  (∀ r, si_id (f r) = si_id r ∧ si_primary_domain (f r) = si_primary_domain r
        ∧ (site_row_ok r → site_row_ok (f r))) →
  within changes
    (execute (on_hosting (λ h, set_sites (update_where (site_is id) f (ht_sites h)) h))).
Proof. intros Hf w. apply changes_on_hosting. by constructor. Qed.

Lemma changes_update_status id st by_ : within changes (sites_update_status id st by_).
Proof.
  unfold sites_update_status. within_tac. apply changes_site_set. intros r. split_and!; try done.
  apply site_row_set_ok. by destruct st.
Qed.

Lemma changes_update_aliases id al by_ : within changes (sites_update_aliases id al by_).
Proof.
  unfold sites_update_aliases. within_tac. apply changes_site_set. intros r. split_and!; try done.
  intros Hr. apply site_row_set_ok; [by apply site_row_status | done].
Qed.

Lemma changes_update_owner id o by_ : within changes (sites_update_owner id o by_).
Proof.
  unfold sites_update_owner. within_tac. apply on_db_statement; [apply _|].
  intros d [] d' Hs. unfold update_site_owner in Hs. destruct (_ && _); [done|].
  injection Hs as <-. apply rtc_once, ChSiteSet. intros r. split_and!; try done.
  intros Hr. apply site_row_set_ok; [by apply site_row_status | done].
Qed.

Lemma changes_sites_delete id : within changes (sites_delete id).
Proof. intros w. apply changes_on_hosting, ChSiteDrop. Qed.

(** A site is stored once its fields are checked. *)
Lemma changes_store_site {B} id owner dom al root php v by_ (k : Site → unit → M World SiteError B) :
  (∀ s x, within changes (k s x)) →
  within changes (bind (site_new id owner dom al root php v by_)
                    (λ s, bind (map_err SitePersistence (sites_insert s)) (k s))).
Proof.
  intros Hk w. apply bind_at; [apply _| |].
  - unfold site_new.
    match goal with |- _ _ (?m _).2 => enough (within changes m) as Hm by apply Hm end. within_tac.
  - intros s w' Hs. apply site_new_run in Hs as (_ & Hok & _).
    apply bind_at; [apply _|by apply map_err_at, changes_sites_insert|]. intros x w1 _. apply Hk.
Qed.

Lemma changes_create_site c o dom al php v root : within changes (create_site c o dom al php v root).
Proof.
  pose proof changes_sites_delete.
  unfold create_site, sites_find_by_domain.
  repeat (simple apply changes_store_site || within_step).
Qed.

Lemma run_site_changes op w : changes w (run_site op w).
Proof.
  pose proof changes_get_site. pose proof changes_sites_delete. pose proof changes_update_status.
  pose proof changes_update_aliases. pose proof changes_update_owner.
  destruct op; cbn [run_site];
    match goal with |- _ _ (?m _).2 => enough (within changes m) as Hm by apply Hm end.
  - apply changes_create_site.
  - unfold delete_site. within_tac.
  - unfold enable_site. within_tac.
  - unfold disable_site. within_tac.
  - unfold change_owner. within_tac.
  - unfold change_aliases, site_change_aliases. within_tac.
Qed.
End site_changes.

(** ** Staging *)

(** What a lookup returned, read off the tables. *)
Definition found_row {A B E} (dec : A → result B E) (row : option A) (o : option B) : Prop :=
  match o with
  | Some b => ∃ r, row = Some r ∧ dec r = Ok b
  | None => row = None
  end.

Lemma transpose_found {A B E} (dec : A → result B E) row o :
  transpose dec row = Ok o → found_row dec row o.
Proof.
  destruct row as [r|]; cbn; [|by intros [= <-]].
  destruct (dec r) eqn:E'; cbn; [|done]. intros [= <-]. cbn. eauto.
Qed.

Lemma transpose_snapshot x y : transpose snapshot_new x = Ok y → y = x.
Proof.
  destruct x as [n|]; cbn; [|by intros [= <-]]. unfold snapshot_new.
  destruct (_ <? _)%Z; cbn; [done|]. by intros [= <-].
Qed.

(** Decoding keeps the columns. *)
Lemma into_slot_fields r s :
  into_slot r = Ok s →
  slot_id s = sl_id r ∧ slot_site_id s = sl_site_id r ∧ slot_subdomain s = sl_subdomain r
  ∧ slot_document_root s = sl_document_root r ∧ slot_db_name s = sl_db_name r
  ∧ slot_current_snapshot s = sl_current_snapshot r
  ∧ slot_last_promoted_snapshot s = sl_last_promoted_snapshot r.
Proof.
  unfold into_slot. destruct (parse_policy _); cbn; [|done].
  destruct (transpose _ (sl_current_snapshot r)) eqn:E1; cbn; [|done].
  destruct (transpose _ (sl_last_promoted_snapshot r)) eqn:E2; cbn; [|done].
  apply transpose_snapshot in E1 as ->. apply transpose_snapshot in E2 as ->. by intros [= <-].
Qed.

Section staging_changes.
Context `{Env} `{SqliteTime} `{StagingFs}.
Abbreviation tables w := (db_hosting (w_db w)).
Context (sync : bool).
Abbreviation changes := (changes_by (staging_change sync)).

Lemma acquire_lock_row_locks site by_ t h b h' :
  acquire_lock_row site by_ t h = Ok (b, h') → ∃ l, h' = set_locks l h.
Proof.
  unfold acquire_lock_row. destruct (List.find _ _) as [l|].
  - destruct (_ || _); intros [= _ <-]; [eauto|]. exists (ht_locks h). by destruct h.
  - destruct (known_site _ _); [|done]. intros [= _ <-]. eauto.
Qed.

Lemma changes_try_acquire site by_ t : within changes (try_acquire site by_ t).
Proof.
  intros w. unfold try_acquire, sql. apply map_err_at, changes_tables. intros a h' Ha.
  by eapply ChAcquire.
Qed.

Lemma changes_release site by_ : within changes (release_lock site by_).
Proof. intros w. unfold release_lock, sql. apply map_err_at, changes_on_hosting, ChRelease. Qed.

Lemma changes_guard {A} site by_ (c : M World PromotionServiceError A) w :
  changes w (c w).2 → changes w (with_guard site by_ c w).2.
Proof.
  intros Hc. unfold with_guard. destruct (c w) as [r w1]; cbn in *.
  etransitivity; [exact Hc | apply changes_release].
Qed.
#[local] Hint Resolve changes_try_acquire changes_release : within.

Lemma hosting_run {A} (f : HostingTables → A) w x w' :
  hosting f w = (Ok x, w') → w_db w' = w_db w ∧ x = f (tables w).
Proof. by intros (? & -> & _)%map_err_ok%select_run. Qed.

Lemma slots_find_by_site_run site w o w' :
  slots_find_by_site site w = (Ok o, w') →
  w_db w' = w_db w ∧ found_row into_slot (List.find (slot_of site) (ht_slots (tables w))) o.
Proof.
  unfold slots_find_by_site. intros Hr. inv_bind Hr. apply hosting_run in R as [? ->].
  apply lift_ok in Hr as [Ht ->]. split; [done | by apply transpose_found].
Qed.

Lemma load_site_run c site w s w' :
  load_site c site w = (Ok s, w') →
  w_db w' = w_db w
  ∧ ∃ r, List.find (site_is site) (ht_sites (tables w)) = Some r ∧ into_site r = Ok s.
Proof.
  unfold load_site, sites_find_by_id, fetch_site. intros Hr. inv_bind Hr.
  apply map_err_ok in R. inv_bind R. apply select_run in R0 as (Hdb & -> & _).
  apply lift_ok in R as [Ht ->]. inv_bind Hr. apply ok_or_ok in R as [-> ->].
  destruct (_ && _); [done|]. injection Hr as <- <-. split; [done|].
  by apply transpose_found in Ht.
Qed.

Lemma require_slot_run site w s w' :
  require_slot site w = (Ok s, w') →
  w_db w' = w_db w
  ∧ ∃ r, List.find (slot_of site) (ht_slots (tables w)) = Some r ∧ into_slot r = Ok s.
Proof.
  unfold require_slot. intros Hr. inv_bind Hr.
  apply map_err_ok, slots_find_by_site_run in R as [? Hf].
  apply ok_or_ok in Hr as [-> ->]. done.
Qed.

Lemma try_acquire_run site by_ t w b w' :
  try_acquire site by_ t w = (Ok b, w') →
  ∃ h', acquire_lock_row site by_ t (tables w) = Ok (b, h') ∧ w_db w' = set_hosting h' (w_db w).
Proof.
  intros Hr%map_err_ok. unfold statement, hosting_statement in Hr.
  destruct (sql_fault _); [done|].
  destruct (acquire_lock_row _ _ _ _) as [[b' h']|]; [|done]. injection Hr as <- <-. eauto.
Qed.

Lemma acquire_run site by_ w x w' :
  acquire site by_ w = (Ok x, w') →
  ∃ t h', acquire_lock_row site by_ t (tables w) = Ok (true, h')
          ∧ w_db w' = set_hosting h' (w_db w).
Proof.
  unfold acquire. intros Hr. inv_bind Hr. injection R as <- <-. inv_bind Hr.
  apply map_err_ok, try_acquire_run in R as (h' & Ha & Hdb).
  destruct a; [|done]. injection Hr as <- <-. eauto.
Qed.

(** Taking the lock leaves the other tables. *)
Lemma acquire_tables site by_ w x w' :
  acquire site by_ w = (Ok x, w') →
  ht_slots (tables w') = ht_slots (tables w) ∧ ht_snapshots (tables w') = ht_snapshots (tables w)
  ∧ ht_promotions (tables w') = ht_promotions (tables w)
  ∧ ht_sites (tables w') = ht_sites (tables w).
Proof. intros (t & h' & (l & ->)%acquire_lock_row_locks & ->)%acquire_run. done. Qed.

Lemma fs_call_run {A} (f : nat → result A SiteStagingError) w a w' :
  fs_call f w = (Ok a, w') → f (w_step w) = Ok a ∧ w_db w' = w_db w.
Proof. unfold fs_call. destruct (f _); [|done]. by intros [= <- <-]. Qed.

Lemma changes_reads site c :
  within changes (slots_find_by_site site) ∧ within changes (load_site c site)
  ∧ within changes (require_slot site).
Proof.
  assert (within changes (slots_find_by_site site)).
  { unfold slots_find_by_site, hosting, sql. within_tac. }
  split_and!; [done| |].
  - unfold load_site, sites_find_by_id. within_tac.
  - unfold require_slot, staging. within_tac.
Qed.

Lemma changes_acquire site by_ : within changes (acquire site by_).
Proof. unfold acquire, staging. within_tac. Qed.

(** Statements, at the world they run in. *)
Lemma changes_slots_insert s : new_slot s → within changes (slots_insert s).
Proof.
  intros Hs w. unfold slots_insert, sql. apply map_err_at, changes_tables.
  intros [] h' Hi. by eapply ChSlot.
Qed.

Lemma changes_slots_update r s s' w :
  In r (ht_slots (tables w)) → into_slot r = Ok s → slot_change sync (ht_snapshots (tables w)) s s' →
  changes w (slots_update s' w).2.
Proof.
  intros. unfold slots_update, sql. apply map_err_at, changes_on_hosting. by eapply ChSlotSet.
Qed.

Lemma changes_snapshots_insert r s t w :
  sync = true → In r (ht_slots (tables w)) → into_slot r = Ok s →
  changes w (snapshots_insert (slot_site_id s) (next_snapshot s) t w).2.
Proof.
  intros. unfold snapshots_insert, sql. apply map_err_at, changes_tables. intros [] h' Hi.
  by eapply ChSnapshot.
Qed.

Lemma snapshots_insert_run site n t w x w' :
  snapshots_insert site n t w = (Ok x, w') →
  ht_slots (tables w') = ht_slots (tables w)
  ∧ ht_snapshots (tables w') = (ht_snapshots (tables w) ++ [mkSnapshotRow site n t])%list
  ∧ existsb (snapshot_is site n) (ht_snapshots (tables w)) = false.
Proof.
  intros Hr%map_err_ok. unfold statement, hosting_statement, insert_snapshot_row in Hr.
  destruct (sql_fault _); [done|]. cbn [sn_site_id sn_snapshot] in Hr.
  destruct (existsb (snapshot_is _ _) _) eqn:E; [done|]. destruct (known_site _ _); [|done].
  by injection Hr as _ <-.
Qed.

Lemma changes_sync_snapshot c site : sync = true → within changes (sync_snapshot c site).
Proof.
  intros Hsync.
  destruct (changes_reads site c) as (_ & Hload & Hreq). unfold sync_snapshot.
  apply within_bind; [apply _|apply within_lift, _|intros _].
  apply within_bind; [apply _|exact Hload|intros st].
  intros w. apply bind_at; [apply _|apply Hreq|]. intros s w1 (Hdb & r & Hf & Hs)%require_slot_run.
  apply bind_at; [apply _|apply changes_acquire|]. intros x w2 (Esl & _)%acquire_tables.
  apply changes_guard. apply bind_at; [apply _|apply changes_fs|].
  intros taken w3 [_ Hdb3]%fs_call_run. apply bind_at; [apply _|apply within_lift, _|].
  intros s' w4 [Hrec%result_map_err_ok ->]%lift_ok.
  apply List.find_some in Hf as [Hin Hof]. rewrite <- Hdb in Hin. rewrite <- Esl, <- Hdb3 in Hin.
  assert (slot_site_id s = site) as Hsite.
  { apply into_slot_fields in Hs as (_ & -> & _). by apply N.eqb_eq. }
  apply bind_at; [apply _| |].
  - rewrite <- Hsite. unfold staging. by eapply map_err_at, changes_snapshots_insert.
  - intros y w5 (Esl5 & Esn5 & _)%map_err_ok%snapshots_insert_run. apply bind_at; [apply _| |].
    + unfold staging. eapply map_err_at, changes_slots_update; [by rewrite Esl5|done|].
      econstructor; [done|done|]. rewrite Esn5, existsb_app. cbn. unfold snapshot_is at 2; cbn.
      rewrite Hsite, N.eqb_refl, Z.eqb_refl. by rewrite orb_true_r.
    + intros ? w6 _. apply bind_at; [apply _|apply changes_audit|]. intros. reflexivity.
Qed.

Lemma changes_run_end p p' w :
  In (run_row p) (ht_promotions (tables w)) → run_status p = Promoting → run_end p p' →
  changes w (promotions_update p' w).2.
Proof.
  intros. unfold promotions_update, sql. apply map_err_at, changes_on_hosting. by eapply ChRunEnd.
Qed.

Lemma promotions_insert_run p w x w' :
  promotions_insert p w = (Ok x, w') →
  ht_slots (tables w') = ht_slots (tables w) ∧ ht_snapshots (tables w') = ht_snapshots (tables w)
  ∧ ht_promotions (tables w') = (ht_promotions (tables w) ++ [run_row p])%list.
Proof.
  intros Hr%map_err_ok. unfold statement, hosting_statement, insert_promotion_row in Hr.
  destruct (sql_fault _); [done|]. destruct (existsb _ _); [done|].
  destruct (known_site _ _); [|done]. by injection Hr as _ <-.
Qed.

Lemma promotions_update_run p w x w' :
  promotions_update p w = (Ok x, w') →
  w_db w' = set_hosting (set_promotions (update_where (promotion_is (run_id p)) (run_row_set p)
              (ht_promotions (tables w))) (tables w)) (w_db w).
Proof. by intros Hr%map_err_ok%execute_ok. Qed.

Lemma changes_outcome c site r s n p o w :
  In r (ht_slots (tables w)) → into_slot r = Ok s → slot_current_snapshot s = Some n →
  In (run_row p) (ht_promotions (tables w)) → run_status p = Promoting →
  changes w (promotion_outcome c site n s p o w).2.
Proof.
  intros Hr Hs Hcur Hp Hst. unfold promotion_outcome.
  destruct o as [|reason];
    (apply bind_at; [apply _|apply changes_tick|]); intros t w1 [= _ <-];
    (apply bind_at; [apply _|apply within_lift, _|]);
    intros p' w2 [Hend%result_map_err_ok ->]%lift_ok;
    (apply bind_at; [apply _| |]).
  - unfold staging. eapply map_err_at, changes_run_end; [done|done|by econstructor].
  - intros x w3 Hu%map_err_ok%promotions_update_run.
    apply bind_at; [apply _|apply changes_tick|]. intros t' w4 [= <- <-].
    apply bind_at; [apply _| |].
    + unfold staging. eapply map_err_at, changes_slots_update; [by cbn; rewrite Hu|done|by constructor].
    + intros ? w5 _. apply bind_at; [apply _|apply changes_audit|]. intros. reflexivity.
  - unfold staging. eapply map_err_at, changes_run_end; [done|done|by econstructor].
  - intros ? w3 _. apply bind_at; [apply _|apply changes_audit|]. intros. reflexivity.
Qed.

(** A run is stored as promoting. *)
Lemma begin_fresh_run id site n c t0 by_ t p p' :
  run_new id site n c by_ t0 = Ok p → begin_promotion t p = Ok p' →
  run_id p' = id ∧ run_site_id p' = site ∧ run_snapshot p' = n ∧ run_status p' = Promoting
  ∧ run_confirmed_at p' = c ∧ run_requested_by p' = by_
  ∧ (Z.abs (num_seconds (t0 - c)) ≤ 60)%Z.
Proof.
  unfold run_new. case_bool_decide; [done|].
  destruct (Z.ltb_spec CONFIRMATION_WINDOW_SECONDS (Z.abs (num_seconds (t0 - c)))); [done|].
  intros [= <-]. cbn. by intros [= <-].
Qed.

Lemma changes_promote c site n conf : within changes (promote c site n conf).
Proof.
  destruct (changes_reads site c) as (_ & Hload & Hreq). unfold promote.
  apply within_bind; [apply _|apply within_lift, _|intros _].
  apply within_bind; [apply _|exact Hload|intros st].
  intros w. apply bind_at; [apply _|apply Hreq|]. intros s w1 (Hdb & r & Hf & Hs)%require_slot_run.
  apply bind_at; [apply _|apply within_ok_or, _|]. intros cur w1' [Hcur ->]%ok_or_ok.
  destruct (Z.eqb_spec n cur) as [->|]; cbn [negb]; [|reflexivity].
  apply bind_at; [apply _|apply changes_acquire|]. intros x w2 (Esl & Esn & _)%acquire_tables.
  apply changes_guard. apply bind_at; [apply _|apply changes_tick|]. intros t w3 [= <- <-].
  apply bind_at; [apply _|apply changes_tick|]. intros id w4 [= <- <-].
  apply bind_at; [apply _|apply within_lift, _|]. intros p w5 [Hnew%result_map_err_ok ->]%lift_ok.
  apply bind_at; [apply _|apply within_lift, _|]. intros p' w6 [Hbeg%result_map_err_ok ->]%lift_ok.
  destruct (begin_fresh_run _ _ _ _ _ _ _ _ _ Hnew Hbeg) as (_ & Hsite & Hsnap & Hst & _).
  apply List.find_some in Hf as [Hin Hof]. rewrite <- Hdb, <- Esl in Hin.
  assert (slot_site_id s = site) as Hsite'.
  { apply into_slot_fields in Hs as (_ & -> & _). by apply N.eqb_eq. }
  apply bind_at; [apply _| |].
  - unfold staging, promotions_insert, sql. do 2 apply map_err_at. apply changes_tables.
    intros [] h' Hi. apply (ChRun _ r s p'); congruence || done.
  - intros ? w7 (Esl7 & _ & Epm7)%map_err_ok%promotions_insert_run. cbn in Esl7, Epm7.
    apply bind_at; [apply _|apply changes_fs|]. intros o w8 [_ Hdb8]%fs_call_run.
    eapply changes_outcome; [rewrite Hdb8, Esl7; exact Hin|exact Hs|done| |done].
    rewrite Hdb8, Epm7. apply in_or_app. right. by left.
Qed.

(** The slot that [create_slot] stores. *)
Lemma changes_create_slot c site rq : within changes (create_slot c site rq).
Proof.
  destruct (changes_reads site c) as (Hfind & Hload & _).
  pose proof (@changes_audit _ (staging_change sync) PromotionServiceError).
  unfold create_slot, staging, fs_unit.
  apply within_bind; [apply _|apply within_lift, _|intros _].
  apply within_bind; [apply _|exact Hload|intros st].
  apply within_bind; [apply _|by apply within_map_err|intros [x|]]; [apply within_throw, _|].
  apply within_bind; [apply _|apply within_lift, _|intros _].
  apply within_bind; [apply _|apply on_db_now, _|intros t].
  apply within_bind; [apply _|apply on_db_fresh_uuid, _|intros id].
  apply within_bind_lift; [apply _|]. intros s Hs%result_map_err_ok.
  intros w. apply bind_at; [apply _|destruct (rq_schedule rq); [apply within_lift, _|reflexivity]|].
  intros s' w' Hrun.
  assert (new_slot s') as Hnew.
  { do 9 eexists. split; [exact Hs|]. destruct (rq_schedule rq) as [sched|].
    - apply lift_ok in Hrun as [Hset%result_map_err_ok _]. eauto.
    - injection Hrun as <- _. auto. }
  pose proof (changes_slots_insert s' Hnew) as Hins. generalize w'.
  match goal with |- ∀ w, changes w (?m w).2 => change (within changes m) end. within_tac.
Qed.

Lemma changes_slots_delete id : within changes (slots_delete id).
Proof. intros w. unfold slots_delete, sql. apply map_err_at, changes_on_hosting, ChSlotDrop. Qed.

Lemma changes_delete_slot c site b : within changes (delete_slot c site b).
Proof.
  destruct (changes_reads site c) as (Hfind & _). pose proof changes_slots_delete.
  pose proof (@changes_audit _ (staging_change sync) PromotionServiceError).
  unfold delete_slot, staging, fs_unit. within_tac.
Qed.

Lemma changes_set_mail_capture c site b : within changes (set_mail_capture c site b).
Proof.
  destruct (changes_reads site c) as (Hfind & Hload & _). unfold set_mail_capture, staging.
  apply within_bind; [apply _|apply within_lift, _|intros _].
  apply within_bind; [apply _|exact Hload|intros _].
  intros w. apply bind_at; [apply _|by apply map_err_at|].
  intros o w1 [Hdb Hf]%map_err_ok%slots_find_by_site_run.
  apply bind_at; [apply _|apply within_ok_or, _|]. intros s w2 [-> ->]%ok_or_ok.
  destruct Hf as (r & Hf & Hs). apply List.find_some in Hf as [Hin _].
  apply bind_at; [apply _|apply changes_tick|]. intros t w3 [= <- <-].
  apply bind_at; [apply _| |].
  - eapply map_err_at, changes_slots_update; [by cbn; rewrite Hdb|done|constructor].
  - intros ? w4 _. apply bind_at; [apply _|apply changes_audit|]. intros. reflexivity.
Qed.

(** Only a synchronisation takes snapshots. *)
Definition is_sync (op : StagingOp) : bool := match op with OpSync _ _ => true | _ => false end.

Lemma run_staging_changes op w : (is_sync op = true → sync = true) → changes w (run_staging op w).
Proof.
  intros Hop. destruct op; cbn [run_staging].
  - apply changes_create_slot.
  - apply changes_delete_slot.
  - by apply changes_sync_snapshot, Hop.
  - apply changes_promote.
  - apply changes_set_mail_capture.
Qed.
End staging_changes.

(** ** Sequences of operations of the two services *)

Inductive hosting_step `{Env} `{Nginx} `{SqliteTime} `{StagingFs} : World → World → Prop :=
| HostingSite op w : hosting_step w (run_site op w)
| HostingStaging op w : hosting_step w (run_staging op w).

(** A property that every change keeps is kept by every sequence of operations. *)
Lemma hosting_invariant `{Env} `{Nginx} `{SqliteTime} `{StagingFs} (J : HostingTables → Prop) w w' :
  (∀ h h', hosting_change h h' → J h → J h') →
  rtc hosting_step w w' → J (db_hosting (w_db w)) → J (db_hosting (w_db w')).
Proof.
  intros HJ Hsteps.
  assert (∀ h h', rtc hosting_change h h' → J h → J h') as HJ'.
  { induction 1 as [|h h1 h' Hc _ IH]; [done|]. eauto. }
  induction Hsteps as [|w w1 w' Hs _ IH]; [done|]. intros Hw. apply IH.
  refine (HJ' _ _ _ Hw). destruct Hs.
  - eapply rtc_subrel, run_site_changes. by left.
  - eapply rtc_subrel; [|by apply (run_staging_changes true)]. by right.
Qed.

Lemma staging_op_keeps `{Env} `{SqliteTime} `{StagingFs} sync (J : HostingTables → Prop) op w :
  (∀ h h', staging_change sync h h' → J h → J h') → (is_sync op = true → sync = true) →
  J (db_hosting (w_db w)) → J (db_hosting (w_db (run_staging op w))).
Proof.
  intros HJ Hop. generalize (run_staging_changes sync op w Hop). unfold on_db, on_tables.
  induction 1 as [|h h1 h' Hc _ IH']; [done|]. eauto.
Qed.

Lemma staging_invariant `{Env} `{SqliteTime} `{StagingFs} (J : HostingTables → Prop) w w' :
  (∀ h h', staging_change true h h' → J h → J h') →
  rtc staging_step w w' → J (db_hosting (w_db w)) → J (db_hosting (w_db w')).
Proof.
  intros HJ Hsteps. induction Hsteps as [|w w1 w' [op w0] _ IH]; [done|]. intros Hw. apply IH.
  by apply (staging_op_keeps true).
Qed.
