(* ===== verification/Parts.v ===== *)
(** * A group of tables as a component of the hosting tables

    A context that keeps its tables in one field of [HostingTables] is an instance of [Part].
    Its statements, and what one can say of the runs of its methods, are then the same for every
    context: [moves R] relates two worlds whose tables differ by a sequence of changes in [R],
    [quiet] two worlds whose tables are the same. *)
From S2P Require Import Prelude Text AuditActions AuditLog Accounts Paths CronJobs HostingTables Store Users Sites Staging StagingChanges.

Class Part (T : Type) := {
  part : HostingTables → T;
  set_part : T → HostingTables → HostingTables;
  part_set_part x h : part (set_part x h) = x
}.
Abbreviation part_of w := (part (db_hosting (w_db w))).

Section statements.
Context {T} `{Part T}.

Definition part_statement {A} (f : T → result (A * T) string) : Db → result (A * Db) string :=
  hosting_statement (λ h, match f (part h) with
                          | Ok (x, t) => Ok (x, set_part t h)
                          | Err e => Err e
                          end).
Definition on_part (f : T → T) : Db → Db := on_hosting (λ h, set_part (f (part h)) h).
End statements.

Section moves.
Context `{Env} {T} `{Part T} (R : relation T).

Definition part_changes (h h' : HostingTables) : Prop := rtc R (part h) (part h').
#[export] Instance part_changes_preorder : PreOrder part_changes.
Proof.
  unfold part_changes. split; [intros h; reflexivity | intros h1 h2 h3 Ha Hb; by etransitivity].
Qed.
Abbreviation moves := (on_db (on_tables part_changes)).

Lemma moves_statement {A} (f : T → result (A * T) string) w :
  (∀ x t, f (part_of w) = Ok (x, t) → rtc R (part_of w) t) →
  moves w (statement (part_statement f) w).2.
Proof.
  intros Hf. unfold statement, part_statement, hosting_statement.
  destruct (sql_fault _); [apply on_db_tick, _|].
  destruct (f _) as [[x t]|] eqn:E; [|apply on_db_tick, _].
  unfold on_db, on_tables, part_changes. cbn. rewrite part_set_part. by eapply Hf.
Qed.

Lemma moves_execute (f : T → T) w :
  rtc R (part_of w) (f (part_of w)) → moves w (execute (on_part f) w).2.
Proof.
  intros Hf. unfold execute, statement. destruct (sql_fault _); [apply on_db_tick, _|].
  unfold on_db, on_tables, part_changes. cbn. by rewrite part_set_part.
Qed.

Lemma moves_modify {E} (f : T → T) w :
  rtc R (part_of w) (f (part_of w)) → moves w (modify (E:=E) (with_db (on_part f)) w).2.
Proof. intros Hf. unfold on_db, on_tables, part_changes. cbn. by rewrite part_set_part. Qed.

(** What every change keeps, the runs keep. *)
Lemma moves_keeps (I : T → Prop) w w' :
  (∀ t t', R t t' → I t → I t') → moves w w' → I (part_of w) → I (part_of w').
Proof.
  intros Hc Hm. unfold on_db, on_tables, part_changes in Hm. induction Hm as [|t1 t2 t3 Ht _ IH]; eauto.
Qed.

Lemma moves_on_users (f : Db → Db) :
  (∀ d, db_hosting (f d) = db_hosting d) → within moves (execute f).
Proof.
  intros Hf. apply on_db_execute; [apply _|]. intros d. unfold on_tables. rewrite Hf. reflexivity.
Qed.
End moves.
Abbreviation moves R := (on_db (on_tables (part_changes R))).

(** *** Runs *)

Section runs.
Context `{Env} {T} `{Part T}.

Lemma part_statement_run {A} (f : T → result (A * T) string) w a w' :
  statement (part_statement f) w = (Ok a, w') →
  f (part_of w) = Ok (a, part_of w') ∧ w_step w' = S (w_step w).
Proof.
  unfold statement, part_statement, hosting_statement. destruct (sql_fault _); [done|].
  destruct (f _) as [[x t]|] eqn:E; [|done]. intros [= <- <-]. cbn. by rewrite part_set_part.
Qed.

Lemma on_part_run (f : T → T) w a w' :
  execute (on_part f) w = (Ok a, w') → part_of w' = f (part_of w) ∧ w_step w' = S (w_step w).
Proof.
  unfold execute, statement. destruct (sql_fault _); [done|]. intros [= _ <-]. cbn.
  by rewrite part_set_part.
Qed.

(** The tables stay, the counter may move on. *)
Definition quiet (w w' : World) : Prop := (w_step w ≤ w_step w')%nat ∧ part_of w' = part_of w.
#[export] Instance quiet_preorder : PreOrder quiet.
Proof.
  unfold quiet. split; [intros w; split; [lia|done]|].
  intros w1 w2 w3 [H1 H2] [H3 H4]. split; [lia | congruence].
Qed.

Lemma quiet_tick w : quiet w (tick w).
Proof. unfold quiet. cbn. split; [lia | done]. Qed.
Lemma quiet_statement {A} (f : Db → result (A * Db) string) :
  (∀ d a d', f d = Ok (a, d') → db_hosting d' = db_hosting d) → within quiet (statement f).
Proof.
  intros Hf w. unfold statement. destruct (sql_fault _); [apply quiet_tick|].
  destruct (f _) as [[a d']|] eqn:E; [|apply quiet_tick]. unfold quiet. cbn. apply Hf in E. rewrite E. split; [lia|done].
Qed.
Lemma quiet_stop {A} (f : Db → result (A * Db) string) w e w' :
  statement f w = (Err e, w') → quiet w w'.
Proof.
  unfold statement. destruct (sql_fault _); [intros [= _ <-]; apply quiet_tick|].
  destruct (f _) as [[a d']|]; [done|]. intros [= _ <-]. apply quiet_tick.
Qed.
Lemma quiet_now {E} : within quiet (now (E:=E)).
Proof. intros w. apply quiet_tick. Qed.
Lemma quiet_fresh_uuid {E} : within quiet (fresh_uuid (E:=E)).
Proof. intros w. apply quiet_tick. Qed.
Lemma quiet_select {A} (f : Db → A) : within quiet (select f).
Proof. apply quiet_statement. by intros d a d' [= _ <-]. Qed.
Lemma quiet_execute (f : Db → Db) : (∀ d, db_hosting (f d) = db_hosting d) → within quiet (execute f).
Proof. intros Hf. apply quiet_statement. intros d a d' [= _ <-]. apply Hf. Qed.
Lemma quiet_recorded {E} actor action outcome build :
  within quiet (audit (E:=E) actor action outcome build).
Proof.
  unfold audit, record. apply within_bind; [apply _|apply quiet_now|]. intros ts.
  apply within_bind; [apply _| |intros; apply within_ret, _].
  by apply within_attempt, quiet_execute.
Qed.

Lemma quiet_at {E A} (c : M World E A) w r w' : within quiet c → c w = (r, w') → quiet w w'.
Proof. intros Hc Hr. specialize (Hc w). by rewrite Hr in Hc. Qed.
End runs.
#[export] Hint Resolve quiet_now quiet_fresh_uuid quiet_select quiet_recorded : within.
#[export] Hint Resolve quiet_tick : within.
