(* ===== verification/PlanService.v ===== *)
(** * Hosting plans, repository and service

    [crates/openpanel-app/src/hosting_plans/repo.rs] and [service.rs]: the two tables, the
    lifecycle of a plan, its assignment to users and the cached resolver. *)
From S2P Require Import Prelude Text AuditActions AuditLog Accounts Paths CronJobs Plans HostingTables Store Users Sites Staging StagingChanges Parts.
Open Scope N_scope.

(** ** Rows *)

Definition plan_status_str (s : PlanStatus) : string :=
  match s with StatusActive => "active" | StatusDisabled => "disabled" end.
Definition parse_plan_status (raw : string) : result PlanStatus HostingPlansError :=
  if String.eqb raw "active" then Ok StatusActive
  else if String.eqb raw "disabled" then Ok StatusDisabled
  else Err (PlanPersistence ("unknown plan status `" +:+ raw +:+ "`")).

Definition plan_row (p : HostingPlan) : PlanRow :=
  mkPlanRow (plan_id p) (plan_name p) (plan_description p) (plan_prices p) (plan_features p)
    (plan_quota_caps p) (plan_allowed_apps p) (plan_allowed_php_runtimes p)
    (plan_status_str (plan_status p)) (plan_created_at p) (plan_updated_at p).
Definition into_plan (r : PlanRow) : result HostingPlan HostingPlansError :=
  status <-? parse_plan_status (hp_status r) ;;
  plan_restore (hp_id r) (hp_name r) (hp_description r) (hp_prices r) (hp_features r)
    (hp_quota_caps r) (hp_allowed_apps r) (hp_allowed_php_runtimes r) status (hp_created_at r)
    (hp_updated_at r).

(** [SET] of the update: the identifier and the creation instant stay. *)
Definition plan_row_update (p : HostingPlan) (r : PlanRow) : PlanRow :=
  mkPlanRow (hp_id r) (plan_name p) (plan_description p) (plan_prices p) (plan_features p)
    (plan_quota_caps p) (plan_allowed_apps p) (plan_allowed_php_runtimes p)
    (plan_status_str (plan_status p)) (hp_created_at r) (plan_updated_at p).

Definition assignment_row (a : PlanAssignment) : AssignmentRow :=
  mkAssignmentRow (asg_user_id a) (asg_plan_id a) (asg_assigned_at a) (asg_assigned_by a) None.
Definition into_assignment (r : AssignmentRow) : PlanAssignment :=
  mkAssignment (ua_user_id r) (ua_plan_id r) (ua_assigned_at r) (ua_assigned_by r) (ua_replaced_at r).

Definition plan_is (id : Uuid) (r : PlanRow) : bool := hp_id r =? id.
Definition plan_named (name : string) (r : PlanRow) : bool := String.eqb (hp_name r) name.
Definition on_plan (id : Uuid) (r : AssignmentRow) : bool := ua_plan_id r =? id.
Definition row_current (r : AssignmentRow) : bool := bool_decide (ua_replaced_at r = None).
Definition current_of (user : Uuid) (r : AssignmentRow) : bool :=
  (ua_user_id r =? user) && row_current r.
Definition assignment_replaced (t : DateTime) (r : AssignmentRow) : AssignmentRow :=
  mkAssignmentRow (ua_user_id r) (ua_plan_id r) (ua_assigned_at r) (ua_assigned_by r) (Some t).

(** [ORDER BY assigned_at DESC LIMIT 1] and [ORDER BY created_at]. *)
Definition newest_assignment (r1 r2 : AssignmentRow) : Prop := (ua_assigned_at r2 ≤ ua_assigned_at r1)%Z.
#[export] Instance newest_assignment_dec : RelDecision newest_assignment.
Proof. unfold newest_assignment. intros r1 r2. apply _. Defined.
Definition latest_current (user : Uuid) (t : PlanTables) : option AssignmentRow :=
  head (merge_sort newest_assignment (select_where (current_of user) (pl_assignments t))).
Definition plan_by_created (r1 r2 : PlanRow) : Prop := (hp_created_at r1 ≤ hp_created_at r2)%Z.
#[export] Instance plan_by_created_dec : RelDecision plan_by_created.
Proof. unfold plan_by_created. intros r1 r2. apply _. Defined.

(** ** Statements *)

Definition duplicate_plan : string := "UNIQUE constraint failed: hosting_plans".
Definition plan_referenced : string := "FOREIGN KEY constraint failed".

Definition insert_plan_row (r : PlanRow) (t : PlanTables) : result (unit * PlanTables) string :=
  if existsb (plan_is (hp_id r)) (pl_plans t) || existsb (plan_named (hp_name r)) (pl_plans t)
  then Err duplicate_plan
  else Ok (tt, set_plans (pl_plans t ++ [r])%list t).

(** The name is checked against the rows of other plans, when a row is updated at all. *)
Definition update_plan_row (p : HostingPlan) (t : PlanTables) : result (unit * PlanTables) string :=
  if existsb (plan_is (plan_id p)) (pl_plans t)
     && existsb (λ r, negb (plan_is (plan_id p) r) && plan_named (plan_name p) r) (pl_plans t)
  then Err duplicate_plan
  else Ok (tt, set_plans (update_where (plan_is (plan_id p)) (plan_row_update p) (pl_plans t)) t).

(** [ON DELETE RESTRICT] looks at every assignment, the replaced ones too. *)
Definition delete_plan_row (id : Uuid) (t : PlanTables) : result (unit * PlanTables) string :=
  if existsb (plan_is id) (pl_plans t) && existsb (on_plan id) (pl_assignments t)
  then Err plan_referenced
  else Ok (tt, set_plans (delete_where (plan_is id) (pl_plans t)) t).

Definition insert_assignment_row (r : AssignmentRow) (t : PlanTables)
    : result (unit * PlanTables) string :=
  if existsb (λ x, (ua_user_id x =? ua_user_id r) && (ua_assigned_at x =? ua_assigned_at r)%Z)
       (pl_assignments t)
  then Err "UNIQUE constraint failed: user_plan_assignments"
  else if negb (existsb (plan_is (ua_plan_id r)) (pl_plans t)) then Err plan_referenced
  else Ok (tt, set_assignments (pl_assignments t ++ [r])%list t).

Definition replace_current (user : Uuid) (t : DateTime) (p : PlanTables) : PlanTables :=
  set_assignments (update_where (current_of user) (assignment_replaced t) (pl_assignments p)) p.

#[export] Program Instance plan_part : Part PlanTables :=
  {| part := ht_plans; set_part := set_plan_tables |}.
Next Obligation. done. Qed.

(** The error of a violated constraint says [UNIQUE]; the texts of other errors do not. *)
Definition is_unique_violation (e : RepoError) : bool := contains_str e "UNIQUE".

Section plan_repo.
Context `{Env}.
Abbreviation MP A := (M World HostingPlansError A).
Abbreviation plans d := (ht_plans (db_hosting d)).

Definition plan_db {A} (c : M World RepoError A) : MP A := map_err PlanPersistence c.
Definition duplicate_or_persistence (e : RepoError) : HostingPlansError :=
  if is_unique_violation e then DuplicateName else PlanPersistence e.

Definition plan_insert (p : HostingPlan) : MP unit :=
  map_err duplicate_or_persistence (statement (part_statement (insert_plan_row (plan_row p)))).
Definition fetch_plan (q : PlanRow → bool) : MP (option HostingPlan) :=
  row <- plan_db (select (λ d, List.find q (pl_plans (plans d)))) ;;
  lift (transpose into_plan row).
Definition plan_find_by_id (id : Uuid) : MP (option HostingPlan) := fetch_plan (plan_is id).
Definition plan_find_by_name (name : string) : MP (option HostingPlan) := fetch_plan (plan_named name).
Definition plan_list : MP (list HostingPlan) :=
  rows <- plan_db (select (λ d, merge_sort plan_by_created (pl_plans (plans d)))) ;;
  lift (collect into_plan rows).
Definition plan_update (p : HostingPlan) : MP unit :=
  map_err duplicate_or_persistence (statement (part_statement (update_plan_row p))).

Definition count_assignments (id : Uuid) : MP Z :=
  plan_db (select (λ d, Z.of_nat (length
    (select_where (λ r, on_plan id r && row_current r) (pl_assignments (plans d)))))).
Definition plan_delete (id : Uuid) : MP unit :=
  count <- count_assignments id ;;
  if (0 <? count)%Z then throw PlanInUse
  else plan_db (statement (part_statement (delete_plan_row id))).

Definition insert_assignment (a : PlanAssignment) : MP unit :=
  plan_db (in_transaction (λ e, e) (λ e, e)
    (statement (part_statement (insert_assignment_row (assignment_row a))))).

(** The same statements twice in the source. *)
Definition replace_current_assignment (user : Uuid) (t : DateTime) : MP (option Uuid) :=
  prev <- plan_db (select (λ d, ua_plan_id <$> latest_current user (plans d))) ;;
  plan_db (execute (on_part (replace_current user t))) ;;;
  ret prev.
Definition remove_current_assignment (user : Uuid) (t : DateTime) : MP (option Uuid) :=
  prev <- plan_db (select (λ d, ua_plan_id <$> latest_current user (plans d))) ;;
  plan_db (execute (on_part (replace_current user t))) ;;;
  ret prev.
Definition current_assignment (user : Uuid) : MP (option PlanAssignment) :=
  row <- plan_db (select (λ d, latest_current user (plans d))) ;;
  ret (into_assignment <$> row).
Definition plan_exists (id : Uuid) : M World RepoError bool :=
  n <- select (λ d, length (select_where (plan_is id) (pl_plans (plans d)))) ;;
  ret (0 <? n)%nat.
End plan_repo.

(** ** [HostingPlansService] *)

Definition CACHE_TTL_SECONDS : Z := 60.
Definition role_default : EffectiveQuotas :=
  mkEffective (10 * 1024 * 1024 * 1024) (100 * 1024 * 1024 * 1024) 5 5 2 10 25 4 0.

Section plan_service.
Context `{Env}.
Abbreviation MP A := (M World HostingPlansError A).
Abbreviation plans d := (ht_plans (db_hosting d)).

Definition on_cache (f : gmap Uuid (EffectiveQuotas * DateTime) → gmap Uuid (EffectiveQuotas * DateTime))
    : World → World :=
  with_db (on_part (λ t, set_cache (f (pl_cache t)) t)).
Definition cache_hit {E} (user : Uuid) : M World E (option EffectiveQuotas) :=
  entry <- gets (λ w, pl_cache (plans (w_db w)) !! user) ;;
  match entry with
  | None => ret None
  | Some (caps, stored_at) =>
      t <- now ;;
      ret (if (num_seconds (t - stored_at) <=? CACHE_TTL_SECONDS)%Z then Some caps else None)
  end.
Definition cache_store {E} (user : Uuid) (caps : EffectiveQuotas) : M World E unit :=
  t <- now ;; modify (on_cache (insert user (caps, t))).
Definition invalidate_cache {E} (user : option Uuid) : M World E unit :=
  modify (on_cache (λ c, match user with Some id => delete id c | None => ∅ end)).

Definition find_plan (id : Uuid) : MP HostingPlan :=
  o <- plan_find_by_id id ;; ok_or o PlanNotFound.

Definition create_plan (name description : string) (caps : PlanQuotas) (actor : string) : MP HostingPlan :=
  id <- fresh_uuid ;;
  t1 <- now ;;
  t2 <- now ;;
  plan <- lift (plan_new id name description caps t1 t2) ;;
  plan_insert plan ;;;
  audit actor PlanCreated Success
    (λ e, with_metadata (JObject [("name", JString (plan_name plan))])
            (with_target (uuid_text (plan_id plan)) e)) ;;;
  ret plan.

(** [for (feature, state) in new_features], in the order of the keys. *)
Fixpoint set_features (l : list (PlanFeature * PlanFeatureState)) (p : HostingPlan) : MP HostingPlan :=
  match l with
  | [] => ret p
  | (f, s) :: l => t <- now ;; set_features l (set_feature f s t p)
  end.
Definition features_in_order (m : gmap PlanFeature PlanFeatureState)
    : list (PlanFeature * PlanFeatureState) :=
  omap (λ f, (λ s, (f, s)) <$> m !! f) all_features.

Definition update_plan (id : Uuid) (caps : PlanQuotas) (features : gmap PlanFeature PlanFeatureState)
    (actor : string) : MP HostingPlan :=
  plan <- find_plan id ;;
  if (disk_bytes caps <? disk_bytes (plan_quota_caps plan))%Z then throw WouldShrinkBelowUsage
  else if (bandwidth_bytes_per_month caps <? bandwidth_bytes_per_month (plan_quota_caps plan))%Z
  then throw WouldShrinkBelowUsage
  else
    t <- now ;;
    plan <- set_features (features_in_order features) (set_quota_caps caps t plan) ;;
    plan_update plan ;;;
    invalidate_cache None ;;;
    audit actor PlanUpdated Success
      (λ e, with_metadata (JObject [("name", JString (plan_name plan))])
              (with_target (uuid_text (plan_id plan)) e)) ;;;
    ret plan.

Definition change_plan_status (change : DateTime → HostingPlan → HostingPlan) (action : AuditAction)
    (id : Uuid) (actor : string) : MP unit :=
  plan <- find_plan id ;;
  t <- now ;;
  plan_update (change t plan) ;;;
  invalidate_cache None ;;;
  audit actor action Success (with_target (uuid_text (plan_id plan))).
Definition disable_plan : Uuid → string → MP unit := change_plan_status plan_disable PlanDisabled.
Definition enable_plan : Uuid → string → MP unit := change_plan_status plan_enable PlanEnabled.

Definition clone_plan (source : Uuid) (name : string) (actor : string) : MP HostingPlan :=
  plan <- find_plan source ;;
  id <- fresh_uuid ;;
  t1 <- now ;;
  t2 <- now ;;
  clone <- lift (clone_with_name id name t1 t2 plan) ;;
  plan_insert clone ;;;
  audit actor PlanCloned Success
    (λ e, with_metadata (JObject [("source", JString (uuid_text (plan_id plan)));
                                  ("name", JString (plan_name clone))])
            (with_target (uuid_text (plan_id clone)) e)) ;;;
  ret clone.

Definition delete_plan (id : Uuid) (actor : string) : MP unit :=
  count <- count_assignments id ;;
  if (0 <? count)%Z then
    audit actor PlanDeleteBlocked Failure
      (λ e, with_metadata (JObject [("assignments", JNumber (of_bytes (show_Z count)))]) (with_target (uuid_text id) e)) ;;;
    throw PlanInUse
  else
    plan_delete id ;;;
    invalidate_cache None ;;;
    audit actor PlanDeleted Success (with_target (uuid_text id)).

Definition reassigned_event (user plan : Uuid) (prev : option Uuid) : AuditAction * Json :=
  match prev with
  | Some from => (PlanReassigned, JObject [("from", JString (uuid_text from)); ("to", JString (uuid_text plan))])
  | None => (PlanAssigned, JObject [("plan_id", JString (uuid_text plan))])
  end.

Definition assign_plan (id user : Uuid) (actor : string) (actor_id : Uuid) : MP PlanAssignment :=
  plan <- find_plan id ;;
  if negb (accepts_assignments plan) then throw PlanDisabledError
  else
    found <- plan_db (users_find_by_id user) ;;
    ok_or found PlanUserNotFound ;;;
    t <- now ;;
    prev <- replace_current_assignment user t ;;
    let a := assignment_new user id actor_id t in
    insert_assignment a ;;;
    invalidate_cache (Some user) ;;;
    plan_db (users_update_hosting_plan_id user (Some id)) ;;;
    audit actor (reassigned_event user id prev).1 Success
      (λ e, with_metadata (reassigned_event user id prev).2 (with_target (uuid_text user) e)) ;;;
    ret a.

Definition unassign_plan (user : Uuid) (actor : string) : MP unit :=
  t <- now ;;
  o <- remove_current_assignment user t ;;
  match o with
  | Some prev =>
      plan_db (users_update_hosting_plan_id user None) ;;;
      invalidate_cache (Some user) ;;;
      audit actor PlanUnassigned Success
        (λ e, with_metadata (JObject [("plan_id", JString (uuid_text prev))])
                (with_target (uuid_text user) e))
  | None => ret tt
  end.

(** What the repository says of a user: a failed read counts as no plan. *)
Definition resolve_caps {E} (user : Uuid) : M World E EffectiveQuotas :=
  a <- try_run (current_assignment user) ;;
  match a with
  | Ok (Some assignment) =>
      p <- try_run (plan_find_by_id (asg_plan_id assignment)) ;;
      match p with
      | Ok (Some plan) => ret (from_caps (plan_quota_caps plan))
      | _ => ret role_default
      end
  | _ => ret role_default
  end.
Definition effective_caps {E} (user : Uuid) : M World E EffectiveQuotas :=
  cached <- cache_hit user ;;
  match cached with
  | Some caps => ret caps
  | None =>
      caps <- resolve_caps user ;;
      cache_store user caps ;;;
      ret caps
  end.

(** [PlanResolver::effective], the synchronous one. *)
Definition resolver_effective {E} (user : Uuid) : M World E EffectiveQuotas :=
  cached <- cache_hit user ;;
  ret (default role_default cached).
Definition effective_async {E} (user : Uuid) : M World E EffectiveQuotas :=
  cached <- cache_hit user ;;
  match cached with
  | Some caps => ret caps
  | None => cache_store user role_default ;;; ret role_default
  end.
End plan_service.
