(* ===== verification/PlanTheorems.v ===== *)
(** * Hosting plans: theorems

    What each statement does to the plan tables, and the invariant that every sequence of
    requests keeps. *)
From S2P Require Import Prelude Text AuditActions AuditLog Accounts Paths CronJobs Plans HostingTables Store Users Sites Staging StagingChanges Parts PlanService.
Open Scope N_scope.

(** ** Rows *)

Lemma runtime_parse_id s x : runtime_parse s = Ok x → x = s.
Proof. unfold runtime_parse. repeat case_match; by intros [= <-]. Qed.

Lemma collect_id {A E} (f : A → result A E) l l' :
  (∀ x y, f x = Ok y → y = x) → collect f l = Ok l' → l' = l.
Proof.
  intros Hf. revert l'. induction l as [|x l IH]; intros l'; cbn; [by intros [= <-]|].
  destruct (f x) as [y|] eqn:E1; [|done]. cbn. destruct (collect f l) as [ys|]; [|done]. cbn.
  intros [= <-]. f_equal; [by apply Hf | by apply IH].
Qed.

Lemma parse_plan_status_str s : parse_plan_status (plan_status_str s) = Ok s.
Proof. by destruct s. Qed.

(** A plan that was read has the fields of its row and can be written back. *)
Lemma into_plan_fields r p :
  into_plan r = Ok p →
  plan_id p = hp_id r ∧ plan_name p = hp_name r ∧ plan_quota_caps p = hp_quota_caps r
  ∧ parse_plan_status (hp_status r) = Ok (plan_status p)
  ∧ is_ok (collect runtime_parse (plan_allowed_php_runtimes p)) = true.
Proof.
  unfold into_plan, plan_restore. destruct (parse_plan_status _) as [st|]; [|done]. cbn.
  destruct (collect runtime_parse _) as [l|] eqn:E; [|done]. cbn. intros [= <-]. cbn.
  split_and!; try done. rewrite (collect_id _ _ _ runtime_parse_id E) in *. by rewrite E.
Qed.

Definition plan_ok (p : HostingPlan) : Prop :=
  is_ok (collect runtime_parse (plan_allowed_php_runtimes p)) = true
  ∧ 3 <= str_len (plan_name p) ∧ str_len (plan_name p) <= 64.
Definition plan_row_ok (r : PlanRow) : Prop :=
  is_ok (into_plan r) = true ∧ 3 <= str_len (hp_name r) ∧ str_len (hp_name r) <= 64.

Lemma plan_row_update_ok p r : plan_ok p → plan_row_ok (plan_row_update p r).
Proof.
  intros (Hr & Hn). split; [|done]. unfold into_plan, plan_restore. cbn.
  rewrite parse_plan_status_str. cbn. by destruct (collect _ _).
Qed.
Lemma new_plan_row_ok p : plan_ok p → plan_row_ok (plan_row p).
Proof. intros Hp. apply (plan_row_update_ok p (plan_row p) Hp). Qed.

Lemma plan_new_ok id name d caps t1 t2 p : plan_new id name d caps t1 t2 = Ok p → plan_ok p ∧ plan_id p = id.
Proof.
  unfold plan_new. destruct (_ || _) eqn:E; [done|]. intros [= <-]. split; [|done]. split; [done|]. cbn.
  apply orb_false_iff in E as [E1%N.ltb_ge E2%N.ltb_ge]. done.
Qed.
Lemma clone_ok id name t1 t2 src r p :
  into_plan r = Ok src → clone_with_name id name t1 t2 src = Ok p → plan_ok p.
Proof.
  intros (_ & _ & _ & _ & Hr)%into_plan_fields. unfold clone_with_name.
  destruct (plan_new _ _ _ _ _ _) as [c|] eqn:E; [|done]. cbn. intros [= <-].
  apply plan_new_ok in E as [(_ & Hn) _]. by split.
Qed.

(** ** The tables *)

Definition assignment_key (r : AssignmentRow) : Uuid * DateTime := (ua_user_id r, ua_assigned_at r).
Definition current_rows (t : PlanTables) : list AssignmentRow := select_where row_current (pl_assignments t).

Record plan_wf (t : PlanTables) : Prop := {
  wf_plan_ids : NoDup (map hp_id (pl_plans t));
  wf_plan_names : NoDup (map hp_name (pl_plans t));
  wf_plan_rows : ∀ r, In r (pl_plans t) → plan_row_ok r;
  wf_assignment_keys : NoDup (map assignment_key (pl_assignments t));
  wf_plan_known : ∀ a, In a (pl_assignments t) → In (ua_plan_id a) (map hp_id (pl_plans t));
  wf_one_plan : NoDup (map ua_user_id (current_rows t))
}.

(** What one statement, or one access to the cache, does. *)
Inductive plan_change : relation PlanTables :=
| PcInsert p t t' : plan_ok p → insert_plan_row (plan_row p) t = Ok (tt, t') → plan_change t t'
| PcUpdate r p t :
    In r (pl_plans t) → plan_id p = hp_id r → plan_name p = hp_name r → plan_ok p →
    plan_change t (set_plans (update_where (plan_is (plan_id p)) (plan_row_update p) (pl_plans t)) t)
| PcDelete id t t' : delete_plan_row id t = Ok (tt, t') → plan_change t t'
| PcAssign r t t' :
    ua_replaced_at r = None → existsb (current_of (ua_user_id r)) (pl_assignments t) = false →
    insert_assignment_row r t = Ok (tt, t') → plan_change t t'
| PcReplace user now t : plan_change t (replace_current user now t)
| PcCache c t : plan_change t (set_cache c t).

Lemma existsb_id_In id t : existsb (plan_is id) t = true ↔ In id (map hp_id t).
Proof.
  rewrite existsb_exists, in_map_iff. unfold plan_is. split; intros (x & Hx & Hy).
  - apply N.eqb_eq in Hy. eauto.
  - exists x. split; [done|]. by apply N.eqb_eq.
Qed.
Lemma existsb_name_In n t : existsb (plan_named n) t = true ↔ In n (map hp_name t).
Proof.
  rewrite existsb_exists, in_map_iff. unfold plan_named. split; intros (x & Hx & Hy).
  - apply String.eqb_eq in Hy. eauto.
  - exists x. split; [done|]. by apply String.eqb_eq.
Qed.
Lemma current_of_true user r : current_of user r = true ↔ ua_user_id r = user ∧ ua_replaced_at r = None.
Proof. unfold current_of, row_current. by rewrite andb_true_iff, N.eqb_eq, bool_decide_eq_true. Qed.

Lemma insert_plan_inv r t t' :
  insert_plan_row r t = Ok (tt, t') →
  ~ In (hp_id r) (map hp_id (pl_plans t)) ∧ ~ In (hp_name r) (map hp_name (pl_plans t))
  ∧ t' = set_plans (pl_plans t ++ [r])%list t.
Proof.
  unfold insert_plan_row. destruct (_ || _) eqn:E; [done|]. intros [= <-].
  apply orb_false_iff in E as [E1 E2]. split_and!; [| |done].
  - intros Hin%existsb_id_In. congruence.
  - intros Hin%existsb_name_In. congruence.
Qed.
Lemma delete_plan_inv id t t' :
  delete_plan_row id t = Ok (tt, t') →
  t' = set_plans (delete_where (plan_is id) (pl_plans t)) t
  ∧ (In id (map hp_id (pl_plans t)) → ∀ a, In a (pl_assignments t) → ua_plan_id a ≠ id).
Proof.
  unfold delete_plan_row. destruct (_ && _) eqn:E; [done|]. intros [= <-]. split; [done|].
  intros Hin%existsb_id_In a Ha. rewrite Hin in E. cbn in E.
  pose proof (proj1 (existsb_false _ _) E a Ha) as He. by apply N.eqb_neq.
Qed.
Lemma insert_assignment_inv r t t' :
  insert_assignment_row r t = Ok (tt, t') →
  ~ In (assignment_key r) (map assignment_key (pl_assignments t))
  ∧ In (ua_plan_id r) (map hp_id (pl_plans t))
  ∧ t' = set_assignments (pl_assignments t ++ [r])%list t.
Proof.
  unfold insert_assignment_row. destruct (existsb _ (pl_assignments t)) eqn:E; [done|].
  destruct (existsb _ (pl_plans t)) eqn:E2; [|done]. intros [= <-]. split_and!; [| |done].
  - intros (x & Hk & Hx)%in_map_iff. pose proof (proj1 (existsb_false _ _) E x Hx) as Hn. cbn in Hn.
    injection Hk as H1 H2. by rewrite H1, H2, N.eqb_refl, Z.eqb_refl in Hn.
  - by apply existsb_id_In.
Qed.

(** *** The rows of [replace_current] *)

Lemma replaced_current user now t :
  select_where row_current (update_where (current_of user) (assignment_replaced now) t)
  = delete_where (current_of user) (select_where row_current t).
Proof.
  unfold select_where, update_where, delete_where. induction t as [|r t IH]; [done|]. cbn.
  unfold current_of at 1. destruct (row_current r) eqn:E.
  - rewrite andb_true_r. destruct (ua_user_id r =? user) eqn:Eu.
    + cbn. unfold current_of. rewrite Eu, E. cbn. apply IH.
    + rewrite E. cbn. unfold current_of. rewrite Eu. cbn. f_equal. apply IH.
  - rewrite andb_false_r, E. apply IH.
Qed.
Lemma replaced_none user now t :
  existsb (current_of user) (update_where (current_of user) (assignment_replaced now) t) = false.
Proof.
  apply existsb_false. intros r (x & _ & ->)%update_where_In.
  destruct (current_of user x) eqn:E; [|done]. unfold current_of. cbn. by rewrite andb_false_r.
Qed.

(** *** Each change keeps the invariant *)

Lemma wf_insert_plan p t t' :
  plan_ok p → insert_plan_row (plan_row p) t = Ok (tt, t') → plan_wf t → plan_wf t'.
Proof.
  intros Hp (Hi & Hn & ->)%insert_plan_inv [H1 H2 H3 H4 H5 H6].
  split; cbn [set_plans pl_plans pl_assignments]; try done.
  - by apply NoDup_snoc.
  - by apply NoDup_snoc.
  - intros r [Hr|[<-|[]]]%in_app_or; [by apply H3|]. by apply new_plan_row_ok.
  - intros a Ha. rewrite map_app. apply in_or_app. left. by apply H5.
Qed.

Lemma updated_names r p t :
  NoDup (map hp_id t) → In r t → plan_id p = hp_id r → plan_name p = hp_name r →
  map hp_name (update_where (plan_is (plan_id p)) (plan_row_update p) t) = map hp_name t.
Proof.
  intros Hnd Hr Hid Hn. unfold update_where. rewrite map_map. apply map_ext_in. intros x Hx.
  destruct (plan_is _ x) eqn:E; [|done]. apply N.eqb_eq in E. cbn.
  assert (x = r) as -> by (eapply (NoDup_key_inj hp_id); [done..|congruence]). done.
Qed.
Lemma wf_update_plan r p t :
  In r (pl_plans t) → plan_id p = hp_id r → plan_name p = hp_name r → plan_ok p → plan_wf t →
  plan_wf (set_plans (update_where (plan_is (plan_id p)) (plan_row_update p) (pl_plans t)) t).
Proof.
  intros Hr Hid Hn Hp [H1 H2 H3 H4 H5 H6].
  split; cbn [set_plans pl_plans pl_assignments]; try done.
  - by rewrite update_where_key.
  - by rewrite (updated_names r).
  - intros x (y & Hy & ->)%update_where_In. destruct (plan_is _ y); [|by apply H3].
    by apply plan_row_update_ok.
  - intros a Ha. rewrite update_where_key by done. by apply H5.
Qed.
Lemma wf_delete_plan id t t' : delete_plan_row id t = Ok (tt, t') → plan_wf t → plan_wf t'.
Proof.
  intros (-> & Href)%delete_plan_inv [H1 H2 H3 H4 H5 H6].
  split; cbn [set_plans pl_plans pl_assignments]; try done.
  - by apply delete_where_NoDup.
  - by apply delete_where_NoDup.
  - intros r [Hr _]%delete_where_In. by apply H3.
  - intros a Ha. pose proof (H5 a Ha) as Hin. apply in_map_iff in Hin as (r & Hid & Hr).
    apply in_map_iff. exists r. split; [done|]. apply delete_where_In. split; [done|].
    apply N.eqb_neq. intros Heq. apply (Href ltac:(apply in_map_iff; eauto) a Ha). congruence.
Qed.
Lemma wf_assign r t t' :
  ua_replaced_at r = None → existsb (current_of (ua_user_id r)) (pl_assignments t) = false →
  insert_assignment_row r t = Ok (tt, t') → plan_wf t → plan_wf t'.
Proof.
  intros Hc Hno (Hk & Hp & ->)%insert_assignment_inv [H1 H2 H3 H4 H5 H6].
  split; cbn [set_assignments pl_plans pl_assignments]; try done.
  - by apply NoDup_snoc.
  - intros a [Ha|[<-|[]]]%in_app_or; [by apply H5 | done].
  - unfold current_rows, select_where. cbn [set_assignments pl_assignments]. rewrite List.filter_app.
    cbn. unfold row_current at 2. rewrite bool_decide_true by done. apply NoDup_snoc; [done|].
    intros (x & Hx & [Hin Hcur]%filter_In)%in_map_iff.
    pose proof (proj1 (existsb_false _ _) Hno x Hin) as Hn. unfold current_of in Hn.
    by rewrite Hx, Hcur, N.eqb_refl in Hn.
Qed.
Lemma wf_replace user now t : plan_wf t → plan_wf (replace_current user now t).
Proof.
  intros [H1 H2 H3 H4 H5 H6]. split; cbn [replace_current set_assignments pl_plans pl_assignments]; try done.
  - by rewrite update_where_key.
  - intros a (x & Hx & ->)%update_where_In. destruct (current_of user x); by apply (H5 x).
  - unfold current_rows. cbn. rewrite replaced_current. by apply delete_where_NoDup.
Qed.

Lemma plan_wf_change t t' : plan_change t t' → plan_wf t → plan_wf t'.
Proof.
  destruct 1; [by eapply wf_insert_plan | by eapply wf_update_plan | by eapply wf_delete_plan
              | by eapply wf_assign | apply wf_replace | by intros [??????]; split].
Qed.

(** ** The operations *)

Section operations.
Context `{Env}.
Abbreviation plans w := (ht_plans (db_hosting (w_db w))).
Abbreviation K := (moves plan_change).

Lemma fetch_plan_run q w o w' :
  fetch_plan q w = (Ok o, w') →
  w_db w' = w_db w ∧ found_row into_plan (List.find q (pl_plans (plans w))) o.
Proof.
  unfold fetch_plan, plan_db. intros Hf. inv_bind Hf. apply map_err_ok in R.
  apply select_run in R as (Hdb & -> & _). apply lift_ok in Hf as [Hf ->].
  apply transpose_found in Hf. done.
Qed.
Lemma find_plan_run id w p w' :
  find_plan id w = (Ok p, w') →
  w_db w' = w_db w ∧ ∃ r, In r (pl_plans (plans w)) ∧ hp_id r = id ∧ into_plan r = Ok p.
Proof.
  unfold find_plan. intros Hf. inv_bind Hf. apply fetch_plan_run in R as (Hdb & Ho).
  apply ok_or_ok in Hf as [-> ->]. split; [done|]. destruct Ho as (r & Hr & Hp).
  apply List.find_some in Hr as [Hin Hid%N.eqb_eq]. eauto.
Qed.

Lemma K_fetch q : within K (fetch_plan q).
Proof. unfold fetch_plan, plan_db. within_tac. Qed.
Lemma K_find id : within K (find_plan id).
Proof. pose proof (K_fetch (plan_is id)). unfold find_plan, plan_find_by_id. within_tac. Qed.

Lemma K_insert p : plan_ok p → within K (plan_insert p).
Proof.
  intros Hp w. unfold plan_insert. apply map_err_at, moves_statement. intros [] t Ht.
  by eapply rtc_once, PcInsert.
Qed.
Lemma K_update r p w :
  In r (pl_plans (plans w)) → plan_id p = hp_id r → plan_name p = hp_name r → plan_ok p →
  K w (plan_update p w).2.
Proof.
  intros Hr Hid Hn Hp. unfold plan_update. apply map_err_at, moves_statement. intros [] t.
  unfold update_plan_row. destruct (_ && _); [done|]. intros [= <-]. by eapply rtc_once, PcUpdate.
Qed.
Lemma K_cache {E} f : within K (modify (E:=E) (on_cache f)).
Proof. intros w. apply moves_modify, rtc_once, PcCache. Qed.
Lemma K_invalidate {E} o : within K (invalidate_cache (E:=E) o).
Proof. apply K_cache. Qed.
Lemma K_store {E} u c : within K (cache_store (E:=E) u c).
Proof.
  unfold cache_store. apply within_bind; [apply _|apply on_db_now, _|]. intros t. apply K_cache.
Qed.
Lemma K_hit {E} u : within K (cache_hit (E:=E) u).
Proof. unfold cache_hit. within_tac. Qed.
Lemma K_count id : within K (count_assignments id).
Proof. unfold count_assignments, plan_db. within_tac. Qed.
Lemma K_user_plan u p : within K (plan_db (users_update_hosting_plan_id u p)).
Proof. apply within_map_err. by apply moves_on_users. Qed.
Lemma K_user u : within K (plan_db (users_find_by_id u)).
Proof. unfold plan_db, users_find_by_id, fetch_user. within_tac. Qed.
Lemma K_current u : within K (current_assignment u).
Proof. unfold current_assignment, plan_db. within_tac. Qed.

Lemma in_transaction_at {A} (R : relation World) f g (c : M World RepoError A) w :
  (∀ k, R w (mkWorld k (w_db w))) → PreOrder R → (∀ k, R (mkWorld k (w_db w)) (c (mkWorld k (w_db w))).2) →
  (∀ w k, R w (mkWorld k (w_db w))) → R w (in_transaction f g c w).2.
Proof.
  intros Hw HR Hc Ht. unfold in_transaction.
  destruct (bind _ _ w) as [[a|e] w'] eqn:E; [|apply Hw]. cbn.
  inv_bind E. apply map_err_ok, select_run in R0 as (Hdb & _).
  inv_bind E. inv_bind E. apply map_err_ok, select_run in R1 as (Hdb3 & _). injection E as <- <-.
  assert (R w0 w1) as H1.
  { specialize (Hc (w_step w0)). rewrite <- Hdb in Hc. replace (mkWorld _ _) with w0 in Hc by by destruct w0.
    by rewrite R0 in Hc. }
  assert (R w w0) as H0 by (specialize (Hw (w_step w0)); rewrite <- Hdb in Hw; by destruct w0).
  assert (R w1 w2) as H2 by (specialize (Ht w1 (w_step w2)); rewrite <- Hdb3 in Ht; by destruct w2).
  etransitivity; [done|]. by etransitivity.
Qed.

Lemma on_db_step (R : relation Db) `{!PreOrder R} w k : on_db R w (mkWorld k (w_db w)).
Proof. unfold on_db. cbn. reflexivity. Qed.

Lemma K_insert_assignment a w :
  existsb (current_of (asg_user_id a)) (pl_assignments (plans w)) = false →
  K w (insert_assignment a w).2.
Proof.
  intros Hno. unfold insert_assignment, plan_db. apply map_err_at, in_transaction_at.
  - intros k. apply on_db_step, _.
  - apply _.
  - intros k. apply moves_statement. cbn. intros [] t Ht. eapply rtc_once, PcAssign, Ht; done.
  - intros w1 k. apply on_db_step, _.
Qed.

Lemma replace_current_run u t w o w' :
  replace_current_assignment u t w = (Ok o, w') →
  plans w' = replace_current u t (plans w) ∧ o = ua_plan_id <$> latest_current u (plans w).
Proof.
  unfold replace_current_assignment, plan_db. intros Hr. inv_bind Hr. apply map_err_ok in R.
  apply select_run in R as (Hdb & -> & _). inv_bind Hr. apply map_err_ok, on_part_run in R as [Hp _].
  injection Hr as <- <-. cbn in Hp. by rewrite Hdb in Hp.
Qed.
Lemma K_replace u t : within K (replace_current_assignment u t).
Proof.
  unfold replace_current_assignment, plan_db. apply within_bind; [apply _|within_tac|]. intros o.
  apply within_bind; [apply _| |intros; apply within_ret, _].
  apply within_map_err. intros w. apply moves_execute, rtc_once, PcReplace.
Qed.

Lemma set_features_fields l p w p' w' :
  set_features l p w = (Ok p', w') →
  w_db w' = w_db w ∧ plan_id p' = plan_id p ∧ plan_name p' = plan_name p
  ∧ plan_quota_caps p' = plan_quota_caps p
  ∧ plan_allowed_php_runtimes p' = plan_allowed_php_runtimes p.
Proof.
  revert p w. induction l as [|[f s] l IH]; intros p w; cbn; [by intros [= <- <-]|].
  unfold bind. cbn. intros (? & ? & ? & ? & ?)%IH. split_and!; by etransitivity.
Qed.

Lemma K_set_features l p : within K (set_features l p).
Proof. revert p. induction l as [|[f s] l IH]; intros p; cbn; within_tac; auto. Qed.

(** The plan as it is written back. *)
Lemma stored_plan_ok t r p p' :
  plan_wf t → In r (pl_plans t) → into_plan r = Ok p → plan_id p' = plan_id p →
  plan_name p' = plan_name p → plan_allowed_php_runtimes p' = plan_allowed_php_runtimes p →
  plan_id p' = hp_id r ∧ plan_name p' = hp_name r ∧ plan_ok p'.
Proof.
  intros HW Hr Hp Hi Hn Hrt. apply into_plan_fields in Hp as (Hid & Hname & _ & _ & Hok).
  destruct (wf_plan_rows _ HW r Hr) as (_ & Hl). unfold plan_ok. rewrite Hi, Hn, Hrt, Hname.
  split_and!; try done; apply Hl.
Qed.

(** *** Each service method *)

Lemma K_create name d caps actor : within K (create_plan name d caps actor).
Proof.
  unfold create_plan. do 3 (apply within_bind; [apply _|within_tac|]; intros ?).
  apply within_bind_lift; [apply _|]. intros p [Hp _]%plan_new_ok.
  apply within_bind; [apply _|by apply K_insert|]. intros []. within_tac.
Qed.
Lemma K_clone src name actor : within K (clone_plan src name actor).
Proof.
  intros w. unfold clone_plan. apply bind_at; [apply _|apply K_find|]. intros p w1 Hf.
  apply find_plan_run in Hf as (_ & r & _ & _ & Hp).
  match goal with |- _ _ (?c _).2 => enough (within K c) as Hc by apply Hc end.
  do 3 (apply within_bind; [apply _|within_tac|]; intros ?).
  apply within_bind_lift; [apply _|]. intros c Hc.
  apply within_bind; [apply _|apply K_insert; by eapply clone_ok|]. intros []. within_tac.
Qed.
Lemma K_update_plan id caps fs actor w : plan_wf (plans w) → K w (update_plan id caps fs actor w).2.
Proof.
  intros HW. unfold update_plan. apply bind_at; [apply _|apply K_find|]. intros p w1 Hf.
  apply find_plan_run in Hf as (Hdb & r & Hr & Hid & Hp).
  do 2 (case_match; [by apply within_throw, _|]).
  apply bind_at; [apply _|apply on_db_tick, _|]. intros t w2 [= <- <-].
  apply bind_at; [apply _|apply K_set_features|]. intros p' w3 Hs.
  apply set_features_fields in Hs as (Hdb3 & Hi & Hn & _ & Hrt). cbn in Hdb3.
  destruct (stored_plan_ok _ r p p' HW Hr Hp Hi Hn Hrt) as (? & ? & ?).
  apply bind_at; [apply _|apply (K_update r); try done; rewrite Hdb3, Hdb; done|]. intros [] w4 _.
  apply bind_at; [apply _|apply K_invalidate|]. intros [] w5 _.
  apply bind_at; [apply _|apply on_db_audit; apply _|]. intros; by apply within_ret, _.
Qed.
Lemma K_status change action id actor w :
  (∀ t p, plan_id (change t p) = plan_id p ∧ plan_name (change t p) = plan_name p
     ∧ plan_allowed_php_runtimes (change t p) = plan_allowed_php_runtimes p) →
  plan_wf (plans w) → K w (change_plan_status change action id actor w).2.
Proof.
  intros Hch HW. unfold change_plan_status. apply bind_at; [apply _|apply K_find|]. intros p w1 Hf.
  apply find_plan_run in Hf as (Hdb & r & Hr & Hid & Hp).
  apply bind_at; [apply _|apply on_db_tick, _|]. intros t w2 [= <- <-].
  destruct (Hch (utc_now (w_step w1)) p) as (Hi & Hn & Hrt).
  destruct (stored_plan_ok _ r p _ HW Hr Hp Hi Hn Hrt) as (? & ? & ?).
  apply bind_at; [apply _|apply (K_update r); try done; cbn; rewrite Hdb; done|]. intros [] w4 _.
  apply bind_at; [apply _|apply K_invalidate|]. intros [] w5 _. apply on_db_audit; apply _.
Qed.
Lemma K_delete id actor : within K (delete_plan id actor).
Proof.
  pose proof (K_count id). unfold delete_plan, plan_delete.
  apply within_bind; [apply _|done|]. intros n. case_match; [within_tac|].
  apply within_bind; [apply _| |intros []; apply within_bind; [apply _|apply K_invalidate|]; within_tac].
  apply within_bind; [apply _|done|]. intros n'. case_match; [within_tac|].
  apply within_map_err. intros w. apply moves_statement. intros [] t Ht. by eapply rtc_once, PcDelete.
Qed.
Lemma K_assign id u actor by_ : within K (assign_plan id u actor by_).
Proof.
  intros w. unfold assign_plan. apply bind_at; [apply _|apply K_find|]. intros p w1 _.
  case_match; [by apply within_throw, _|].
  apply bind_at; [apply _|apply K_user|]. intros o w2 _.
  apply bind_at; [apply _|apply within_ok_or, _|]. intros _ w3 _.
  apply bind_at; [apply _|apply on_db_tick, _|]. intros t w4 [= <- <-].
  apply bind_at; [apply _|apply K_replace|]. intros prev w5 Hr.
  apply replace_current_run in Hr as [Hp _].
  apply bind_at; [apply _|apply K_insert_assignment; rewrite Hp; apply replaced_none|]. intros [] w6 _.
  apply bind_at; [apply _|apply K_invalidate|]. intros [] w7 _.
  apply bind_at; [apply _|apply K_user_plan|]. intros [] w8 _.
  apply bind_at; [apply _|apply on_db_audit; apply _|]. intros; by apply within_ret, _.
Qed.
Lemma K_unassign u actor : within K (unassign_plan u actor).
Proof.
  pose proof (K_replace u). pose proof (K_user_plan u None). pose proof (@K_invalidate HostingPlansError (Some u)).
  unfold unassign_plan, remove_current_assignment in *. fold (replace_current_assignment u). within_tac.
Qed.
Lemma K_resolve {E} u : within K (resolve_caps (E:=E) u).
Proof.
  pose proof (K_current u). unfold resolve_caps, plan_find_by_id. within_tac; apply K_fetch.
Qed.
Lemma K_effective {E} u : within K (effective_caps (E:=E) u).
Proof. unfold effective_caps. pose proof (K_resolve (E:=E) u). pose proof (K_store (E:=E) u). pose proof (K_hit (E:=E) u). within_tac. Qed.
Lemma K_effective_async {E} u : within K (effective_async (E:=E) u).
Proof. unfold effective_async. pose proof (K_store (E:=E) u). pose proof (K_hit (E:=E) u). within_tac. Qed.

(** *** Sequences of requests *)

(** One complete request; [async] says whether [effective_async] may be one. *)
Inductive plan_step (async : bool) : World → World → Prop :=
| PsCreate name d caps actor w : plan_step async w (create_plan name d caps actor w).2
| PsUpdate id caps fs actor w : plan_step async w (update_plan id caps fs actor w).2
| PsDisable id actor w : plan_step async w (disable_plan id actor w).2
| PsEnable id actor w : plan_step async w (enable_plan id actor w).2
| PsClone id name actor w : plan_step async w (clone_plan id name actor w).2
| PsDelete id actor w : plan_step async w (delete_plan id actor w).2
| PsAssign id u actor by_ w : plan_step async w (assign_plan id u actor by_ w).2
| PsUnassign u actor w : plan_step async w (unassign_plan u actor w).2
| PsEffective u w : plan_step async w (effective_caps (E:=HostingPlansError) u w).2
| PsAsync u w : async = true → plan_step async w (effective_async (E:=HostingPlansError) u w).2.

Lemma plan_wf_step async w w' : plan_step async w w' → plan_wf (plans w) → plan_wf (plans w').
Proof.
  intros Hs HW. refine (moves_keeps plan_change plan_wf w w' plan_wf_change _ HW). destruct Hs.
  - apply K_create.
  - by apply K_update_plan.
  - by apply K_status.
  - by apply K_status.
  - apply K_clone.
  - apply K_delete.
  - apply K_assign.
  - apply K_unassign.
  - apply K_effective.
  - apply K_effective_async.
Qed.

(** C33 (the plan tables stay consistent).  Along any sequence of requests to the plan service,
    with statements failing anywhere, plan identifiers and names stay unique, every row decodes
    into a plan whose name has 3 to 64 bytes, every assignment, replaced or not, names a stored
    plan, and a user has at most one assignment that is not replaced. *)
Theorem plan_tables_invariant w w' :
  rtc (plan_step true) w w' → plan_wf (plans w) → plan_wf (plans w').
Proof. induction 1 as [|w w1 w' Hs _ IH]; [done|]. intros HW. by eapply IH, plan_wf_step. Qed.
End operations.
