(* ===== verification/PlanResolver.v ===== *)
(** * Hosting plans: what users are granted

    The cached resolver against the tables, what assigning and deleting plans do, and what the
    plan of a new child account is worth. *)
From S2P Require Import Prelude Text Paths AuditActions AuditLog Accounts CronJobs Plans HostingTables Store Users Identity Hierarchy HierarchyInvariant HierarchyPools Sites Staging StagingChanges Parts PlanService PlanTheorems.
Open Scope N_scope.

(** ** What a user is granted *)

(** The caps of the plan of the one current assignment; without one, those of the role. *)
Definition granted (user : Uuid) (t : PlanTables) (q : EffectiveQuotas) : Prop :=
  (∃ a r, In a (pl_assignments t) ∧ ua_user_id a = user ∧ ua_replaced_at a = None
          ∧ In r (pl_plans t) ∧ hp_id r = ua_plan_id a ∧ q = from_caps (hp_quota_caps r))
  ∨ ((∀ a, In a (pl_assignments t) → ua_user_id a = user → ua_replaced_at a ≠ None)
     ∧ q = role_default).

Lemma granted_unique user t q q' : plan_wf t → granted user t q → granted user t q' → q' = q.
Proof.
  intros HW [(a & r & Ha & Hu & Hc & Hr & Hi & ->)|(Hn & ->)]
    [(a' & r' & Ha' & Hu' & Hc' & Hr' & Hi' & ->)|(Hn' & ->)]; try done.
  - assert (a' = a) as ->.
    { apply (NoDup_key_inj ua_user_id (current_rows t)); [apply HW|apply filter_In..|congruence].
      - split; [done|]. by apply bool_decide_eq_true.
      - split; [done|]. by apply bool_decide_eq_true. }
    assert (r' = r) as ->; [|done].
    apply (NoDup_key_inj hp_id (pl_plans t)); [apply HW|done..|congruence].
  - by destruct (Hn' a Ha Hu).
  - by destruct (Hn a' Ha' Hu').
Qed.

(** The same as a function of the tables. *)
Definition plan_caps (user : Uuid) (t : PlanTables) : EffectiveQuotas :=
  match latest_current user t with
  | Some a => match List.find (plan_is (ua_plan_id a)) (pl_plans t) with
              | Some r => from_caps (hp_quota_caps r)
              | None => role_default
              end
  | None => role_default
  end.

Lemma head_perm {A} (l l' : list A) : l ≡ₚ l' →
  match head l with Some x => In x l' | None => l' = [] end.
Proof.
  intros Hp. destruct l as [|x l]; cbn.
  - by apply Permutation_nil.
  - apply (Permutation_in x Hp). by left.
Qed.
Lemma latest_current_found user t :
  match latest_current user t with
  | Some a => In a (pl_assignments t) ∧ ua_user_id a = user ∧ ua_replaced_at a = None
  | None => ∀ a, In a (pl_assignments t) → current_of user a = false
  end.
Proof.
  unfold latest_current.
  pose proof (head_perm _ _ (merge_sort_Permutation newest_assignment
    (select_where (current_of user) (pl_assignments t)))) as Hh.
  destruct (head _) as [a|].
  - apply filter_In in Hh as [Hin Hc%current_of_true]. tauto.
  - intros a Ha. destruct (current_of user a) eqn:E; [|done].
    assert (In a []) as []. rewrite <- Hh. by apply filter_In.
Qed.
Lemma find_plan_row t r : plan_wf t → In r (pl_plans t) → List.find (plan_is (hp_id r)) (pl_plans t) = Some r.
Proof.
  intros HW Hr. destruct (List.find _ _) as [x|] eqn:E.
  - apply List.find_some in E as [Hx Hid%N.eqb_eq]. f_equal.
    by apply (NoDup_key_inj hp_id (pl_plans t)); [apply HW|..].
  - eapply List.find_none in E; [|done]. unfold plan_is in E. by rewrite N.eqb_refl in E.
Qed.

(** Where the two look-ups end. *)
Lemma plan_caps_cases user t :
  plan_wf t →
  match latest_current user t with
  | Some a => ∃ r p, List.find (plan_is (ua_plan_id a)) (pl_plans t) = Some r ∧ into_plan r = Ok p
                 ∧ plan_quota_caps p = hp_quota_caps r ∧ plan_caps user t = from_caps (hp_quota_caps r)
  | None => plan_caps user t = role_default
  end.
Proof.
  intros HW. pose proof (latest_current_found user t) as Hl. unfold plan_caps.
  destruct (latest_current user t) as [a|]; [|done]. destruct Hl as (Ha & _ & _).
  pose proof (wf_plan_known t HW a Ha) as Hk. apply in_map_iff in Hk as (r & Hid & Hr).
  destruct (wf_plan_rows t HW r Hr) as (Hok & _). destruct (into_plan r) as [p|] eqn:Ep; [|done].
  exists r, p. rewrite <- Hid, find_plan_row by done. pose proof Ep as (_ & _ & -> & _)%into_plan_fields.
  done.
Qed.
Lemma plan_caps_granted user t : plan_wf t → granted user t (plan_caps user t).
Proof.
  intros HW. pose proof (latest_current_found user t) as Hl. pose proof (plan_caps_cases user t HW) as Hc.
  destruct (latest_current user t) as [a|].
  - destruct Hl as (Ha & Hu & Hcur). destruct Hc as (r & p & Hf & _ & _ & ->). left. exists a, r.
    apply List.find_some in Hf as [Hr Hid%N.eqb_eq]. done.
  - right. split; [|done]. intros a Ha Hu Hn. specialize (Hl a Ha).
    by rewrite (proj2 (current_of_true user a)) in Hl.
Qed.

(** Other users, and new plans, do not matter. *)
Lemma plan_caps_same user t t' :
  select_where (current_of user) (pl_assignments t') = select_where (current_of user) (pl_assignments t) →
  pl_plans t' = pl_plans t → plan_caps user t' = plan_caps user t.
Proof. intros Ha Hp. unfold plan_caps, latest_current. by rewrite Ha, Hp. Qed.

Lemma replace_other user v now l :
  v ≠ user →
  select_where (current_of v) (update_where (current_of user) (assignment_replaced now) l)
  = select_where (current_of v) l.
Proof.
  intros Hne. unfold select_where, update_where. induction l as [|r l IH]; [done|]. cbn.
  destruct (current_of user r) eqn:E; [|cbn; by rewrite IH].
  apply current_of_true in E as [Hu Hc].
  assert (current_of v r = false) as -> by (unfold current_of; rewrite (proj2 (N.eqb_neq _ _)); [done|congruence]).
  unfold current_of at 1. cbn. by rewrite andb_false_r.
Qed.
Lemma assign_other v r l :
  v ≠ ua_user_id r → select_where (current_of v) (l ++ [r])%list = select_where (current_of v) l.
Proof.
  intros Hne. unfold select_where. rewrite List.filter_app. cbn. unfold current_of at 2.
  rewrite (proj2 (N.eqb_neq _ _)) by congruence. apply app_nil_r.
Qed.

(** ** The resolver *)

(** A transaction of one statement that nothing stops. *)
Lemma in_transaction_run `{Env} {A} f g (F : Db → result (A * Db) string) w a d :
  (∀ k, sql_fault k = None) → F (w_db w) = Ok (a, d) →
  in_transaction f g (statement F) w = (Ok a, mkWorld (S (S (S (w_step w)))) d).
Proof.
  intros Hnf HF. unfold in_transaction, bind, map_err. rewrite !(select_no_fault Hnf). cbn.
  unfold statement. rewrite Hnf. cbn. rewrite HF. cbn. by rewrite (select_no_fault Hnf).
Qed.

Section resolver.
Context `{Env}.
Hypothesis no_faults : ∀ k, sql_fault k = None.
Abbreviation plans w := (ht_plans (db_hosting (w_db w))).

Lemma fetch_plan_ok q r p w :
  List.find q (pl_plans (plans w)) = Some r → into_plan r = Ok p →
  fetch_plan q w = (Ok (Some p), tick w).
Proof using no_faults.
  intros Hf Hp. unfold fetch_plan, plan_db, bind, map_err. rewrite (select_no_fault no_faults), Hf.
  cbn. by rewrite Hp.
Qed.

Lemma resolve_caps_run {E} user w :
  plan_wf (plans w) →
  ∃ w', resolve_caps (E:=E) user w = (Ok (plan_caps user (plans w)), w') ∧ quiet w w'.
Proof using no_faults.
  intros HW. pose proof (plan_caps_cases user (plans w) HW) as Hc.
  unfold resolve_caps, try_run, current_assignment, plan_db, bind, map_err.
  rewrite (select_no_fault no_faults). cbn [ret].
  destruct (latest_current user (plans w)) as [a|]; cbn [fmap option_fmap option_map].
  - destruct Hc as (r & p & Hf & Hp & Hq & ->). unfold plan_find_by_id.
    cbn [into_assignment asg_plan_id]. rewrite (fetch_plan_ok _ r p (tick w) Hf Hp). cbn. rewrite Hq. eexists. split; [done|].
    split; [cbn; lia | done].
  - rewrite Hc. eexists. split; [done|]. apply quiet_tick.
Qed.

Lemma cache_hit_run {E} user w :
  ∃ w', quiet w w' ∧ cache_hit (E:=E) user w
    = (Ok (match pl_cache (plans w) !! user with
           | Some (c, at_) =>
               if (num_seconds (utc_now (w_step w) - at_) <=? CACHE_TTL_SECONDS)%Z then Some c else None
           | None => None
           end), w').
Proof.
  unfold cache_hit, bind, gets, ret. destruct (pl_cache _ !! user) as [[c at_]|]; cbn;
    [exists (tick w) | exists w]; split; try done; apply quiet_tick.
Qed.

(** What [effective_caps] answers: a cached value, or what the tables grant. *)
Lemma effective_run {E} user w :
  plan_wf (plans w) →
  (∃ c at_ w', effective_caps (E:=E) user w = (Ok c, w') ∧ quiet w w'
     ∧ pl_cache (plans w) !! user = Some (c, at_)
     ∧ (num_seconds (utc_now (w_step w) - at_) ≤ 60)%Z)
  ∨ (∃ w' at_, effective_caps (E:=E) user w = (Ok (plan_caps user (plans w)), w')
     ∧ (w_step w ≤ w_step w')%nat
     ∧ plans w' = set_cache (<[user := (plan_caps user (plans w), at_)]> (pl_cache (plans w))) (plans w)).
Proof using no_faults.
  intros HW. destruct (cache_hit_run (E:=E) user w) as (w1 & Hq & Hh).
  unfold effective_caps. rewrite (bind_run _ _ _ _ _ Hh). destruct Hq as [Hs Hp].
  destruct (pl_cache _ !! user) as [[c at_]|] eqn:Ec; [destruct (Z.leb_spec (num_seconds (utc_now (w_step w) - at_)) CACHE_TTL_SECONDS)|].
  { left. exists c, at_, w1. done. }
  all: right; destruct (resolve_caps_run (E:=E) user w1) as (w2 & Hr & Hs2 & Hp2);
    [cbn in Hp; by rewrite Hp|]; rewrite (bind_run _ _ _ _ _ Hr); cbn in Hp, Hp2; rewrite Hp in *;
    eexists _, _; (split; [done|]); cbn; rewrite Hp2; split; [lia|done].
Qed.

(** How old a cached answer can be.  On consistent tables, [effective_caps] answers with what
    the assignment and plan tables grant the user, or with a value it stored less than 61
    seconds before (the age is compared in whole seconds). *)
Theorem effective_staleness user w :
  plan_wf (plans w) →
  ∃ q w', effective_caps (E:=HostingPlansError) user w = (Ok q, w')
    ∧ (granted user (plans w) q
       ∨ ∃ at_, pl_cache (plans w) !! user = Some (q, at_)
           ∧ (utc_now (w_step w) - at_ < 61 * 1000000000)%Z).
Proof using no_faults.
  intros HW. destruct (effective_run (E:=HostingPlansError) user w HW)
    as [(c & at_ & w' & Hr & _ & Hc & Ha)|(w' & at_ & Hr & _)]; eexists _, w'; (split; [done|]).
  - right. exists at_. split; [done|]. unfold num_seconds in Ha.
    pose proof (Z.quot_rem' (utc_now (w_step w) - at_) 1000000000).
    pose proof (Z.rem_bound_abs (utc_now (w_step w) - at_) 1000000000). lia.
  - left. by apply plan_caps_granted.
Qed.

(** *** The cache is exact along sequences of requests *)

Hypothesis clock_strict : ∀ j k, (j < k)%nat → (utc_now j < utc_now k)%Z.

Definition cache_exact (t : PlanTables) : Prop :=
  ∀ u c at_, pl_cache t !! u = Some (c, at_) → c = plan_caps u t.
Definition past (w : World) : Prop :=
  ∀ a, In a (pl_assignments (plans w)) → (ua_assigned_at a < utc_now (w_step w))%Z.
Record sound (w : World) : Prop := {
  sound_wf : plan_wf (plans w);
  sound_cache : cache_exact (plans w);
  sound_past : past w
}.

Lemma clock_le j k : (j ≤ k)%nat → (utc_now j ≤ utc_now k)%Z.
Proof using clock_strict. intros [Hlt| ->]%Nat.lt_eq_cases; [apply clock_strict in Hlt; lia|lia]. Qed.
Lemma past_later t w w' :
  (w_step w ≤ w_step w')%nat → t = pl_assignments (plans w) → pl_assignments (plans w') = t →
  past w → past w'.
Proof using clock_strict.
  intros Hs -> Ht Hp a Ha. rewrite Ht in Ha. specialize (Hp a Ha). pose proof (clock_le _ _ Hs). lia.
Qed.
Lemma quiet_sound w w' : quiet w w' → keeps sound w w'.
Proof using clock_strict.
  intros [Hs Hp] [H1 H2 H3]. cbn in Hp. split; [by rewrite Hp..|].
  eapply past_later; [done|done|by rewrite Hp|done].
Qed.
Lemma quiet_keeps {E A} (c : M World E A) : within quiet c → within (keeps sound) c.
Proof using clock_strict. intros Hc w. apply quiet_sound, Hc. Qed.

Lemma quiet_find id : within quiet (find_plan id).
Proof. unfold find_plan, plan_find_by_id, fetch_plan, plan_db. within_tac. Qed.
Lemma quiet_hit {E} u : within quiet (cache_hit (E:=E) u).
Proof. intros w. destruct (cache_hit_run (E:=E) u w) as (w' & Hq & Hr). by rewrite Hr. Qed.
Lemma quiet_user_plan u p : within quiet (plan_db (users_update_hosting_plan_id u p)).
Proof. apply within_map_err. by apply quiet_execute. Qed.
Lemma quiet_user u : within quiet (plan_db (users_find_by_id u)).
Proof. unfold plan_db, users_find_by_id, fetch_user. within_tac. Qed.





(** Work on the assignments of one user, whose entry is then dropped. *)
Lemma sound_dropped u w w' :
  (w_step w ≤ w_step w')%nat → plan_wf (plans w') → pl_plans (plans w') = pl_plans (plans w) →
  pl_cache (plans w') = delete u (pl_cache (plans w)) →
  (∀ v, v ≠ u → select_where (current_of v) (pl_assignments (plans w'))
                = select_where (current_of v) (pl_assignments (plans w))) →
  past w' → sound w → sound w'.
Proof.
  intros Hs HW Hp Hc Ho HP HS. split; [done| |done]. intros v c at_. rewrite Hc.
  intros [Hne Hl]%lookup_delete_Some. rewrite (plan_caps_same v (plans w)); [|by apply Ho|done].
  by eapply HS.
Qed.

Lemma replace_current_no_fault u t w :
  replace_current_assignment u t w
  = (Ok (ua_plan_id <$> latest_current u (plans w)),
     mkWorld (S (S (w_step w))) (on_part (replace_current u t) (w_db w))).
Proof using no_faults.
  unfold replace_current_assignment, plan_db, bind, map_err. rewrite (select_no_fault no_faults).
  by rewrite (execute_no_fault no_faults).
Qed.


(** [assign_plan] once its checks have passed. *)
Definition assigned (id u by_ : Uuid) (t : DateTime) (p : PlanTables) : PlanTables :=
  mkPlanTables (pl_plans p)
    (update_where (current_of u) (assignment_replaced t) (pl_assignments p)
       ++ [assignment_row (assignment_new u id by_ t)])%list
    (delete u (pl_cache p)).
Definition assign_block (id u : Uuid) (actor : string) (by_ : Uuid) : M World HostingPlansError PlanAssignment :=
  t <- now ;;
  prev <- replace_current_assignment u t ;;
  insert_assignment (assignment_new u id by_ t) ;;;
  invalidate_cache (Some u) ;;;
  plan_db (users_update_hosting_plan_id u (Some id)) ;;;
  audit actor (reassigned_event u id prev).1 Success
    (λ e, with_metadata (reassigned_event u id prev).2 (with_target (uuid_text u) e)) ;;;
  ret (assignment_new u id by_ t).

Lemma insert_assignment_fresh id u by_ t p :
  In id (map hp_id (pl_plans p)) → (∀ a, In a (pl_assignments p) → (ua_assigned_at a < t)%Z) →
  insert_assignment_row (assignment_row (assignment_new u id by_ t)) (replace_current u t p)
  = Ok (tt, set_assignments (update_where (current_of u) (assignment_replaced t) (pl_assignments p)
       ++ [assignment_row (assignment_new u id by_ t)])%list p).
Proof.
  intros Hid Hp. unfold insert_assignment_row. cbn.
  rewrite (proj2 (existsb_false _ _)), (proj2 (existsb_id_In id _) Hid); [done|].
  intros a (x & Hx & ->)%update_where_In. specialize (Hp x Hx). apply andb_false_iff. right.
  apply Z.eqb_neq. destruct (current_of u x); cbn; lia.
Qed.

(** Everything but the audit log. *)
Definition panel_of (d : Db) : list UserRow * HostingTables := (db_users d, db_hosting d).
#[export] Instance panel_blind : AuditBlind (same panel_of).
Proof. intros d t. done. Qed.

Lemma assign_block_run id u actor by_ w :
  In id (map hp_id (pl_plans (plans w))) → past w →
  ∃ a w', assign_block id u actor by_ w = (Ok a, w') ∧ (S (w_step w) ≤ w_step w')%nat
    ∧ plans w' = assigned id u by_ (utc_now (w_step w)) (plans w)
    ∧ db_users (w_db w') = update_where (id_is u) (row_set_plan (Some id)) (db_users (w_db w)).
Proof using no_faults.
  intros Hid HP. unfold assign_block. rewrite (bind_run now _ w (utc_now (w_step w)) (tick w) eq_refl).
  rewrite (bind_run _ _ _ _ _ (replace_current_no_fault u (utc_now (w_step w)) (tick w))).
  unfold insert_assignment. erewrite (bind_run (plan_db _));
    [|eapply map_err_run, (in_transaction_run _ _ _ _ tt); [done|];
      unfold part_statement, hosting_statement; cbn; by rewrite insert_assignment_fresh].
  unfold plan_db, users_update_hosting_plan_id, update_users.
  unfold bind at 1. cbn [invalidate_cache modify].
  erewrite (bind_run (map_err _ _)); [|apply map_err_run, (execute_no_fault no_faults)].
  match goal with |- ∃ a w', bind (audit ?x ?y ?z ?b) _ ?w0 = _ ∧ _ =>
    destruct (audit_ok (same panel_of) (E:=HostingPlansError) x y z b w0) as (w1 & Ha & Hp);
    pose proof (quiet_at _ _ _ _ (quiet_recorded (E:=HostingPlansError) x y z b) Ha) as [Hs _] end.
  rewrite (bind_run _ _ _ _ _ Ha). eexists _, w1. split; [done|].
  unfold on_db, same, panel_of in Hp. injection Hp as Hu Hh. cbn in Hs. split; [lia|].
  rewrite Hh, Hu. done.
Qed.

Lemma assigned_wf id u by_ t p :
  In id (map hp_id (pl_plans p)) → (∀ a, In a (pl_assignments p) → (ua_assigned_at a < t)%Z) →
  plan_wf p → plan_wf (assigned id u by_ t p).
Proof.
  intros Hid Hp HW. pose proof (insert_assignment_fresh id u by_ t p Hid Hp) as Hi.
  apply wf_assign in Hi; [|done|apply replaced_none|by apply wf_replace].
  destruct Hi as [??????]. by split.
Qed.

Lemma sound_assign id u actor by_ w : keeps sound w (assign_plan id u actor by_ w).2.
Proof using no_faults clock_strict.
  unfold assign_plan. apply bind_at; [apply _|apply quiet_keeps, quiet_find|].
  intros p w1 Hf. apply find_plan_run in Hf as (Hdb & r & Hr & Hid & Hp). rewrite <- Hdb in Hr.
  case_match; [by apply within_throw, _|].
  apply bind_at; [apply _|apply quiet_keeps, quiet_user|].
  intros o w2 Hq%(quiet_at _ _ _ _ (quiet_user u)). destruct Hq as [_ Hq]. cbn in Hq.
  apply bind_at; [apply _|apply within_ok_or, _|]. intros _ w3 [_ ->]%ok_or_ok HS.
  fold (assign_block id u actor by_).
  destruct (assign_block_run id u actor by_ w2) as (a & w' & Hrun & Hs & Ht & _).
  { rewrite Hq. apply in_map_iff. eauto. }
  { apply HS. }
  rewrite Hrun. cbn [snd].
  eapply (sound_dropped u w2); [lia|rewrite Ht|by rewrite Ht|by rewrite Ht| | |done].
  - apply assigned_wf; [|apply HS|apply HS]. rewrite Hq. apply in_map_iff. eauto.
  - intros v Hv. rewrite Ht. cbn. rewrite assign_other by done. by apply replace_other.
  - intros x. rewrite Ht. cbn. intros [(y & Hy & ->)%update_where_In|[<-|[]]]%in_app_or.
    + pose proof (sound_past _ HS y Hy). pose proof (clock_le (w_step w2) (w_step w') ltac:(lia)).
      destruct (current_of u y); cbn; lia.
    + cbn. apply clock_strict. lia.
Qed.



Lemma effective_exact_at user w :
  sound w →
  ∃ q w', effective_caps (E:=HostingPlansError) user w = (Ok q, w') ∧ granted user (plans w) q
    ∧ ∀ q', granted user (plans w) q' → q' = q.
Proof using no_faults.
  intros HS. pose proof (plan_caps_granted user _ (sound_wf _ HS)) as Hg.
  assert (∃ w', effective_caps (E:=HostingPlansError) user w = (Ok (plan_caps user (plans w)), w')) as (w' & Hr).
  { destruct (effective_run (E:=HostingPlansError) user w (sound_wf _ HS))
      as [(c & at_ & w' & Hr & _ & Hl & _)|(w' & at_ & Hr & _)]; [|eauto].
    apply (sound_cache _ HS) in Hl as ->. eauto. }
  exists (plan_caps user (plans w)), w'. split_and!; try done.
  intros q' Hq'. by eapply granted_unique; [apply HS|..].
Qed.


(** An assignment takes effect at once.  When statements are executed and the clock moves
    on, assigning an active stored plan to a stored user succeeds, whatever the user had before;
    the resolver then answers with the caps of that plan, the user record names the plan, and the
    resolver answers every other user as before. *)
Theorem assign_takes_effect r u user actor by_ w :
  sound w → In r (pl_plans (plans w)) → hp_status r = "active" →
  List.find (id_is user) (db_users (w_db w)) = Some u → is_ok (into_user u) = true →
  ∃ a w', assign_plan (hp_id r) user actor by_ w = (Ok a, w')
    ∧ granted user (plans w') (from_caps (hp_quota_caps r))
    ∧ (∃ w'', effective_caps (E:=HostingPlansError) user w' = (Ok (from_caps (hp_quota_caps r)), w''))
    ∧ (∀ x, In x (db_users (w_db w')) → ur_id x = user → ur_hosting_plan_id x = Some (hp_id r))
    ∧ (∀ v q, v ≠ user → granted v (plans w) q → granted v (plans w') q).
Proof using no_faults clock_strict.
  intros HS Hr Hact Hu Hok. pose proof (sound_wf _ HS) as HW.
  destruct (wf_plan_rows _ HW r Hr) as (Hp & _). destruct (into_plan r) as [p|] eqn:Ep; [|done].
  pose proof Ep as (Hid & _ & _ & Hst & _)%into_plan_fields. rewrite Hact in Hst. cbn in Hst. injection Hst as Hst.
  destruct (into_user u) as [rec|] eqn:Eu; [|done].
  assert (assign_plan (hp_id r) user actor by_ w = assign_block (hp_id r) user actor by_ (tick (tick w))) as Hrun.
  { unfold assign_plan, find_plan, plan_find_by_id.
    erewrite bind_run; [|erewrite bind_run; [|apply (fetch_plan_ok _ r p); [by apply find_plan_row|done]]; done].
    unfold accepts_assignments. rewrite <- Hst. cbn [negb].
    erewrite (bind_run (plan_db (users_find_by_id user)));
      [|apply map_err_run; unfold users_find_by_id, fetch_user; erewrite bind_run;
        [|apply (select_no_fault no_faults)]; cbn; rewrite Hu; cbn; rewrite Eu; done].
    done. }
  rewrite Hrun. destruct (assign_block_run (hp_id r) user actor by_ (tick (tick w))) as (a & w' & Ha & Hs & Ht & Hus).
  { apply in_map_iff. eauto. }
  { eapply (past_later _ w); [|done|done|apply HS]. cbn; lia. }
  assert (sound w') as HS'.
  { pose proof (sound_assign (hp_id r) user actor by_ w HS) as Hk. by rewrite Hrun, Ha in Hk. }
  assert (granted user (plans w') (from_caps (hp_quota_caps r))) as Hg.
  { left. exists (assignment_row (assignment_new user (hp_id r) by_ (utc_now (S (S (w_step w)))))), r.
    rewrite Ht. cbn. split_and!; try done. apply in_or_app. right. by left. }
  exists a, w'. split_and!; try done.
  - destruct (effective_exact_at user w' HS') as (q & w'' & Hq & Hgq & Hun).
    exists w''. rewrite Hq. do 2 f_equal. symmetry. by apply Hun.
  - intros x. rewrite Hus. intros (y & Hy & ->)%update_where_In Hx. cbn in Hx.
    destruct (id_is user y) eqn:E; [done|]. unfold id_is in E. apply N.eqb_neq in E. congruence.
  - intros v q Hv Hq. assert (q = plan_caps v (plans w')) as ->; [|apply plan_caps_granted, HS'].
    rewrite Ht, (plan_caps_same v (plans w)); [|cbn; rewrite assign_other by done; by apply replace_other|done].
    eapply granted_unique; [done|by apply plan_caps_granted|done].
Qed.

(** The asynchronous resolver hides a plan.  On a cache miss [effective_async] stores the
    caps of the role for the user; for the next minute [effective_caps] answers with them, although
    the tables grant the user a plan. *)
Theorem async_miss_hides_plan user w q :
  plan_wf (plans w) → pl_cache (plans w) !! user = None →
  granted user (plans w) q → q ≠ role_default →
  (num_seconds (utc_now (S (w_step w)) - utc_now (w_step w)) ≤ 60)%Z →
  ∃ w1 w2, effective_async (E:=HostingPlansError) user w = (Ok role_default, w1)
    ∧ effective_caps (E:=HostingPlansError) user w1 = (Ok role_default, w2)
    ∧ granted user (plans w1) q
    ∧ ~ granted user (plans w1) role_default.
Proof.
  intros HW Hc Hg Hne Hclock. unfold effective_async, cache_hit. unfold bind at 1 2, gets. rewrite Hc.
  cbn. eexists _, _. split; [done|]. split.
  - unfold effective_caps, cache_hit. unfold bind at 1 2, gets. cbn. rewrite lookup_insert_eq. cbn.
    unfold CACHE_TTL_SECONDS. rewrite (proj2 (Z.leb_le _ _) Hclock). done.
  - split; [done|]. intros Hd. apply Hne. symmetry.
    refine (granted_unique user (plans w) q role_default HW Hg Hd).
Qed.
End resolver.

(** ** Deleting plans *)

Lemma count_positive {A} (q : A → bool) l : (0 <? Z.of_nat (length (select_where q l)))%Z = existsb q l.
Proof. unfold select_where. induction l as [|a l IH]; [done|]. cbn. by destruct (q a). Qed.

Section deleting.
Context `{Env}.
Hypothesis no_faults : ∀ k, sql_fault k = None.
Abbreviation plans w := (ht_plans (db_hosting (w_db w))).

(** Which plans can be deleted.  When statements are executed, deleting a stored plan is
    refused with [PlanInUse] while a user holds it; it succeeds exactly when no user ever held
    it.  A plan that someone held before, and nobody holds now, cannot be deleted either: the
    replaced assignment keeps it, and the foreign key error is answered. *)
Theorem delete_plan_exact r actor w :
  In r (pl_plans (plans w)) →
  let held := existsb (λ a, on_plan (hp_id r) a && row_current a) (pl_assignments (plans w)) in
  let ever := existsb (on_plan (hp_id r)) (pl_assignments (plans w)) in
  ∃ w', delete_plan (hp_id r) actor w
        = ((if held then Err PlanInUse
            else if ever then Err (PlanPersistence (constraint_text plan_referenced))
            else Ok tt), w')
    ∧ pl_plans (plans w')
      = (if ever then pl_plans (plans w) else delete_where (plan_is (hp_id r)) (pl_plans (plans w)))
    ∧ pl_assignments (plans w') = pl_assignments (plans w).
Proof using no_faults.
  intros Hr held ever. assert (existsb (plan_is (hp_id r)) (pl_plans (plans w)) = true) as Hin.
  { apply existsb_id_In, in_map_iff. eauto. }
  assert (∀ w1, w_db w1 = w_db w → count_assignments (hp_id r) w1 = (Ok (Z.of_nat (length
    (select_where (λ a, on_plan (hp_id r) a && row_current a) (pl_assignments (plans w))))), tick w1)) as Hcount.
  { intros w1 Hw1. unfold count_assignments, plan_db, map_err. rewrite (select_no_fault no_faults). by rewrite Hw1. }
  assert ((0 <? Z.of_nat (length (select_where (λ a, on_plan (hp_id r) a && row_current a)
    (pl_assignments (plans w)))))%Z = held) as Hheld.
  { apply count_positive. }
  unfold delete_plan, plan_delete. rewrite (bind_run _ _ _ _ _ (Hcount w eq_refl)), Hheld.
  destruct held eqn:Eh.
  - match goal with |- context [bind (audit ?x ?y ?z ?b) _ ?w0] =>
      destruct (audit_ok (same panel_of) (E:=HostingPlansError) x y z b w0) as (w1 & Ha & Hp) end.
    rewrite (bind_run _ _ _ _ _ Ha). unfold on_db, same, panel_of in Hp. injection Hp as _ Hh.
    exists w1. rewrite Hh. split; [done|]. assert (ever = true) as ->; [|done].
    apply existsb_exists in Eh as (a & Hain & [Hon _]%andb_true_iff). apply existsb_exists. eauto.
  - assert (count_assignments (hp_id r) (tick w) = (Ok (Z.of_nat (length
      (select_where (λ a, on_plan (hp_id r) a && row_current a) (pl_assignments (plans w))))), tick (tick w))) as Hc2
      by by apply Hcount.
    unfold bind at 1. rewrite (bind_run _ _ _ _ _ Hc2), Hheld. unfold plan_db, map_err, statement. rewrite no_faults.
    unfold part_statement, hosting_statement, delete_plan_row. cbn [part plan_part w_db tick].
    rewrite Hin. cbn [andb]. fold ever. destruct ever eqn:Ee.
    + eexists. split; [done|]. done.
    + match goal with |- context [bind (invalidate_cache None) ?k ?w0] => 
        change (bind (invalidate_cache None) k w0) with (k tt (on_cache (λ _, ∅) w0)) end. cbv beta.
      match goal with |- context [audit ?x ?y ?z ?b ?w0] =>
        destruct (audit_ok (same panel_of) (E:=HostingPlansError) x y z b w0) as (w1 & Ha & Hp) end.
      rewrite Ha. unfold on_db, same, panel_of in Hp. injection Hp as _ Hh. exists w1. rewrite Hh. done.
Qed.
End deleting.

(** * Hosting plans and the account hierarchy

    What the plan that [create_child] writes on a new account is worth to the plan service. *)

#[export] Instance hosting_blind : AuditBlind (same db_hosting).
Proof. intros d t. done. Qed.

Section accounts.
Context `{Env}.
Abbreviation plans w := (ht_plans (db_hosting (w_db w))).
Abbreviation F := (on_db (same db_hosting)).

Lemma hosting_statement_frame {A} (f : Db → result (A * Db) string) :
  (∀ d a d', f d = Ok (a, d') → db_hosting d' = db_hosting d) → within F (statement f).
Proof. intros Hf. apply on_db_statement; [apply _|done]. Qed.

Lemma create_child_hosting p req a i : within F (create_child p req a i).
Proof.
  assert (∀ rel, within F (insert_relationship rel)).
  { intros rel. apply within_map_err, hosting_statement_frame. intros d x d'. unfold insert_relationship_row.
    destruct (existsb _ _); [done|]. destruct (_ && _); [|done]. by intros [= <- <-]. }
  assert (∀ u, within F (users_insert u)).
  { intros u. apply hosting_statement_frame. intros d x d'. unfold insert_user_row.
    do 3 (destruct (existsb _ _); [done|]). by intros [= <- <-]. }
  assert (∀ id f, within F (update_users id f)).
  { intros id f. by apply hosting_statement_frame; intros ??? [= <- <-]. }
  pose proof (read_build_child (same db_hosting)).
  unfold create_child, store_child, users_update_hosting_plan_id. within_tac.
Qed.

(** An initial plan is not in force.  An account created under a parent with an initial
    plan carries that plan in its record, but the plan service looks at assignments only: on
    consistent tables with no assignment or cached entry under the new identifier, the resolver
    grants the new account the caps of its role, whatever the plan. *)
Theorem initial_plan_not_in_force parent req actor by_ plan u w w' :
  (∀ k, sql_fault k = None) → plan_wf (plans w) →
  create_child parent req actor by_ w = (Ok u, w') → req_initial_plan_id req = Some plan →
  (∀ a, In a (pl_assignments (plans w)) → ua_user_id a ≠ u_id u) →
  pl_cache (plans w) !! u_id u = None →
  u_hosting_plan_id u = Some plan
  ∧ granted (u_id u) (plans w') role_default
  ∧ ∃ w'', effective_caps (E:=HostingPlansError) (u_id u) w' = (Ok role_default, w'').
Proof.
  intros Hnf HW Hc Hplan Hno Hcache.
  pose proof (create_child_hosting parent req actor by_ w) as HF. rewrite Hc in HF.
  unfold on_db, same in HF. cbn [snd] in HF.
  assert (granted (u_id u) (plans w') role_default) as Hg.
  { right. split; [|done]. rewrite HF. intros a Ha Hu. by destruct (Hno a Ha). }
  split_and!; [|done|].
  - unfold create_child in Hc. inv_bind Hc. apply build_child_run in R as (_ & _ & _ & _ & _ & Hp & _).
    unfold store_child in Hc. do 5 inv_bind Hc. injection Hc as <- _. congruence.
  - assert (plan_wf (plans w')) as HW' by by rewrite HF.
    destruct (effective_run (E:=HostingPlansError) Hnf (u_id u) w' HW')
      as [(c & at_ & w'' & _ & _ & Hl & _)|(w'' & at_ & Hr & _)].
    + rewrite HF in Hl. congruence.
    + exists w''. rewrite Hr. do 2 f_equal.
      eapply granted_unique; [done|done|]. by apply plan_caps_granted.
Qed.
End accounts.
