(* ===== verification/MaintenanceService.v ===== *)
(** * Maintenance windows, repository and enforcer

    [crates/openpanel-app/src/maintenance_windows/repo.rs] and [service.rs].  [gate] is split
    where its reads end and its one write begins.  The theorems follow the operations. *)
From S2P Require Import Prelude Text Paths AuditActions AuditLog Accounts CronJobs Maintenance HostingTables Store Users Sites Staging StagingChanges Parts.
Open Scope N_scope.

(** ** Rows *)

Definition window_row (w : MaintenanceWindow) : WindowRow :=
  mkWindowRow (win_id w) (win_label w) (win_starts_at w) (win_ends_at w) (win_blocked_classes w)
    (win_created_at w) (win_created_by w).
Definition decode_window (r : WindowRow) : MaintenanceWindow :=
  mkWindow (mw_id r) (mw_label r) (mw_starts_at r) (mw_ends_at r) (mw_blocked_classes r)
    (mw_created_at r) (mw_created_by r).

Definition override_row (o : MaintenanceOverride) : OverrideRow :=
  mkOverrideRow (ov_id o) (class_str (ov_target_class o)) (ov_reason o) (ov_ttl_secs o)
    (ov_created_at o) (ov_expires_at o) (ov_consumed_at o) (ov_issued_by o).
Definition parse_class (s : string) : result DestructiveActionClass RepoError :=
  if String.eqb s "package_install" then Ok PackageInstall
  else if String.eqb s "schema_migration" then Ok SchemaMigration
  else if String.eqb s "filesystem_rewrite" then Ok FilesystemRewrite
  else Err ("unknown class: " +:+ s).
(** [ttl_secs as u32]. *)
Definition decode_override (r : OverrideRow) : result MaintenanceOverride RepoError :=
  class <-? parse_class (mo_target_class r) ;;
  Ok (mkOverride (mo_id r) class (mo_reason r) (mo_ttl_secs r mod 2 ^ 32)%Z (mo_created_at r)
        (mo_expires_at r) (mo_consumed_at r) (mo_issued_by r)).

Definition window_is (id : Uuid) (r : WindowRow) : bool := mw_id r =? id.
Definition override_is (id : Uuid) (r : OverrideRow) : bool := mo_id r =? id.
Definition by_starts_at (r1 r2 : WindowRow) : Prop := (mw_starts_at r1 ≤ mw_starts_at r2)%Z.
#[export] Instance by_starts_at_dec : RelDecision by_starts_at.
Proof. unfold by_starts_at. intros r1 r2. apply _. Defined.

(** [INSERT OR REPLACE]. *)
Definition replace_window_row (r : WindowRow) (t : MaintenanceTables) : MaintenanceTables :=
  set_windows (delete_where (window_is (mw_id r)) (mt_windows t) ++ [r])%list t.
Definition replace_override_row (r : OverrideRow) (t : MaintenanceTables) : MaintenanceTables :=
  set_overrides (delete_where (override_is (mo_id r)) (mt_overrides t) ++ [r])%list t.

#[export] Program Instance maintenance_part : Part MaintenanceTables :=
  {| part := ht_maintenance; set_part := set_maintenance |}.
Next Obligation. done. Qed.

Section maintenance_repo.
Context `{Env}.
Abbreviation MR A := (M World RepoError A).
Abbreviation maint d := (ht_maintenance (db_hosting d)).

Definition save_window (w : MaintenanceWindow) : MR unit :=
  execute (on_part (replace_window_row (window_row w))).
Definition list_windows : MR (list MaintenanceWindow) :=
  rows <- select (λ d, merge_sort by_starts_at (mt_windows (maint d))) ;;
  ret (map decode_window rows).
Definition get_window (id : Uuid) : MR (option MaintenanceWindow) :=
  row <- select (λ d, List.find (window_is id) (mt_windows (maint d))) ;;
  ret (decode_window <$> row).
Definition delete_window (id : Uuid) : MR unit :=
  execute (on_part (λ t, set_windows (delete_where (window_is id) (mt_windows t)) t)).
Definition save_override (o : MaintenanceOverride) : MR unit :=
  execute (on_part (replace_override_row (override_row o))).
Definition get_override (id : Uuid) : MR (option MaintenanceOverride) :=
  row <- select (λ d, List.find (override_is id) (mt_overrides (maint d))) ;;
  lift (transpose decode_override row).
End maintenance_repo.

(** ** [MaintenanceEnforcer] *)

Section enforcer.
Context `{Env}.
Abbreviation MM A := (M World MaintenanceError A).

Definition maint_db {A} (c : M World RepoError A) : MM A := map_err MaintenancePersistence c.
Definition is_admin (caller : UserRec) : bool :=
  match u_role caller with Owner | Admin => true | _ => false end.
Definition maintenance_require_admin (caller : UserRec) : result unit MaintenanceError :=
  if is_admin caller then Ok tt else Err MaintenanceForbidden.

Definition overlaps (w x : MaintenanceWindow) : bool :=
  negb ((win_ends_at w <=? win_starts_at x)%Z || (win_ends_at x <=? win_starts_at w)%Z).

Definition schedule_window (caller : UserRec) (w : MaintenanceWindow) : MM MaintenanceWindow :=
  lift (maintenance_require_admin caller) ;;;
  lift (window_validate w) ;;;
  existing <- maint_db list_windows ;;
  if existsb (overlaps w) existing then throw WindowOverlap
  else
    maint_db (save_window w) ;;;
    audit (u_username caller) MaintenanceWindowCreated Success
      (λ e, with_metadata (JObject [("label", JString (win_label w))])
              (with_target (uuid_text (win_id w)) e)) ;;;
    ret w.

Definition cancel_window (caller : UserRec) (id : Uuid) : MM unit :=
  lift (maintenance_require_admin caller) ;;;
  maint_db (delete_window id).

Definition duration_seconds (s : Z) : Duration := (s * 1000000000)%Z.
Definition issue_override (caller : UserRec) (target : DestructiveActionClass) (reason : string)
    (ttl_secs : Z) : MM MaintenanceOverride :=
  lift (maintenance_require_admin caller) ;;;
  t <- now ;;
  id <- fresh_uuid ;;
  let o := mkOverride id target reason ttl_secs t (t + duration_seconds ttl_secs) None (u_id caller) in
  maint_db (save_override o) ;;;
  ret o.

Definition covers (t : DateTime) (action : DestructiveActionClass) (w : MaintenanceWindow) : bool :=
  window_is_active t w && existsb (λ c, bool_decide (c = action)) (win_blocked_classes w).

(** [gate] up to its write: nothing to write when no active window covers the action. *)
Definition gate_check (caller : UserRec) (action : DestructiveActionClass) (override_id : option Uuid)
    : MM (option MaintenanceOverride) :=
  lift (maintenance_require_admin caller) ;;;
  windows <- maint_db list_windows ;;
  t <- now ;;
  if negb (existsb (covers t action) windows) then ret None
  else
    match override_id with
    | None => throw DestructiveBlocked
    | Some id =>
        found <- maint_db (get_override id) ;;
        o <- ok_or found OverrideMissing ;;
        if negb (override_is_valid t o) then throw OverrideExpired
        else if negb (bool_decide (ov_target_class o = action)) then throw OverrideMissing
        else ret (Some (override_consume t o))
    end.
Definition gate_commit (spent : option MaintenanceOverride) : MM unit :=
  match spent with
  | None => ret tt
  | Some o => maint_db (save_override o)
  end.
Definition gate (caller : UserRec) (action : DestructiveActionClass) (override_id : option Uuid) : MM unit :=
  spent <- gate_check caller action override_id ;; gate_commit spent.
End enforcer.

(** * Maintenance windows: theorems

    The invariant of the two tables, what the gate answers, and how often an override can be
    spent. *)

(** ** The tables *)

Definition disjoint_windows (t : list WindowRow) : Prop :=
  ∀ r1 r2, In r1 t → In r2 t → mw_id r1 ≠ mw_id r2 → overlaps (decode_window r1) (decode_window r2) = false.

Record maint_wf (t : MaintenanceTables) : Prop := {
  wf_window_ids : NoDup (map mw_id (mt_windows t));
  wf_windows_valid : ∀ r, In r (mt_windows t) → window_validate (decode_window r) = Ok tt;
  wf_windows_disjoint : disjoint_windows (mt_windows t);
  wf_override_ids : NoDup (map mo_id (mt_overrides t));
  wf_overrides : ∀ r, In r (mt_overrides t) → is_ok (decode_override r) = true
}.

(** What one statement does; [P] holds of the identifiers of new overrides. *)
Inductive maint_change (P : Uuid → Prop) : relation MaintenanceTables :=
| McSchedule w t :
    window_validate w = Ok tt →
    (∀ r, In r (mt_windows t) → overlaps w (decode_window r) = false) →
    maint_change P t (replace_window_row (window_row w) t)
| McCancel id t :
    maint_change P t (set_windows (delete_where (window_is id) (mt_windows t)) t)
| McIssue o t : P (ov_id o) → maint_change P t (replace_override_row (override_row o) t)
| McSpend o t : ov_consumed_at o ≠ None → maint_change P t (replace_override_row (override_row o) t).

Lemma overlaps_sym w x : overlaps w x = overlaps x w.
Proof. unfold overlaps. by rewrite orb_comm. Qed.

(** [INSERT OR REPLACE] keeps a key unique. *)
Lemma replace_NoDup {A} (key : A → Uuid) r t :
  NoDup (map key t) → NoDup (map key (delete_where (λ x, key x =? key r) t ++ [r])%list).
Proof.
  intros Hnd. apply NoDup_snoc; [by apply delete_where_NoDup|].
  intros (x & Hx & [_ Hn]%delete_where_In)%in_map_iff. by rewrite Hx, N.eqb_refl in Hn.
Qed.
Lemma replace_In {A} (q : A → bool) r t x :
  In x (delete_where q t ++ [r])%list → x = r ∨ (In x t ∧ q x = false).
Proof. intros [Hx%delete_where_In|[<-|[]]]%in_app_or; auto. Qed.

Lemma class_roundtrip c : parse_class (class_str c) = Ok c.
Proof. by destruct c. Qed.
Lemma override_row_decodes o : is_ok (decode_override (override_row o)) = true.
Proof. unfold decode_override. cbn. by rewrite class_roundtrip. Qed.

Lemma wf_schedule w t :
  window_validate w = Ok tt → (∀ r, In r (mt_windows t) → overlaps w (decode_window r) = false) →
  maint_wf t → maint_wf (replace_window_row (window_row w) t).
Proof.
  intros Hv Ho [H1 H2 H3 H4 H5]. split; cbn [replace_window_row set_windows mt_windows mt_overrides]; try done.
  - by apply (replace_NoDup mw_id).
  - intros r [->|[Hr _]]%replace_In; [by destruct w|by apply H2].
  - intros r1 r2 Hr1 Hr2 Hne.
    assert (∀ r, In r (mt_windows t) → overlaps (decode_window (window_row w)) (decode_window r) = false) as Hw.
    { intros r Hr. specialize (Ho r Hr). by destruct w. }
    apply replace_In in Hr1 as [->|[Hr1 _]]; apply replace_In in Hr2 as [->|[Hr2 _]]; [done|by apply Hw| |by apply H3].
    rewrite overlaps_sym. by apply Hw.
Qed.
Lemma wf_cancel id t :
  maint_wf t → maint_wf (set_windows (delete_where (window_is id) (mt_windows t)) t).
Proof.
  intros [H1 H2 H3 H4 H5]. split; cbn [set_windows mt_windows mt_overrides]; try done.
  - by apply delete_where_NoDup.
  - intros r [Hr _]%delete_where_In. by apply H2.
  - intros r1 r2 [Hr1 _]%delete_where_In [Hr2 _]%delete_where_In. by apply H3.
Qed.
Lemma wf_override o t : maint_wf t → maint_wf (replace_override_row (override_row o) t).
Proof.
  intros [H1 H2 H3 H4 H5]. split; cbn [replace_override_row set_overrides mt_windows mt_overrides]; try done.
  - by apply (replace_NoDup mo_id).
  - intros r [->|[Hr _]]%replace_In; [apply override_row_decodes|by apply H5].
Qed.
Lemma maint_wf_change P t t' : maint_change P t t' → maint_wf t → maint_wf t'.
Proof. destruct 1; [by apply wf_schedule|apply wf_cancel|apply wf_override..]. Qed.

(** An override that is stored and consumed stays so while new overrides have other names. *)
Definition override_spent (id : Uuid) (t : MaintenanceTables) : Prop :=
  In id (map mo_id (mt_overrides t)) ∧ ∀ r, In r (mt_overrides t) → mo_id r = id → mo_consumed_at r ≠ None.

Lemma replace_keys {A} (key : A → Uuid) r t i :
  In i (map key t) → In i (map key (delete_where (λ x, key x =? key r) t ++ [r])%list).
Proof.
  intros (x & <- & Hx)%in_map_iff. rewrite map_app. apply in_or_app.
  destruct (key x =? key r) eqn:E; [right; apply N.eqb_eq in E; by left|].
  left. apply in_map_iff. exists x. split; [done|]. by apply delete_where_In.
Qed.
Lemma spent_change id t t' : maint_change (λ i, i ≠ id) t t' → override_spent id t → override_spent id t'.
Proof.
  intros Hc [Hin Hsp]. destruct Hc as [w t _ _|i t|o t Hne|o t Ho]; try done;
    (split; [by apply (replace_keys mo_id)|]); intros r [->|[Hr _]]%replace_In; cbn; auto; congruence.
Qed.
Lemma ids_change P id t t' :
  maint_change P t t' → In id (map mo_id (mt_overrides t)) → In id (map mo_id (mt_overrides t')).
Proof. destruct 1 as [| |o t _|o t _]; try done; apply (replace_keys mo_id (override_row o)). Qed.

(** ** The operations *)

Section operations.
Context `{Env}.
Abbreviation maint w := (ht_maintenance (db_hosting (w_db w))).
Abbreviation K P := (moves (maint_change P)).

Lemma list_windows_run w l w' :
  list_windows w = (Ok l, w') →
  w_db w' = w_db w ∧ w_step w' = S (w_step w) ∧ l ≡ₚ map decode_window (mt_windows (maint w)).
Proof.
  unfold list_windows. intros Hl. inv_bind Hl. injection Hl as <- <-.
  assert (w_step w0 = S (w_step w)) as Hs.
  { unfold select, statement in R. destruct (sql_fault _); [done|]. by injection R as _ <-. }
  apply select_run in R as (Hdb & -> & _). split_and!; [done..|].
  apply Permutation_map, merge_sort_Permutation.
Qed.
Lemma existsb_perm {A} (q : A → bool) l l' : l ≡ₚ l' → existsb q l = existsb q l'.
Proof.
  intros Hp. apply Bool.eq_iff_eq_true. rewrite !existsb_exists.
  split; intros (x & Hx & Hq); exists x; (split; [|done]); [by apply (Permutation_in x Hp)|].
  by apply (Permutation_in x (Permutation_sym Hp)).
Qed.

Lemma existsb_map_decode q (l : list WindowRow) :
  existsb q (map decode_window l) = existsb (λ r, q (decode_window r)) l.
Proof. induction l as [|r l IH]; [done|]. cbn. by rewrite IH. Qed.

Lemma K_schedule P caller win : within (K P) (schedule_window caller win).
Proof.
  unfold schedule_window, maint_db. apply within_bind_lift; [apply _|]. intros [] _.
  apply within_bind_lift; [apply _|]. intros [] Hv w.
  apply bind_at; [apply _|unfold list_windows; match goal with |- _ _ (?c _).2 =>
    enough (within (K P) c) as Hc by apply Hc end; within_tac|].
  intros l w1 (Hdb & _ & Hl)%map_err_ok%list_windows_run.
  destruct (existsb _ l) eqn:Eo; [by apply within_throw, _|].
  apply bind_at; [apply _| |intros [] w2 _; apply bind_at; [apply _|apply on_db_audit; apply _|]; intros; by apply within_ret, _].
  apply map_err_at, moves_execute, rtc_once, McSchedule; [done|].
  intros r Hr. rewrite (existsb_perm _ _ _ Hl) in Eo. cbn in Hr. rewrite Hdb in Hr.
  apply (proj1 (existsb_false _ _) Eo). by apply in_map.
Qed.
Lemma K_cancel P caller id : within (K P) (cancel_window caller id).
Proof.
  unfold cancel_window, maint_db. apply within_bind_lift; [apply _|]. intros [] _.
  apply within_map_err. intros w. apply moves_execute, rtc_once, McCancel.
Qed.
Lemma K_issue (P : Uuid → Prop) caller c reason ttl w :
  P (new_v4 (S (w_step w))) → K P w (issue_override caller c reason ttl w).2.
Proof.
  intros HP. unfold issue_override, maint_db. destruct (maintenance_require_admin caller); [|reflexivity].
  unfold bind at 1. cbn [lift ret].
  apply bind_at; [apply _|apply on_db_tick, _|]. intros t w1 [= <- <-].
  apply bind_at; [apply _|apply on_db_tick, _|]. intros id w2 [= <- <-].
  apply bind_at; [apply _| |intros; by apply within_ret, _].
  apply map_err_at, moves_execute, rtc_once, McIssue. done.
Qed.

Lemma gate_check_run caller action oid w s w' :
  gate_check caller action oid w = (Ok s, w') →
  let t := utc_now (S (w_step w)) in
  let covered := existsb (λ r, covers t action (decode_window r)) (mt_windows (maint w)) in
  w_db w' = w_db w ∧ is_admin caller = true
  ∧ match s with
    | None => covered = false
    | Some o' => covered = true ∧ ∃ id r o, oid = Some id ∧ List.find (override_is id) (mt_overrides (maint w)) = Some r
        ∧ decode_override r = Ok o ∧ ov_target_class o = action
        ∧ ov_consumed_at o = None ∧ (t ≤ ov_expires_at o)%Z ∧ o' = override_consume t o
    end.
Proof.
  intros Hg t covered. unfold gate_check, maintenance_require_admin in Hg.
  destruct (is_admin caller); [|done]. unfold bind at 1 in Hg. cbn [lift ret] in Hg.
  inv_bind Hg. apply map_err_ok, list_windows_run in R as (Hdb & Hs & Hl).
  inv_bind Hg. injection R as <- <-. rewrite Hs in Hg. fold t in Hg.
  rewrite (existsb_perm _ _ _ Hl) in Hg.
  assert (existsb (covers t action) (map decode_window (mt_windows (maint w))) = covered) as Hcov.
  { apply existsb_map_decode. }
  rewrite Hcov in Hg. destruct covered; cbn [negb] in Hg; [|by injection Hg as <- <-].
  destruct oid as [id|]; [|done]. inv_bind Hg. apply map_err_ok in R. unfold get_override in R.
  inv_bind R. apply select_run in R0 as (Hdb2 & -> & _). cbn in Hdb2. apply lift_ok in R as [Ho ->].
  inv_bind Hg. apply ok_or_ok in R as [-> ->]. apply transpose_found in Ho as (r & Hr & Hd).
  cbn in Hr. rewrite Hdb in Hr. unfold override_is_valid in Hg.
  destruct (bool_decide (ov_consumed_at _ = None)) eqn:E1; [|done]. apply bool_decide_eq_true in E1.
  cbn [andb] in Hg. destruct (Z.leb_spec t (ov_expires_at a1)); [|done]. cbn [negb] in Hg.
  destruct (bool_decide (_ = action)) eqn:E2; [|done]. apply bool_decide_eq_true in E2.
  injection Hg as <- <-. split_and!; [congruence|done..|]. exists id, r, a1. done.
Qed.

Lemma K_gate_check P caller action oid : within (K P) (gate_check caller action oid).
Proof. unfold gate_check, maint_db, list_windows, get_override. within_tac. Qed.
Lemma K_gate P caller action oid : within (K P) (gate caller action oid).
Proof.
  intros w. unfold gate. apply bind_at; [apply _|apply K_gate_check|]. intros s w1 Hs.
  apply gate_check_run in Hs as (_ & _ & Hs). destruct s as [o|]; [|reflexivity].
  destruct Hs as (_ & id & r & o' & _ & _ & _ & _ & _ & _ & ->). cbn [gate_commit]. unfold maint_db.
  apply map_err_at, moves_execute, rtc_once, McSpend. done.
Qed.

(** *** Sequences of requests *)

(** A complete request, in a world where the identifier drawn for an override is new. *)
Inductive maint_step : World → World → Prop :=
| MsSchedule caller win w : maint_step w (schedule_window caller win w).2
| MsCancel caller id w : maint_step w (cancel_window caller id w).2
| MsIssue caller c reason ttl w :
    ~ In (new_v4 (S (w_step w))) (map mo_id (mt_overrides (maint w))) →
    maint_step w (issue_override caller c reason ttl w).2
| MsGate caller action oid w : maint_step w (gate caller action oid w).2.

Lemma maint_step_changes P w w' :
  maint_step w w' → (∀ id, ~ In id (map mo_id (mt_overrides (maint w))) → P id) → K P w w'.
Proof.
  intros Hs HP. destruct Hs; [apply K_schedule|apply K_cancel|apply K_issue; by apply HP|apply K_gate].
Qed.

(** Windows stay apart.  Along any sequence of complete requests, with statements failing
    anywhere, the stored windows have unique identifiers, end after they start and block some
    class, and no two of them overlap: two different windows that are both active at an instant
    meet at that instant. *)
Theorem windows_stay_apart w w' :
  rtc maint_step w w' → maint_wf (maint w) →
  maint_wf (maint w')
  ∧ ∀ r1 r2 t, In r1 (mt_windows (maint w')) → In r2 (mt_windows (maint w')) → mw_id r1 ≠ mw_id r2 →
      window_is_active t (decode_window r1) = true → window_is_active t (decode_window r2) = true →
      (t = mw_ends_at r1 ∧ t = mw_starts_at r2) ∨ (t = mw_starts_at r1 ∧ t = mw_ends_at r2).
Proof.
  intros Hs HW. assert (maint_wf (maint w')) as HW'.
  { induction Hs as [|w w1 w' Hst _ IH]; [done|]. apply IH.
    refine (moves_keeps (maint_change (λ _, True)) maint_wf w w1 (maint_wf_change _) _ HW).
    by apply maint_step_changes. }
  split; [done|]. intros r1 r2 t Hr1 Hr2 Hne Ha1 Ha2.
  pose proof (wf_windows_disjoint _ HW' r1 r2 Hr1 Hr2 Hne) as Ho.
  unfold overlaps, window_is_active in *. cbn in *. lia.
Qed.

(** *** The gate *)

(** An override that lets an action through at an instant. *)
Definition unlocks (t : DateTime) (action : DestructiveActionClass) (id : Uuid) (r : OverrideRow) : Prop :=
  mo_id r = id ∧ mo_consumed_at r = None ∧ (t ≤ mo_expires_at r)%Z ∧ mo_target_class r = class_str action.
Definition blocked (t : DateTime) (action : DestructiveActionClass) (m : MaintenanceTables) : Prop :=
  ∃ r, In r (mt_windows m) ∧ (mw_starts_at r ≤ t ≤ mw_ends_at r)%Z ∧ In action (mw_blocked_classes r).

Lemma covered_blocked t action m :
  existsb (λ r, covers t action (decode_window r)) (mt_windows m) = true ↔ blocked t action m.
Proof.
  rewrite existsb_exists. unfold blocked, covers, window_is_active. cbn. split.
  - intros (r & Hr & [Ht (c & Hc & Hb)%existsb_exists]%andb_true_iff). exists r. split; [done|].
    apply bool_decide_eq_true in Hb as ->. split; [lia|done].
  - intros (r & Hr & Ht & Hc). exists r. split; [done|]. apply andb_true_iff. split; [lia|].
    apply existsb_exists. exists action. split; [done|]. by apply bool_decide_eq_true.
Qed.
Lemma class_str_inj c s : parse_class s = Ok c → s = class_str c.
Proof.
  unfold parse_class. repeat case_match; try done; intros [= <-]; by apply String.eqb_eq.
Qed.
Lemma decode_override_fields r o :
  decode_override r = Ok o →
  mo_target_class r = class_str (ov_target_class o) ∧ ov_consumed_at o = mo_consumed_at r
  ∧ ov_expires_at o = mo_expires_at r ∧ ov_id o = mo_id r.
Proof.
  unfold decode_override. destruct (parse_class _) as [c|] eqn:E; [|done]. cbn. intros [= <-].
  by apply class_str_inj in E.
Qed.

Lemma gate_run caller action oid w w' :
  gate caller action oid w = (Ok tt, w') → blocked (utc_now (S (w_step w))) action (maint w) →
  is_admin caller = true ∧ ∃ id r, oid = Some id ∧ In r (mt_overrides (maint w))
    ∧ unlocks (utc_now (S (w_step w))) action id r ∧ override_spent id (maint w').
Proof.
  unfold gate. intros Hg Hb%covered_blocked. inv_bind Hg. apply gate_check_run in R as (Hdb & Ha & Hs).
  split; [done|]. destruct a as [o'|]; [|by rewrite Hs in Hb].
  destruct Hs as (_ & id & r & o & -> & Hf & Hd & Hc & Hn & Hx & ->). exists id, r.
  apply List.find_some in Hf as [Hin Hid%N.eqb_eq].
  apply decode_override_fields in Hd as (Hdc & Hdn & Hdx & Hdi).
  split_and!; [done..|split_and!; congruence|].
  apply map_err_ok, on_part_run in Hg as [Hg _]. cbn in Hg. rewrite Hg. split.
  - cbn. rewrite map_app. apply in_or_app. right. left. cbn. congruence.
  - intros x [->|[_ Hx2]]%replace_In; [done|]. intros Hxi. unfold override_is in Hx2. cbn in Hx2.
    by rewrite Hxi, Hdi, Hid, N.eqb_refl in Hx2.
Qed.

(** The reads of [gate] when every statement is executed. *)
Lemma gate_check_covered caller action oid w :
  (∀ k, sql_fault k = None) → is_admin caller = true →
  let t := utc_now (S (w_step w)) in
  (blocked t action (maint w) ∨ gate_check caller action oid w = (Ok None, tick (tick w)))
  ∧ ∀ id r, blocked t action (maint w) → oid = Some id → maint_wf (maint w) →
      In r (mt_overrides (maint w)) → unlocks t action id r →
      ∃ o, gate_check caller action oid w = (Ok (Some o), mkWorld (3 + w_step w)%nat (w_db w)).
Proof.
  intros Hnf Ha t. unfold gate_check, maintenance_require_admin. rewrite Ha.
  unfold list_windows, maint_db, bind, map_err. cbn [lift ret]. rewrite !(select_no_fault Hnf). cbn.
  fold t. rewrite (existsb_perm _ _ _ (Permutation_map decode_window (merge_sort_Permutation by_starts_at _))).
  rewrite existsb_map_decode. split.
  - destruct (existsb _ (mt_windows (maint w))) eqn:Ec; [|by right]. left. by apply covered_blocked.
  - intros id r Hb -> HW Hin (Hid & Hn & Hx & Hcl). apply covered_blocked in Hb. rewrite Hb. cbn [negb].
    unfold get_override, bind. rewrite (select_no_fault Hnf). cbn.
    assert (List.find (override_is id) (mt_overrides (maint w)) = Some r) as ->.
    { rewrite <- Hid. apply (find_key mo_id N.eqb); [apply N.eqb_eq|apply HW|done]. }
    cbn. unfold decode_override. rewrite Hcl, class_roundtrip. cbn.
    unfold override_is_valid. cbn. rewrite Hn, bool_decide_true by done. cbn.
    rewrite (proj2 (Z.leb_le _ _) Hx). cbn. rewrite bool_decide_true by done. cbn. eauto.
Qed.

(** What passes the gate.  When statements are executed, a request passes the gate exactly
    when it comes from an administrator and no stored window blocks its class at that moment, or
    it presents a stored override of that class that is neither consumed nor expired; and a
    blocked request that passes leaves its override consumed. *)
Theorem gate_passes_iff caller action oid w :
  (∀ k, sql_fault k = None) → maint_wf (maint w) →
  let t := utc_now (S (w_step w)) in
  (is_ok (gate caller action oid w).1 = true
   ↔ is_admin caller = true
     ∧ (~ blocked t action (maint w)
        ∨ ∃ id r, oid = Some id ∧ In r (mt_overrides (maint w)) ∧ unlocks t action id r))
  ∧ (is_ok (gate caller action oid w).1 = true → blocked t action (maint w) →
     ∃ id, oid = Some id ∧ override_spent id (maint (gate caller action oid w).2)).
Proof.
  intros Hnf HW t.
  assert (is_ok (gate caller action oid w).1 = true → ∃ w', gate caller action oid w = (Ok tt, w')) as Hok.
  { destruct (gate _ _ _ w) as [[[]|] w']; [eauto|done]. }
  split; [split|].
  - intros (w' & Hg)%Hok. split.
    + unfold gate in Hg. inv_bind Hg. by apply gate_check_run in R as (_ & Ha & _).
    + destruct (existsb (λ r, covers t action (decode_window r)) (mt_windows (maint w))) eqn:Ec.
      * right. apply covered_blocked in Ec. apply gate_run in Hg as (_ & id & r & ? & ? & ? & _); eauto.
      * left. intros Hb%covered_blocked. congruence.
  - intros [Ha Hpass]. destruct (gate_check_covered caller action oid w Hnf Ha) as [Hfree Hcov].
    unfold gate, bind. destruct Hfree as [Hb|Hfree]; [|by rewrite Hfree].
    destruct Hpass as [[]|(id & r & Hoid & Hin & Hu)]; [done|].
    destruct (Hcov id r Hb Hoid HW Hin Hu) as (o & Ho). rewrite Ho.
    unfold gate_commit, maint_db, map_err, save_override. by rewrite (execute_no_fault Hnf).
  - intros (w' & Hg)%Hok Hb. rewrite Hg. apply gate_run in Hg as (_ & id & r & ? & _ & _ & Hsp); eauto.
Qed.

(** C34 (an override is spent once).  After a request has passed a blocked gate with an override,
    no later request, after any sequence of complete requests whose new overrides have new
    names, passes a blocked gate with that override. *)
Theorem override_single_use caller action id caller' action' w w1 w2 w3 :
  blocked (utc_now (S (w_step w))) action (maint w) →
  gate caller action (Some id) w = (Ok tt, w1) → rtc maint_step w1 w2 →
  blocked (utc_now (S (w_step w2))) action' (maint w2) →
  gate caller' action' (Some id) w2 ≠ (Ok tt, w3).
Proof.
  intros Hb Hg Hs Hb2 Hg2.
  assert (override_spent id (maint w1)) as Hsp.
  { apply gate_run in Hg as (_ & id' & r & [= <-] & _ & _ & Hsp); done. }
  clear Hb Hg. assert (override_spent id (maint w2)) as [_ Hsp2].
  { clear Hb2 Hg2. induction Hs as [|w1 w1' w2 Hst _ IH]; [done|]. apply IH.
    refine (moves_keeps (maint_change (λ i, i ≠ id)) (override_spent id) w1 w1' (spent_change id) _ Hsp).
    apply maint_step_changes; [done|]. intros i Hi ->. apply Hi, Hsp. }
  apply gate_run in Hg2 as (_ & id' & r & [= <-] & Hr & (Hid & Hn & _) & _); [|done].
  by destruct (Hsp2 r Hr Hid).
Qed.

(** Two requests at once spend an override twice.  When two requests for the same blocked
    action present the same override and both read it before either writes it back, both pass:
    the write does not look at whether the override is still unspent. *)
Theorem override_spent_twice caller action id r w :
  (∀ k, sql_fault k = None) → maint_wf (maint w) → is_admin caller = true →
  In r (mt_overrides (maint w)) →
  (∀ t, (t = utc_now (S (w_step w)) ∨ t = utc_now (4 + w_step w)%nat) →
     unlocks t action id r ∧ blocked t action (maint w)) →
  ∃ o1 o2 w1 w2 w3 w4,
    gate_check caller action (Some id) w = (Ok (Some o1), w1)
    ∧ gate_check caller action (Some id) w1 = (Ok (Some o2), w2)
    ∧ gate_commit (Some o1) w2 = (Ok tt, w3) ∧ gate_commit (Some o2) w3 = (Ok tt, w4).
Proof.
  intros Hnf HW Ha Hin Hu.
  assert (∀ k, (utc_now (S k) = utc_now (S (w_step w)) ∨ utc_now (S k) = utc_now (4 + w_step w)%nat) →
    ∃ o, gate_check caller action (Some id) (mkWorld k (w_db w)) = (Ok (Some o), mkWorld (3 + k)%nat (w_db w))) as Hc.
  { intros k Hk. destruct (Hu _ Hk) as [Hun Hb].
    by apply (gate_check_covered caller action (Some id) (mkWorld k (w_db w)) Hnf Ha) with (id := id) (r := r). }
  destruct (Hc (w_step w) ltac:(by left)) as (o1 & H1).
  destruct (Hc (3 + w_step w)%nat ltac:(by right)) as (o2 & H2).
  exists o1, o2. do 4 eexists. split; [destruct w; exact H1|]. split; [exact H2|].
  unfold gate_commit, maint_db, map_err, save_override. by rewrite !(execute_no_fault Hnf).
Qed.
End operations.
