(* ===== verification/LoadBalancing.v ===== *)
(** * Load balancing

    [crates/openpanel-domain/src/load_balancing/mod.rs] and
    [crates/openpanel-app/src/load_balancing/repo.rs] and [service.rs]: pools of members, the
    choice of a member, and the effect of a health probe.  The theorems follow the operations. *)
From S2P Require Import Prelude Text Paths AuditActions AuditLog Accounts CronJobs Maintenance HostingTables Store Users Sites Staging StagingChanges Parts MaintenanceService.
Open Scope N_scope.

(** ** Domain *)

Inductive LbError : Type :=
| LbForbidden | PoolNotFound (id : Uuid) | MemberNotFound (id : Uuid) | InvalidWeight (w : Z)
| PoolEmpty | LbPersistence (reason : string).

Inductive LbStatus : Type := LbHealthy | LbFailing | LbDisabled.
#[export] Instance LbStatus_eq_dec : EqDecision LbStatus.
Proof. solve_decision. Defined.
Definition lb_status_str (s : LbStatus) : string :=
  match s with LbHealthy => "healthy" | LbFailing => "failing" | LbDisabled => "disabled" end.
Definition is_eligible (s : LbStatus) : bool := match s with LbHealthy => true | _ => false end.

(** [weight] and [failed_probe_count] are [u32]. *)
Record Member := mkMember {
  mem_id : Uuid;
  mem_pool_id : Uuid;
  mem_address : string;
  mem_weight : Z;
  mem_status : LbStatus;
  mem_last_probe_at : option DateTime;
  mem_failed_probe_count : Z
}.
(** 58 is a colon. *)
Definition member_validate (m : Member) : result unit LbError :=
  if (100 <? mem_weight m)%Z then Err (InvalidWeight (mem_weight m))
  else if negb (contains_char (mem_address m) 58) then Err (InvalidWeight 0)
  else Ok tt.

Inductive PoolAlgorithm : Type := RoundRobin | Weighted | StickyIp.
Definition algorithm_str (a : PoolAlgorithm) : string :=
  match a with RoundRobin => "round_robin" | Weighted => "weighted" | StickyIp => "sticky_ip" end.

Record LbPool := mkLbPool {
  lbp_id : Uuid;
  lbp_name : string;
  lbp_algorithm : PoolAlgorithm;
  lbp_created_at : DateTime
}.

Record HealthCheck := mkHealthCheck {
  hc_pool_id : Uuid;
  hc_url : string;
  hc_failure_threshold : Z;
  hc_recovery_threshold : Z;
  hc_interval_secs : Z
}.
Definition health_check_default_for (pool : Uuid) : HealthCheck :=
  mkHealthCheck pool "http://localhost/health" 3 1 10.

(** [u32::saturating_add]. *)
Definition u32_saturating_add (a b : Z) : Z := Z.min (a + b) U32_MAX.

Record ProbeDecision := mkDecision {
  pd_member_id : Uuid;
  pd_ok : bool;
  pd_new_status : LbStatus
}.
(** [recovery_threshold] is not looked at. *)
Definition probe_evaluate (m : Member) (ok : bool) (failure_threshold recovery_threshold : Z)
    : ProbeDecision :=
  let new_failed := if ok then 0%Z else u32_saturating_add (mem_failed_probe_count m) 1 in
  let new_status :=
    match mem_status m with
    | LbDisabled => LbDisabled
    | _ =>
        if ok then
          match mem_status m with
          | LbFailing => if (new_failed =? 0)%Z then LbHealthy else mem_status m
          | _ => mem_status m
          end
        else if (failure_threshold <=? new_failed)%Z then LbFailing else mem_status m
    end in
  mkDecision (mem_id m) ok new_status.

(** [max_by_key(|m| (m.weight, Reverse(m.id)))]: the last of the greatest. *)
Definition at_least (m best : Member) : bool :=
  (mem_weight best <? mem_weight m)%Z
  || ((mem_weight best =? mem_weight m)%Z && (mem_id m <=? mem_id best)).
Definition heaviest (l : list Member) : option Member :=
  match l with
  | [] => None
  | m :: l => Some (fold_left (λ best m, if at_least m best then m else best) l m)
  end.
Definition can_serve (m : Member) : bool := is_eligible (mem_status m) && (0 <? mem_weight m)%Z.
Definition next_member (members : list Member) (algorithm : PoolAlgorithm) : option Member :=
  let eligible := List.filter can_serve members in
  match algorithm with
  | RoundRobin => head eligible
  | Weighted => heaviest eligible
  | StickyIp => head eligible
  end.

(** ** Rows *)

Definition lb_pool_row (p : LbPool) : LbPoolRow :=
  mkLbPoolRow (lbp_id p) (lbp_name p) (algorithm_str (lbp_algorithm p)) (lbp_created_at p).
Definition parse_algorithm (s : string) : result PoolAlgorithm RepoError :=
  if String.eqb s "round_robin" then Ok RoundRobin
  else if String.eqb s "weighted" then Ok Weighted
  else if String.eqb s "sticky_ip" then Ok StickyIp
  else Err ("unknown algorithm: " +:+ s).
Definition decode_lb_pool (r : LbPoolRow) : result LbPool RepoError :=
  algorithm <-? parse_algorithm (lp_algorithm r) ;;
  Ok (mkLbPool (lp_id r) (lp_name r) algorithm (lp_created_at r)).

Definition lb_member_row (m : Member) : LbMemberRow :=
  mkLbMemberRow (mem_id m) (mem_pool_id m) (mem_address m) (mem_weight m)
    (lb_status_str (mem_status m)) (mem_last_probe_at m) (mem_failed_probe_count m).
Definition parse_lb_status (s : string) : result LbStatus RepoError :=
  if String.eqb s "healthy" then Ok LbHealthy
  else if String.eqb s "failing" then Ok LbFailing
  else if String.eqb s "disabled" then Ok LbDisabled
  else Err ("unknown status: " +:+ s).
(** [x as u32] for [x: i64]. *)
Definition i64_as_u32 (x : Z) : Z := (x mod 2 ^ 32)%Z.
Definition decode_member (r : LbMemberRow) : result Member RepoError :=
  status <-? parse_lb_status (lm_status r) ;;
  Ok (mkMember (lm_id r) (lm_pool_id r) (lm_address r) (i64_as_u32 (lm_weight r)) status
        (lm_last_probe_at r) (i64_as_u32 (lm_failed_probe_count r))).

Definition lb_pool_is (id : Uuid) (r : LbPoolRow) : bool := lp_id r =? id.
Definition lb_member_is (id : Uuid) (r : LbMemberRow) : bool := lm_id r =? id.
Definition member_of (pool : Uuid) (r : LbMemberRow) : bool := lm_pool_id r =? pool.
Definition pool_by_created (r1 r2 : LbPoolRow) : Prop := (lp_created_at r1 ≤ lp_created_at r2)%Z.
#[export] Instance pool_by_created_dec : RelDecision pool_by_created.
Proof. unfold pool_by_created. intros r1 r2. apply _. Defined.

(** [INSERT OR REPLACE INTO lb_pools]: the row with the same key is deleted first, and
    [ON DELETE CASCADE] takes its members. *)
Definition replace_lb_pool_row (r : LbPoolRow) (t : LbTables) : LbTables :=
  let pools := (delete_where (lb_pool_is (lp_id r)) (lb_pools t) ++ [r])%list in
  if existsb (lb_pool_is (lp_id r)) (lb_pools t)
  then mkLbTables pools (delete_where (member_of (lp_id r)) (lb_members t))
  else set_lb_pools pools t.
Definition replace_member_row (r : LbMemberRow) (t : LbTables) : result (unit * LbTables) string :=
  if existsb (lb_pool_is (lm_pool_id r)) (lb_pools t)
  then Ok (tt, set_lb_members (delete_where (lb_member_is (lm_id r)) (lb_members t) ++ [r])%list t)
  else Err "FOREIGN KEY constraint failed".

#[export] Program Instance lb_part : Part LbTables := {| part := ht_lb; set_part := set_lb |}.
Next Obligation. done. Qed.

Section lb_repo.
Context `{Env}.
Abbreviation MR A := (M World RepoError A).
Abbreviation lb d := (ht_lb (db_hosting d)).

Definition save_lb_pool (p : LbPool) : MR unit := execute (on_part (replace_lb_pool_row (lb_pool_row p))).
Definition repo_list_lb_pools : MR (list LbPool) :=
  rows <- select (λ d, merge_sort pool_by_created (lb_pools (lb d))) ;;
  lift (collect decode_lb_pool rows).
Definition get_lb_pool (id : Uuid) : MR (option LbPool) :=
  row <- select (λ d, List.find (lb_pool_is id) (lb_pools (lb d))) ;;
  lift (transpose decode_lb_pool row).
Definition save_member (m : Member) : MR unit :=
  statement (part_statement (replace_member_row (lb_member_row m))).
Definition repo_list_members (pool : Uuid) : MR (list Member) :=
  rows <- select (λ d, select_where (member_of pool) (lb_members (lb d))) ;;
  lift (collect decode_member rows).
Definition get_member (id : Uuid) : MR (option Member) :=
  row <- select (λ d, List.find (lb_member_is id) (lb_members (lb d))) ;;
  lift (transpose decode_member row).
Definition delete_member (id : Uuid) : MR unit :=
  execute (on_part (λ t, set_lb_members (delete_where (lb_member_is id) (lb_members t)) t)).
End lb_repo.

(** ** [MemberRotator] and [LbService] *)

Definition member_after (ok : bool) (d : ProbeDecision) (t : DateTime) (m : Member) : Member :=
  mkMember (mem_id m) (mem_pool_id m) (mem_address m) (mem_weight m) (pd_new_status d) (Some t)
    (if negb ok then u32_saturating_add (mem_failed_probe_count m) 1
     else match pd_new_status d with LbHealthy => 0%Z | _ => mem_failed_probe_count m end).

Section lb_service.
Context `{Env}.
Abbreviation ML A := (M World LbError A).

Definition lb_db {A} (c : M World RepoError A) : ML A := map_err LbPersistence c.
Definition lb_require_admin (caller : UserRec) : result unit LbError :=
  match u_role caller with Owner | Admin => Ok tt | _ => Err LbForbidden end.

Definition next (pool_id : Uuid) : ML (option Member) :=
  found <- lb_db (get_lb_pool pool_id) ;;
  pool <- ok_or found (PoolNotFound pool_id) ;;
  members <- lb_db (repo_list_members pool_id) ;;
  ret (next_member members (lbp_algorithm pool)).

Definition apply_probe (caller : UserRec) (member_id : Uuid) (ok : bool)
    (failure_threshold recovery_threshold : Z) : ML ProbeDecision :=
  lift (lb_require_admin caller) ;;;
  found <- lb_db (get_member member_id) ;;
  m <- ok_or found (MemberNotFound member_id) ;;
  let d := probe_evaluate m ok failure_threshold recovery_threshold in
  t <- now ;;
  let m' := member_after ok d t m in
  lb_db (save_member m') ;;;
  audit (u_username caller) LbMemberChanged Success
    (λ e, with_metadata (JObject [("ok", JBool ok);
                                  ("new_status", JString (lb_status_str (mem_status m')))])
            (with_target (uuid_text member_id) e)) ;;;
  ret d.

Definition create_lb_pool (caller : UserRec) (p : LbPool) : ML LbPool :=
  lift (lb_require_admin caller) ;;;
  lb_db (save_lb_pool p) ;;;
  ret p.
Definition add_member (caller : UserRec) (m : Member) : ML Member :=
  lift (lb_require_admin caller) ;;;
  lift (member_validate m) ;;;
  lb_db (save_member m) ;;;
  ret m.
Definition list_lb_pools : ML (list LbPool) := lb_db repo_list_lb_pools.
Definition list_members (pool : Uuid) : ML (list Member) := lb_db (repo_list_members pool).
End lb_service.

(** * Load balancing: theorems

    Which member is chosen, the invariant of the two tables, and what a history of probes makes
    of a member. *)

(** ** The choice of a member *)

(** [m] is preferred to [x]: heavier, or as heavy with the smaller identifier. *)
Definition preferred (m x : Member) : Prop :=
  (mem_weight x < mem_weight m)%Z ∨ (mem_weight x = mem_weight m ∧ mem_id m <= mem_id x).

Lemma at_least_spec m x : if at_least m x then preferred m x else preferred x m.
Proof.
  unfold at_least, preferred. destruct (Z.ltb_spec (mem_weight x) (mem_weight m)); cbn; [by left|].
  destruct (Z.eqb_spec (mem_weight x) (mem_weight m)); cbn; [|left; lia].
  destruct (N.leb_spec (mem_id m) (mem_id x)); right; split; lia.
Qed.
Lemma preferred_trans m x y : preferred m x → preferred x y → preferred m y.
Proof. unfold preferred. lia. Qed.

Lemma heaviest_fold l m :
  let b := fold_left (λ best m, if at_least m best then m else best) l m in
  (b = m ∨ In b l) ∧ ∀ x, x = m ∨ In x l → preferred b x.
Proof.
  revert m. induction l as [|y l IH]; intros m; cbn.
  - split; [by left|]. intros x [->|[]]. right. lia.
  - pose proof (at_least_spec y m) as Hc. destruct (at_least y m);
      [destruct (IH y) as [Hin Hmax] | destruct (IH m) as [Hin Hmax]].
    + split; [naive_solver|]. intros x [->|[->|Hx]]; [|by apply Hmax; left|by apply Hmax; right].
      eapply preferred_trans; [by apply Hmax; left|done].
    + split; [naive_solver|]. intros x [->|[->|Hx]]; [by apply Hmax; left| |by apply Hmax; right].
      eapply preferred_trans; [by apply Hmax; left|done].
Qed.

Lemma head_filter {A} (q : A → bool) l x :
  head (List.filter q l) = Some x →
  ∃ l1 l2, l = (l1 ++ x :: l2)%list ∧ q x = true ∧ ∀ y, In y l1 → q y = false.
Proof.
  induction l as [|y l IH]; [done|]. cbn. destruct (q y) eqn:E; cbn.
  - intros [= <-]. by exists [], l.
  - intros (l1 & l2 & -> & Hq & Hl)%IH. exists (y :: l1), l2. split_and!; [done..|].
    intros z [<-|Hz]; auto.
Qed.

(** Which member is chosen.  A member is chosen exactly when one is healthy with a positive
    weight, and the one chosen is.  A weighted pool takes the heaviest such member, the smallest
    identifier among equals; a round-robin or sticky pool takes the first such member in the
    order of the list, so two choices from the same list are the same member. *)
Theorem next_member_exact members algorithm :
  (next_member members algorithm = None ↔ ∀ x, In x members → can_serve x = false)
  ∧ ∀ m, next_member members algorithm = Some m →
      In m members ∧ can_serve m = true
      ∧ match algorithm with
        | Weighted => ∀ x, In x members → can_serve x = true → preferred m x
        | _ => ∃ before after, members = (before ++ m :: after)%list
                 ∧ ∀ x, In x before → can_serve x = false
        end.
Proof.
  assert (∀ x, In x (List.filter can_serve members) ↔ In x members ∧ can_serve x = true) as Hf
    by (intros; apply filter_In).
  split.
  - rewrite <- existsb_false. unfold next_member; cbv zeta. split.
    + intros Hn. apply existsb_false. intros x Hx. destruct (can_serve x) eqn:E; [|done].
      assert (In x (List.filter can_serve members)) as Hin by by apply Hf.
      by destruct (List.filter can_serve members); [|destruct algorithm].
    + intros He. assert (List.filter can_serve members = []) as ->; [|by destruct algorithm].
      destruct (List.filter can_serve members) as [|x l] eqn:E; [done|].
      destruct (proj1 (Hf x)) as [Hx Hs]; [by left|].
      by rewrite (proj1 (existsb_false _ _) He x Hx) in Hs.
  - intros m. unfold next_member; cbv zeta. destruct algorithm.
    + intros (l1 & l2 & -> & Hq & Hl)%head_filter. split_and!; [apply in_elt|done|eauto].
    + destruct (List.filter can_serve members) as [|x l] eqn:E; [done|]. intros [= <-].
      destruct (heaviest_fold l x) as [Hin Hmax].
      destruct (proj1 (Hf (fold_left (λ best m, if at_least m best then m else best) l x))) as [H1 H2];
        [naive_solver|]. split_and!; [done..|]. intros y Hy Hs. apply Hmax.
      assert (In y (x :: l)) as [->|?]; [by apply Hf|by left|by right].
    + intros (l1 & l2 & -> & Hq & Hl)%head_filter. split_and!; [apply in_elt|done|eauto].
Qed.

(** ** The tables *)

Definition lb_member_ok (r : LbMemberRow) : Prop :=
  is_ok (parse_lb_status (lm_status r)) = true ∧ (0 ≤ lm_weight r ≤ 100)%Z
  ∧ is_u32 (lm_failed_probe_count r) ∧ contains_char (lm_address r) 58 = true.
Record lb_wf (t : LbTables) : Prop := {
  wf_lb_pool_ids : NoDup (map lp_id (lb_pools t));
  wf_lb_pools : ∀ r, In r (lb_pools t) → is_ok (decode_lb_pool r) = true;
  wf_lb_member_ids : NoDup (map lm_id (lb_members t));
  wf_lb_members : ∀ r, In r (lb_members t) → lb_member_ok r ∧ In (lm_pool_id r) (map lp_id (lb_pools t))
}.

Inductive lb_change : relation LbTables :=
| LcPool p t : lb_change t (replace_lb_pool_row (lb_pool_row p) t)
| LcMember r t t' : lb_member_ok r → replace_member_row r t = Ok (tt, t') → lb_change t t'.

Lemma algorithm_roundtrip a : parse_algorithm (algorithm_str a) = Ok a.
Proof. by destruct a. Qed.
Lemma lb_status_roundtrip s : parse_lb_status (lb_status_str s) = Ok s.
Proof. by destruct s. Qed.

Lemma replace_member_inv r t t' :
  replace_member_row r t = Ok (tt, t') →
  In (lm_pool_id r) (map lp_id (lb_pools t))
  ∧ t' = set_lb_members (delete_where (lb_member_is (lm_id r)) (lb_members t) ++ [r])%list t.
Proof.
  unfold replace_member_row. destruct (existsb _ _) eqn:E; [|done]. intros [= <-]. split; [|done].
  apply existsb_exists in E as (p & Hp & Hid%N.eqb_eq). apply in_map_iff. eauto.
Qed.

Lemma lb_wf_pool p t : lb_wf t → lb_wf (replace_lb_pool_row (lb_pool_row p) t).
Proof.
  intros [H1 H2 H3 H4]. unfold replace_lb_pool_row. destruct (existsb _ _) eqn:E; split;
    cbn [set_lb_pools lb_pools lb_members]; try done.
  1,5: by apply (replace_NoDup lp_id).
  1,4: intros r [->|[Hr _]]%replace_In; [unfold decode_lb_pool; cbn; by rewrite algorithm_roundtrip|by apply H2].
  - by apply delete_where_NoDup.
  - intros r [Hr _]%delete_where_In. destruct (H4 r Hr). split; [done|].
    by apply (replace_keys lp_id (lb_pool_row p)).
  - intros r Hr. destruct (H4 r Hr). split; [done|]. by apply (replace_keys lp_id (lb_pool_row p)).
Qed.
Lemma lb_wf_member r t t' :
  lb_member_ok r → replace_member_row r t = Ok (tt, t') → lb_wf t → lb_wf t'.
Proof.
  intros Hok (Hp & ->)%replace_member_inv [H1 H2 H3 H4]. split; cbn [set_lb_members lb_pools lb_members]; try done.
  - by apply (replace_NoDup lm_id).
  - intros x [->|[Hx _]]%replace_In; [done|by apply H4].
Qed.
Lemma lb_wf_change t t' : lb_change t t' → lb_wf t → lb_wf t'.
Proof. destruct 1; [apply lb_wf_pool|by eapply lb_wf_member]. Qed.

(** ** The operations *)

Lemma u32_small x : is_u32 x → i64_as_u32 x = x.
Proof. unfold is_u32, U32_MAX, i64_as_u32. intros. apply Z.mod_small. lia. Qed.

(** A row of a consistent table is the row of the member it decodes into. *)
Lemma decode_member_row r m : lb_member_ok r → decode_member r = Ok m → r = lb_member_row m.
Proof.
  intros (_ & Hw & Hc & _). unfold decode_member. destruct (parse_lb_status _) as [s|] eqn:E; [|done].
  cbn. intros [= <-]. unfold lb_member_row. cbn. rewrite !u32_small; [|done|unfold is_u32, U32_MAX; lia].
  assert (lm_status r = lb_status_str s) as Hs; [|destruct r; cbn in *; by rewrite Hs].
  unfold parse_lb_status in E. repeat case_match; try done; injection E as <-; by apply String.eqb_eq.
Qed.

Section operations.
Context `{Env}.
Abbreviation lb w := (ht_lb (db_hosting (w_db w))).
Abbreviation K := (moves lb_change).

Lemma get_member_run id w o w' :
  get_member id w = (Ok o, w') →
  w_db w' = w_db w ∧ found_row decode_member (List.find (lb_member_is id) (lb_members (lb w))) o.
Proof.
  unfold get_member. intros Hg. inv_bind Hg. apply select_run in R as (Hdb & -> & _).
  apply lift_ok in Hg as [Hg ->]. by apply transpose_found in Hg.
Qed.

Lemma member_after_ok ok f rc t m :
  lb_member_ok (lb_member_row m) →
  lb_member_ok (lb_member_row (member_after ok (probe_evaluate m ok f rc) t m)).
Proof.
  intros (_ & Hw & Hc & Ha). split; [|split; [done|split; [|done]]].
  - cbn [lb_member_row lm_status]. by rewrite lb_status_roundtrip.
  - cbn in *. unfold is_u32, u32_saturating_add, U32_MAX in *. repeat case_match; lia.
Qed.

Lemma K_apply_probe caller id ok f rc w :
  lb_wf (lb w) → K w (apply_probe caller id ok f rc w).2.
Proof.
  intros HW. unfold apply_probe, lb_db. apply bind_at; [apply _|apply within_lift, _|]. intros [] w1 [_ ->]%lift_ok.
  apply bind_at; [apply _|match goal with |- _ _ (?c _).2 => enough (within K c) as Hc by apply Hc end;
    unfold get_member; within_tac|].
  intros o w2 (Hdb & Ho)%map_err_ok%get_member_run.
  apply bind_at; [apply _|apply within_ok_or, _|]. intros m w3 [-> ->]%ok_or_ok.
  destruct Ho as (r & Hr & Hd). apply List.find_some in Hr as [Hr _].
  destruct (wf_lb_members _ HW r Hr) as [Hok _]. pose proof (decode_member_row _ _ Hok Hd) as ->.
  apply bind_at; [apply _|apply on_db_tick, _|]. intros t w4 [= <- <-].
  apply bind_at; [apply _| |intros [] w5 _; apply bind_at; [apply _|apply on_db_audit; apply _|]; intros; by apply within_ret, _].
  apply map_err_at, moves_statement. intros [] t' Ht'. eapply rtc_once, LcMember, Ht'.
  by apply member_after_ok.
Qed.
Lemma K_create_pool caller p : within K (create_lb_pool caller p).
Proof.
  unfold create_lb_pool, lb_db. apply within_bind_lift; [apply _|]. intros [] _.
  apply within_bind; [apply _| |within_tac]. apply within_map_err. intros w.
  apply moves_execute, rtc_once, LcPool.
Qed.
Lemma K_add caller m :
  is_u32 (mem_weight m) → is_u32 (mem_failed_probe_count m) → within K (add_member caller m).
Proof.
  intros Hw Hc. unfold add_member, lb_db. apply within_bind_lift; [apply _|]. intros [] _.
  apply within_bind_lift; [apply _|]. intros [] Hv.
  apply within_bind; [apply _| |within_tac]. apply within_map_err. intros w.
  apply moves_statement. intros [] t Ht. eapply rtc_once, LcMember, Ht.
  unfold member_validate in Hv. destruct (Z.ltb_spec 100 (mem_weight m)); [done|].
  destruct (contains_char _ _) eqn:E; [|done]. unfold is_u32 in *. split_and!; cbn; try done.
  - by rewrite lb_status_roundtrip.
  - lia.
Qed.

(** A complete request; the integers are [u32]. *)
Inductive lb_step : World → World → Prop :=
| LsCreate caller p w : lb_step w (create_lb_pool caller p w).2
| LsAdd caller m w : is_u32 (mem_weight m) → is_u32 (mem_failed_probe_count m) →
    lb_step w (add_member caller m w).2
| LsProbe caller id ok f rc w : lb_step w (apply_probe caller id ok f rc w).2.

Lemma lb_wf_step w w' : lb_step w w' → lb_wf (lb w) → lb_wf (lb w').
Proof.
  intros Hs HW. refine (moves_keeps lb_change lb_wf w w' lb_wf_change _ HW).
  destruct Hs; [apply K_create_pool|by apply K_add|by apply K_apply_probe].
Qed.

Lemma next_run pool w o w' :
  next pool w = (Ok o, w') →
  ∃ l a, collect decode_member (select_where (member_of pool) (lb_members (lb w))) = Ok l
    ∧ next_member l a = o.
Proof.
  unfold next, lb_db. intros Hn. inv_bind Hn. apply map_err_ok in R. unfold get_lb_pool in R. inv_bind R.
  apply select_run in R0 as (Hdb & _ & _). apply lift_ok in R as [_ ->].
  inv_bind Hn. apply ok_or_ok in R as [_ ->]. inv_bind Hn. injection Hn as <- <-. apply map_err_ok in R.
  unfold repo_list_members in R. inv_bind R. apply select_run in R0 as (_ & -> & _).
  apply lift_ok in R as [R _]. rewrite Hdb in R. eauto.
Qed.

(** Traffic goes to healthy members.  Along any sequence of requests that create pools, add
    members and report probes, with statements failing anywhere, the tables stay consistent, and
    the member the rotator picks for a pool is a stored member of that pool whose row says
    healthy, with a weight from 1 to 100. *)
Theorem traffic_to_healthy pool w w' m w'' :
  rtc lb_step w w' → lb_wf (lb w) → next pool w' = (Ok (Some m), w'') →
  lb_wf (lb w') ∧ In (lb_member_row m) (lb_members (lb w')) ∧ mem_pool_id m = pool
  ∧ mem_status m = LbHealthy ∧ (1 ≤ mem_weight m ≤ 100)%Z.
Proof.
  intros Hs HW (l & a & Hl & Hm)%next_run. assert (lb_wf (lb w')) as HW' by (clear Hl; induction Hs; eauto using lb_wf_step).
  split; [done|]. apply next_member_exact in Hm as (Hin & Hsv & _).
  apply (collect_In _ _ _ _ Hl) in Hin as (r & Hr & Hd). apply filter_In in Hr as [Hr Hp%N.eqb_eq].
  destruct (wf_lb_members _ HW' r Hr) as [Hok _]. pose proof (decode_member_row _ _ Hok Hd) as ->.
  unfold can_serve in Hsv. apply andb_true_iff in Hsv as [Hst Hwt].
  destruct Hok as (_ & Hw & _). cbn in *. split_and!; [done..| |lia|lia].
  by destruct (mem_status m).
Qed.
End operations.

(** ** Histories of probes *)

(** The failures since the last success. *)
Definition failures (oks : list bool) : Z := fold_left (λ n ok, if ok : bool then 0 else n + 1)%Z oks 0%Z.
Definition standing_after (f n : Z) : LbStatus := if (Z.max 1 f <=? n)%Z then LbFailing else LbHealthy.

Lemma probe_counts f rc n ok t m :
  is_u32 f → (0 ≤ n)%Z → mem_status m = standing_after f n →
  mem_failed_probe_count m = Z.min n U32_MAX →
  let m' := member_after ok (probe_evaluate m ok f rc) t m in
  let n' := (if ok then 0 else n + 1)%Z in
  mem_status m' = standing_after f n' ∧ mem_failed_probe_count m' = Z.min n' U32_MAX.
Proof.
  unfold is_u32, U32_MAX. intros Hf Hn Hs Hc. cbn. unfold u32_saturating_add, U32_MAX. rewrite Hs, Hc.
  unfold standing_after. destruct ok; cbn.
  - rewrite (proj2 (Z.leb_gt (Z.max 1 f) 0)) by lia. by destruct (_ <=? n)%Z.
  - split; [|lia]. destruct (Z.leb_spec f (Z.min (Z.min n (2 ^ 32 - 1) + 1) (2 ^ 32 - 1))),
      (Z.leb_spec (Z.max 1 f) (n + 1)); try lia; destruct (Z.leb_spec (Z.max 1 f) n); try done; lia.
Qed.

Section probes.
Context `{Env}.
Hypothesis no_faults : ∀ k, sql_fault k = None.
Abbreviation lb w := (ht_lb (db_hosting (w_db w))).

Lemma apply_probe_run caller ok f rc m w :
  lb_wf (lb w) → lb_require_admin caller = Ok tt → In (lb_member_row m) (lb_members (lb w)) →
  let d := probe_evaluate m ok f rc in
  let m' := member_after ok d (utc_now (S (w_step w))) m in
  ∃ w', apply_probe caller (mem_id m) ok f rc w = (Ok d, w') ∧ In (lb_member_row m') (lb_members (lb w')).
Proof using no_faults.
  intros HW Ha Hm d m'. destruct (wf_lb_members _ HW _ Hm) as [Hok Hp].
  assert (decode_member (lb_member_row m) = Ok m) as Hd.
  { destruct (decode_member (lb_member_row m)) as [x|] eqn:E.
    - assert (lb_member_row m = lb_member_row x) as Hx by by apply decode_member_row.
      unfold lb_member_row in Hx. f_equal. destruct m as [? ? ? ? s1 ? ?], x as [? ? ? ? s2 ? ?]. cbn in *.
      injection Hx as -> -> -> -> Hst -> ->. f_equal. by destruct s1, s2.
    - exfalso. unfold decode_member in E. cbn in E. by rewrite lb_status_roundtrip in E. }
  unfold apply_probe, lb_db. rewrite Ha. cbn [lift]. unfold bind at 1. cbn [ret].
  erewrite (bind_run (map_err _ (get_member _))).
  2:{ apply map_err_run. unfold get_member. erewrite bind_run; [|apply (select_no_fault no_faults)].
      replace (List.find _ _) with (Some (lb_member_row m)); [cbn; by rewrite Hd|].
      symmetry. apply (find_key lm_id N.eqb _ (lb_member_row m)); [apply N.eqb_eq|apply HW|done]. }
  unfold bind at 1. cbn [ok_or ret]. rewrite (bind_run now _ (tick w) _ (tick (tick w)) eq_refl).
  cbn [tick w_step]. fold d. fold m'.
  erewrite (bind_run (map_err _ (save_member _))).
  2:{ apply map_err_run. unfold save_member, statement. rewrite no_faults.
      unfold part_statement, hosting_statement, replace_member_row. cbn.
      replace (existsb _ _) with true; [done|]. symmetry. apply existsb_exists.
      apply in_map_iff in Hp as (p & Hid & Hin). exists p. split; [done|]. by apply N.eqb_eq. }
  match goal with |- context [bind (audit ?x ?y ?z ?b) _ ?w0] =>
    destruct (audit_ok (on_tables (same (λ h, h))) (E:=LbError) x y z b w0) as (w1 & Hau & Hs) end.
  rewrite (bind_run _ _ _ _ _ Hau). exists w1. split; [done|].
  unfold on_db, on_tables, same in Hs. rewrite Hs. cbn. apply in_or_app. right. by left.
Qed.

(** A history of probes.  When statements are executed, the state of a stored member that
    was healthy follows from the probes reported since: it counts the failures since the last
    success, up to the greatest [u32], and is failing exactly when there was one and they reach
    the failure threshold; one success makes it healthy again, whatever the recovery threshold.
    While it is failing the rotator of its pool does not pick it. *)
Theorem probe_history caller m f rc oks w :
  lb_wf (lb w) → lb_require_admin caller = Ok tt → is_u32 f →
  In (lb_member_row m) (lb_members (lb w)) → mem_status m = LbHealthy → mem_failed_probe_count m = 0%Z →
  let w' := fold_left (λ w ok, (apply_probe caller (mem_id m) ok f rc w).2) oks w in
  let n := failures oks in
  ∃ m', In (lb_member_row m') (lb_members (lb w')) ∧ mem_id m' = mem_id m
    ∧ mem_pool_id m' = mem_pool_id m ∧ mem_weight m' = mem_weight m
    ∧ mem_failed_probe_count m' = Z.min n U32_MAX
    ∧ mem_status m' = (if ((1 <=? n) && (f <=? n))%Z then LbFailing else LbHealthy)
    ∧ (mem_status m' = LbFailing → ∀ x w'', next (mem_pool_id m) w' = (Ok (Some x), w'') → mem_id x ≠ mem_id m).
Proof using no_faults.
  intros HW Ha Hf Hm Hst Hcnt w' n.
  assert (∃ m', lb_wf (lb w') ∧ In (lb_member_row m') (lb_members (lb w')) ∧ mem_id m' = mem_id m
    ∧ mem_pool_id m' = mem_pool_id m ∧ mem_weight m' = mem_weight m
    ∧ mem_status m' = standing_after f n ∧ mem_failed_probe_count m' = Z.min n U32_MAX ∧ (0 ≤ n)%Z)
    as (m' & HW' & Hin & Hid & Hp & Hwt & Hs & Hc & Hn).
  { subst w' n. unfold failures. induction oks as [|ok oks IH] using rev_ind.
    - exists m. split_and!; try done. unfold standing_after. cbn [fold_left]. destruct (Z.leb_spec (Z.max 1 f) 0); [lia|done].
    - rewrite !fold_left_app. cbn [fold_left]. destruct IH as (m' & HW' & Hin & Hid & Hp & Hwt & Hs & Hc & Hn).
      destruct (probe_counts f rc _ ok (utc_now (S (w_step (fold_left (λ w ok, (apply_probe caller (mem_id m) ok f rc w).2) oks w)))) m' Hf Hn Hs Hc) as [Hs' Hc'].
      rewrite <- Hid in *. destruct (apply_probe_run caller ok f rc m' _ HW' Ha Hin) as (w1 & Hrun & Hin').
      pose proof (K_apply_probe caller (mem_id m') ok f rc _ HW') as HK. rewrite Hrun in HK |- *. cbn [snd] in *.
      eexists. split; [exact (moves_keeps lb_change lb_wf _ w1 lb_wf_change HK HW')|].
      split_and!; [exact Hin'|done..|]. destruct ok; lia. }
  exists m'. split_and!; try done.
  - rewrite Hs. unfold standing_after. destruct (Z.leb_spec (Z.max 1 f) n), (Z.leb_spec 1 n), (Z.leb_spec f n); try done; lia.
  - intros Hfail x w'' Hnx. apply next_run in Hnx as (l & a & Hl & Hx). apply next_member_exact in Hx as (Hx & Hsv & _).
    intros Heq. apply (collect_In _ _ _ _ Hl) in Hx as (r & Hr & Hd). apply filter_In in Hr as [Hr _].
    destruct (wf_lb_members _ HW' r Hr) as [Hok _]. pose proof (decode_member_row _ _ Hok Hd) as ->.
    assert (lb_member_row x = lb_member_row m') as Hxm.
    { apply (NoDup_key_inj lm_id (lb_members (lb w'))); [apply HW'|done..|]. cbn. congruence. }
    injection Hxm as _ _ _ _ Hst' _ _. unfold can_serve in Hsv. rewrite Hfail in Hst'.
    by destruct (mem_status x).
Qed.

(** Creating a pool again empties it.  When statements are executed, creating a pool under
    the identifier of a stored pool deletes every member of it. *)
Theorem recreated_pool_empty caller p w :
  lb_require_admin caller = Ok tt → In (lbp_id p) (map lp_id (lb_pools (lb w))) →
  ∃ w' w'', create_lb_pool caller p w = (Ok p, w')
    ∧ (∀ r, In r (lb_members (lb w')) ↔ In r (lb_members (lb w)) ∧ lm_pool_id r ≠ lbp_id p)
    ∧ next (lbp_id p) w' = (Ok None, w'').
Proof using no_faults.
  intros Ha Hin. unfold create_lb_pool, save_lb_pool, lb_db, map_err. rewrite Ha. unfold bind at 1 2. cbn [lift ret].
  rewrite (execute_no_fault no_faults). cbn. eexists _, _. split; [done|].
  assert (existsb (lb_pool_is (lbp_id p)) (lb_pools (lb w)) = true) as He.
  { apply in_map_iff in Hin as (r & Hid & Hr). apply existsb_exists. exists r. split; [done|]. by apply N.eqb_eq. }
  split.
  - intros r. cbn. unfold replace_lb_pool_row. cbn. rewrite He. cbn. rewrite delete_where_In.
    unfold member_of. by rewrite N.eqb_neq.
  - unfold next, get_lb_pool, repo_list_members, lb_db, bind, map_err. rewrite (select_no_fault no_faults). cbn.
    unfold replace_lb_pool_row. cbn. rewrite He. cbn.
    assert (List.find (lb_pool_is (lbp_id p)) (delete_where (lb_pool_is (lbp_id p)) (lb_pools (lb w)) ++ [lb_pool_row p])%list
      = Some (lb_pool_row p)) as Hf.
    { clear. unfold delete_where. induction (lb_pools (lb w)) as [|r l IH]; cbn.
      - unfold lb_pool_is. cbn. by rewrite N.eqb_refl.
      - destruct (lb_pool_is (lbp_id p) r) eqn:E; cbn; [done|]. by rewrite E. }
    rewrite Hf. cbn. unfold decode_lb_pool. cbn. rewrite algorithm_roundtrip. cbn.
    rewrite (select_no_fault no_faults). cbn. rewrite He. cbn.
    assert (List.filter (member_of (lbp_id p)) (delete_where (member_of (lbp_id p)) (lb_members (lb w))) = []) as ->.
    { clear. unfold delete_where. induction (lb_members (lb w)) as [|r l IH]; [done|]. cbn.
      destruct (member_of (lbp_id p) r) eqn:E; cbn; [done|]. by rewrite E. }
    cbn. by destruct (lbp_algorithm p).
Qed.
End probes.
