(* ===== verification/Quotas.v ===== *)
(** * Quotas

    [crates/openpanel-domain/src/quotas/mod.rs] and [crates/openpanel-app/src/quotas/repo.rs] and
    [service.rs]: policies with a soft and a hard limit per dimension, and usage samples.  The
    limits are [u64] and [u32] in memory and [i64] in the tables.  The theorems follow the
    operations. *)
From S2P Require Import Prelude Text Paths AuditActions AuditLog Accounts CronJobs HostingTables Store Users Sites Staging StagingChanges Parts LoadBalancing.
Open Scope N_scope.

(** ** Domain *)

Inductive QuotaError : Type :=
| InvalidLimit | PolicyNotFound | SubjectNotFound | EnforcerUnavailable (reason : string)
| QuotaExceeded | QuotaPersistence (reason : string).

Inductive QuotaSubject : Type := SubjectUser | SubjectSite.
Inductive QuotaDimension : Type := DimDisk | DimBandwidth | DimInodes.
#[export] Instance QuotaDimension_eq_dec : EqDecision QuotaDimension.
Proof. solve_decision. Defined.

Record QuotaLimit := mkLimit {
  soft_bytes : Z;
  hard_bytes : Z;
  grace_days : Z
}.
Definition limit_validate (l : QuotaLimit) : result unit QuotaError :=
  if (hard_bytes l =? 0)%Z then Err InvalidLimit
  else if (hard_bytes l <? soft_bytes l)%Z then Err InvalidLimit
  else Ok tt.
Definition is_over_soft (usage : Z) (l : QuotaLimit) : bool := (soft_bytes l <? usage)%Z.
Definition is_over_hard (usage : Z) (l : QuotaLimit) : bool := (hard_bytes l <? usage)%Z.

Record QuotaPolicy := mkPolicy {
  pol_id : Uuid;
  pol_subject_kind : QuotaSubject;
  pol_subject_id : Uuid;
  pol_disk : QuotaLimit;
  pol_bandwidth : QuotaLimit;
  pol_inodes : QuotaLimit;
  pol_max_file_size_bytes : option Z;
  pol_cpu_shares : option Z;
  pol_created_at : DateTime;
  pol_updated_at : DateTime
}.
Definition policy_new (id : Uuid) (kind : QuotaSubject) (subject : Uuid) (disk bandwidth inodes : QuotaLimit)
    (t : DateTime) : result QuotaPolicy QuotaError :=
  _ <-? limit_validate disk ;;
  _ <-? limit_validate bandwidth ;;
  _ <-? limit_validate inodes ;;
  Ok (mkPolicy id kind subject disk bandwidth inodes None None t t).

(** The setters; [touch] takes the instant it reads. *)
Definition policy_with (disk bandwidth inodes : QuotaLimit) (size shares : option Z) (t : DateTime)
    (p : QuotaPolicy) : QuotaPolicy :=
  mkPolicy (pol_id p) (pol_subject_kind p) (pol_subject_id p) disk bandwidth inodes size shares
    (pol_created_at p) t.
Definition set_disk (l : QuotaLimit) (t : DateTime) (p : QuotaPolicy) : result QuotaPolicy QuotaError :=
  _ <-? limit_validate l ;;
  Ok (policy_with l (pol_bandwidth p) (pol_inodes p) (pol_max_file_size_bytes p) (pol_cpu_shares p) t p).
Definition set_bandwidth (l : QuotaLimit) (t : DateTime) (p : QuotaPolicy) : result QuotaPolicy QuotaError :=
  _ <-? limit_validate l ;;
  Ok (policy_with (pol_disk p) l (pol_inodes p) (pol_max_file_size_bytes p) (pol_cpu_shares p) t p).
Definition set_inodes (l : QuotaLimit) (t : DateTime) (p : QuotaPolicy) : result QuotaPolicy QuotaError :=
  _ <-? limit_validate l ;;
  Ok (policy_with (pol_disk p) (pol_bandwidth p) l (pol_max_file_size_bytes p) (pol_cpu_shares p) t p).
Definition set_max_file_size_bytes (v : option Z) (t : DateTime) (p : QuotaPolicy) : QuotaPolicy :=
  policy_with (pol_disk p) (pol_bandwidth p) (pol_inodes p) v (pol_cpu_shares p) t p.
Definition set_cpu_shares (v : option Z) (t : DateTime) (p : QuotaPolicy) : QuotaPolicy :=
  policy_with (pol_disk p) (pol_bandwidth p) (pol_inodes p) (pol_max_file_size_bytes p) v t p.

(** A [BTreeSet] of dimensions is the list of its members in their order. *)
Record QuotaUsage := mkUsage {
  use_subject_id : Uuid;
  use_sampled_at : DateTime;
  use_disk_used_bytes : Z;
  use_disk_inodes_used : Z;
  use_bandwidth_used_bytes_this_month : Z;
  use_over_soft : list QuotaDimension;
  use_over_hard : list QuotaDimension
}.
Definition all_dimensions : list QuotaDimension := [DimDisk; DimBandwidth; DimInodes].
Definition dimension_set (q : QuotaDimension → bool) : list QuotaDimension := List.filter q all_dimensions.

Definition usage_sample (subject : Uuid) (p : QuotaPolicy) (disk inodes bandwidth : Z) (t : DateTime)
    : QuotaUsage :=
  mkUsage subject t disk inodes bandwidth
    (dimension_set (λ d, match d with
       | DimDisk => is_over_soft disk (pol_disk p)
       | DimBandwidth => is_over_soft bandwidth (pol_bandwidth p)
       | DimInodes => is_over_soft inodes (pol_inodes p)
       end))
    (dimension_set (λ d, match d with
       | DimDisk => is_over_hard disk (pol_disk p)
       | DimBandwidth => is_over_hard bandwidth (pol_bandwidth p)
       | DimInodes => is_over_hard inodes (pol_inodes p)
       end)).

(** ** Rows *)

Definition subject_kind_str (k : QuotaSubject) : string :=
  match k with SubjectUser => "user" | SubjectSite => "site" end.
Definition parse_subject_kind (s : string) : result QuotaSubject QuotaError :=
  if String.eqb s "user" then Ok SubjectUser
  else if String.eqb s "site" then Ok SubjectSite
  else Err (QuotaPersistence ("unknown subject kind `" +:+ s +:+ "`")).
Definition dimension_str (d : QuotaDimension) : string :=
  match d with DimDisk => "disk" | DimBandwidth => "bandwidth" | DimInodes => "inodes" end.
Definition parse_dimension (s : string) : result QuotaDimension QuotaError :=
  if String.eqb s "disk" then Ok DimDisk
  else if String.eqb s "bandwidth" then Ok DimBandwidth
  else if String.eqb s "inodes" then Ok DimInodes
  else Err (QuotaPersistence ("unknown dimension `" +:+ s +:+ "`")).

(** [policy.id() .. as i64]; a [u32] fits. *)
Definition policy_row (p : QuotaPolicy) : QuotaPolicyRow :=
  mkQuotaPolicyRow (pol_id p) (subject_kind_str (pol_subject_kind p)) (pol_subject_id p)
    (u64_as_i64 (soft_bytes (pol_disk p))) (u64_as_i64 (hard_bytes (pol_disk p))) (grace_days (pol_disk p))
    (u64_as_i64 (soft_bytes (pol_bandwidth p))) (u64_as_i64 (hard_bytes (pol_bandwidth p)))
    (grace_days (pol_bandwidth p))
    (u64_as_i64 (soft_bytes (pol_inodes p))) (u64_as_i64 (hard_bytes (pol_inodes p)))
    (grace_days (pol_inodes p))
    (u64_as_i64 <$> pol_max_file_size_bytes p) (pol_cpu_shares p) (pol_created_at p) (pol_updated_at p).
(** [SET] of the update: the key, the subject and the creation instant stay. *)
Definition policy_row_update (p : QuotaPolicy) (r : QuotaPolicyRow) : QuotaPolicyRow :=
  let n := policy_row p in
  mkQuotaPolicyRow (qp_id r) (qp_subject_kind r) (qp_subject_id r)
    (qp_disk_soft_bytes n) (qp_disk_hard_bytes n) (qp_disk_grace_days n)
    (qp_bandwidth_soft_bytes n) (qp_bandwidth_hard_bytes n) (qp_bandwidth_grace_days n)
    (qp_inodes_soft n) (qp_inodes_hard n) (qp_inodes_grace_days n)
    (qp_max_file_size_bytes n) (qp_cpu_shares n) (qp_created_at r) (qp_updated_at n).
Definition into_policy (r : QuotaPolicyRow) : result QuotaPolicy QuotaError :=
  kind <-? parse_subject_kind (qp_subject_kind r) ;;
  Ok (mkPolicy (qp_id r) kind (qp_subject_id r)
        (mkLimit (i64_as_u64 (qp_disk_soft_bytes r)) (i64_as_u64 (qp_disk_hard_bytes r))
           (i64_as_u32 (qp_disk_grace_days r)))
        (mkLimit (i64_as_u64 (qp_bandwidth_soft_bytes r)) (i64_as_u64 (qp_bandwidth_hard_bytes r))
           (i64_as_u32 (qp_bandwidth_grace_days r)))
        (mkLimit (i64_as_u64 (qp_inodes_soft r)) (i64_as_u64 (qp_inodes_hard r))
           (i64_as_u32 (qp_inodes_grace_days r)))
        (i64_as_u64 <$> qp_max_file_size_bytes r) (i64_as_u32 <$> qp_cpu_shares r)
        (qp_created_at r) (qp_updated_at r)).

Definition usage_row (u : QuotaUsage) : QuotaUsageRow :=
  mkQuotaUsageRow (use_subject_id u) (use_sampled_at u) (u64_as_i64 (use_disk_used_bytes u))
    (u64_as_i64 (use_disk_inodes_used u)) (u64_as_i64 (use_bandwidth_used_bytes_this_month u))
    (map dimension_str (use_over_soft u)) (map dimension_str (use_over_hard u)).
Definition collect_dimensions (l : list string) : result (list QuotaDimension) QuotaError :=
  ds <-? collect parse_dimension l ;;
  Ok (dimension_set (λ d, existsb (λ x, bool_decide (x = d)) ds)).
Definition into_usage (r : QuotaUsageRow) : result QuotaUsage QuotaError :=
  soft <-? collect_dimensions (qu_over_soft r) ;;
  hard <-? collect_dimensions (qu_over_hard r) ;;
  Ok (mkUsage (qu_subject_id r) (qu_sampled_at r) (i64_as_u64 (qu_disk_used_bytes r))
        (i64_as_u64 (qu_disk_inodes_used r)) (i64_as_u64 (qu_bandwidth_used_bytes r)) soft hard).

Definition policy_is (id : Uuid) (r : QuotaPolicyRow) : bool := qp_id r =? id.
Definition policy_for (kind : string) (subject : Uuid) (r : QuotaPolicyRow) : bool :=
  String.eqb (qp_subject_kind r) kind && (qp_subject_id r =? subject).
Definition policy_by_created (r1 r2 : QuotaPolicyRow) : Prop := (qp_created_at r1 ≤ qp_created_at r2)%Z.
#[export] Instance policy_by_created_dec : RelDecision policy_by_created.
Proof. unfold policy_by_created. intros r1 r2. apply _. Defined.
Definition newest_sample (r1 r2 : QuotaUsageRow) : Prop := (qu_sampled_at r2 ≤ qu_sampled_at r1)%Z.
#[export] Instance newest_sample_dec : RelDecision newest_sample.
Proof. unfold newest_sample. intros r1 r2. apply _. Defined.

(** The primary key and [UNIQUE (subject_kind, subject_id)]. *)
Definition insert_policy_row (r : QuotaPolicyRow) (t : QuotaTables) : result (unit * QuotaTables) string :=
  if existsb (policy_is (qp_id r)) (qt_policies t)
     || existsb (policy_for (qp_subject_kind r) (qp_subject_id r)) (qt_policies t)
  then Err "UNIQUE constraint failed: quota_policies"
  else Ok (tt, set_policies (qt_policies t ++ [r])%list t).
Definition update_policy_row (p : QuotaPolicy) (t : QuotaTables) : QuotaTables :=
  set_policies (update_where (policy_is (pol_id p)) (policy_row_update p) (qt_policies t)) t.

#[export] Program Instance quota_part : Part QuotaTables := {| part := ht_quotas; set_part := set_quotas |}.
Next Obligation. done. Qed.

Section quota_repo.
Context `{Env}.
Abbreviation MQ A := (M World QuotaError A).
Abbreviation quotas d := (ht_quotas (db_hosting d)).

Definition quota_db {A} (c : M World RepoError A) : MQ A := map_err QuotaPersistence c.
Definition policy_insert (p : QuotaPolicy) : MQ unit :=
  quota_db (statement (part_statement (insert_policy_row (policy_row p)))).
Definition fetch_policy (q : QuotaPolicyRow → bool) : MQ (option QuotaPolicy) :=
  row <- quota_db (select (λ d, List.find q (qt_policies (quotas d)))) ;;
  lift (transpose into_policy row).
Definition policy_find_by_id (id : Uuid) : MQ (option QuotaPolicy) := fetch_policy (policy_is id).
Definition policy_find_by_subject (kind : QuotaSubject) (subject : Uuid) : MQ (option QuotaPolicy) :=
  fetch_policy (policy_for (subject_kind_str kind) subject).
Definition policy_update (p : QuotaPolicy) : MQ unit := quota_db (execute (on_part (update_policy_row p))).
Definition policy_delete (id : Uuid) : MQ unit :=
  quota_db (execute (on_part (λ t, set_policies (delete_where (policy_is id) (qt_policies t)) t))).
Definition policy_list : MQ (list QuotaPolicy) :=
  rows <- quota_db (select (λ d, merge_sort policy_by_created (qt_policies (quotas d)))) ;;
  lift (collect into_policy rows).
Definition insert_usage (u : QuotaUsage) : MQ unit :=
  quota_db (execute (on_part (λ t, set_usages (qt_usages t ++ [usage_row u])%list t))).
Definition latest_usage (subject : Uuid) : MQ (option QuotaUsage) :=
  row <- quota_db (select (λ d, head (merge_sort newest_sample
           (select_where (λ r, qu_subject_id r =? subject) (qt_usages (quotas d)))))) ;;
  lift (transpose into_usage row).
End quota_repo.

(** ** [QuotaService] *)

Section quota_service.
Context `{Env}.
Abbreviation MQ A := (M World QuotaError A).

Definition set_user_policy (user : Uuid) (policy : QuotaPolicy) (actor : string) : MQ QuotaPolicy :=
  found <- quota_db (users_find_by_id user) ;;
  match found with
  | None => throw SubjectNotFound
  | Some _ =>
      existing <- policy_find_by_subject SubjectUser user ;;
      match existing with
      | Some _ => policy_update policy
      | None => policy_insert policy
      end ;;;
      audit actor QuotaPolicyChanged Success
        (λ e, with_metadata (JObject [("subject_kind", JString "user");
                                      ("subject_id", JString (uuid_text user))])
                (with_target (uuid_text (pol_id policy)) e)) ;;;
      ret policy
  end.

Definition delete_policy (id : Uuid) (actor : string) : MQ unit :=
  policy_delete id ;;;
  audit actor QuotaPolicyDeleted Success (with_target (uuid_text id)).

Definition dimensions_json (l : list QuotaDimension) : Json :=
  JArray (map (λ d, JString (dimension_str d)) l).

Definition ingest_sample (policy : QuotaPolicy) (disk inodes bandwidth : Z) (actor : string) : MQ QuotaUsage :=
  t <- now ;;
  let usage := usage_sample (pol_subject_id policy) policy disk inodes bandwidth t in
  insert_usage usage ;;;
  match use_over_hard usage, use_over_soft usage with
  | _ :: _, _ =>
      audit actor QuotaHardLimitReached Failure
        (λ e, with_metadata (JObject [("over_hard", dimensions_json (use_over_hard usage))])
                (with_target (uuid_text (pol_subject_id policy)) e))
  | [], _ :: _ =>
      audit actor QuotaSoftLimitReached Success
        (λ e, with_metadata (JObject [("over_soft", dimensions_json (use_over_soft usage))])
                (with_target (uuid_text (pol_subject_id policy)) e))
  | [], [] => ret tt
  end ;;;
  ret usage.
End quota_service.

(** * Quotas: theorems

    Policies and samples through the tables and back, and what replacing a policy does. *)

(** ** Rows *)

Definition limit_range (l : QuotaLimit) : Prop :=
  is_u64 (soft_bytes l) ∧ is_u64 (hard_bytes l) ∧ is_u32 (grace_days l).
Definition policy_range (p : QuotaPolicy) : Prop :=
  limit_range (pol_disk p) ∧ limit_range (pol_bandwidth p) ∧ limit_range (pol_inodes p)
  ∧ (∀ x, pol_max_file_size_bytes p = Some x → is_u64 x)
  ∧ (∀ x, pol_cpu_shares p = Some x → is_u32 x).

Lemma limit_roundtrip l :
  limit_range l →
  mkLimit (i64_as_u64 (u64_as_i64 (soft_bytes l))) (i64_as_u64 (u64_as_i64 (hard_bytes l)))
    (i64_as_u32 (grace_days l)) = l.
Proof. intros (H1 & H2 & H3). rewrite !u64_i64_u64, u32_small by done. by destruct l. Qed.
Lemma option_roundtrip {A B} (f : A → B) (g : B → A) (P : A → Prop) o :
  (∀ x, P x → g (f x) = x) → (∀ x, o = Some x → P x) → g <$> (f <$> o) = o.
Proof. intros Hg Ho. destruct o as [x|]; [|done]. cbn. by rewrite Hg by by apply Ho. Qed.

(** The row an update leaves decodes into the policy, with the subject and creation instant it
    had. *)
Lemma policy_update_decodes p r k :
  policy_range p → parse_subject_kind (qp_subject_kind r) = Ok k →
  into_policy (policy_row_update p r)
  = Ok (mkPolicy (qp_id r) k (qp_subject_id r) (pol_disk p) (pol_bandwidth p) (pol_inodes p)
          (pol_max_file_size_bytes p) (pol_cpu_shares p) (qp_created_at r) (pol_updated_at p)).
Proof.
  intros (H1 & H2 & H3 & H4 & H5) Hk. unfold into_policy. cbn. rewrite Hk. cbn.
  rewrite !limit_roundtrip by done. do 2 f_equal.
  - apply (option_roundtrip _ _ is_u64); [apply u64_i64_u64|done].
  - destruct (pol_cpu_shares p) as [x|]; [|done]. cbn. by rewrite u32_small by by apply H5.
Qed.
Lemma subject_kind_roundtrip k : parse_subject_kind (subject_kind_str k) = Ok k.
Proof. by destruct k. Qed.
Lemma policy_roundtrip p : policy_range p → into_policy (policy_row p) = Ok p.
Proof.
  intros Hp. pose proof (policy_update_decodes p (policy_row p) (pol_subject_kind p) Hp) as Hd.
  specialize (Hd (subject_kind_roundtrip _)). by destruct p.
Qed.

Lemma collect_dimensions_set q :
  collect_dimensions (map dimension_str (dimension_set q)) = Ok (dimension_set q).
Proof. unfold dimension_set. cbn. destruct (q DimDisk), (q DimBandwidth), (q DimInodes); reflexivity. Qed.
Lemma usage_roundtrip s p disk inodes bandwidth t :
  is_u64 disk → is_u64 inodes → is_u64 bandwidth →
  into_usage (usage_row (usage_sample s p disk inodes bandwidth t))
  = Ok (usage_sample s p disk inodes bandwidth t).
Proof.
  intros H1 H2 H3. unfold into_usage, usage_row, usage_sample. cbn -[dimension_set].
  rewrite !collect_dimensions_set. cbn -[dimension_set]. by rewrite !u64_i64_u64.
Qed.

(** ** The newest row *)

Lemma head_newest (l : list QuotaUsageRow) r :
  (∀ x, In x l → (qu_sampled_at x < qu_sampled_at r)%Z) →
  head (merge_sort newest_sample (l ++ [r])%list) = Some r.
Proof.
  intros Hl. pose proof (merge_sort_Permutation newest_sample (l ++ [r])%list) as Hp.
  assert (Sorted newest_sample (merge_sort newest_sample (l ++ [r])%list)) as Hs.
  { apply Sorted_merge_sort. intros x y. unfold newest_sample. lia. }
  destruct (merge_sort _ _) as [|x m]; [by apply Permutation_nil, app_eq_nil in Hp as [_ ?]|]. cbn.
  assert (In x (l ++ [r])%list) as [Hx|[<-|[]]]%in_app_or by (apply (Permutation_in x Hp); by left); [|done].
  exfalso. specialize (Hl x Hx).
  assert (In r (x :: m)) as [<-|Hr]; [apply (Permutation_in r (Permutation_sym Hp)), in_or_app; right; by left|lia|].
  apply Sorted_StronglySorted in Hs; [|intros a b c; unfold newest_sample; lia].
  apply StronglySorted_inv in Hs as [_ Hall]. rewrite Forall_forall in Hall.
  specialize (Hall r ltac:(by apply list_elem_of_In)). unfold newest_sample in Hall. lia.
Qed.

Section service.
Context `{Env}.
Hypothesis no_faults : ∀ k, sql_fault k = None.
Abbreviation quotas w := (ht_quotas (db_hosting (w_db w))).

Record quota_wf (t : QuotaTables) : Prop := {
  wf_policy_ids : NoDup (map qp_id (qt_policies t));
  wf_policy_subjects : NoDup (map (λ r, (qp_subject_kind r, qp_subject_id r)) (qt_policies t));
  wf_policies : ∀ r, In r (qt_policies t) → is_ok (into_policy r) = true
}.

Lemma fetch_policy_run q w :
  quota_wf (quotas w) →
  fetch_policy q w = (transpose into_policy (List.find q (qt_policies (quotas w))), tick w).
Proof using no_faults.
  intros HW. unfold fetch_policy, quota_db, bind, map_err. rewrite (select_no_fault no_faults).
  cbn. destruct (List.find _ _) as [r|] eqn:E; [|done]. apply List.find_some in E as [Hr _].
  apply (wf_policies _ HW) in Hr. cbn. by destruct (into_policy r).
Qed.

(** The user is stored; the rest of [set_user_policy]. *)
Lemma set_user_policy_run user u policy actor w :
  quota_wf (quotas w) → List.find (id_is user) (db_users (w_db w)) = Some u → is_ok (into_user u) = true →
  set_user_policy user policy actor w
  = (match List.find (policy_for "user" user) (qt_policies (quotas w)) with
     | Some _ => policy_update policy
     | None => policy_insert policy
     end ;;;
     audit actor QuotaPolicyChanged Success
       (λ e, with_metadata (JObject [("subject_kind", JString "user");
                                     ("subject_id", JString (uuid_text user))])
               (with_target (uuid_text (pol_id policy)) e)) ;;;
     ret policy) (tick (tick w)).
Proof using no_faults.
  intros HW Hu Hok. destruct (into_user u) as [rec|] eqn:Eu; [|done]. unfold set_user_policy.
  erewrite (bind_run (quota_db _)).
  2:{ apply map_err_run. unfold users_find_by_id, fetch_user. erewrite bind_run; [|apply (select_no_fault no_faults)].
      cbn. rewrite Hu. cbn. rewrite Eu. done. }
  cbn beta iota. unfold policy_find_by_subject. unfold bind at 1. rewrite fetch_policy_run by done.
  cbn [subject_kind_str tick w_db].
  destruct (List.find (policy_for "user" user) _) as [r|] eqn:E; cbn; [|done]. apply List.find_some in E as [Hr _].
  apply (wf_policies _ HW) in Hr. by destruct (into_policy r).
Qed.

(** What the service then reads. *)
Lemma policy_found_run user r p w :
  quota_wf (quotas w) → In r (qt_policies (quotas w)) → into_policy r = Ok p →
  qp_subject_kind r = "user" → qp_subject_id r = user →
  policy_find_by_subject SubjectUser user w = (Ok (Some p), tick w).
Proof using no_faults.
  intros HW Hr Hp Hk Hs. unfold policy_find_by_subject. rewrite fetch_policy_run by done.
  assert (List.find (policy_for (subject_kind_str SubjectUser) user) (qt_policies (quotas w)) = Some r) as ->;
    [|cbn; by rewrite Hp].
  destruct (List.find _ _) as [x|] eqn:E.
  - apply List.find_some in E as [Hx [Hxk%String.eqb_eq Hxs%N.eqb_eq]%andb_true_iff]. f_equal.
    apply (NoDup_key_inj (λ r, (qp_subject_kind r, qp_subject_id r)) (qt_policies (quotas w)));
      [apply HW|done..|]. cbn in Hxk. congruence.
  - eapply List.find_none in E; [|done]. unfold policy_for in E. cbn in E. by rewrite Hk, Hs, N.eqb_refl in E.
Qed.

Lemma quota_wf_update p t : policy_range p → quota_wf t → quota_wf (update_policy_row p t).
Proof.
  intros Hp [H1 H2 H3]. split; cbn [update_policy_row set_policies qt_policies].
  - by rewrite update_where_key.
  - by rewrite update_where_key.
  - intros r (x & Hx & ->)%update_where_In. destruct (policy_is _ x); [|by apply H3].
    specialize (H3 x Hx). destruct (parse_subject_kind (qp_subject_kind x)) as [k|] eqn:Ek.
    + by rewrite (policy_update_decodes p x k).
    + unfold into_policy in H3. by rewrite Ek in H3.
Qed.
Lemma quota_wf_insert p t t' :
  policy_range p → insert_policy_row (policy_row p) t = Ok (tt, t') → quota_wf t →
  quota_wf t' ∧ qt_policies t' = (qt_policies t ++ [policy_row p])%list.
Proof.
  intros Hp. unfold insert_policy_row. destruct (_ || _) eqn:E; [done|]. intros [= <-] [H1 H2 H3].
  apply orb_false_iff in E as [E1 E2]. split; [|done]. split; cbn [set_policies qt_policies].
  - apply NoDup_snoc; [done|]. intros (x & Hx & Hin)%in_map_iff.
    pose proof (proj1 (existsb_false _ _) E1 x Hin) as Hn. unfold policy_is in Hn.
    by rewrite Hx, N.eqb_refl in Hn.
  - apply NoDup_snoc; [done|]. intros (x & Hx & Hin)%in_map_iff. injection Hx as Hk Hs.
    pose proof (proj1 (existsb_false _ _) E2 x Hin) as Hn. unfold policy_for in Hn.
    by rewrite Hk, Hs, String.eqb_refl, N.eqb_refl in Hn.
  - intros r [Hr|[<-|[]]]%in_app_or; [by apply H3|]. by rewrite policy_roundtrip.
Qed.

(** The audit call at the end of a method keeps the tables. *)
Lemma audit_then {A} actor action outcome build (a : A) w :
  ∃ w', (audit actor action outcome build ;;; ret a : M World QuotaError A) w = (Ok a, w') ∧ quotas w' = quotas w.
Proof.
  destruct (audit_ok (on_tables (same (λ h, h))) (E:=QuotaError) actor action outcome build w) as (w1 & Hau & Hs).
  rewrite (bind_run _ _ _ _ _ Hau). exists w1. split; [done|].
  unfold on_db, on_tables, same in Hs. by rewrite Hs.
Qed.

(** A policy is found as it was set.  When statements are executed and a stored user's
    policy is set, for that user, under a new identifier when the user has none and under the
    identifier of the stored one otherwise, the call succeeds and the policy found for the user
    afterwards has the limits that were set, every [u64] and [u32] exactly, through the signed
    columns of the table. *)
Theorem policy_set_found user u policy actor w :
  quota_wf (quotas w) → List.find (id_is user) (db_users (w_db w)) = Some u → is_ok (into_user u) = true →
  policy_range policy → pol_subject_kind policy = SubjectUser → pol_subject_id policy = user →
  match List.find (policy_for "user" user) (qt_policies (quotas w)) with
  | Some r => qp_id r = pol_id policy
  | None => ~ In (pol_id policy) (map qp_id (qt_policies (quotas w)))
  end →
  ∃ w' t w'', set_user_policy user policy actor w = (Ok policy, w')
    ∧ policy_find_by_subject SubjectUser user w'
      = (Ok (Some (mkPolicy (pol_id policy) SubjectUser user (pol_disk policy) (pol_bandwidth policy)
                     (pol_inodes policy) (pol_max_file_size_bytes policy) (pol_cpu_shares policy) t
                     (pol_updated_at policy))), w'').
Proof using no_faults.
  intros HW Hu Hok Hp Hk Hs Hid. rewrite (set_user_policy_run user u) by done.
  destruct (List.find (policy_for "user" user) _) as [r|] eqn:E.
  - apply List.find_some in E as [Hr [Hrk%String.eqb_eq Hrs%N.eqb_eq]%andb_true_iff].
    unfold policy_update, quota_db. erewrite (bind_run (map_err _ _)); [|apply map_err_run, (execute_no_fault no_faults)].
    match goal with |- context [bind (audit ?x ?y ?z ?b) _ ?w0] => destruct (audit_then x y z b policy w0) as (w' & Ha & Hq) end.
    rewrite Ha. cbn in Hq. exists w', (qp_created_at r), (tick w'). split; [done|].
    apply (policy_found_run user (policy_row_update policy r)).
    + rewrite Hq. by apply quota_wf_update.
    + rewrite Hq. apply update_where_In. exists r. split; [done|]. unfold policy_is. by rewrite Hid, N.eqb_refl.
    + rewrite (policy_update_decodes policy r SubjectUser Hp) by by rewrite Hrk. by rewrite Hid, Hrs.
    + done.
    + done.
  - assert (∃ t', insert_policy_row (policy_row policy) (quotas w) = Ok (tt, t')) as (t' & Hi).
    { unfold insert_policy_row. rewrite (proj2 (existsb_false _ _)), (proj2 (existsb_false _ _)); [eauto|..].
      - intros x Hx. eapply List.find_none in E; [|done]. cbn. by rewrite Hk, Hs.
      - intros x Hx. apply N.eqb_neq. intros Heq. apply Hid, in_map_iff. eauto. }
    unfold policy_insert, quota_db. erewrite (bind_run (map_err _ _)).
    2:{ apply map_err_run. unfold statement. rewrite no_faults. unfold part_statement, hosting_statement.
        cbn [part quota_part w_db tick]. rewrite Hi. done. }
    match goal with |- context [bind (audit ?x ?y ?z ?b) _ ?w0] => destruct (audit_then x y z b policy w0) as (w' & Ha & Hq) end.
    rewrite Ha. cbn in Hq. exists w', (pol_created_at policy), (tick w'). split; [done|].
    destruct (quota_wf_insert _ _ _ Hp Hi HW) as [HW' Hrows].
    rewrite (policy_found_run user (policy_row policy) policy).
    + rewrite <- Hs, <- Hk. by destruct policy.
    + by rewrite Hq.
    + rewrite Hq, Hrows. apply in_or_app. right. by left.
    + by apply policy_roundtrip.
    + cbn. by rewrite Hk.
    + done.
Qed.

(** Replacing a policy can be lost.  When a stored user already has a policy and a policy
    with another identifier, unused so far, is set for the user, the call answers success with
    the new policy and changes no row: the old policy is still the one in force. *)
Theorem policy_replacement_lost user u r policy actor w :
  quota_wf (quotas w) → List.find (id_is user) (db_users (w_db w)) = Some u → is_ok (into_user u) = true →
  List.find (policy_for "user" user) (qt_policies (quotas w)) = Some r →
  ~ In (pol_id policy) (map qp_id (qt_policies (quotas w))) →
  ∃ w' w'', set_user_policy user policy actor w = (Ok policy, w')
    ∧ qt_policies (quotas w') = qt_policies (quotas w)
    ∧ policy_find_by_subject SubjectUser user w' = ((policy_find_by_subject SubjectUser user w).1, w'').
Proof using no_faults.
  intros HW Hu Hok Hr Hid. rewrite (set_user_policy_run user u), Hr by done.
  unfold policy_update, quota_db. erewrite (bind_run (map_err _ _)); [|apply map_err_run, (execute_no_fault no_faults)].
  match goal with |- context [bind (audit ?x ?y ?z ?b) _ ?w0] => destruct (audit_then x y z b policy w0) as (w' & Ha & Hq) end.
  rewrite Ha. cbn in Hq.
  assert (quotas w' = quotas w) as Hsame.
  { rewrite Hq. unfold update_policy_row. rewrite update_where_none; [by destruct (quotas w)|].
    destruct (List.find (policy_is (pol_id policy)) _) as [x|] eqn:E; [|done]. apply List.find_some in E as [Hx Hxi%N.eqb_eq].
    destruct Hid. apply in_map_iff. eauto. }
  exists w', (tick w'). split_and!; [done|by rewrite Hsame|].
  unfold policy_find_by_subject. rewrite !fetch_policy_run; [by rewrite Hsame|done|by rewrite Hsame].
Qed.

Definition used (d : QuotaDimension) (disk inodes bandwidth : Z) : Z :=
  match d with DimDisk => disk | DimBandwidth => bandwidth | DimInodes => inodes end.
Definition limit_of (d : QuotaDimension) (p : QuotaPolicy) : QuotaLimit :=
  match d with DimDisk => pol_disk p | DimBandwidth => pol_bandwidth p | DimInodes => pol_inodes p end.

(** Samples.  When statements are executed and the clock is past the samples stored for the
    subject, ingesting a sample stores it, and it is the latest usage read back, with the counters
    it was given; a dimension is listed over a limit exactly when its counter exceeds it, and with
    a valid policy whatever is over the hard limit is over the soft limit. *)
Theorem sample_recorded policy disk inodes bandwidth actor w :
  is_u64 disk → is_u64 inodes → is_u64 bandwidth →
  (∀ r, In r (qt_usages (quotas w)) → qu_subject_id r = pol_subject_id policy →
     (qu_sampled_at r < utc_now (w_step w))%Z) →
  let u := usage_sample (pol_subject_id policy) policy disk inodes bandwidth (utc_now (w_step w)) in
  (∃ w' w'', ingest_sample policy disk inodes bandwidth actor w = (Ok u, w')
     ∧ latest_usage (pol_subject_id policy) w' = (Ok (Some u), w''))
  ∧ ∀ d, (In d (use_over_soft u) ↔ (soft_bytes (limit_of d policy) < used d disk inodes bandwidth)%Z)
       ∧ (In d (use_over_hard u) ↔ (hard_bytes (limit_of d policy) < used d disk inodes bandwidth)%Z)
       ∧ (limit_validate (limit_of d policy) = Ok tt → In d (use_over_hard u) → In d (use_over_soft u)).
Proof using no_faults.
  intros H1 H2 H3 Hpast u.
  assert (∀ q d, In d (dimension_set q) ↔ q d = true) as Hset.
  { intros q d. unfold dimension_set. rewrite filter_In. split; [by intros []|]. intros Hq. split; [|done].
    destruct d; cbn; auto. }
  split.
  - unfold ingest_sample. rewrite (bind_run now _ w _ (tick w) eq_refl). fold u.
    unfold insert_usage, quota_db. erewrite (bind_run (map_err _ _)); [|apply map_err_run, (execute_no_fault no_faults)].
    match goal with |- ∃ w' w'', bind ?c (λ _, ret u) ?w0 = _ ∧ _ =>
      assert (∃ w', bind c (λ _, ret u) w0 = (Ok u, w') ∧ quotas w' = quotas w0) as (w' & Hr & Hq) end.
    { destruct (use_over_hard u); [destruct (use_over_soft u)|]; try apply audit_then. eauto. }
    rewrite Hr. cbn in Hq. exists w', (tick w'). split; [done|].
    unfold latest_usage, quota_db, bind, map_err. rewrite (select_no_fault no_faults), Hq. cbn [set_usages qt_usages].
    unfold select_where. rewrite List.filter_app. cbn [List.filter]. cbn [usage_row qu_subject_id u usage_sample use_subject_id].
    rewrite N.eqb_refl, head_newest.
    + cbn [transpose]. change (mkQuotaUsageRow _ _ _ _ _ _ _) with (usage_row u). subst u. by rewrite usage_roundtrip.
    + intros x [Hx Hs%N.eqb_eq]%filter_In. by apply Hpast.
  - intros d. unfold u, usage_sample. cbn [use_over_soft use_over_hard]. rewrite !Hset.
    unfold is_over_soft, is_over_hard, limit_validate.
    split_and!; [destruct d; apply Z.ltb_lt|destruct d; apply Z.ltb_lt|].
    destruct d; cbn; (destruct (_ =? 0)%Z; [done|]);
      match goal with |- context [(?a <? ?b)%Z] => destruct (Z.ltb_spec a b) end; (done || rewrite !Z.ltb_lt; lia).
Qed.
End service.
