(* ===== verification/Databases.v ===== *)
(** * Databases

    [crates/openpanel-domain/src/databases/] and [crates/openpanel-app/src/databases/]: databases
    provisioned through the [mysql] command, their rows, and their passwords under the envelope of
    [Secrets]. *)
From S2P Require Import Prelude Text AuditActions AuditLog Accounts Paths CronJobs HostingTables Store Users Secrets Sites Staging StagingChanges Parts.
Open Scope N_scope.

(** ** Domain *)

(** [MasterKeyMissing] is raised by the envelope only, see [Secrets]. *)
Inductive DatabaseError : Type :=
| InvalidName (reason : string)
| InvalidCharset (reason : string)
| DuplicateDatabase (name : string)
| DatabaseNotFound (id : string)
| DatabaseForbidden
| MysqlMissing
| MysqlError (reason : string)
| DatabaseEncryption (reason : string)
| DatabaseDecryption (reason : string)
| DatabasePersistence (reason : string)
| DatabaseIo (reason : string).

Inductive DatabaseEngine : Type := Mysql.
Definition engine_str (e : DatabaseEngine) : string := match e with Mysql => "mysql" end.
Definition parse_engine (s : string) : result DatabaseEngine string :=
  if String.eqb s "mysql" then Ok Mysql else Err ("unknown database engine `" +:+ s +:+ "`").

Inductive DatabaseStatus : Type := DatabaseActive | DatabaseSuspended.
Definition database_status_str (s : DatabaseStatus) : string :=
  match s with DatabaseActive => "active" | DatabaseSuspended => "suspended" end.
Definition parse_database_status (s : string) : result DatabaseStatus string :=
  if String.eqb s "active" then Ok DatabaseActive
  else if String.eqb s "suspended" then Ok DatabaseSuspended
  else Err ("unknown status `" +:+ s +:+ "`").

Record Database := mkDatabase {
  database_id : Uuid;
  database_owner_id : Uuid;
  database_name : string;
  database_db_user : string;
  database_db_host : string;
  database_engine : DatabaseEngine;
  database_charset : string;
  database_status : DatabaseStatus;
  database_created_at : DateTime;
  database_created_by : string
}.

(** [NAME_RE]: three to thirty-two of [a-z0-9_]; 95 is the underscore. *)
Definition NAME_RE : string := "^[a-z0-9_]{3,32}$".
Definition name_char (c : N) : bool := is_lower c || is_digit c || (c =? 95).
Definition name_re_matches (s : string) : bool :=
  (3 <=? str_len s) && (str_len s <=? 32) && forallb name_char (bytes s).

Definition validate_name (s : string) : result unit DatabaseError :=
  if negb (name_re_matches s) then Err (InvalidName ("`" +:+ s +:+ "` does not match " +:+ NAME_RE))
  else Ok tt.
Definition validate_username (s : string) : result string DatabaseError :=
  if negb (name_re_matches s)
  then Err (InvalidName ("owner username `" +:+ s +:+ "` is not a valid name component"))
  else Ok s.

Definition with_database_status (st : DatabaseStatus) (d : Database) : Database :=
  mkDatabase (database_id d) (database_owner_id d) (database_name d) (database_db_user d)
    (database_db_host d) (database_engine d) (database_charset d) st (database_created_at d)
    (database_created_by d).
Definition database_suspend (d : Database) : Database := with_database_status DatabaseSuspended d.
Definition database_resume (d : Database) : Database := with_database_status DatabaseActive d.

(** ** Rows and statements *)

Definition database_row (d : Database) (password_ciphertext : string) : DatabaseRow :=
  mkDatabaseRow (database_id d) (database_owner_id d) (database_name d) (database_db_user d)
    (database_db_host d) (engine_str (database_engine d)) (database_charset d)
    (database_status_str (database_status d)) password_ciphertext (database_created_at d)
    (database_created_by d).
Definition into_database (r : DatabaseRow) : result Database RepoError :=
  engine <-? result_map_err (λ e, "bad engine: " +:+ e) (parse_engine (dbr_engine r)) ;;
  status <-? result_map_err (λ e, "bad status: " +:+ e) (parse_database_status (dbr_status r)) ;;
  Ok (mkDatabase (dbr_id r) (dbr_owner_id r) (dbr_name r) (dbr_db_user r) (dbr_db_host r) engine
        (dbr_charset r) status (dbr_created_at r) (dbr_created_by r)).

Definition database_row_set (status password_ciphertext : string) (r : DatabaseRow) : DatabaseRow :=
  mkDatabaseRow (dbr_id r) (dbr_owner_id r) (dbr_name r) (dbr_db_user r) (dbr_db_host r)
    (dbr_engine r) (dbr_charset r) status password_ciphertext (dbr_created_at r) (dbr_created_by r).

Definition database_is (id : Uuid) (r : DatabaseRow) : bool := dbr_id r =? id.
Definition database_named (name : string) (r : DatabaseRow) : bool := String.eqb (dbr_name r) name.
Definition by_database_name (r1 r2 : DatabaseRow) : Prop :=
  String.leb (dbr_name r1) (dbr_name r2) = true.
#[export] Instance by_database_name_dec : RelDecision by_database_name.
Proof. unfold by_database_name. intros r1 r2. apply _. Defined.

#[export] Program Instance database_part : Part DatabaseTables :=
  {| part := ht_databases; set_part := set_database_tables |}.
Next Obligation. done. Qed.

(** The constraints of an [INSERT INTO databases]. *)
Definition insert_database_row (r : DatabaseRow) (d : Db) : result (unit * Db) string :=
  let t := ht_databases (db_hosting d) in
  if existsb (database_is (dbr_id r)) (dt_databases t) then Err "databases.id"
  else if existsb (database_named (dbr_name r)) (dt_databases t) then Err "databases.name"
  else if existsb (id_is (dbr_owner_id r)) (db_users d)
  then Ok (tt, on_part (λ t, set_databases (dt_databases t ++ [r])%list t) d)
  else Err "FOREIGN KEY".

(** [DELETE FROM databases], cascading to the tables of point-in-time recovery. *)
Definition delete_database_rows (id : Uuid) (t : DatabaseTables) : DatabaseTables :=
  if existsb (database_is id) (dt_databases t) then
    set_incrementals (delete_where (λ r, inr_database_id r =? id) (dt_incrementals t))
    (set_restores (delete_where (λ r, rs_database_id r =? id) (dt_restores t))
    (set_streams (delete_where (λ r, bs_database_id r =? id) (dt_streams t))
    (set_databases (delete_where (database_is id) (dt_databases t)) t)))
  else t.

(** ** [SqliteDatabaseRepository] *)

Section database_repo.
Context `{Env}.
Abbreviation databases d := (dt_databases (ht_databases (db_hosting d))).
Abbreviation MR A := (M World RepoError A).

Definition databases_insert (d : Database) (password_ciphertext : string) : MR unit :=
  statement (insert_database_row (database_row d password_ciphertext)).
Definition fetch_database (q : DatabaseRow → bool) : MR (option Database) :=
  row <- select (λ d, List.find q (databases d)) ;; lift (transpose into_database row).
Definition databases_find_by_id (id : Uuid) : MR (option Database) := fetch_database (database_is id).
Definition databases_find_by_name (name : string) : MR (option Database) :=
  fetch_database (database_named name).
Definition databases_list_all : MR (list Database) :=
  rows <- select (λ d, merge_sort by_database_name (databases d)) ;;
  lift (collect into_database rows).
Definition databases_list_by_owner (owner : Uuid) : MR (list Database) :=
  rows <- select (λ d, merge_sort by_database_name
                         (select_where (λ r, dbr_owner_id r =? owner) (databases d))) ;;
  lift (collect into_database rows).
Definition password_ciphertext (id : Uuid) : MR (option string) :=
  select (λ d, dbr_password_ciphertext <$> List.find (database_is id) (databases d)).
Definition update_databases (id : Uuid) (f : DatabaseRow → DatabaseRow) : MR unit :=
  execute (on_part (λ t, set_databases (update_where (database_is id) f (dt_databases t)) t)).
Definition update_password_ciphertext (id : Uuid) (ciphertext : string) : MR unit :=
  update_databases id (λ r, database_row_set (dbr_status r) ciphertext r).
Definition databases_update_status (id : Uuid) (status : DatabaseStatus) : MR unit :=
  update_databases id (λ r, database_row_set (database_status_str status) (dbr_password_ciphertext r) r).
Definition databases_delete (id : Uuid) : MR unit := execute (on_part (delete_database_rows id)).
Definition databases_count : MR Z := select (λ d, Z.of_nat (length (databases d))).

(** [DatabaseLookup::find_by_id]. *)
Definition database_lookup (id : Uuid) : M World DatabaseError (option Database) :=
  map_err DatabasePersistence (databases_find_by_id id).
End database_repo.

(** ** [MySqlClient] *)

(** [str::replace] of a one-byte character by two of it. *)
Definition double_char (c : N) (s : string) : string :=
  of_bytes (flat_map (λ b, if b =? c then [c; c] else [b]) (bytes s)).
(** 96 is the backquote and 39 the quote. *)
Definition create_database_sql (name charset : string) : string :=
  "CREATE DATABASE `" +:+ double_char 96 name +:+ "` CHARACTER SET " +:+ charset +:+ ";".
Definition create_user_sql (user host password : string) : string :=
  "CREATE USER `" +:+ double_char 96 user +:+ "`@`" +:+ double_char 96 host +:+ "` IDENTIFIED BY '"
    +:+ double_char 39 password +:+ "';".
Definition grant_all_sql (db user host : string) : string :=
  "GRANT ALL PRIVILEGES ON `" +:+ double_char 96 db +:+ "`.* TO `" +:+ double_char 96 user
    +:+ "`@`" +:+ double_char 96 host +:+ "`;".
Definition change_password_sql (user host new_password : string) : string :=
  "ALTER USER `" +:+ double_char 96 user +:+ "`@`" +:+ double_char 96 host +:+ "` IDENTIFIED BY '"
    +:+ double_char 39 new_password +:+ "';".
Definition drop_database_sql (name : string) : string :=
  "DROP DATABASE IF EXISTS `" +:+ double_char 96 name +:+ "`;".
Definition drop_user_sql (user host : string) : string :=
  "DROP USER IF EXISTS `" +:+ double_char 96 user +:+ "`@`" +:+ double_char 96 host +:+ "`;".

(** How a run of the [mysql] command ends. *)
Inductive CliOutcome : Type :=
| CliNotFound | CliIo (reason : string) | CliFailed (stderr : string) | CliDone.
(** Whether the binary exists, what a run of it does after the statements it was handed before,
    and the draws of [rand]. *)
Class MysqlCli := {
  mysql_exists : nat → bool;
  mysql_cli : nat → list (string * bool) → string → CliOutcome;
  gen_range : nat → nat → nat
}.

Section mysql.
Context `{Env} `{MysqlCli}.
Abbreviation MD A := (M World DatabaseError A).

Definition mysql_log (sql : string) (done : bool) : World → World :=
  with_db (on_part (λ t, set_mysql (dt_mysql t ++ [(sql, done)])%list t)).
Definition mysql_run (sql : string) : MD unit := λ w,
  match mysql_cli (w_step w) (dt_mysql (part_of w)) sql with
  | CliNotFound => (Err MysqlMissing, tick w)
  | CliIo reason => (Err (DatabaseIo reason), tick w)
  | CliFailed stderr => (Err (MysqlError stderr), tick (mysql_log sql false w))
  | CliDone => (Ok tt, tick (mysql_log sql true w))
  end.
Definition mysql_available : MD bool := λ w, (Ok (mysql_exists (w_step w)), tick w).
(** The methods of the client: the check for the binary, then the statement. *)
Definition mysql_call (sql : string) : MD unit :=
  available <- mysql_available ;;
  if available then mysql_run sql else throw MysqlMissing.
Definition mysql_create_database (name charset : string) : MD unit :=
  mysql_call (create_database_sql name charset).
Definition mysql_create_user (user host password : string) : MD unit :=
  mysql_call (create_user_sql user host password).
Definition mysql_grant_all (db user host : string) : MD unit := mysql_call (grant_all_sql db user host).
Definition mysql_change_password (user host new_password : string) : MD unit :=
  mysql_call (change_password_sql user host new_password).
Definition mysql_drop_database (name : string) : MD unit := mysql_call (drop_database_sql name).
Definition mysql_drop_user (user host : string) : MD unit := mysql_call (drop_user_sql user host).
End mysql.

(** ** [DatabasesService] *)

Definition PASSWORD_CHARS : list N :=
  bytes "abcdefghijklmnopqrstuvwxyzABCDEFGHIJKLMNOPQRSTUVWXYZ0123456789".

Section databases_service.
Context `{Env} `{Vault} `{MysqlCli}.
Variable master_key : list N.
Abbreviation MD A := (M World DatabaseError A).

(** The [i]-th character is drawn from the [i]-th index. *)
Definition generate_password (len : nat) : MD string := λ w,
  (Ok (of_bytes (map (λ i, nth (gen_range (w_step w) i) PASSWORD_CHARS 0) (seq 0 len))), tick w).

(** [Database::new]: the instant is read once the fields are valid. *)
Definition database_new (id owner : Uuid) (owner_username suffix charset created_by : string) : MD Database :=
  lift (validate_name suffix) ;;;
  (if String.eqb charset "" then throw (InvalidCharset "empty") else ret tt) ;;;
  prefix <- lift (validate_username owner_username) ;;
  let name := prefix +:+ "_" +:+ suffix in
  t <- now ;;
  ret (mkDatabase id owner name name "localhost" Mysql charset DatabaseActive t created_by).

Definition create_database (caller : UserRec) (owner : Uuid) (owner_username suffix : string)
    (charset : option string) : MD (Database * string) :=
  if negb (can_manage_databases (u_role caller)) then throw DatabaseForbidden
  else
    let charset := default "utf8mb4" charset in
    id <- fresh_uuid ;;
    db <- database_new id owner owner_username suffix charset (u_username caller) ;;
    existing <- map_err DatabasePersistence (databases_find_by_name (database_name db)) ;;
    match existing with
    | Some _ => throw (DuplicateDatabase (database_name db))
    | None =>
        password <- generate_password 24 ;;
        mysql_create_database (database_name db) (database_charset db) ;;;
        mysql_create_user (database_db_user db) (database_db_host db) password ;;;
        mysql_grant_all (database_name db) (database_db_user db) (database_db_host db) ;;;
        ciphertext <- map_err (λ e, DatabaseEncryption (cipher_error_text e))
                        (encrypt_to_storage master_key password) ;;
        inserted <- try_run (databases_insert db ciphertext) ;;
        match inserted with
        | Err e =>
            attempt (mysql_drop_user (database_db_user db) (database_db_host db)) ;;;
            attempt (mysql_drop_database (database_name db)) ;;;
            throw (DatabasePersistence e)
        | Ok _ =>
            audit (u_username caller) DatabaseCreated Success
              (λ e, with_metadata (JObject [("name", JString (database_name db));
                                            ("engine", JString (engine_str (database_engine db)))])
                      (with_target (uuid_text (database_id db)) e)) ;;;
            ret (db, password)
        end
    end.

Definition list_databases (caller : UserRec) : MD (list Database) :=
  map_err DatabasePersistence
    (match u_role caller with
     | Owner => databases_list_all
     | _ => databases_list_by_owner (u_id caller)
     end).

Definition assert_can_view (caller : UserRec) (db : Database) : result unit DatabaseError :=
  match u_role caller with
  | Owner | Admin => Ok tt
  | User => if database_owner_id db =? u_id caller then Ok tt else Err DatabaseForbidden
  end.
Definition get_database (caller : UserRec) (id : Uuid) : MD Database :=
  o <- map_err DatabasePersistence (databases_find_by_id id) ;;
  db <- ok_or o (DatabaseNotFound (uuid_text id)) ;;
  lift (assert_can_view caller db) ;;;
  ret db.

Definition delete_database (caller : UserRec) (id : Uuid) : MD unit :=
  db <- get_database caller id ;;
  mysql_drop_database (database_name db) ;;;
  mysql_drop_user (database_db_user db) (database_db_host db) ;;;
  map_err DatabasePersistence (databases_delete id) ;;;
  audit (u_username caller) DatabaseDeleted Success
    (λ e, with_metadata (JObject [("name", JString (database_name db))])
            (with_target (uuid_text id) e)).

Definition change_database_password (caller : UserRec) (id : Uuid) : MD string :=
  db <- get_database caller id ;;
  new_password <- generate_password 24 ;;
  mysql_change_password (database_db_user db) (database_db_host db) new_password ;;;
  ciphertext <- map_err (λ e, DatabaseEncryption (cipher_error_text e))
                  (encrypt_to_storage master_key new_password) ;;
  map_err DatabasePersistence (update_password_ciphertext id ciphertext) ;;;
  audit (u_username caller) DatabasePasswordChanged Success
    (λ e, with_metadata (JObject [("rotated", JBool true)]) (with_target (uuid_text id) e)) ;;;
  ret new_password.

Definition reveal_password (caller : UserRec) (id : Uuid) : MD string :=
  db <- get_database caller id ;;
  found <- map_err DatabasePersistence (password_ciphertext id) ;;
  stored <- ok_or found (DatabaseNotFound (uuid_text id)) ;;
  plaintext <- lift (result_map_err (λ e, DatabaseDecryption (cipher_error_text e))
                       (decrypt_from_storage master_key stored)) ;;
  audit (u_username caller) PermissionDenied Success
    (λ e, with_metadata (JObject [("action", JString "reveal_password")])
            (with_target (uuid_text id) e)) ;;;
  ret plaintext.
End databases_service.

(** The operations of the service, by whoever calls them. *)
Inductive DatabaseOp : Type :=
| OpCreateDatabase (caller : UserRec) (owner : Uuid) (owner_username suffix : string) (charset : option string)
| OpDeleteDatabase (caller : UserRec) (id : Uuid)
| OpChangeDatabasePassword (caller : UserRec) (id : Uuid)
| OpRevealPassword (caller : UserRec) (id : Uuid).
Definition run_database `{Env} `{Vault} `{MysqlCli} (master_key : list N) (op : DatabaseOp) (w : World) : World :=
  match op with
  | OpCreateDatabase caller owner owner_username suffix charset =>
      (create_database master_key caller owner owner_username suffix charset w).2
  | OpDeleteDatabase caller id => (delete_database caller id w).2
  | OpChangeDatabasePassword caller id => (change_database_password master_key caller id w).2
  | OpRevealPassword caller id => (reveal_password master_key caller id w).2
  end.
