(* ===== verification/DatabaseSql.v ===== *)
(** * The statements of the MySQL client

    A reader for the lexical structure of the statements of [MySqlClient]: words, identifiers in
    backquotes, strings in quotes and punctuation, as MySQL documents them (a doubled delimiter
    stands for itself, a backslash escapes the next character of a string, which is kept as it
    is; comments and double-quoted strings, which the client does not write, are not read).  It is
    used to say what the texts built in [Databases] mean. *)
From S2P Require Import Prelude Text HostingTables Store Databases.
Open Scope N_scope.

Inductive SqlToken : Type :=
| TWord (l : list N) | TIdent (l : list N) | TString (l : list N) | TPunct (c : N).
#[export] Instance SqlToken_eq_dec : EqDecision SqlToken.
Proof. solve_decision. Defined.

Inductive LexState : Type :=
| Between
| InWord (acc : list N)
| InIdent (acc : list N) | AtIdentEnd (acc : list N)
| InString (acc : list N) | AtEscape (acc : list N) | AtStringEnd (acc : list N).

(** 36 is [$]. *)
Definition sql_word_char (c : N) : bool := is_ascii_alphanumeric c || (c =? 95) || (c =? 36) || (128 <=? c).
Definition sql_space (c : N) : bool := (c =? 32) || ((9 <=? c) && (c <=? 13)).

(** The first character of a token. *)
Definition lex_start (c : N) : LexState * list SqlToken :=
  if c =? 96 then (InIdent [], [])
  else if c =? 39 then (InString [], [])
  else if sql_space c then (Between, [])
  else if sql_word_char c then (InWord [c], [])
  else (Between, [TPunct c]).
Definition emit (t : SqlToken) (p : LexState * list SqlToken) : LexState * list SqlToken := (p.1, t :: p.2).
(** 92 is the backslash. *)
Definition lex_char (st : LexState) (c : N) : LexState * list SqlToken :=
  match st with
  | Between => lex_start c
  | InWord acc => if sql_word_char c then (InWord (acc ++ [c]), []) else emit (TWord acc) (lex_start c)
  | InIdent acc => if c =? 96 then (AtIdentEnd acc, []) else (InIdent (acc ++ [c]), [])
  | AtIdentEnd acc => if c =? 96 then (InIdent (acc ++ [c]), []) else emit (TIdent acc) (lex_start c)
  | InString acc =>
      if c =? 39 then (AtStringEnd acc, []) else if c =? 92 then (AtEscape acc, [])
      else (InString (acc ++ [c]), [])
  | AtEscape acc => (InString (acc ++ [c]), [])
  | AtStringEnd acc => if c =? 39 then (InString (acc ++ [c]), []) else emit (TString acc) (lex_start c)
  end.
Definition lex_end (st : LexState) : option (list SqlToken) :=
  match st with
  | Between => Some []
  | InWord acc => Some [TWord acc]
  | AtIdentEnd acc => Some [TIdent acc]
  | AtStringEnd acc => Some [TString acc]
  | InIdent _ | InString _ | AtEscape _ => None
  end.
Fixpoint lex (st : LexState) (l : list N) : LexState * list SqlToken :=
  match l with
  | [] => (st, [])
  | c :: l' => let '(st1, ts) := lex_char st c in let '(st2, ts') := lex st1 l' in (st2, ts ++ ts')%list
  end.
Definition sql_tokens (l : list N) : option (list SqlToken) :=
  let '(st, ts) := lex Between l in (λ e, ts ++ e)%list <$> lex_end st.

(** The statements, as what they name. *)
Inductive MysqlStatement : Type :=
| CreateDatabase (name charset : string)
| CreateUser (user host password : string)
| GrantAll (db user host : string)
| AlterUser (user host password : string)
| DropDatabase (name : string)
| DropUser (user host : string).

Definition statement_sql (s : MysqlStatement) : string :=
  match s with
  | CreateDatabase name charset => create_database_sql name charset
  | CreateUser user host password => create_user_sql user host password
  | GrantAll db user host => grant_all_sql db user host
  | AlterUser user host password => change_password_sql user host password
  | DropDatabase name => drop_database_sql name
  | DropUser user host => drop_user_sql user host
  end.
Definition word (s : string) : SqlToken := TWord (bytes s).
Definition ident (s : string) : SqlToken := TIdent (bytes s).
(** 64, 46, 42 and 59 are [@], [.], [*] and [;]. *)
Definition account (user host : string) : list SqlToken := [ident user; TPunct 64; ident host].
Definition statement_tokens (s : MysqlStatement) : list SqlToken :=
  (match s with
   | CreateDatabase name charset =>
       [word "CREATE"; word "DATABASE"; ident name; word "CHARACTER"; word "SET"; word charset]
   | CreateUser user host password =>
       word "CREATE" :: word "USER" :: account user host
         ++ [word "IDENTIFIED"; word "BY"; TString (bytes password)]
   | GrantAll db user host =>
       [word "GRANT"; word "ALL"; word "PRIVILEGES"; word "ON"; ident db; TPunct 46; TPunct 42; word "TO"]
         ++ account user host
   | AlterUser user host password =>
       word "ALTER" :: word "USER" :: account user host
         ++ [word "IDENTIFIED"; word "BY"; TString (bytes password)]
   | DropDatabase name => [word "DROP"; word "DATABASE"; word "IF"; word "EXISTS"; ident name]
   | DropUser user host => word "DROP" :: word "USER" :: word "IF" :: word "EXISTS" :: account user host
   end ++ [TPunct 59])%list.

(** ** Reading what was quoted *)

Lemma lex_app st l1 l2 :
  lex st (l1 ++ l2) = let '(st1, ts) := lex st l1 in let '(st2, ts') := lex st1 l2 in (st2, ts ++ ts')%list.
Proof.
  revert st. induction l1 as [|c l1 IH]; intros st; cbn [app lex].
  - by destruct (lex st l2).
  - destruct (lex_char st c) as [st1 ts]. rewrite IH. destruct (lex st1 l1) as [st2 ts2].
    destruct (lex st2 l2) as [st3 ts3]. by rewrite app_assoc.
Qed.

Lemma double_char_bytes c s :
  c < 256 → bytes (double_char c s) = flat_map (λ b, if b =? c then [c; c] else [b]) (bytes s).
Proof.
  intros Hc. apply bytes_of_bytes, List.Forall_forall. intros x (b & Hb & Hx)%in_flat_map.
  pose proof (bytes_lt s) as Hs. rewrite List.Forall_forall in Hs. specialize (Hs b Hb).
  destruct (b =? c); cbn in Hx; intuition congruence.
Qed.

(** Any text is read back from between backquotes. *)
Lemma lex_ident acc s : lex (InIdent acc) (bytes (double_char 96 s)) = (InIdent (acc ++ bytes s), []).
Proof.
  rewrite double_char_bytes by lia. generalize (bytes s) as l. intros l. revert acc.
  induction l as [|c l IH]; intros acc; cbn [flat_map]; [by rewrite app_nil_r|].
  destruct (c =? 96) eqn:E; cbn [app lex lex_char].
  - apply N.eqb_eq in E as ->. cbn [lex_char N.eqb Pos.eqb lex]. rewrite IH. cbn. by rewrite <- app_assoc.
  - rewrite E, IH. cbn. by rewrite <- app_assoc.
Qed.
(** Any text without a backslash is read back from between quotes. *)
Lemma lex_string acc s :
  ~ In 92 (bytes s) → lex (InString acc) (bytes (double_char 39 s)) = (InString (acc ++ bytes s), []).
Proof.
  rewrite double_char_bytes by lia. generalize (bytes s) as l. intros l. revert acc.
  induction l as [|c l IH]; intros acc Hl; cbn [flat_map]; [by rewrite app_nil_r|].
  assert (~ In 92 l) as Hl' by (intros ?; apply Hl; by right).
  destruct (c =? 39) eqn:E; cbn [app lex lex_char].
  - apply N.eqb_eq in E as ->. cbn [lex_char N.eqb Pos.eqb lex]. rewrite IH by done. cbn. by rewrite <- app_assoc.
  - rewrite E. destruct (N.eqb_spec c 92) as [->|]; [destruct Hl; by left|].
    rewrite IH by done. cbn. by rewrite <- app_assoc.
Qed.
Lemma lex_word acc l :
  Forall (λ c, sql_word_char c = true) l → lex (InWord acc) l = (InWord (acc ++ l), []).
Proof.
  intros Hl. revert acc. induction Hl as [|c l Hc _ IH]; intros acc; cbn [lex lex_char]; [by rewrite app_nil_r|].
  rewrite Hc, IH. cbn. by rewrite <- app_assoc.
Qed.

(** A word, at its first character. *)
Definition is_word (s : string) : Prop := s ≠ "" ∧ Forall (λ c, sql_word_char c = true) (bytes s).
Lemma lex_start_word s : is_word s → lex Between (bytes s) = (InWord (bytes s), []).
Proof.
  intros [Hne Hs]. destruct s as [|a s]; [done|]. cbn [bytes] in *. apply Forall_cons in Hs as [Hc Hs].
  cbn [lex lex_char]. assert (lex_start (Ascii.N_of_ascii a) = (InWord [Ascii.N_of_ascii a], [])) as ->.
  { unfold lex_start. unfold sql_word_char, is_ascii_alphanumeric, is_digit, is_upper, is_lower in Hc.
    unfold sql_space, sql_word_char, is_ascii_alphanumeric, is_digit, is_upper, is_lower.
    generalize dependent (Ascii.N_of_ascii a). intros n Hc.
    rewrite !orb_true_iff, !andb_true_iff, !N.leb_le, !N.eqb_eq in Hc.
    destruct (N.eqb_spec n 96); [lia|]. destruct (N.eqb_spec n 39); [lia|]. destruct (N.eqb_spec n 32); [lia|].
    destruct (9 <=? n) eqn:E1; [destruct (n <=? 13) eqn:E2; [apply N.leb_le in E1, E2; lia|]|]; cbn [andb orb];
      (rewrite (proj2 (orb_true_iff _ _)); [done|]); rewrite !orb_true_iff, !andb_true_iff, !N.leb_le, !N.eqb_eq; lia. }
  rewrite lex_word by done. done.
Qed.

(** Literal text is read by evaluation, with what was read before it left alone. *)
Ltac lex_literal :=
  match goal with
  | |- context [lex ?st (bytes ?s)] =>
      assert_fails (is_var s);
      match st with
      | Between => let r := eval vm_compute in (lex st (bytes s)) in change (lex st (bytes s)) with r
      | ?C ?acc =>
          let f := eval vm_compute in (λ a, lex (C a) (bytes s)) in
          let r := eval cbv beta in (f acc) in
          change (lex st (bytes s)) with r
      end
  end.
Ltac lex_run :=
  repeat (first [rewrite lex_app | rewrite lex_ident | rewrite lex_string by done | rewrite lex_start_word by done
                | lex_literal]; cbn beta iota).

(** What a statement may hold: a charset that is one word, a password without backslashes. *)
Definition plain (s : MysqlStatement) : Prop :=
  match s with
  | CreateDatabase _ charset => is_word charset
  | CreateUser _ _ password | AlterUser _ _ password => ~ In 92 (bytes password)
  | _ => True
  end.

(** The statements are read as what they name, whatever the names. *)
Lemma statement_read s : plain s → sql_tokens (bytes (statement_sql s)) = Some (statement_tokens s).
Proof.
  intros Hp. unfold sql_tokens.
  destruct s; cbn in Hp; cbn [statement_sql statement_tokens];
    unfold create_database_sql, create_user_sql, grant_all_sql, change_password_sql, drop_database_sql,
      drop_user_sql; rewrite !bytes_app; lex_run; reflexivity.
Qed.
