(* ===== verification/Pitr.v ===== *)
(** * Point-in-time recovery

    [crates/openpanel-domain/src/db_pitr/] and [crates/openpanel-app/src/db_pitr/]: streams of
    transaction-log segments, restores and their promotion, incremental captures.  The sink is the
    in-memory one the panel is composed with ([cli/src/handlers.rs]); log tailers are outside. *)
From S2P Require Import Prelude Text AuditActions AuditLog Accounts Paths CronJobs HostingTables Store Users Secrets Sites Staging StagingChanges Parts Databases.
Open Scope N_scope.

(** ** Positions and ranges *)

Inductive PitrError : Type :=
| PitrInvalid (reason : string)
| PitrInvalidTransition
| TargetMissing (what : string)
| PitrTimestampOutOfRange (ts : string)
| PitrIo (reason : string).

Definition log_initial : LogSeq := [].
Definition log_from_bytes (b : list N) : result LogSeq PitrError :=
  if (64 <? length b)%nat
  then Err (PitrInvalid ("log sequence number is " +:+ of_bytes (show_N (N.of_nat (length b)))
                         +:+ " bytes; max 64"))
  else Ok b.

(** [trim_start_matches], with the prefix given as a text: 48 120 is [0x]. *)
Fixpoint trim_0x (l : list N) : list N :=
  match l with
  | 48 :: 120 :: l' => trim_0x l'
  | _ => l
  end.

Section hex.
Context `{Vault}.
Definition log_to_hex (s : LogSeq) : string := hex_encode s.
Definition log_from_hex (s : string) : result LogSeq PitrError :=
  b <-? result_map_err (λ e, PitrInvalid ("invalid log sequence hex: " +:+ e))
          (hex_decode (of_bytes (trim_0x (bytes s)))) ;;
  log_from_bytes b.
End hex.

Record BinlogRange := mkRange {
  rg_earliest : LogSeq;
  rg_latest : LogSeq;
  rg_start : DateTime;
  rg_end : DateTime;
  rg_empty : bool
}.
Definition range_new (earliest latest : LogSeq) (start end_ : DateTime) : result BinlogRange PitrError :=
  if (end_ <? start)%Z then Err (PitrInvalid "binlog range end is before start")
  else Ok (mkRange earliest latest start end_
             (bool_decide (earliest = latest) && bool_decide (earliest = log_initial))).
Definition range_covers (r : BinlogRange) (ts : DateTime) : bool :=
  negb (rg_empty r) && (rg_start r <=? ts)%Z && (ts <=? rg_end r)%Z.

(** ** Streams *)

Inductive BinlogStreamStatus : Type := StreamActive | StreamPaused | StreamBroken.
#[export] Instance BinlogStreamStatus_eq_dec : EqDecision BinlogStreamStatus.
Proof. solve_decision. Defined.
Definition stream_status_str (s : BinlogStreamStatus) : string :=
  match s with StreamActive => "active" | StreamPaused => "paused" | StreamBroken => "broken" end.
Definition parse_stream_status (s : string) : result BinlogStreamStatus PitrError :=
  if String.eqb s "active" then Ok StreamActive
  else if String.eqb s "paused" then Ok StreamPaused
  else if String.eqb s "broken" then Ok StreamBroken
  else Err (PitrInvalid ("unknown binlog stream status `" +:+ s +:+ "`")).

Record BinlogStream := mkStream {
  stream_id : Uuid;
  stream_database_id : Uuid;
  stream_target : Uuid;
  stream_last_flushed : LogSeq;
  stream_continuous : bool;
  stream_status : BinlogStreamStatus;
  stream_created_at : DateTime;
  stream_updated_at : DateTime
}.
(** The nil identifier is 0. *)
Definition stream_new (id database target : Uuid) (continuous : bool) (t : DateTime)
    : result BinlogStream PitrError :=
  if database =? 0 then Err (PitrInvalid "database id is nil")
  else Ok (mkStream id database target log_initial continuous StreamActive t t).
(** [pause], [resume] and [mark_broken] are [stream_to] with their status. *)
Definition stream_to (st : BinlogStreamStatus) (t : DateTime) (s : BinlogStream) : BinlogStream :=
  if decide (stream_status s = st) then s
  else mkStream (stream_id s) (stream_database_id s) (stream_target s) (stream_last_flushed s)
         (stream_continuous s) st (stream_created_at s) t.
Definition stream_pause : DateTime → BinlogStream → BinlogStream := stream_to StreamPaused.
Definition stream_resume : DateTime → BinlogStream → BinlogStream := stream_to StreamActive.
Definition stream_mark_broken : DateTime → BinlogStream → BinlogStream := stream_to StreamBroken.
Definition stream_checkpoint (seq : LogSeq) (t : DateTime) (s : BinlogStream) : BinlogStream :=
  mkStream (stream_id s) (stream_database_id s) (stream_target s) seq (stream_continuous s)
    (stream_status s) (stream_created_at s) t.

(** ** Restores *)

Inductive PitrRestoreStatus : Type :=
| RestorePending | RestoreStaged | RestorePromoting | RestorePromoted | RestoreFailed.
#[export] Instance PitrRestoreStatus_eq_dec : EqDecision PitrRestoreStatus.
Proof. solve_decision. Defined.
Definition restore_status_str (s : PitrRestoreStatus) : string :=
  match s with
  | RestorePending => "pending" | RestoreStaged => "staged" | RestorePromoting => "promoting"
  | RestorePromoted => "promoted" | RestoreFailed => "failed"
  end.
Definition parse_restore_status (s : string) : result PitrRestoreStatus PitrError :=
  if String.eqb s "pending" then Ok RestorePending
  else if String.eqb s "staged" then Ok RestoreStaged
  else if String.eqb s "promoting" then Ok RestorePromoting
  else if String.eqb s "promoted" then Ok RestorePromoted
  else if String.eqb s "failed" then Ok RestoreFailed
  else Err (PitrInvalid ("unknown PITR restore status `" +:+ s +:+ "`")).

Record RestoreReplayWindow := mkReplayWindow { rw_base_backup : Uuid; rw_replay_to : LogSeq }.
Record PitrRestore := mkRestore {
  restore_id : Uuid;
  restore_database_id : Uuid;
  restore_request_ts : DateTime;
  restore_window : option RestoreReplayWindow;
  restore_staging_db_id : option Uuid;
  restore_status : PitrRestoreStatus;
  restore_requested_by : string;
  restore_requested_at : DateTime;
  restore_updated_at : DateTime;
  restore_failure_reason : option string
}.
Definition is_blank (s : string) : bool := match trim (chars s) with [] => true | _ => false end.
Definition restore_new (id database : Uuid) (request_ts : DateTime) (requested_by : string) (t : DateTime)
    : result PitrRestore PitrError :=
  if database =? 0 then Err (PitrInvalid "database id is nil")
  else if is_blank requested_by then Err (PitrInvalid "requested_by is empty")
  else Ok (mkRestore id database request_ts None None RestorePending requested_by t t None).

Definition restore_with (window : option RestoreReplayWindow) (staging : option Uuid)
    (st : PitrRestoreStatus) (reason : option string) (t : DateTime) (r : PitrRestore) : PitrRestore :=
  mkRestore (restore_id r) (restore_database_id r) (restore_request_ts r) window staging st
    (restore_requested_by r) (restore_requested_at r) t reason.
Definition mark_staged (staging : Uuid) (window : RestoreReplayWindow) (t : DateTime) (r : PitrRestore)
    : result PitrRestore PitrError :=
  if negb (bool_decide (restore_status r = RestorePending)) then Err PitrInvalidTransition
  else if staging =? 0 then Err (PitrInvalid "staging database id is nil")
  else Ok (restore_with (Some window) (Some staging) RestoreStaged (restore_failure_reason r) t r).
Definition begin_restore_promotion (t : DateTime) (r : PitrRestore) : result PitrRestore PitrError :=
  if negb (bool_decide (restore_status r = RestoreStaged)) then Err PitrInvalidTransition
  else Ok (restore_with (restore_window r) (restore_staging_db_id r) RestorePromoting
             (restore_failure_reason r) t r).
Definition complete_restore_promotion (t : DateTime) (r : PitrRestore) : result PitrRestore PitrError :=
  if negb (bool_decide (restore_status r = RestorePromoting)) then Err PitrInvalidTransition
  else Ok (restore_with (restore_window r) (restore_staging_db_id r) RestorePromoted
             (restore_failure_reason r) t r).
Definition restore_fail (reason : string) (t : DateTime) (r : PitrRestore) : result PitrRestore PitrError :=
  match restore_status r with
  | RestorePromoted | RestoreFailed => Err PitrInvalidTransition
  | _ => Ok (restore_with (restore_window r) (restore_staging_db_id r) RestoreFailed (Some reason) t r)
  end.

(** ** Incremental captures *)

Inductive IncrementalMode : Type := BlockDelta | LogicalDelta.
Definition mode_str (m : IncrementalMode) : string :=
  match m with BlockDelta => "block_delta" | LogicalDelta => "logical" end.
Definition parse_mode (s : string) : result IncrementalMode PitrError :=
  if String.eqb s "block_delta" then Ok BlockDelta
  else if String.eqb s "logical" then Ok LogicalDelta
  else Err (PitrInvalid ("unknown incremental mode `" +:+ s +:+ "`")).

(** [inc_bytes] is a [u64]. *)
Record IncrementalBackup := mkIncremental {
  inc_id : Uuid;
  inc_database_id : Uuid;
  inc_base_backup : Uuid;
  inc_delta_ref : string;
  inc_mode : IncrementalMode;
  inc_bytes : Z;
  inc_captured_through : LogSeq;
  inc_captured_at : DateTime
}.
Definition incremental_new (id database base : Uuid) (delta_ref : string) (mode : IncrementalMode)
    (size : Z) (through : LogSeq) (t : DateTime) : result IncrementalBackup PitrError :=
  if database =? 0 then Err (PitrInvalid "database id is nil")
  else if base =? 0 then Err (PitrInvalid "base backup id is nil")
  else if is_blank delta_ref then Err (PitrInvalid "delta ref is empty")
  else Ok (mkIncremental id database base delta_ref mode size through t).

(** ** [InMemoryBinlogSink] *)

Definition bytes_le (a b : list N) : bool :=
  (fix le (a b : list N) : bool :=
     match a, b with
     | [], _ => true
     | _ :: _, [] => false
     | x :: a', y :: b' => (x <? y) || ((x =? y) && le a' b')
     end) a b.
Definition by_from (s1 s2 : BinlogSegment) : Prop := bytes_le (sg_from s1) (sg_from s2) = true.
#[export] Instance by_from_dec : RelDecision by_from.
Proof. unfold by_from. intros s1 s2. apply _. Defined.

Section sink.
Context `{Env} `{Vault}.

Definition sink_append (database : Uuid) (s : BinlogSegment) (k : SinkState) : LogSeq * SinkState :=
  let '(earliest, _, start, end_) :=
    default (sg_from s, sg_to s, sg_generated_at s, sg_generated_at s) (sk_ranges k !! database) in
  let start' := if (sg_generated_at s <? start)%Z then sg_generated_at s else start in
  let end' := if (end_ <? sg_generated_at s)%Z then sg_generated_at s else end_ in
  (sg_to s,
   mkSinkState (<[(database, log_to_hex (sg_from s)) := s]> (sk_segments k))
     (<[database := (earliest, sg_to s, start', end')]> (sk_ranges k))).
Definition sink_replay_window (database : Uuid) (earliest : LogSeq) (target_ts : DateTime) (k : SinkState)
    : list BinlogSegment :=
  merge_sort by_from
    (map snd (List.filter (λ e, e.1.1 =? database) (map_to_list (sk_segments k)))).
Definition sink_available_range (database : Uuid) : M World PitrError BinlogRange :=
  k <- gets (λ w, dt_sink (part_of w)) ;;
  match sk_ranges k !! database with
  | Some (earliest, latest, start, end_) => lift (range_new earliest latest start end_)
  | None => t <- now ;; lift (range_new log_initial log_initial t t)
  end.
(** A segment reaching the sink. *)
Definition append_segment (database : Uuid) (s : BinlogSegment) : M World PitrError LogSeq := λ w,
  (Ok (sg_to s), with_db (on_part (λ t, set_sink (sink_append database s (dt_sink t)).2 t)) w).
End sink.

(** ** Rows *)

Section rows.
Context `{Vault}.

Definition stream_row (s : BinlogStream) : StreamRow :=
  mkStreamRow (stream_id s) (stream_database_id s) (stream_target s)
    (log_to_hex (stream_last_flushed s)) (if stream_continuous s then 1%Z else 0%Z)
    (stream_status_str (stream_status s)) (stream_created_at s) (stream_updated_at s).
Definition into_stream (r : StreamRow) : result BinlogStream PitrError :=
  last_flushed <-? log_from_hex (bs_last_flushed r) ;;
  status <-? parse_stream_status (bs_status r) ;;
  Ok (mkStream (bs_id r) (bs_database_id r) (bs_target_id r) last_flushed
        (negb (bs_continuous r =? 0)%Z) status (bs_created_at r) (bs_updated_at r)).
Definition stream_row_set (last_flushed : LogSeq) (st : BinlogStreamStatus) (t : DateTime) (r : StreamRow)
    : StreamRow :=
  mkStreamRow (bs_id r) (bs_database_id r) (bs_target_id r) (log_to_hex last_flushed)
    (bs_continuous r) (stream_status_str st) (bs_created_at r) t.

Definition restore_row (r : PitrRestore) : RestoreRow :=
  mkRestoreRow (restore_id r) (restore_database_id r) (restore_request_ts r)
    (rw_base_backup <$> restore_window r) ((λ w, log_to_hex (rw_replay_to w)) <$> restore_window r)
    (restore_staging_db_id r) (restore_status_str (restore_status r)) (restore_requested_by r)
    (restore_requested_at r) (restore_updated_at r) (restore_failure_reason r).
(** [SET] of the update: the key and the database stay. *)
Definition restore_row_set (p : PitrRestore) (r : RestoreRow) : RestoreRow :=
  let n := restore_row p in
  mkRestoreRow (rs_id r) (rs_database_id r) (rs_request_ts n) (rs_base_backup n) (rs_replay_to n)
    (rs_staging_db_id n) (rs_status n) (rs_requested_by n) (rs_requested_at n) (rs_updated_at n)
    (rs_failure_reason n).
Definition into_restore (r : RestoreRow) : result PitrRestore PitrError :=
  window <-? match rs_base_backup r, rs_replay_to r with
             | Some base, Some hex => to <-? log_from_hex hex ;; Ok (Some (mkReplayWindow base to))
             | _, _ => Ok None
             end ;;
  status <-? parse_restore_status (rs_status r) ;;
  Ok (mkRestore (rs_id r) (rs_database_id r) (rs_request_ts r) window (rs_staging_db_id r) status
        (rs_requested_by r) (rs_requested_at r) (rs_updated_at r) (rs_failure_reason r)).

Definition incremental_row (i : IncrementalBackup) : IncrementalRow :=
  mkIncrementalRow (inc_id i) (inc_database_id i) (inc_base_backup i) (inc_delta_ref i)
    (mode_str (inc_mode i)) (u64_as_i64 (inc_bytes i)) (log_to_hex (inc_captured_through i))
    (inc_captured_at i).
Definition into_incremental (r : IncrementalRow) : result IncrementalBackup PitrError :=
  mode <-? parse_mode (inr_mode r) ;;
  size <-? (if (inr_bytes r <? 0)%Z
            then Err (PitrInvalid "invalid bytes: out of range integral type conversion attempted")
            else Ok (inr_bytes r)) ;;
  through <-? log_from_hex (inr_captured_through r) ;;
  Ok (mkIncremental (inr_id r) (inr_database_id r) (inr_base_backup r) (inr_delta_ref r) mode size
        through (inr_captured_at r)).
End rows.

Definition stream_is (id : Uuid) (r : StreamRow) : bool := bs_id r =? id.
Definition restore_is (id : Uuid) (r : RestoreRow) : bool := rs_id r =? id.
Definition incremental_is (id : Uuid) (r : IncrementalRow) : bool := inr_id r =? id.
Definition newest_stream (r1 r2 : StreamRow) : Prop := (bs_created_at r2 ≤ bs_created_at r1)%Z.
#[export] Instance newest_stream_dec : RelDecision newest_stream.
Proof. unfold newest_stream. intros r1 r2. apply _. Defined.
Definition newest_restore (r1 r2 : RestoreRow) : Prop := (rs_requested_at r2 ≤ rs_requested_at r1)%Z.
#[export] Instance newest_restore_dec : RelDecision newest_restore.
Proof. unfold newest_restore. intros r1 r2. apply _. Defined.
Definition newest_incremental (r1 r2 : IncrementalRow) : Prop :=
  (inr_captured_at r2 ≤ inr_captured_at r1)%Z.
#[export] Instance newest_incremental_dec : RelDecision newest_incremental.
Proof. unfold newest_incremental. intros r1 r2. apply _. Defined.

(** The constraints of the inserts: the key, the reference to [databases] and the checks. *)
Definition insert_stream_row (r : StreamRow) (t : DatabaseTables) : result (unit * DatabaseTables) string :=
  if existsb (stream_is (bs_id r)) (dt_streams t) then Err "binlog_streams.id"
  else if negb ((bs_continuous r =? 0)%Z || (bs_continuous r =? 1)%Z) then Err "CHECK continuous"
  else if existsb (database_is (bs_database_id r)) (dt_databases t)
  then Ok (tt, set_streams (dt_streams t ++ [r])%list t)
  else Err "FOREIGN KEY".
Definition insert_restore_row (r : RestoreRow) (t : DatabaseTables) : result (unit * DatabaseTables) string :=
  if existsb (restore_is (rs_id r)) (dt_restores t) then Err "pitr_restores.id"
  else if existsb (database_is (rs_database_id r)) (dt_databases t)
  then Ok (tt, set_restores (dt_restores t ++ [r])%list t)
  else Err "FOREIGN KEY".
Definition insert_incremental_row (r : IncrementalRow) (t : DatabaseTables)
    : result (unit * DatabaseTables) string :=
  if existsb (incremental_is (inr_id r)) (dt_incrementals t) then Err "incremental_backups.id"
  else if (inr_bytes r <? 0)%Z then Err "CHECK bytes"
  else if existsb (database_is (inr_database_id r)) (dt_databases t)
  then Ok (tt, set_incrementals (dt_incrementals t ++ [r])%list t)
  else Err "FOREIGN KEY".

(** ** Repositories *)

Section repos.
Context `{Env} `{Vault}.
Abbreviation MP A := (M World PitrError A).
Abbreviation tables d := (ht_databases (db_hosting d)).

Definition pitr_db {A} (c : M World RepoError A) : MP A := map_err PitrIo c.

Definition streams_insert (s : BinlogStream) : MP unit :=
  pitr_db (statement (part_statement (insert_stream_row (stream_row s)))).
Definition streams_find_by_id (id : Uuid) : MP (option BinlogStream) :=
  row <- pitr_db (select (λ d, List.find (stream_is id) (dt_streams (tables d)))) ;;
  lift (transpose into_stream row).
Definition streams_find_by_database (database : Uuid) : MP (option BinlogStream) :=
  row <- pitr_db (select (λ d, head (merge_sort newest_stream
           (select_where (λ r, bs_database_id r =? database) (dt_streams (tables d)))))) ;;
  lift (transpose into_stream row).
Definition streams_list_all : MP (list BinlogStream) :=
  rows <- pitr_db (select (λ d, merge_sort newest_stream (dt_streams (tables d)))) ;;
  lift (collect into_stream rows).
Definition streams_update_state (id : Uuid) (last_flushed : LogSeq) (st : BinlogStreamStatus) : MP unit :=
  t <- now ;;
  pitr_db (execute (on_part (λ d, set_streams
    (update_where (stream_is id) (stream_row_set last_flushed st t) (dt_streams d)) d))).
Definition streams_delete (id : Uuid) : MP unit :=
  pitr_db (execute (on_part (λ d, set_streams (delete_where (stream_is id) (dt_streams d)) d))).

Definition restores_insert (r : PitrRestore) : MP unit :=
  pitr_db (statement (part_statement (insert_restore_row (restore_row r)))).
Definition restores_find_by_id (id : Uuid) : MP (option PitrRestore) :=
  row <- pitr_db (select (λ d, List.find (restore_is id) (dt_restores (tables d)))) ;;
  lift (transpose into_restore row).
Definition restores_list_by_database (database : Uuid) : MP (list PitrRestore) :=
  rows <- pitr_db (select (λ d, merge_sort newest_restore
            (select_where (λ r, rs_database_id r =? database) (dt_restores (tables d))))) ;;
  lift (collect into_restore rows).
Definition restores_update (r : PitrRestore) : MP unit :=
  pitr_db (execute (on_part (λ d, set_restores
    (update_where (restore_is (restore_id r)) (restore_row_set r) (dt_restores d)) d))).

Definition incrementals_insert (i : IncrementalBackup) : MP unit :=
  pitr_db (statement (part_statement (insert_incremental_row (incremental_row i)))).
Definition incrementals_find_by_id (id : Uuid) : MP (option IncrementalBackup) :=
  row <- pitr_db (select (λ d, List.find (incremental_is id) (dt_incrementals (tables d)))) ;;
  lift (transpose into_incremental row).
Definition incrementals_list_by_database (database : Uuid) : MP (list IncrementalBackup) :=
  rows <- pitr_db (select (λ d, merge_sort newest_incremental
            (select_where (λ r, inr_database_id r =? database) (dt_incrementals (tables d))))) ;;
  lift (collect into_incremental rows).

(** [IncrementalFileLayer::record]. *)
Definition incremental_record (id database base : Uuid) (delta_ref : string) (mode : IncrementalMode)
    (size : Z) (through : LogSeq) (t : DateTime) : MP IncrementalBackup :=
  inc <- lift (incremental_new id database base delta_ref mode size through t) ;;
  incrementals_insert inc ;;;
  ret inc.
End repos.

(** ** [PitrService] *)

Record RestoreRequest := mkRestoreRequest {
  rq_timestamp : DateTime;
  rq_base_backup : option Uuid;
  rq_confirm : bool
}.

Inductive RestoreRequestError : Type :=
| PitrForbidden
| RequestOutOfRange (ts : string)
| PitrDatabaseNotFound (id : string)
| UnknownTarget (id : string)
| RequestPitr (e : PitrError)
| RequestDatabase (e : DatabaseError).

(** [DateTime::to_rfc3339], whether a tailer is registered, and how its calls end. *)
Class PitrEnv := {
  to_rfc3339 : DateTime → string;
  tailer_registered : nat → bool;
  tailer_enable : nat → Uuid → result unit PitrError;
  tailer_disable : nat → Uuid → result unit PitrError
}.

Section pitr_service.
Context `{Env} `{Vault} `{PitrEnv}.
Abbreviation MS A := (M World RestoreRequestError A).

(** [?] on a [PitrError]. *)
Definition pitr {A} (c : M World PitrError A) : MS A := map_err RequestPitr c.
Definition pitr_lift {A} (r : result A PitrError) : MS A := lift (result_map_err RequestPitr r).

(** [RestoreTimestamp::new]. *)
Definition restore_timestamp_new (ts : DateTime) : M World PitrError DateTime :=
  t <- now ;;
  if (t <? ts)%Z then throw (PitrInvalid ("restore timestamp " +:+ to_rfc3339 ts +:+ " is in the future"))
  else ret ts.

Definition pitr_ensure_owner (caller : UserRec) : result unit RestoreRequestError :=
  match u_role caller with Owner => Ok tt | _ => Err PitrForbidden end.
Definition pitr_scope (u : UserRec) : Uuid * bool :=
  (u_id u, match u_role u with Owner => true | _ => false end).
Definition load_database (caller : UserRec) (id : Uuid) : MS Database :=
  o <- map_err RequestDatabase (database_lookup id) ;;
  db <- ok_or o (PitrDatabaseNotFound (uuid_text id)) ;;
  let '(_, can_manage_all) := pitr_scope caller in
  if negb can_manage_all && negb (database_owner_id db =? u_id caller) then throw PitrForbidden
  else ret db.

(** [record_audit]: a failed write is only logged. *)
Definition record_audit (actor : string) (action : AuditAction) (target : string) (metadata : Json)
    (outcome : AuditOutcome) : MS unit :=
  audit actor action outcome (λ e, with_metadata metadata (with_target target e)).

(** A call of the first registered tailer, whose failure is only logged. *)
Definition tailer_call (f : nat → Uuid → result unit PitrError) (database : Uuid) : MS unit := λ w,
  if tailer_registered (w_step w)
  then (attempt (λ w, (f (w_step w) database, tick w)) ;;; ret tt) (tick w)
  else (Ok tt, tick w).

Definition id_json (id : Uuid) : Json := JString (uuid_text id).

Definition enable_stream (caller : UserRec) (database target : Uuid) : MS BinlogStream :=
  lift (pitr_ensure_owner caller) ;;;
  load_database caller database ;;;
  t <- now ;;
  found <- pitr (streams_find_by_database database) ;;
  match found with
  | Some existing =>
      let updated := stream_resume t existing in
      pitr (streams_update_state (stream_id updated) (stream_last_flushed updated) (stream_status updated)) ;;;
      record_audit (u_username caller) PitrStreamResumed (uuid_text database)
        (JObject [("stream_id", id_json (stream_id updated)); ("target", id_json target)]) Success ;;;
      ret updated
  | None =>
      id <- fresh_uuid ;;
      stream <- pitr_lift (stream_new id database target true t) ;;
      pitr (streams_insert stream) ;;;
      tailer_call tailer_enable database ;;;
      record_audit (u_username caller) PitrStreamEnabled (uuid_text database)
        (JObject [("stream_id", id_json (stream_id stream)); ("target", id_json target)]) Success ;;;
      ret stream
  end.

Definition require_stream (database : Uuid) : MS BinlogStream :=
  o <- pitr (streams_find_by_database database) ;; ok_or o (UnknownTarget (uuid_text database)).

Definition pause_stream (caller : UserRec) (database : Uuid) : MS BinlogStream :=
  lift (pitr_ensure_owner caller) ;;;
  stream <- require_stream database ;;
  load_database caller database ;;;
  t <- now ;;
  let stream := stream_pause t stream in
  pitr (streams_update_state (stream_id stream) (stream_last_flushed stream) (stream_status stream)) ;;;
  tailer_call tailer_disable database ;;;
  record_audit (u_username caller) PitrStreamPaused (uuid_text database)
    (JObject [("stream_id", id_json (stream_id stream))]) Success ;;;
  ret stream.

Definition mark_stream_broken (database : Uuid) (reason : string) : MS unit :=
  stream <- require_stream database ;;
  t <- now ;;
  let stream := stream_mark_broken t stream in
  pitr (streams_update_state (stream_id stream) (stream_last_flushed stream) (stream_status stream)) ;;;
  record_audit "system" PitrStreamBroken (uuid_text database)
    (JObject [("stream_id", id_json (stream_id stream)); ("reason", JString reason)]) Failure.

Definition resume_stream (caller : UserRec) (database : Uuid) : MS BinlogStream :=
  lift (pitr_ensure_owner caller) ;;;
  load_database caller database ;;;
  stream <- require_stream database ;;
  t <- now ;;
  let stream := stream_resume t stream in
  pitr (streams_update_state (stream_id stream) (stream_last_flushed stream) (stream_status stream)) ;;;
  tailer_call tailer_enable database ;;;
  record_audit (u_username caller) PitrStreamResumed (uuid_text database)
    (JObject [("stream_id", id_json (stream_id stream))]) Success ;;;
  ret stream.

Definition inspect_range (database : Uuid) : MS BinlogRange := pitr (sink_available_range database).

Definition require_restore (id : Uuid) : MS PitrRestore :=
  o <- pitr (restores_find_by_id id) ;; ok_or o (UnknownTarget (uuid_text id)).

Definition promote_restore (caller : UserRec) (id : Uuid) : MS PitrRestore :=
  lift (pitr_ensure_owner caller) ;;;
  restore <- require_restore id ;;
  t <- now ;;
  restore <- pitr_lift (begin_restore_promotion t restore) ;;
  pitr (restores_update restore) ;;;
  t' <- now ;;
  restore <- pitr_lift (complete_restore_promotion t' restore) ;;
  pitr (restores_update restore) ;;;
  record_audit (u_username caller) PitrRestorePromoted (uuid_text (restore_database_id restore))
    (JObject [("restore_id", id_json (restore_id restore))]) Success ;;;
  ret restore.

(** A restore that a new request for the same instant answers with. *)
Definition in_progress (ts : DateTime) (r : PitrRestore) : bool :=
  (restore_request_ts r =? ts)%Z
  && match restore_status r with RestorePending | RestoreStaged => true | _ => false end.

Definition request_restore (caller : UserRec) (database : Uuid) (request : RestoreRequest) : MS PitrRestore :=
  lift (pitr_ensure_owner caller) ;;;
  load_database caller database ;;;
  request_ts <- pitr (restore_timestamp_new (rq_timestamp request)) ;;
  range <- inspect_range database ;;
  if negb (range_covers range (rq_timestamp request))
  then throw (RequestOutOfRange (to_rfc3339 (rq_timestamp request)))
  else
    existing <- pitr (restores_list_by_database database) ;;
    match List.find (in_progress (rq_timestamp request)) existing with
    | Some r => ret r
    | None =>
        t <- now ;;
        id <- fresh_uuid ;;
        restore <- pitr_lift (restore_new id database request_ts (u_username caller) t) ;;
        pitr (restores_insert restore) ;;;
        base <- (match rq_base_backup request with Some b => ret b | None => fresh_uuid end) ;;
        staging <- fresh_uuid ;;
        restore <- pitr_lift (mark_staged staging (mkReplayWindow base (rg_latest range)) t restore) ;;
        pitr (restores_update restore) ;;;
        record_audit (u_username caller) PitrRestoreRequested (uuid_text database)
          (JObject [("restore_id", id_json (restore_id restore));
                    ("request_ts", JString (to_rfc3339 (rq_timestamp request)));
                    ("staging_db_id", id_json staging)]) Success ;;;
        (if rq_confirm request then promote_restore caller (restore_id restore) ;;; ret tt else ret tt) ;;;
        ret restore
    end.

Definition fail_restore (id : Uuid) (reason : string) : MS unit :=
  restore <- require_restore id ;;
  t <- now ;;
  restore <- pitr_lift (restore_fail reason t restore) ;;
  pitr (restores_update restore) ;;;
  record_audit "system" PitrRestoreFailed (uuid_text (restore_database_id restore))
    (JObject [("restore_id", id_json (restore_id restore)); ("reason", JString reason)]) Failure.

Definition get_restore (caller : UserRec) (id : Uuid) : MS PitrRestore :=
  lift (pitr_ensure_owner caller) ;;;
  restore <- require_restore id ;;
  load_database caller (restore_database_id restore) ;;;
  ret restore.
Definition list_restores (caller : UserRec) (database : Uuid) : MS (list PitrRestore) :=
  lift (pitr_ensure_owner caller) ;;;
  load_database caller database ;;;
  pitr (restores_list_by_database database).
Definition stream_for (caller : UserRec) (database : Uuid) : MS (option BinlogStream) :=
  lift (pitr_ensure_owner caller) ;;;
  load_database caller database ;;;
  pitr (streams_find_by_database database).

Definition capture_incremental (caller : UserRec) (database base : Uuid) (delta_ref : string)
    (mode : IncrementalMode) (size : Z) (through : LogSeq) : MS IncrementalBackup :=
  lift (pitr_ensure_owner caller) ;;;
  load_database caller database ;;;
  id <- fresh_uuid ;;
  t <- now ;;
  inc <- pitr_lift (incremental_new id database base delta_ref mode size through t) ;;
  pitr (incrementals_insert inc) ;;;
  record_audit (u_username caller) PitrIncrementalCaptured (uuid_text database)
    (JObject [("incremental_id", id_json (inc_id inc)); ("base_backup", id_json base);
              ("bytes", JNumber (of_bytes (show_Z size))); ("mode", JString (mode_str (inc_mode inc)))]) Success ;;;
  ret inc.
Definition list_incrementals (caller : UserRec) (database : Uuid) : MS (list IncrementalBackup) :=
  lift (pitr_ensure_owner caller) ;;;
  load_database caller database ;;;
  pitr (incrementals_list_by_database database).

(** [find_stream_for_test]: errors are no stream. *)
Definition find_stream_for_test (database : Uuid) : MS (option BinlogStream) :=
  o <- attempt (streams_find_by_database database) ;; ret (default None o).
Definition update_stream_for_test (id : Uuid) (last_flushed : LogSeq) (st : BinlogStreamStatus)
    : M World PitrError unit := streams_update_state id last_flushed st.
End pitr_service.

(** The operations of the service, and segments reaching the sink. *)
Inductive PitrOp : Type :=
| OpEnableStream (caller : UserRec) (database target : Uuid)
| OpPauseStream (caller : UserRec) (database : Uuid)
| OpMarkBroken (database : Uuid) (reason : string)
| OpResumeStream (caller : UserRec) (database : Uuid)
| OpRequestRestore (caller : UserRec) (database : Uuid) (request : RestoreRequest)
| OpPromoteRestore (caller : UserRec) (id : Uuid)
| OpFailRestore (id : Uuid) (reason : string)
| OpCapture (caller : UserRec) (database base : Uuid) (delta_ref : string) (mode : IncrementalMode)
    (size : Z) (through : LogSeq)
| OpUpdateStream (id : Uuid) (last_flushed : LogSeq) (st : BinlogStreamStatus)
| OpAppend (database : Uuid) (s : BinlogSegment).
Definition run_pitr `{Env} `{Vault} `{PitrEnv} (op : PitrOp) (w : World) : World :=
  match op with
  | OpEnableStream caller database target => (enable_stream caller database target w).2
  | OpPauseStream caller database => (pause_stream caller database w).2
  | OpMarkBroken database reason => (mark_stream_broken database reason w).2
  | OpResumeStream caller database => (resume_stream caller database w).2
  | OpRequestRestore caller database request => (request_restore caller database request w).2
  | OpPromoteRestore caller id => (promote_restore caller id w).2
  | OpFailRestore id reason => (fail_restore id reason w).2
  | OpCapture caller database base delta_ref mode size through =>
      (capture_incremental caller database base delta_ref mode size through w).2
  | OpUpdateStream id last_flushed st => (update_stream_for_test id last_flushed st w).2
  | OpAppend database s => (append_segment database s w).2
  end.
