(* ===== verification/DatabaseChanges.v ===== *)
(** * What the database and recovery services do to their tables

    [database_change] and [pitr_change] list the changes one statement can make, with what is
    true when it runs.  Every operation of the two services is a sequence of such changes,
    wherever statements fail ([run_database_moves], [run_pitr_moves]). *)
From S2P Require Import Prelude Text AuditActions AuditLog Accounts Paths CronJobs HostingTables Store Users Secrets Sites Staging StagingChanges Parts Databases DatabaseSql Pitr.
Open Scope N_scope.

Abbreviation dt w := (ht_databases (db_hosting (w_db w))).

(** ** Changes *)

(** [issue] says which statements may be handed to MySQL, [touch] the databases whose password
    may be set and [drop] those that may be deleted. *)
Inductive database_change (issue : string → Prop) (touch drop : Uuid → Prop) : relation DatabaseTables :=
| DcIssue sql done t : issue sql →
    database_change issue touch drop t (set_mysql (dt_mysql t ++ [(sql, done)])%list t)
| DcInsert d c t : existsb (database_is (database_id d)) (dt_databases t) = false →
    existsb (database_named (database_name d)) (dt_databases t) = false →
    database_change issue touch drop t (set_databases (dt_databases t ++ [database_row d c])%list t)
| DcPassword id c t : touch id →
    database_change issue touch drop t (set_databases (update_where (database_is id)
      (λ r, database_row_set (dbr_status r) c r) (dt_databases t)) t)
| DcDrop id t : drop id → database_change issue touch drop t (delete_database_rows id t).

(** The diagram of [PitrRestoreStatus]. *)
Inductive restore_edge : PitrRestoreStatus → PitrRestoreStatus → Prop :=
| EdgeStage : restore_edge RestorePending RestoreStaged
| EdgeBegin : restore_edge RestoreStaged RestorePromoting
| EdgeComplete : restore_edge RestorePromoting RestorePromoted
| EdgeFail st : st ≠ RestorePromoted → st ≠ RestoreFailed → restore_edge st RestoreFailed.

(** What the service writes over the row [r] of a restore. *)
Record restore_write (r : RestoreRow) (p : PitrRestore) (st : PitrRestoreStatus) : Prop := {
  write_id : rs_id r = restore_id p;
  write_ts : rs_request_ts r = restore_request_ts p;
  write_by : rs_requested_by r = restore_requested_by p;
  write_at : rs_requested_at r = restore_requested_at p;
  write_from : rs_status r = restore_status_str st;
  write_edge : restore_edge st (restore_status p);
  write_staged : st = RestorePending ∨ rs_staging_db_id r = restore_staging_db_id p;
  write_staging : restore_status p = RestoreStaged → restore_staging_db_id p ≠ None
}.

Inductive pitr_change `{Vault} : relation DatabaseTables :=
| PcStream s t : (∀ r, In r (dt_streams t) → bs_database_id r ≠ stream_database_id s) →
    pitr_change t (set_streams (dt_streams t ++ [stream_row s])%list t)
| PcStreamSet id seq st time t :
    pitr_change t (set_streams (update_where (stream_is id) (stream_row_set seq st time) (dt_streams t)) t)
| PcRestore p t : existsb (restore_is (restore_id p)) (dt_restores t) = false →
    restore_status p = RestorePending →
    pitr_change t (set_restores (dt_restores t ++ [restore_row p])%list t)
| PcRestoreSet r p st t : In r (dt_restores t) → restore_write r p st →
    pitr_change t (set_restores (update_where (restore_is (restore_id p)) (restore_row_set p) (dt_restores t)) t)
| PcIncremental i t : (0 ≤ inr_bytes (incremental_row i))%Z →
    pitr_change t (set_incrementals (dt_incrementals t ++ [incremental_row i])%list t)
| PcSegment database s t : pitr_change t (set_sink (sink_append database s (dt_sink t)).2 t).

(** ** The database service *)

Section database_moves.
Context `{Env} `{Vault} `{MysqlCli} (issue : string → Prop) (touch drop : Uuid → Prop).
Abbreviation W c := (within (moves (database_change issue touch drop)) c).

Lemma moves_mysql_call sql : issue sql → W (mysql_call sql).
Proof.
  intros Hs. unfold mysql_call. apply within_bind; [apply _|intros w; apply on_db_tick, _|].
  intros [|]; [|apply within_throw, _]. intros w. unfold mysql_run.
  destruct (mysql_cli _ _ _); try apply on_db_tick, _;
    unfold on_db, on_tables, part_changes, mysql_log; cbn; by apply rtc_once, DcIssue.
Qed.

Lemma moves_generate_password len : W (generate_password len).
Proof. intros w. apply on_db_tick, _. Qed.

Lemma moves_fetch_database q : W (fetch_database q).
Proof. unfold fetch_database. within_tac. Qed.

Lemma moves_get_database caller id : W (get_database caller id).
Proof. pose proof moves_fetch_database. unfold get_database, databases_find_by_id. within_tac. Qed.

Lemma moves_database_new id owner ou suffix charset by_ : W (database_new id owner ou suffix charset by_).
Proof. unfold database_new. within_tac. Qed.

Lemma moves_encrypt key s : W (encrypt_to_storage key s).
Proof. unfold encrypt_to_storage. within_tac. intros w. apply on_db_tick, _. Qed.

Lemma insert_database_ok d c x y :
  insert_database_row (database_row d c) x = Ok (tt, y) →
  existsb (database_is (database_id d)) (dt_databases (ht_databases (db_hosting x))) = false
  ∧ existsb (database_named (database_name d)) (dt_databases (ht_databases (db_hosting x))) = false
  ∧ existsb (id_is (database_owner_id d)) (db_users x) = true
  ∧ y = on_part (λ t, set_databases (dt_databases t ++ [database_row d c])%list t) x.
Proof.
  unfold insert_database_row. cbn [database_row dbr_id dbr_name dbr_owner_id].
  destruct (existsb (database_is _) _); [done|]. destruct (existsb (database_named _) _); [done|].
  destruct (existsb (id_is _) _); [|done]. by intros [= <-].
Qed.

Lemma moves_databases_insert d c : W (databases_insert d c).
Proof.
  apply on_db_statement; [apply _|]. intros x [] y (Hi & Hn & _ & ->)%insert_database_ok.
  unfold on_tables, part_changes. cbn. by apply rtc_once, DcInsert.
Qed.

Lemma moves_update_password id c : touch id → W (update_password_ciphertext id c).
Proof. intros Ht w. by apply moves_execute, rtc_once, DcPassword. Qed.
Lemma moves_databases_delete id : drop id → W (databases_delete id).
Proof. intros Ht w. by apply moves_execute, rtc_once, DcDrop. Qed.
End database_moves.

Lemma into_database_fields r d :
  into_database r = Ok d →
  database_owner_id d = dbr_owner_id r ∧ database_name d = dbr_name r
  ∧ database_db_user d = dbr_db_user r ∧ database_db_host d = dbr_db_host r.
Proof.
  unfold into_database. destruct (result_map_err _ _); [|done]. cbn.
  destruct (result_map_err _ _); [|done]. by intros [= <-].
Qed.

(** What a lookup finds, and that it changes nothing. *)
Lemma fetch_database_run `{Env} q w o w' :
  fetch_database q w = (Ok o, w') →
  w_db w' = w_db w ∧ transpose into_database (List.find q (dt_databases (dt w))) = Ok o.
Proof.
  unfold fetch_database. intros Hr. inv_bind Hr. apply select_run in R as [Hdb [-> _]].
  by apply lift_ok in Hr as [Hr ->].
Qed.
Definition may_view (caller : UserRec) (owner : Uuid) : Prop := u_role caller = User → owner = u_id caller.
Lemma get_database_run `{Env} caller id w db w' :
  get_database caller id w = (Ok db, w') →
  w_db w' = w_db w ∧ ∃ r, List.find (database_is id) (dt_databases (dt w)) = Some r
    ∧ into_database r = Ok db ∧ may_view caller (dbr_owner_id r).
Proof.
  unfold get_database. intros Hr. inv_bind Hr. apply map_err_ok, fetch_database_run in R as [Hdb R].
  inv_bind Hr. apply ok_or_ok in R0 as [-> ->]. inv_bind Hr. apply lift_ok in R0 as [R0 ->].
  injection Hr as <- <-. split; [done|]. destruct (List.find _ _) as [r|]; [|done]. cbn in R.
  destruct (into_database r) as [d|] eqn:E; [|done]. injection R as ->. exists r. split_and!; [done..|].
  intros Hu. unfold assert_can_view in R0. rewrite Hu in R0. apply into_database_fields in E as [<- _].
  by destruct (N.eqb_spec (database_owner_id a0) (u_id caller)).
Qed.

(** The statements an operation may hand to MySQL: their names, and what makes them readable. *)
Definition concerns (s : MysqlStatement) (name user host : string) : Prop :=
  match s with
  | CreateDatabase n _ | DropDatabase n => n = name
  | CreateUser u h _ | AlterUser u h _ | DropUser u h => u = user ∧ h = host
  | GrantAll n u h => n = name ∧ u = user ∧ h = host
  end.
Definition permitted (w : World) (op : DatabaseOp) (s : MysqlStatement) : Prop :=
  match op with
  | OpCreateDatabase caller owner ou suffix charset =>
      can_manage_databases (u_role caller) = true
      ∧ name_re_matches ou = true ∧ name_re_matches suffix = true
      ∧ let name := ou +:+ "_" +:+ suffix in concerns s name name "localhost"
  | OpDeleteDatabase caller id =>
      ∃ r, In r (dt_databases (dt w)) ∧ dbr_id r = id ∧ may_view caller (dbr_owner_id r)
        ∧ (s = DropDatabase (dbr_name r) ∨ s = DropUser (dbr_db_user r) (dbr_db_host r))
  | OpChangeDatabasePassword caller id =>
      ∃ r p, In r (dt_databases (dt w)) ∧ dbr_id r = id ∧ may_view caller (dbr_owner_id r)
        ∧ s = AlterUser (dbr_db_user r) (dbr_db_host r) p
  | OpRevealPassword _ _ => False
  end.
Definition charset_plain (op : DatabaseOp) : Prop :=
  match op with OpCreateDatabase _ _ _ _ charset => is_word (default "utf8mb4" charset) | _ => True end.
Definition issued (w : World) (op : DatabaseOp) (sql : string) : Prop :=
  ∃ s, sql = statement_sql s ∧ permitted w op s ∧ (charset_plain op → plain s).
Definition op_alters (op : DatabaseOp) : option Uuid :=
  match op with OpChangeDatabasePassword _ id => Some id | _ => None end.
Definition op_drops (op : DatabaseOp) : option Uuid :=
  match op with OpDeleteDatabase _ id => Some id | _ => None end.

Section run_database.
Context `{Env} `{Vault} `{MysqlCli} (key : list N).
Abbreviation D w op := (database_change (issued w op) (λ id, op_alters op = Some id) (λ id, op_drops op = Some id)).

Lemma password_char n : nth n PASSWORD_CHARS 0 < 123 ∧ nth n PASSWORD_CHARS 0 ≠ 92.
Proof.
  assert (Forall (λ b, b < 123 ∧ b ≠ 92) PASSWORD_CHARS) as Hall.
  { apply (bool_decide_unpack _). vm_compute. exact I. }
  destruct (nth_in_or_default n PASSWORD_CHARS 0) as [Hin|Heq]; [|by rewrite Heq].
  rewrite List.Forall_forall in Hall. by apply Hall.
Qed.
Lemma generated_bytes len w p w' :
  generate_password len w = (Ok p, w') → Forall (λ b, b < 123 ∧ b ≠ 92) (bytes p).
Proof.
  intros [= <- _]. rewrite bytes_of_bytes.
  - apply Forall_map, Forall_forall. intros i _. apply password_char.
  - apply Forall_map, Forall_forall. intros i _. pose proof (password_char (gen_range (w_step w) i)) as [Hb _].
    eapply N.lt_trans; [exact Hb|done].
Qed.
Lemma generated_plain len w p w' : generate_password len w = (Ok p, w') → ~ In 92 (bytes p).
Proof.
  intros Hg%generated_bytes Hin. rewrite List.Forall_forall in Hg. by destruct (Hg _ Hin) as [_ ?].
Qed.

Lemma database_new_run id owner ou suffix charset by_ w d w' :
  database_new id owner ou suffix charset by_ w = (Ok d, w') →
  name_re_matches suffix = true ∧ name_re_matches ou = true
  ∧ d = mkDatabase id owner (ou +:+ "_" +:+ suffix) (ou +:+ "_" +:+ suffix) "localhost" Mysql charset
          DatabaseActive (database_created_at d) by_
  ∧ w_db w' = w_db w.
Proof.
  unfold database_new. intros Hr. inv_bind Hr. apply lift_ok in R as [R ->]. unfold validate_name in R.
  destruct (name_re_matches suffix) eqn:Es; [|done]. inv_bind Hr.
  destruct (String.eqb charset ""); [done|]. injection R0 as _ <-. inv_bind Hr. apply lift_ok in R0 as [R0 ->].
  unfold validate_username in R0. destruct (name_re_matches ou) eqn:Eo; [|done]. injection R0 as <-.
  inv_bind Hr. injection R0 as <- <-. injection Hr as <- <-. done.
Qed.

Lemma create_database_moves caller owner ou suffix charset w :
  moves (D w (OpCreateDatabase caller owner ou suffix charset)) w
    (create_database key caller owner ou suffix charset w).2.
Proof.
  set (op := OpCreateDatabase caller owner ou suffix charset). unfold create_database.
  destruct (negb (can_manage_databases _)) eqn:Ec; [reflexivity|]. apply negb_false_iff in Ec.
  apply (bind_at (moves (D w op))); [apply on_db_tick, _|]. intros id w1 _.
  apply (bind_at (moves (D w op))); [apply moves_database_new|]. intros db w2 (Hs & Ho & -> & _)%database_new_run.
  apply (bind_at (moves (D w op))); [apply within_map_err, moves_fetch_database|]. intros [?|] w3 _; [reflexivity|].
  apply (bind_at (moves (D w op))); [apply moves_generate_password|]. intros p w4 Hp%generated_plain.
  assert (∀ s, (let name := ou +:+ "_" +:+ suffix in concerns s name name "localhost") →
     (charset_plain op → plain s) → issued w op (statement_sql s)) as Hi.
  { intros s Hc Hpl. exists s. split_and!; [done| |done]. by split_and!. }
  pose proof (Hi (CreateDatabase (ou +:+ "_" +:+ suffix) (default "utf8mb4" charset)) eq_refl (λ H, H)).
  pose proof (Hi (CreateUser _ _ p) (conj eq_refl eq_refl) (λ _, Hp)).
  pose proof (Hi (GrantAll _ _ _) (conj eq_refl (conj eq_refl eq_refl)) (λ _, I)).
  pose proof (Hi (DropUser _ _) (conj eq_refl eq_refl) (λ _, I)).
  pose proof (Hi (DropDatabase _) eq_refl (λ _, I)). cbn [statement_sql] in *.
  pose proof (λ s, moves_encrypt (issued w op) (λ id, op_alters op = Some id) (λ id, op_drops op = Some id) key s) as He.
  pose proof (λ d c, moves_databases_insert (issued w op) (λ id, op_alters op = Some id) (λ id, op_drops op = Some id) d c) as Hins.
  pose proof (λ sql, moves_mysql_call (issued w op) (λ id, op_alters op = Some id) (λ id, op_drops op = Some id) sql) as Hcall.
  match goal with |- moves _ w4 (?c w4).2 => enough (within (moves (D w op)) c) as Hc by apply Hc end.
  unfold mysql_create_database, mysql_create_user, mysql_grant_all, mysql_drop_user, mysql_drop_database.
  cbn [database_name database_db_user database_db_host database_charset].
  within_tac; eauto.
Qed.

(** The operation reads the row of a database it may see. *)
Lemma viewed_row caller id w db w1 :
  get_database caller id w = (Ok db, w1) →
  ∃ r, In r (dt_databases (dt w)) ∧ dbr_id r = id ∧ may_view caller (dbr_owner_id r)
    ∧ database_name db = dbr_name r ∧ database_db_user db = dbr_db_user r
    ∧ database_db_host db = dbr_db_host r.
Proof.
  intros (_ & r & Hf & Hd & Hv)%get_database_run. apply List.find_some in Hf as [Hin Hid%N.eqb_eq].
  apply into_database_fields in Hd as (_ & Hn & Hu & Hh). eauto 10.
Qed.

Lemma delete_database_moves caller id w :
  moves (D w (OpDeleteDatabase caller id)) w (delete_database caller id w).2.
Proof.
  set (op := OpDeleteDatabase caller id). unfold delete_database.
  apply (bind_at (moves (D w op))); [apply moves_get_database|]. intros db w1 (r & Hr & Hid & Hv & Hn & Hu & Hh)%viewed_row.
  assert (∀ s, s = DropDatabase (dbr_name r) ∨ s = DropUser (dbr_db_user r) (dbr_db_host r) →
     issued w op (statement_sql s)) as Hi.
  { intros s Hs. exists s. split_and!; [done|by exists r|by destruct Hs as [-> | ->]]. }
  pose proof (Hi _ (or_introl eq_refl)). pose proof (Hi _ (or_intror eq_refl)).
  unfold mysql_drop_user, mysql_drop_database. rewrite Hn, Hu, Hh. cbn [statement_sql] in *.
  pose proof (λ sql, moves_mysql_call (issued w op) (λ id, op_alters op = Some id) (λ id, op_drops op = Some id) sql) as Hcall.
  pose proof (moves_databases_delete (issued w op) (λ id, op_alters op = Some id) (λ id, op_drops op = Some id) id eq_refl) as Hdel.
  match goal with |- moves _ w1 (?c w1).2 => enough (within (moves (D w op)) c) as Hc by apply Hc end.
  within_tac; eauto.
Qed.

Lemma change_password_moves caller id w :
  moves (D w (OpChangeDatabasePassword caller id)) w (change_database_password key caller id w).2.
Proof.
  set (op := OpChangeDatabasePassword caller id). unfold change_database_password.
  apply (bind_at (moves (D w op))); [apply moves_get_database|]. intros db w1 (r & Hr & Hid & Hv & Hn & Hu & Hh)%viewed_row.
  apply (bind_at (moves (D w op))); [apply moves_generate_password|]. intros p w2 Hp%generated_plain.
  assert (issued w op (statement_sql (AlterUser (dbr_db_user r) (dbr_db_host r) p))) as Hi.
  { eexists. split_and!; [done| |done]. by exists r, p. }
  unfold mysql_change_password. rewrite Hu, Hh. cbn [statement_sql] in Hi.
  pose proof (λ sql, moves_mysql_call (issued w op) (λ id, op_alters op = Some id) (λ id, op_drops op = Some id) sql) as Hcall.
  pose proof (λ s, moves_encrypt (issued w op) (λ id, op_alters op = Some id) (λ id, op_drops op = Some id) key s) as He.
  pose proof (λ c, moves_update_password (issued w op) (λ id, op_alters op = Some id) (λ id, op_drops op = Some id) id c eq_refl) as Hset.
  match goal with |- moves _ w2 (?c w2).2 => enough (within (moves (D w op)) c) as Hc by apply Hc end.
  within_tac; eauto.
Qed.

Lemma run_database_moves op w : moves (D w op) w (run_database key op w).
Proof.
  destruct op as [caller owner ou suffix charset|caller id|caller id|caller id]; cbn [run_database].
  - apply create_database_moves.
  - apply delete_database_moves.
  - apply change_password_moves.
  - unfold reveal_password. pose proof (λ c i, moves_get_database (issued w (OpRevealPassword caller id))
      (λ i, op_alters (OpRevealPassword caller id) = Some i)
      (λ i, op_drops (OpRevealPassword caller id) = Some i) c i) as Hg.
    match goal with |- moves ?R _ (?c _).2 => enough (within (moves R) c) as Hc by apply Hc end.
    unfold password_ciphertext. within_tac.
Qed.
End run_database.

(** ** The recovery service *)

Lemma parse_restore_status_ok s st : parse_restore_status s = Ok st → s = restore_status_str st.
Proof.
  unfold parse_restore_status.
  repeat match goal with |- context [String.eqb s ?x] => destruct (String.eqb_spec s x) as [->|] end;
    by intros [= <-].
Qed.

Section run_pitr.
Context `{Env} `{Vault} `{PitrEnv}.
Abbreviation W c := (within (moves pitr_change) c).

Lemma into_restore_fields r p :
  into_restore r = Ok p →
  rs_id r = restore_id p ∧ rs_request_ts r = restore_request_ts p
  ∧ rs_requested_by r = restore_requested_by p ∧ rs_requested_at r = restore_requested_at p
  ∧ rs_status r = restore_status_str (restore_status p) ∧ rs_staging_db_id r = restore_staging_db_id p.
Proof.
  unfold into_restore. destruct (match rs_base_backup r with Some _ => _ | None => _ end) as [o|]; [|done].
  cbn. destruct (parse_restore_status (rs_status r)) as [st|] eqn:E; [|done]. intros [= <-].
  apply parse_restore_status_ok in E. done.
Qed.

Lemma require_restore_run id w p w' :
  require_restore id w = (Ok p, w') →
  w_db w' = w_db w ∧ ∃ r, In r (dt_restores (dt w)) ∧ into_restore r = Ok p ∧ restore_id p = id.
Proof.
  unfold require_restore. intros Hr. inv_bind Hr. apply ok_or_ok in Hr as [-> ->]. apply map_err_ok in R.
  unfold restores_find_by_id in R. inv_bind R. apply map_err_ok, select_run in R0 as [Hdb [-> _]].
  apply lift_ok in R as [R ->]. split; [done|]. destruct (List.find _ _) as [r|] eqn:E; [|done].
  apply List.find_some in E as [Hin Hid%N.eqb_eq]. cbn in R. destruct (into_restore r) as [q|] eqn:Eq; [|done].
  injection R as ->. exists r. split_and!; [done..|]. apply into_restore_fields in Eq as [<- _]. done.
Qed.

Lemma streams_none_run database w w' :
  streams_find_by_database database w = (Ok None, w') →
  w_db w' = w_db w ∧ ∀ r, In r (dt_streams (dt w)) → bs_database_id r ≠ database.
Proof.
  unfold streams_find_by_database. intros Hr. inv_bind Hr. apply map_err_ok, select_run in R as [Hdb [-> _]].
  apply lift_ok in Hr as [Hr ->]. split; [done|]. intros r Hin Hd.
  destruct (head _) as [x|] eqn:E in Hr; [cbn in Hr; by destruct (into_stream x)|].
  match type of E with head (merge_sort ?q ?l) = _ => pose proof (merge_sort_Permutation q l) as Hp end.
  destruct (merge_sort _ _); [|done]. apply Permutation_nil in Hp.
  assert (In r (select_where (λ r, bs_database_id r =? database) (dt_streams (dt w)))) as Hf
    by (apply filter_In; split; [done|by apply N.eqb_eq]).
  by rewrite Hp in Hf.
Qed.

Lemma moves_find_stream database : W (streams_find_by_database database).
Proof. unfold streams_find_by_database, pitr_db. within_tac. Qed.
Lemma moves_require_stream database : W (require_stream database).
Proof. pose proof moves_find_stream. unfold require_stream, pitr. within_tac. Qed.
Lemma moves_require_restore id : W (require_restore id).
Proof. unfold require_restore, pitr, restores_find_by_id, pitr_db. within_tac. Qed.
Lemma moves_load_database caller id : W (load_database caller id).
Proof.
  unfold load_database, database_lookup, databases_find_by_id, fetch_database. within_tac.
Qed.
Lemma moves_record_audit actor action target metadata outcome :
  W (record_audit actor action target metadata outcome).
Proof. unfold record_audit. within_tac. Qed.
Lemma moves_tailer f database : W (tailer_call f database).
Proof.
  intros w. unfold tailer_call. destruct (tailer_registered _); [|apply on_db_tick, _].
  unfold bind, attempt. cbn. destruct (f _ _); cbn; unfold on_db; cbn; reflexivity.
Qed.
Lemma moves_update_state id seq st : W (streams_update_state id seq st).
Proof.
  unfold streams_update_state, pitr_db. within_tac. intros w. apply moves_execute, rtc_once, PcStreamSet.
Qed.

Lemma moves_streams_insert s w :
  (∀ r, In r (dt_streams (dt w)) → bs_database_id r ≠ stream_database_id s) →
  moves pitr_change w (streams_insert s w).2.
Proof.
  intros Hn. unfold streams_insert, pitr_db. apply map_err_at, moves_statement. intros [] t.
  unfold insert_stream_row. destruct (existsb _ _); [done|]. destruct (negb _); [done|].
  destruct (existsb _ _); [|done]. intros [= <-]. by apply rtc_once, PcStream.
Qed.

(** The row that was inserted. *)
Lemma restores_insert_run p w a w' :
  restores_insert p w = (Ok a, w') → dt_restores (dt w') = (dt_restores (dt w) ++ [restore_row p])%list.
Proof.
  unfold restores_insert. intros [Hr _]%map_err_ok%part_statement_run. unfold insert_restore_row in Hr.
  destruct (existsb _ _) in Hr; [done|]. destruct (existsb _ _) in Hr; [|done]. injection Hr as _ Hr.
  cbn in Hr. by rewrite <- Hr.
Qed.
Lemma moves_restores_insert p : restore_status p = RestorePending → W (restores_insert p).
Proof.
  intros Hp w. unfold restores_insert, pitr_db. apply map_err_at, moves_statement. intros [] t.
  unfold insert_restore_row. destruct (existsb (restore_is _) _) eqn:E; [done|]. destruct (existsb (database_is _) _); [|done].
  intros [= <-]. by apply rtc_once, PcRestore.
Qed.
Lemma moves_restores_update r p st w :
  In r (dt_restores (dt w)) → restore_write r p st → moves pitr_change w (restores_update p w).2.
Proof. intros Hin Hw. unfold restores_update, pitr_db. apply map_err_at, moves_execute, rtc_once. by eapply PcRestoreSet. Qed.
Lemma restores_update_run r p w a w' :
  In r (dt_restores (dt w)) → rs_id r = restore_id p → restores_update p w = (Ok a, w') →
  In (restore_row_set p r) (dt_restores (dt w')).
Proof.
  intros Hin Hid [Hr _]%map_err_ok%on_part_run. cbn in Hr. rewrite Hr. apply update_where_In.
  exists r. split; [done|]. unfold restore_is. by rewrite Hid, N.eqb_refl.
Qed.

Lemma pitr_at {A} (c : M World PitrError A) w :
  moves pitr_change w (c w).2 → moves pitr_change w (pitr c w).2.
Proof. apply map_err_at. Qed.

(** What the transitions write over the row of the restore. *)
Lemma transition_write r p q st :
  rs_id r = restore_id p → rs_request_ts r = restore_request_ts p →
  rs_requested_by r = restore_requested_by p → rs_requested_at r = restore_requested_at p →
  rs_status r = restore_status_str st → rs_staging_db_id r = restore_staging_db_id p →
  restore_id q = restore_id p → restore_request_ts q = restore_request_ts p →
  restore_requested_by q = restore_requested_by p → restore_requested_at q = restore_requested_at p →
  restore_edge st (restore_status q) →
  (st = RestorePending ∧ restore_staging_db_id q ≠ None)
  ∨ (restore_staging_db_id q = restore_staging_db_id p ∧ restore_status q ≠ RestoreStaged) →
  restore_write r q st.
Proof.
  intros A1 A2 A3 A4 A5 A6 E1 E2 E3 E4 He Hs. split; try congruence.
  - destruct Hs as [[-> _]|[-> _]]; [by left|right; congruence].
  - destruct Hs as [[_ Hs]|[_ Hs]]; [done|]. intros Hst. done.
Qed.

Lemma promote_restore_moves caller id : W (promote_restore caller id).
Proof.
  unfold promote_restore. apply within_bind; [apply _|apply within_lift, _|]. intros _ w.
  apply (bind_at (moves pitr_change)); [apply moves_require_restore|].
  intros p w1 (Hdb & r & Hin & Hp & Hid)%require_restore_run. rewrite <- Hdb in Hin.
  pose proof (into_restore_fields _ _ Hp) as (E1 & E2 & E3 & E4 & E5 & E6).
  apply (bind_at (moves pitr_change)); [apply on_db_tick, _|]. intros t w2 [= <- <-].
  unfold begin_restore_promotion. case_bool_decide as Es; [|reflexivity]. cbn [negb]. unfold pitr_lift.
  cbn [result_map_err]. rewrite bind_lift_ok.
  set (p1 := restore_with _ _ RestorePromoting _ _ p). rewrite Es in E5.
  apply (bind_at (moves pitr_change)).
  { apply pitr_at, (moves_restores_update r p1 RestoreStaged); [done|].
    apply (transition_write r p p1); try done; [constructor|by right]. }
  intros [] w3 Hr%map_err_ok. apply (restores_update_run r p1) in Hr; [|done..].
  apply (bind_at (moves pitr_change)); [apply on_db_tick, _|]. intros t' w4 [= <- <-].
  unfold complete_restore_promotion. cbn [p1 restore_status restore_with]. case_bool_decide; [|done].
  cbn [negb result_map_err]. rewrite bind_lift_ok. set (p2 := restore_with _ _ RestorePromoted _ _ p1).
  apply (bind_at (moves pitr_change)).
  { apply pitr_at, (moves_restores_update (restore_row_set p1 r) p2 RestorePromoting); [done|].
    apply (transition_write _ p1 p2); try done; [constructor|by right]. }
  intros [] w5 _. pose proof moves_record_audit as Ha.
  match goal with |- moves _ w5 (?c w5).2 => enough (W c) as Hc by apply Hc end. within_tac.
Qed.

Lemma request_restore_moves caller database request : W (request_restore caller database request).
Proof.
  unfold request_restore. pose proof moves_load_database as Hl. pose proof moves_record_audit as Ha.
  apply within_bind; [apply _|apply within_lift, _|]. intros _.
  apply within_bind; [apply _|apply moves_load_database|]. intros _.
  apply within_bind; [apply _|unfold pitr, restore_timestamp_new; within_tac|]. intros ts.
  apply within_bind; [apply _|unfold inspect_range, pitr, sink_available_range; within_tac|]. intros rg.
  destruct (negb _); [apply within_throw, _|].
  apply within_bind; [apply _|unfold pitr, restores_list_by_database, pitr_db; within_tac|]. intros l.
  destruct (List.find _ l); [apply within_ret, _|].
  apply within_bind; [apply _|apply on_db_now, _|]. intros t.
  apply within_bind; [apply _|apply on_db_fresh_uuid, _|]. intros id.
  unfold pitr_lift at 1. apply within_bind_lift; [apply _|]. intros p Hp%result_map_err_ok.
  unfold restore_new in Hp. destruct (database =? 0); [done|]. destruct (is_blank _); [done|].
  injection Hp as <-. set (p := mkRestore _ _ _ _ _ _ _ _ _ _). intros w.
  apply (bind_at (moves pitr_change)); [by apply pitr_at, moves_restores_insert|].
  intros [] w1 Hi%map_err_ok%restores_insert_run.
  assert (In (restore_row p) (dt_restores (dt w1))) as Hin by (rewrite Hi; apply in_or_app; right; by left).
  clear Hi. apply (bind_at (moves pitr_change)); [destruct (rq_base_backup request); [reflexivity|apply on_db_tick, _]|].
  intros base w2 Hb. assert (w_db w2 = w_db w1) as Hdb by (destruct (rq_base_backup request); by injection Hb as _ <-).
  rewrite <- Hdb in Hin. apply (bind_at (moves pitr_change)); [apply on_db_tick, _|]. intros staging w3 [= <- <-].
  unfold mark_staged. cbn [p restore_status]. case_bool_decide; [|done]. cbn [negb].
  destruct (_ =? 0) eqn:E0; [reflexivity|]. unfold pitr_lift. cbn [result_map_err]. rewrite bind_lift_ok.
  set (q := restore_with _ _ RestoreStaged _ _ _). apply (bind_at (moves pitr_change)).
  { apply pitr_at, (moves_restores_update (restore_row p) q RestorePending); [done|].
    apply (transition_write (restore_row p) p q); try done; [constructor|by left]. }
  intros [] w4 _. pose proof promote_restore_moves.
  match goal with |- moves _ w4 (?c w4).2 => enough (W c) as Hc by apply Hc end. within_tac.
Qed.

Lemma fail_restore_moves id reason : W (fail_restore id reason).
Proof.
  unfold fail_restore. intros w. apply (bind_at (moves pitr_change)); [apply moves_require_restore|].
  intros p w1 (Hdb & r & Hin & Hp & Hid)%require_restore_run. rewrite <- Hdb in Hin.
  pose proof (into_restore_fields _ _ Hp) as (E1 & E2 & E3 & E4 & E5 & E6).
  apply (bind_at (moves pitr_change)); [apply on_db_tick, _|]. intros t w2 [= <- <-].
  unfold pitr_lift. destruct (restore_fail reason _ p) as [q|e] eqn:Ef; [|reflexivity].
  cbn [result_map_err]. rewrite bind_lift_ok. apply (bind_at (moves pitr_change)).
  - apply pitr_at, (moves_restores_update r q (restore_status p)); [done|]. unfold restore_fail in Ef.
    destruct (restore_status p) eqn:Es; try done; injection Ef as <-;
      (apply (transition_write r p); try done; [by constructor|by right]).
  - intros [] w3 _. apply moves_record_audit.
Qed.

Lemma run_pitr_moves op w : moves pitr_change w (run_pitr op w).
Proof.
  pose proof moves_load_database. pose proof moves_record_audit. pose proof moves_tailer.
  pose proof moves_update_state. pose proof moves_require_stream. pose proof moves_find_stream.
  assert (∀ A (c : M World RestoreRequestError A), W c → moves pitr_change w (c w).2) as Hrun by (intros A c Hc; apply Hc).
  destruct op; cbn [run_pitr].
  - apply Hrun. unfold enable_stream. do 3 (apply within_bind; [apply _|within_tac|]; intros _ || intros t).
    intros w0. apply (bind_at (moves pitr_change)); [by apply pitr_at, moves_find_stream|].
    intros [s|] w1 Hf%map_err_ok.
    + match goal with |- moves _ w1 (?c w1).2 => enough (W c) as Hc by apply Hc end. unfold pitr. within_tac.
    + apply streams_none_run in Hf as [Hdb Hn]. rewrite <- Hdb in Hn.
      apply (bind_at (moves pitr_change)); [apply on_db_tick, _|]. intros id w2 [= <- <-].
      unfold pitr_lift, stream_new. destruct (database =? 0); [reflexivity|]. cbn [result_map_err].
      rewrite bind_lift_ok. apply (bind_at (moves pitr_change)); [by apply pitr_at, moves_streams_insert|].
      intros [] w3 _. match goal with |- moves _ w3 (?c w3).2 => enough (W c) as Hc by apply Hc end. within_tac.
  - apply Hrun. unfold pause_stream, pitr. within_tac.
  - apply Hrun. unfold mark_stream_broken, pitr. within_tac.
  - apply Hrun. unfold resume_stream, pitr. within_tac.
  - apply Hrun, request_restore_moves.
  - apply Hrun, promote_restore_moves.
  - apply Hrun, fail_restore_moves.
  - apply Hrun. unfold capture_incremental, pitr, incrementals_insert, pitr_db. within_tac.
    intros w0. apply moves_statement. intros [] t0. unfold insert_incremental_row.
    destruct (existsb _ _); [done|]. destruct (_ <? 0)%Z eqn:E0; [done|]. destruct (existsb _ _); [|done].
    intros [= <-]. apply rtc_once, PcIncremental. by apply Z.ltb_ge.
  - apply moves_update_state.
  - unfold on_db, on_tables, part_changes, append_segment. cbn -[sink_append]. apply rtc_once, PcSegment.
Qed.
End run_pitr.
