(* ===== verification/DatabaseTheorems.v ===== *)
(** * Databases and point-in-time recovery: theorems

    What reaches MySQL and which password is revealed; then how restores move through their
    life and what the log says of itself. *)
From S2P Require Import Prelude Text Paths AuditActions AuditLog Accounts CronJobs HostingTables Store Users Secrets Sites Staging StagingChanges Parts Databases DatabaseSql Pitr DatabaseChanges.
Open Scope N_scope.

(** ** Statements *)

(** What the changes append to the statements handed to MySQL. *)
Lemma change_mysql issue touch drop t t' :
  rtc (database_change issue touch drop) t t' →
  ∃ l, dt_mysql t' = (dt_mysql t ++ l)%list ∧ ∀ sql done, In (sql, done) l → issue sql.
Proof.
  induction 1 as [t|t t1 t' Hc _ (l & Hl & Hi)]; [exists []; by rewrite app_nil_r|].
  destruct Hc as [sql done t Hs|d c t|id c t|id t]; cbn in Hl.
  - exists ((sql, done) :: l). rewrite Hl, <- app_assoc. split; [done|].
    intros sql' done' [[= <- <-]|Hin]; eauto.
  - by exists l.
  - by exists l.
  - exists l. rewrite Hl. unfold delete_database_rows. by destruct (existsb _ _).
Qed.

Section confined.
Context `{Env} `{Vault} `{MysqlCli}.

(** C6 (what reaches MySQL).  Whatever operation of the database service runs, from any state
    and with statements or the command failing anywhere, the texts it hands to the [mysql] command
    as administrator are each read by MySQL as exactly one of the six statements of the client,
    with names and passwords as given: creating concerns the database [owner_suffix] and its local
    account only, with both parts of the name valid and the caller allowed to manage databases;
    deleting drops, and changing a password alters, only what the row of the database says, and
    for a plain user only a database of their own; revealing a password hands over nothing.  The
    charset of a creation must be one word. *)
Theorem mysql_confined key op w :
  charset_plain op →
  ∃ l, dt_mysql (dt (run_database key op w)) = (dt_mysql (dt w) ++ l)%list
    ∧ ∀ sql done, In (sql, done) l →
        ∃ s, sql_tokens (bytes sql) = Some (statement_tokens s) ∧ permitted w op s.
Proof.
  intros Hp. pose proof (run_database_moves key op w) as Hm. apply change_mysql in Hm as (l & Hl & Hi).
  exists l. split; [done|]. intros sql done (s & -> & Hs & Hpl)%Hi. exists s. split; [|done].
  by apply statement_read, Hpl.
Qed.
End confined.

(** A charset can carry any other statement of the client: the text of a creation is then read
    as the creation followed by that statement. *)
Theorem charset_smuggles name s :
  plain s →
  sql_tokens (bytes (create_database_sql name ("utf8mb4;" +:+ statement_sql s)))
  = Some (statement_tokens (CreateDatabase name "utf8mb4") ++ statement_tokens s ++ [TPunct 59])%list.
Proof.
  intros Hp. pose proof (statement_read s Hp) as Hs. unfold sql_tokens in *.
  destruct (lex Between (bytes (statement_sql s))) as [st ts] eqn:El.
  assert (st = Between ∧ ts = statement_tokens s) as [-> ->].
  { clear -El Hp. revert El. destruct s; cbn in Hp; cbn [statement_sql statement_tokens];
      unfold create_database_sql, create_user_sql, grant_all_sql, change_password_sql, drop_database_sql,
        drop_user_sql; rewrite !bytes_app; lex_run; by intros [= <- <-]. }
  unfold create_database_sql. rewrite !bytes_app. repeat (first [rewrite lex_app | rewrite lex_ident | rewrite El | lex_literal]; cbn beta iota).
  cbn [lex_end fmap option_fmap option_map]. f_equal. rewrite app_nil_r.
  change (statement_tokens (CreateDatabase name "utf8mb4")) with
    ([word "CREATE"; word "DATABASE"; ident name; word "CHARACTER"; word "SET"; word "utf8mb4"; TPunct 59]).
  reflexivity.
Qed.

(** ** Passwords *)

(** The operations of both services, those on databases restricted by [P]. *)
Inductive recovery_step `{Env} `{Vault} `{MysqlCli} `{PitrEnv} (key : list N) (P : DatabaseOp → Prop)
    : World → World → Prop :=
| StepDatabase op w : P op → recovery_step key P w (run_database key op w)
| StepPitr op w : recovery_step key P w (run_pitr op w).

(** The stored row of [id] holds the password [p]. *)
Definition holds_password `{Vault} (key : list N) (id : Uuid) (p : string) (t : DatabaseTables) : Prop :=
  ∃ r d, List.find (database_is id) (dt_databases t) = Some r ∧ into_database r = Ok d
    ∧ decrypt_from_storage key (dbr_password_ciphertext r) = Ok p.

Section passwords.
Context `{Env} `{VaultLaws} `{MysqlCli} `{PitrEnv} (key : list N).

Lemma change_holds issue touch drop id p t t' :
  database_change issue touch drop t t' → ~ touch id → ~ drop id → holds_password key id p t → holds_password key id p t'.
Proof.
  assert (∀ id', id' ≠ id → ∀ r, database_is id' r = true → database_is id r = false) as Hne.
  { intros id' Hid r Hr%N.eqb_eq. apply N.eqb_neq. congruence. }
  intros Hc Hn Hn' (r & d & Hr & Hd & Hp). exists r, d. split; [|done]. destruct Hc as [sql done t|d' c t|id' c t Ht|id' t Ht].
  - done.
  - by apply find_snoc.
  - cbn. rewrite find_update_other; [done|]. intros x Hx. assert (id' ≠ id) as Hid by by intros ->.
    split; by apply (Hne id').
  - assert (id' ≠ id) as Hid by by intros ->. unfold delete_database_rows. destruct (existsb _ _); [|done].
    cbn. rewrite find_delete_other; [done|]. by apply Hne.
Qed.
Lemma pitr_change_databases t t' : pitr_change t t' → dt_databases t' = dt_databases t ∧ dt_mysql t' = dt_mysql t.
Proof. by intros []. Qed.

Lemma step_holds P id p w w' :
  (∀ op, P op → op_alters op ≠ Some id ∧ op_drops op ≠ Some id) →
  recovery_step key P w w' → holds_password key id p (dt w) → holds_password key id p (dt w').
Proof.
  intros HP [op w0 Hop|op w0].
  - apply (moves_keeps (T:=DatabaseTables) _ (holds_password key id p) w0 _) with (2 := run_database_moves key op w0).
    intros t t' Hc. by apply (change_holds _ _ _ _ _ _ _ Hc); apply HP.
  - apply (moves_keeps (T:=DatabaseTables) _ (holds_password key id p) w0 _) with (2 := run_pitr_moves op w0).
    intros t t' [Hd _]%pitr_change_databases. unfold holds_password. by rewrite Hd.
Qed.

(** An encrypted generated password opens. *)
Lemma generated_opens len w p w1 w2 c w3 :
  generate_password len w = (Ok p, w1) → encrypt_to_storage key p w2 = (Ok c, w3) →
  decrypt_from_storage key c = Ok p.
Proof.
  intros Hg%generated_bytes He. eapply (envelope_roundtrip key p); [|exact He].
  apply valid_utf8_ascii. eapply Forall_impl; [exact Hg|]. intros b [Hb _]. lia.
Qed.

Lemma audit_dt {E} actor action outcome build w a w' :
  audit (E:=E) actor action outcome build w = (Ok a, w') → dt w' = dt w.
Proof.
  intros Ha. pose proof (on_db_audit (on_tables (same (λ h, h))) (E:=E) actor action outcome build w) as Hs.
  rewrite Ha in Hs. unfold on_db, on_tables, same in Hs. cbn in Hs. by rewrite Hs.
Qed.

Lemma into_database_row d c : into_database (database_row d c) = Ok d.
Proof. by destruct d as [? ? ? ? ? [] ? [] ? ?]. Qed.

Lemma create_holds caller owner ou suffix charset w d p w' :
  create_database key caller owner ou suffix charset w = (Ok (d, p), w') →
  holds_password key (database_id d) p (dt w').
Proof.
  unfold create_database. destruct (negb _); [done|]. intros Hr. inv_bind Hr. inv_bind Hr. inv_bind Hr.
  destruct a1 as [?|]; [done|]. inv_bind Hr. inv_bind Hr. inv_bind Hr. inv_bind Hr. inv_bind Hr. inv_bind Hr.
  unfold try_run in R7. destruct (databases_insert a0 a5 w7) as [[[]|e] w9] eqn:Ei; injection R7 as <- <-;
    [|by inv_bind Hr; inv_bind Hr].
  inv_bind Hr. injection Hr as <- <- <-. apply audit_dt in R7. rewrite R7.
  unfold databases_insert, statement in Ei. destruct (sql_fault _); [done|].
  destruct (insert_database_row _ _) as [[[] y]|] eqn:Er; [|done]. injection Ei as <-.
  apply insert_database_ok in Er as (Hid & _ & _ & ->). exists (database_row a0 a5), a0.
  split_and!; [|apply into_database_row|].
  - cbn. apply find_last; [done|]. apply N.eqb_refl.
  - cbn. eapply generated_opens; [exact R2|]. by eapply map_err_ok.
Qed.

Lemma change_password_holds caller id w p w' :
  change_database_password key caller id w = (Ok p, w') → holds_password key id p (dt w').
Proof.
  unfold change_database_password. intros Hr. inv_bind Hr. apply get_database_run in R as (Hdb & r & Hf & Hd & _).
  inv_bind Hr. inv_bind Hr. inv_bind Hr. inv_bind Hr. inv_bind Hr. injection Hr as <- <-.
  apply audit_dt in R3. rewrite R3. apply map_err_ok, on_part_run in R2 as [Hset _]. cbn in Hset. rewrite Hset.
  assert (dt_databases (dt w3) = dt_databases (dt w)) as Hsame.
  { rewrite <- Hdb. transitivity (dt_databases (dt w2)).
    - apply map_err_ok in R1. unfold encrypt_to_storage in R1. inv_bind R1. injection R2 as _ <-.
      inv_bind R1. apply lift_ok in R2 as [_ ->]. by injection R1 as _ <-.
    - injection R as _ <-. unfold mysql_change_password, mysql_call in R0. inv_bind R0. injection R as <- <-.
      destruct (mysql_exists _); [|done]. unfold mysql_run in R0. destruct (mysql_cli _ _ _); try done.
      by injection R0 as _ <-. }
  exists (database_row_set (dbr_status r) a2 r), a. cbn [set_databases dt_databases]. rewrite Hsame. split_and!.
  - by rewrite (find_update_same _ _ _ r).
  - done.
  - cbn. eapply generated_opens; [exact R|]. by eapply map_err_ok.
Qed.

(** C20 (the revealed password).  When a password was returned by the creation of a database or
    by a change of its password, and statements are executed, then after any operations of the
    database and recovery services other than deleting that database or changing its password
    again, whatever their outcome, revealing the password to someone who may see the database
    as the code has it, that is its owner or any admin or owner of the panel, returns that
    password: it survives the encryption, the storage and the decryption. *)
Theorem password_revealed id p w w' w'' viewer :
  (∀ k, sql_fault k = None) →
  (∃ caller owner ou suffix charset d,
      create_database key caller owner ou suffix charset w = (Ok (d, p), w') ∧ database_id d = id)
  ∨ (∃ caller, change_database_password key caller id w = (Ok p, w')) →
  rtc (recovery_step key (λ op, op_alters op ≠ Some id ∧ op_drops op ≠ Some id)) w' w'' →
  (∀ r, In r (dt_databases (dt w'')) → dbr_id r = id → may_view viewer (dbr_owner_id r)) →
  ∃ w3, reveal_password key viewer id w'' = (Ok p, w3).
Proof.
  intros Hnf Hset Hsteps Hv. assert (holds_password key id p (dt w')) as Hh.
  { destruct Hset as [(c & o & ou & s & ch & d & Hc & <-)|(c & Hc)];
      [by eapply create_holds | by eapply change_password_holds]. }
  assert (holds_password key id p (dt w'')) as (r & d & Hr & Hd & Hp).
  { clear Hv Hset. induction Hsteps as [w0|w0 w1 w2 Hs _ IH]; [done|]. apply IH. by apply (step_holds _ id p _ _ (λ op H, H) Hs). }
  destruct (List.find_some _ _ Hr) as [Hin Hid%N.eqb_eq]. specialize (Hv r Hin Hid).
  unfold reveal_password. erewrite (bind_run (get_database viewer id)).
  2:{ unfold get_database, databases_find_by_id, fetch_database.
      erewrite bind_run; [|apply map_err_run; erewrite bind_run; [|apply (select_no_fault Hnf)]; rewrite Hr; cbn; by rewrite Hd].
      cbn [ok_or]. erewrite bind_run by done. erewrite bind_run; [done|]. unfold assert_can_view.
      apply into_database_fields in Hd as [-> _]. destruct (u_role viewer) eqn:Er; [done..|].
      rewrite (Hv Er), N.eqb_refl. done. }
  erewrite bind_run; [|apply map_err_run, (select_no_fault Hnf)]. cbn [tick w_db]. rewrite Hr. cbn [fmap option_fmap option_map ok_or].
  erewrite bind_run by done. rewrite Hp. cbn [result_map_err]. rewrite bind_lift_ok.
  edestruct (audit_ok (on_tables (same (λ h, h))) (E:=DatabaseError)) as (w4 & Ha & _).
  rewrite (bind_run _ _ _ _ _ Ha). by exists w4.
Qed.
End passwords.

(** * Point-in-time recovery: theorems

    How restores move through their life, what the sink says of the log it holds, and what a
    request for a restore answers. *)

(** ** Restores *)

(** Unique keys, known statuses, and a staging database from staging on. *)
Definition needs_staging (st : PitrRestoreStatus) : bool :=
  match st with RestoreStaged | RestorePromoting | RestorePromoted => true | _ => false end.
Definition restore_row_ok (r : RestoreRow) : Prop :=
  ∃ st, rs_status r = restore_status_str st ∧ (needs_staging st = true → rs_staging_db_id r ≠ None).
Definition restores_wf (t : DatabaseTables) : Prop :=
  NoDup (map rs_id (dt_restores t)) ∧ ∀ r, In r (dt_restores t) → restore_row_ok r.

(** How a row may look later: as it was, or further along the diagram, for the same request. *)
Definition restore_evolves (r r' : RestoreRow) : Prop :=
  r' = r
  ∨ (rs_id r' = rs_id r ∧ rs_database_id r' = rs_database_id r ∧ rs_request_ts r' = rs_request_ts r
     ∧ rs_requested_by r' = rs_requested_by r ∧ rs_requested_at r' = rs_requested_at r
     ∧ ∃ st st', rs_status r = restore_status_str st ∧ rs_status r' = restore_status_str st'
         ∧ tc restore_edge st st').

Lemma restore_status_str_inj : Inj (=) (=) restore_status_str.
Proof. by intros [] []. Qed.

#[export] Instance restore_evolves_trans : Transitive restore_evolves.
Proof.
  intros r1 r2 r3 [->|(A1 & A2 & A3 & A4 & A5 & s1 & s2 & B1 & B2 & Ht)] Hr; [done|].
  destruct Hr as [->|(C1 & C2 & C3 & C4 & C5 & s2' & s3 & D1 & D2 & Ht')].
  - right. split_and!; eauto 10.
  - right. rewrite B2 in D1. apply restore_status_str_inj in D1 as <-. split_and!; [congruence..|].
    exists s1, s3. split_and!; [done..|]. by eapply tc_transitive.
Qed.

(** No change of a row can be written over a promoted or failed restore. *)
Lemma final_frozen st st' : st = RestorePromoted ∨ st = RestoreFailed → ~ tc restore_edge st st'.
Proof.
  intros Hf Ht. assert (∃ x, restore_edge st x) as (x & Hx) by (destruct Ht; eauto).
  destruct Hf as [-> | ->]; by inversion Hx.
Qed.

Section lifecycle.
Context `{Env} `{Vault} `{MysqlCli} `{PitrEnv} (key : list N).

Lemma write_evolves r p st :
  restore_write r p st → restore_row_ok r →
  restore_row_ok (restore_row_set p r) ∧ restore_evolves r (restore_row_set p r).
Proof.
  intros [W1 W2 W3 W4 W5 W6 W7 W8] (st0 & E0 & Hs). rewrite W5 in E0. apply restore_status_str_inj in E0 as <-.
  split.
  - exists (restore_status p). split; [done|]. cbn. destruct W6; cbn; try done.
    + intros _. by apply W8.
    + intros _. destruct W7 as [?|<-]; [done|]. by apply Hs.
    + intros _. destruct W7 as [?|<-]; [done|]. by apply Hs.
  - right. split_and!; [done..|by cbn|]. exists st, (restore_status p). split_and!; [done..|]. by apply tc_once.
Qed.

Lemma pitr_change_restores t t' :
  pitr_change t t' → restores_wf t →
  restores_wf t' ∧ ∀ r, In r (dt_restores t) → ∃ r', In r' (dt_restores t') ∧ restore_evolves r r'.
Proof.
  assert (∀ l, (∀ r, In r (dt_restores t) → In r l) →
    ∀ r, In r (dt_restores t) → ∃ r', In r' l ∧ restore_evolves r r') as Hkeep.
  { intros l Hl r Hr. exists r. split; [auto|by left]. }
  intros Hc [Hn Hok]. destruct Hc as [s t|id seq st time t|p t Hid Hp|r p st t Hin Hw|i t|db s t];
    try (split; [by split|by apply Hkeep]).
  - split; [|apply Hkeep; intros r Hr; apply in_or_app; by left]. split; cbn.
    + apply NoDup_snoc; [done|]. intros (x & Hx & Hin)%in_map_iff.
      pose proof (proj1 (existsb_false _ _) Hid x Hin) as Hf. unfold restore_is in Hf. by rewrite Hx, N.eqb_refl in Hf.
    + intros r [Hr|[<-|[]]]%in_app_or; [by apply Hok|]. exists RestorePending. cbn. by rewrite Hp.
  - assert (∀ x, In x (dt_restores t) → restore_is (restore_id p) x = true → x = r) as Hone.
    { intros x Hx Hi%N.eqb_eq. apply (NoDup_key_inj rs_id (dt_restores t)); try done. by rewrite (write_id _ _ _ Hw). }
    destruct (write_evolves r p st Hw (Hok r Hin)) as [Hok' Hev]. split.
    + split; cbn; [by rewrite update_where_key|]. intros x (y & Hy & ->)%update_where_In.
      destruct (restore_is _ y) eqn:Ei; [|by apply Hok]. by rewrite (Hone y Hy Ei).
    + intros x Hx. exists (if restore_is (restore_id p) x then restore_row_set p x else x). split.
      * apply update_where_In. eauto.
      * destruct (restore_is _ x) eqn:Ei; [|by left]. by rewrite (Hone x Hx Ei).
Qed.

(** The operations on databases keep the restores of every database they do not delete. *)
Lemma database_change_restores issue touch drop t t' :
  database_change issue touch drop t t' → restores_wf t →
  restores_wf t' ∧ ∀ r, In r (dt_restores t) → ~ drop (rs_database_id r) → In r (dt_restores t').
Proof.
  intros Hc [Hn Hok]. destruct Hc as [sql done t|d c t|id c t|id t Hd]; try (split; [by split|auto]).
  unfold delete_database_rows. destruct (existsb _ _); [|split; [by split|auto]]. cbn. split.
  - split; cbn; [by apply delete_where_NoDup|]. intros r [Hr _]%delete_where_In. by apply Hok.
  - intros r Hr Hnd. apply delete_where_In. split; [done|]. apply N.eqb_neq. intros Heq. by rewrite Heq in Hnd.
Qed.

Lemma step_restores db w w' :
  recovery_step key (λ op, op_drops op ≠ Some db) w w' → restores_wf (dt w) →
  restores_wf (dt w') ∧ ∀ r, In r (dt_restores (dt w)) → rs_database_id r = db →
    ∃ r', In r' (dt_restores (dt w')) ∧ restore_evolves r r'.
Proof.
  intros [op w0 Hop|op w0] HW.
  - pose proof (run_database_moves key op w0) as Hm. unfold on_db, on_tables, part_changes in Hm. cbn [part database_part] in Hm.
    assert (restores_wf (dt (run_database key op w0)) ∧ ∀ r, In r (dt_restores (dt w0)) → rs_database_id r = db →
      In r (dt_restores (dt (run_database key op w0)))) as [HW' Hk]; [|split; [done|]; intros r Hr Hd; exists r; split; [auto|by left]].
    induction Hm as [t|t t1 t2 Hc _ IH]; [done|]. apply database_change_restores in Hc as [HW1 Hk1]; [|done].
    apply IH in HW1 as [HW2 Hk2]. split; [done|]. intros r Hr Hd. apply Hk2; [|done]. apply Hk1; [done|]. by rewrite Hd.
  - pose proof (run_pitr_moves op w0) as Hm. unfold on_db, on_tables, part_changes in Hm. cbn [part database_part] in Hm.
    assert (restores_wf (dt (run_pitr op w0)) ∧ ∀ r, In r (dt_restores (dt w0)) →
      ∃ r', In r' (dt_restores (dt (run_pitr op w0))) ∧ restore_evolves r r') as [HW' Hk]; [|split; auto].
    induction Hm as [t|t t1 t2 Hc _ IH]; [split; [done|]; intros r Hr; exists r; split; [done|by left]|].
    apply pitr_change_restores in Hc as [HW1 Hk1]; [|done]. apply IH in HW1 as [HW2 Hk2]. split; [done|].
    intros r Hr. apply Hk1 in Hr as (r1 & Hr1 & He1). apply Hk2 in Hr1 as (r2 & Hr2 & He2).
    exists r2. split; [done|]. by etransitivity.
Qed.

(** C19 (the life of a restore).  Along any sequence of operations of the database and recovery
    services, by whomever, whatever their outcome and wherever a statement fails, that does not
    delete the database of a restore, the restore is kept with the request it was made for, and
    its status follows the diagram pending, staged, promoting, promoted, with failure possible
    until it is promoted; a promoted or failed restore is never changed again.  Keys stay unique,
    every status stays readable, and a staged, promoting or promoted restore has a staging
    database. *)
Theorem restore_lifecycle r w w' :
  restores_wf (dt w) → In r (dt_restores (dt w)) →
  rtc (recovery_step key (λ op, op_drops op ≠ Some (rs_database_id r))) w w' →
  restores_wf (dt w')
  ∧ ∃ r', In r' (dt_restores (dt w')) ∧ restore_evolves r r'
      ∧ (rs_status r = "promoted" ∨ rs_status r = "failed" → r' = r).
Proof.
  intros HW Hr Hsteps.
  assert (restores_wf (dt w') ∧ ∃ r', In r' (dt_restores (dt w')) ∧ restore_evolves r r') as [HW' (r' & Hr' & Hev)].
  { remember (rs_database_id r) as db eqn:Edb. symmetry in Edb. revert r Hr Edb.
    induction Hsteps as [w|w w1 w2 Hs _ IH]; intros r Hr Edb; [split; [done|]; exists r; split; [done|by left]|].
    apply step_restores in Hs as [HW1 Hk]; [|done]. destruct (Hk r Hr Edb) as (r1 & Hr1 & He1).
    assert (rs_database_id r1 = db) as Edb1 by (destruct He1 as [->|(_ & Hd & _)]; [done|by rewrite Hd]).
    destruct (IH HW1 r1 Hr1 Edb1) as [HW2 (r2 & Hr2 & He2)]. split; [done|]. exists r2. split; [done|]. by etransitivity. }
  split; [done|]. exists r'. split_and!; [done..|]. intros Hf.
  destruct Hev as [->|(_ & _ & _ & _ & _ & st & st' & E1 & _ & Ht)]; [done|]. destruct (final_frozen st st'); [|done].
  destruct Hf as [Hf|Hf]; rewrite Hf in E1; [left|right]; symmetry; by apply restore_status_str_inj.
Qed.
End lifecycle.

(** ** The log in the sink *)

(** The sink after a history of appended segments. *)
Definition sink_of `{Vault} (l : list (Uuid * BinlogSegment)) : SinkState :=
  fold_left (λ k e, (sink_append e.1 e.2 k).2) l no_sink.
Definition segments_of (database : Uuid) (l : list (Uuid * BinlogSegment)) : list BinlogSegment :=
  map snd (List.filter (λ e, e.1 =? database) l).
(** Where the first segment starts, where the last ends, the earliest and the latest instant. *)
Definition log_summary (segs : list BinlogSegment) : option (LogSeq * LogSeq * DateTime * DateTime) :=
  match segs with
  | [] => None
  | s :: rest =>
      Some (sg_from s, sg_to (List.last rest s),
            foldr Z.min (sg_generated_at s) (map sg_generated_at rest),
            foldr Z.max (sg_generated_at s) (map sg_generated_at rest))
  end.

Section sink.
Context `{Env} `{Vault}.

Lemma fold_min_snoc z l x : foldr Z.min z (l ++ [x])%list = Z.min x (foldr Z.min z l).
Proof. induction l as [|y l IH]; cbn; [done|]. rewrite IH. lia. Qed.
Lemma fold_max_snoc z l x : foldr Z.max z (l ++ [x])%list = Z.max x (foldr Z.max z l).
Proof. induction l as [|y l IH]; cbn; [done|]. rewrite IH. lia. Qed.

Lemma sink_of_range l database : sk_ranges (sink_of l) !! database = log_summary (segments_of database l).
Proof.
  induction l as [|[d s] l IH] using rev_ind; [done|]. unfold sink_of, segments_of in *.
  rewrite fold_left_app, List.filter_app, map_app. cbn [fold_left List.filter fst snd].
  set (k := fold_left _ l no_sink) in *. unfold sink_append. destruct (N.eqb_spec d database) as [->|Hne].
  - rewrite IH. destruct (map snd (List.filter _ l)) as [|s0 rest]; cbn.
    + rewrite lookup_insert. case_decide; [|done]. by rewrite !Z.ltb_irrefl.
    + rewrite lookup_insert. case_decide; [|done]. rewrite map_app, last_last. cbn. rewrite fold_min_snoc, fold_max_snoc.
      do 2 f_equal; [f_equal|]; destruct (Z.ltb_spec (sg_generated_at s) (foldr Z.min (sg_generated_at s0) (map sg_generated_at rest)));
        destruct (Z.ltb_spec (foldr Z.max (sg_generated_at s0) (map sg_generated_at rest)) (sg_generated_at s)); lia.
  - cbn [map]. rewrite app_nil_r, <- IH. destruct (default _ _) as [[[e la] st] en]. cbn.
    by rewrite lookup_insert_ne.
Qed.

Lemma fold_min_spec z l t : (foldr Z.min z l ≤ t ↔ z ≤ t ∨ ∃ x, In x l ∧ x ≤ t)%Z.
Proof. induction l as [|y l IH]; cbn; [naive_solver|]. rewrite Z.min_le_iff, IH. naive_solver. Qed.
Lemma fold_max_spec z l t : (t ≤ foldr Z.max z l ↔ t ≤ z ∨ ∃ x, In x l ∧ t ≤ x)%Z.
Proof. induction l as [|y l IH]; cbn; [naive_solver|]. rewrite Z.max_le_iff, IH. naive_solver. Qed.

(** C30 (the available range).  After any history of appended segments, the range the sink reports
    for a database is always well formed, and it covers an instant exactly when the history of
    that database has a segment generated at or before the instant and one generated at or after
    it, and the log is not one that starts and ends at the initial position, which the code
    takes for an empty one; a database without segments is covered nowhere. *)
Theorem available_range_exact l database ts w :
  dt_sink (dt w) = sink_of l →
  ∃ rg w', sink_available_range database w = (Ok rg, w') ∧ (rg_start rg ≤ rg_end rg)%Z
    ∧ (range_covers rg ts = true ↔
        (∃ s, In s (segments_of database l) ∧ sg_generated_at s ≤ ts)%Z
        ∧ (∃ s, In s (segments_of database l) ∧ ts ≤ sg_generated_at s)%Z
        ∧ (sg_from <$> head (segments_of database l), sg_to <$> last (segments_of database l))
          ≠ (Some log_initial, Some log_initial)).
Proof.
  intros Hk. unfold sink_available_range, bind at 1, gets. cbn [part database_part]. rewrite Hk, sink_of_range.
  destruct (segments_of database l) as [|s rest]; cbn [log_summary].
  - unfold bind, lift, now. cbn. unfold range_new. rewrite Z.ltb_irrefl. do 2 eexists. split_and!; [done|cbn; lia|].
    cbn. split; [|intros [(s & [] & _) _]]. done.
  - set (lo := foldr Z.min _ _). set (hi := foldr Z.max _ _).
    assert (lo ≤ sg_generated_at s)%Z by (apply fold_min_spec; by left).
    assert (sg_generated_at s ≤ hi)%Z by (apply fold_max_spec; by left).
    unfold range_new. destruct (Z.ltb_spec hi lo); [lia|]. do 2 eexists. split_and!; [done|done|].
    unfold range_covers. cbn. rewrite !andb_true_iff, !Z.leb_le. unfold lo, hi. rewrite fold_min_spec, fold_max_spec.
    assert (∀ (Q : DateTime → Prop), (Q (sg_generated_at s) ∨ ∃ x, In x (map sg_generated_at rest) ∧ Q x)
      ↔ ∃ s', (s = s' ∨ In s' rest) ∧ Q (sg_generated_at s')) as HQ.
    { intros Q. split; [intros [?|(x & (y & <- & Hy)%in_map_iff & ?)]; eauto|].
      intros (y & [->|Hy] & ?); [by left|]. right. exists (sg_generated_at y). split; [by apply in_map|done]. }
    rewrite (HQ (λ x, x ≤ ts)%Z), (HQ (λ x, ts ≤ x)%Z).
    assert (last (s :: rest) = Some (List.last rest s)) as Hlast.
    { clear. induction rest as [|y rest IH] using rev_ind; [done|]. rewrite app_comm_cons, last_snoc. by rewrite last_last. }
    rewrite Hlast. cbn. rewrite negb_true_iff, andb_false_iff, !bool_decide_eq_false.
    split; [intros [[Hne ?] ?] | intros (? & ? & Hne)]; split_and!; try done.
    + intros [= E1 E2]. destruct Hne as [Hne|Hne]; congruence.
    + destruct (decide (sg_from s = log_initial)) as [E1|]; [|by right]. left. intros E2. apply Hne. congruence.
Qed.
End sink.

(** ** Requests *)

Lemma collect_find {A B E} (f : A → result B E) l bs (P : B → bool) q :
  collect f l = Ok bs → (∃ r, In r l ∧ f r = Ok q) → P q = true →
  (∀ r b, In r l → f r = Ok b → P b = true → b = q) → List.find P bs = Some q.
Proof.
  intros Hc (r & Hr & Hq) HP Hu. destruct (List.find P bs) as [b|] eqn:Ef.
  - apply List.find_some in Ef as [Hb HPb]. destruct (collect_In _ _ _ _ Hc Hb) as (a & Ha & Hab).
    f_equal. by eapply Hu.
  - exfalso. apply collect_Forall2 in Hc. apply list_elem_of_In, list_elem_of_lookup in Hr as (i & Hi).
    destruct (Forall2_lookup_l _ _ _ _ _ Hc Hi) as (b & Hb & Hab). rewrite Hq in Hab. injection Hab as <-.
    apply list_elem_of_lookup_2, list_elem_of_In in Hb. eapply List.find_none in Ef; [|done]. congruence.
Qed.

Section requests.
Context `{Env} `{Vault} {laws : VaultLaws} `{PitrEnv}.
Hypothesis no_faults : ∀ k, sql_fault k = None.

(** A position that [LogSeq::from_bytes] accepts is read back from its text. *)
Definition readable (s : LogSeq) : Prop := Forall is_byte s ∧ (length s ≤ 64)%nat.
Lemma trim_0x_hex s : trim_0x (bytes (hex_encode s)) = bytes (hex_encode s).
Proof.
  pose proof (hex_digits s) as Hd. destruct (bytes (hex_encode s)) as [|a [|b l]]; [done|by destruct a as [|[]]; repeat (destruct p; try done)|].
  apply Forall_cons in Hd as [_ [Hb _]%Forall_cons]. unfold trim_0x.
  destruct (decide (a = 48)) as [->|Ha]; [destruct (decide (b = 120)) as [->|Hb']; [done|]|].
  all: repeat (match goal with |- context [match ?x with _ => _ end] => is_var x; destruct x; try done end).
Qed.
Lemma log_hex_roundtrip s : readable s → log_from_hex (log_to_hex s) = Ok s.
Proof.
  intros [Hb Hl]. unfold log_from_hex, log_to_hex. rewrite trim_0x_hex, of_bytes_bytes, hex_roundtrip by done.
  cbn. unfold log_from_bytes. destruct (Nat.ltb_spec 64 (length s)); [lia|done].
Qed.

(** The rows of the restores of a database, as they are listed. *)
Definition listed (database : Uuid) (t : DatabaseTables) : list RestoreRow :=
  merge_sort newest_restore (select_where (λ r, rs_database_id r =? database) (dt_restores t)).

(** What a request finds before it decides: the caller is the owner, the database is there, the
    instant is covered, and the restores of the database decode. *)
Record requestable (caller : UserRec) (database : Uuid) (ts : DateTime) (w : World) (rg : BinlogRange)
    (ex : list PitrRestore) : Prop := {
  req_owner : u_role caller = Owner;
  req_row : ∃ r d, List.find (database_is database) (dt_databases (dt w)) = Some r ∧ into_database r = Ok d;
  req_range : ∃ e l s t, sk_ranges (dt_sink (dt w)) !! database = Some (e, l, s, t) ∧ range_new e l s t = Ok rg;
  req_covers : range_covers rg ts = true;
  req_list : collect into_restore (listed database (dt w)) = Ok ex
}.

Lemma load_database_run caller database w r d :
  u_role caller = Owner → List.find (database_is database) (dt_databases (dt w)) = Some r →
  into_database r = Ok d → load_database caller database w = (Ok d, tick w).
Proof using no_faults.
  intros Ho Hr Hd. unfold load_database. erewrite bind_run.
  2:{ unfold database_lookup, databases_find_by_id, fetch_database. apply map_err_run, map_err_run.
      erewrite bind_run; [|apply (select_no_fault no_faults)]. rewrite Hr. cbn. by rewrite Hd. }
  cbn. unfold pitr_scope. by rewrite Ho.
Qed.

(** A request for an instant that is already being restored answers with that restore. *)
Lemma request_answers caller database request w rg ex r :
  requestable caller database (rq_timestamp request) w rg ex →
  List.find (in_progress (rq_timestamp request)) ex = Some r →
  (rq_timestamp request ≤ utc_now (S (w_step w)))%Z →
  ∃ w', request_restore caller database request w = (Ok r, w') ∧ w_db w' = w_db w.
Proof using no_faults.
  intros [Ho (row & d & Hrow & Hd) (e & l & s & t & Hk & Hrg) Hc Hl] Hf Hpast. unfold request_restore.
  unfold pitr_ensure_owner. rewrite Ho, bind_lift_ok.
  erewrite bind_run; [|by eapply load_database_run].
  erewrite bind_run.
  2:{ apply map_err_run. unfold restore_timestamp_new. erewrite bind_run; [|done]. cbn [tick w_step].
      destruct (Z.ltb_spec (utc_now (S (w_step w))) (rq_timestamp request)) as [Hlt|_]; [lia|done]. }
  erewrite bind_run.
  2:{ apply map_err_run. unfold sink_available_range, bind at 1, gets. cbn [part database_part tick w_db].
      rewrite Hk, Hrg. done. }
  rewrite Hc. cbn [negb]. erewrite bind_run.
  2:{ apply map_err_run. unfold restores_list_by_database, pitr_db. erewrite bind_run; [|apply map_err_run, (select_no_fault no_faults)].
      change (merge_sort newest_restore _) with (listed database (dt w)). rewrite Hl. done. }
  rewrite Hf. by eexists.
Qed.

Lemma load_database_inv caller database w d w' :
  load_database caller database w = (Ok d, w') →
  w_db w' = w_db w ∧ (w_step w ≤ w_step w')%nat
  ∧ ∃ r, List.find (database_is database) (dt_databases (dt w)) = Some r ∧ into_database r = Ok d.
Proof using no_faults.
  unfold load_database. intros Hr. inv_bind Hr. unfold database_lookup in R. apply map_err_ok, map_err_ok in R.
  unfold databases_find_by_id, fetch_database in R. inv_bind R. rewrite (select_no_fault no_faults) in R0.
  injection R0 as <- <-. apply lift_ok in R as [R ->]. inv_bind Hr. apply ok_or_ok in R0 as [-> ->].
  destruct (pitr_scope caller) as [u b]. destruct (_ && _); [done|]. injection Hr as <- <-.
  split_and!; [done|cbn; lia|]. destruct (List.find _ _) as [r|]; [|done]. cbn in R.
  destruct (into_database r) as [x|] eqn:E; [|done]. injection R as ->. eauto.
Qed.

(** The last part of [request_restore]: a new restore. *)
Definition request_new (caller : UserRec) (database : Uuid) (request : RestoreRequest) (rg : BinlogRange)
    : M World RestoreRequestError PitrRestore :=
  t <- now ;;
  id <- fresh_uuid ;;
  restore <- pitr_lift (restore_new id database (rq_timestamp request) (u_username caller) t) ;;
  pitr (restores_insert restore) ;;;
  base <- (match rq_base_backup request with Some b => ret b | None => fresh_uuid end) ;;
  staging <- fresh_uuid ;;
  restore <- pitr_lift (mark_staged staging (mkReplayWindow base (rg_latest rg)) t restore) ;;
  pitr (restores_update restore) ;;;
  record_audit (u_username caller) PitrRestoreRequested (uuid_text database)
    (JObject [("restore_id", id_json (restore_id restore));
              ("request_ts", JString (to_rfc3339 (rq_timestamp request)));
              ("staging_db_id", id_json staging)]) Success ;;;
  (if rq_confirm request then promote_restore caller (restore_id restore) ;;; ret tt else ret tt) ;;;
  ret restore.

(** The range and the restores a successful request found. *)
Lemma request_inv caller database request w r w1 :
  request_restore caller database request w = (Ok r, w1) →
  ∃ rg ex w0, requestable caller database (rq_timestamp request) w rg ex
    ∧ w_db w0 = w_db w ∧ (∃ k, (k ≤ w_step w0)%nat ∧ rq_timestamp request ≤ utc_now k)%Z
    ∧ match List.find (in_progress (rq_timestamp request)) ex with
      | Some x => r = x ∧ w1 = w0
      | None => request_new caller database request rg w0 = (Ok r, w1)
      end.
Proof using no_faults.
  unfold request_restore. intros Hr. inv_bind Hr. apply lift_ok in R as [Ho ->]. unfold pitr_ensure_owner in Ho.
  destruct (u_role caller) eqn:Er; try done. inv_bind Hr. apply load_database_inv in R as (Hdb & Hst & row & Hrow & Hd).
  inv_bind Hr. apply map_err_ok in R. unfold restore_timestamp_new in R. inv_bind R. injection R0 as <- <-.
  destruct (Z.ltb_spec (utc_now (w_step w0)) (rq_timestamp request)) as [|Hts]; [done|]. injection R as <- <-.
  inv_bind Hr. apply map_err_ok in R. unfold sink_available_range, bind at 1, gets in R. cbn [part database_part tick w_db] in R.
  destruct (sk_ranges _ !! database) as [[[[e l] s] t]|] eqn:Ek.
  - apply lift_ok in R as [Hrg ->]. destruct (range_covers a1 _) eqn:Ec; [|done]. cbn [negb] in Hr.
    inv_bind Hr. apply map_err_ok in R. unfold restores_list_by_database, pitr_db in R. inv_bind R.
    apply map_err_ok in R0. rewrite (select_no_fault no_faults) in R0. injection R0 as <- <-. apply lift_ok in R as [Hl ->].
    exists a1, a2, (tick (tick w0)). split_and!; [|by cbn|exists (w_step w0); cbn; split; [lia|done]|].
    + split; [done|exists row, a0; done|exists e, l, s, t; by rewrite <- Hdb|done|by rewrite <- Hdb].
    + destruct (List.find _ a2); [|done]. by injection Hr as <- <-.
  - inv_bind R. injection R0 as <- <-. apply lift_ok in R as [Hrg ->]. unfold range_new in Hrg.
    rewrite Z.ltb_irrefl in Hrg. injection Hrg as <-. done.
Qed.

(** The restore a request stages, and its row. *)
Definition staged_restore (id database : Uuid) (ts : DateTime) (by_ : string) (base staging : Uuid)
    (to : LogSeq) (t : DateTime) : PitrRestore :=
  mkRestore id database ts (Some (mkReplayWindow base to)) (Some staging) RestoreStaged by_ t t None.
Lemma request_new_run caller database request rg w q w1 :
  rq_confirm request = false → request_new caller database request rg w = (Ok q, w1) →
  ∃ id base staging t,
    q = staged_restore id database (rq_timestamp request) (u_username caller) base staging (rg_latest rg) t
    ∧ existsb (restore_is id) (dt_restores (dt w)) = false
    ∧ dt w1 = set_restores (dt_restores (dt w) ++ [restore_row q])%list (dt w)
    ∧ (w_step w ≤ w_step w1)%nat.
Proof.
  intros Hcf. unfold request_new. rewrite Hcf. intros Hr. inv_bind Hr. injection R as <- <-. inv_bind Hr. injection R as <- <-.
  inv_bind Hr. apply lift_ok in R as [R%result_map_err_ok ->]. unfold restore_new in R.
  destruct (database =? 0); [done|]. destruct (is_blank _); [done|]. injection R as <-.
  inv_bind Hr. apply map_err_ok in R. unfold restores_insert in R. apply map_err_ok, part_statement_run in R as [Hi Hs0].
  unfold insert_restore_row in Hi. destruct (existsb (restore_is _) _) eqn:Eid; [done|].
  destruct (existsb (database_is _) _); [|done]. injection Hi as _ Hi. cbn in Hi, Eid, Hs0.
  inv_bind Hr. assert (w_db w2 = w_db w0 ∧ (w_step w0 ≤ w_step w2)%nat) as [Hdb Hs1].
  { destruct (rq_base_backup request); injection R as _ <-; cbn; split; [done|lia|done|lia]. }
  inv_bind Hr. injection R0 as <- <-. inv_bind Hr. apply lift_ok in R0 as [R0%result_map_err_ok ->].
  unfold mark_staged in R0. cbn [restore_status negb bool_decide] in R0. case_bool_decide; [|done]. cbn [negb] in R0.
  destruct (_ =? 0); [done|]. injection R0 as <-. inv_bind Hr. apply map_err_ok in R0. unfold restores_update in R0.
  apply map_err_ok, on_part_run in R0 as [Hu Hs2]. inv_bind Hr. apply (quiet_at (T:=DatabaseTables)) in R0 as [Hs3 Hq]; [|apply quiet_recorded].
  inv_bind Hr. injection R0 as _ <-. injection Hr as <- <-. cbn in Hq, Hu, Hs2.
  do 4 eexists. split_and!; [reflexivity|exact Eid| |cbn; lia].
  rewrite Hq, Hu, Hdb, <- Hi. cbn. unfold update_where. rewrite map_app. cbn. unfold restore_is at 2. cbn.
  rewrite N.eqb_refl. unfold set_restores. cbn. f_equal. f_equal. rewrite <- (map_id (dt_restores (dt w))) at 2. apply map_ext_in.
  intros x Hx. by rewrite (proj1 (existsb_false _ _) Eid x Hx).
Qed.

Lemma staged_roundtrip id database ts by_ base staging to t :
  readable to →
  into_restore (restore_row (staged_restore id database ts by_ base staging to t))
  = Ok (staged_restore id database ts by_ base staging to t).
Proof. intros Hto. unfold into_restore. cbn. by rewrite log_hex_roundtrip. Qed.

(** The staged restore is the one in progress afterwards. *)
Lemma request_new_listed database ts q t ex :
  restore_database_id q = database → restore_request_ts q = ts → restore_status q = RestoreStaged →
  into_restore (restore_row q) = Ok q →
  collect into_restore (listed database t) = Ok ex → List.find (in_progress ts) ex = None →
  ∃ ex', collect into_restore (listed database (set_restores (dt_restores t ++ [restore_row q])%list t)) = Ok ex'
    ∧ List.find (in_progress ts) ex' = Some q.
Proof.
  intros Hd Hts Hst Hq Hex Hnone.
  assert (∀ r, In r (listed database (set_restores (dt_restores t ++ [restore_row q])%list t)) ↔
    In r (listed database t) ∨ r = restore_row q) as Hin.
  { intros r. unfold listed. rewrite <- !list_elem_of_In, !merge_sort_Permutation, !list_elem_of_In. cbn.
    unfold select_where. rewrite List.filter_app, in_app_iff. cbn. rewrite Hd, N.eqb_refl. cbn.
    split; [intros [?|[<-|[]]]; eauto|intros [?| ->]; eauto]. }
  pose proof (collect_Forall2 _ _ _ Hex) as Hf2.
  assert (∀ r, In r (listed database t) → ∃ b, into_restore r = Ok b ∧ In b ex) as Hdec.
  { intros r Hr. apply list_elem_of_In, list_elem_of_lookup in Hr as (i & Hi).
    destruct (Forall2_lookup_l _ _ _ _ _ Hf2 Hi) as (b & Hb & Hrb). exists b. split; [done|].
    apply list_elem_of_In. by eapply list_elem_of_lookup_2. }
  destruct (collect_ok into_restore (listed database (set_restores (dt_restores t ++ [restore_row q])%list t)))
    as (ex' & Hc & _).
  { apply List.Forall_forall. intros r [Hr| ->]%Hin; [|by rewrite Hq]. destruct (Hdec r Hr) as (b & -> & _). done. }
  exists ex'. split; [done|]. eapply collect_find; [exact Hc|exists (restore_row q); split; [apply Hin; by right|done]| |].
  - unfold in_progress. by rewrite Hts, Z.eqb_refl, Hst.
  - intros r b [Hr| ->]%Hin Hb HP; [|congruence]. destruct (Hdec r Hr) as (b' & Hb' & Hbx).
    rewrite Hb in Hb'. injection Hb' as <-. eapply List.find_none in Hnone; [|exact Hbx]. congruence.
Qed.

(** C29 (a request can be repeated).  When no statement fails, the clock does not go back and
    the positions in the sink are ones [LogSeq] allows, a request for a restore that succeeds
    without being confirmed returns a restore for the requested instant, pending or staged, the
    log covers that instant, and the same request made again at once returns the same restore
    and changes nothing. *)
Theorem request_repeated caller database request w r w1 :
  (∀ i j, (i ≤ j)%nat → (utc_now i ≤ utc_now j)%Z) →
  (∀ e l s t, sk_ranges (dt_sink (dt w)) !! database = Some (e, l, s, t) → readable l) →
  rq_confirm request = false → request_restore caller database request w = (Ok r, w1) →
  in_progress (rq_timestamp request) r = true
  ∧ (∃ e l s t, sk_ranges (dt_sink (dt w)) !! database = Some (e, l, s, t)
       ∧ (s ≤ rq_timestamp request ≤ t)%Z)
  ∧ ∃ w2, request_restore caller database request w1 = (Ok r, w2) ∧ w_db w2 = w_db w1.
Proof using no_faults laws.
  intros Hclock Hread Hcf Hr. apply request_inv in Hr as (rg & ex & w0 & HQ & Hdb & (k & Hk & Hts) & Hcase).
  pose proof (req_range _ _ _ _ _ _ HQ) as (e & l & s & t & Hsk & Hrg).
  pose proof (req_covers _ _ _ _ _ _ HQ) as Hcov. unfold range_new in Hrg. destruct (_ <? _)%Z; [done|].
  injection Hrg as <-. assert (s ≤ rq_timestamp request ≤ t)%Z as Hst.
  { unfold range_covers in Hcov. cbn in Hcov. rewrite !andb_true_iff, !Z.leb_le in Hcov. lia. }
  destruct (List.find _ ex) as [x|] eqn:Ef.
  - destruct Hcase as [-> ->]. split_and!; [by apply List.find_some in Ef as [_ ?]|eauto 10|].
    eapply (request_answers caller database request w0); [|exact Ef|].
    + destruct HQ as [Q1 Q2 Q3 Q4 Q5]. split; rewrite ?Hdb; done.
    + etransitivity; [exact Hts|]. apply Hclock. lia.
  - apply request_new_run in Hcase as (id & base & staging & t0 & -> & Hid & Hdt & Hstep); [|done].
    cbn [rg_latest] in *. rewrite Hdb in Hdt, Hid. set (q := staged_restore _ _ _ _ _ _ _ _) in *.
    assert (into_restore (restore_row q) = Ok q) as Hq by (apply staged_roundtrip; eauto).
    split_and!; [|eauto 10|].
    + unfold in_progress, q. cbn. by rewrite Z.eqb_refl.
    + destruct HQ as [Q1 Q2 Q3 Q4 Q5].
      destruct (request_new_listed database (rq_timestamp request) q (dt w) ex) as (ex' & Hl' & Hf'); try done.
      eapply (request_answers caller database request w1); [|exact Hf'|].
      * split; [done|by rewrite Hdt|rewrite Hdt; exact Q3|done|by rewrite Hdt].
      * etransitivity; [exact Hts|]. apply Hclock. lia.
Qed.

(** While a database has no segment in the sink, no request for a restore of it succeeds. *)
Theorem no_log_no_restore caller database request w :
  sk_ranges (dt_sink (dt w)) !! database = None →
  is_ok (request_restore caller database request w).1 = false.
Proof using no_faults.
  intros Hk. destruct (request_restore caller database request w) as [[r|e] w1] eqn:Hr; [|done].
  apply request_inv in Hr as (rg & ex & w0 & HQ & _). destruct (req_range _ _ _ _ _ _ HQ) as (e & l & s & t & Hsk & _).
  congruence.
Qed.
End requests.
