(* ===== verification/FileSystem.v ===== *)
(** * [std::fs] on Linux

    The tree of files, directories and symbolic links, the resolution of paths in it, and
    the system calls behind the functions of [std::fs] and [tokio::fs] that the file
    manager and the backups use.  The tree is a finite map from locations, the names from [/] downwards,
    to nodes.  Hard links, devices and mount points are not represented.  Every call may
    fail for reasons outside the tree (permissions, a full disk, limits on names):
    [fs_fault] says which ones do. *)
From S2P Require Import Prelude Text AuditActions AuditLog Accounts Paths CronJobs HostingTables Store.
Open Scope N_scope.

(** ** Nodes and locations *)

Abbreviation Name := (list N).
Abbreviation Loc := (list (list N)).

(** The size and the modification time of a directory are kept by the file system itself
    and come from [FsEnv]. *)
Inductive Node : Type :=
| NFile (content : list N) (mode : N) (modified : DateTime)
| NDir (mode : N)
| NLink (target : list N).

#[export] Instance Node_eq_dec : EqDecision Node.
Proof. solve_decision. Defined.

Abbreviation FS := (gmap Loc Node).

(** The error numbers the calls answer by themselves; [EOTHER] is any other one. *)
Inductive errno : Type :=
| ENOENT | ENOTDIR | EISDIR | EEXIST | ELOOP | ENOTEMPTY | EINVAL | EBUSY
| EOTHER (code : N).

Definition is_not_found (e : errno) : bool :=
  match e with ENOENT => true | _ => false end.

(** The absolute path of a location. *)
Definition loc_text (l : Loc) : list N := render (RootDir :: map Normal l).

(** ** Path resolution *)

(** How the last name of a path is treated: it must exist and links are followed; it may be
    missing and a link there is the entry itself; it may be missing and links are
    followed, to the place where a file would be created. *)
Inductive Last : Type := Existing | Entry | Creating.

Definition may_miss (how : Last) : bool :=
  match how with Existing => false | _ => true end.
Definition stops_at_link (how : Last) : bool :=
  match how with Entry => true | _ => false end.

(** [MAXSYMLINKS]: links followed in one resolution, in the kernel and in [realpath]. *)
Definition MAXSYMLINKS : nat := 40.

Fixpoint walk (how : Last) (fs : FS) (links : nat) {struct links} : Loc → list Name → result Loc errno :=
  fix go (cur : Loc) (pieces : list Name) {struct pieces} : result Loc errno :=
    match pieces with
    | [] => Ok cur
    | p :: rest =>
        match fs !! cur with
        | Some (NDir _) =>
            match component p with
            | None => go cur rest
            | Some (Normal n) =>
                let e := (cur ++ [n])%list in
                let final := bool_decide (rest = []) in
                match fs !! e with
                | Some (NLink target) =>
                    if final && stops_at_link how then Ok e
                    else match links with
                         | O => Err ELOOP
                         | S links' =>
                             if bool_decide (target = []) then Err ENOENT
                             else walk how fs links' (if has_root target then [] else cur)
                                    (split SLASH target ++ rest)%list
                         end
                | Some _ => go e rest
                | None => if final && may_miss how then Ok e else Err ENOENT
                end
            | Some _ => go (removelast cur) rest
            end
        | Some _ => Err ENOTDIR
        | None => Err ENOENT
        end
    end.

(** ** What the calls take from outside *)

Class FsEnv := {
  (** why the [k]-th interaction fails although the tree would allow it, for the
      resolution of a path by [realpath] and for every other call *)
  realpath_fault : nat → option errno;
  fs_fault : nat → option errno;
  (** [io::Error::to_string] *)
  errno_text : errno → string;
  (** the working directory and the mask of new files *)
  working_dir : Loc;
  umask : N;
  (** size and modification time of a directory at the [k]-th interaction *)
  dir_len : nat → Loc → Z;
  dir_modified : nat → Loc → DateTime;
  (** the order in which a directory lists its names *)
  dir_order : nat → list Name → list Name;
  (** a failed [write]: how many bytes were written if the file had been opened; a failed
      [remove_dir_all]: what was not removed *)
  written : nat → option nat;
  survives : nat → Loc → bool;
  (** [mime_guess]: the type of a file name *)
  mime_essence : string → string;
  (** [chrono::DateTime::from_timestamp(s, 0)] *)
  from_timestamp : Z → option DateTime
}.

Class FsLaws `{FsEnv} := {
  dir_order_permutes k l : dir_order k l ≡ₚ l
}.

Record FilesWorld := mkFilesWorld { fw_world : World; fw_fs : FS }.

Definition fs_tick (w : FilesWorld) : FilesWorld := mkFilesWorld (tick (fw_world w)) (fw_fs w).
Definition with_fs (fs : FS) (w : FilesWorld) : FilesWorld := mkFilesWorld (fw_world w) fs.

(** A service call that does not touch the files. *)
Definition on_world {E A : Type} (c : M World E A) : M FilesWorld E A := λ w,
  let '(r, w') := c (fw_world w) in (r, mkFilesWorld w' (fw_fs w)).

(** What [stat] reports. *)
Record Metadata := mkMetadata {
  m_is_dir : bool;
  m_len : Z;
  m_mode : N;
  m_modified : DateTime
}.

(** Locations in the subtree of a location. *)
Definition under (l l' : Loc) : bool := bool_decide (l `prefix_of` l').

Section calls.
Context `{Env} `{FsEnv}.
Abbreviation MF A := (M FilesWorld errno A).

(** A call: when it fails from outside, [partial] is what it did before. *)
Definition sys_partial {A : Type} (partial : nat → FS → FS) (f : nat → FS → result A errno * FS) : MF A := λ w,
  let k := w_step (fw_world w) in
  match fs_fault k with
  | Some e => (Err e, fs_tick (with_fs (partial k (fw_fs w)) w))
  | None => let '(r, fs') := f k (fw_fs w) in (r, fs_tick (with_fs fs' w))
  end.

Definition sys {A : Type} (f : nat → FS → result A errno * FS) : MF A := sys_partial (λ _ fs, fs) f.

(** A call that reads the tree. *)
Definition fs_query {A : Type} (f : nat → FS → result A errno) : MF A := sys (λ k fs, (f k fs, fs)).

(** A path with a null byte is refused before the call; an empty one is not found. *)
Definition locate (how : Last) (fs : FS) (p : list N) : result Loc errno :=
  if existsb (N.eqb 0) p then Err EINVAL
  else if bool_decide (p = []) then Err ENOENT
  else walk how fs MAXSYMLINKS (if has_root p then [] else working_dir) (split SLASH p).

Definition node_at (how : Last) (fs : FS) (p : list N) : result (Loc * Node) errno :=
  l <-? locate how fs p ;;
  match fs !! l with
  | Some n => Ok (l, n)
  | None => Err ENOENT
  end.

Definition metadata_of (k : nat) (l : Loc) (n : Node) : Metadata :=
  match n with
  | NFile c m t => mkMetadata false (Z.of_nat (length c)) m t
  | NDir m => mkMetadata true (dir_len k l) m (dir_modified k l)
  | NLink t => mkMetadata false (Z.of_nat (length t)) 511 (dir_modified k l)
  end.

(** [fs::canonicalize]. *)
Definition canonicalize (p : list N) : MF (list N) := λ w,
  match realpath_fault (w_step (fw_world w)) with
  | Some e => (Err e, fs_tick w)
  | None => (l <-? locate Existing (fw_fs w) p ;; Ok (loc_text l), fs_tick w)
  end.

(** [fs::metadata] and [DirEntry::metadata]. *)
Definition fs_metadata (p : list N) : MF Metadata :=
  fs_query (λ k fs, x <-? node_at Existing fs p ;; Ok (metadata_of k x.1 x.2)).
Definition entry_metadata (p : list N) : MF Metadata :=
  fs_query (λ k fs, x <-? node_at Entry fs p ;; Ok (metadata_of k x.1 x.2)).

(** [Path::exists], [Path::is_dir]. *)
Definition exists_path {E : Type} (p : list N) : M FilesWorld E bool :=
  o <- attempt (fs_metadata p) ;; ret (match o with Some _ => true | None => false end).
Definition is_dir_path {E : Type} (p : list N) : M FilesWorld E bool :=
  o <- attempt (fs_metadata p) ;; ret (match o with Some m => m_is_dir m | None => false end).

(** The names in a directory. *)
Definition child_name (l l' : Loc) : option Name :=
  match last l' with
  | Some n => if bool_decide (l' = l ++ [n])%list then Some n else None
  | None => None
  end.
Definition dir_children (fs : FS) (l : Loc) : list Name :=
  omap (λ kv, child_name l kv.1) (map_to_list fs).

Definition fs_read_dir (p : list N) : MF (list Name) :=
  fs_query (λ k fs,
    x <-? node_at Existing fs p ;;
    match x.2 with
    | NDir _ => Ok (dir_order k (dir_children fs x.1))
    | _ => Err ENOTDIR
    end).
(** Advancing the listing, apart from which name comes next. *)
Definition next_entry : MF unit := fs_query (λ _ _, Ok tt).

(** [fs::read]. *)
Definition fs_read (p : list N) : MF (list N) :=
  fs_query (λ _ fs,
    x <-? node_at Existing fs p ;;
    match x.2 with
    | NFile c _ _ => Ok c
    | NDir _ => Err EISDIR
    | NLink _ => Err ELOOP
    end).

(** [fs::write]: open for writing, create or truncate, then write all. *)
Definition put_file (t : DateTime) (p bytes : list N) (fs : FS) : result unit errno * FS :=
  match locate Creating fs p with
  | Err e => (Err e, fs)
  | Ok l =>
      match fs !! l with
      | None => (Ok tt, <[l := NFile bytes (N.ldiff 438 umask) t]> fs)
      | Some (NFile _ m _) => (Ok tt, <[l := NFile bytes m t]> fs)
      | Some (NDir _) => (Err EISDIR, fs)
      | Some (NLink _) => (Err ELOOP, fs)
      end
  end.
Definition fs_write (p bytes : list N) : MF unit :=
  sys_partial
    (λ k fs, match written k with
             | Some n => (put_file (utc_now k) p (take n bytes) fs).2
             | None => fs
             end)
    (λ k, put_file (utc_now k) p bytes).

(** [chmod]: the type of the file is not part of the mode. *)
Definition set_mode (mode : N) (n : Node) : Node :=
  match n with
  | NFile c _ t => NFile c (N.land mode 4095) t
  | NDir _ => NDir (N.land mode 4095)
  | NLink t => NLink t
  end.
Definition fs_set_permissions (p : list N) (mode : N) : MF unit :=
  sys (λ _ fs,
    match node_at Existing fs p with
    | Err e => (Err e, fs)
    | Ok (l, n) => (Ok tt, <[l := set_mode mode n]> fs)
    end).

(** [mkdir]. *)
Definition fs_mkdir (p : list N) : MF unit :=
  sys (λ _ fs,
    match locate Entry fs p with
    | Err e => (Err e, fs)
    | Ok l =>
        match fs !! l with
        | Some _ => (Err EEXIST, fs)
        | None => (Ok tt, <[l := NDir (N.ldiff 511 umask)]> fs)
        end
    end).

(** [fs::create_dir_all], over the components from the last one: a directory that cannot be
    created because its parent is missing is created after it. *)
Fixpoint create_dirs (rev_components : list Component) : MF unit :=
  match rev_components with
  | [] => ret tt
  | c :: above =>
      let p := render (rev rev_components) in
      r <- try_run (fs_mkdir p) ;;
      match r with
      | Ok _ => ret tt
      | Err e =>
          if is_not_found e then
            match c with
            | RootDir => throw (EOTHER 0)
            | _ =>
                create_dirs above ;;;
                again <- try_run (fs_mkdir p) ;;
                match again with
                | Ok _ => ret tt
                | Err e' => d <- is_dir_path p ;; if (d : bool) then ret tt else throw e'
                end
            end
          else d <- is_dir_path p ;; if (d : bool) then ret tt else throw e
      end
  end.
Definition create_dir_all (p : list N) : MF unit := create_dirs (rev (components p)).

(** [unlink]. *)
Definition fs_remove_file (p : list N) : MF unit :=
  sys (λ _ fs,
    match node_at Entry fs p with
    | Err e => (Err e, fs)
    | Ok (l, NDir _) => (Err EISDIR, fs)
    | Ok (l, _) => (Ok tt, delete l fs)
    end).

(** [fs::remove_dir_all]: a link is removed itself; the entries of a directory go before
    the directory, so what is left of a failed removal has its parents. *)
Definition remove_tree (l : Loc) (fs : FS) : FS := filter (λ kv, under l kv.1 = false) fs.
Definition left_over (k : nat) (fs : FS) (l : Loc) : bool :=
  existsb (λ kv, under l kv.1 && survives k kv.1) (map_to_list fs).
Definition remove_some (k : nat) (l : Loc) (fs : FS) : FS :=
  filter (λ kv, under l kv.1 = false ∨ left_over k fs kv.1 = true) fs.
Definition fs_remove_dir_all (p : list N) : MF unit :=
  sys_partial
    (λ k fs, match node_at Entry fs p with
             | Ok (l, NDir _) => remove_some k l fs
             | _ => fs
             end)
    (λ _ fs,
      match node_at Entry fs p with
      | Err e => (Err e, fs)
      | Ok (l, NDir m) =>
          if bool_decide (l = []) then (Err EBUSY, <[[] := NDir m]> (remove_tree l fs))
          else (Ok tt, remove_tree l fs)
      | Ok (l, NLink _) => (Ok tt, delete l fs)
      | Ok (l, NFile _ _ _) => (Err ENOTDIR, fs)
      end).

(** [rename]. *)
Definition relocate (old new l : Loc) : Loc := (new ++ drop (length old) l)%list.
Definition moved (old new : Loc) (fs : FS) : FS :=
  list_to_map (prod_map (relocate old new) id
                 <$> filter (λ kv, under old kv.1 = true) (map_to_list fs)).
Definition move_tree (old new : Loc) (fs : FS) : FS :=
  moved old new fs ∪ filter (λ kv, under old kv.1 = false ∧ kv.1 ≠ new) fs.
Definition is_empty_dir (fs : FS) (l : Loc) : bool := bool_decide (dir_children fs l = []).

Definition rename_node (old new : Loc) (n : Node) (fs : FS) : result unit errno * FS :=
  if bool_decide (old = []) || bool_decide (new = []) then (Err EBUSY, fs)
  else if under old new then (Err EINVAL, fs)
  else if under new old then (Err ENOTEMPTY, fs)
  else match n, fs !! new with
       | NDir _, Some (NDir _) =>
           if is_empty_dir fs new then (Ok tt, move_tree old new fs) else (Err ENOTEMPTY, fs)
       | NDir _, Some _ => (Err ENOTDIR, fs)
       | NDir _, None => (Ok tt, move_tree old new fs)
       | _, Some (NDir _) => (Err EISDIR, fs)
       | _, _ => (Ok tt, <[new := n]> (delete old fs))
       end.
Definition fs_rename (from to : list N) : MF unit :=
  sys (λ _ fs,
    match node_at Entry fs from, locate Entry fs to with
    | Err e, _ | _, Err e => (Err e, fs)
    | Ok (old, n), Ok new => if bool_decide (old = new) then (Ok tt, fs) else rename_node old new n fs
    end).

(** [rmdir]. *)
Definition fs_remove_dir (p : list N) : MF unit :=
  sys (λ _ fs,
    match node_at Entry fs p with
    | Err e => (Err e, fs)
    | Ok (l, NDir _) =>
        if bool_decide (l = []) then (Err EBUSY, fs)
        else if is_empty_dir fs l then (Ok tt, delete l fs) else (Err ENOTEMPTY, fs)
    | Ok (l, _) => (Err ENOTDIR, fs)
    end).

(** [open] with [create_new] and a mode, then the writes. *)
Definition put_new (t : DateTime) (p : list N) (mode : N) (bytes : list N) (fs : FS)
    : result unit errno * FS :=
  match locate Entry fs p with
  | Err e => (Err e, fs)
  | Ok l =>
      match fs !! l with
      | None => (Ok tt, <[l := NFile bytes (N.ldiff mode umask) t]> fs)
      | Some _ => (Err EEXIST, fs)
      end
  end.
Definition fs_create_new (p : list N) (mode : N) (bytes : list N) : MF unit :=
  sys_partial
    (λ k fs, match written k with
             | Some n => (put_new (utc_now k) p mode (take n bytes) fs).2
             | None => fs
             end)
    (λ k, put_new (utc_now k) p mode bytes).

(** [File::sync_all]. *)
Definition fs_sync : MF unit := fs_query (λ _ _, Ok tt).
End calls.
