(* ===== verification/Files.v ===== *)
(** * The file manager

    [crates/openpanel-domain/src/files/] and [crates/openpanel-app/src/files/] [repo.rs] and
    [service.rs]: validated relative paths, the repository that resolves them against the
    canonical document root of a site, and the service with its access checks and audit
    events.  A [PathBuf] is its text. *)
From S2P Require Import Prelude Text AuditActions AuditLog Accounts Paths CronJobs HostingTables Store Users Sites FileSystem.
Open Scope N_scope.

(** ** Domain *)

Inductive FileError : Type :=
| PathOutsideChroot (path : string) | InvalidPath (reason : string)
| FileNotFound (path : string) | FileAlreadyExists (path : string)
| IsADirectory (path : string) | IsNotADirectory (path : string)
| DirectoryNotEmpty (path : string) | FileTooLarge (len : Z) | FileForbidden
| FileSiteNotFound (id : string) | FileIo (reason : string).

Record FileInfo := mkFileInfo {
  fi_name : string;
  fi_is_dir : bool;
  fi_size : Z;
  fi_mode : string;
  fi_mtime : DateTime;
  fi_mime : option string
}.

(** [Path], by its text. *)
Abbreviation RelPath := string.

Definition path_root : RelPath := "".
Definition is_root (p : RelPath) : bool := bool_decide (p = "").

(** The loop over the components. *)
Fixpoint check_components (cs : list Component) : result unit FileError :=
  match cs with
  | [] => Ok tt
  | ParentDir :: _ => Err (InvalidPath "`..` not allowed")
  | RootDir :: _ => Err (InvalidPath "absolute path not allowed")
  | _ :: cs' => check_components cs'
  end.

Definition path_validate (s : string) : result unit FileError :=
  if bool_decide (s = "") then Ok tt
  else if contains_char s 0 then Err (InvalidPath "contains null byte")
  else if starts_with s "/" then Err (InvalidPath "absolute path not allowed")
  else check_components (components (bytes s)).

Definition path_new (input : string) : result RelPath FileError :=
  _ <-? path_validate input ;; Ok input.

(** [Path::join]. *)
Definition rel_join (p : RelPath) (basename : string) : result RelPath FileError :=
  if bool_decide (basename = "") then Err (InvalidPath "empty basename")
  else if contains_char basename SLASH || contains_char basename 0
  then Err (InvalidPath "invalid basename")
  else if is_root p then path_new basename
  else path_new (p +:+ "/" +:+ basename).

Definition MAX_READ_BYTES : Z := 50 * 1024 * 1024.

(** ** Texts of the repository *)

(** [OsStr::to_string_lossy]: each maximal part that no character continues becomes
    U+FFFD. *)
Definition FFFD : list N := [239; 191; 189].
Fixpoint to_utf8_lossy (l : list N) : list N :=
  let is_cont b := (128 <=? b) && (b <=? 191) in
  match l with
  | [] => []
  | b0 :: l1 =>
      if b0 <? 128 then b0 :: to_utf8_lossy l1
      else if (194 <=? b0) && (b0 <=? 223) then
        match l1 with
        | b1 :: l2 => if is_cont b1 then b0 :: b1 :: to_utf8_lossy l2 else (FFFD ++ to_utf8_lossy l1)%list
        | [] => FFFD
        end
      else if (224 <=? b0) && (b0 <=? 239) then
        match l1 with
        | b1 :: l2 =>
            if is_cont b1 && (negb (b0 =? 224) || (160 <=? b1)) && (negb (b0 =? 237) || (b1 <=? 159)) then
              match l2 with
              | b2 :: l3 =>
                  if is_cont b2 then b0 :: b1 :: b2 :: to_utf8_lossy l3 else (FFFD ++ to_utf8_lossy l2)%list
              | [] => FFFD
              end
            else (FFFD ++ to_utf8_lossy l1)%list
        | [] => FFFD
        end
      else if (240 <=? b0) && (b0 <=? 244) then
        match l1 with
        | b1 :: l2 =>
            if is_cont b1 && (negb (b0 =? 240) || (144 <=? b1)) && (negb (b0 =? 244) || (b1 <=? 143)) then
              match l2 with
              | b2 :: l3 =>
                  if is_cont b2 then
                    match l3 with
                    | b3 :: l4 =>
                        if is_cont b3 then b0 :: b1 :: b2 :: b3 :: to_utf8_lossy l4
                        else (FFFD ++ to_utf8_lossy l3)%list
                    | [] => FFFD
                    end
                  else (FFFD ++ to_utf8_lossy l2)%list
              | [] => FFFD
              end
            else (FFFD ++ to_utf8_lossy l1)%list
        | [] => FFFD
        end
      else (FFFD ++ to_utf8_lossy l1)%list
  end.

(** [{:04o}]: octal digits, padded with zeros to four. *)
Fixpoint octal_aux (fuel : nat) (n : N) (acc : list N) : list N :=
  match fuel with
  | O => acc
  | S f => let acc' := 48 + n mod 8 :: acc in
           if n / 8 =? 0 then acc' else octal_aux f (n / 8) acc'
  end.
Definition octal04 (n : N) : string :=
  let ds := octal_aux (S (N.to_nat (N.log2 n))) n [] in
  of_bytes (replicate (4 - length ds) 48 ++ ds)%list.

Definition mode_string (mode : N) : string := octal04 (N.land mode 4095).

(** [Path::extension] and [Path::file_stem] of a file name: the part after and before the
    last dot, unless the name starts with it. *)
Definition name_stem (n : list N) : list N :=
  match rsplit_once DOT n with
  | Some ([], _) | None => n
  | Some (stem, _) => stem
  end.
Definition name_extension (n : list N) : option (list N) :=
  match rsplit_once DOT n with
  | Some ([], _) | None => None
  | Some (_, ext) => Some ext
  end.
Definition path_extension (p : list N) : option (list N) := file_name p ≫= name_extension.

(** The text up to the end of the last name. *)
Fixpoint drop_empty (pieces : list (list N)) : list (list N) :=
  match pieces with
  | p :: rest => if bool_decide (component p = None) then drop_empty rest else pieces
  | [] => []
  end.
Definition trimmed (p : list N) : list N := join_pieces (rev (drop_empty (rev (split SLASH p)))).

(** [Path::with_extension]. *)
Definition with_extension (p ext : list N) : list N :=
  match file_name p with
  | None => p
  | Some n =>
      let kept := (length (trimmed p) - (length n - length (name_stem n)))%nat in
      (take kept (trimmed p) ++ (if bool_decide (ext = []) then [] else DOT :: ext))%list
  end.

(** The temporary file that [write_file] writes before it renames it. *)
Definition temporary (abs : list N) : list N :=
  let ext := match path_extension abs with
             | Some e => if valid_utf8 e then e else []
             | None => []
             end in
  with_extension abs (ext ++ bytes ".new")%list.

(** [sort_by]: directories first, then by name. *)
Definition info_le (a b : FileInfo) : Prop :=
  (if fi_is_dir a then negb (fi_is_dir b) || String.leb (fi_name a) (fi_name b)
   else negb (fi_is_dir b) && String.leb (fi_name a) (fi_name b)) = true.
#[export] Instance info_le_dec : RelDecision info_le.
Proof. unfold info_le. intros a b. apply _. Defined.

(** ** [FilesystemRepository] *)

Section files_repo.
Context `{Env} `{FsEnv}.
Abbreviation MF A := (M FilesWorld FileError A).

Definition io {A : Type} (c : M FilesWorld errno A) : MF A := map_err (λ e, FileIo (errno_text e)) c.

Definition canonicalize_chroot (chroot : string) : MF (list N) :=
  map_err (λ e, FileIo ("canonicalize chroot: " +:+ errno_text e)) (canonicalize (bytes chroot)).

(** The [Err] arm of [resolve_path]: the directory is canonicalized and the name added. *)
Definition resolve_missing (candidate : list N) : MF (list N) :=
  parent <- ok_or (path_parent candidate) (InvalidPath "no parent") ;;
  basename <- ok_or (file_name candidate) (InvalidPath "no basename") ;;
  parent_canon <- map_err (λ e, FileIo ("canonicalize parent: " +:+ errno_text e)) (canonicalize parent) ;;
  ret (path_join parent_canon basename).

Definition resolve_path (chroot : list N) (rel : RelPath) : MF (list N) :=
  let candidate := if is_root rel then chroot else path_join chroot (bytes rel) in
  found <- attempt (canonicalize candidate) ;;
  canonical <- match found with
               | Some p => ret p
               | None => resolve_missing candidate
               end ;;
  if negb (path_starts_with canonical chroot) then throw (PathOutsideChroot rel)
  else ret canonical.

(** [mtime]: whole seconds since 1970, 0 before. *)
Definition mtime (m : Metadata) : MF DateTime :=
  let secs := if (m_modified m <? 0)%Z then 0%Z else num_seconds (m_modified m) in
  match from_timestamp secs with
  | Some t => ret t
  | None => on_world now
  end.

Definition entry_info (abs : list N) (name : list N) : MF FileInfo :=
  let name_text := of_bytes (to_utf8_lossy name) in
  m <- io (entry_metadata (path_join abs name)) ;;
  t <- mtime m ;;
  ret (mkFileInfo name_text (m_is_dir m) (m_len m) (mode_string (m_mode m)) t
         (if m_is_dir m then None else Some (mime_essence name_text))).

(** The loop over the entries; the last [next_entry] finds the end. *)
Fixpoint entries_loop (abs : list N) (names : list (list N)) : MF (list FileInfo) :=
  match names with
  | [] => io next_entry ;;; ret []
  | n :: names' =>
      io next_entry ;;;
      i <- entry_info abs n ;;
      rest <- entries_loop abs names' ;;
      ret (i :: rest)
  end.

Definition repo_list_dir (chroot : list N) (path : RelPath) : MF (list FileInfo) :=
  abs <- resolve_path chroot path ;;
  m <- io (fs_metadata abs) ;;
  if negb (m_is_dir m) then throw (IsNotADirectory path)
  else
    names <- io (fs_read_dir abs) ;;
    out <- entries_loop abs names ;;
    ret (merge_sort info_le out).

(** [metadata] with a missing file reported as such. *)
Definition metadata_or_not_found (path : RelPath) (abs : list N) : MF Metadata :=
  map_err (λ e, if is_not_found e then FileNotFound path else FileIo (errno_text e)) (fs_metadata abs).

Definition repo_read_file (chroot : list N) (path : RelPath) : MF (list N * DateTime) :=
  abs <- resolve_path chroot path ;;
  m <- metadata_or_not_found path abs ;;
  if m_is_dir m then throw (IsADirectory path)
  else if (MAX_READ_BYTES <? m_len m)%Z then throw (FileTooLarge (m_len m))
  else
    content <- io (fs_read abs) ;;
    t <- mtime m ;;
    ret (content, t).

Definition repo_write_file (chroot : list N) (path : RelPath) (content : list N) : MF unit :=
  abs <- resolve_path chroot path ;;
  match path_parent abs with
  | Some parent => io (create_dir_all parent)
  | None => ret tt
  end ;;;
  let tmp := temporary abs in
  io (fs_write tmp content) ;;;
  io (fs_set_permissions tmp 420) ;;;
  io (fs_rename tmp abs).

Definition repo_mkdir (chroot : list N) (path : RelPath) : MF unit :=
  abs <- resolve_path chroot path ;;
  there <- exists_path abs ;;
  if (there : bool) then throw (FileAlreadyExists path)
  else
    io (create_dir_all abs) ;;;
    io (fs_set_permissions abs 493).

(** Only the first entry is asked for. *)
Definition has_children (abs : list N) : MF bool :=
  names <- io (fs_read_dir abs) ;;
  io next_entry ;;;
  ret (negb (bool_decide (names = []))).

Definition repo_remove (chroot : list N) (path : RelPath) (recursive : bool) : MF unit :=
  abs <- resolve_path chroot path ;;
  m <- metadata_or_not_found path abs ;;
  if m_is_dir m then
    some <- has_children abs ;;
    if some && negb recursive then throw (DirectoryNotEmpty path)
    else io (fs_remove_dir_all abs)
  else io (fs_remove_file abs).

Definition repo_rename (chroot : list N) (from to : RelPath) : MF unit :=
  from_abs <- resolve_path chroot from ;;
  to_abs <- resolve_path chroot to ;;
  io (fs_rename from_abs to_abs).

Definition repo_chmod (chroot : list N) (path : RelPath) (mode : N) : MF unit :=
  abs <- resolve_path chroot path ;;
  io (fs_set_permissions abs mode).
End files_repo.

(** ** [FilesService] *)

Section files_service.
Context `{Env} `{FsEnv}.
Abbreviation MF A := (M FilesWorld FileError A).

Definition files_can_manage (caller : UserRec) (site : Site) : result unit FileError :=
  match u_role caller with
  | Owner | Admin => Ok tt
  | User => if site_owner_id site =? u_id caller then Ok tt else Err FileForbidden
  end.

Definition files_load_site (caller : UserRec) (id : Uuid) : MF Site :=
  o <- map_err FileIo (on_world (sites_find_by_id id)) ;;
  site <- ok_or o (FileSiteNotFound (uuid_text id)) ;;
  lift (files_can_manage caller site) ;;;
  ret site.

(** [chroot_for], and the first two calls of every other method. *)
Definition chroot_for (caller : UserRec) (id : Uuid) : MF (list N) :=
  site <- files_load_site caller id ;;
  canonicalize_chroot (site_document_root site).

Definition files_audit (caller : UserRec) (action : AuditAction) (id : Uuid)
    (m : list (string * Json)) : MF unit :=
  on_world (audit (u_username caller) action Success
    (λ e, with_metadata (JObject m) (with_target (uuid_text id) e))).

Definition files_list_dir (caller : UserRec) (id : Uuid) (path : RelPath) : MF (list FileInfo) :=
  chroot <- chroot_for caller id ;; repo_list_dir chroot path.

Definition read_file (caller : UserRec) (id : Uuid) (path : RelPath) : MF (list N * DateTime) :=
  chroot <- chroot_for caller id ;; repo_read_file chroot path.

Definition write_file (caller : UserRec) (id : Uuid) (path : RelPath) (content : list N) : MF unit :=
  chroot <- chroot_for caller id ;;
  repo_write_file chroot path content ;;;
  files_audit caller FileUpdated id
    [("path", JString path); ("bytes", JNumber (of_bytes (show_N (N.of_nat (length content)))))].

Definition files_mkdir (caller : UserRec) (id : Uuid) (path : RelPath) : MF unit :=
  chroot <- chroot_for caller id ;;
  repo_mkdir chroot path ;;;
  files_audit caller FileUploaded id [("path", JString path); ("kind", JString "directory")].

Definition files_remove (caller : UserRec) (id : Uuid) (path : RelPath) (recursive : bool) : MF unit :=
  chroot <- chroot_for caller id ;;
  repo_remove chroot path recursive ;;;
  files_audit caller FileDeleted id [("path", JString path); ("recursive", JBool recursive)].

Definition files_rename (caller : UserRec) (id : Uuid) (from to : RelPath) : MF unit :=
  chroot <- chroot_for caller id ;;
  repo_rename chroot from to ;;;
  files_audit caller FileRenamed id [("from", JString from); ("to", JString to)].

Definition files_chmod (caller : UserRec) (id : Uuid) (path : RelPath) (mode : N) : MF unit :=
  chroot <- chroot_for caller id ;;
  repo_chmod chroot path mode ;;;
  files_audit caller FileModeChanged id [("path", JString path); ("mode", JString (octal04 mode))].
End files_service.
