(* ===== verification/FileTree.v ===== *)
(** * Locations, texts and path resolution

    The text of a location and its pieces, well-formed trees, and what [walk] answers on a
    canonical path. *)
From S2P Require Import Prelude Text AuditActions AuditLog Accounts Paths CronJobs HostingTables Store Users Sites FileSystem Files.
Open Scope N_scope.

(** ** Names *)

Definition good_name (n : Name) : Prop :=
  component n = Some (Normal n) ∧ ~ In SLASH n ∧ ~ In 0 n.

(** A name as a path can hold it, a null byte aside. *)
Definition plain_name (n : Name) : Prop := component n = Some (Normal n) ∧ ~ In SLASH n.
Lemma good_plain l : Forall good_name l → Forall plain_name l.
Proof. intros Hl. eapply Forall_impl; [done|]. by intros n (? & ? & _). Qed.

Lemma good_name_root n : good_name n → has_root n = false.
Proof.
  intros (Hc & Hs & _). destruct n as [|b n]; [done|]. cbn. apply N.eqb_neq. intros ->. apply Hs. by left.
Qed.

Lemma good_name_nonempty n : good_name n → n ≠ [].
Proof. intros (Hc & _) ->. done. Qed.

Lemma good_name_intro n :
  n ≠ [] → n ≠ [DOT] → n ≠ [DOT; DOT] → ~ In SLASH n → ~ In 0 n → good_name n.
Proof.
  intros H1 H2 H3 H4 H5. split_and!; try done. unfold component.
  by rewrite !bool_decide_eq_false_2 by done.
Qed.

(** ** Texts *)

Lemma join_pieces_cons x l : l ≠ [] → join_pieces (x :: l) = (x ++ SLASH :: join_pieces l)%list.
Proof. by destruct l. Qed.

Lemma split_join_pieces l :
  l ≠ [] → Forall (λ n, ~ In SLASH n) l → split SLASH (join_pieces l) = l.
Proof.
  intros Hne Hl. induction Hl as [|x l Hx Hl IH]; [done|]. destruct (decide (l = [])) as [->|Hn].
  - by apply split_no_sep.
  - rewrite join_pieces_cons, split_app, IH by done. done.
Qed.

Lemma component_text_normal l : map component_text (map Normal l) = l.
Proof. rewrite map_map. cbn. apply map_id. Qed.

Lemma loc_text_cons n l : loc_text (n :: l) = join_pieces ([] :: n :: l).
Proof. unfold loc_text, render. cbn [map component_text]. by rewrite component_text_normal. Qed.

Lemma loc_text_snoc d n : loc_text (d ++ [n]) = join_pieces ([] :: (d ++ [n])%list).
Proof. destruct d; cbn [app]; apply loc_text_cons. Qed.

Lemma loc_text_root l : has_root (loc_text l) = true.
Proof. destruct l; [done|]. by rewrite loc_text_cons. Qed.

Lemma split_loc_plain l :
  Forall plain_name l → split SLASH (loc_text l) = [] :: (if decide (l = []) then [[]] else l).
Proof.
  intros Hl. destruct l as [|n l]; [done|]. rewrite loc_text_cons, decide_False by done.
  apply split_join_pieces; [done|]. constructor; [tauto|]. eapply Forall_impl; [done|]. by intros m (_ & ?).
Qed.
Lemma split_loc_text l :
  Forall good_name l → split SLASH (loc_text l) = [] :: (if decide (l = []) then [[]] else l).
Proof. intros Hl. by apply split_loc_plain, good_plain. Qed.

Lemma omap_components l : Forall plain_name l → omap component l = map Normal l.
Proof. induction 1 as [|n l (Hn & _) _ IH]; [done|]. cbn. by rewrite Hn, IH. Qed.

Lemma components_loc_plain l : Forall plain_name l → components (loc_text l) = RootDir :: map Normal l.
Proof.
  intros Hl. unfold components, leading. rewrite loc_text_root, split_loc_plain by done. cbn.
  destruct (decide (l = [])) as [->|Hne]; [done|]. by rewrite omap_components.
Qed.
Lemma components_loc_text l : Forall good_name l → components (loc_text l) = RootDir :: map Normal l.
Proof. intros Hl. by apply components_loc_plain, good_plain. Qed.

Lemma join_pieces_snoc l n : l ≠ [] → join_pieces (l ++ [n]) = (join_pieces l ++ SLASH :: n)%list.
Proof.
  induction l as [|y l IH]; [done|]. intros _. destruct (decide (l = [])) as [->|Hl]; [done|].
  cbn [app]. rewrite !join_pieces_cons by (done || by destruct l). rewrite IH by done.
  by rewrite <- app_assoc.
Qed.

Lemma loc_text_entry d n : d ≠ [] → loc_text (d ++ [n]) = (loc_text d ++ SLASH :: n)%list.
Proof.
  intros Hd. destruct d as [|x d]; [done|]. rewrite loc_text_snoc, loc_text_cons.
  by apply (join_pieces_snoc ([] :: x :: d)).
Qed.

(** The text of a location other than the root does not end in a slash. *)
Lemma loc_text_last l b : Forall good_name l → l ≠ [] → last (loc_text l) = Some b → b ≠ SLASH.
Proof.
  destruct l as [|n l] using rev_ind; [done|]. intros [_ [Hn _]%Forall_cons]%Forall_app _.
  destruct n as [|c n _] using rev_ind; [by apply good_name_nonempty in Hn|].
  assert (∃ x, loc_text (l ++ [n ++ [c]]) = (x ++ [c])%list) as [x ->].
  { destruct (decide (l = [])) as [->|Hl].
    - exists (SLASH :: n). cbn [app]. by rewrite loc_text_cons.
    - exists (loc_text l ++ SLASH :: n)%list. rewrite loc_text_entry by done. by rewrite <- app_assoc. }
  rewrite last_snoc. intros [= ->] ->. destruct Hn as (_ & Hs & _). apply Hs, in_app_iff. right. by left.
Qed.

Lemma path_join_loc l n :
  Forall good_name l → good_name n → path_join (loc_text l) n = loc_text (l ++ [n]).
Proof.
  intros Hl Hn. unfold path_join, is_absolute. rewrite good_name_root by done.
  destruct (decide (l = [])) as [->|Hne]; [cbn [app]; by rewrite loc_text_cons|].
  rewrite loc_text_entry by done. destruct (last (loc_text l)) as [b|] eqn:E.
  - by apply loc_text_last, N.eqb_neq in E as ->.
  - apply last_None in E. pose proof (loc_text_root l). by rewrite E in *.
Qed.

Lemma last_components d n :
  Forall good_name (d ++ [n]) → last (components (loc_text (d ++ [n]))) = Some (Normal n).
Proof.
  intros Hl. rewrite components_loc_text, map_app, app_comm_cons by done. apply last_snoc.
Qed.

Lemma file_name_loc d n : Forall good_name (d ++ [n]) → file_name (loc_text (d ++ [n])) = Some n.
Proof. intros Hl. unfold file_name. by rewrite last_components. Qed.

Lemma path_parent_loc d n :
  Forall good_name (d ++ [n]) → path_parent (loc_text (d ++ [n])) = Some (loc_text d).
Proof.
  intros Hl. unfold path_parent. rewrite last_components, components_loc_text by done.
  rewrite map_app, app_comm_cons. cbn [map]. by rewrite removelast_last.
Qed.

Lemma path_parent_top : path_parent (loc_text []) = None.
Proof. done. Qed.

Lemma map_Normal_prefix r l : map Normal r `prefix_of` map Normal l ↔ r `prefix_of` l.
Proof.
  split; [|intros [x ->]; rewrite map_app; by eexists]. revert l.
  induction r as [|n r IH]; intros l; [intros _; apply prefix_nil|]. destruct l as [|m l]; cbn.
  - intros H. by apply prefix_nil_inv in H.
  - intros H. apply prefix_cons_inv_1 in H as Hn. apply prefix_cons_inv_2 in H. injection Hn as ->.
    by apply prefix_cons, IH.
Qed.

Lemma starts_with_loc l r :
  Forall good_name l → Forall good_name r →
  path_starts_with (loc_text l) (loc_text r) = under r l.
Proof.
  intros Hl Hr. unfold path_starts_with, under. apply bool_decide_ext.
  rewrite !components_loc_text by done. rewrite <- map_Normal_prefix. split.
  - apply prefix_cons_inv_2.
  - apply prefix_cons.
Qed.

Lemma in_loc_text l n c : n ∈ l → In c n → In c (loc_text l).
Proof.
  assert (∀ l, n ∈ l → In c n → In c (join_pieces l)) as Hj.
  { clear. induction l as [|x l IH]; intros Hn Hc; [by apply not_elem_of_nil in Hn|].
    destruct (decide (l = [])) as [->|Hl]; [by apply list_elem_of_singleton in Hn as ->|].
    rewrite join_pieces_cons, in_app_iff by done. apply elem_of_cons in Hn as [->|Hn]; [by left|].
    right. right. auto. }
  destruct l as [|x l]; [by intros ?%not_elem_of_nil|]. rewrite loc_text_cons. intros Hn. apply Hj. by right.
Qed.

Lemma loc_text_no_nul l : Forall good_name l → existsb (N.eqb 0) (loc_text l) = false.
Proof.
  intros Hl. destruct l as [|n l] using rev_ind; [done|]. clear IHl. rewrite loc_text_snoc.
  apply existsb_false. intros b Hb. apply N.eqb_neq. intros <-. revert Hb.
  assert (∀ l, Forall (λ n, ~ In 0 n) l → ~ In 0 (join_pieces l)) as Hj.
  { clear. induction 1 as [|x l Hx Hl IH]; [by intros []|]. destruct (decide (l = [])) as [->|Hn]; [done|].
    rewrite join_pieces_cons by done. rewrite in_app_iff. cbn. intros [?|[?|?]]; done. }
  apply Hj. constructor; [tauto|]. eapply Forall_impl; [done|]. by intros m (_ & _ & ?).
Qed.

(** *** The temporary file *)

(** The name of the temporary file of a name. *)
Definition tmp_name (n : Name) : Name :=
  let ext := match name_extension n with
             | Some e => if valid_utf8 e then e else []
             | None => []
             end in
  (name_stem n ++ DOT :: ext ++ bytes ".new")%list.

Lemma name_stem_spec n :
  (name_stem n = n ∧ name_extension n = None)
  ∨ ∃ e, n = (name_stem n ++ DOT :: e)%list ∧ name_extension n = Some e ∧ name_stem n ≠ [].
Proof.
  unfold name_stem, name_extension. destruct (rsplit_once DOT n) as [[[|b s] e]|] eqn:E; auto.
  right. exists e. apply rsplit_once_spec in E as [-> _]. done.
Qed.

Lemma in_tmp_name n c : In c (tmp_name n) → In c n ∨ In c (bytes "..new").
Proof.
  unfold tmp_name. destruct (name_stem_spec n) as [[-> ->]|(e & Hn & -> & _)]; intros Hc.
  - apply in_app_iff in Hc as [?|?]; [by left | by right].
  - assert (In c (name_stem n) ∨ c = DOT ∨ In c e ∨ In c (bytes ".new")) as Hc'.
    { apply in_app_iff in Hc as [?|[<-|Hc]]; auto. apply in_app_iff in Hc as [Hc|?]; auto.
      destruct (valid_utf8 e); [auto | done]. }
    rewrite Hn, in_app_iff. cbn in *. destruct Hc' as [?|[->|[?|?]]]; auto.
Qed.

Lemma tmp_name_length n : (4 < length (tmp_name n))%nat.
Proof. unfold tmp_name. rewrite length_app. cbn. rewrite length_app. cbn. lia. Qed.

Lemma tmp_name_good n : good_name n → good_name (tmp_name n).
Proof.
  intros (_ & Hs & Hz). pose proof (tmp_name_length n) as Hl.
  apply good_name_intro; try (intros E; rewrite E in Hl; cbn in Hl; lia);
    intros [Hin|Hin]%in_tmp_name; try done; cbn in Hin; intuition discriminate.
Qed.

(** A name is never its own temporary name. *)
Lemma tmp_name_ne n : tmp_name n ≠ n.
Proof.
  unfold tmp_name. destruct (name_stem_spec n) as [[-> ->]|(e & Hn & -> & _)].
  - intros E. apply (f_equal length) in E. rewrite length_app in E. cbn in E. lia.
  - rewrite Hn at 2. intros E. apply app_inv_head in E. injection E as E. destruct (valid_utf8 e) eqn:Hu.
    + apply (f_equal length) in E. rewrite length_app in E. cbn in E. lia.
    + rewrite <- E in Hu. vm_compute in Hu. done.
Qed.

Lemma trimmed_loc d n : Forall good_name (d ++ [n]) → trimmed (loc_text (d ++ [n])) = loc_text (d ++ [n]).
Proof.
  intros Hl. unfold trimmed. rewrite split_loc_text, decide_False by (done || by destruct d).
  rewrite app_comm_cons, rev_app_distr. cbn [rev app drop_empty].
  apply Forall_app in Hl as [_ [(Hn & _) _]%Forall_cons]. rewrite bool_decide_eq_false_2 by (by rewrite Hn).
  rewrite loc_text_snoc. cbn [rev]. rewrite rev_app_distr, rev_involutive. done.
Qed.

Lemma temporary_loc d n :
  Forall good_name (d ++ [n]) → temporary (loc_text (d ++ [n])) = loc_text (d ++ [tmp_name n]).
Proof.
  intros Hl. unfold temporary, path_extension, with_extension. rewrite file_name_loc by done. cbn [mbind option_bind].
  rewrite trimmed_loc by done. rewrite bool_decide_eq_false_2 by (by intros [_ ?]%app_nil).
  assert (∃ x, (∀ m, loc_text (d ++ [m]) = (x ++ m)%list)) as [x Hx].
  { destruct (decide (d = [])) as [->|Hd].
    - exists [SLASH]. intros m. cbn [app]. by rewrite loc_text_cons.
    - exists (loc_text d ++ [SLASH])%list. intros m. rewrite loc_text_entry by done. by rewrite <- app_assoc. }
  rewrite !Hx. unfold tmp_name. rewrite app_assoc. f_equal.
  destruct (name_stem_spec n) as [[-> _]|(e & Hn & _ & _)].
  - rewrite Nat.sub_diag, Nat.sub_0_r. by apply take_ge.
  - generalize dependent (name_stem n). intros s ->. rewrite app_assoc. apply take_app_length'.
    rewrite !length_app. cbn. lia.
Qed.

(** ** Well-formed trees *)

Definition is_dir (fs : FS) (l : Loc) : Prop := ∃ m, fs !! l = Some (NDir m).
Definition is_link (n : Node) : bool := match n with NLink _ => true | _ => false end.

(** A node that is there and not a link. *)
Definition real (fs : FS) (l : Loc) : Prop := ∃ n, fs !! l = Some n ∧ is_link n = false.

Record fs_wf (fs : FS) : Prop := {
  wf_top : is_dir fs [];
  wf_entry : ∀ d n x, fs !! (d ++ [n])%list = Some x → good_name n ∧ is_dir fs d
}.

Lemma is_dir_real fs l : is_dir fs l → real fs l.
Proof. intros [m Hm]. by exists (NDir m). Qed.

Lemma wf_names fs l x : fs_wf fs → fs !! l = Some x → Forall good_name l.
Proof.
  intros Hwf. revert x. induction l as [|n l IH] using rev_ind; [done|]. intros x Hx.
  destruct (wf_entry fs Hwf _ _ _ Hx) as [Hn [m Hm]]. apply Forall_app. eauto.
Qed.

(** What lies above a node is a directory. *)
Lemma wf_above fs d rest x : fs_wf fs → fs !! (d ++ rest)%list = Some x → rest ≠ [] → is_dir fs d.
Proof.
  intros Hwf. revert x. induction rest as [|n rest IH] using rev_ind; [done|]. intros x Hx _.
  rewrite app_assoc in Hx. destruct (wf_entry fs Hwf _ _ _ Hx) as [_ [m Hm]].
  destruct (decide (rest = [])) as [->|Hr]; [|by eapply IH].
  rewrite app_nil_r in Hm. by exists m.
Qed.

Lemma dir_prefix fs d l : fs_wf fs → is_dir fs l → d `prefix_of` l → is_dir fs d.
Proof.
  intros Hwf [m Hm] [rest ->]. destruct (decide (rest = [])) as [->|Hr].
  - rewrite app_nil_r in Hm. by exists m.
  - by eapply wf_above.
Qed.

Lemma removelast_prefix (l : Loc) : removelast l `prefix_of` l.
Proof.
  destruct l as [|n l _] using rev_ind; [done|]. rewrite removelast_last. by exists [n].
Qed.

(** ** Resolution *)

Lemma walk_unfold how fs links cur pieces :
  walk how fs links cur pieces =
    match pieces with
    | [] => Ok cur
    | p :: rest =>
        match fs !! cur with
        | Some (NDir _) =>
            match component p with
            | None => walk how fs links cur rest
            | Some (Normal n) =>
                let e := (cur ++ [n])%list in
                let final := bool_decide (rest = []) in
                match fs !! e with
                | Some (NLink target) =>
                    if final && stops_at_link how then Ok e
                    else match links with
                         | O => Err ELOOP
                         | S links' =>
                             if bool_decide (target = []) then Err ENOENT
                             else walk how fs links' (if has_root target then [] else cur)
                                    (split SLASH target ++ rest)%list
                         end
                | Some _ => walk how fs links e rest
                | None => if final && may_miss how then Ok e else Err ENOENT
                end
            | Some _ => walk how fs links (removelast cur) rest
            end
        | Some _ => Err ENOTDIR
        | None => Err ENOENT
        end
    end.
Proof. by destruct links, pieces. Qed.

Lemma walk_skip how fs links cur p rest :
  is_dir fs cur → component p = None → walk how fs links cur (p :: rest) = walk how fs links cur rest.
Proof. intros [m Hm] Hp. by rewrite (walk_unfold _ _ _ _ (p :: rest)), Hm, Hp. Qed.

(** Through directories, a path is walked name by name. *)
Lemma walk_dirs how fs links l cur rest :
  Forall good_name l → (∀ d, d `prefix_of` l → is_dir fs (cur ++ d)) →
  walk how fs links cur (l ++ rest) = walk how fs links (cur ++ l) rest.
Proof.
  intros Hl. revert cur. induction Hl as [|n l (Hn & _) Hl IH]; intros cur Hd; [by rewrite app_nil_r|].
  cbn [app]. rewrite walk_unfold. destruct (Hd [] (prefix_nil _)) as [m Hm]. rewrite app_nil_r in Hm.
  rewrite Hm, Hn. cbn zeta. destruct (Hd [n]) as [m' ->]; [by apply prefix_cons, prefix_nil|].
  rewrite IH, <- app_assoc; [done|]. intros d Hp. rewrite <- app_assoc. by apply Hd, prefix_cons.
Qed.

Lemma walk_to_dir how fs links d rest :
  fs_wf fs → is_dir fs d → walk how fs links [] (d ++ rest) = walk how fs links d rest.
Proof.
  intros Hwf Hd. rewrite walk_dirs; [done| |].
  - destruct Hd as [m Hm]. by eapply wf_names.
  - intros x Hx. cbn. by eapply dir_prefix.
Qed.

(** The names in the pieces of a path. *)
Definition piece_name (p : list N) : option Name :=
  match component p with
  | Some (Normal n) => Some n
  | _ => None
  end.
Definition names (pieces : list (list N)) : Loc := omap piece_name pieces.

Lemma names_cons p pieces :
  names (p :: pieces) = match component p with
                        | Some (Normal n) => n :: names pieces
                        | _ => names pieces
                        end.
Proof. unfold names. cbn. unfold piece_name at 1. by destruct (component p) as [[]|]. Qed.

Lemma names_good l : Forall good_name l → names l = l.
Proof.
  induction 1 as [|n l (Hn & _) _ IH]; [done|]. by rewrite names_cons, Hn, IH.
Qed.

Definition no_link_at (fs : FS) (l : Loc) : Prop := ∀ t, fs !! l ≠ Some (NLink t).

(** A path without [..] that meets no link leads where its names say. *)
Lemma walk_straight how fs links cur pieces l :
  ~ In [DOT; DOT] pieces →
  (∀ q, q `prefix_of` names pieces → no_link_at fs (cur ++ q)) →
  walk how fs links cur pieces = Ok l → l = (cur ++ names pieces)%list.
Proof.
  revert cur. induction pieces as [|p pieces IH]; intros cur Hp Hq; rewrite walk_unfold.
  { intros [= ->]. by rewrite app_nil_r. }
  destruct (fs !! cur) as [[]|]; try done.
  rewrite names_cons in *. cbn [In] in Hp.
  destruct (component p) as [c|] eqn:Hc; [|intros Hw; apply (IH cur); [naive_solver|done|done]].
  apply component_piece in Hc as [[-> _]|[-> _]]; [naive_solver|].
  cbn zeta. assert (no_link_at fs (cur ++ [p])) as Hl by (apply Hq, prefix_cons, prefix_nil).
  destruct (fs !! (cur ++ [p])%list) as [[]|] eqn:E; try (by apply Hl in E).
  1,2: intros Hw; apply IH in Hw; [by rewrite <- app_assoc in Hw | naive_solver
    | intros q Hpre; rewrite <- app_assoc; by apply Hq, prefix_cons].
  destruct pieces; cbn; [|done]. case_match; [|done]. by intros [= <-].
Qed.

(** The directories on such a path. *)
Lemma walk_straight_dirs how fs links cur pieces l q :
  ~ In [DOT; DOT] pieces →
  (∀ q, q `prefix_of` names pieces → no_link_at fs (cur ++ q)) →
  walk how fs links cur pieces = Ok l →
  q `prefix_of` names pieces → q ≠ names pieces → is_dir fs (cur ++ q).
Proof.
  revert cur q. induction pieces as [|p pieces IH]; intros cur q Hp Hq; rewrite walk_unfold.
  { intros _ Hn Hne. by apply prefix_nil_inv in Hn. }
  destruct (fs !! cur) as [[|m|]|] eqn:Hcur; try done.
  rewrite names_cons in *. cbn [In] in Hp.
  destruct (component p) as [c|] eqn:Hc; [|intros Hw; apply (IH cur q); [naive_solver|done|done]].
  apply component_piece in Hc as [[-> _]|[-> _]]; [naive_solver|].
  cbn zeta. assert (no_link_at fs (cur ++ [p])) as Hl by (apply Hq, prefix_cons, prefix_nil).
  intros Hw Hpre Hne. destruct q as [|n q]; [rewrite app_nil_r; by exists m|].
  apply prefix_cons_inv_1 in Hpre as Hn. apply prefix_cons_inv_2 in Hpre. subst n.
  assert (q ≠ names pieces) as Hne' by congruence.
  change (p :: q) with ([p] ++ q)%list. rewrite app_assoc.
  destruct (fs !! (cur ++ [p])%list) as [[]|] eqn:E; try (by apply Hl in E).
  1,2: eapply IH; [naive_solver | | exact Hw | done | done];
    intros x Hx; rewrite <- app_assoc; by apply Hq, prefix_cons.
  destruct pieces; cbn in *; [|done]. by apply prefix_nil_inv in Hpre.
Qed.

Lemma good_no_dotdot l : Forall good_name l → ~ In [DOT; DOT] l.
Proof. rewrite List.Forall_forall. intros Hl Hin. by destruct (Hl _ Hin). Qed.

(** What is found is there and is not a link. *)
Lemma walk_found fs links cur pieces l :
  fs_wf fs → real fs cur → walk Existing fs links cur pieces = Ok l → real fs l.
Proof.
  intros Hwf. revert cur pieces. induction links as [links IHl] using (well_founded_induction lt_wf).
  intros cur pieces. revert cur. induction pieces as [|p pieces IH]; intros cur Hr; rewrite walk_unfold.
  { by intros [= <-]. }
  destruct (fs !! cur) as [[| m |]|] eqn:Hcur; try done.
  destruct (component p) as [c|] eqn:Hc; [|by apply IH].
  assert (real fs (removelast cur)) as Hup.
  { apply is_dir_real. eapply dir_prefix; [done | by exists m | apply removelast_prefix]. }
  destruct c as [| | |n]; try (by apply IH). cbn zeta.
  destruct (fs !! (cur ++ [n])%list) as [[]|] eqn:E; cbn.
  - apply IH. by eexists.
  - apply IH. by eexists.
  - rewrite andb_false_r. destruct links as [|links]; [done|]. case_bool_decide; [done|].
    apply IHl; [lia|]. destruct (has_root target); [|done]. apply is_dir_real, Hwf.
  - by rewrite andb_false_r.
Qed.

(** More links allowed do not change an answer other than [ELOOP]. *)
Lemma walk_more_links how fs links links' cur pieces r :
  (links ≤ links')%nat → r ≠ Err ELOOP →
  walk how fs links cur pieces = r → walk how fs links' cur pieces = r.
Proof.
  revert links' cur pieces. induction links as [links IHl] using (well_founded_induction lt_wf).
  intros links' cur pieces Hle Hr. revert cur. induction pieces as [|p pieces IH]; intros cur;
    rewrite walk_unfold, (walk_unfold _ _ links'); [done|].
  destruct (fs !! cur) as [[]|]; try done. destruct (component p) as [[| | |n]|]; try (by apply IH).
  cbn zeta. destruct (fs !! (cur ++ [n])%list) as [[]|]; try (by apply IH); [|done].
  destruct (_ && _); [done|]. destruct links as [|links]; [congruence|]. destruct links' as [|links']; [lia|].
  case_bool_decide; [done|]. apply (IHl links); [lia | lia | done].
Qed.

(** When a path is not found although its directory is, the entry cannot be opened there
    either, unless the links were used up on the way. *)
Lemma walk_entry_fails fs links links' cur pieces n d e :
  (links ≤ links')%nat → e ≠ ELOOP →
  walk Existing fs links cur (pieces ++ [n]) = Err e →
  walk Existing fs links cur pieces = Ok d →
  walk Existing fs links' d [n] = Err e.
Proof.
  revert links' cur pieces. induction links as [links IHl] using (well_founded_induction lt_wf).
  intros links' cur pieces Hle He. revert cur. induction pieces as [|p pieces IH]; intros cur.
  { cbn [app]. rewrite (walk_unfold _ _ _ _ []). intros Hw [= <-].
    eapply walk_more_links; [done | congruence | done]. }
  cbn [app]. rewrite walk_unfold, (walk_unfold _ _ _ _ (p :: pieces)).
  destruct (fs !! cur) as [[]|]; try done. destruct (component p) as [[| | |m]|]; try (by apply IH).
  cbn zeta. rewrite (bool_decide_eq_false_2 ((pieces ++ [n])%list = [])) by (by destruct pieces).
  cbn [andb]. destruct (fs !! (cur ++ [m])%list) as [[]|]; try (by apply IH).
  - rewrite andb_false_r. destruct links as [|links]; [done|]. case_bool_decide; [done|].
    rewrite app_assoc. apply IHl; [lia | lia | done].
  - by rewrite andb_false_r.
Qed.

(** Empty pieces and [.] make no difference unless they come last. *)
Lemma walk_drop how fs links cur front p rest :
  component p = None → rest ≠ [] →
  walk how fs links cur (front ++ p :: rest) = walk how fs links cur (front ++ rest).
Proof.
  intros Hp Hr. revert cur front. induction links as [links IHl] using (well_founded_induction lt_wf).
  intros cur front. revert cur. induction front as [|x front IH]; intros cur; cbn [app].
  - destruct rest as [|q rest]; [done|]. rewrite (walk_unfold _ _ _ _ (p :: _)), Hp.
    rewrite (walk_unfold _ _ _ _ (q :: rest)). by destruct (fs !! cur) as [[]|].
  - rewrite walk_unfold, (walk_unfold _ _ _ _ (x :: (front ++ rest)%list)).
    assert (bool_decide ((front ++ p :: rest)%list = []) = false) as ->
      by (apply bool_decide_eq_false_2; by destruct front).
    assert (bool_decide ((front ++ rest)%list = []) = false) as ->
      by (apply bool_decide_eq_false_2; intros [_ ?]%app_nil; done).
    destruct (fs !! cur) as [[]|]; try done. destruct (component x) as [[| | |n]|]; try apply IH. cbn zeta.
    destruct (fs !! (cur ++ [n])%list) as [[]|]; try apply IH; try done. cbn [andb].
    destruct links as [|links]; [done|]. case_bool_decide; [done|]. rewrite !app_assoc. apply IHl. lia.
Qed.

Definition normalize (pieces : list (list N)) : list (list N) :=
  List.filter (λ p, negb (bool_decide (component p = None))) pieces.

Lemma walk_normalize how fs links cur front pieces n :
  walk how fs links cur (front ++ pieces ++ [n]) = walk how fs links cur (front ++ normalize pieces ++ [n]).
Proof.
  revert front. induction pieces as [|p pieces IH]; intros front; [done|]. cbn.
  case_bool_decide as Hp; cbn.
  - rewrite walk_drop by (done || by destruct pieces). apply IH.
  - change (p :: ?x) with ([p] ++ x)%list. rewrite !app_assoc. rewrite <- !(app_assoc (front ++ [p])). apply IH.
Qed.

Lemma normalize_names pieces : ~ In [DOT; DOT] pieces → normalize pieces = names pieces.
Proof.
  unfold normalize. induction pieces as [|p pieces IH]; [done|]. intros Hp. rewrite names_cons. cbn. case_bool_decide as Hc; cbn.
  - rewrite Hc. apply IH. naive_solver.
  - destruct (component p) as [c|] eqn:E; [|done]. apply component_piece in E as [[-> _]|[-> _]]; [naive_solver|].
    rewrite IH by naive_solver. done.
Qed.

(** A path that goes on after a node that was found goes on from there. *)
Lemma walk_continue fs links cur pieces rest l :
  walk Existing fs links cur pieces = Ok l →
  ∃ links', walk Existing fs links cur (pieces ++ rest) = walk Existing fs links' l rest.
Proof.
  revert cur pieces. induction links as [links IHl] using (well_founded_induction lt_wf).
  intros cur pieces. revert cur. induction pieces as [|p pieces IH]; intros cur; cbn [app];
    rewrite walk_unfold; [intros [= <-]; by eexists|].
  rewrite (walk_unfold _ _ _ _ (p :: (pieces ++ rest)%list)). destruct (fs !! cur) as [[]|]; try done.
  destruct (component p) as [[| | |n]|]; try apply IH. cbn zeta. destruct (fs !! (cur ++ [n])%list) as [[]|]; try apply IH.
  - rewrite !andb_false_r. destruct links as [|links]; [done|]. case_bool_decide; [done|].
    rewrite app_assoc. apply IHl. lia.
  - by rewrite andb_false_r.
Qed.

(** Through directories, any spelling of a path is found. *)
Lemma walk_raw_dirs how fs links cur pieces :
  ~ In [DOT; DOT] pieces → (∀ q, q `prefix_of` names pieces → is_dir fs (cur ++ q)) →
  walk how fs links cur pieces = Ok (cur ++ names pieces)%list.
Proof.
  revert cur. induction pieces as [|p pieces IH]; intros cur Hp Hq; rewrite walk_unfold; [by rewrite app_nil_r|].
  destruct (Hq [] (prefix_nil _)) as [m Hm]. rewrite app_nil_r in Hm. rewrite Hm, names_cons in *. cbn [In] in Hp.
  destruct (component p) as [c|] eqn:Hc; [|apply IH; [naive_solver | done]].
  apply component_piece in Hc as [[-> _]|[-> _]]; [naive_solver|]. cbn zeta.
  destruct (Hq [p]) as [m' ->]; [by apply prefix_cons, prefix_nil|]. rewrite IH, <- app_assoc; [done | naive_solver|].
  intros q Hpre. rewrite <- app_assoc. by apply Hq, prefix_cons.
Qed.
