(* ===== verification/FilesSafety.v ===== *)
(** * What the file manager touches

    A document root is [clear] when directories lead to it and no link lies on the way to it
    or inside it.  On such a
    root every path of the file manager resolves to the names it spells, and every call
    changes nodes under the root only ([safe]). *)
From S2P Require Import Prelude Text AuditActions AuditLog Accounts Paths CronJobs HostingTables Store Users Sites FileSystem Files FileTree.
Open Scope N_scope.

(** ** Paths of the file manager *)

Definition rel_names (p : RelPath) : Loc := names (split SLASH (bytes p)).

Lemma check_components_ok cs : check_components cs = Ok tt ↔ ~ In ParentDir cs ∧ ~ In RootDir cs.
Proof. induction cs as [|[] cs IH]; cbn; naive_solver. Qed.

Lemma bytes_nil s : bytes s = [] → s = "".
Proof. intros Hs. rewrite <- (of_bytes_bytes s), Hs. done. Qed.

Lemma starts_with_slash s : starts_with s "/" = has_root (bytes s).
Proof. unfold starts_with. destruct (bytes s) as [|b l]; [done|]. cbn. rewrite N.eqb_sym. by rewrite andb_true_r. Qed.

(** The invariant of a [Path]. *)
Lemma path_validate_ok p :
  path_validate p = Ok tt ↔
  ~ In 0 (bytes p) ∧ has_root (bytes p) = false ∧ ~ In [DOT; DOT] (split SLASH (bytes p)).
Proof.
  unfold path_validate. case_bool_decide as Hp.
  { subst. split; [|done]. intros _. cbn. split_and!; [tauto | done|]. by intros [|[]]. }
  rewrite starts_with_slash. unfold contains_char.
  destruct (existsb (N.eqb 0) (bytes p)) eqn:Hz.
  - split; [done|]. intros (Hn & _). apply existsb_exists in Hz as (b & Hb & <-%N.eqb_eq). done.
  - assert (~ In 0 (bytes p)) as Hn.
    { intros Hin. rewrite existsb_false in Hz. specialize (Hz _ Hin). done. }
    destruct (has_root (bytes p)) eqn:Hr; [naive_solver|].
    rewrite check_components_ok, parent_component. split; [naive_solver|]. intros (_ & _ & Hd).
    split; [done|]. unfold components, leading. rewrite Hr, in_app_iff. intros [Hin|Hin].
    + destruct (split SLASH (bytes p)); [done|]. case_bool_decide; [by destruct Hin as [|[]] | done].
    + apply list_elem_of_In, list_elem_of_omap in Hin as (q & _ & Hq).
      apply component_piece in Hq as [[_ ?]|[? _]]; done.
Qed.

Lemma omap_component_names pieces :
  ~ In [DOT; DOT] pieces → omap component pieces = map Normal (names pieces).
Proof.
  induction pieces as [|p pieces IH]; [done|]. intros Hp. unfold names in *. cbn.
  unfold piece_name at 1. destruct (component p) as [c|] eqn:Hc; [|apply IH; naive_solver].
  apply component_piece in Hc as [[-> _]|[-> _]]; [naive_solver|]. cbn. by rewrite IH by naive_solver.
Qed.

Lemma names_pieces p n :
  n ∈ names (split SLASH p) → plain_name n ∧ ∀ c, In c n → In c p.
Proof.
  intros Hn. apply list_elem_of_omap in Hn as (q & Hq & Hc). unfold piece_name in Hc.
  apply list_elem_of_In in Hq.
  destruct (component q) as [c|] eqn:E; [|done]. apply component_piece in E as E'.
  destruct E' as [[-> ->]|(-> & _)]; [done|]. injection Hc as ->. split; [split; [done | by eapply split_pieces]|].
  intros c H0. apply split_infix in Hq as (x & y & Hb). rewrite Hb, !in_app_iff. auto.
Qed.
Lemma names_plain p : Forall plain_name (names (split SLASH p)).
Proof. apply Forall_forall. intros n Hn. by apply names_pieces in Hn as [? _]. Qed.

Lemma rel_names_good p : path_validate p = Ok tt → Forall good_name (rel_names p).
Proof.
  intros (Hz & _ & Hd)%path_validate_ok. apply Forall_forall. intros n Hn.
  apply names_pieces in Hn as [[? ?] Hc]. split_and!; [done | done|]. intros Hin. by apply Hz, Hc.
Qed.

(** The text that [resolve_path] asks about. *)
Definition rel_candidate (r : Loc) (p : RelPath) : list N :=
  if is_root p then loc_text r else path_join (loc_text r) (bytes p).

Lemma names_split_loc l : Forall good_name l → names (split SLASH (loc_text l)) = l.
Proof.
  intros Hl. rewrite split_loc_text by done. destruct (decide (l = [])) as [->|Hn]; [done|].
  change (names ([] :: l)) with (names l). by apply names_good.
Qed.

Lemma split_loc_no_dotdot l : Forall good_name l → ~ In [DOT; DOT] (split SLASH (loc_text l)).
Proof.
  intros Hl. rewrite split_loc_text by done. destruct (decide _); [by intros [|[|[]]]|].
  intros [|Hin]; [done|]. by apply good_no_dotdot in Hin.
Qed.

Lemma names_app l1 l2 : names (l1 ++ l2) = (names l1 ++ names l2)%list.
Proof. apply omap_app. Qed.

Lemma split_join_loc r p :
  Forall good_name r → has_root p = false → p ≠ [] →
  ∃ pre, split SLASH (path_join (loc_text r) p) = (pre ++ split SLASH p)%list
    ∧ names pre = r ∧ ~ In [DOT; DOT] pre.
Proof.
  intros Hr Hp Hne. unfold path_join, is_absolute. rewrite Hp.
  destruct (decide (r = [])) as [->|Hn].
  { exists [[]]. split_and!; [done | done | by intros [|[]]]. }
  exists (split SLASH (loc_text r)). rewrite names_split_loc by done. split_and!; [|done|].
  - destruct (last (loc_text r)) as [b|] eqn:E.
    + apply loc_text_last, N.eqb_neq in E as ->; [|done..]. apply split_cat.
    + apply last_None in E. pose proof (loc_text_root r). by rewrite E in *.
  - by apply split_loc_no_dotdot.
Qed.

(** A relative path without [..], joined to a location. *)
Lemma join_facts r p :
  Forall good_name r → has_root p = false → p ≠ [] → ~ In [DOT; DOT] (split SLASH p) →
  names (split SLASH (path_join (loc_text r) p)) = (r ++ names (split SLASH p))%list
  ∧ ~ In [DOT; DOT] (split SLASH (path_join (loc_text r) p)) ∧ has_root (path_join (loc_text r) p) = true.
Proof.
  intros Hr Hroot Hne Hd. destruct (split_join_loc r p) as (pre & -> & Hpre & Hdd); [done..|].
  rewrite names_app, Hpre, in_app_iff. split_and!; [done | tauto|].
  unfold path_join, is_absolute. rewrite Hroot. pose proof (loc_text_root r) as Hl.
  destruct (loc_text r) as [|b l]; [done|]. destruct (last (b :: l)) eqn:E; [by case_match|].
  by apply last_None in E.
Qed.

Lemma candidate_facts r p :
  Forall good_name r → path_validate p = Ok tt →
  names (split SLASH (rel_candidate r p)) = (r ++ rel_names p)%list
  ∧ ~ In [DOT; DOT] (split SLASH (rel_candidate r p)) ∧ has_root (rel_candidate r p) = true.
Proof.
  intros Hr Hv. apply path_validate_ok in Hv as (_ & Hroot & Hd). unfold rel_candidate, is_root.
  case_bool_decide as Hp.
  - subst. rewrite names_split_loc, app_nil_r by done. split_and!; [done | by apply split_loc_no_dotdot | apply loc_text_root].
  - apply join_facts; [done..|by intros ?%bytes_nil|done].
Qed.

Lemma candidate_components r p :
  Forall good_name r → path_validate p = Ok tt →
  components (rel_candidate r p) = components (loc_text (r ++ rel_names p)).
Proof.
  intros Hr Hv. destruct (candidate_facts r p Hr Hv) as (Hn & Hd & Hroot).
  rewrite components_loc_text by (apply Forall_app; auto using rel_names_good).
  unfold components, leading. rewrite Hroot, omap_component_names, Hn by done. done.
Qed.

Lemma path_parent_ext p q : components p = components q → path_parent p = path_parent q.
Proof. unfold path_parent. by intros ->. Qed.
Lemma file_name_ext p q : components p = components q → file_name p = file_name q.
Proof. unfold file_name. by intros ->. Qed.

(** ** Two-state properties of the tree *)

Definition on_fs (R : relation FS) : relation FilesWorld := λ w w', R (fw_fs w) (fw_fs w').

#[export] Instance on_fs_preorder (R : relation FS) : PreOrder R → PreOrder (on_fs R).
Proof. intros [HR HT]; split; repeat intro; unfold on_fs in *; [apply HR | eapply HT; eauto]. Qed.

Section frames.
Context `{Env} `{FsEnv}.

Lemma on_fs_world {E A : Type} (R : relation FS) `{!Reflexive R} (c : M World E A) :
  within (on_fs R) (on_world c).
Proof. intros w. unfold on_world, on_fs. destruct (c (fw_world w)). cbn. done. Qed.

Lemma on_fs_sys_partial {A : Type} (R : relation FS) (partial : nat → FS → FS) (f : nat → FS → result A errno * FS) :
  (∀ k fs, R fs (partial k fs)) → (∀ k fs, R fs (f k fs).2) → within (on_fs R) (sys_partial partial f).
Proof.
  intros Hp Hf w. unfold sys_partial, on_fs. destruct (fs_fault _); [apply Hp|].
  specialize (Hf (w_step (fw_world w)) (fw_fs w)). destruct (f _ _). done.
Qed.

Lemma on_fs_sys {A : Type} (R : relation FS) `{!Reflexive R} (f : nat → FS → result A errno * FS) :
  (∀ k fs, R fs (f k fs).2) → within (on_fs R) (sys f).
Proof. intros Hf. by apply on_fs_sys_partial. Qed.

Lemma on_fs_query {A : Type} (R : relation FS) `{!Reflexive R} (f : nat → FS → result A errno) :
  within (on_fs R) (fs_query f).
Proof. by apply on_fs_sys. Qed.

Lemma on_fs_canonicalize (R : relation FS) `{!Reflexive R} (p : list N) : within (on_fs R) (canonicalize p).
Proof. intros w. unfold canonicalize, on_fs. by destruct (realpath_fault _). Qed.

(** The calls that read. *)
Lemma on_fs_reads (R : relation FS) `{!Reflexive R} (p : list N) :
  within (on_fs R) (fs_metadata p) ∧ within (on_fs R) (entry_metadata p)
  ∧ within (on_fs R) (fs_read_dir p) ∧ within (on_fs R) (fs_read p) ∧ within (on_fs R) next_entry.
Proof. split_and!; by apply on_fs_query. Qed.

Lemma on_fs_tests {E : Type} (R : relation FS) `{!PreOrder R} (p : list N) :
  within (on_fs R) (is_dir_path (E:=E) p) ∧ within (on_fs R) (exists_path (E:=E) p).
Proof.
  destruct (on_fs_reads R p) as [Hm _]. unfold is_dir_path, exists_path. split; within_tac.
Qed.
End frames.

#[export] Hint Extern 1 (within _ (on_world _)) => apply on_fs_world; typeclasses eauto : within.
#[export] Hint Extern 1 (within _ (canonicalize _)) => apply on_fs_canonicalize; typeclasses eauto : within.
#[export] Hint Extern 1 (within _ (fs_metadata _)) => apply on_fs_reads; typeclasses eauto : within.
#[export] Hint Extern 1 (within _ (entry_metadata _)) => apply on_fs_reads; typeclasses eauto : within.
#[export] Hint Extern 1 (within _ (fs_read_dir _)) => apply on_fs_reads; typeclasses eauto : within.
#[export] Hint Extern 1 (within _ (fs_read _)) => apply on_fs_reads; typeclasses eauto : within.
#[export] Hint Extern 1 (within _ next_entry) => apply (on_fs_reads _ []); typeclasses eauto : within.
#[export] Hint Extern 1 (within _ (is_dir_path _)) => apply on_fs_tests; typeclasses eauto : within.
#[export] Hint Extern 1 (within _ (exists_path _)) => apply on_fs_tests; typeclasses eauto : within.

(** ** Clear roots *)

Definition unlinked (fs : FS) (r : Loc) : Prop :=
  ∀ q, q `prefix_of` r ∨ r `prefix_of` q → no_link_at fs q.

Record clear (fs : FS) (r : Loc) : Prop := {
  clear_above : ∀ q, q `prefix_of` r → q ≠ r → is_dir fs q;
  clear_links : unlinked fs r
}.

(** Nothing outside [r] changes, and [r] stays clear. *)
Definition safe (r : Loc) : relation FS := λ fs fs',
  clear fs r → clear fs' r ∧ ∀ l, under r l = false → fs' !! l = fs !! l.

#[export] Instance safe_preorder r : PreOrder (safe r).
Proof.
  split; [by intros fs Hc|]. intros f1 f2 f3 H12 H23 Hc. destruct (H12 Hc) as [Hc2 E12].
  destruct (H23 Hc2) as [Hc3 E23]. split; [done|]. intros l Hl. by rewrite E23, E12.
Qed.

Lemma under_true r l : under r l = true ↔ r `prefix_of` l.
Proof. unfold under. apply bool_decide_eq_true. Qed.

(** The directories above a root are outside it. *)
Lemma above_outside r q : q `prefix_of` r → q ≠ r → under r q = false.
Proof.
  intros Hq Hne. destruct (under r q) eqn:E; [|done]. apply under_true in E. destruct Hne. by apply (anti_symm prefix).
Qed.

Lemma safe_clear r fs fs' :
  clear fs r → (∀ q, q `prefix_of` r ∨ r `prefix_of` q → no_link_at fs' q) →
  (∀ l, under r l = false → fs' !! l = fs !! l) →
  clear fs' r ∧ ∀ l, under r l = false → fs' !! l = fs !! l.
Proof.
  intros Hc Hl Hf. split; [|done]. split; [|done]. intros q Hq Hne. unfold is_dir.
  rewrite Hf by (by apply above_outside). by apply (clear_above fs r).
Qed.

(** A change is safe when what it writes under the root is not a link. *)
Lemma safe_intro r fs fs' :
  (clear fs r → ∀ l, fs' !! l = fs !! l ∨ (r `prefix_of` l ∧ no_link_at fs' l)) → safe r fs fs'.
Proof.
  intros Hf Hc. apply safe_clear; [done| |].
  - intros q Hq. destruct (Hf Hc q) as [E|[_ ?]]; [|done]. intros t. rewrite E. by apply Hc.
  - intros l Hl. destruct (Hf Hc l) as [E|[Hp _]]; [done|]. apply under_true in Hp. congruence.
Qed.

Lemma safe_insert r fs l n :
  r `prefix_of` l → is_link n = false → safe r fs (<[l := n]> fs).
Proof.
  intros Hp Hn. apply safe_intro. intros _ q. destruct (decide (q = l)) as [->|Hne].
  - right. split; [done|]. intros t. rewrite lookup_insert_eq. intros [= ->]. done.
  - left. by rewrite lookup_insert_ne.
Qed.

Lemma safe_delete r fs l : r `prefix_of` l → safe r fs (delete l fs).
Proof.
  intros Hp. apply safe_intro. intros _ q. destruct (decide (q = l)) as [->|Hne].
  - right. split; [done|]. intros t. by rewrite lookup_delete_eq.
  - left. by rewrite lookup_delete_ne.
Qed.

Lemma safe_replace r fs old new n :
  r `prefix_of` old → r `prefix_of` new → is_link n = false → safe r fs (<[new := n]> (delete old fs)).
Proof. intros Ho Hn Hl. transitivity (delete old fs); [by apply safe_delete | by apply safe_insert]. Qed.

(** Removing nodes under the root. *)
Lemma safe_filter r fs (P : Loc * Node → Prop) `{∀ x, Decision (P x)} :
  (∀ l n, under r l = false → P (l, n)) → safe r fs (filter P fs).
Proof.
  intros HP. apply safe_intro. intros Hc l. destruct (under r l) eqn:Hu.
  - apply under_true in Hu. right. split; [done|]. intros t [E _]%map_lookup_filter_Some.
    by apply (clear_links fs r Hc l (or_intror Hu) t).
  - left. destruct (fs !! l) as [n|] eqn:E.
    + apply map_lookup_filter_Some. auto.
    + apply map_lookup_filter_None. by left.
Qed.

Lemma moved_lookup old new fs l n :
  moved old new fs !! l = Some n → new `prefix_of` l ∧ ∃ l', old `prefix_of` l' ∧ fs !! l' = Some n.
Proof.
  intros Hl%elem_of_list_to_map_2. apply list_elem_of_fmap in Hl as ([l' n'] & [= -> ->] & Hin).
  apply list_elem_of_filter in Hin as [Hu Hin]. cbn in *. apply elem_of_map_to_list in Hin.
  apply under_true in Hu. split; [by eexists | eauto].
Qed.

Lemma move_tree_lookup old new fs l n :
  move_tree old new fs !! l = Some n →
  (new `prefix_of` l ∧ ∃ l', old `prefix_of` l' ∧ fs !! l' = Some n) ∨ fs !! l = Some n.
Proof.
  intros [E|[_ E]]%lookup_union_Some_raw; [left; by apply moved_lookup|].
  apply map_lookup_filter_Some in E as [E _]. by right.
Qed.

Lemma move_tree_elsewhere old new fs l :
  under old l = false → under new l = false → move_tree old new fs !! l = fs !! l.
Proof.
  intros Ho Hn. unfold move_tree. rewrite lookup_union_r.
  - destruct (fs !! l) as [n|] eqn:E.
    + apply map_lookup_filter_Some. split_and!; [done | done|]. cbn. intros ->.
      by rewrite (proj2 (under_true new new)) in Hn.
    + apply map_lookup_filter_None. by left.
  - destruct (moved old new fs !! l) eqn:E; [|done]. apply moved_lookup in E as [Hp _].
    apply under_true in Hp. congruence.
Qed.

Lemma under_trans_false r l q : r `prefix_of` l → under r q = false → under l q = false.
Proof.
  intros Hr Hq. destruct (under l q) eqn:E; [|done]. apply under_true in E.
  rewrite (proj2 (under_true r q)) in Hq; [done | by etrans].
Qed.

Lemma safe_move r fs old new :
  r `prefix_of` old → r `prefix_of` new → safe r fs (move_tree old new fs).
Proof.
  intros Ho Hn Hc. apply safe_clear; [done| |].
  - intros q Hq t [(_ & l' & Hl' & E)|E]%move_tree_lookup; [|by apply (clear_links fs r Hc q Hq t)].
    assert (r `prefix_of` l') as Hp by (by transitivity old). by apply (clear_links fs r Hc l' (or_intror Hp) t).
  - intros l Hl. apply move_tree_elsewhere; by eapply under_trans_false.
Qed.

(** ** The calls on a clear root *)

Section calls.
Context `{Env} `{FsEnv}.

Lemma unlinked_path fs r l q : unlinked fs r → r `prefix_of` l ∨ l `prefix_of` r → q `prefix_of` l → no_link_at fs q.
Proof.
  intros Hc [Hr|Hr] Hq; apply Hc; [|left; by etrans].
  destruct (prefix_weak_total q r l Hq Hr); auto.
Qed.

(** Without links a path without [..] is where its names say. *)
Lemma locate_clear how fs r p l :
  unlinked fs r → has_root p = true → ~ In [DOT; DOT] (split SLASH p) →
  r `prefix_of` names (split SLASH p) ∨ names (split SLASH p) `prefix_of` r →
  locate how fs p = Ok l → l = names (split SLASH p).
Proof.
  intros Hc Hp Hd Hr. unfold locate. rewrite Hp. destruct (existsb _ p); [done|]. case_bool_decide; [done|].
  intros Hw. apply walk_straight in Hw; [done | done|]. intros q Hq. by eapply unlinked_path.
Qed.

Lemma locate_loc_clear how fs r l l' :
  unlinked fs r → Forall good_name l → r `prefix_of` l ∨ l `prefix_of` r →
  locate how fs (loc_text l) = Ok l' → l' = l.
Proof.
  intros Hc Hl Hr Hw. apply (locate_clear _ _ r) in Hw; [by rewrite names_split_loc in Hw | done | apply loc_text_root| |].
  - by apply split_loc_no_dotdot.
  - by rewrite names_split_loc.
Qed.

(** A root that is found is clear. *)
Lemma locate_root_clear fs r l :
  unlinked fs r → Forall good_name r → locate Existing fs (loc_text r) = Ok l → l = r ∧ clear fs r.
Proof.
  intros Hu Hr Hw. split; [eapply locate_loc_clear; [done | done | by left | done]|]. split; [|done]. intros q Hq Hne.
  unfold locate in Hw. rewrite loc_text_root in Hw. destruct (existsb _ _); [done|]. case_bool_decide; [done|].
  change q with ([] ++ q)%list.
  eapply walk_straight_dirs; [by apply split_loc_no_dotdot | | exact Hw | by rewrite names_split_loc..].
  rewrite names_split_loc by done. intros x Hx. apply Hu. by left.
Qed.

Lemma node_at_clear how fs r l l' n :
  unlinked fs r → Forall good_name l → r `prefix_of` l → node_at how fs (loc_text l) = Ok (l', n) →
  l' = l ∧ fs !! l = Some n ∧ is_link n = false.
Proof.
  intros Hc Hl Hr. unfold node_at. destruct (locate how fs (loc_text l)) as [l2|] eqn:E; cbn; [|done].
  eapply locate_loc_clear in E as ->; [|done..|by left]. destruct (fs !! l) as [m|] eqn:En; [|done].
  intros [= <- <-]. split_and!; [done | done|]. destruct m; [done..|]. exfalso. by apply (Hc l (or_intror Hr) target).
Qed.

Variable (r : Loc).
Abbreviation ok l := (Forall good_name l ∧ r `prefix_of` l).
Abbreviation inside c := (within (on_fs (safe r)) c).

(** A change that is safe once the root is known to be clear. *)
Lemma safe_if_clear fs fs' : (clear fs r → safe r fs fs') → safe r fs fs'.
Proof. intros Hs Hc. by apply Hs. Qed.

(** A file written under a path without [..] that leads below the root. *)
Definition leads_below (p : list N) : Prop :=
  has_root p = true ∧ ~ In [DOT; DOT] (split SLASH p) ∧ r `prefix_of` names (split SLASH p).

Lemma loc_leads_below l : ok l → leads_below (loc_text l).
Proof.
  intros [Hl Hr]. split_and!; [apply loc_text_root | by apply split_loc_no_dotdot | by rewrite names_split_loc].
Qed.

Lemma put_file_safe t p content fs : leads_below p → safe r fs (put_file t p content fs).2.
Proof.
  intros (Hp & Hd & Hr). apply safe_if_clear. intros Hc. unfold put_file.
  destruct (locate Creating fs p) as [l|] eqn:E; [|done].
  apply (locate_clear _ _ r) in E as ->; [|by apply clear_links|done|done|by left].
  destruct (fs !! _) as [[]|]; cbn; try done; by apply safe_insert.
Qed.

Lemma fs_write_below p content : leads_below p → inside (fs_write p content).
Proof.
  intros Hp. apply on_fs_sys_partial; intros k fs; [|by apply put_file_safe].
  destruct (written k); [by apply put_file_safe | done].
Qed.
Lemma fs_write_safe l content : ok l → inside (fs_write (loc_text l) content).
Proof. intros Hl. by apply fs_write_below, loc_leads_below. Qed.

Lemma fs_set_permissions_safe l mode : ok l → inside (fs_set_permissions (loc_text l) mode).
Proof.
  intros [Hl Hr]. apply on_fs_sys; [apply _|]. intros k fs. apply safe_if_clear. intros Hc.
  destruct (node_at Existing fs (loc_text l)) as [[l2 n]|] eqn:E; cbn; [|done].
  eapply node_at_clear in E as (-> & _ & Hn); [|by apply clear_links|done..]. apply safe_insert; [done|]. by destruct n.
Qed.

(** [mkdir] on the way to the root finds a directory there. *)
Lemma fs_mkdir_safe l :
  Forall good_name l → r `prefix_of` l ∨ l `prefix_of` r → inside (fs_mkdir (loc_text l)).
Proof.
  intros Hl Hr. apply on_fs_sys; [apply _|]. intros k fs. apply safe_if_clear. intros Hc.
  destruct (locate Entry fs (loc_text l)) as [l2|] eqn:E; [|done].
  eapply locate_loc_clear in E as ->; [|by apply clear_links|done|done]. destruct (fs !! l) eqn:El; [done|].
  apply safe_insert; [|done]. destruct Hr as [|Hr]; [done|]. destruct (decide (l = r)) as [->|Hne]; [done|].
  destruct (clear_above fs r Hc l Hr Hne) as [m Hm]. congruence.
Qed.

(** A name with a null byte is not found. *)
Lemma fs_mkdir_plain l :
  Forall plain_name l → r `prefix_of` l ∨ l `prefix_of` r → inside (fs_mkdir (loc_text l)).
Proof.
  intros Hl Hr. destruct (existsb (N.eqb 0) (loc_text l)) eqn:Hz.
  - apply on_fs_sys; [apply _|]. intros k fs. unfold locate. by rewrite Hz.
  - apply fs_mkdir_safe; [|done]. apply Forall_forall. intros n Hn. rewrite Forall_forall in Hl.
    destruct (Hl n Hn). split_and!; [done | done|]. intros Hin.
    rewrite existsb_false in Hz. specialize (Hz 0 (in_loc_text l n 0 Hn Hin)). done.
Qed.

Lemma rev_components (l : Loc) (n : Name) :
  rev (RootDir :: map Normal (l ++ [n])) = Normal n :: rev (RootDir :: map Normal l).
Proof. rewrite map_app, app_comm_cons, rev_app_distr. done. Qed.

Lemma create_dirs_cons (l : Loc) (n : Name) :
  create_dirs (Normal n :: rev (RootDir :: map Normal l)) =
    (r <- try_run (fs_mkdir (loc_text (l ++ [n]))) ;;
     match r with
     | Ok _ => ret tt
     | Err e =>
         if is_not_found e then
           create_dirs (rev (RootDir :: map Normal l)) ;;;
           again <- try_run (fs_mkdir (loc_text (l ++ [n]))) ;;
           match again with
           | Ok _ => ret tt
           | Err e' => d <- is_dir_path (loc_text (l ++ [n])) ;; if (d : bool) then ret tt else throw e'
           end
         else d <- is_dir_path (loc_text (l ++ [n])) ;; if (d : bool) then ret tt else throw e
     end).
Proof.
  assert (render (rev (Normal n :: rev (RootDir :: map Normal l))) = loc_text (l ++ [n])) as <-; [|done].
  by rewrite <- rev_components, rev_involutive.
Qed.

(** Directories are made by [mkdir] on the way down. *)
Lemma create_dirs_each (R : relation FS) `{!PreOrder R} l :
  (∀ q, q `prefix_of` l → within (on_fs R) (fs_mkdir (loc_text q))) →
  within (on_fs R) (create_dirs (rev (RootDir :: map Normal l))).
Proof using.
  induction l as [|n l IH] using rev_ind; intros Hq; pose proof (Hq _ (reflexivity _)).
  - cbn [map rev app create_dirs]. change (render [RootDir]) with (loc_text []). within_tac.
  - rewrite rev_components, create_dirs_cons.
    assert (within (on_fs R) (create_dirs (rev (RootDir :: map Normal l)))) as Hi.
    { apply IH. intros q Hp. apply Hq. by apply prefix_app_r. }
    within_tac.
Qed.

Lemma create_dir_all_plain l :
  Forall plain_name l → r `prefix_of` l ∨ l `prefix_of` r → inside (create_dir_all (loc_text l)).
Proof.
  intros Hl Hr. unfold create_dir_all. rewrite components_loc_plain by done.
  apply create_dirs_each; [apply _|]. intros q Hq. apply fs_mkdir_plain.
  - destruct Hq as [x ->]. by apply Forall_app in Hl as [? _].
  - destruct Hr as [Hr|Hr]; [|right; by etrans]. destruct (prefix_weak_total q r l); auto.
Qed.

Lemma create_dir_all_safe l :
  Forall good_name l → r `prefix_of` l ∨ l `prefix_of` r → inside (create_dir_all (loc_text l)).
Proof. intros Hl. by apply create_dir_all_plain, good_plain. Qed.

Lemma fs_remove_file_safe l : ok l → inside (fs_remove_file (loc_text l)).
Proof.
  intros [Hl Hr]. apply on_fs_sys; [apply _|]. intros k fs. apply safe_if_clear. intros Hc.
  destruct (node_at Entry fs (loc_text l)) as [[l2 n]|] eqn:E; cbn; [|done].
  eapply node_at_clear in E as (-> & _ & Hn); [|by apply clear_links|done..]. destruct n; cbn; [by apply safe_delete | done | by apply safe_delete].
Qed.

Lemma fs_remove_dir_all_safe l : ok l → inside (fs_remove_dir_all (loc_text l)).
Proof.
  intros [Hl Hr]. apply on_fs_sys_partial; intros k fs; apply safe_if_clear; intros Hc;
    (destruct (node_at Entry fs (loc_text l)) as [[l2 n]|] eqn:E; [|done]);
    (eapply node_at_clear in E as (-> & _ & Hn); [|by apply clear_links|done..]); destruct n; try done; cbn.
  - apply safe_filter. intros q x Hq. left. by eapply under_trans_false.
  - assert (safe r fs (remove_tree l fs)) as Hs.
    { apply safe_filter. intros q x Hq. by eapply under_trans_false. }
    case_bool_decide as El; [|done]. cbn. etrans; [exact Hs|]. apply safe_insert; [|done]. by rewrite <- El.
Qed.

Lemma fs_rename_safe l1 l2 : ok l1 → ok l2 → inside (fs_rename (loc_text l1) (loc_text l2)).
Proof.
  intros [Hl1 Hr1] [Hl2 Hr2]. apply on_fs_sys; [apply _|]. intros k fs. apply safe_if_clear. intros Hc.
  destruct (node_at Entry fs (loc_text l1)) as [[old n]|] eqn:E1; [|done].
  destruct (locate Entry fs (loc_text l2)) as [new|] eqn:E2; [|done].
  eapply node_at_clear in E1 as (-> & _ & Hn); [|by apply clear_links|done..]. eapply locate_loc_clear in E2 as ->; [|by apply clear_links|done|by left].
  case_bool_decide; [done|]. unfold rename_node. destruct (_ || _); [done|]. destruct (under l1 l2); [done|].
  destruct (under l2 l1); [done|].
  destruct n; [| |done]; destruct (fs !! l2) as [[]|]; try destruct (is_empty_dir fs l2); cbn;
    first [done | by apply safe_replace | by apply safe_move].
Qed.

(** ** The repository on a clear root *)

Lemma within_bind_clear {E A B : Type} (c : M FilesWorld E A) (k : A → M FilesWorld E B) :
  inside c → (∀ w a w', clear (fw_fs w) r → c w = (Ok a, w') → inside (k a)) → inside (bind c k).
Proof.
  intros Hi Hk w Hcl. refine (bind_at (on_fs (safe r)) c k w (Hi w) _ Hcl).
  intros a w' E'. by eapply Hk.
Qed.

Lemma canonicalize_ok p w q w' :
  canonicalize p w = (Ok q, w') → ∃ l, locate Existing (fw_fs w) p = Ok l ∧ q = loc_text l ∧ fw_fs w' = fw_fs w.
Proof.
  unfold canonicalize. destruct (realpath_fault _); [done|]. destruct (locate _ _ p) as [l|]; cbn; [|done].
  intros [= <- <-]. by exists l.
Qed.

Lemma resolve_path_same p q : within (same fw_fs) (resolve_path p q).
Proof.
  unfold resolve_path, resolve_missing.
  assert (∀ x, within (same fw_fs) (canonicalize x)) as Hx
    by (intros x w; unfold canonicalize, same; by destruct (realpath_fault _)).
  within_tac.
Qed.

Lemma resolve_path_inside p q : inside (resolve_path p q).
Proof. intros w. unfold on_fs. rewrite (resolve_path_same p q w). done. Qed.

(** The two ways a path resolves: it is found, or its directory is and the name is added. *)
Lemma resolve_cases chroot p w abs w' :
  resolve_path chroot p w = (Ok abs, w') →
  let cand := if is_root p then chroot else path_join chroot (bytes p) in
  path_starts_with abs chroot = true ∧
  ((∃ l, locate Existing (fw_fs w) cand = Ok l ∧ abs = loc_text l)
   ∨ (∃ parent base l, path_parent cand = Some parent ∧ file_name cand = Some base
        ∧ ((∃ e, realpath_fault (w_step (fw_world w)) = Some e) ∨ ∃ e, locate Existing (fw_fs w) cand = Err e)
        ∧ locate Existing (fw_fs w) parent = Ok l ∧ abs = path_join (loc_text l) base)).
Proof.
  unfold resolve_path. intros Hrun. set (cand := if is_root p then chroot else path_join chroot (bytes p)) in *.
  inv_bind Hrun. inv_bind Hrun. rename a0 into canonical.
  destruct (path_starts_with canonical chroot) eqn:Hs; [|done]. cbn in Hrun. injection Hrun as -> <-. split; [done|].
  unfold attempt in R. destruct (canonicalize cand w) as [[q|e] w2] eqn:E; injection R as <- <-.
  - injection R0 as <- <-. apply canonicalize_ok in E as (l & E & -> & _). left. eauto.
  - right. unfold resolve_missing in R0.
    apply bind_ok in R0 as (parent & v1 & [Hp ->]%ok_or_ok & R0). apply bind_ok in R0 as (base & v2 & [Hb ->]%ok_or_ok & R0).
    apply bind_ok in R0 as (pc & v3 & (l & E' & -> & _)%map_err_ok%canonicalize_ok & [= <- <-]).
    exists parent, base, l. unfold canonicalize in E.
    destruct (realpath_fault _) as [x|]; injection E as E <-; (split_and!; [done | done | | done | done]); [eauto|].
    destruct (locate Existing (fw_fs w) cand) as [l'|e']; [done | eauto].
Qed.

(** A path resolves to its names below the root, whether or not the file exists. *)
Lemma resolve_clear p w abs w' :
  Forall good_name r → unlinked (fw_fs w) r → path_validate p = Ok tt →
  resolve_path (loc_text r) p w = (Ok abs, w') → abs = loc_text (r ++ rel_names p).
Proof.
  intros Hr Hc Hv [_ Hcase]%resolve_cases. fold (rel_candidate r p) in Hcase.
  destruct (candidate_facts r p Hr Hv) as (Hn & Hd & Hroot). pose proof (candidate_components r p Hr Hv) as Hcs.
  pose proof (rel_names_good p Hv) as Hg. assert (Forall good_name (r ++ rel_names p)) as Hgl by (by apply Forall_app).
  destruct Hcase as [(l & E & ->)|(parent & base & l' & Hp & Hb & _ & E & ->)].
  - apply (locate_clear _ _ r) in E as ->; [by rewrite Hn | done | done | done|]. rewrite Hn. left. by eexists.
  - rewrite (path_parent_ext _ _ Hcs) in Hp. rewrite (file_name_ext _ _ Hcs) in Hb.
    destruct (r ++ rel_names p)%list as [|n l _] eqn:El using rev_ind; [done|].
    rewrite path_parent_loc in Hp by done. rewrite file_name_loc in Hb by done. injection Hp as <-. injection Hb as <-.
    apply Forall_app in Hgl as Hgl'. destruct Hgl' as [Hl [Hn1 _]%Forall_cons].
    eapply (locate_loc_clear _ _ r) in E as ->; [by apply path_join_loc | done | done|].
    destruct (prefix_weak_total r l (l ++ [n])); [rewrite <- El; by eexists | by eexists | auto..].
Qed.

Hypothesis root_good : Forall good_name r.
Variable (p : RelPath) (valid : path_validate p = Ok tt).

Lemma names_ok : ok (r ++ rel_names p).
Proof using root_good valid.
  split; [|by eexists]. apply Forall_app. auto using rel_names_good.
Qed.

Lemma bind_resolve {A : Type} (k : list N → M FilesWorld FileError A) :
  inside (k (loc_text (r ++ rel_names p))) → inside (bind (resolve_path (loc_text r) p) k).
Proof using root_good valid.
  intros Hk. apply within_bind_clear; [apply resolve_path_inside|]. intros w abs w' Hc E.
  by apply resolve_clear in E as ->; [|done|by apply clear_links|].
Qed.

Lemma mtime_inside m : inside (mtime m).
Proof. unfold mtime. cbn zeta. within_tac. Qed.
Hint Resolve mtime_inside : within.

Lemma entries_loop_inside abs l : inside (entries_loop abs l).
Proof. induction l as [|n l IH]; cbn; unfold entry_info, io; within_tac. Qed.
Hint Resolve entries_loop_inside : within.

Lemma list_dir_inside : inside (repo_list_dir (loc_text r) p).
Proof using root_good valid. apply bind_resolve. unfold io. within_tac. Qed.

Lemma read_file_inside : inside (repo_read_file (loc_text r) p).
Proof using root_good valid. apply bind_resolve. unfold metadata_or_not_found, io. within_tac. Qed.

Lemma write_file_inside content : rel_names p ≠ [] → inside (repo_write_file (loc_text r) p content).
Proof using root_good valid.
  intros Hne. apply bind_resolve. pose proof names_ok as [Hg _].
  destruct (rel_names p) as [|n x _] using rev_ind; [done|]. rewrite app_assoc in *.
  assert (ok (r ++ x)) as [Hd Hrd] by (apply Forall_app in Hg as [? _]; split; [done | by eexists]).
  assert (ok ((r ++ x) ++ [n])) as Hl by (split; [done | by apply prefix_app_r]).
  assert (ok ((r ++ x) ++ [tmp_name n])) as Ht.
  { apply Forall_app in Hg as [_ [Hn _]%Forall_cons]. split; [|by apply prefix_app_r].
    apply Forall_app. auto using tmp_name_good. }
  rewrite path_parent_loc, temporary_loc by done. unfold io.
  pose proof (create_dir_all_safe _ Hd (or_introl Hrd)). pose proof (fs_write_safe _ content Ht).
  pose proof (fs_set_permissions_safe _ 420 Ht). pose proof (fs_rename_safe _ _ Ht Hl). within_tac.
Qed.

Lemma mkdir_inside : inside (repo_mkdir (loc_text r) p).
Proof using root_good valid.
  apply bind_resolve. unfold io. pose proof names_ok as Hl.
  pose proof (create_dir_all_safe _ (proj1 Hl) (or_introl (proj2 Hl))).
  pose proof (fs_set_permissions_safe _ 493 Hl). within_tac.
Qed.

Lemma remove_inside recursive : inside (repo_remove (loc_text r) p recursive).
Proof using root_good valid.
  apply bind_resolve. unfold metadata_or_not_found, has_children, io. pose proof names_ok as Hl.
  pose proof (fs_remove_dir_all_safe _ Hl). pose proof (fs_remove_file_safe _ Hl). within_tac.
Qed.

Lemma chmod_inside mode : inside (repo_chmod (loc_text r) p mode).
Proof using root_good valid.
  apply bind_resolve. unfold io. pose proof (fs_set_permissions_safe _ mode names_ok). within_tac.
Qed.
End calls.

Lemma rename_inside `{Env} `{FsEnv} r p q :
  Forall good_name r → path_validate p = Ok tt → path_validate q = Ok tt →
  within (on_fs (safe r)) (repo_rename (loc_text r) p q).
Proof.
  intros Hr Hp Hq. do 2 (apply bind_resolve; [done | done|]). apply within_map_err.
  apply fs_rename_safe; by apply names_ok.
Qed.
