(* ===== verification/FilesTheorems.v ===== *)
(** * Theorems about the file manager

    The validated paths are the ones the test suite's classifier accepts.  On document roots
    without links, no sequence of requests changes anything outside the roots of the sites
    the caller manages, and a write replaces the whole file or nothing.  With links inside a
    root, three ways lead out of it. *)
From S2P Require Import Prelude Text AuditActions AuditLog Accounts Paths CronJobs HostingTables Store Users Sites FileSystem Files FileTree FilesSafety.
Open Scope N_scope.

(** ** Validated paths *)

(** The classifier of the property tests of [path.rs]. *)
Definition should_accept (s : string) : bool :=
  bool_decide (s = "")
  || (negb (starts_with s "/") && negb (contains_char s 0)
      && negb (existsb (λ c, bool_decide (c = [DOT; DOT])) (split SLASH (bytes s)))).

Lemma should_accept_spec s :
  should_accept s = true ↔
  ~ In 0 (bytes s) ∧ has_root (bytes s) = false ∧ ~ In [DOT; DOT] (split SLASH (bytes s)).
Proof.
  unfold should_accept. rewrite starts_with_slash. case_bool_decide as Hs.
  { subst. split; [|done]. intros _. cbn. split_and!; [tauto | done|]. by intros [|[]]. }
  unfold contains_char. rewrite orb_false_l, !andb_true_iff, !negb_true_iff, !existsb_false.
  split; intros Hall; split_and!; try tauto.
  - intros H0. destruct Hall as [[_ Hn] _]. by specialize (Hn _ H0).
  - intros Hd. destruct Hall as [_ Hn]. specialize (Hn _ Hd). by case_bool_decide.
  - intros b Hb. apply N.eqb_neq. intros <-. tauto.
  - intros c Hc. case_bool_decide; [|done]. subst. tauto.
Qed.

Lemma check_components_err cs e : check_components cs = Err e → ∃ reason, e = InvalidPath reason.
Proof. induction cs as [|[] cs IH]; cbn; try done; intros [= <-]; eauto. Qed.

Lemma path_validate_err s e : path_validate s = Err e → ∃ reason, e = InvalidPath reason.
Proof.
  unfold path_validate. repeat case_match; try done; try (intros [= <-]; eauto). apply check_components_err.
Qed.

(** Validated paths.  [Path::new] accepts exactly the texts that the classifier of the
    property tests accepts (empty, or relative without a null byte and without a [..]
    piece), keeps them as they are, and refuses every other one with [InvalidPath]; joined
    to an absolute base, an accepted path lies under the base component by component. *)
Theorem path_new_exact (s : string) :
  match path_new s with
  | Ok p => should_accept s = true ∧ p = s
            ∧ ∀ base, has_root base = true → path_starts_with (path_join base (bytes p)) base = true
                      ∧ (In ParentDir (components (path_join base (bytes p))) → In ParentDir (components base))
  | Err e => should_accept s = false ∧ ∃ reason, e = InvalidPath reason
  end.
Proof.
  unfold path_new. destruct (path_validate s) as [[]|e] eqn:E; cbn.
  - apply path_validate_ok in E as Hv. split; [by apply should_accept_spec|]. split; [done|].
    destruct Hv as (_ & Hr & Hd). intros base Hb. rewrite components_join by done. split.
    + eapply path_starts_with_app. by rewrite components_join.
    + rewrite in_app_iff. intros [?|Hin]; [done|]. exfalso. apply Hd, parent_component.
      unfold components. apply in_app_iff. by right.
  - split; [|by eapply path_validate_err]. apply not_true_is_false. intros Ha%should_accept_spec%path_validate_ok.
    congruence.
Qed.

(** ** Sequences of requests *)

Inductive FileOp : Type :=
| FList (path : RelPath)
| FRead (path : RelPath)
| FWrite (path : RelPath) (content : list N)
| FMkdir (path : RelPath)
| FRemove (path : RelPath) (recursive : bool)
| FRename (from to : RelPath)
| FChmod (path : RelPath) (mode : N).

(** Paths come from [Path::new]; a write names a file. *)
Definition op_valid (op : FileOp) : Prop :=
  match op with
  | FWrite p _ => path_new p = Ok p ∧ rel_names p ≠ []
  | FRename p q => path_new p = Ok p ∧ path_new q = Ok q
  | FList p | FRead p | FMkdir p | FRemove p _ | FChmod p _ => path_new p = Ok p
  end.

Lemma path_new_valid p q : path_new p = Ok q → path_validate p = Ok tt.
Proof. unfold path_new. by destruct (path_validate p) as [[]|]. Qed.

Section sequences.
Context `{Env} `{FsEnv}.

Definition file_op (caller : UserRec) (id : Uuid) (op : FileOp) : M FilesWorld FileError unit :=
  match op with
  | FList p => _ <- files_list_dir caller id p ;; ret tt
  | FRead p => _ <- read_file caller id p ;; ret tt
  | FWrite p content => write_file caller id p content
  | FMkdir p => files_mkdir caller id p
  | FRemove p recursive => files_remove caller id p recursive
  | FRename p q => files_rename caller id p q
  | FChmod p mode => files_chmod caller id p mode
  end.

(** Requests of a caller one after the other, whatever each of them answers. *)
Fixpoint file_ops (caller : UserRec) (ops : list (Uuid * FileOp)) (w : FilesWorld) : FilesWorld :=
  match ops with
  | [] => w
  | (id, op) :: ops' => file_ops caller ops' (file_op caller id op w).2
  end.

Definition file_sites (w : FilesWorld) : list SiteRow := ht_sites (db_hosting (w_db (fw_world w))).

(** The sites that [assert_can_manage] lets the caller through for. *)
Definition managed (caller : UserRec) (row : SiteRow) : Prop :=
  match u_role caller with
  | Owner | Admin => True
  | User => si_owner_id row = u_id caller
  end.

Definition root_of (row : SiteRow) (r : Loc) : Prop :=
  bytes (si_document_root row) = loc_text r ∧ Forall good_name r.

(** Every managed site has a document root without links. *)
Definition roots_clear (caller : UserRec) (w : FilesWorld) : Prop :=
  ∀ row, In row (file_sites w) → managed caller row → ∃ r, root_of row r ∧ unlinked (fw_fs w) r.

Definition outside_roots (caller : UserRec) (w : FilesWorld) (l : Loc) : Prop :=
  ∀ row r, In row (file_sites w) → managed caller row → root_of row r → under r l = false.

Definition confined (caller : UserRec) : relation FilesWorld := λ w w',
  file_sites w' = file_sites w
  ∧ (roots_clear caller w → roots_clear caller w'
     ∧ ∀ l, outside_roots caller w l → fw_fs w' !! l = fw_fs w !! l).

#[export] Instance confined_preorder caller : PreOrder (confined caller).
Proof.
  split; [by intros w|]. intros w1 w2 w3 [S12 H12] [S23 H23]. split; [congruence|]. intros Hc.
  destruct (H12 Hc) as [Hc2 F12]. destruct (H23 Hc2) as [Hc3 F23]. split; [done|]. intros l Hl.
  rewrite F23, F12; [done | done|]. unfold outside_roots. by rewrite S12.
Qed.

(** *** File requests leave the sites alone *)

Definition site_rows (d : Db) : list SiteRow := ht_sites (db_hosting d).
#[local] Instance site_rows_blind : AuditBlind (same site_rows).
Proof. by intros d t. Qed.

Definition same_sites : relation FilesWorld := same file_sites.

Lemma same_sites_world {E A : Type} (c : M World E A) :
  within (on_db (same site_rows)) c → within same_sites (on_world c).
Proof.
  intros Hc w. specialize (Hc (fw_world w)). unfold on_world, same_sites, same, file_sites.
  destruct (c (fw_world w)). exact Hc.
Qed.

Lemma same_sites_sys {A : Type} (partial : nat → FS → FS) (f : nat → FS → result A errno * FS) :
  within same_sites (sys_partial partial f).
Proof.
  intros w. unfold sys_partial. destruct (fs_fault _); [done|]. by destruct (f _ _).
Qed.

Lemma same_sites_canonicalize p : within same_sites (canonicalize p).
Proof. intros w. unfold canonicalize. by destruct (realpath_fault _). Qed.

Hint Resolve same_sites_canonicalize : within.
Hint Extern 2 (within same_sites _) => apply same_sites_sys : within.
Hint Extern 3 (within same_sites (on_world _)) => apply same_sites_world; solve [within_tac] : within.

Lemma same_sites_create cs : within same_sites (create_dirs cs).
Proof.
  induction cs as [|c cs IH]; cbn [create_dirs]; [within_tac|]. unfold is_dir_path. within_tac.
Qed.

Lemma same_sites_entries abs l : within same_sites (entries_loop abs l).
Proof. induction l; cbn; unfold entry_info, mtime, io; cbn zeta; within_tac. Qed.

Lemma same_sites_op caller id op : within same_sites (file_op caller id op).
Proof.
  pose proof same_sites_create. pose proof same_sites_entries.
  destruct op; cbn [file_op]; unfold files_list_dir, read_file, write_file, files_mkdir, files_remove,
    files_rename, files_chmod, chroot_for, files_load_site, sites_find_by_id, fetch_site, files_audit,
    canonicalize_chroot, repo_list_dir, repo_read_file, repo_write_file, repo_mkdir, repo_remove, repo_rename,
    repo_chmod, resolve_path, resolve_missing, metadata_or_not_found, has_children, exists_path, create_dir_all,
    mtime, io; cbn zeta; within_tac.
Qed.

(** The audit event never stops a request. *)
Lemma files_audit_ok caller action id m w :
  ∃ w', files_audit caller action id m w = (Ok tt, w') ∧ fw_fs w' = fw_fs w ∧ file_sites w' = file_sites w.
Proof.
  unfold files_audit, on_world.
  destruct (audit_ok (same site_rows) (E:=FileError) (u_username caller) action Success
    (λ e, with_metadata (JObject m) (with_target (uuid_text id) e)) (fw_world w)) as (w' & -> & Hs).
  by eexists.
Qed.

(** *** Requests reach managed sites only *)

Lemma files_can_manage_ok caller site row :
  into_site row = Ok site → files_can_manage caller site = Ok tt → managed caller row.
Proof.
  unfold into_site, files_can_manage, managed. destruct (parse_site_status _); cbn; [|done]. intros [= <-].
  destruct (u_role caller); [done..|]. cbn. destruct (N.eqb_spec (si_owner_id row) (u_id caller)); done.
Qed.

Lemma sites_find_run id w o w' :
  sites_find_by_id id w = (Ok o, w') →
  w_db w' = w_db w ∧ ∀ site, o = Some site →
    ∃ row, List.find (site_is id) (site_rows (w_db w)) = Some row ∧ into_site row = Ok site.
Proof.
  unfold sites_find_by_id, fetch_site, select, statement. unfold_m. destruct (sql_fault (w_step w)); [done|]. cbn.
  fold (site_rows (w_db w)). destruct (List.find (site_is id) (site_rows (w_db w))) as [row|]; cbn.
  - destruct (into_site row) as [site|] eqn:E; cbn; [|done]. intros [= <- <-]. split; [done|].
    intros s [= <-]. eauto.
  - by intros [= <- <-].
Qed.

Lemma chroot_for_same caller id : within (on_fs eq) (chroot_for caller id).
Proof.
  unfold chroot_for, files_load_site, canonicalize_chroot. within_tac.
Qed.

Lemma chroot_for_ok caller id w chroot w' :
  chroot_for caller id w = (Ok chroot, w') →
  ∃ row l, List.find (site_is id) (file_sites w) = Some row ∧ managed caller row
    ∧ locate Existing (fw_fs w) (bytes (si_document_root row)) = Ok l ∧ chroot = loc_text l.
Proof.
  unfold chroot_for, files_load_site, canonicalize_chroot. intros Hr. inv_bind Hr. inv_bind R. inv_bind R.
  inv_bind R. injection R as -> ->. apply lift_ok in R2 as [Hm ->]. apply ok_or_ok in R1 as [-> ->].
  apply map_err_ok in R0. unfold on_world in R0.
  destruct (sites_find_by_id id (fw_world w)) as [o w2] eqn:Hs. injection R0 as -> <-.
  apply sites_find_run in Hs as [_ Hs]. destruct (Hs _ eq_refl) as (row & Hf & Hi).
  apply map_err_ok, canonicalize_ok in Hr as (l & Hl & -> & _). exists row, l.
  destruct a2. split_and!; [done | by eapply files_can_manage_ok| |done].
  revert Hl. cbn. unfold into_site in Hi. destruct (parse_site_status _); cbn in Hi; [|done].
  by injection Hi as <-.
Qed.

(** One request: what is inside the root of the site may change. *)
Lemma unlinked_other fs fs' r r' :
  unlinked fs r' → unlinked fs' r → (∀ l, under r l = false → fs' !! l = fs !! l) → unlinked fs' r'.
Proof.
  intros Hu Hr Hf q Hq t. destruct (under r q) eqn:E.
  - apply under_true in E. apply Hr. by right.
  - rewrite Hf by done. by apply Hu.
Qed.

Lemma confined_request {A : Type} caller id (k : list N → M FilesWorld FileError A) :
  (∀ r, Forall good_name r → within (on_fs (safe r)) (k (loc_text r))) →
  within same_sites (bind (chroot_for caller id) k) →
  within (confined caller) (bind (chroot_for caller id) k).
Proof.
  intros Hk Hs w. split; [apply Hs|]. intros Hc. specialize (Hs w). revert Hs. unfold bind.
  destruct (chroot_for caller id w) as [[chroot|e] w1] eqn:E; intros Hs;
    pose proof (chroot_for_same caller id w) as Hf; rewrite E in Hf; cbn in Hf; unfold on_fs in Hf.
  - apply chroot_for_ok in E as (row & l & Hin%find_some & Hm & Hl & ->).
    destruct (Hc row (proj1 Hin) Hm) as (r & [Hb Hg] & Hu). rewrite Hb in Hl.
    apply locate_root_clear in Hl as [-> Hcl]; [|done..]. destruct (Hk r Hg w1) as [Hcl' Hfr]; [by rewrite <- Hf|].
    rewrite <- Hf in Hfr. split.
    + intros row' Hin' Hm'. unfold same_sites, same in Hs. rewrite Hs in Hin'.
      destruct (Hc row' Hin' Hm') as (r' & Hr' & Hu'). exists r'. split; [done|].
      eapply unlinked_other; [exact Hu' | exact (clear_links _ _ Hcl') | done].
    + intros q Hq. apply Hfr. apply (Hq row); [exact (proj1 Hin) | done | done].
  - unfold same_sites, same in Hs. cbn in *. split; [|intros l _; by rewrite Hf]. intros row Hin Hm. rewrite Hs in Hin.
    rewrite <- Hf. by apply Hc.
Qed.

Lemma file_op_confined caller id op : op_valid op → within (confined caller) (file_op caller id op).
Proof.
  intros Hv. assert (∀ {A : Type} (c : M FilesWorld FileError A) w,
    (bind c (λ _, ret tt) w).2 = (c w).2) as Hret.
  { intros A c w. unfold bind. by destruct (c w) as [[]]. }
  pose proof (same_sites_op caller id op) as Hs. destruct op; cbn [file_op op_valid] in *.
  1,2: intros w; rewrite Hret; revert w; apply confined_request;
    [|intros w; specialize (Hs w); by rewrite Hret in Hs].
  3-7: apply confined_request; [|exact Hs].
  all: intros r Hr; pose proof path_new_valid; unfold files_audit.
  - apply list_dir_inside; eauto.
  - apply read_file_inside; eauto.
  - destruct Hv as [Hv Hn]. pose proof (write_file_inside r Hr path (path_new_valid _ _ Hv) content Hn). within_tac.
  - pose proof (mkdir_inside r Hr path (path_new_valid _ _ Hv)). within_tac.
  - pose proof (remove_inside r Hr path (path_new_valid _ _ Hv) recursive). within_tac.
  - destruct Hv as [Hp Hq].
    pose proof (rename_inside r _ _ Hr (path_new_valid _ _ Hp) (path_new_valid _ _ Hq)). within_tac.
  - pose proof (chmod_inside r Hr path (path_new_valid _ _ Hv) mode). within_tac.
Qed.

(** C11 (the file manager stays in the managed document roots).  When the document roots of
    the sites a caller manages hold no link, no sequence of requests of that caller, with
    statements and file system calls failing anywhere, changes anything outside these
    roots, as long as no write is addressed to a root itself; the roots still hold no link
    afterwards. *)
Theorem files_confined (caller : UserRec) (ops : list (Uuid * FileOp)) (w : FilesWorld) :
  Forall (λ o, op_valid o.2) ops →
  roots_clear caller w →
  let w' := file_ops caller ops w in
  roots_clear caller w' ∧ ∀ l, outside_roots caller w l → fw_fs w' !! l = fw_fs w !! l.
Proof.
  intros Hops Hc. assert (confined caller w (file_ops caller ops w)) as [_ Hw]; [|by apply Hw].
  clear Hc. revert w. induction Hops as [|[id op] ops Hop _ IH]; intros w; [reflexivity|].
  cbn [file_ops]. etransitivity; [by apply file_op_confined | apply IH].
Qed.
End sequences.

(** ** Writing a file *)

(** Nothing changes while [P] holds. *)
Definition unchanged_while (P : FS → Prop) : relation FS := λ fs fs', P fs → fs' = fs.
#[export] Instance still_preorder P : PreOrder (unchanged_while P).
Proof.
  split; [by intros fs|]. intros f1 f2 f3 H12 H23 HP. rewrite <- (H12 HP). apply H23. by rewrite H12.
Qed.

Section writing.
Context `{Env} `{FsEnv}.

(** The directory of an entry that is resolved is there. *)
Definition placed (d : Loc) (fs : FS) : Prop := fs_wf fs ∧ real fs d.

Lemma locate_loc fs how l :
  fs_wf fs → Forall good_name l → locate how fs (loc_text l) = walk how fs MAXSYMLINKS [] l.
Proof.
  intros Hwf Hl. unfold locate. rewrite loc_text_no_nul, loc_text_root by done.
  rewrite bool_decide_eq_false_2 by (intros E; by pose proof (loc_text_root l) as Hx; rewrite E in Hx).
  rewrite split_loc_text by done. pose proof (wf_top fs Hwf) as Hd. rewrite walk_skip by done.
  destruct (decide (l = [])) as [->|Hne]; [by rewrite walk_skip | done].
Qed.

Lemma locate_real fs how l : fs_wf fs → real fs l → locate how fs (loc_text l) = Ok l.
Proof.
  intros Hwf (x & Hx & Hn). rewrite locate_loc; [|done | by eapply wf_names].
  destruct l as [|n d _] using rev_ind; [by rewrite walk_unfold|].
  destruct (wf_entry fs Hwf _ _ _ Hx) as [(Hc & _) Hd]. rewrite walk_to_dir by done.
  rewrite walk_unfold. destruct Hd as [m ->]. rewrite Hc. cbn zeta. rewrite Hx.
  destruct x; [by rewrite walk_unfold..|done].
Qed.

Lemma placed_prefix d d' fs : d' `prefix_of` d → placed d fs → placed d' fs.
Proof.
  intros [x ->] (Hwf & Hr). split; [done|]. destruct (decide (x = [])) as [->|Hne]; [by rewrite app_nil_r in Hr|].
  destruct Hr as (n & Hn & _). eapply is_dir_real, wf_above; done.
Qed.

Lemma fs_mkdir_still d : within (on_fs (unchanged_while (placed d))) (fs_mkdir (loc_text d)).
Proof.
  apply on_fs_sys; [apply _|]. intros k fs [Hwf Hr]. rewrite locate_real by done.
  by destruct Hr as (n & -> & _).
Qed.

Lemma create_dirs_still d d' :
  d' `prefix_of` d → within (on_fs (unchanged_while (placed d))) (create_dirs (rev (RootDir :: map Normal d'))).
Proof.
  intros Hp. apply create_dirs_each; [apply _|]. intros q Hq w Hw. apply (fs_mkdir_still q w).
  eapply placed_prefix; [by etrans | done].
Qed.

Lemma locate_found fs p l : fs_wf fs → has_root p = true → locate Existing fs p = Ok l → real fs l.
Proof.
  intros Hwf Hp. unfold locate. rewrite Hp. destruct (existsb _ p); [done|]. case_bool_decide; [done|].
  apply walk_found; [done|]. apply is_dir_real, Hwf.
Qed.

Lemma write_call l content r w res w' :
  clear (fw_fs w) r → Forall good_name l → r `prefix_of` l → fs_write (loc_text l) content w = (res, w') →
  (res = Ok tt → ∃ m t, fw_fs w' = <[l := NFile content m t]> (fw_fs w))
  ∧ ∀ q, q ≠ l → fw_fs w' !! q = fw_fs w !! q.
Proof.
  intros Hc Hl Hr. assert (∀ t bs fs, fs = fw_fs w → ∃ res fs', put_file t (loc_text l) bs fs = (res, fs')
    ∧ (res = Ok tt → ∃ m, fs' = <[l := NFile bs m t]> fs) ∧ (∀ q, q ≠ l → fs' !! q = fs !! q)) as Hput.
  { intros t bs fs ->. unfold put_file. destruct (locate Creating _ _) as [l2|] eqn:E; [|naive_solver].
    eapply locate_loc_clear in E as ->; [|by apply clear_links|done|by left].
    destruct (fw_fs w !! l) as [[]|]; try naive_solver; do 2 eexists; (split; [done|]); cbn;
      (split; [eauto|]); intros q Hq; by rewrite lookup_insert_ne. }
  unfold fs_write, sys_partial. destruct (fs_fault _).
  - intros [= <- <-]. split; [done|]. unfold fs_tick, with_fs. cbn [fw_fs]. destruct (written _); [|done].
    destruct (Hput (utc_now (w_step (fw_world w))) (take n content) _ eq_refl) as (x & fs' & -> & _ & Hq). done.
  - destruct (Hput (utc_now (w_step (fw_world w))) content _ eq_refl) as (x & fs' & -> & Hok & Hq).
    intros [= <- <-]. cbn. split; [|done]. intros ->. destruct (Hok eq_refl) as [m ->]. eauto.
Qed.

Lemma chmod_call l mode c m t r w res w' :
  clear (fw_fs w) r → Forall good_name l → r `prefix_of` l → fw_fs w !! l = Some (NFile c m t) →
  fs_set_permissions (loc_text l) mode w = (res, w') →
  (res = Ok tt → fw_fs w' = <[l := NFile c (N.land mode 4095) t]> (fw_fs w))
  ∧ (res ≠ Ok tt → fw_fs w' = fw_fs w).
Proof.
  intros Hc Hl Hr Hn. unfold fs_set_permissions, sys, sys_partial. destruct (fs_fault _); [by intros [= <- <-]|].
  destruct (node_at Existing (fw_fs w) (loc_text l)) as [[l2 n]|] eqn:E; [|by intros [= <- <-]].
  eapply node_at_clear in E as (-> & En & _); [|by apply clear_links|done|done].
  rewrite Hn in En. injection En as <-. by intros [= <- <-].
Qed.

Lemma rename_call l1 l2 c m t r w res w' :
  clear (fw_fs w) r → Forall good_name l1 → Forall good_name l2 → r `prefix_of` l1 → r `prefix_of` l2 →
  l1 ≠ l2 → fw_fs w !! l1 = Some (NFile c m t) →
  fs_rename (loc_text l1) (loc_text l2) w = (res, w') →
  (res = Ok tt → fw_fs w' = <[l2 := NFile c m t]> (delete l1 (fw_fs w)))
  ∧ (res ≠ Ok tt → fw_fs w' = fw_fs w).
Proof.
  intros Hc Hl1 Hl2 Hr1 Hr2 Hne Hn. unfold fs_rename, sys, sys_partial. destruct (fs_fault _); [by intros [= <- <-]|].
  destruct (node_at Entry (fw_fs w) (loc_text l1)) as [[old n]|] eqn:E1; [|by intros [= <- <-]].
  destruct (locate Entry (fw_fs w) (loc_text l2)) as [new|] eqn:E2; [|by intros [= <- <-]].
  eapply node_at_clear in E1 as (-> & En & _); [|by apply clear_links|done|done].
  eapply locate_loc_clear in E2 as ->; [|by apply clear_links|done|by left].
  rewrite Hn in En. injection En as <-. rewrite bool_decide_eq_false_2 by done. unfold rename_node.
  destruct (_ || _); [by intros [= <- <-]|]. destruct (under l1 l2); [by intros [= <- <-]|].
  destruct (under l2 l1); [by intros [= <- <-]|].
  destruct (fw_fs w !! l2) as [[]|]; by intros [= <- <-].
Qed.

(** A file that resolves has a directory. *)
Lemma resolve_placed r p w abs w' d n :
  Forall good_name r → fs_wf (fw_fs w) → unlinked (fw_fs w) r → path_validate p = Ok tt →
  (r ++ rel_names p)%list = (d ++ [n])%list →
  resolve_path (loc_text r) p w = (Ok abs, w') → real (fw_fs w) d.
Proof.
  intros Hr Hwf Hc Hv El [_ Hcase]%resolve_cases. fold (rel_candidate r p) in Hcase.
  destruct (candidate_facts r p Hr Hv) as (Hn & Hd & Hroot). pose proof (candidate_components r p Hr Hv) as Hcs.
  assert (Forall good_name (r ++ rel_names p)) as Hgl by (apply Forall_app; auto using rel_names_good).
  assert (r `prefix_of` d ++ [n]) as Hrd by (rewrite <- El; by eexists). rewrite El in *.
  destruct Hcase as [(l & E & ->)|(parent & base & l' & Hp & Hb & _ & E & ->)].
  - apply locate_found in E as Hf; [|done..]. destruct Hf as (x & Hx & _).
    assert (l = d ++ [n])%list as -> by (eapply (locate_clear Existing _ r) in E; [by rewrite Hn in E | done..|rewrite Hn; by left]).
    apply is_dir_real. by eapply wf_above.
  - rewrite (path_parent_ext _ _ Hcs), path_parent_loc in Hp by done. injection Hp as <-.
    apply Forall_app in Hgl as [Hl _]. apply locate_found in E as Hreal; [|done | apply loc_text_root].
    eapply (locate_loc_clear Existing _ r) in E as ->; [done | done | done|].
    destruct (prefix_weak_total r d (d ++ [n])); [done | by eexists | auto..].
Qed.

(** The whole file is replaced, or nothing but the temporary file is touched. *)
Definition write_outcome (tmp file : Loc) (content : list N) (fs : FS) (ok : bool) (fs' : FS) : Prop :=
  if ok then ∃ t, fs' = <[file := NFile content 420 t]> (delete tmp fs)
  else ∀ l, l ≠ tmp → fs' !! l = fs !! l.

Lemma io_run {A : Type} (c : M FilesWorld errno A) w r w' :
  io c w = (r, w') → ∃ r', c w = (r', w') ∧ (∀ a, r = Ok a → r' = Ok a) ∧ is_ok r' = is_ok r.
Proof.
  unfold io, map_err. destruct (c w) as [[a|e] w1]; intros [= <- <-]; eexists; (split; [done|]); naive_solver.
Qed.

(** The calls after the path is resolved. *)
Lemma write_calls r d n content w :
  clear (fw_fs w) r → Forall good_name (d ++ [n]) → r `prefix_of` d →
  let '(res, w') := (io (fs_write (loc_text (d ++ [tmp_name n])) content) ;;;
                     io (fs_set_permissions (loc_text (d ++ [tmp_name n])) 420) ;;;
                     io (fs_rename (loc_text (d ++ [tmp_name n])) (loc_text (d ++ [n])))) w in
  write_outcome (d ++ [tmp_name n]) (d ++ [n]) content (fw_fs w) (is_ok res) (fw_fs w').
Proof.
  intros Hc Hg Hr. set (tmp := (d ++ [tmp_name n])%list). set (file := (d ++ [n])%list) in *.
  assert (Forall good_name tmp) as Ht.
  { apply Forall_app in Hg as [Hd [Hn _]%Forall_cons]. apply Forall_app. auto using tmp_name_good. }
  assert (r `prefix_of` tmp) as Hrt by (by apply prefix_app_r).
  assert (r `prefix_of` file) as Hrf by (by apply prefix_app_r).
  assert (tmp ≠ file) as Hne by (intros [_ [= E]]%app_inj_tail; by apply tmp_name_ne in E).
  unfold bind. destruct (io (fs_write (loc_text tmp) content) w) as [r1 w1] eqn:E1.
  apply io_run in E1 as (r1' & E1 & Ho1 & _).
  pose proof (fs_write_safe r tmp content (conj Ht Hrt) w) as Hs1. rewrite E1 in Hs1. destruct (Hs1 Hc) as [Hc1 _]. cbn in Hc1.
  destruct (write_call _ _ r _ _ _ Hc Ht Hrt E1) as [Hw1 Hq1]. destruct r1 as [[]|e]; [|exact Hq1].
  destruct (Hw1 (Ho1 _ eq_refl)) as (m & t & Hf1). clear Hw1 Ho1 E1 Hs1.
  assert (fw_fs w1 !! tmp = Some (NFile content m t)) as Hl1 by (rewrite Hf1; apply lookup_insert_eq).
  destruct (io (fs_set_permissions (loc_text tmp) 420) w1) as [r2 w2] eqn:E2. apply io_run in E2 as (r2' & E2 & Ho2 & Hk2).
  pose proof (fs_set_permissions_safe r tmp 420 (conj Ht Hrt) w1) as Hs2. rewrite E2 in Hs2. destruct (Hs2 Hc1) as [Hc2 _]. cbn in Hc2.
  destruct (chmod_call _ _ _ _ _ r _ _ _ Hc1 Ht Hrt Hl1 E2) as [Hw2 Hq2].
  destruct r2 as [[]|e]; [|cbn; rewrite Hq2 by (by destruct r2'); exact Hq1].
  specialize (Hw2 (Ho2 _ eq_refl)). rewrite Hf1, insert_insert_eq in Hw2.
  assert (fw_fs w2 !! tmp = Some (NFile content 420 t)) as Hl2 by (rewrite Hw2; apply lookup_insert_eq).
  destruct (io (fs_rename (loc_text tmp) (loc_text file)) w2) as [r3 w3] eqn:E3. apply io_run in E3 as (r3' & E3 & Ho3 & Hk3).
  destruct (rename_call _ _ _ _ _ r _ _ _ Hc2 Ht Hg Hrt Hrf Hne Hl2 E3) as [Hw3 Hq3]. destruct r3 as [[]|e]; cbn.
  - exists t. rewrite (Hw3 (Ho3 _ eq_refl)), Hw2. by rewrite delete_insert_eq.
  - intros l Hl. rewrite Hq3 by (by destruct r3'). rewrite Hw2. by rewrite lookup_insert_ne.
Qed.

Lemma repo_write_outcome r p d n content w :
  Forall good_name r → fs_wf (fw_fs w) → clear (fw_fs w) r → path_validate p = Ok tt → rel_names p ≠ [] →
  (r ++ rel_names p)%list = (d ++ [n])%list →
  let '(res, w') := repo_write_file (loc_text r) p content w in
  write_outcome (d ++ [tmp_name n]) (d ++ [n]) content (fw_fs w) (is_ok res) (fw_fs w').
Proof.
  intros Hr Hwf Hc Hv Hne El. unfold repo_write_file. unfold bind at 1.
  destruct (resolve_path (loc_text r) p w) as [[abs|e] w1] eqn:E;
    pose proof (resolve_path_same (loc_text r) p w) as Hs; rewrite E in Hs; unfold same in Hs; cbn in Hs.
  2:{ cbn. intros l _. by rewrite Hs. }
  assert (real (fw_fs w) d) as Hd by (eapply resolve_placed; [done | done | by apply clear_links | done | done | done]).
  apply resolve_clear in E as ->; [|done | by apply clear_links | done].
  destruct (names_ok r Hr p Hv) as [Hg _].
  assert (r `prefix_of` d) as Hrd.
  { destruct (rel_names p) as [|y x _] using rev_ind; [done|]. rewrite app_assoc in El.
    apply app_inj_tail in El as [<- _]. by eexists. }
  rewrite El in *. rewrite path_parent_loc, temporary_loc by done. unfold bind at 1.
  assert (fw_fs (io (create_dir_all (loc_text d)) w1).2 = fw_fs w) as Hk.
  { apply Forall_app in Hg as [Hgd _]. unfold create_dir_all. rewrite components_loc_text by done.
    rewrite <- Hs. refine (within_map_err (on_fs (unchanged_while (placed d))) _ _ (create_dirs_still d d _) w1 _); [done|].
    by rewrite Hs. }
  destruct (io (create_dir_all (loc_text d)) w1) as [[[]|e] w2]; cbn in Hk; [|intros l _; by rewrite <- Hk].
  rewrite <- Hk in Hc |- *. by apply (write_calls r d n content w2).
Qed.

(** C24 (a write replaces the file or leaves it alone).  On a document root without links, a
    request to write a file, with statements and calls failing at any point, either
    succeeds and the file holds exactly the new content with mode 644, or it fails and
    nothing but the temporary file beside it has changed. *)
Theorem write_file_atomic (caller : UserRec) (id : Uuid) (row : SiteRow) (r d : Loc) (n : Name)
    (p : RelPath) (content : list N) (w w' : FilesWorld) (res : result unit FileError) :
  fs_wf (fw_fs w) →
  List.find (site_is id) (file_sites w) = Some row → root_of row r → unlinked (fw_fs w) r →
  path_new p = Ok p → rel_names p ≠ [] → (r ++ rel_names p)%list = (d ++ [n])%list →
  write_file caller id p content w = (res, w') →
  write_outcome (d ++ [tmp_name n]) (d ++ [n]) content (fw_fs w) (is_ok res) (fw_fs w').
Proof.
  intros Hwf Hf [Hb Hg] Hu Hp Hne El. unfold write_file. unfold bind at 1.
  destruct (chroot_for caller id w) as [[chroot|e] w1] eqn:E;
    pose proof (chroot_for_same caller id w) as Hs; rewrite E in Hs; unfold on_fs in Hs; cbn in Hs.
  2:{ intros [= <- <-] l _. by rewrite Hs. }
  apply chroot_for_ok in E as (row' & l & Hf' & _ & Hl & ->). rewrite Hf in Hf'. injection Hf' as <-.
  rewrite Hb in Hl. apply locate_root_clear in Hl as [-> Hc]; [|done..]. apply path_new_valid in Hp. rewrite Hs in *.
  pose proof (repo_write_outcome r p d n content w1 Hg Hwf Hc Hp Hne El) as Ho. unfold bind.
  destruct (repo_write_file (loc_text r) p content w1) as [[[]|e] w2]; [|by intros [= <- <-]].
  destruct (files_audit_ok caller FileUpdated id [("path", JString p);
    ("bytes", JNumber (of_bytes (show_N (N.of_nat (length content)))))] w2) as (w3 & -> & Hw3 & _).
  intros [= <- <-]. cbn in *. by rewrite Hw3.
Qed.
End writing.

(** ** When nothing fails from outside *)

Lemma wf_insert_entry fs d n x :
  fs_wf fs → is_dir fs d → good_name n → (∀ m, fs !! (d ++ [n])%list ≠ Some (NDir m)) →
  fs_wf (<[(d ++ [n])%list := x]> fs).
Proof.
  intros Hwf Hd Hn Hno. assert (∀ q, is_dir fs q → is_dir (<[(d ++ [n])%list := x]> fs) q) as Hk.
  { intros q [m Hq]. exists m. rewrite lookup_insert_ne; [done|]. intros <-. by apply Hno in Hq. }
  split; [apply Hk, Hwf|]. intros d' n' y Hy. destruct (decide ((d ++ [n])%list = (d' ++ [n'])%list)) as [E|Hne].
  - apply app_inj_tail in E as [<- <-]. auto.
  - rewrite lookup_insert_ne in Hy by done. destruct (wf_entry fs Hwf _ _ _ Hy). auto.
Qed.

Lemma wf_delete_leaf fs l : fs_wf fs → (∀ x, fs !! l ≠ Some (NDir x)) → fs_wf (delete l fs).
Proof.
  intros Hwf Hno. assert (∀ q, is_dir fs q → is_dir (delete l fs) q) as Hk.
  { intros q [x Hq]. exists x. rewrite lookup_delete_ne; [done|]. intros <-. by apply Hno in Hq. }
  split; [apply Hk, Hwf|]. intros d n x [_ Hx]%lookup_delete_Some. destruct (wf_entry fs Hwf _ _ _ Hx). auto.
Qed.

#[local] Arguments locate : simpl never.
#[local] Arguments loc_text : simpl never.

Section no_faults.
Context `{Env} `{FsEnv}.
Hypothesis no_sql : ∀ k, sql_fault k = None.
Hypothesis no_fs : ∀ k, fs_fault k = None.
Hypothesis no_realpath : ∀ k, realpath_fault k = None.

(** A world that a call has only been counted in. *)
Definition counted (w w' : FilesWorld) : Prop :=
  fw_fs w' = fw_fs w ∧ w_db (fw_world w') = w_db (fw_world w).

Lemma sys_run {A : Type} (f : nat → FS → result A errno * FS) w :
  sys f w = ((f (w_step (fw_world w)) (fw_fs w)).1, fs_tick (with_fs (f (w_step (fw_world w)) (fw_fs w)).2 w)).
Proof using no_fs. unfold sys, sys_partial. rewrite no_fs. by destruct (f _ _). Qed.

Lemma canonicalize_run p w :
  canonicalize p w = ((l <-? locate Existing (fw_fs w) p ;; Ok (loc_text l)), fs_tick w).
Proof using no_realpath. unfold canonicalize. by rewrite no_realpath. Qed.

Lemma chroot_run caller id row site r w :
  fs_wf (fw_fs w) → List.find (site_is id) (file_sites w) = Some row → into_site row = Ok site →
  managed caller row → root_of row r → real (fw_fs w) r →
  ∃ w', chroot_for caller id w = (Ok (loc_text r), w') ∧ counted w w'.
Proof using no_sql no_realpath.
  intros Hwf Hf Hi Hm [Hb Hg] Hr. unfold chroot_for, files_load_site.
  assert (files_can_manage caller site = Ok tt ∧ site_document_root site = si_document_root row) as [Hok Hdoc].
  { unfold into_site in Hi. destruct (parse_site_status _); cbn in Hi; [|done]. injection Hi as <-.
    split; [|done]. unfold files_can_manage, managed in *. destruct (u_role caller); [done..|]. cbn. by rewrite Hm, N.eqb_refl. }
  assert (sites_find_by_id id (fw_world w) = (Ok (Some site), tick (fw_world w))) as Hs.
  { unfold sites_find_by_id, fetch_site. erewrite bind_run by (by apply select_no_fault).
    unfold file_sites in Hf. rewrite Hf. cbn. by rewrite Hi. }
  unfold bind, map_err, on_world. rewrite Hs. cbn. rewrite Hok. cbn. unfold canonicalize_chroot, map_err.
  rewrite canonicalize_run, Hdoc, Hb. cbn. rewrite locate_real by done. cbn. by eexists.
Qed.

Lemma resolve_entry_run r p d n w :
  Forall good_name r → fs_wf (fw_fs w) → unlinked (fw_fs w) r → path_validate p = Ok tt →
  (r ++ rel_names p)%list = (d ++ [n])%list → is_dir (fw_fs w) d →
  ∃ w', resolve_path (loc_text r) p w = (Ok (loc_text (d ++ [n])), w') ∧ counted w w'.
Proof using no_realpath.
  intros Hr Hwf Hu Hv El Hd. destruct (candidate_facts r p Hr Hv) as (Hn & Hdd & Hroot).
  pose proof (candidate_components r p Hr Hv) as Hcs.
  assert (Forall good_name (r ++ rel_names p)) as Hgl by (apply Forall_app; auto using rel_names_good).
  assert (path_starts_with (loc_text (d ++ [n])) (loc_text r) = true) as Hst.
  { rewrite <- El. rewrite starts_with_loc by done. apply under_true. by eexists. }
  rewrite El in *. unfold resolve_path. fold (rel_candidate r p). unfold bind, attempt. rewrite canonicalize_run.
  destruct (locate Existing (fw_fs w) (rel_candidate r p)) as [l|e] eqn:E; cbn.
  - eapply (locate_clear _ _ r) in E as ->; [|done..|rewrite Hn, <- El; left; by eexists]. rewrite Hn, Hst. cbn. by eexists.
  - unfold resolve_missing. rewrite (path_parent_ext _ _ Hcs), (file_name_ext _ _ Hcs), path_parent_loc, file_name_loc by done.
    cbn. unfold bind, map_err. rewrite canonicalize_run. cbn. rewrite locate_real by (done || by apply is_dir_real). cbn.
    apply Forall_app in Hgl as [Hgd [Hgn _]%Forall_cons]. rewrite path_join_loc, Hst by done. cbn. by eexists.
Qed.

Lemma metadata_run p l x w :
  locate Existing (fw_fs w) p = Ok l → fw_fs w !! l = Some x →
  fs_metadata p w = (Ok (metadata_of (w_step (fw_world w)) l x), fs_tick w).
Proof using no_fs.
  intros Hl Hx. unfold fs_metadata, fs_query. rewrite sys_run. cbn. unfold node_at. rewrite Hl. cbn. rewrite Hx. cbn.
  by destruct w.
Qed.

Lemma create_dir_all_run d w :
  fs_wf (fw_fs w) → is_dir (fw_fs w) d → ∃ w', create_dir_all (loc_text d) w = (Ok tt, w') ∧ counted w w'.
Proof using no_fs.
  intros Hwf Hd. assert (Forall good_name d) as Hg by (destruct Hd; by eapply wf_names).
  assert (fs_mkdir (loc_text d) w = (Err EEXIST, fs_tick w)) as Hmk.
  { unfold fs_mkdir. rewrite sys_run. cbn. rewrite locate_real by (done || by apply is_dir_real).
    destruct Hd as [m ->]. by destruct w. }
  destruct Hd as [m Hm]. assert (∀ e : errno, (d0 <- is_dir_path (loc_text d) ;; if (d0 : bool) then ret tt else throw e) (fs_tick w)
      = (Ok tt, fs_tick (fs_tick w))) as Hdir.
  { intros e. unfold is_dir_path, bind, attempt. rewrite (metadata_run _ d (NDir m)); [done | by apply locate_real, is_dir_real; [|exists m] | done]. }
  unfold create_dir_all. rewrite components_loc_text by done. destruct d as [|n d _] using rev_ind.
  - cbn [map rev app create_dirs]. change (render [RootDir]) with (loc_text []). unfold bind at 1, try_run at 1.
    rewrite Hmk. cbn [is_not_found]. rewrite Hdir. by eexists.
  - rewrite rev_components, create_dirs_cons. unfold bind at 1, try_run at 1. rewrite Hmk. cbn [is_not_found].
    rewrite Hdir. by eexists.
Qed.

(** A path through a directory that is missing. *)
Lemma locate_missing fs how l rest :
  fs_wf fs → Forall good_name (l ++ rest) → rest ≠ [] → fs !! l = None →
  (∀ q, q `prefix_of` l → fs !! q = None ∨ is_dir fs q) →
  locate how fs (loc_text (l ++ rest)) = Err ENOENT.
Proof using.
  intros Hwf. revert rest. induction l as [|n l IH] using rev_ind; intros rest Hg Hr Hl Hq.
  { destruct (wf_top fs Hwf) as [m Hm]. congruence. }
  rewrite <- app_assoc in *. cbn [app] in *.
  destruct (Hq l (prefix_app_r _ _ _ (reflexivity _))) as [Hn|Hd].
  - apply IH; [done | done | done|]. intros q Hp. apply Hq. by apply prefix_app_r.
  - rewrite locate_loc, walk_to_dir by done. rewrite walk_unfold. destruct Hd as [m ->].
    apply Forall_app in Hg as [_ [(-> & _) _]%Forall_cons]. cbn zeta. rewrite Hl, bool_decide_eq_false_2 by done. done.
Qed.

(** An entry of a directory that is missing, or there and not a link. *)
Lemma locate_entry fs how d n :
  fs_wf fs → is_dir fs d → good_name n → no_link_at fs (d ++ [n]) → may_miss how = true →
  locate how fs (loc_text (d ++ [n])) = Ok (d ++ [n])%list.
Proof using.
  intros Hwf Hd Hn Hl Hh. destruct (fs !! (d ++ [n])%list) as [x|] eqn:E.
  - apply locate_real; [done|]. exists x. split; [done|]. destruct x; [done..|by apply Hl in E].
  - rewrite locate_loc; [|done|]; [|apply Forall_app; destruct Hd; split; [by eapply wf_names | auto]].
    rewrite walk_to_dir by done. rewrite walk_unfold. destruct Hd as [m ->]. destruct Hn as (-> & _). cbn zeta.
    rewrite E, Hh. done.
Qed.

(** Every directory on the way is there or made. *)
Definition made (l : Loc) (fs fs' : FS) : Prop :=
  ∀ q, fs' !! q = fs !! q ∨ (q `prefix_of` l ∧ fs !! q = None ∧ is_dir fs' q).

Lemma mkdir_run d n w :
  fs_wf (fw_fs w) → is_dir (fw_fs w) d → good_name n → fw_fs w !! (d ++ [n])%list = None →
  ∃ w', fs_mkdir (loc_text (d ++ [n])) w = (Ok tt, w') ∧ fs_wf (fw_fs w')
    ∧ is_dir (fw_fs w') (d ++ [n]) ∧ made (d ++ [n]) (fw_fs w) (fw_fs w').
Proof using no_fs.
  intros Hwf Hd Hn Hl. unfold fs_mkdir. rewrite sys_run. rewrite locate_entry; [|done | done | done | by intros t; rewrite Hl | done].
  rewrite Hl. eexists. split; [done|]. cbn [fs_tick with_fs fw_fs]. split_and!.
  - apply wf_insert_entry; [done..|]. intros m. by rewrite Hl.
  - eexists. apply lookup_insert_eq.
  - intros q. destruct (decide (q = (d ++ [n])%list)) as [->|Hne]; [right|left; cbn; by rewrite lookup_insert_ne].
    split_and!; [done | done|]. eexists. apply lookup_insert_eq.
Qed.

Lemma create_dir_all_make l w :
  fs_wf (fw_fs w) → Forall good_name l →
  (∀ q, q `prefix_of` l → fw_fs w !! q = None ∨ is_dir (fw_fs w) q) →
  ∃ w', create_dir_all (loc_text l) w = (Ok tt, w') ∧ fs_wf (fw_fs w') ∧ is_dir (fw_fs w') l
    ∧ made l (fw_fs w) (fw_fs w').
Proof using no_fs.
  intros Hwf Hg. revert w Hwf. induction l as [|n l IH] using rev_ind; intros w Hwf Hq.
  all: match goal with |- context [create_dir_all (loc_text ?x)] => destruct (Hq x (reflexivity _)) as [Hno|Hd] end;
    [|destruct (create_dir_all_run _ _ Hwf Hd) as (w' & E & Hk & _); exists w'; rewrite Hk; split_and!; [done..|intros q; by left]].
  { destruct (wf_top _ Hwf) as [m Hm]. congruence. }
  apply Forall_app in Hg as Hg'. destruct Hg' as [Hgl [Hn _]%Forall_cons]. specialize (IH Hgl).
  assert (∀ q, q `prefix_of` l → fw_fs w !! q = None ∨ is_dir (fw_fs w) q) as Hql.
  { intros q Hp. apply Hq. by apply prefix_app_r. }
  unfold create_dir_all in *. rewrite components_loc_text in * by done.
  rewrite rev_components, create_dirs_cons. destruct (Hql l (reflexivity _)) as [Hln|Hld].
  - assert (fs_mkdir (loc_text (l ++ [n])) w = (Err ENOENT, fs_tick w)) as E1.
    { unfold fs_mkdir. rewrite sys_run, locate_missing by done. by destruct w. }
    destruct (IH (fs_tick w)) as (w2 & E2 & Hwf2 & Hd2 & Hm2); [done | done|].
    destruct (mkdir_run l n w2) as (w3 & E3 & Hwf3 & Hd3 & Hm3); [done..| |].
    { destruct (Hm2 (l ++ [n])%list) as [->|(Hp & _)]; [done|]. apply prefix_length in Hp. rewrite length_app in Hp. cbn in Hp. lia. }
    exists w3. split_and!; [|done | done|].
    + unfold bind at 1, try_run at 1. rewrite E1. cbn [is_not_found]. rewrite (bind_run _ _ _ _ _ E2).
      unfold bind, try_run. by rewrite E3.
    + intros q. destruct (Hm3 q) as [E|(Hp & Hq3 & Hdq)].
      * rewrite E. destruct (Hm2 q) as [?|(Hp & ? & Hdq)]; [by left | right].
        split_and!; [by apply prefix_app_r | done|]. unfold is_dir. by rewrite E.
      * right. split_and!; [done| |done]. destruct (Hm2 q) as [E|(_ & ? & _)]; [|done]. cbn in E. by rewrite <- E.
  - destruct (mkdir_run l n w) as (w3 & E3 & Hwf3 & Hd3 & Hm3); [done..|]. exists w3. split_and!; [|done..].
    unfold bind at 1, try_run at 1. by rewrite E3.
Qed.

Definition not_dir (fs : FS) (l : Loc) : Prop := ∀ m, fs !! l ≠ Some (NDir m).

Lemma write_run d n content w :
  fs_wf (fw_fs w) → is_dir (fw_fs w) d → good_name n → no_link_at (fw_fs w) (d ++ [n]) → not_dir (fw_fs w) (d ++ [n]) →
  ∃ m t w', fs_write (loc_text (d ++ [n])) content w = (Ok tt, w')
    ∧ fw_fs w' = <[(d ++ [n])%list := NFile content m t]> (fw_fs w) ∧ w_db (fw_world w') = w_db (fw_world w).
Proof using no_fs.
  intros Hwf Hd Hn Hl Hno. unfold fs_write, sys_partial. rewrite no_fs. unfold put_file.
  rewrite locate_entry by done. destruct (fw_fs w !! (d ++ [n])%list) as [[]|] eqn:E.
  - do 3 eexists. cbn. done.
  - by apply Hno in E.
  - by apply Hl in E.
  - do 3 eexists. cbn. done.
Qed.

Lemma chmod_run l mode c m t w :
  fs_wf (fw_fs w) → fw_fs w !! l = Some (NFile c m t) →
  fs_set_permissions (loc_text l) mode w =
    (Ok tt, fs_tick (with_fs (<[l := NFile c (N.land mode 4095) t]> (fw_fs w)) w)).
Proof using no_fs.
  intros Hwf Hl. unfold fs_set_permissions. rewrite sys_run. unfold node_at.
  rewrite locate_real by (done || by exists (NFile c m t)). cbn. by rewrite Hl.
Qed.

Lemma under_siblings (d : Loc) (a b : Name) : a ≠ b → under (d ++ [a]) (d ++ [b]) = false.
Proof using.
  intros Hab. apply bool_decide_eq_false_2. intros [x Hx]. rewrite <- app_assoc in Hx. apply app_inv_head in Hx.
  by injection Hx as -> _.
Qed.

Lemma rename_run d n n' c m t w :
  fs_wf (fw_fs w) → good_name n → good_name n' → n ≠ n' → fw_fs w !! (d ++ [n])%list = Some (NFile c m t) →
  no_link_at (fw_fs w) (d ++ [n']) → not_dir (fw_fs w) (d ++ [n']) →
  fs_rename (loc_text (d ++ [n])) (loc_text (d ++ [n'])) w =
    (Ok tt, fs_tick (with_fs (<[(d ++ [n'])%list := NFile c m t]> (delete (d ++ [n])%list (fw_fs w))) w)).
Proof using no_fs.
  intros Hwf Hn Hn' Hne Hl Hlink Hno. unfold fs_rename. rewrite sys_run. unfold node_at.
  rewrite locate_real by (done || by exists (NFile c m t)). cbn [result_bind]. rewrite Hl.
  rewrite locate_entry; [|done | by apply (wf_entry _ Hwf _ _ _ Hl) | done..].
  rewrite bool_decide_eq_false_2 by (by intros [_ ?]%app_inj_tail). unfold rename_node.
  rewrite !bool_decide_eq_false_2 by (by destruct d). rewrite !under_siblings by done. cbn.
  destruct (fw_fs w !! (d ++ [n'])%list) as [[]|] eqn:E; [done | by apply Hno in E | done | done].
Qed.

(** Everything a write needs is there. *)
Record writable (caller : UserRec) (id : Uuid) (p : RelPath) (w : FilesWorld) (row : SiteRow) (r d : Loc) (n : Name) : Prop := {
  wr_wf : fs_wf (fw_fs w);
  wr_row : List.find (site_is id) (file_sites w) = Some row;
  wr_site : is_ok (into_site row) = true;
  wr_managed : managed caller row;
  wr_root : root_of row r;
  wr_clear : unlinked (fw_fs w) r;
  wr_path : path_new p = Ok p;
  wr_named : rel_names p ≠ [];
  wr_names : (r ++ rel_names p)%list = (d ++ [n])%list;
  wr_dir : is_dir (fw_fs w) d;
  wr_file : not_dir (fw_fs w) (d ++ [n]);
  wr_tmp : not_dir (fw_fs w) (d ++ [tmp_name n])
}.

Lemma writable_places caller id p w row r d n :
  writable caller id p w row r d n →
  Forall good_name (d ++ [n]) ∧ r `prefix_of` d ∧ good_name (tmp_name n)
  ∧ no_link_at (fw_fs w) (d ++ [n]) ∧ no_link_at (fw_fs w) (d ++ [tmp_name n]) ∧ real (fw_fs w) r.
Proof using.
  intros Hw. pose proof (path_new_valid _ _ (wr_path _ _ _ _ _ _ _ _ Hw)) as Hv.
  destruct (wr_root _ _ _ _ _ _ _ _ Hw) as [_ Hg].
  destruct (names_ok r Hg p Hv) as [Hgl _]. pose proof (wr_names _ _ _ _ _ _ _ _ Hw) as El.
  assert (r `prefix_of` d) as Hrd.
  { pose proof (wr_named _ _ _ _ _ _ _ _ Hw). destruct (rel_names p) as [|y x _] using rev_ind; [done|].
    rewrite app_assoc in El. apply app_inj_tail in El as [<- _]. by eexists. }
  rewrite El in Hgl. apply Forall_app in Hgl as Hgl'. destruct Hgl' as [_ [Hn _]%Forall_cons].
  split_and!; [done | done | by apply tmp_name_good|..].
  1,2: apply (wr_clear _ _ _ _ _ _ _ _ Hw); right; by apply prefix_app_r.
  apply is_dir_real. eapply dir_prefix; [exact (wr_wf _ _ _ _ _ _ _ _ Hw) | exact (wr_dir _ _ _ _ _ _ _ _ Hw) | done].
Qed.

Lemma write_file_run caller id p content w row r d n :
  writable caller id p w row r d n →
  ∃ t w', write_file caller id p content w = (Ok tt, w')
    ∧ fw_fs w' = <[(d ++ [n])%list := NFile content 420 t]> (delete (d ++ [tmp_name n])%list (fw_fs w))
    ∧ file_sites w' = file_sites w.
Proof using no_fs no_realpath no_sql.
  intros Hw. destruct (writable_places _ _ _ _ _ _ _ _ Hw) as (Hg & Hrd & Ht & Hl1 & Hl2 & Hreal).
  destruct Hw as [Hwf Hrow Hsite Hman Hroot Hcl Hp Hnamed El Hd Hf1 Hf2]. apply path_new_valid in Hp.
  apply Forall_app in Hg as Hg'. destruct Hg' as [Hgd [Hn _]%Forall_cons].
  destruct (into_site row) as [site|] eqn:Hsi; [|done]. unfold write_file.
  destruct (chroot_run caller id row site r w) as (w1 & E1 & Hk1 & Hdb1); [done..|]. rewrite (bind_run _ _ _ _ _ E1).
  unfold repo_write_file. destruct Hroot as [Hb Hgr].
  destruct (resolve_entry_run r p d n w1) as (w2 & E2 & Hk2 & Hdb2); [by rewrite ?Hk1..|].
  assert (∃ w3, io (create_dir_all (loc_text d)) w2 = (Ok tt, w3) ∧ counted w2 w3) as (w3 & E3 & Hk3 & Hdb3).
  { destruct (create_dir_all_run d w2) as (w3 & E3 & Hk3); [by rewrite ?Hk2, ?Hk1..|]. exists w3. split; [|done].
    by apply map_err_run. }
  rewrite Hk1 in Hk2. rewrite Hk2 in Hk3.
  destruct (write_run d (tmp_name n) content w3) as (m & t & w4 & E4 & Hk4 & Hdb4); [by rewrite ?Hk3..|].
  rewrite Hk3 in Hk4. assert (d ++ [tmp_name n] ≠ d ++ [n])%list as Hne by (by intros [_ ?%tmp_name_ne]%app_inj_tail).
  assert (fs_wf (fw_fs w4)) as Hwf4 by (rewrite Hk4; by apply wf_insert_entry).
  pose proof (chmod_run (d ++ [tmp_name n]) 420 content m t w4 Hwf4) as E5. rewrite Hk4, lookup_insert_eq in E5.
  specialize (E5 eq_refl). rewrite insert_insert_eq in E5. set (w5 := fs_tick _) in E5.
  assert (fs_wf (fw_fs w5)) as Hwf5 by (by apply wf_insert_entry).
  pose proof (rename_run d (tmp_name n) n content 420 t w5 Hwf5 Ht Hn) as E6. cbn [w5 fs_tick with_fs fw_fs] in E6.
  rewrite lookup_insert_eq, delete_insert_eq in E6. set (w6 := fs_tick _) in E6.
  assert (fs_rename (loc_text (d ++ [tmp_name n])) (loc_text (d ++ [n])) w5 = (Ok tt, w6)) as E6'.
  { apply E6; [by apply tmp_name_ne | done|..]; intros x; rewrite lookup_insert_ne by done; auto. }
  destruct (files_audit_ok caller FileUpdated id [("path", JString p);
    ("bytes", JNumber (of_bytes (show_N (N.of_nat (length content)))))] w6) as (w7 & E7 & Hk7 & Hs7).
  exists t, w7. split_and!.
  - erewrite bind_run; [exact E7|]. rewrite (bind_run _ _ _ _ _ E2). rewrite path_parent_loc, temporary_loc by done.
    rewrite (bind_run _ _ _ _ _ E3). unfold io. rewrite (bind_run _ _ _ _ _ (map_err_run _ _ _ _ _ E4)).
    rewrite (bind_run _ _ _ _ _ (map_err_run _ _ _ _ _ E5)). by apply map_err_run.
  - by rewrite Hk7.
  - rewrite Hs7. unfold file_sites. cbn. by rewrite Hdb4, Hdb3, Hdb2, Hdb1.
Qed.

Lemma mtime_run m w : ∃ t w', mtime m w = (Ok t, w').
Proof using. unfold mtime. destruct (from_timestamp _); cbn; eauto. Qed.

(** The calls of a read once the path is resolved. *)
Lemma read_calls p abs l c m t w :
  locate Existing (fw_fs w) abs = Ok l → fw_fs w !! l = Some (NFile c m t) → (Z.of_nat (length c) ≤ MAX_READ_BYTES)%Z →
  ∃ ts w', (m <- metadata_or_not_found p abs ;;
            if m_is_dir m then throw (IsADirectory p)
            else if (MAX_READ_BYTES <? m_len m)%Z then throw (FileTooLarge (m_len m))
            else content <- io (fs_read abs) ;; t <- mtime m ;; ret (content, t)) w = (Ok (c, ts), w').
Proof using no_fs.
  intros Hlo Hl Hlen. erewrite bind_run; [|apply map_err_run; by apply (metadata_run abs l (NFile c m t))].
  cbn [metadata_of m_is_dir m_len]. rewrite (proj2 (Z.ltb_ge _ _)) by lia.
  erewrite bind_run; [|apply map_err_run; unfold fs_read, fs_query; rewrite sys_run; unfold node_at; cbn [fs_tick fw_fs];
    rewrite Hlo; cbn [result_bind]; rewrite Hl; reflexivity].
  set (w1 := fs_tick _). destruct (mtime_run (mkMetadata false (Z.of_nat (length c)) m t) w1) as (ts & w2 & Em).
  rewrite (bind_run _ _ _ _ _ Em). cbn. eauto.
Qed.

Lemma read_file_run caller id p w row r d n c m t :
  fs_wf (fw_fs w) → List.find (site_is id) (file_sites w) = Some row → is_ok (into_site row) = true →
  managed caller row → root_of row r → unlinked (fw_fs w) r → real (fw_fs w) r → path_validate p = Ok tt →
  (r ++ rel_names p)%list = (d ++ [n])%list → fw_fs w !! (d ++ [n])%list = Some (NFile c m t) →
  (Z.of_nat (length c) ≤ MAX_READ_BYTES)%Z →
  ∃ ts w', read_file caller id p w = (Ok (c, ts), w').
Proof using no_fs no_realpath no_sql.
  intros Hwf Hrow Hsite Hm Hroot Hu Hr Hv El Hl Hlen. destruct (into_site row) as [site|] eqn:Hsi; [|done].
  destruct (chroot_run caller id row site r w) as (w1 & E1 & Hk1 & _); [done..|]. destruct Hroot as [Hb Hg].
  destruct (wf_entry _ Hwf _ _ _ Hl) as [_ Hd].
  destruct (resolve_entry_run r p d n w1) as (w2 & E2 & Hk2 & _); [by rewrite ?Hk1..|].
  unfold read_file. rewrite (bind_run _ _ _ _ _ E1). unfold repo_read_file. rewrite (bind_run _ _ _ _ _ E2).
  apply (read_calls p _ (d ++ [n]) c m t); rewrite ?Hk2, ?Hk1; [|done..].
  apply locate_real; [done|]. by exists (NFile c m t).
Qed.

(** C27 (what was written is read).  When no call fails from outside, a manager of a site
    writes a file of at most 50 MB into an existing directory of a document root without
    links, where neither the name nor the temporary name is a directory: the request succeeds, the file has the content and mode 644, the temporary file
    is gone and nothing else has changed, and reading the same path answers the content. *)
Theorem write_then_read (caller : UserRec) (id : Uuid) (p : RelPath) (content : list N)
    (w : FilesWorld) (row : SiteRow) (r d : Loc) (n : Name) :
  writable caller id p w row r d n →
  (Z.of_nat (length content) ≤ MAX_READ_BYTES)%Z →
  ∃ t w', write_file caller id p content w = (Ok tt, w')
    ∧ fw_fs w' = <[(d ++ [n])%list := NFile content 420 t]> (delete (d ++ [tmp_name n])%list (fw_fs w))
    ∧ ∃ ts w'', read_file caller id p w' = (Ok (content, ts), w'').
Proof using no_fs no_realpath no_sql.
  intros Hw Hlen. destruct (writable_places _ _ _ _ _ _ _ _ Hw) as (Hg & Hrd & Ht & Hl1 & Hl2 & Hreal).
  destruct (write_file_run caller id p content w row r d n Hw) as (t & w' & E & Hfs & Hs).
  exists t, w'. split_and!; [done | done|]. destruct Hw as [Hwf Hrow Hsite Hman Hroot Hcl Hp Hnamed El Hd Hf1 Hf2].
  apply path_new_valid in Hp. apply Forall_app in Hg as Hg'. destruct Hg' as [_ [Hn _]%Forall_cons].
  assert (∀ q, q `prefix_of` d → fw_fs w' !! q = fw_fs w !! q) as Habove.
  { assert (∀ (q : Loc) x, q `prefix_of` d → d ++ [x] ≠ q)%list as Hlen'.
    { intros q x Hq%prefix_length <-. rewrite length_app in Hq. cbn in Hq. lia. }
    intros q Hq. rewrite Hfs, lookup_insert_ne, lookup_delete_ne; auto. }
  eapply read_file_run; [| by rewrite Hs | done | done | done | | | done | exact El | | done].
  - rewrite Hfs. apply wf_insert_entry; [by apply wf_delete_leaf| |done|].
    + destruct Hd as [x Hx]. exists x. rewrite lookup_delete_ne; [done|]. intros E2. apply (f_equal length) in E2.
      rewrite length_app in E2. cbn in E2. lia.
    + intros x [_ Hx]%lookup_delete_Some. by apply Hf1 in Hx.
  - intros q Hq x. rewrite Hfs. intros [[_ ?]|[_ [_ Hx]%lookup_delete_Some]]%lookup_insert_Some; [done|].
    by apply (Hcl q Hq x).
  - destruct Hreal as (x & Hx & Hx'). exists x. by rewrite Habove.
  - rewrite Hfs. apply lookup_insert_eq.
Qed.
End no_faults.

(** ** Links inside a document root *)

Section links.
Context `{Env} `{FsEnv}.

(** The path is empty or its text ends in a name, not in a slash or a dot. *)
Definition ends_in_name (p : RelPath) : bool :=
  bool_decide (p = "")
  || match last (split SLASH (bytes p)) with
     | Some q => bool_decide (component q = Some (Normal q))
     | None => false
     end.

(** Resolving a path below a root, piece by piece. *)
Lemma locate_candidate_pieces fs r p :
  Forall good_name r → path_validate p = Ok tt → p ≠ "" →
  ∃ pre, names pre = r ∧ ~ In [DOT; DOT] pre
    ∧ locate Existing fs (rel_candidate r p) = walk Existing fs MAXSYMLINKS [] (pre ++ split SLASH (bytes p)).
Proof using.
  intros Hr Hv Hp. destruct (candidate_facts r p Hr Hv) as (_ & _ & Hroot). apply path_validate_ok in Hv as (Hz & Hrp & Hd).
  assert (existsb (N.eqb 0) (rel_candidate r p) = false) as Hnul.
  { apply existsb_false. intros b Hb. apply N.eqb_neq. intros <-. unfold rel_candidate, is_root, path_join in Hb.
    rewrite bool_decide_eq_false_2 in Hb by done. unfold is_absolute in Hb. rewrite Hrp in Hb.
    assert (~ In 0 (loc_text r)) as Hzr.
    { intros Hin. pose proof (loc_text_no_nul r Hr) as Hn. rewrite existsb_false in Hn. by specialize (Hn _ Hin). }
    destruct (last (loc_text r)) as [b|]; [|done]. destruct (b =? SLASH); apply in_app_iff in Hb as [?|Hb]; try done.
    by destruct Hb. }
  unfold locate. rewrite Hnul, Hroot. rewrite bool_decide_eq_false_2 by (intros E; by rewrite E in Hroot).
  unfold rel_candidate, is_root. rewrite bool_decide_eq_false_2 by done.
  destruct (split_join_loc r (bytes p)) as (pre & -> & Hpre & Hdpre); [done | done | by intros ?%bytes_nil|]. by exists pre.
Qed.

(** If the text ends in a name, this is resolving its names. *)
Lemma locate_candidate fs r p :
  fs_wf fs → Forall good_name r → path_validate p = Ok tt → ends_in_name p = true →
  locate Existing fs (rel_candidate r p) = walk Existing fs MAXSYMLINKS [] (r ++ rel_names p).
Proof using.
  intros Hwf Hr Hv. unfold ends_in_name. case_bool_decide as Hp; cbn [orb].
  { intros _. subst. change (rel_names "") with (@nil Name). rewrite app_nil_r. by apply locate_loc. }
  destruct (last (split SLASH (bytes p))) as [q|] eqn:El; [|done]. intros Hq%bool_decide_eq_true.
  destruct (locate_candidate_pieces fs r p Hr Hv Hp) as (pre & Hpre & Hdpre & ->).
  apply path_validate_ok in Hv as (_ & _ & Hd). unfold rel_names. apply last_Some in El as [front Hf]. rewrite Hf in *.
  rewrite app_assoc. pose proof (walk_normalize Existing fs MAXSYMLINKS [] [] (pre ++ front) q) as Hw. cbn [app] in Hw.
  rewrite Hw, normalize_names, !names_app, Hpre, <- app_assoc.
  - by rewrite names_cons, Hq.
  - rewrite !in_app_iff in *. tauto.
Qed.

(** What a successful read has read. *)
Lemma read_calls_ok p abs w c ts w' :
  (m <- metadata_or_not_found p abs ;;
   if m_is_dir m then throw (IsADirectory p)
   else if (MAX_READ_BYTES <? m_len m)%Z then throw (FileTooLarge (m_len m))
   else content <- io (fs_read abs) ;; t <- mtime m ;; ret (content, t)) w = (Ok (c, ts), w') →
  ∃ l m t, locate Existing (fw_fs w) abs = Ok l ∧ fw_fs w !! l = Some (NFile c m t).
Proof using.
  intros Hr. inv_bind Hr. destruct (m_is_dir a); [done|]. destruct (MAX_READ_BYTES <? m_len a)%Z; [done|].
  inv_bind Hr. inv_bind Hr. injection Hr as <- _ _. apply map_err_ok in R.
  assert (fw_fs w0 = fw_fs w) as Hw0.
  { pose proof (proj1 (on_fs_reads (flip eq) abs) w) as Hf. rewrite R in Hf. exact Hf. }
  apply map_err_ok in R0. unfold fs_read, fs_query, sys, sys_partial in R0. destruct (fs_fault _); [done|].
  rewrite Hw0 in R0. unfold node_at in R0. destruct (locate Existing (fw_fs w) abs) as [l|]; cbn in R0; [|done].
  destruct (fw_fs w !! l) as [[]|] eqn:El; cbn in R0; try done. injection R0 as -> <-. eauto.
Qed.

(** An entry whose path is not found is not found from its directory either. *)
Lemma entry_not_found fs d n l e :
  fs_wf fs → Forall good_name (d ++ [n]) → e ≠ ELOOP →
  walk Existing fs MAXSYMLINKS [] (d ++ [n]) = Err e →
  locate Existing fs (loc_text d) = Ok l →
  ∃ e', locate Existing fs (loc_text (l ++ [n])) = Err e'.
Proof using.
  intros Hwf Hg He Hw Hl. apply Forall_app in Hg as [Hd [Hn _]%Forall_cons].
  apply locate_found in Hl as Hreal; [|done | apply loc_text_root]. destruct Hreal as (x & Hx & Hlink).
  rewrite locate_loc in Hl by done. eapply walk_entry_fails in Hl; [|reflexivity | exact He | exact Hw].
  rewrite locate_loc; [|done | apply Forall_app; split; [by eapply wf_names | auto]].
  destruct x as [c m t|m|]; [|rewrite walk_to_dir by (done || by exists m); eauto | done].
  destruct l as [|y l' _] using rev_ind; [destruct (wf_top fs Hwf); congruence|].
  destruct (wf_entry fs Hwf _ _ _ Hx) as [(Hy & _) Hd']. rewrite <- app_assoc, walk_to_dir by done.
  rewrite walk_unfold. destruct Hd' as [m' ->]. cbn [app]. rewrite Hy. cbn zeta. rewrite Hx, walk_unfold, Hx. eauto.
Qed.

(** C17 (reads stay below the document root).  With links anywhere, what [read_file] answers
    is the content of a file below the canonical document root of a site the caller
    manages, if the document root is an absolute path, the text of the requested path ends in
    a name, resolving it does not run out of links to follow, and [realpath] fails only where
    the tree says so. *)
Theorem read_file_confined (caller : UserRec) (id : Uuid) (p : RelPath) (c : list N) (ts : DateTime)
    (w w' : FilesWorld) :
  (∀ k, realpath_fault k = None) →
  fs_wf (fw_fs w) → path_new p = Ok p → ends_in_name p = true →
  (∀ row, List.find (site_is id) (file_sites w) = Some row → has_root (bytes (si_document_root row)) = true) →
  (∀ row r, List.find (site_is id) (file_sites w) = Some row →
    locate Existing (fw_fs w) (bytes (si_document_root row)) = Ok r →
    locate Existing (fw_fs w) (rel_candidate r p) ≠ Err ELOOP) →
  read_file caller id p w = (Ok (c, ts), w') →
  ∃ row r l m t, List.find (site_is id) (file_sites w) = Some row ∧ managed caller row
    ∧ locate Existing (fw_fs w) (bytes (si_document_root row)) = Ok r
    ∧ r `prefix_of` l ∧ fw_fs w !! l = Some (NFile c m t).
Proof using.
  intros Hnf Hwf Hp He Habs Hloop Hrun. apply path_new_valid in Hp. unfold read_file in Hrun. inv_bind Hrun.
  pose proof (chroot_for_same caller id w) as Hk. rewrite R in Hk. unfold on_fs in Hk. cbn in Hk.
  apply chroot_for_ok in R as (row & r & Hf & Hm & Hl & ->). exists row, r.
  pose proof (locate_found _ _ _ Hwf (Habs row Hf) Hl) as (x & Hx & _). pose proof (wf_names _ _ _ Hwf Hx) as Hg.
  unfold repo_read_file in Hrun. inv_bind Hrun. rename a into abs.
  pose proof (resolve_path_same (loc_text r) p w0) as Hk1. rewrite R in Hk1. unfold same in Hk1. cbn in Hk1.
  apply read_calls_ok in Hrun as (l & m & t & Hlo & Hli). rewrite Hk1, <- Hk in Hlo, Hli.
  apply resolve_cases in R as [Hs Hcase]. fold (rel_candidate r p) in Hcase. rewrite <- Hk in Hcase.
  destruct Hcase as [(l2 & E & ->)|(parent & base & l2 & Hpar & Hbase & [[e Hfault]|[e E]] & E2 & ->)].
  - pose proof (candidate_facts r p Hg Hp) as (_ & _ & Hroot).
    pose proof (locate_found _ _ _ Hwf Hroot E) as Hreal. rewrite locate_real in Hlo by done. injection Hlo as ->.
    exists l, m, t. split_and!; try done. apply under_true. rewrite <- starts_with_loc; [done | by eapply wf_names | done].
  - by rewrite Hnf in Hfault.
  - exfalso. pose proof (candidate_components r p Hg Hp) as Hcs. rewrite (path_parent_ext _ _ Hcs) in Hpar.
    rewrite (file_name_ext _ _ Hcs) in Hbase. destruct (names_ok r Hg p Hp) as [Hgl _].
    assert (e ≠ ELOOP) as Hne by (intros ->; by apply (Hloop row r Hf Hl)). rewrite locate_candidate in E by done.
    destruct (r ++ rel_names p)%list as [|n d _] using rev_ind; [done|].
    rewrite path_parent_loc in Hpar by done. rewrite file_name_loc in Hbase by done. injection Hpar as <-. injection Hbase as <-.
    destruct (entry_not_found _ _ _ _ _ Hwf Hgl Hne E E2) as [e' He'].
    assert (Forall good_name l2) as Hg2.
    { apply locate_found in E2 as (y & Hy & _); [by eapply wf_names | done | apply loc_text_root]. }
    apply Forall_app in Hgl as [_ [Hgn _]%Forall_cons]. rewrite path_join_loc in Hlo by done. congruence.
Qed.
End links.

(** ** Ways out of a document root *)

Section escapes.
Context `{Env} `{FsEnv}.
Hypothesis no_sql : ∀ k, sql_fault k = None.
Hypothesis no_fs : ∀ k, fs_fault k = None.
Hypothesis no_realpath : ∀ k, realpath_fault k = None.

(** A link to a file, followed by a slash, is not found: it is then resolved as an entry of
    its directory. *)
Lemma resolve_link_slash s n r l w :
  fs_wf (fw_fs w) → Forall good_name r → is_dir (fw_fs w) r → bytes s = n → good_name n →
  locate Existing (fw_fs w) (loc_text (r ++ [n])) = Ok l → (∃ c m t, fw_fs w !! l = Some (NFile c m t)) →
  path_validate (s +:+ "/") = Ok tt
  ∧ ∃ w', resolve_path (loc_text r) (s +:+ "/") w = (Ok (loc_text (r ++ [n])), w') ∧ counted w w'.
Proof using no_realpath.
  intros Hwf Hr Hd Hs Hn Hl (c & m & t & Hf).
  assert (split SLASH (bytes (s +:+ "/")) = [n; []]) as Hsp.
  { rewrite bytes_app, Hs. destruct Hn as (_ & Hns & _). by apply (split_app SLASH n []). }
  assert (path_validate (s +:+ "/") = Ok tt) as Hv.
  { apply path_validate_ok. rewrite Hsp, bytes_app, Hs. split_and!.
    - rewrite in_app_iff. destruct Hn as (_ & _ & Hz). intros [|[|[]]]; done.
    - pose proof (good_name_nonempty n Hn). pose proof (good_name_root n Hn). by destruct n.
    - destruct Hn as (Hc & _). intros [->|[|[]]]; done. }
  split; [done|]. assert (s +:+ "/" ≠ "") as Hne by (by destruct s).
  pose proof (candidate_components r _ Hr Hv) as Hcs.
  assert (rel_names (s +:+ "/") = [n]) as Hrn.
  { unfold rel_names. rewrite Hsp, names_cons. by destruct Hn as (-> & _). }
  assert (Forall good_name (r ++ [n])) as Hg by (apply Forall_app; auto). rewrite Hrn in Hcs.
  assert (locate Existing (fw_fs w) (rel_candidate r (s +:+ "/")) = Err ENOTDIR) as Hcand.
  { destruct (locate_candidate_pieces (fw_fs w) r _ Hr Hv Hne) as (pre & Hpre & Hdpre & ->). rewrite Hsp.
    pose proof (walk_normalize Existing (fw_fs w) MAXSYMLINKS [] [] (pre ++ [n]) []) as Hw. cbn [app] in Hw.
    rewrite <- app_assoc in Hw. cbn [app] in Hw. rewrite Hw, normalize_names, names_app, Hpre, names_good; [|auto|].
    - rewrite locate_loc in Hl by done. destruct (walk_continue _ _ _ _ [[]] _ Hl) as [k ->].
      by rewrite walk_unfold, Hf.
    - rewrite in_app_iff. intros [|Hin]; [done|]. apply (good_no_dotdot [n]) in Hin; auto. }
  unfold resolve_path. fold (rel_candidate r (s +:+ "/")). unfold bind, attempt. rewrite canonicalize_run, Hcand by done. cbn.
  unfold resolve_missing. rewrite (path_parent_ext _ _ Hcs), (file_name_ext _ _ Hcs), path_parent_loc, file_name_loc by done.
  cbn. unfold bind, map_err. rewrite canonicalize_run by done. cbn. rewrite locate_real by (done || by apply is_dir_real). cbn.
  rewrite path_join_loc, starts_with_loc by done. rewrite (proj2 (under_true _ _)) by (by eexists). cbn. by eexists.
Qed.

(** A trailing slash leads out of the document root: if a link inside the root points to a
    file anywhere in the tree, reading the path of the link with a slash after it answers
    the content of that file. *)
Theorem trailing_slash_escapes (caller : UserRec) (id : Uuid) (row : SiteRow) (r : Loc) (s : string)
    (l : Loc) (c : list N) (m : N) (t : DateTime) (w : FilesWorld) :
  fs_wf (fw_fs w) → List.find (site_is id) (file_sites w) = Some row → is_ok (into_site row) = true →
  managed caller row → root_of row r → is_dir (fw_fs w) r → good_name (bytes s) →
  locate Existing (fw_fs w) (loc_text (r ++ [bytes s])) = Ok l → fw_fs w !! l = Some (NFile c m t) →
  (Z.of_nat (length c) ≤ MAX_READ_BYTES)%Z →
  path_new (s +:+ "/") = Ok (s +:+ "/")
  ∧ ∃ ts w', read_file caller id (s +:+ "/") w = (Ok (c, ts), w').
Proof using no_fs no_realpath no_sql.
  intros Hwf Hrow Hsite Hm Hroot Hd Hn Hl Hf Hlen. destruct (into_site row) as [site|] eqn:Hsi; [|done].
  destruct (chroot_run no_sql no_realpath caller id row site r w) as (w1 & E1 & Hk1 & _); [done.. | by apply is_dir_real|].
  destruct Hroot as [Hb Hg]. destruct (resolve_link_slash s (bytes s) r l w1) as [Hv (w2 & E2 & Hk2 & _)];
    [by rewrite ?Hk1.. | rewrite Hk1; eauto|].
  split; [unfold path_new; by rewrite Hv|]. unfold read_file. rewrite (bind_run _ _ _ _ _ E1).
  unfold repo_read_file. rewrite (bind_run _ _ _ _ _ E2).
  apply (read_calls no_fs _ _ l c m t); [by rewrite Hk2, Hk1..|done].
Qed.

(** Writing to the document root itself leaves a file beside it, outside the root. *)
Theorem root_write_escapes (caller : UserRec) (id : Uuid) (row : SiteRow) (d : Loc) (n : Name)
    (content : list N) (w : FilesWorld) :
  fs_wf (fw_fs w) → List.find (site_is id) (file_sites w) = Some row → is_ok (into_site row) = true →
  managed caller row → root_of row (d ++ [n]) → is_dir (fw_fs w) (d ++ [n]) →
  fw_fs w !! (d ++ [tmp_name n])%list = None →
  under (d ++ [n]) (d ++ [tmp_name n]) = false
  ∧ ∃ t w', write_file caller id path_root content w = (Err (FileIo (errno_text EISDIR)), w')
      ∧ fw_fs w' = <[(d ++ [tmp_name n])%list := NFile content 420 t]> (fw_fs w).
Proof using no_fs no_realpath no_sql.
  intros Hwf Hrow Hsite Hm Hroot Hd Hnone. destruct (into_site row) as [site|] eqn:Hsi; [|done].
  pose proof (tmp_name_ne n) as Hne. split; [by apply under_siblings|]. apply is_dir_real in Hd as Hreal.
  destruct (chroot_run no_sql no_realpath caller id row site (d ++ [n]) w) as (w1 & E1 & Hk1 & _); [done..|].
  destruct Hroot as [_ Hg]. apply Forall_app in Hg as Hg'. destruct Hg' as [Hgd [Hn _]%Forall_cons].
  destruct Hd as [mode Hd]. destruct (wf_entry _ Hwf _ _ _ Hd) as [_ Hdd].
  assert (resolve_path (loc_text (d ++ [n])) path_root w1 = (Ok (loc_text (d ++ [n])), fs_tick w1)) as E2.
  { unfold resolve_path. unfold bind, attempt. change (is_root path_root) with true. cbn iota.
    rewrite canonicalize_run, Hk1, locate_real by done. cbn. rewrite starts_with_loc by done.
    by rewrite (proj2 (under_true _ _)). }
  set (w2 := fs_tick w1) in E2. assert (fw_fs w2 = fw_fs w) as Hk2 by done.
  destruct (create_dir_all_run no_fs d w2) as (w3 & E3 & Hk3 & _); [by rewrite Hk2..|]. rewrite Hk2 in Hk3.
  pose proof (tmp_name_good n Hn) as Ht.
  destruct (write_run no_fs d (tmp_name n) content w3) as (m & t & w4 & E4 & Hk4 & _);
    [by rewrite ?Hk3.. | intros x; by rewrite Hk3, Hnone | intros x; by rewrite Hk3, Hnone|]. rewrite Hk3 in Hk4.
  assert (fs_wf (fw_fs w4)) as Hwf4 by (rewrite Hk4; apply wf_insert_entry; [done..|]; intros x; by rewrite Hnone).
  pose proof (chmod_run no_fs (d ++ [tmp_name n]) 420 content m t w4 Hwf4) as E5. rewrite Hk4, lookup_insert_eq in E5.
  specialize (E5 eq_refl). rewrite insert_insert_eq in E5. set (w5 := fs_tick _) in E5.
  exists t, (fs_tick w5). split; [|done]. unfold write_file. rewrite (bind_run _ _ _ _ _ E1).
  apply bind_stop. unfold repo_write_file. rewrite (bind_run _ _ _ _ _ E2), path_parent_loc, temporary_loc by done.
  unfold io. rewrite (bind_run _ _ _ _ _ (map_err_run _ _ _ _ _ E3)), (bind_run _ _ _ _ _ (map_err_run _ _ _ _ _ E4)).
  rewrite (bind_run _ _ _ _ _ (map_err_run _ _ _ _ _ E5)). refine (map_err_stop (λ e, FileIo (errno_text e)) _ _ EISDIR _ _).
  assert (fs_wf (fw_fs w5)) as Hwf5 by (apply wf_insert_entry; [done..|]; intros x; by rewrite Hnone).
  assert (fw_fs w5 !! (d ++ [tmp_name n])%list = Some (NFile content 420 t)) as Hl1 by apply lookup_insert_eq.
  assert (fw_fs w5 !! (d ++ [n])%list = Some (NDir mode)) as Hl2
    by (cbn; rewrite lookup_insert_ne; [done | by intros [_ ?]%app_inj_tail]).
  unfold fs_rename. rewrite sys_run by done. unfold node_at. rewrite locate_real; [|done | by exists (NFile content 420 t)].
  cbn [result_bind]. rewrite Hl1, locate_real; [|done | by exists (NDir mode)].
  rewrite bool_decide_eq_false_2 by (by intros [_ ?]%app_inj_tail). unfold rename_node.
  rewrite !bool_decide_eq_false_2 by (by destruct d). rewrite !under_siblings, Hl2 by done. done.
Qed.
End escapes.

(** ** Listing a directory *)

#[export] Instance info_le_total : Total info_le.
Proof.
  intros a b. unfold info_le. pose proof (String.leb_total (fi_name a) (fi_name b)).
  destruct (fi_is_dir a), (fi_is_dir b); cbn; tauto.
Qed.

Lemma child_name_spec l l' n : child_name l l' = Some n ↔ l' = (l ++ [n])%list.
Proof.
  unfold child_name. destruct (last l') as [m|] eqn:E.
  - case_bool_decide as Hl; split; [by intros [= <-] | | done|].
    + rewrite Hl. by intros [_ ->]%app_inj_tail.
    + intros ->. rewrite last_snoc in E. by injection E as ->.
  - split; [done|]. intros ->. by rewrite last_snoc in E.
Qed.

Lemma children_spec fs l n : In n (dir_children fs l) ↔ is_Some (fs !! (l ++ [n])%list).
Proof.
  unfold dir_children. rewrite <- list_elem_of_In, list_elem_of_omap. split.
  - intros ([l' x] & Hin & Hc). apply elem_of_map_to_list in Hin. apply child_name_spec in Hc. cbn in Hc. subst. by exists x.
  - intros [x Hx]. exists ((l ++ [n])%list, x). split; [by apply elem_of_map_to_list | by apply child_name_spec].
Qed.

Lemma children_NoDup fs l : NoDup (dir_children fs l).
Proof.
  unfold dir_children. pose proof (NoDup_fst_map_to_list fs) as Hnd. induction (map_to_list fs) as [|[k x] kvs IH]; cbn in *.
  - constructor.
  - apply NoDup_cons in Hnd as [Hk Hnd]. destruct (child_name l k) as [n|] eqn:E; [|by apply IH].
    constructor; [|by apply IH]. intros ([k' x'] & Hin & Hc)%list_elem_of_omap. cbn in Hc.
    apply child_name_spec in E, Hc. subst. apply Hk. apply list_elem_of_fmap. by exists ((l ++ [n])%list, x').
Qed.

Section listing.
Context `{Env} `{FsEnv} {laws : FsLaws}.
Hypothesis no_sql : ∀ k, sql_fault k = None.
Hypothesis no_fs : ∀ k, fs_fault k = None.
Hypothesis no_realpath : ∀ k, realpath_fault k = None.

Definition shown (n : Name) : string := of_bytes (to_utf8_lossy n).

Lemma entries_run l ns w :
  fs_wf (fw_fs w) → is_dir (fw_fs w) l → (∀ n, In n ns → is_Some (fw_fs w !! (l ++ [n])%list)) →
  ∃ out w', entries_loop (loc_text l) ns w = (Ok out, w') ∧ fw_fs w' = fw_fs w ∧ map fi_name out = map shown ns.
Proof using no_fs.
  intros Hwf [m Hm]. assert (∀ w, next_entry w = (Ok tt, fs_tick w)) as Hnext.
  { intros v. unfold next_entry, fs_query. rewrite sys_run by done. by destruct v. }
  revert w Hwf Hm. induction ns as [|n ns IH]; intros w Hwf Hm Hin; cbn [entries_loop].
  { unfold io. rewrite (bind_run _ _ _ _ _ (map_err_run _ _ _ _ _ (Hnext w))). cbn. by do 2 eexists. }
  destruct (Hin n (or_introl eq_refl)) as [x Hx]. destruct (wf_entry _ Hwf _ _ _ Hx) as [Hn _].
  assert (entry_metadata (path_join (loc_text l) n) (fs_tick w)
    = (Ok (metadata_of (S (w_step (fw_world w))) (l ++ [n]) x), fs_tick (fs_tick w))) as Em.
  { rewrite path_join_loc; [|by eapply wf_names | done]. unfold entry_metadata, fs_query. rewrite sys_run by done.
    unfold node_at. cbn [fs_tick fw_fs]. assert (locate Entry (fw_fs w) (loc_text (l ++ [n])) = Ok (l ++ [n])%list) as ->.
    { rewrite locate_loc; [|done | by eapply wf_names]. rewrite walk_to_dir by (done || by exists m).
      rewrite walk_unfold, Hm. destruct Hn as (-> & _). cbn zeta. rewrite Hx. by destruct x; [rewrite walk_unfold..|]. }
    cbn. rewrite Hx. cbn. by destruct w. }
  unfold io at 1. rewrite (bind_run _ _ _ _ _ (map_err_run _ _ _ _ _ (Hnext w))).
  unfold entry_info, io at 1. unfold bind at 1. rewrite (bind_run _ _ _ _ _ (map_err_run _ _ _ _ _ Em)).
  destruct (mtime_run (metadata_of (S (w_step (fw_world w))) (l ++ [n]) x) (fs_tick (fs_tick w))) as (t & w2 & Et).
  rewrite (bind_run _ _ _ _ _ Et). cbn [ret].
  assert (fw_fs w2 = fw_fs w) as Hw2.
  { unfold mtime in Et. destruct (from_timestamp _); by injection Et as _ <-. }
  destruct (IH w2) as (out & w3 & E3 & Hk3 & Hn3); [by rewrite Hw2.. | intros; rewrite Hw2; apply Hin; by right|].
  rewrite (bind_run _ _ _ _ _ E3). do 2 eexists. split_and!; [reflexivity | by rewrite Hk3 | cbn; by rewrite Hn3].
Qed.

(** A directory below the root is found however its path is spelled. *)
Lemma resolve_dir r p w :
  Forall good_name r → fs_wf (fw_fs w) → path_validate p = Ok tt → is_dir (fw_fs w) (r ++ rel_names p) →
  ∃ w', resolve_path (loc_text r) p w = (Ok (loc_text (r ++ rel_names p)), w') ∧ counted w w'.
Proof using no_realpath.
  intros Hr Hwf Hv Hd. destruct (names_ok r Hr p Hv) as [Hg Hp].
  assert (locate Existing (fw_fs w) (rel_candidate r p) = Ok (r ++ rel_names p)%list) as Hl.
  { destruct (decide (p = "")) as [->|Hne].
    - change (rel_names "") with (@nil Name) in *. rewrite app_nil_r in *. by apply locate_real; [|apply is_dir_real].
    - destruct (locate_candidate_pieces (fw_fs w) r p Hr Hv Hne) as (pre & <- & Hdpre & ->).
      apply path_validate_ok in Hv as (_ & _ & Hdd). unfold rel_names in *. rewrite <- names_app in *.
      apply walk_raw_dirs; [rewrite in_app_iff; tauto|]. intros q Hq. by eapply dir_prefix. }
  unfold resolve_path. fold (rel_candidate r p). unfold bind, attempt. rewrite canonicalize_run, Hl by done. cbn.
  rewrite starts_with_loc, (proj2 (under_true _ _)) by done. by eexists.
Qed.

(** Listing a directory answers each of its entries once, with its name as text, the
    directories first and each group by name, and changes no file. *)
Theorem list_dir_exact (caller : UserRec) (id : Uuid) (p : RelPath) (w : FilesWorld) (row : SiteRow) (r : Loc) :
  fs_wf (fw_fs w) → List.find (site_is id) (file_sites w) = Some row → is_ok (into_site row) = true →
  managed caller row → root_of row r → path_new p = Ok p → is_dir (fw_fs w) (r ++ rel_names p) →
  ∃ out w', files_list_dir caller id p w = (Ok out, w') ∧ fw_fs w' = fw_fs w ∧ Sorted info_le out
    ∧ ∃ names, map fi_name out ≡ₚ map shown names ∧ NoDup names
        ∧ ∀ n, In n names ↔ is_Some (fw_fs w !! (r ++ rel_names p ++ [n])%list).
Proof using no_sql no_fs no_realpath laws.
  intros Hwf Hrow Hsite Hm Hroot Hp Hd. apply path_new_valid in Hp. destruct (into_site row) as [site|] eqn:Hsi; [|done].
  assert (real (fw_fs w) r) as Hreal.
  { apply is_dir_real. eapply dir_prefix; [done | exact Hd | by eexists]. }
  destruct (chroot_run no_sql no_realpath caller id row site r w) as (w1 & E1 & Hk1 & _); [done..|].
  destruct Hroot as [_ Hg]. destruct (resolve_dir r p w1) as (w2 & E2 & Hk2 & _); [by rewrite ?Hk1..|].
  rewrite Hk1 in Hk2. set (l := (r ++ rel_names p)%list) in *. destruct Hd as [mode Hl].
  assert (locate Existing (fw_fs w) (loc_text l) = Ok l) as Hlo by (by apply locate_real; [|exists (NDir mode)]).
  assert (fs_metadata (loc_text l) w2 = (Ok (metadata_of (w_step (fw_world w2)) l (NDir mode)), fs_tick w2)) as E3
    by (apply (metadata_run no_fs); rewrite Hk2; done).
  set (ns := dir_order (S (w_step (fw_world w2))) (dir_children (fw_fs w) l)).
  assert (fs_read_dir (loc_text l) (fs_tick w2) = (Ok ns, fs_tick (fs_tick w2))) as E4.
  { unfold fs_read_dir, fs_query. rewrite sys_run by done. unfold node_at. cbn [fs_tick fw_fs]. rewrite Hk2, Hlo.
    cbn [result_bind]. rewrite Hl. cbn [fst snd]. unfold with_fs, fs_tick. cbn. by rewrite Hk2. }
  assert (∀ n, In n ns ↔ is_Some (fw_fs w !! (l ++ [n])%list)) as Hns.
  { intros n. rewrite <- children_spec, <- !list_elem_of_In. unfold ns. by rewrite dir_order_permutes. }
  destruct (entries_run l ns (fs_tick (fs_tick w2))) as (out & w5 & E5 & Hk5 & Hn5); cbn [fs_tick fw_fs];
    [by rewrite Hk2 | rewrite Hk2; by exists mode | intros n Hn; rewrite Hk2; by apply Hns|].
  exists (merge_sort info_le out), w5. split_and!.
  - unfold files_list_dir. rewrite (bind_run _ _ _ _ _ E1). unfold repo_list_dir. rewrite (bind_run _ _ _ _ _ E2).
    unfold io. rewrite (bind_run _ _ _ _ _ (map_err_run _ _ _ _ _ E3)). cbn [metadata_of m_is_dir negb].
    rewrite (bind_run _ _ _ _ _ (map_err_run _ _ _ _ _ E4)), (bind_run _ _ _ _ _ E5). done.
  - rewrite Hk5. cbn. done.
  - apply Sorted_merge_sort, _.
  - exists ns. split_and!; [by rewrite merge_sort_Permutation, Hn5 | unfold ns; rewrite dir_order_permutes; apply children_NoDup|].
    intros n. rewrite app_assoc. apply Hns.
Qed.
End listing.
