(* ===== verification/BackupArchive.v ===== *)
(** * Archives of a site

    The free functions of [crates/openpanel-app/src/backups/service.rs] that write the files of
    a document root into one [OPFS1] archive and extract such an archive, and the descriptors
    of [crates/openpanel-domain/src/backups/mod.rs] for what was written.  The buffers of the
    readers and writers are not represented: a file is read and written by one call each, so a
    failure while an archive is being written leaves it empty or cut at any point. *)
From S2P Require Import Prelude Text AuditActions AuditLog Accounts Paths CronJobs BackupRuns HostingTables Store Users Identity Secrets Remember FileSystem Files FileTree.
Open Scope N_scope.

Inductive BackupServiceError : Type :=
| BackupValidation (reason : string)
| BackupNotFound
| ArtifactCorrupt
| BackupInternal (reason : string).

Definition validated {A} (r : result A BackupError) : result A BackupServiceError :=
  result_map_err (λ e, BackupValidation (backup_error_text e)) r.

(** The crates [walkdir] and [serde_json], the [mysqldump] command and
    [std::env::current_exe]. *)
Class BackupEnv := {
  (** [WalkDir::new(root).follow_links(false).sort_by_file_name()]: the path of each entry and
      whether it is a regular file, or the text of an error *)
  walk_dir : nat → FS → list N → list (result (list N * bool) string);
  (** [walkdir::Error::to_string()] for an entry whose metadata cannot be read *)
  walk_error_text : list N → errno → string;
  (** [serde_json::to_string] of a manifest *)
  manifest_json : BackupManifest → list N;
  (** whether [mysqldump] with these arguments succeeded and its output, if it could be run *)
  mysqldump : nat → FS → list string → option (bool * list N);
  current_exe : nat → result (list N) errno
}.

(** What [walkdir] documents: a walk below a directory that meets no error lists every regular
    file there, under the path of the directory, and nothing else as a file. *)
Class WalkLaws `{FsEnv} `{BackupEnv} : Prop := {
  walk_dir_finds : ∀ k fs r,
    fs_fault k = None → fs_wf fs → is_dir fs r →
    ∃ l, walk_dir k fs (loc_text r) = map Ok l
      ∧ ∀ p, In (p, true) l ↔
          ∃ x c m t, p = loc_text (r ++ x) ∧ x ≠ [] ∧ fs !! (r ++ x)%list = Some (NFile c m t)
}.

(** ** Descriptors *)

Section descriptors.
Context `{Vault} `{CookieCrypto}.

Definition digest_text (content : list N) : string := hex_encode (sha256 content).

Definition artifact_new (resource : BackupResource) (path : string) (content : list N)
    : result BackupArtifact BackupError :=
  p <-? restore_path_new (bytes path) ;;
  Ok (mkArtifact resource (of_bytes (restore_path_str p)) (Z.of_nat (length content))
        (digest_text content) 1).

(** [from_digest]; the lower case of hexadecimal digits. *)
Definition artifact_from_digest (resource : BackupResource) (path : string) (size : Z) (sha256 : string)
    : result BackupArtifact BackupError :=
  p <-? restore_path_new (bytes path) ;;
  if negb (str_len sha256 =? 64) || negb (forallb is_ascii_hexdigit (bytes sha256))
  then Err (BackupInvalid "invalid SHA-256")
  else Ok (mkArtifact resource (of_bytes (restore_path_str p)) size
             (of_bytes (map ascii_lower (bytes sha256))) 1).

Definition artifact_verify (a : BackupArtifact) (content : list N) : bool :=
  (art_size a =? Z.of_nat (length content))%Z && String.eqb (art_sha256 a) (digest_text content).
End descriptors.

(** A digest has 32 bytes, written as lower-case digits. *)
Class DigestLaws `{Vault} `{CookieCrypto} : Prop := {
  digest_text_len : ∀ l, str_len (digest_text l) = 64;
  digest_text_hex : ∀ l, Forall (λ c, is_ascii_hexdigit c = true ∧ ascii_lower c = c) (bytes (digest_text l))
}.

(** ** The archive format *)

(** [OPFS1] and a line feed. *)
Definition MAGIC : list N := bytes "OPFS1" ++ [10].

(** The low [n] bytes, most significant first, and back. *)
Fixpoint be_bytes (n : nat) (x : N) : list N :=
  match n with
  | O => []
  | S m => (be_bytes m (x / 256) ++ [x mod 256])%list
  end.
Definition from_be_bytes (l : list N) : N := fold_left (λ acc b, acc * 256 + b) l 0.

Definition archive_entry (path : list N) (size : N) (content : list N) : list N :=
  (be_bytes 4 (N.of_nat (length path)) ++ be_bytes 8 size ++ path ++ content)%list.

(** [Path::strip_prefix], for a path without doubled separators below the prefix. *)
Definition strip_prefix (p base : list N) : option (list N) :=
  if path_starts_with p base
  then Some (render (drop (length (components base)) (components p)))
  else None.

Definition read_exact (n : nat) (input : list N) : option (list N * list N) :=
  if (length input <? n)%nat then None else Some (take n input, drop n input).

(** [copy] from [take(size)]: all of the input when there is less. *)
Definition copy_take (size : N) (input : list N) : list N * list N :=
  if N.of_nat (length input) <? size then (input, [])
  else (take (N.to_nat size) input, drop (N.to_nat size) input).

Definition MAX_PATH : N := 16 * 1024.
Definition MAX_FILE : N := 1099511627776.
(** [io::ErrorKind::UnexpectedEof] of [read_exact]. *)
Definition unexpected_eof : BackupServiceError := BackupInternal "failed to fill whole buffer".

(** The head of the loop of [extract_site_archive], up to the validated path. *)
Inductive Frame : Type :=
| FrameEnd
| FrameBad (e : BackupServiceError)
| FrameFile (path : list N) (size : N) (rest : list N).
Definition read_frame (input : list N) : Frame :=
  match read_exact 4 input with
  | None => FrameEnd
  | Some (len, input1) =>
      let path_len := from_be_bytes len in
      if (path_len =? 0) || (MAX_PATH <? path_len) then FrameBad ArtifactCorrupt
      else match read_exact 8 input1 with
           | None => FrameBad unexpected_eof
           | Some (size, input2) =>
               let size := from_be_bytes size in
               if MAX_FILE <? size then FrameBad ArtifactCorrupt
               else match read_exact (N.to_nat path_len) input2 with
                    | None => FrameBad unexpected_eof
                    | Some (path, input3) =>
                        if negb (valid_utf8 path) then FrameBad ArtifactCorrupt
                        else match restore_path_new path with
                             | Err _ => FrameBad ArtifactCorrupt
                             | Ok safe => FrameFile (restore_path_str safe) size input3
                             end
                    end
           end
  end.

Section archive.
Context `{Env} `{FsEnv} `{BackupEnv} `{Vault} `{CookieCrypto}.
Abbreviation MB A := (M FilesWorld BackupServiceError A).

Definition bio {A} (c : M FilesWorld errno A) : MB A := map_err (λ e, BackupInternal (errno_text e)) c.

(** [File::create], the writes, [sync_all]. *)
Definition write_synced (p content : list N) : MB unit := bio (fs_write p content) ;;; bio fs_sync.

Fixpoint archive_files (source : list N) (entries : list (result (list N * bool) string)) : MB (list N) :=
  match entries with
  | [] => ret []
  | Err e :: _ => throw (BackupInternal e)
  | Ok (_, false) :: rest => archive_files source rest
  | Ok (path, true) :: rest =>
      relative <- ok_or (strip_prefix path source) (BackupInternal "prefix not found") ;;
      safe <- lift (validated (restore_path_new relative)) ;;
      m <- map_err (λ e, BackupInternal (walk_error_text path e)) (entry_metadata path) ;;
      content <- bio (fs_read path) ;;
      others <- archive_files source rest ;;
      ret (archive_entry (restore_path_str safe) (Z.to_N (m_len m)) content ++ others)%list
  end.

(** The walk goes on while the files are read; only the archive itself changes meanwhile. *)
Definition walk_source (source : list N) : MB (list (result (list N * bool) string)) := λ w,
  (Ok (walk_dir (w_step (fw_world w)) (fw_fs w) source), fs_tick w).

Definition stream_site_archive (source target : list N) (resource : BackupResource) (name : string)
    : MB BackupArtifact :=
  available <- is_dir_path source ;;
  if negb available then throw (BackupValidation "site document root is unavailable")
  else
    bio (fs_write target []) ;;;
    entries <- walk_source source ;;
    files <- archive_files source entries ;;
    write_synced target (MAGIC ++ files)%list ;;;
    content <- bio (fs_read target) ;;
    lift (validated (artifact_from_digest resource name (Z.of_nat (length content)) (digest_text content))).

(** Each round reads at least four bytes. *)
Fixpoint extract_files (fuel : nat) (staging input : list N) : MB unit :=
  match fuel with
  | O => ret tt
  | S fuel' =>
      match read_frame input with
      | FrameEnd => ret tt
      | FrameBad e => throw e
      | FrameFile path size rest =>
          let target := path_join staging path in
          match path_parent target with
          | Some parent => bio (create_dir_all parent)
          | None => ret tt
          end ;;;
          let '(content, rest') := copy_take size rest in
          bio (fs_write target content) ;;;
          if negb (N.of_nat (length content) =? size) then throw ArtifactCorrupt
          else bio fs_sync ;;; extract_files fuel' staging rest'
      end
  end.

Definition extract_site_archive (archive staging : list N) : MB unit :=
  input <- bio (fs_read archive) ;;
  match read_exact 6 input with
  | None => throw unexpected_eof
  | Some (magic, body) =>
      if negb (bool_decide (magic = MAGIC)) then throw ArtifactCorrupt
      else
        bio (create_dir_all staging) ;;;
        extract_files (S (length body)) staging body
  end.

Definition write_mysql_defaults (path : list N) (user host password : string) : MB unit :=
  bio (fs_create_new path 384
         (bytes "[client]" ++ [10] ++ bytes "user=" ++ bytes user ++ [10] ++ bytes "host=" ++ bytes host
            ++ [10] ++ bytes "password=" ++ bytes password ++ [10])%list) ;;;
  bio fs_sync.
End archive.
