(* ===== verification/ArchiveTheorems.v ===== *)
(** * What an archive can do

    Whatever bytes an archive holds, extracting it changes nothing outside its directory; and an
    archive of a document root gives every regular file back. *)
From S2P Require Import Prelude Text AuditActions AuditLog Accounts Paths CronJobs BackupRuns HostingTables Store Users Identity Secrets Remember FileSystem Files FileTree FilesSafety FilesTheorems BackupArchive.
Open Scope N_scope.

(** ** Extraction stays in its directory *)

Lemma read_frame_path input path size rest :
  read_frame input = FrameFile path size rest →
  path ≠ [] ∧ has_root path = false ∧ ~ In [DOT; DOT] (split SLASH path)
  ∧ (length rest < length input)%nat.
Proof.
  unfold read_frame, read_exact. destruct (length input <? 4)%nat eqn:E4; [done|]. apply Nat.ltb_ge in E4.
  destruct (_ || _); [done|]. destruct (length (drop 4 input) <? 8)%nat; [done|]. destruct (MAX_FILE <? _); [done|].
  destruct (_ <? _)%nat; [done|]. set (p := take _ (drop 8 _)). destruct (valid_utf8 p) eqn:Hu; [|done].
  destruct (restore_path_new p) as [q|] eqn:Hp; [|done]. apply restore_path_ok in Hp as (-> & Hne & Hr & Hd).
  unfold restore_path_str. cbn [negb]. rewrite Hu. intros [= <- _ <-]. rewrite parent_component in Hd.
  split_and!; [done..|]. rewrite !length_drop. lia.
Qed.

Section confined.
Context `{Env} `{FsEnv}.
Variable (s : Loc).
Hypothesis staging_good : Forall good_name s.
Abbreviation inside c := (within (on_fs (safe s)) c).

(** Where the file of a frame goes, and the directory above it. *)
Lemma frame_target path :
  path ≠ [] → has_root path = false → ~ In [DOT; DOT] (split SLASH path) →
  leads_below s (path_join (loc_text s) path)
  ∧ ∀ parent, path_parent (path_join (loc_text s) path) = Some parent →
      parent = loc_text (removelast (s ++ names (split SLASH path))).
Proof using staging_good.
  intros Hne Hr Hd. destruct (join_facts s path) as (Hn & Hdd & Hroot); [done..|]. split.
  - split_and!; [done | done|]. rewrite Hn. by eexists.
  - intros parent. unfold path_parent, components, leading. rewrite Hroot, omap_component_names, Hn by done.
    destruct (s ++ names (split SLASH path))%list as [|n l _] using rev_ind; [done|].
    rewrite removelast_last, map_app. cbn [app map].
    rewrite app_comm_cons, last_snoc, removelast_last. by intros [= <-].
Qed.

Lemma extract_files_inside fuel input : inside (extract_files fuel (loc_text s) input).
Proof using staging_good.
  revert input. induction fuel as [|fuel IH]; intros input; cbn [extract_files]; [within_tac|].
  destruct (read_frame input) as [|e|path size rest] eqn:E; [within_tac..|].
  apply read_frame_path in E as (Hne & Hr & Hd & _). destruct (frame_target path) as [Hb Hp]; [done..|].
  destruct (copy_take size rest) as [content rest'].
  pose proof (fs_write_below s _ content Hb).
  assert (∀ parent, path_parent (path_join (loc_text s) path) = Some parent → inside (create_dir_all parent)) as Hc.
  { intros parent ->%Hp. apply create_dir_all_plain.
    - assert (Forall plain_name (s ++ names (split SLASH path))) as Hl
        by (apply Forall_app; auto using good_plain, names_plain).
      destruct (removelast_prefix (s ++ names (split SLASH path))) as [y Hy]. rewrite Hy in Hl.
      by apply Forall_app in Hl as [? _].
    - destruct (names (split SLASH path)) as [|n l _] using rev_ind.
      + right. rewrite app_nil_r. apply removelast_prefix.
      + left. rewrite app_assoc, removelast_last. by eexists. }
  unfold bio, fs_sync. within_tac; apply on_fs_query, _.
Qed.

Lemma extract_inside archive : inside (extract_site_archive archive (loc_text s)).
Proof using staging_good.
  unfold extract_site_archive, bio. pose proof extract_files_inside.
  pose proof (create_dir_all_safe s s staging_good (or_introl (reflexivity _))). within_tac.
Qed.

(** C12 (an archive cannot leave its directory).  Whatever bytes an archive holds and whichever
    calls fail, extracting it into a directory that no link leads into or out of changes nothing
    outside that directory, whether it succeeds or reports the archive as corrupt. *)
Theorem extract_confined (archive : list N) (w : FilesWorld) (l : Loc) :
  clear (fw_fs w) s → under s l = false →
  fw_fs (extract_site_archive archive (loc_text s) w).2 !! l = fw_fs w !! l.
Proof using staging_good. intros Hc. by apply (extract_inside archive w Hc). Qed.
End confined.

(** ** Frames are read back *)

Lemma be_bytes_length n x : length (be_bytes n x) = n.
Proof. revert x. induction n as [|n IH]; intros x; cbn; [done|]. rewrite length_app, IH. cbn. lia. Qed.

Lemma be_bytes_roundtrip n x : x < 256 ^ N.of_nat n → from_be_bytes (be_bytes n x) = x.
Proof.
  revert x. induction n as [|n IH]; intros x Hx; [cbn in *; lia|]. cbn [be_bytes].
  rewrite Nat2N.inj_succ, N.pow_succ_r' in Hx. unfold from_be_bytes in *. rewrite fold_left_app, IH.
  - cbn. rewrite N.mul_comm. symmetry. by apply N.div_mod.
  - by apply N.Div0.div_lt_upper_bound.
Qed.

Lemma read_exact_app n x y : length x = n → read_exact n (x ++ y) = Some (x, y).
Proof.
  intros Hn. unfold read_exact. rewrite (proj2 (Nat.ltb_ge _ _)) by (rewrite length_app; lia).
  by rewrite take_app_length', drop_app_length'.
Qed.

Lemma copy_take_app x y : copy_take (N.of_nat (length x)) (x ++ y) = (x, y).
Proof.
  unfold copy_take. rewrite (proj2 (N.ltb_ge _ _)) by (rewrite length_app; lia).
  by rewrite Nat2N.id, take_app_length, drop_app_length.
Qed.

(** What a path must be for its file to be restored. *)
Definition archivable (path content : list N) : Prop :=
  valid_utf8 path = true ∧ restore_path_new path = Ok path
  ∧ N.of_nat (length path) ≤ MAX_PATH ∧ N.of_nat (length content) ≤ MAX_FILE.

Lemma read_frame_entry path content rest :
  archivable path content →
  read_frame (archive_entry path (N.of_nat (length content)) content ++ rest)
    = FrameFile path (N.of_nat (length content)) (content ++ rest).
Proof.
  intros (Hu & Hp & Hl & Hs). unfold read_frame, archive_entry. rewrite <- !app_assoc.
  rewrite read_exact_app by apply be_bytes_length. cbv zeta.
  assert (N.of_nat (length path) ≠ 0) as Hne.
  { apply restore_path_ok in Hp as (_ & Hn & _). destruct path; [done|]. cbn. lia. }
  rewrite be_bytes_roundtrip by (unfold MAX_PATH in Hl; cbn; lia).
  rewrite (proj2 (N.eqb_neq _ _)), (proj2 (N.ltb_ge _ _)) by done. cbn [orb].
  rewrite read_exact_app by apply be_bytes_length.
  rewrite be_bytes_roundtrip by (unfold MAX_FILE in Hs; cbn; lia).
  rewrite (proj2 (N.ltb_ge _ _)) by done. rewrite Nat2N.id, read_exact_app by done.
  rewrite Hu, Hp. cbn [negb]. unfold restore_path_str. by rewrite Hu.
Qed.

(** A file whose path is not UTF-8 is archived under the empty path.  The digest of the archive
    agrees, and every attempt to extract it stops there. *)
Lemma unreadable_name_blocks path size content rest :
  valid_utf8 path = false →
  read_frame (archive_entry (restore_path_str path) size content ++ rest) = FrameBad ArtifactCorrupt.
Proof.
  intros Hu. unfold restore_path_str. rewrite Hu. unfold archive_entry, read_frame. rewrite <- !app_assoc.
  by rewrite read_exact_app by apply be_bytes_length.
Qed.

(** ** A document root and its archive *)

Abbreviation member := (Loc * list N)%type.
Definition frames (files : list member) : list N :=
  concat (map (λ f : member, archive_entry (join_pieces f.1) (N.of_nat (length f.2)) f.2) files).

(** The member is a file of the tree below [r]. *)
Definition from_tree (fs : FS) (r : Loc) (f : member) : Prop :=
  f.1 ≠ [] ∧ archivable (join_pieces f.1) f.2 ∧ ∃ m t, fs !! (r ++ f.1)%list = Some (NFile f.2 m t).

Lemma components_pieces x : Forall good_name x → x ≠ [] → components (join_pieces x) = map Normal x.
Proof.
  intros Hx Hne. unfold components, leading.
  assert (has_root (join_pieces x) = false) as ->.
  { destruct x as [|n x]; [done|]. apply Forall_cons in Hx as [Hn _]. apply good_name_root in Hn as Hr.
    apply good_name_nonempty in Hn. destruct n as [|b n]; [done|]. by destruct x. }
  rewrite split_join_pieces; [|done|]; [|eapply Forall_impl; [done|]; by intros n (_ & ? & _)].
  rewrite omap_components by (by apply good_plain). destruct x as [|n x]; [done|].
  apply Forall_cons in Hx as [(Hn & _) _]. case_bool_decide as E; [|done]. by rewrite E in Hn.
Qed.

Lemma restore_path_pieces x : Forall good_name x → x ≠ [] → restore_path_new (join_pieces x) = Ok (join_pieces x).
Proof.
  intros Hx Hne. unfold restore_path_new, is_absolute. rewrite components_pieces by done.
  assert (existsb unsafe_part (map Normal x) = false) as ->.
  { apply existsb_false. intros c Hc. apply in_map_iff in Hc as (n & <- & _). done. }
  pose proof (components_pieces x Hx Hne) as Hc. destruct x as [|n x]; [done|].
  apply Forall_cons in Hx as [Hn _]. apply good_name_root in Hn as Hr.
  apply good_name_nonempty in Hn. destruct n as [|b n]; [done|]. cbn in Hr. by destruct x; cbn; rewrite Hr.
Qed.

Lemma join_pieces_app a b :
  a ≠ [] → b ≠ [] → join_pieces (a ++ b) = (join_pieces a ++ SLASH :: join_pieces b)%list.
Proof.
  induction a as [|x a IH]; [done|]. intros _ Hb. cbn [app]. destruct (decide (a = [])) as [->|Ha].
  - by apply join_pieces_cons.
  - rewrite !join_pieces_cons, IH by (done || by destruct a). by rewrite <- app_assoc.
Qed.

Lemma path_join_pieces s x :
  Forall good_name (s ++ x) → x ≠ [] → path_join (loc_text s) (join_pieces x) = loc_text (s ++ x).
Proof.
  intros [Hs Hx]%Forall_app Hne. unfold path_join.
  assert (is_absolute (join_pieces x) = false) as ->.
  { pose proof (restore_path_pieces x Hx Hne) as Hp. by apply restore_path_ok in Hp as (_ & _ & ? & _). }
  destruct s as [|n s]; [destruct x; [done|]; cbn [app]; by rewrite loc_text_cons|].
  cbn [app]. rewrite !loc_text_cons. change ([] :: n :: s ++ x) with (([] :: n :: s) ++ x)%list.
  rewrite join_pieces_app by done. rewrite <- loc_text_cons.
  destruct (last (loc_text (n :: s))) as [b|] eqn:E.
  - by apply loc_text_last, N.eqb_neq in E as ->.
  - apply last_None in E. pose proof (loc_text_root (n :: s)). by rewrite E in *.
Qed.

Lemma strip_prefix_loc r x :
  Forall good_name (r ++ x) → x ≠ [] → strip_prefix (loc_text (r ++ x)) (loc_text r) = Some (join_pieces x).
Proof.
  intros Hg Hne. apply Forall_app in Hg as Hg'. destruct Hg' as [Hr Hx]. unfold strip_prefix.
  rewrite starts_with_loc by done. rewrite (proj2 (under_true r (r ++ x))) by (by eexists).
  rewrite !components_loc_text by done. cbn [length drop]. rewrite map_app, drop_app_length by done.
  unfold render. rewrite component_text_normal. by destruct x as [|n [|]].
Qed.

Section no_faults.
Context `{Env} `{FsEnv} `{BackupEnv} `{Vault} `{CookieCrypto}.
Hypothesis no_fs : ∀ k, fs_fault k = None.

Lemma read_run p l c m t w :
  locate Existing (fw_fs w) p = Ok l → fw_fs w !! l = Some (NFile c m t) → fs_read p w = (Ok c, fs_tick w).
Proof using no_fs.
  intros Hl Hx. unfold fs_read, fs_query. rewrite sys_run by done. unfold node_at. rewrite Hl. cbn [result_bind].
  rewrite Hx. by destruct w.
Qed.

(** The files of the entries, in their order. *)
Lemma archive_files_run r l w :
  fs_wf (fw_fs w) →
  (∀ p, In (p, true) l → ∃ f, p = loc_text (r ++ f.1) ∧ from_tree (fw_fs w) r f) →
  ∃ files w', archive_files (loc_text r) (map Ok l) w = (Ok (frames files), w') ∧ counted w w'
    ∧ Forall (from_tree (fw_fs w) r) files
    ∧ ∀ p, In (p, true) l → ∃ f, p = loc_text (r ++ f.1) ∧ In f files.
Proof using no_fs.
  intros Hwf. revert w Hwf. induction l as [|[p []] l IH]; intros w Hwf Hl.
  - exists [], w. split; [done|]. split; [done|]. split; [by constructor | by intros ? []].
  - destruct (Hl p (or_introl eq_refl)) as ([x c] & -> & Hne & Ha & m & t & Hx). cbn [fst snd] in *.
    pose proof (wf_names _ _ _ Hwf Hx) as Hg. apply Forall_app in Hg as Hg'. destruct Hg' as [_ Hgx].
    assert (∀ how, locate how (fw_fs w) (loc_text (r ++ x)) = Ok (r ++ x)%list) as Hloc.
    { intros how. apply locate_real; [done|]. by exists (NFile c m t). }
    destruct (IH (fs_tick (fs_tick w))) as (files & w' & E & Hk & Hf & Hin); [done | intros q Hq; apply Hl; by right|].
    exists ((x, c) :: files), w'. split_and!; [|done | by constructor; [split_and!; eauto|] |].
    + cbn [map archive_files]. rewrite strip_prefix_loc by done. erewrite bind_run by done.
      rewrite restore_path_pieces by done. erewrite bind_run by done.
      erewrite bind_run.
      2:{ apply map_err_run. unfold entry_metadata, fs_query. rewrite sys_run by done. unfold node_at. rewrite Hloc.
          cbn [result_bind]. rewrite Hx. reflexivity. }
      erewrite bind_run; [|apply map_err_run, (read_run _ (r ++ x) c m t); [exact (Hloc _) | exact Hx]].
      cbn [fs_tick with_fs fw_fs fw_world]. destruct w. rewrite (bind_run _ _ _ _ _ E).
      unfold restore_path_str. rewrite (proj1 Ha). cbn. by rewrite <- nat_N_Z, N2Z.id.
    + intros q [[= <-]|Hq]; [exists (x, c); split; [done | by left]|]. destruct (Hin q Hq) as (f & -> & ?).
      exists f. split; [done | by right].
  - destruct (IH w Hwf) as (files & w' & E & Hk & Hf & Hin); [intros q Hq; apply Hl; by right|].
    exists files, w'. split_and!; [done..|]. intros q [[=]|Hq]. auto.
Qed.

(** What lies below [s] copies what lies below [r] in the tree [fs0]. *)
Definition mirrors (fs0 : FS) (r s : Loc) (fs : FS) : Prop :=
  ∀ x n, fs !! (s ++ x)%list = Some n →
    match n with
    | NFile c _ _ => ∃ m t, fs0 !! (r ++ x)%list = Some (NFile c m t)
    | NDir _ => is_dir fs0 (r ++ x)
    | NLink _ => False
    end.
Definition holds_file (fs : FS) (l : Loc) : Prop := ∃ c m t, fs !! l = Some (NFile c m t).

Lemma made_mirrors fs0 r s d fs fs' :
  is_dir fs0 (r ++ d) → fs_wf fs0 → mirrors fs0 r s fs → made (s ++ d) fs fs' → mirrors fs0 r s fs'.
Proof using.
  intros Hd Hwf Hm Hmade x n Hx. destruct (Hmade (s ++ x)%list) as [E|(Hp & _ & [m E])].
  - rewrite E in Hx. by apply Hm.
  - rewrite E in Hx. injection Hx as <-. eapply dir_prefix; [done | done|].
    destruct Hp as [y Hy]. rewrite <- app_assoc in Hy. apply app_inv_head in Hy as ->. exists y. by rewrite <- app_assoc.
Qed.

(** One round of the loop. *)
Lemma extract_file_run fs0 r s f w :
  fs_wf fs0 → from_tree fs0 r f → Forall good_name (s ++ f.1) →
  fs_wf (fw_fs w) → is_dir (fw_fs w) s → mirrors fs0 r s (fw_fs w) →
  ∃ d n w1 w2, (s ++ f.1)%list = (d ++ [n])%list
    ∧ create_dir_all (loc_text d) w = (Ok tt, w1)
    ∧ fs_write (loc_text (d ++ [n])) f.2 w1 = (Ok tt, w2)
    ∧ fs_wf (fw_fs w2) ∧ is_dir (fw_fs w2) s ∧ mirrors fs0 r s (fw_fs w2)
    ∧ holds_file (fw_fs w2) (s ++ f.1)
    ∧ ∀ l, holds_file (fw_fs w) l → holds_file (fw_fs w2) l.
Proof using no_fs.
  destruct f as [x c]. cbn [fst snd]. intros Hwf0 (Hne & _ & m0 & t0 & Hx0) Hg Hwf Hs Hm. cbn [fst snd] in *.
  destruct x as [|n y _] using rev_ind; [done|]. rewrite app_assoc in *.
  destruct (wf_entry _ Hwf0 _ _ _ Hx0) as [Hn Hd0]. apply Forall_app in Hg as Hg'. destruct Hg' as [Hgd _].
  assert (∀ q, q `prefix_of` s ++ y → fw_fs w !! q = None ∨ is_dir (fw_fs w) q) as Hway.
  { intros q Hq. destruct (fw_fs w !! q) as [x|] eqn:E; [|by left]. right.
    destruct (prefix_weak_total q s (s ++ y) Hq) as [Hp|[z ->]]; [by eexists | by eapply dir_prefix|].
    specialize (Hm z x E). assert (is_dir fs0 (r ++ z)) as [m Hm'].
    { eapply dir_prefix; [done | exact Hd0|]. destruct Hq as [u Hu]. rewrite <- app_assoc in Hu.
      apply app_inv_head in Hu as ->. exists u. by rewrite <- app_assoc. }
    destruct x; [destruct Hm as (? & ? & Hm); congruence | by eexists | done]. }
  destruct (create_dir_all_make no_fs (s ++ y) w Hwf Hgd Hway) as (w1 & E1 & Hwf1 & Hd1 & Hmade).
  pose proof (made_mirrors _ _ _ _ _ _ Hd0 Hwf0 Hm Hmade) as Hm1.
  assert (no_link_at (fw_fs w1) ((s ++ y) ++ [n]) ∧ not_dir (fw_fs w1) ((s ++ y) ++ [n])) as [Hl Hno].
  { split; intros x Hx; rewrite <- app_assoc in Hx; apply Hm1 in Hx; [done|]. destruct Hx as [? Hx].
    rewrite app_assoc in Hx. congruence. }
  destruct (write_run no_fs (s ++ y) n c w1 Hwf1 Hd1 Hn Hl Hno) as (m & t & w2 & E2 & Hk & _).
  assert (∀ l, fw_fs w2 !! l = fw_fs w1 !! l ∨ (l = ((s ++ y) ++ [n])%list ∧ fw_fs w2 !! l = Some (NFile c m t))) as Hins.
  { intros l. rewrite Hk. destruct (decide (l = ((s ++ y) ++ [n])%list)) as [->|Hx]; [right | left].
    - split; [done|]. apply lookup_insert_eq.
    - by rewrite lookup_insert_ne. }
  exists (s ++ y)%list, n, w1, w2. split_and!; [done | done | done| | | | |].
  - rewrite Hk. by apply wf_insert_entry.
  - destruct Hs as [ms Hs]. exists ms. destruct (Hins s) as [->|[Hx _]].
    + destruct (Hmade s) as [->|(_ & ? & _)]; [done | congruence].
    + apply (f_equal length) in Hx. rewrite !length_app in Hx. cbn in Hx. lia.
  - intros x k Hx. destruct (Hins (s ++ x)%list) as [E|[E Hf]].
    + rewrite E in Hx. by apply Hm1.
    + rewrite Hf in Hx. injection Hx as <-. rewrite <- app_assoc in E. apply app_inv_head in E as ->.
      rewrite app_assoc. eauto.
  - exists c, m, t. rewrite Hk. apply lookup_insert_eq.
  - intros l (c' & m' & t' & Hx). destruct (Hins l) as [E|[_ E]]; [|by do 3 eexists]. unfold holds_file. rewrite E.
    destruct (Hmade l) as [->|(_ & ? & _)]; [by do 3 eexists | congruence].
Qed.

Lemma extract_files_run fs0 r s files fuel w :
  fs_wf fs0 → Forall (from_tree fs0 r) files → Forall good_name s → (length files < fuel)%nat →
  fs_wf (fw_fs w) → is_dir (fw_fs w) s → mirrors fs0 r s (fw_fs w) →
  ∃ w', extract_files fuel (loc_text s) (frames files) w = (Ok tt, w')
    ∧ mirrors fs0 r s (fw_fs w')
    ∧ (∀ f, In f files → holds_file (fw_fs w') (s ++ f.1))
    ∧ ∀ l, holds_file (fw_fs w) l → holds_file (fw_fs w') l.
Proof using no_fs.
  intros Hwf0 Hf Hgs. revert fuel w. induction Hf as [|f files Hff Hf IH]; intros [|fuel] w Hlen Hwf Hs Hm;
    cbn [length] in Hlen; try lia.
  { exists w. split_and!; [done | done | by intros ? [] | done]. }
  assert (Forall good_name (s ++ f.1)) as Hg.
  { apply Forall_app. split; [done|]. destruct Hff as (_ & _ & m & t & Hx). pose proof (wf_names _ _ _ Hwf0 Hx) as Hx'.
    by apply Forall_app in Hx' as [_ ?]. }
  destruct (extract_file_run fs0 r s f w) as (d & n & w1 & w2 & El & E1 & E2 & Hwf2 & Hs2 & Hm2 & Hh & Hk); [done..|].
  destruct (IH fuel (fs_tick w2)) as (w3 & E3 & Hm3 & Hin & Hk3); [lia | done..|].
  exists w3. split_and!; [|done | |auto].
  - destruct Hff as (Hne & Ha & _). cbn [extract_files frames map concat]. fold (frames files).
    rewrite read_frame_entry, copy_take_app by done. rewrite path_join_pieces, El, path_parent_loc by (done || by rewrite <- El).
    unfold bio. rewrite (bind_run _ _ _ _ _ (map_err_run _ _ _ _ _ E1)).
    rewrite (bind_run _ _ _ _ _ (map_err_run _ _ _ _ _ E2)), N.eqb_refl. cbn [negb].
    erewrite bind_run; [exact E3|]. apply map_err_run. unfold fs_sync, fs_query. rewrite sys_run by done.
    by destruct w2.
  - intros g [<-|Hg']; [by apply Hk3 | by apply Hin].
Qed.

Lemma frames_length files : (length files ≤ length (frames files))%nat.
Proof using.
  induction files as [|f files IH]; [done|]. unfold frames in *. cbn [map concat length]. unfold archive_entry at 1.
  rewrite !length_app, !be_bytes_length. lia.
Qed.

Lemma bio_run {A} (c : M FilesWorld errno A) w a w' : c w = (Ok a, w') → bio c w = (Ok a, w').
Proof using. apply map_err_run. Qed.

Lemma sync_run w : bio fs_sync w = (Ok tt, fs_tick w).
Proof using no_fs. unfold bio, fs_sync, fs_query. apply map_err_run. rewrite sys_run by done. by destruct w. Qed.

Lemma digest_artifact `{!DigestLaws} resource name content :
  restore_path_new (bytes name) = Ok (bytes name) →
  ∃ a, artifact_from_digest resource name (Z.of_nat (length content)) (digest_text content) = Ok a
    ∧ artifact_verify a content = true.
Proof using.
  intros Hn. unfold artifact_from_digest. rewrite Hn, digest_text_len. cbn [result_bind].
  pose proof (digest_text_hex content) as Hh.
  assert (forallb is_ascii_hexdigit (bytes (digest_text content)) = true) as ->.
  { apply forallb_forall. intros c Hc. rewrite Forall_forall in Hh. by apply Hh, list_elem_of_In. }
  eexists. split; [done|]. unfold artifact_verify. cbn [art_size art_sha256]. rewrite Z.eqb_refl.
  replace (map ascii_lower (bytes (digest_text content))) with (bytes (digest_text content)).
  - rewrite of_bytes_bytes. cbn. apply String.eqb_refl.
  - symmetry. transitivity (map (λ c : N, c) (bytes (digest_text content))); [|apply map_id].
    apply map_ext_in. intros c Hc. rewrite Forall_forall in Hh.
    by apply Hh, list_elem_of_In.
Qed.

(** What is needed of a document root [r], of the place [d/n] of its archive and of the place
    [e/k] where it is extracted. *)
Record archive_places (fs : FS) (r d : Loc) (n : Name) (e : Loc) (k : Name) : Prop := {
  ap_wf : fs_wf fs;
  ap_root : is_dir fs r;
  ap_files : ∀ x c m t, fs !! (r ++ x)%list = Some (NFile c m t) →
    valid_utf8 (join_pieces x) = true ∧ N.of_nat (length (join_pieces x)) ≤ MAX_PATH
    ∧ N.of_nat (length c) ≤ MAX_FILE;
  ap_archive : is_dir fs d ∧ good_name n ∧ fs !! (d ++ [n])%list = None ∧ under r (d ++ [n]) = false;
  ap_staging : is_dir fs e ∧ good_name k ∧ fs !! (e ++ [k])%list = None;
  ap_apart : (d ++ [n])%list ≠ (e ++ [k])%list
}.

Lemma outside_ne r l x : under r l = false → l ≠ (r ++ x)%list.
Proof using. intros Hu ->. rewrite (proj2 (under_true r (r ++ x))) in Hu; [done | by eexists]. Qed.

Lemma insert_dir fs l x q : fs !! l = None → is_dir fs q → is_dir (<[l := x]> fs) q.
Proof using. intros Hl [m Hq]. exists m. rewrite lookup_insert_ne; [done|]. intros <-. congruence. Qed.

(** Capturing the document root. *)
Lemma stream_run `{!WalkLaws} `{!DigestLaws} r d n e k resource name w :
  archive_places (fw_fs w) r d n e k → restore_path_new (bytes name) = Ok (bytes name) →
  ∃ artifact files m t w', stream_site_archive (loc_text r) (loc_text (d ++ [n])) resource name w = (Ok artifact, w')
    ∧ fw_fs w' = <[(d ++ [n])%list := NFile (MAGIC ++ frames files) m t]> (fw_fs w)
    ∧ artifact_verify artifact (MAGIC ++ frames files) = true
    ∧ Forall (from_tree (fw_fs w) r) files
    ∧ ∀ x c m t, x ≠ [] → fw_fs w !! (r ++ x)%list = Some (NFile c m t) → In (x, c) files.
Proof using no_fs.
  intros [Hwf [mr Hr] Hfiles (Hd & Hn & Hnone & Hout) _ _] Hname.
  assert (Forall good_name r) as Hgr by (by eapply wf_names).
  assert (∀ c m t q, is_dir (fw_fs w) q → is_dir (<[(d ++ [n])%list := NFile c m t]> (fw_fs w)) q) as Hdirs
    by (intros; by apply insert_dir).
  unfold stream_site_archive. erewrite bind_run.
  2:{ unfold is_dir_path, attempt. unfold bind. rewrite (metadata_run no_fs _ r (NDir mr)); [done | | done].
      apply locate_real; [done|]. by exists (NDir mr). }
  cbn [metadata_of m_is_dir negb].
  destruct (write_run no_fs d n [] (fs_tick w)) as (m1 & t1 & w1 & E1 & Hk1 & _);
    [done | done | done | by intros x; cbn; rewrite Hnone | by intros x; cbn; rewrite Hnone|].
  rewrite (bind_run _ _ _ _ _ (bio_run _ _ _ _ E1)). cbn [fs_tick fw_fs] in Hk1.
  assert (fs_wf (fw_fs w1)) as Hwf1 by (rewrite Hk1; apply wf_insert_entry; [done..|by intros x; rewrite Hnone]).
  destruct (walk_dir_finds (w_step (fw_world w1)) (fw_fs w1) r) as (l & El & Hl); [done | done | rewrite Hk1; apply Hdirs; by exists mr|].
  assert (∀ x c m t, fw_fs w1 !! (r ++ x)%list = Some (NFile c m t) ↔ fw_fs w !! (r ++ x)%list = Some (NFile c m t)) as Hsame.
  { intros x c m t. rewrite Hk1, lookup_insert_ne; [done|]. by apply outside_ne. }
  assert (∀ x c m t, x ≠ [] → fw_fs w !! (r ++ x)%list = Some (NFile c m t) → from_tree (fw_fs w) r (x, c)) as Hft.
  { intros x c m t Hx Hf. destruct (Hfiles x c m t Hf) as (Hu & Hlen & Hc). split_and!; [done| |eauto]. split_and!; [done| |done..].
    apply restore_path_pieces; [|done]. pose proof (wf_names _ _ _ Hwf Hf) as Hg. by apply Forall_app in Hg as [_ ?]. }
  assert (∀ f, from_tree (fw_fs w1) r f ↔ from_tree (fw_fs w) r f) as Hfrom.
  { intros f. unfold from_tree. by setoid_rewrite Hsame. }
  erewrite bind_run by reflexivity. rewrite El.
  destruct (archive_files_run r l (fs_tick w1)) as (files & w2 & E2 & [Hk2 _] & Hfs & Hin); [done| |].
  { intros p (x & c & m & t & -> & Hx & Hf)%Hl. exists (x, c). split; [done|]. cbn [fs_tick fw_fs]. apply Hfrom.
    eapply Hft; [done | by apply Hsame]. }
  rewrite (bind_run _ _ _ _ _ E2). cbn [fs_tick fw_fs] in Hk2, Hfs.
  destruct (write_run no_fs d n (MAGIC ++ frames files) w2) as (m3 & t3 & w3 & E3 & Hk3 & _);
    [by rewrite Hk2 | rewrite Hk2, Hk1; by apply Hdirs | done | intros x; by rewrite Hk2, Hk1, lookup_insert_eq
    | intros x; by rewrite Hk2, Hk1, lookup_insert_eq|].
  rewrite Hk2, Hk1, insert_insert_eq in Hk3.
  unfold write_synced. erewrite bind_run; [|erewrite bind_run; [apply sync_run | apply bio_run, E3]].
  assert (fs_wf (fw_fs w3)) as Hwf3 by (rewrite Hk3; apply wf_insert_entry; [done..|by intros x; rewrite Hnone]).
  erewrite bind_run.
  2:{ apply bio_run, (read_run _ (d ++ [n]) (MAGIC ++ frames files) m3 t3); cbn [fs_tick fw_fs];
      [apply locate_real; [done|]; eexists | ]; rewrite Hk3, lookup_insert_eq; done. }
  destruct (digest_artifact resource name (MAGIC ++ frames files) Hname) as (artifact & Ea & Hv).
  exists artifact, files, m3, t3. eexists. split; [unfold validated; rewrite Ea; done|].
  split; [done|]. split; [done|]. split.
  - eapply Forall_impl; [exact Hfs|]. intros f. by rewrite Hfrom.
  - intros x c m t Hx Hf. destruct (Hin (loc_text (r ++ x))) as ([x' c'] & Hp & Hinf).
    { apply Hl. exists x, c, m, t. split_and!; [done | done|]. by apply Hsame. }
    rewrite Forall_forall in Hfs. apply list_elem_of_In in Hinf as Hfx. apply Hfs, Hfrom in Hfx.
    destruct Hfx as (_ & _ & m' & t' & Hf'). cbn [fst snd] in *.
    apply (f_equal (λ p, names (split SLASH p))) in Hp.
    rewrite (names_split_loc _ (wf_names _ _ _ Hwf Hf)), (names_split_loc _ (wf_names _ _ _ Hwf Hf')) in Hp.
    apply app_inv_head in Hp as <-. congruence.
Qed.

(** Extracting what was captured. *)
Lemma extract_run r d n e k files m t w w1 :
  archive_places (fw_fs w) r d n e k → Forall (from_tree (fw_fs w) r) files →
  fw_fs w1 = <[(d ++ [n])%list := NFile (MAGIC ++ frames files) m t]> (fw_fs w) →
  ∃ w2, extract_site_archive (loc_text (d ++ [n])) (loc_text (e ++ [k])) w1 = (Ok tt, w2)
    ∧ mirrors (fw_fs w) r (e ++ [k]) (fw_fs w2)
    ∧ ∀ f, In f files → holds_file (fw_fs w2) ((e ++ [k]) ++ f.1).
Proof using no_fs.
  intros [Hwf Hr _ (Hd & Hn & Hnone & _) (He & Hk & Hmiss) Hapart] Hfiles Hfs.
  assert (fs_wf (fw_fs w1)) as Hwf1 by (rewrite Hfs; apply wf_insert_entry; [done..|by intros x; rewrite Hnone]).
  assert (Forall good_name (e ++ [k])) as Hg.
  { apply Forall_app. split; [|by constructor]. destruct He as [x Hx]. exact (wf_names _ _ _ Hwf Hx). }
  assert (∀ q, q `prefix_of` e → is_dir (fw_fs w1) q) as Habove.
  { intros q Hq. rewrite Hfs. apply insert_dir; [done|]. by eapply dir_prefix. }
  assert (∀ x, fw_fs w1 !! ((e ++ [k]) ++ x)%list = None) as Hempty.
  { intros x. destruct (fw_fs w1 !! ((e ++ [k]) ++ x)%list) as [y|] eqn:E; [|done]. exfalso.
    assert (is_Some (fw_fs w1 !! (e ++ [k])%list)) as [z Hz].
    { destruct (decide (x = [])) as [->|Hx]; [rewrite app_nil_r in E; by eexists|].
      destruct (wf_above _ _ _ _ Hwf1 E Hx) as [z Hz]. by eexists. }
    rewrite Hfs, lookup_insert_ne in Hz by done. congruence. }
  destruct (create_dir_all_make no_fs (e ++ [k]) (fs_tick w1)) as (w2 & E2 & Hwf2 & Hd2 & Hmade); [done | done| |].
  { intros q Hq. destruct (decide (q = (e ++ [k])%list)) as [->|Hne].
    - left. cbn. specialize (Hempty []). by rewrite app_nil_r in Hempty.
    - right. cbn. apply Habove. destruct Hq as [x Hx]. destruct x as [|y x _] using rev_ind; [by rewrite app_nil_r in Hx|].
      rewrite app_assoc in Hx. apply app_inj_tail in Hx as [-> _]. by eexists. }
  assert (mirrors (fw_fs w) r (e ++ [k]) (fw_fs w2)) as Hm2.
  { intros x y Hx. destruct (Hmade ((e ++ [k]) ++ x)%list) as [E|(Hp & _ & [mm E])].
    - cbn in E. rewrite E, Hempty in Hx. done.
    - rewrite E in Hx. injection Hx as <-. apply prefix_length in Hp. rewrite length_app in Hp.
      destruct x; [by rewrite app_nil_r|]. cbn in Hp. lia. }
  destruct (extract_files_run (fw_fs w) r (e ++ [k]) files (S (length (frames files))) w2) as (w3 & E3 & Hm3 & Hin & _);
    [done | done | done | pose proof (frames_length files); lia | done | done | done|].
  exists w3. split; [|done]. unfold extract_site_archive. erewrite bind_run.
  2:{ apply bio_run, (read_run _ (d ++ [n]) (MAGIC ++ frames files) m t);
      [apply locate_real; [done|]; eexists|]; rewrite Hfs, lookup_insert_eq; done. }
  rewrite read_exact_app by done. rewrite bool_decide_eq_true_2 by done. cbn [negb].
  by rewrite (bind_run _ _ _ _ _ (bio_run _ _ _ _ E2)).
Qed.

(** C13 (a backup gives the files back).  When no call fails from outside, a document root all of
    whose files have paths that are UTF-8 and of at most 16 KiB and are of at most 1 TiB each is
    archived to a new file outside it, and the archive is extracted into a fresh directory: both
    succeed, the
    recorded size and digest are those of the archive, and the directory then holds exactly the
    regular files of the document root, each at its path and with its content. *)
Theorem archive_roundtrip `{!WalkLaws} `{!DigestLaws} (r d : Loc) (n : Name) (e : Loc) (k : Name)
    (resource : BackupResource) (name : string) (w : FilesWorld) :
  archive_places (fw_fs w) r d n e k → restore_path_new (bytes name) = Ok (bytes name) →
  ∃ artifact w1 w2,
    stream_site_archive (loc_text r) (loc_text (d ++ [n])) resource name w = (Ok artifact, w1)
    ∧ extract_site_archive (loc_text (d ++ [n])) (loc_text (e ++ [k])) w1 = (Ok tt, w2)
    ∧ (∃ content m t, fw_fs w1 !! (d ++ [n])%list = Some (NFile content m t) ∧ artifact_verify artifact content = true)
    ∧ ∀ x c, (∃ m t, fw_fs w2 !! ((e ++ [k]) ++ x)%list = Some (NFile c m t))
             ↔ (∃ m t, fw_fs w !! (r ++ x)%list = Some (NFile c m t)).
Proof using no_fs.
  intros Hp Hname. destruct (stream_run r d n e k resource name w Hp Hname)
    as (artifact & files & m & t & w1 & E1 & Hfs & Hv & Hfiles & Hall).
  destruct (extract_run r d n e k files m t w w1 Hp Hfiles Hfs) as (w2 & E2 & Hm & Hin).
  exists artifact, w1, w2. split_and!; [done | done | |].
  - do 3 eexists. split; [rewrite Hfs; apply lookup_insert_eq | done].
  - intros x c. split.
    + intros (m' & t' & Hx). by apply Hm in Hx.
    + intros (m' & t' & Hx). assert (x ≠ []) as Hne.
      { intros ->. destruct (ap_root _ _ _ _ _ _ Hp) as [y Hy]. rewrite app_nil_r in Hx. congruence. }
      destruct (Hin (x, c) (Hall _ _ _ _ Hne Hx)) as (c' & m2 & t2 & Hf). cbn [fst] in Hf.
      destruct (Hm x _ Hf) as (m3 & t3 & Hx'). rewrite Hx in Hx'. injection Hx' as <- _ _. eauto.
Qed.
End no_faults.
