(* ===== verification/StagingSafety.v ===== *)
(** * Staging: what the services keep, and where they get stuck

    The invariant of the site and staging tables, the life of a promotion run, the lock, and
    what [promote] and [sync_snapshot] do. *)
From S2P Require Import Prelude Text AuditActions AuditLog Accounts Paths CronJobs HostingTables Store Users Sites Staging StagingChanges.
Open Scope N_scope.

(** ** The invariant of the tables *)

Definition snapshot_key (r : SnapshotRow) : Uuid * Z := (sn_site_id r, sn_snapshot r).

(** What a stored slot looks like: it decodes and passed [StagingSlot::new]. *)
Definition slot_row_ok (r : SlotRow) : Prop :=
  is_ok (into_slot r) = true ∧ sl_subdomain r ≠ "" ∧ starts_with (sl_document_root r) "/" = true
  ∧ contains_str (sl_document_root r) ".." = false
  ∧ contains_str (sl_document_root r) "staging" = true
  ∧ ends_with (sl_db_name r) "_staging" = true.

(** A stored run decodes; it is never stored as pending or failed. *)
Definition run_row_ok (r : PromotionRow) : Prop :=
  ∃ p, r = run_row p ∧ (1 ≤ run_snapshot p)%Z
       ∧ (run_status p = Promoting ∨ run_status p = Promoted ∨ run_status p = RolledBack).

(** The snapshots of a slot are numbered without gaps, and what was promoted was taken. *)
Definition slot_chain (taken : list SnapshotRow) (r : SlotRow) : Prop :=
  (∀ n, sl_current_snapshot r = Some n →
     (1 ≤ n)%Z ∧ ∀ k, (1 ≤ k ≤ n)%Z → In (sl_site_id r, k) (map snapshot_key taken))
  ∧ (∀ m, sl_last_promoted_snapshot r = Some m →
       ∃ n, sl_current_snapshot r = Some n ∧ (1 ≤ m ≤ n)%Z).

Record sites_wf (h : HostingTables) : Prop := {
  sw_ids : NoDup (map si_id (ht_sites h));
  sw_domains : NoDup (map si_primary_domain (ht_sites h));
  sw_rows : ∀ r, In r (ht_sites h) → site_row_ok r
}.

Record keys_wf (h : HostingTables) : Prop := {
  kw_slot_ids : NoDup (map sl_id (ht_slots h));
  kw_slot_sites : NoDup (map sl_site_id (ht_slots h));
  kw_snapshots : NoDup (map snapshot_key (ht_snapshots h));
  kw_runs : NoDup (map pm_id (ht_promotions h));
  kw_locks : NoDup (map lk_site_id (ht_locks h))
}.

(** [FOREIGN KEY (site_id) REFERENCES sites] of the four tables. *)
Record refs_wf (h : HostingTables) : Prop := {
  rw_slots : ∀ i, In i (map sl_site_id (ht_slots h)) → In i (map si_id (ht_sites h));
  rw_snapshots : ∀ i, In i (map sn_site_id (ht_snapshots h)) → In i (map si_id (ht_sites h));
  rw_runs : ∀ i, In i (map pm_site_id (ht_promotions h)) → In i (map si_id (ht_sites h));
  rw_locks : ∀ i, In i (map lk_site_id (ht_locks h)) → In i (map si_id (ht_sites h))
}.

Record rows_wf (h : HostingTables) : Prop := {
  ow_slots : ∀ r, In r (ht_slots h) → slot_row_ok r;
  ow_chain : ∀ r, In r (ht_slots h) → slot_chain (ht_snapshots h) r;
  ow_runs : ∀ r, In r (ht_promotions h) → run_row_ok r;
  ow_run_taken : ∀ r, In r (ht_promotions h) →
    In (pm_site_id r, pm_snapshot r) (map snapshot_key (ht_snapshots h))
}.

Definition staging_wf (h : HostingTables) : Prop :=
  sites_wf h ∧ keys_wf h ∧ refs_wf h ∧ rows_wf h.

(** *** Lists *)

Lemma delete_where_incl {A B} (f : A → B) p t x :
  In x (map f (delete_where p t)) → In x (map f t).
Proof.
  intros (r & <- & [Hin _]%delete_where_In)%in_map_iff. by apply in_map.
Qed.

(** Rows that refer to another site outlive the deletion of a site. *)
Lemma cascade_refs {A} (site_of : A → Uuid) (id : Uuid) (rows : list A) (sites : list SiteRow) i :
  (∀ i, In i (map site_of rows) → In i (map si_id sites)) →
  In i (map site_of (delete_where (λ r, site_of r =? id) rows)) →
  In i (map si_id (delete_where (site_is id) sites)).
Proof.
  intros Hrefs (r & <- & [Hin Hne]%delete_where_In)%in_map_iff.
  destruct (proj1 (in_map_iff _ _ _) (Hrefs _ (in_map site_of _ _ Hin))) as (s & Heq & Hs).
  apply in_map_iff. exists s. split; [done|]. apply delete_where_In. split; [done|].
  unfold site_is. by rewrite Heq.
Qed.

Lemma existsb_known site h : known_site site h = true → In site (map si_id (ht_sites h)).
Proof.
  intros (r & Hin & Hr)%existsb_exists. apply N.eqb_eq in Hr as <-. by apply in_map.
Qed.

Lemma known_site_In site h : In site (map si_id (ht_sites h)) → known_site site h = true.
Proof.
  intros (r & <- & Hin)%in_map_iff. apply existsb_exists. exists r. split; [done|]. apply N.eqb_refl.
Qed.

Lemma snapshot_is_key site n r : snapshot_is site n r = true ↔ snapshot_key r = (site, n).
Proof. unfold snapshot_is, snapshot_key. rewrite andb_true_iff, N.eqb_eq, Z.eqb_eq. naive_solver. Qed.

Lemma existsb_snapshot site n t :
  existsb (snapshot_is site n) t = true ↔ In (site, n) (map snapshot_key t).
Proof.
  rewrite existsb_exists, in_map_iff. split; intros (r & ? & ?); exists r;
    [rewrite <- snapshot_is_key | rewrite snapshot_is_key]; done.
Qed.

Lemma existsb_snapshot_false site n t :
  existsb (snapshot_is site n) t = false ↔ ~ In (site, n) (map snapshot_key t).
Proof. rewrite <- existsb_snapshot. by destruct (existsb _ _). Qed.

Lemma fresh_key {A K} (key : A → K) (p : A → bool) t (k : K) :
  (∀ r, key r = k → p r = true) → existsb p t = false → ~ In k (map key t).
Proof.
  intros Hp He (r & Hk & Hin)%in_map_iff. rewrite existsb_false in He.
  by specialize (He r Hin); rewrite Hp in He.
Qed.

(** *** Preservation, group by group *)

Section invariant.
Context `{SqliteTime}.

(** The keys of a slot and of a run survive an update. *)
Lemma slot_set_keys id s t :
  map sl_id (update_where (slot_is id) (slot_row_set s) t) = map sl_id t
  ∧ map sl_site_id (update_where (slot_is id) (slot_row_set s) t) = map sl_site_id t.
Proof. split; by apply update_where_key. Qed.

Lemma run_set_keys id p t :
  map pm_id (update_where (promotion_is id) (run_row_set p) t) = map pm_id t
  ∧ map pm_site_id (update_where (promotion_is id) (run_row_set p) t) = map pm_site_id t.
Proof. split; by apply update_where_key. Qed.

Lemma insert_slot_ok r h h' :
  insert_slot_row r h = Ok (tt, h') →
  h' = set_slots (ht_slots h ++ [r]) h ∧ ~ In (sl_id r) (map sl_id (ht_slots h))
  ∧ ~ In (sl_site_id r) (map sl_site_id (ht_slots h)) ∧ In (sl_site_id r) (map si_id (ht_sites h)).
Proof.
  unfold insert_slot_row. destruct (existsb (slot_is _) _) eqn:E1; [done|].
  destruct (existsb (slot_of _) _) eqn:E2; [done|]. destruct (known_site _ _) eqn:E3; [|done].
  intros [= <-]. split_and!; [done| | |by apply existsb_known].
  - eapply fresh_key, E1. intros x Hx. by apply N.eqb_eq.
  - eapply fresh_key, E2. intros x Hx. by apply N.eqb_eq.
Qed.

Lemma insert_snapshot_ok r h h' :
  insert_snapshot_row r h = Ok (tt, h') →
  h' = set_snapshots (ht_snapshots h ++ [r]) h
  ∧ ~ In (snapshot_key r) (map snapshot_key (ht_snapshots h))
  ∧ In (sn_site_id r) (map si_id (ht_sites h)).
Proof.
  unfold insert_snapshot_row. destruct (existsb _ _) eqn:E1; [done|].
  destruct (known_site _ _) eqn:E3; [|done]. intros [= <-].
  split_and!; [done|by apply existsb_snapshot_false|by apply existsb_known].
Qed.

Lemma insert_run_ok r h h' :
  insert_promotion_row r h = Ok (tt, h') →
  h' = set_promotions (ht_promotions h ++ [r]) h ∧ ~ In (pm_id r) (map pm_id (ht_promotions h))
  ∧ In (pm_site_id r) (map si_id (ht_sites h)).
Proof.
  unfold insert_promotion_row. destruct (existsb _ _) eqn:E1; [done|].
  destruct (known_site _ _) eqn:E3; [|done]. intros [= <-].
  split_and!; [done| |by apply existsb_known].
  eapply fresh_key, E1. intros x Hx. by apply N.eqb_eq.
Qed.

(** The lock table after an attempt to take it. *)
Lemma acquire_locks site by_ t b h h' :
  acquire_lock_row site by_ t h = Ok (b, h') →
  ∃ l, h' = set_locks l h
    ∧ (map lk_site_id l = map lk_site_id (ht_locks h)
       ∨ map lk_site_id l = (map lk_site_id (ht_locks h) ++ [site])%list
         ∧ ~ In site (map lk_site_id (ht_locks h)) ∧ In site (map si_id (ht_sites h))).
Proof.
  unfold acquire_lock_row. destruct (List.find _ _) as [x|] eqn:Ef.
  - destruct (_ || _); intros [= _ <-].
    + eexists; split; [done|]. left. unfold update_where. rewrite map_map. apply map_ext.
      intros r. unfold lock_of. by destruct (N.eqb_spec (lk_site_id r) site) as [->|].
    + exists (ht_locks h). split; [by destruct h | by left].
  - destruct (known_site _ _) eqn:E; [|done]. intros [= _ <-]. eexists; split; [done|]. right.
    rewrite map_app. split_and!; [done| |by apply existsb_known].
    intros (r & Hr & Hin)%in_map_iff. eapply List.find_none in Ef; [|exact Hin].
    unfold lock_of in Ef. by rewrite Hr, N.eqb_refl in Ef.
Qed.

Lemma sites_wf_change h h' : hosting_change h h' → sites_wf h → sites_wf h'.
Proof.
  intros [Hc|Hc] [H1 H2 H3].
  - destruct Hc as [r h Hr Hid Hdom|id f h Hf|id h]; unfold delete_site_rows;
      [| |destruct (existsb _ _); [|done]]; constructor; cbn.
    + apply NoDup_snoc; [done|]. eapply fresh_key, Hid. intros x Hx. by apply N.eqb_eq.
    + apply NoDup_snoc; [done|]. eapply fresh_key, Hdom. intros x Hx. by apply String.eqb_eq.
    + intros x [Hx|[<-|[]]]%in_app_or; auto.
    + rewrite update_where_key; [done|]. intros r. apply Hf.
    + rewrite update_where_key; [done|]. intros r. apply Hf.
    + intros x (r & Hr & ->)%update_where_In. destruct (site_is id r); [apply Hf|]; auto.
    + by apply delete_where_NoDup.
    + by apply delete_where_NoDup.
    + intros x [Hx _]%delete_where_In. auto.
  - enough (ht_sites h' = ht_sites h) as E by (constructor; by rewrite E).
    destruct Hc as [s h h' _ Hi|? ? ? h|? h|? ? ? h h' _ _ _ Hi|? ? ? h h' _ _ _ _ _ Hi|? ? h|? ? ? ? h h' Hi|? ? h];
      try done.
    + by apply insert_slot_ok in Hi as [-> _].
    + by apply insert_snapshot_ok in Hi as [-> _].
    + by apply insert_run_ok in Hi as [-> _].
    + by apply acquire_lock_row_locks in Hi as (l & ->).
Qed.

Lemma keys_wf_change h h' : hosting_change h h' → keys_wf h → keys_wf h'.
Proof.
  intros [Hc|Hc] [H1 H2 H3 H4 H5].
  - destruct Hc as [| |id h]; try done. unfold delete_site_rows. destruct (existsb _ _); [|done].
    constructor; cbn; by apply delete_where_NoDup.
  - destruct Hc as [s h h' _ Hi|? ? s h|? h|? ? ? h h' _ _ _ Hi|? ? ? h h' _ _ _ _ _ Hi|? p h|? ? ? ? h h' Hi|? ? h].
    + apply insert_slot_ok in Hi as (-> & ? & ? & _). constructor; cbn; try done; by apply NoDup_snoc.
    + destruct (slot_set_keys (slot_id s) s (ht_slots h)) as [E1 E2].
      constructor; cbn; try done; [by rewrite E1 | by rewrite E2].
    + constructor; cbn; try done; by apply delete_where_NoDup.
    + apply insert_snapshot_ok in Hi as (-> & ? & _). constructor; cbn; try done. by apply NoDup_snoc.
    + apply insert_run_ok in Hi as (-> & ? & _). constructor; cbn; try done. by apply NoDup_snoc.
    + constructor; cbn; try done. by rewrite (proj1 (run_set_keys _ _ _)).
    + apply acquire_locks in Hi as (l & -> & [E|(E & ? & _)]); constructor; cbn; try done;
        rewrite E; [done|]. apply NoDup_app. split_and!; [done| |apply NoDup_singleton].
      intros x Hx ->%list_elem_of_singleton. by apply list_elem_of_In in Hx.
    + constructor; cbn; try done; by apply delete_where_NoDup.
Qed.

Lemma refs_wf_change h h' : hosting_change h h' → refs_wf h → refs_wf h'.
Proof.
  intros [Hc|Hc] [H1 H2 H3 H4].
  - destruct Hc as [r h|id f h Hf|id h].
    + constructor; cbn; intros i Hi; rewrite map_app; apply in_or_app; left; auto.
    + constructor; cbn; intros i Hi; (rewrite update_where_key; [auto|]); intros r; apply Hf.
    + unfold delete_site_rows. destruct (existsb _ _); [|done].
      constructor; cbn; intros i; by apply cascade_refs.
  - destruct Hc as [s h h' _ Hi|? ? s h|? h|? ? ? h h' _ _ _ Hi|? ? ? h h' _ _ _ _ _ Hi|? p h|? ? ? ? h h' Hi|? ? h].
    + apply insert_slot_ok in Hi as (-> & _ & _ & ?). constructor; cbn; try done.
      intros i. rewrite map_app. intros [Hi|[<-|[]]]%in_app_or; auto.
    + destruct (slot_set_keys (slot_id s) s (ht_slots h)) as [_ E2].
      constructor; cbn; try done. by rewrite E2.
    + constructor; cbn; try done. intros i Hi%delete_where_incl. auto.
    + apply insert_snapshot_ok in Hi as (-> & _ & ?). constructor; cbn; try done.
      intros i. rewrite map_app. intros [Hi|[<-|[]]]%in_app_or; auto.
    + apply insert_run_ok in Hi as (-> & _ & ?). constructor; cbn; try done.
      intros i. rewrite map_app. intros [Hi|[<-|[]]]%in_app_or; auto.
    + constructor; cbn; try done. by rewrite (proj2 (run_set_keys _ _ _)).
    + apply acquire_locks in Hi as (l & -> & [E|(E & _ & ?)]); constructor; cbn; try done;
        rewrite E; [done|]. intros i [Hi|[<-|[]]]%in_app_or; auto.
    + constructor; cbn; try done. intros i Hi%delete_where_incl. auto.
Qed.

(** *** Rows *)

Definition snap_ok (o : option Z) : Prop := ∀ n, o = Some n → (1 ≤ n)%Z.

Lemma transpose_snapshot_ok o : is_ok (transpose snapshot_new o) = true ↔ snap_ok o.
Proof.
  unfold snap_ok. destruct o as [n|]; cbn; [|naive_solver]. unfold snapshot_new.
  destruct (Z.ltb_spec n 1); cbn; (split; [|done || intros Hn; specialize (Hn n eq_refl); lia]).
  - done.
  - intros _ m [= <-]. lia.
Qed.

Lemma into_slot_ok r :
  is_ok (into_slot r) = true ↔
  is_ok (parse_policy (sl_sync_policy r)) = true ∧ snap_ok (sl_current_snapshot r)
  ∧ snap_ok (sl_last_promoted_snapshot r).
Proof.
  rewrite <- !transpose_snapshot_ok. unfold into_slot.
  destruct (parse_policy _); cbn; [|naive_solver].
  destruct (transpose _ (sl_current_snapshot r)); cbn; [|naive_solver].
  destruct (transpose _ (sl_last_promoted_snapshot r)); cbn; naive_solver.
Qed.

Lemma parse_policy_str p : parse_policy (policy_str p) = Ok p.
Proof. by destruct p. Qed.

Lemma new_slot_row s : new_slot s → slot_row_ok (slot_row s) ∧ ∀ t, slot_chain t (slot_row s).
Proof.
  intros (id & site & sub & root & db & php & pol & t & s0 & Hn & Hs).
  unfold slot_new in Hn. case_bool_decide; [done|]. destruct (starts_with root "/") eqn:E1; [|done].
  destruct (contains_str root "..") eqn:E2; [done|]. destruct (contains_str root "staging") eqn:E3; [|done].
  cbn [negb] in Hn. case_bool_decide; [done|]. destruct (ends_with db "_staging") eqn:E4; [|done].
  injection Hn as <-. unfold slot_row_ok, slot_chain. rewrite into_slot_ok.
  destruct Hs as [->|(sched & Hs)].
  - cbn. rewrite parse_policy_str. unfold snap_ok. by split_and!; intros; try split; intros.
  - unfold set_schedule in Hs. case_bool_decide; [done|]. destruct (_ && _); [done|].
    injection Hs as <-. cbn. rewrite parse_policy_str. unfold snap_ok. by split_and!; intros; try split; intros.
Qed.

Lemma next_snapshot_row r s :
  into_slot r = Ok s →
  next_snapshot s = match sl_current_snapshot r with Some n => (n + 1)%Z | None => 1%Z end.
Proof.
  intros (_ & _ & _ & _ & _ & E & _)%into_slot_fields. unfold next_snapshot. by rewrite E.
Qed.

Lemma record_snapshot_ok n t s s' :
  record_snapshot n t s = Ok s' →
  s' = slot_with (slot_schedule s) (Some n) (slot_last_promoted_snapshot s) (slot_mail_capture s) t s.
Proof.
  unfold record_snapshot. destruct (slot_current_snapshot s); [|by intros [= <-]].
  destruct (_ <=? _)%Z; [done|]. by intros [= <-].
Qed.

(** The columns that a [slot_change] leaves, and what it makes of the snapshots. *)
Lemma slot_change_row b taken r s s' :
  into_slot r = Ok s → slot_change b taken s s' →
  slot_id s' = sl_id r ∧ sl_site_id (slot_row_set s' r) = sl_site_id r
  ∧ (slot_row_ok r → slot_chain taken r →
     slot_row_ok (slot_row_set s' r) ∧ slot_chain taken (slot_row_set s' r)).
Proof.
  intros Hs Hc. pose proof (next_snapshot_row r s Hs) as Hnext.
  apply into_slot_fields in Hs as (Eid & Esite & Esub & Eroot & Edb & Ecur & Eprom).
  split_and!; [|done|].
  { rewrite <- Eid. destruct Hc as [|t s s' _ Hrec _|]; [done| |done].
    by apply record_snapshot_ok in Hrec as ->. }
  intros (Hi & Hrow) [Hcur Hprom]. unfold slot_row_ok. rewrite into_slot_ok in *.
  destruct Hi as (_ & Hi1 & Hi2). unfold slot_chain, snap_ok.
  destruct Hc as [? t s|t s s' _ Hrec Hex|n t s Hn]; cbn.
  - rewrite Ecur, Eprom, Esub, Eroot, Edb, parse_policy_str. naive_solver.
  - apply record_snapshot_ok in Hrec as ->. cbn.
    rewrite Eprom, Esub, Eroot, Edb, parse_policy_str, Hnext.
    apply existsb_snapshot in Hex. rewrite Esite, Hnext in Hex.
    split; [split; [split_and!; [done| |done]|done]|split].
    + intros n [= <-]. destruct (sl_current_snapshot r) as [m|] eqn:Em; [|lia].
      specialize (Hi1 m eq_refl). lia.
    + intros n [= <-]. destruct (sl_current_snapshot r) as [m|] eqn:Em.
      * destruct (Hcur m eq_refl) as [Hm Hall]. split; [lia|]. intros k Hk.
        destruct (decide (k = m + 1)%Z) as [->|]; [done|]. apply Hall. lia.
      * split; [lia|]. intros k Hk. by replace k with 1%Z by lia.
    + intros m Hm. destruct (Hprom m Hm) as (n & En & Hle). rewrite En. eexists. split; [done|]. lia.
  - rewrite Ecur, Esub, Eroot, Edb, parse_policy_str. rewrite Ecur in Hn.
    split; [split; [split_and!; [done|done|]|done]|split; [done|]].
    + intros m [= <-]. by apply Hi1.
    + intros m [= <-]. exists n. split; [done|]. specialize (Hi1 n Hn). lia.
Qed.

Lemma slot_chain_mono taken taken' r :
  (∀ k, In (sl_site_id r, k) (map snapshot_key taken) → In (sl_site_id r, k) (map snapshot_key taken')) →
  slot_chain taken r → slot_chain taken' r.
Proof. intros Hsub [H1 H2]. split; [|done]. intros n Hn. destruct (H1 n Hn). auto. Qed.

Lemma run_end_row p p' : run_end p p' → run_id p' = run_id p ∧ run_site_id p' = run_site_id p
  ∧ run_snapshot p' = run_snapshot p ∧ (run_status p' = Promoted ∨ run_status p' = RolledBack).
Proof.
  intros [t r r' Hr|reason t r r' Hr]; unfold complete_promotion, mark_rolled_back in Hr;
    destruct (run_status r); simplify_eq; auto.
Qed.

Lemma run_end_request p p' : run_end p p' →
  run_confirmed_at p' = run_confirmed_at p ∧ run_requested_by p' = run_requested_by p.
Proof.
  intros [t r r' Hr|reason t r r' Hr]; unfold complete_promotion, mark_rolled_back in Hr;
    destruct (run_status r); by simplify_eq.
Qed.

Lemma run_row_set_self p p' : run_end p p' → run_row_set p' (run_row p) = run_row p'.
Proof. intros (E1 & E2 & _)%run_end_row. unfold run_row_set, run_row; cbn. by rewrite E1, E2. Qed.

Lemma delete_site_snapshots id site k t :
  site ≠ id → In (site, k) (map snapshot_key t) →
  In (site, k) (map snapshot_key (delete_where (λ r, sn_site_id r =? id) t)).
Proof.
  intros Hne (r & Hk & Hin)%in_map_iff. rewrite <- Hk. apply in_map, delete_where_In.
  split; [done|]. unfold snapshot_key in Hk. injection Hk as <- _. by apply N.eqb_neq.
Qed.

Lemma rows_wf_change h h' : hosting_change h h' → keys_wf h → rows_wf h → rows_wf h'.
Proof.
  intros [Hc|Hc] HK [H1 H2 H3 H4].
  - destruct Hc as [| |id h]; try done. unfold delete_site_rows. destruct (existsb _ _); [|done].
    constructor; cbn; intros r [Hin Hne]%delete_where_In; auto; apply N.eqb_neq in Hne.
    + eapply slot_chain_mono, H2; [|done]. intros k. by apply delete_site_snapshots.
    + by apply delete_site_snapshots, H4.
  - destruct Hc as [s h h' Hnew Hi|x s s' h Hx Hs Hsc|? h|r s ? h h' _ Hr Hs Hi|r s p h h' Hr Hs Hcur Hsite Hst Hi|p p' h Hp Hst He|? ? ? ? h h' Hi|? ? h].
    + apply insert_slot_ok in Hi as (-> & _). destruct (new_slot_row s Hnew).
      constructor; cbn; try done; intros r [Hin|[<-|[]]]%in_app_or; auto.
    + destruct (slot_change_row _ _ _ _ _ Hs Hsc) as (Eid & _ & Hrow).
      destruct (Hrow (H1 x Hx) (H2 x Hx)).
      constructor; cbn; try done; intros r (r0 & Hin & ->)%update_where_In;
        unfold slot_is; (destruct (N.eqb_spec (sl_id r0) (slot_id s')) as [E|]; [|by auto]);
        rewrite (NoDup_key_inj sl_id (ht_slots h) r0 x (kw_slot_ids h HK) Hin Hx) by congruence; done.
    + constructor; cbn; try done; intros r [Hin _]%delete_where_In; auto.
    + apply insert_snapshot_ok in Hi as (-> & _).
      constructor; cbn; try done; intros q Hq; [eapply slot_chain_mono, H2; [|done]|];
        [intros k Hk|]; rewrite map_app; apply in_or_app; left; auto.
    + apply insert_run_ok in Hi as (-> & _).
      pose proof (into_slot_fields _ _ Hs) as (_ & Es & _ & _ & _ & Ec & _).
      destruct (proj1 (H2 r Hr) (run_snapshot p)) as [Hle Hall]; [congruence|].
      constructor; cbn; try done; intros q [Hin|[<-|[]]]%in_app_or; auto; cbn.
      * exists p. auto.
      * rewrite Hsite, Es. apply Hall. lia.
    + destruct (run_end_row _ _ He) as (Ei & Es & En & Hst').
      destruct (H3 _ Hp) as (q & Eq & Hq & _). apply (f_equal pm_snapshot) in Eq; cbn in Eq.
      specialize (H4 _ Hp) as H4'. cbn in H4'.
      constructor; cbn; try done; intros r (r0 & Hin & ->)%update_where_In; unfold promotion_is;
        (destruct (N.eqb_spec (pm_id r0) (run_id p')) as [E|]; [|by auto]);
        rewrite (NoDup_key_inj pm_id (ht_promotions h) r0 (run_row p) (kw_runs h HK) Hin Hp)
          by (cbn; congruence); rewrite run_row_set_self by done.
      * exists p'. split_and!; [done|lia|auto].
      * cbn. by rewrite Es, En.
    + apply acquire_lock_row_locks in Hi as (l & ->). by constructor.
    + by constructor.
Qed.

Lemma staging_wf_change h h' : hosting_change h h' → staging_wf h → staging_wf h'.
Proof.
  intros Hc (? & ? & ? & ?). split_and!.
  - by eapply sites_wf_change.
  - by eapply keys_wf_change.
  - by eapply refs_wf_change.
  - by eapply rows_wf_change.
Qed.
End invariant.

(** ** What a synchronisation does to the tables *)

Definition locks_only (h h' : HostingTables) : Prop := ∃ l, h' = set_locks l h.

#[export] Instance locks_only_preorder : PreOrder locks_only.
Proof.
  split.
  - intros h. exists (ht_locks h). by destruct h.
  - intros h1 h2 h3 [l ->] [l' ->]. by exists l'.
Qed.

Lemma map_err_err {W E F A} (f : E → F) (c : M W E A) w e w' :
  map_err f c w = (Err e, w') → ∃ e', c w = (Err e', w').
Proof. unfold map_err. destruct (c w) as [[]]; [done|]. intros [= _ <-]. eauto. Qed.

Section operations.
Context `{Env} `{SqliteTime} `{StagingFs}.
Abbreviation tables w := (db_hosting (w_db w)).
Abbreviation quiet := (on_db (on_tables locks_only)).

Lemma quiet_db w w' : w_db w' = w_db w → quiet w w'.
Proof. unfold on_db, on_tables. intros ->. reflexivity. Qed.

Lemma quiet_fs {A} (f : nat → result A SiteStagingError) : within quiet (fs_call f).
Proof. intros w. apply quiet_db. unfold fs_call. by destruct (f _). Qed.

Lemma quiet_acquire site by_ : within quiet (acquire site by_).
Proof.
  unfold acquire, staging, try_acquire, sql. within_tac. apply on_db_statement; [apply _|].
  unfold hosting_statement. intros d b d' Hs.
  destruct (acquire_lock_row _ _ _ _) as [[b' h']|] eqn:E'; [|done]. injection Hs as <- <-.
  by apply acquire_lock_row_locks in E'.
Qed.

Lemma quiet_release site by_ : within quiet (release_lock site by_).
Proof.
  unfold release_lock, sql. within_tac. apply on_db_execute; [apply _|]. intros d. by eexists.
Qed.

Lemma quiet_reads site c : within quiet (load_site c site) ∧ within quiet (require_slot site).
Proof.
  split.
  - unfold load_site, sites_find_by_id, fetch_site. within_tac.
  - unfold require_slot, staging, slots_find_by_site, hosting, sql. within_tac.
Qed.

(** The slot [r] of the site is read, the snapshot after its current one is new, and is
    stored; the slot row may not be reached. *)
Definition synced (site : Uuid) (h h' : HostingTables) : Prop :=
  ∃ r s s' t, List.find (slot_of site) (ht_slots h) = Some r ∧ into_slot r = Ok s
    ∧ record_snapshot (next_snapshot s) t s = Ok s'
    ∧ existsb (snapshot_is site (next_snapshot s)) (ht_snapshots h) = false
    ∧ ∃ l slots, h' = set_locks l (set_slots slots (set_snapshots
           (ht_snapshots h ++ [mkSnapshotRow site (next_snapshot s) t]) h))
        ∧ (slots = ht_slots h
           ∨ slots = update_where (slot_is (slot_id s')) (slot_row_set s') (ht_slots h)).

Definition sync_effect (site : Uuid) (h h' : HostingTables) : Prop :=
  locks_only h h' ∨ synced site h h'.

Lemma sync_effect_locks site h h1 h2 :
  sync_effect site h h1 → locks_only h1 h2 → sync_effect site h h2.
Proof.
  intros [Hl|(r & s & s' & t & ? & ? & ? & ? & l & sl & -> & ?)] Hl2.
  - left. by etransitivity.
  - right. destruct Hl2 as [l2 ->]. exists r, s, s', t. split_and!; try done. by exists l2, sl.
Qed.

Lemma quiet_audit {E} actor action outcome build w :
  quiet w (audit (E:=E) actor action outcome build w).2.
Proof. apply on_db_audit; apply _. Qed.

Lemma audit_quiet {E} actor action outcome build w (x : result unit E) w' :
  audit actor action outcome build w = (x, w') → locks_only (tables w) (tables w').
Proof. intros Ha. pose proof (quiet_audit (E:=E) actor action outcome build w) as Hq. by rewrite Ha in Hq. Qed.

Lemma snapshots_insert_err site n t w e w' :
  snapshots_insert site n t w = (Err e, w') → quiet w w'.
Proof. intros [e' Hs%statement_err]%map_err_err. by apply quiet_db. Qed.

Lemma slots_update_ok s w x w' :
  slots_update s w = (Ok x, w') →
  tables w' = set_slots (update_where (slot_is (slot_id s)) (slot_row_set s) (ht_slots (tables w))) (tables w).
Proof. by intros ->%map_err_ok%execute_ok. Qed.

Lemma slots_update_err s w e w' : slots_update s w = (Err e, w') → w_db w' = w_db w.
Proof. by intros [e' ->%statement_err]%map_err_err. Qed.

Lemma snapshots_insert_ok site n t w x w' :
  snapshots_insert site n t w = (Ok x, w') →
  tables w' = set_snapshots (ht_snapshots (tables w) ++ [mkSnapshotRow site n t]) (tables w)
  ∧ existsb (snapshot_is site n) (ht_snapshots (tables w)) = false.
Proof.
  intros Hr%map_err_ok. unfold statement, hosting_statement, insert_snapshot_row in Hr.
  destruct (sql_fault _); [done|]. cbn [sn_site_id sn_snapshot] in Hr.
  destruct (existsb (snapshot_is _ _) _) eqn:E; [done|]. destruct (known_site _ _); [|done].
  by injection Hr as _ <-.
Qed.

(** A step that leaves the tables but for the locks. *)
Lemma quiet_bind {A B} (P : World → Prop) (c : M World PromotionServiceError A)
    (k : A → M World PromotionServiceError B) w0 w :
  (∀ w', quiet w0 w' → P w') → within quiet c → quiet w0 w →
  (∀ a w', c w = (Ok a, w') → quiet w0 w' → P (k a w').2) → P (bind c k w).2.
Proof.
  intros HP Hc Hw Hk. specialize (Hc w). apply bind_post.
  - intros e w1 Hr. rewrite Hr in Hc. apply HP. by transitivity w.
  - intros a w1 Hr. rewrite Hr in Hc. apply Hk; [done|]. by transitivity w.
Qed.

Lemma quiet_guard {A} (P : World → Prop) site by_ (c : M World PromotionServiceError A) w :
  (∀ w1 w2, P w1 → quiet w1 w2 → P w2) → P (c w).2 → P (with_guard site by_ c w).2.
Proof.
  intros HP Hc. unfold with_guard. destruct (c w) as [r w1]; cbn in *.
  eapply HP; [exact Hc|]. apply quiet_release.
Qed.

Lemma sync_snapshot_effect c site w :
  sync_effect site (tables w) (tables (sync_snapshot c site w).2).
Proof.
  destruct (quiet_reads site c) as [Hload Hreq]. unfold sync_snapshot.
  set (P := λ w' : World, sync_effect site (tables w) (tables w')).
  assert (∀ w', quiet w w' → P w') as HP by (intros w' ?; by left).
  assert (∀ w1 w2, P w1 → quiet w1 w2 → P w2) as HPq by (intros w1 w2 ??; by eapply sync_effect_locks).
  match goal with |- sync_effect _ _ (tables ?x) => change (P x) end.
  apply (quiet_bind P _ _ w w HP); [within_tac|reflexivity|]. intros _ w1 _ Hq1.
  apply (quiet_bind P _ _ w w1 HP); [done|done|]. intros st w2 (Hdb2 & _)%load_site_run Hq2.
  apply (quiet_bind P _ _ w w2 HP); [done|done|].
  intros s w3 (Hdb3 & r & Hf & Hs)%require_slot_run Hq3.
  apply (quiet_bind P _ _ w w3 HP); [apply quiet_acquire|done|]. intros _ w4 _ Hq4.
  apply quiet_guard; [done|].
  apply (quiet_bind P _ _ w w4 HP); [apply quiet_fs|done|]. intros t w5 _ Hq5.
  apply (quiet_bind P _ _ w w5 HP); [within_tac|done|].
  intros s' w6 [Hrec%result_map_err_ok ->]%lift_ok [l Hl].
  assert (List.find (slot_of site) (ht_slots (tables w)) = Some r) as Hf'.
  { destruct Hq2 as [l2 Hl2]. rewrite Hl2 in Hf. done. }
  apply bind_post.
  { intros e w7 [e' Hr%snapshots_insert_err]%map_err_err. apply HP. transitivity w5; [by exists l|done]. }
  intros y w7 [Ht Hex]%map_err_ok%snapshots_insert_ok. rewrite Hl in Ht, Hex. cbn in Ht, Hex.
  assert (∀ sl w', tables w' = set_slots sl (tables w7) → (sl = ht_slots (tables w)
    ∨ sl = update_where (slot_is (slot_id s')) (slot_row_set s') (ht_slots (tables w))) → P w') as Hdone.
  { intros sl w' Hw' Hsl. right. exists r, s, s', t. split_and!; try done. exists l, sl.
    split; [|done]. by rewrite Hw', Ht. }
  apply bind_post.
  { intros e w8 [e' Hr%slots_update_err]%map_err_err. apply (Hdone (ht_slots (tables w))); [|by left].
    rewrite Hr, Ht. by destruct (tables w). }
  intros z w8 Hu%map_err_ok%slots_update_ok. rewrite Ht in Hu. cbn in Hu.
  apply (HPq w8); [eapply Hdone; [by rewrite Ht | by right]|].
  match goal with |- quiet _ (?m _).2 => enough (within quiet m) as Hm by apply Hm end. within_tac.
Qed.

(** A successful run of [sync_snapshot]. *)
Lemma sync_snapshot_ok c site w s' w' :
  sync_snapshot c site w = (Ok s', w') →
  u_role c = Owner
  ∧ ∃ r s t, List.find (slot_of site) (ht_slots (tables w)) = Some r ∧ into_slot r = Ok s
    ∧ record_snapshot (next_snapshot s) t s = Ok s'
    ∧ existsb (snapshot_is site (next_snapshot s)) (ht_snapshots (tables w)) = false.
Proof.
  unfold sync_snapshot. intros Hr. inv_bind Hr. apply lift_ok in R as [Ho ->].
  split; [unfold ensure_owner in Ho; by destruct (u_role c)|].
  inv_bind Hr. apply load_site_run in R as [Hdb1 _].
  inv_bind Hr. apply require_slot_run in R as (Hdb2 & r & Hf & Hs).
  inv_bind Hr. apply acquire_tables in R as (_ & Esn & _). rewrite Hdb2, Hdb1 in Esn. rewrite Hdb1 in Hf.
  unfold with_guard in Hr.
  match type of Hr with (let '(_, _) := ?body in _) = _ => destruct body as [res w4] eqn:Hb end.
  injection Hr as -> _. inv_bind Hb. apply fs_call_run in R as [_ Hdb3].
  inv_bind Hb. apply lift_ok in R as [Hrec%result_map_err_ok ->].
  inv_bind Hb. apply map_err_ok, snapshots_insert_ok in R as [_ Hex]. rewrite Hdb3, Esn in Hex.
  do 2 inv_bind Hb. injection Hb as <- _. by exists r, a1, a3.
Qed.

(** ** A site whose snapshots block the next synchronisation *)

Definition row_next (r : SlotRow) : Z :=
  match sl_current_snapshot r with Some n => (n + 1)%Z | None => 1%Z end.

(** The snapshot that a slot of the site would take next is already in the table, for the
    slot it has and for one it will be given. *)
Definition stuck (site : Uuid) (h : HostingTables) : Prop :=
  In (site, 1%Z) (map snapshot_key (ht_snapshots h))
  ∧ ∀ r, In r (ht_slots h) → sl_site_id r = site →
    In (site, row_next r) (map snapshot_key (ht_snapshots h)).

Lemma stuck_more_snapshots site x h : stuck site h → stuck site (set_snapshots (ht_snapshots h ++ x) h).
Proof.
  intros [Hs1 Hs2]. split; cbn; rewrite map_app.
  - apply in_or_app. by left.
  - intros r Hin Hsite. apply in_or_app. left. auto.
Qed.

Lemma new_slot_current s : new_slot s → slot_current_snapshot s = None.
Proof.
  intros (id & site & sub & root & db & php & pol & t & s0 & Hn & Hs).
  assert (slot_current_snapshot s0 = None) as E0.
  { unfold slot_new in Hn. repeat (split_match_in Hn; try done). by injection Hn as <-. }
  destruct Hs as [->|(sched & Hs)]; [done|]. unfold set_schedule in Hs. case_bool_decide; [done|].
  destruct (_ && _); [done|]. by injection Hs as <-.
Qed.

(** Without a synchronisation the current snapshot of a row stays. *)
Lemma still_row_next taken r s s' :
  into_slot r = Ok s → slot_change false taken s s' →
  slot_id s' = sl_id r ∧ row_next (slot_row_set s' r) = row_next r.
Proof.
  intros Hs Hc. destruct (slot_change_row _ _ _ _ _ Hs Hc) as (Eid & _). split; [done|].
  apply into_slot_fields in Hs as (_ & _ & _ & _ & _ & Ecur & _). unfold row_next. rewrite <- Ecur.
  by destruct Hc.
Qed.

Lemma stuck_change site h h' :
  staging_change false h h' → keys_wf h → stuck site h → stuck site h'.
Proof.
  intros Hc HK [Hs1 Hs2].
  destruct Hc as [s h h' Hnew Hi|x s s' h Hx Hs Hsc|id h|r s ? h h' Hf _ _ _|r s p h h' Hr Hs Hcur Hsite Hst Hi|p p' h Hp Hst He|? ? ? ? h h' Hi|? ? h].
  - apply insert_slot_ok in Hi as (-> & _). split; [done|]. cbn.
    intros r [Hin|[<-|[]]]%in_app_or Hsite; [auto|].
    unfold row_next; cbn. by rewrite (new_slot_current s Hnew).
  - split; [done|]. cbn. intros r (r0 & Hin & ->)%update_where_In Hsite.
    destruct (still_row_next _ _ _ _ Hs Hsc) as [Eid En]. unfold slot_is in *.
    destruct (N.eqb_spec (sl_id r0) (slot_id s')) as [E|]; [|by auto].
    assert (r0 = x) as -> by (eapply NoDup_key_inj; [apply HK|done..|congruence]).
    rewrite En. by apply Hs2.
  - split; [done|]. cbn. intros r [Hin _]%delete_where_In. auto.
  - done.
  - by apply insert_run_ok in Hi as (-> & _).
  - done.
  - by apply acquire_lock_row_locks in Hi as (l & ->).
  - done.
Qed.

Lemma stuck_sync c site site' w :
  keys_wf (tables w) → stuck site (tables w) → stuck site (tables (sync_snapshot c site' w).2).
Proof.
  intros HK HS. destruct (sync_snapshot_effect c site' w) as [[l ->]|Hsync]; [done|].
  destruct Hsync as (r & s & s' & t & Hf & Hs & Hrec & Hex & l & sl & -> & Hsl).
  apply List.find_some in Hf as [Hin Hof%N.eqb_eq].
  destruct (decide (site' = site)) as [->|Hne].
  { exfalso. apply existsb_snapshot_false in Hex. apply Hex.
    rewrite (next_snapshot_row r s Hs). by apply HS. }
  apply (stuck_more_snapshots _ [mkSnapshotRow site' (next_snapshot s) t]) in HS as [Hs1 Hs2].
  split; [done|]. cbn. destruct Hsl as [-> | ->]; [done|].
  intros r1 (r0 & Hin0 & ->)%update_where_In Hsite. unfold slot_is in *.
  destruct (N.eqb_spec (sl_id r0) (slot_id s')) as [E|]; [|by apply Hs2].
  apply record_snapshot_ok in Hrec as ->. cbn in E.
  apply into_slot_fields in Hs as (Eid & _). rewrite Eid in E.
  assert (r0 = r) as -> by (eapply NoDup_key_inj; [apply HK|done..]). cbn in Hsite. congruence.
Qed.

Lemma staging_wf_op op w : staging_wf (tables w) → staging_wf (tables (run_staging op w)).
Proof.
  apply (staging_op_keeps true); [|done]. intros h h' Hc. by apply staging_wf_change; right.
Qed.

Lemma staging_change_true h h' : staging_change false h h' → staging_change true h h'.
Proof.
  destruct 1 as [ | r s s' h Hr Hs Hc | | | | | | ]; try done; try by econstructor.
  econstructor; [done..|]. destruct Hc as [ | | ]; [constructor|done|by constructor].
Qed.

Lemma stuck_op site op w :
  staging_wf (tables w) → stuck site (tables w) → stuck site (tables (run_staging op w)).
Proof.
  intros HW HS. destruct (is_sync op) eqn:Eop.
  - destruct op; try done. cbn. apply stuck_sync; [apply HW | done].
  - apply (staging_op_keeps false (λ h, staging_wf h ∧ stuck site h)); [|by rewrite Eop|done].
    intros h h' Hc [HW' HS']. split.
    + eapply staging_wf_change; [|done]. right. by apply staging_change_true.
    + eapply stuck_change; [done|apply HW'|done].
Qed.

Lemma stuck_forever site w w' :
  rtc staging_step w w' → staging_wf (tables w) → stuck site (tables w) →
  staging_wf (tables w') ∧ stuck site (tables w').
Proof.
  induction 1 as [|w w1 w' [op w0] _ IH]; [done|]. intros HW HS. apply IH.
  - by apply staging_wf_op.
  - by apply stuck_op.
Qed.

Lemma stuck_sync_fails c site w s w' : stuck site (tables w) → sync_snapshot c site w ≠ (Ok s, w').
Proof.
  intros [_ HS] (_ & r & s0 & t & Hf & Hs & _ & Hex)%sync_snapshot_ok.
  apply List.find_some in Hf as [Hin Hof%N.eqb_eq]. apply existsb_snapshot_false in Hex. apply Hex.
  rewrite (next_snapshot_row r s0 Hs). by apply HS.
Qed.

(** A successful [delete_slot] removes the slot and keeps its snapshots. *)
Lemma delete_slot_ok c site b w w' :
  delete_slot c site b w = (Ok tt, w') →
  ht_snapshots (tables w') = ht_snapshots (tables w)
  ∧ match List.find (slot_of site) (ht_slots (tables w)) with
    | Some r => ht_slots (tables w') = delete_where (slot_is (sl_id r)) (ht_slots (tables w))
    | None => ht_slots (tables w') = ht_slots (tables w)
    end.
Proof.
  unfold delete_slot. intros Hr. inv_bind Hr. apply lift_ok in R as [_ ->].
  inv_bind Hr. apply map_err_ok, slots_find_by_site_run in R as [Hdb Hf].
  destruct a0 as [s|]; [|injection Hr as <-; cbn in Hf; by rewrite Hf, Hdb].
  destruct Hf as (r & -> & Hs). apply into_slot_fields in Hs as (Eid & _).
  inv_bind Hr. injection R as _ <-. inv_bind Hr.
  apply map_err_ok, try_acquire_run in R as (h' & (l & ->)%acquire_lock_row_locks & Hdb2).
  inv_bind Hr. unfold fs_unit in R. apply fs_call_run in R as [_ Hdb3]. inv_bind Hr.
  apply map_err_ok, map_err_ok, execute_ok in R. rename R into Hdb4. inv_bind Hr.
  apply attempt_run in R as ->.
  destruct (quiet_release site (u_username c) w3) as [l5 Hl5].
  apply audit_quiet in Hr as [l6 Hl6]. rewrite Hl6, Hl5, Hdb4, Hdb3, Hdb2; cbn. by rewrite Hdb, Eid.
Qed.

(** ** Promotions *)

(** What the answer of the file-system layer leads to. *)
Lemma promotion_outcome_ok c site n s p o w p' w' :
  promotion_outcome c site n s p o w = (Ok p', w') → In (run_row p) (ht_promotions (tables w)) →
  run_end p p'
  ∧ In (run_row p') (ht_promotions (tables w'))
  ∧ ht_snapshots (tables w') = ht_snapshots (tables w)
  ∧ ((run_status p' = Promoted ∧ o = PromoteSuccess
      ∧ ∃ t, ht_slots (tables w') = update_where (slot_is (slot_id s))
                (slot_row_set (record_promotion n t s)) (ht_slots (tables w)))
     ∨ (run_status p' = RolledBack ∧ ht_slots (tables w') = ht_slots (tables w)
        ∧ ∃ reason, o = PromoteRolledBack reason ∧ run_failure_reason p' = Some reason)).
Proof.
  intros Hr Hin. unfold promotion_outcome in Hr.
  assert (∀ t h, run_end p t → In (run_row p) h →
    In (run_row t) (update_where (promotion_is (run_id t)) (run_row_set t) h)) as Hupd.
  { intros t h Ht Hh. apply update_where_In. exists (run_row p). split; [done|].
    unfold promotion_is; cbn. destruct (run_end_row _ _ Ht) as (-> & _). rewrite N.eqb_refl.
    by rewrite run_row_set_self. }
  destruct o as [|reason]; inv_bind Hr; injection R as _ <-;
    inv_bind Hr; apply lift_ok in R as [Hend%result_map_err_ok ->];
    inv_bind Hr; apply map_err_ok, promotions_update_run in R; rename R into Hdb1.
  - inv_bind Hr. injection R as _ <-.
    inv_bind Hr. apply map_err_ok, slots_update_ok in R. rename R into Ht2. cbn in Ht2, Hdb1.
    inv_bind Hr. injection Hr as -> <-.
    apply audit_quiet in R as [l Hl]. rewrite Hl; cbn. rewrite Ht2, Hdb1; cbn.
    assert (run_end p p') by by eapply EndPromoted. split_and!; [done|by apply Hupd|done|left].
    unfold complete_promotion in Hend. destruct (run_status p); simplify_eq. cbn. eauto.
  - inv_bind Hr. injection Hr as -> <-.
    apply audit_quiet in R as [l Hl]. rewrite Hl; cbn. rewrite Hdb1; cbn.
    assert (run_end p p') by by eapply EndRolledBack. split_and!; [done|by apply Hupd|done|right].
    unfold mark_rolled_back in Hend. destruct (run_status p); simplify_eq; cbn; eauto.
Qed.

Lemma with_guard_run {A} site by_ (c : M World PromotionServiceError A) w r w' :
  with_guard site by_ c w = (r, w') → ∃ w1, c w = (r, w1) ∧ locks_only (tables w1) (tables w').
Proof.
  unfold with_guard. destruct (c w) as [r1 w1]. intros [= -> <-]. exists w1. split; [done|].
  apply quiet_release.
Qed.

(** A successful run of [promote]. *)
Lemma promote_ok c site n conf w p w' :
  promote c site n conf w = (Ok p, w') →
  u_role c = Owner
  ∧ (∃ k, (Z.abs (num_seconds (utc_now k - conf)) ≤ 60)%Z)
  ∧ run_site_id p = site ∧ run_snapshot p = n ∧ run_confirmed_at p = conf
  ∧ run_requested_by p = u_username c
  ∧ In (run_row p) (ht_promotions (tables w'))
  ∧ ht_snapshots (tables w') = ht_snapshots (tables w)
  ∧ ∃ r s, List.find (slot_of site) (ht_slots (tables w)) = Some r ∧ into_slot r = Ok s
    ∧ sl_current_snapshot r = Some n
    ∧ ((run_status p = Promoted
        ∧ ∃ t, ht_slots (tables w') = update_where (slot_is (sl_id r))
                 (slot_row_set (record_promotion n t s)) (ht_slots (tables w)))
       ∨ (run_status p = RolledBack ∧ ht_slots (tables w') = ht_slots (tables w))).
Proof.
  unfold promote. intros Hr. inv_bind Hr. apply lift_ok in R as [Ho ->].
  split; [unfold ensure_owner in Ho; by destruct (u_role c)|].
  inv_bind Hr. apply load_site_run in R as [Hdb1 _].
  inv_bind Hr. apply require_slot_run in R as (Hdb2 & r & Hf & Hs). rewrite Hdb1 in Hf.
  inv_bind Hr. apply ok_or_ok in R as [Hcur ->].
  destruct (Z.eqb_spec n a2) as [<-|]; cbn [negb] in Hr; [|done].
  inv_bind Hr. apply acquire_tables in R as (Esl & Esn & _). rewrite Hdb2, Hdb1 in Esl, Esn.
  apply with_guard_run in Hr as (w4 & Hb & l & Hl). rewrite Hl; cbn.
  inv_bind Hb. injection R as <- <-. inv_bind Hb. injection R as <- <-.
  inv_bind Hb. apply lift_ok in R as [Hnew%result_map_err_ok ->].
  inv_bind Hb. apply lift_ok in R as [Hbeg%result_map_err_ok ->].
  destruct (begin_fresh_run _ _ _ _ _ _ _ _ _ Hnew Hbeg) as (_ & Hsite & Hsnap & _ & Hconf & Hby & Hage).
  inv_bind Hb. apply map_err_ok, promotions_insert_run in R as (Esl5 & Esn5 & Epm5). cbn in Esl5, Esn5.
  inv_bind Hb. apply fs_call_run in R as [_ Hdb6].
  apply promotion_outcome_ok in Hb as (Hend & Hin & Esn7 & Hcase).
  2: { rewrite Hdb6, Epm5. apply in_or_app. right. by left. }
  destruct (run_end_row _ _ Hend) as (_ & Es & En & _).
  destruct (run_end_request _ _ Hend) as [Ec Eb].
  pose proof (into_slot_fields _ _ Hs) as (Eid & _ & _ & _ & _ & Ecur & _).
  rewrite Hdb6, Esl5, Esl, Eid in Hcase. rewrite Hdb6, Esn5, Esn in Esn7.
  split_and!; try congruence; [by eexists|]. exists r, a1.
  split_and!; [done|done|congruence|]. destruct Hcase as [(? & _ & ?)|(? & ? & _)]; eauto.
Qed.

(** ** The lock *)

(** Another user took the lock of the site, less than 299 seconds before any instant the
    clock shows. *)
Definition busy (site : Uuid) (by_ : string) (h : HostingTables) : Prop :=
  ∃ l, List.find (lock_of site) (ht_locks h) = Some l ∧ lk_locked_by l ≠ by_
       ∧ ∀ k, (utc_now k ≤ lk_locked_at l + 299 * 1000000000)%Z.

(** SQLite compares whole seconds, so one second of the 300 may be lost. *)
Lemma lock_young `{!SqliteTimeLaws} t0 t :
  (t ≤ t0 + 299 * 1000000000)%Z → (sql_datetime t0 300 <? sql_datetime t 0)%Z = false.
Proof.
  intros Ht. apply Z.ltb_ge. rewrite (sql_datetime_add t0 300).
  pose proof (sql_datetime_near t0). pose proof (sql_datetime_near t). lia.
Qed.

Lemma busy_acquire `{!SqliteTimeLaws} site by_ w :
  busy site by_ (tables w) →
  ∃ e w', acquire site by_ w = (Err e, w') ∧ w_db w' = w_db w.
Proof.
  intros (l & Hf & Hne & Hage). unfold acquire, staging, try_acquire, sql.
  unfold bind, map_err, statement, hosting_statement, acquire_lock_row. cbn [now w_db tick].
  rewrite Hf, lock_young by apply Hage.
  replace (String.eqb (lk_locked_by l) by_) with false by (symmetry; by apply String.eqb_neq).
  cbn. destruct (sql_fault _); cbn; do 2 eexists; (split; [done|]); [done|]. by destruct w as [? []].
Qed.

(** Reads leave the tables. *)
Abbreviation still := (on_db (on_tables (same (λ h : HostingTables, h)))).

Lemma still_reads site c : within still (load_site c site) ∧ within still (require_slot site).
Proof.
  split.
  - unfold load_site, sites_find_by_id, fetch_site. within_tac.
  - unfold require_slot, staging, slots_find_by_site, hosting, sql. within_tac.
Qed.

(** A method that fails and leaves the tables at [h]. *)
Definition stops {A} (h : HostingTables) (c : M World PromotionServiceError A) : Prop :=
  ∀ w, tables w = h → ∃ e w', c w = (Err e, w') ∧ tables w' = h.

Lemma stops_bind {A B} h (c : M World PromotionServiceError A)
    (k : A → M World PromotionServiceError B) :
  within still c → (∀ a, stops h (k a)) → stops h (bind c k).
Proof.
  intros Hc Hk w Hw. specialize (Hc w). unfold bind. destruct (c w) as [[a|e] w1]; cbn in Hc.
  - apply Hk. by transitivity (tables w).
  - exists e, w1. split; [done|]. by transitivity (tables w).
Qed.

Lemma stops_acquire `{!SqliteTimeLaws} {A} site by_ h (k : unit → M World PromotionServiceError A) :
  busy site by_ h → stops h (bind (acquire site by_) k).
Proof.
  intros Hb w Hw. destruct (busy_acquire site by_ w) as (e & w' & Ha & Hdb); [by rewrite Hw|].
  exists e, w'. rewrite (bind_stop _ _ _ _ _ Ha), Hdb. by split.
Qed.

Lemma stops_busy `{!SqliteTimeLaws} c site n conf h :
  busy site (u_username c) h → stops h (sync_snapshot c site) ∧ stops h (promote c site n conf).
Proof.
  intros Hb. destruct (still_reads site c) as [Hload Hreq]. unfold sync_snapshot, promote.
  split; (apply stops_bind; [within_tac|intros _]); (apply stops_bind; [done|intros st]);
    (apply stops_bind; [done|intros s]).
  - by apply stops_acquire.
  - apply stops_bind; [within_tac|intros cur]. destruct (negb _); [|by apply stops_acquire].
    intros w Hw. by exists (StagingError (SnapshotMismatch (of_bytes (show_Z cur)) (of_bytes (show_Z n)))), w.
Qed.
End operations.
