(* ===== verification/CollaboratorTheorems.v ===== *)
(** * Collaborators: theorems

    Permission sets, the invariant of the two tables, and what a revocation is worth. *)
From S2P Require Import Prelude Text AuditActions AuditLog Accounts Paths CronJobs HostingTables Store Users Sites Collaborators StagingChanges StagingSafety.
Open Scope N_scope.

(** ** Permission sets *)

Definition small_sets : list PermissionSet := map N.of_nat (seq 0 16).
Definition all_permissions : list Permission := [PermFile; PermDatabase; PermMail; PermCron].

Lemma small_set s : s < 16 → In s small_sets.
Proof. intros Hs. rewrite <- (N2Nat.id s). apply in_map, in_seq. lia. Qed.

Lemma every_permission p : In p all_permissions.
Proof. destruct p; cbn; tauto. Qed.

Definition set_ops_agree (s t : PermissionSet) (p q : Permission) : bool :=
  bool_decide (perm_contains (perm_insert p s) q = (bool_decide (p = q) || perm_contains s q))
  && bool_decide (perm_contains (perm_remove p s) q = (negb (bool_decide (p = q)) && perm_contains s q))
  && bool_decide (perm_contains (perm_union s t) q = (perm_contains s q || perm_contains t q))
  && bool_decide (perm_contains (perm_intersection s t) q = (perm_contains s q && perm_contains t q)).

Lemma set_ops_all :
  forallb (λ s, forallb (λ t, forallb (λ p, forallb (set_ops_agree s t p) all_permissions)
    all_permissions) small_sets) small_sets = true.
Proof. vm_compute. reflexivity. Qed.

Definition set_iter_agrees (s : PermissionSet) : bool :=
  bool_decide (perm_iter s = List.filter (perm_contains s) all_permissions)
  && bool_decide (perm_from_iter (perm_iter s) = s)
  && bool_decide (perm_len s = length (perm_iter s))
  && bool_decide (perm_is_empty s = bool_decide (perm_iter s = [])).

Lemma set_iter_all : forallb set_iter_agrees small_sets = true.
Proof. vm_compute. reflexivity. Qed.

(** The bit operations are those of sets of permissions: on sets of known permissions,
    inserting, removing, joining and intersecting act on membership as they should, the
    iterator lists the members in a fixed order, each once, and collecting them gives the set
    back. *)
Theorem permission_set_exact s t p q :
  s < 16 → t < 16 →
  perm_contains (perm_insert p s) q = (bool_decide (p = q) || perm_contains s q)
  ∧ perm_contains (perm_remove p s) q = (negb (bool_decide (p = q)) && perm_contains s q)
  ∧ perm_contains (perm_union s t) q = (perm_contains s q || perm_contains t q)
  ∧ perm_contains (perm_intersection s t) q = (perm_contains s q && perm_contains t q)
  ∧ perm_iter s = List.filter (perm_contains s) all_permissions
  ∧ perm_from_iter (perm_iter s) = s ∧ perm_len s = length (perm_iter s).
Proof.
  intros Hs%small_set Ht%small_set. pose proof set_ops_all as Hops. pose proof set_iter_all as Hit.
  rewrite forallb_forall in Hops, Hit. specialize (Hops s Hs). specialize (Hit s Hs).
  rewrite forallb_forall in Hops. specialize (Hops t Ht).
  rewrite forallb_forall in Hops. specialize (Hops p (every_permission p)).
  rewrite forallb_forall in Hops. specialize (Hops q (every_permission q)).
  unfold set_ops_agree in Hops. unfold set_iter_agrees in Hit.
  rewrite !andb_true_iff, !bool_decide_eq_true in Hops, Hit. tauto.
Qed.

(** ** The tables *)

Definition grant_key (g : SiteGrantRow) : Uuid * Uuid := (gr_collaborator_id g, gr_site_id g).
Definition grants_of (id : Uuid) (a : AccessTables) : list SiteGrantRow :=
  select_where (λ g, gr_collaborator_id g =? id) (ac_grants a).

(** A stored collaborator is invited, or revoked without any grant. *)
Definition standing (a : AccessTables) (r : CollaboratorRow) : Prop :=
  cb_accepted_at r = None ∧ is_ok (row_to_collaborator r) = true
  ∧ (cb_status r = "invited" ∧ cb_revoked_at r = None
     ∨ cb_status r = "revoked" ∧ cb_revoked_at r ≠ None ∧ grants_of (cb_id r) a = []).

Record access_wf (a : AccessTables) : Prop := {
  wf_ids : NoDup (map cb_id (ac_collaborators a));
  wf_keys : NoDup (map grant_key (ac_grants a));
  wf_standing : ∀ r, In r (ac_collaborators a) → standing a r;
  wf_grants : ∀ g, In g (ac_grants a) →
    (0 ≤ gr_permissions g ≤ 15)%Z ∧ In (gr_collaborator_id g) (map cb_id (ac_collaborators a))
}.

(** What one statement does; [P] holds of the identifiers of new rows. *)
Inductive access_change (P : Uuid → Prop) : AccessTables → AccessTables → Prop :=
| AcInvited id account email t a :
    P id → is_ok (email_new email) = true →
    access_change P a (replace_collaborator_row (collaborator_row (new_invited id account email t)) a)
| AcGranted r g a :
    P (gr_collaborator_id g) → In r (ac_collaborators a) → cb_id r = gr_collaborator_id g →
    cb_status r = "invited" → (0 ≤ gr_permissions g ≤ 15)%Z →
    access_change P a
      (set_grants (delete_where (grant_is (gr_collaborator_id g) (gr_site_id g)) (ac_grants a) ++ [g])%list a)
| AcPermissions id site p a :
    (0 ≤ p ≤ 15)%Z →
    access_change P a
      (set_grants (update_where (grant_is id site) (grant_row_permissions p) (ac_grants a)) a)
| AcUngranted id site a :
    access_change P a (set_grants (delete_where (grant_is id site) (ac_grants a)) a)
| AcRevoked id c a :
    grants_of id a = [] → co_status c = CollabRevoked → co_accepted_at c = None → co_revoked_at c ≠ None →
    access_change P a
      (set_collaborators (update_where (collaborator_is id) (collaborator_row_status c)
                            (ac_collaborators a)) a).

Lemma grants_of_nil id a : grants_of id a = [] ↔ ∀ g, In g (ac_grants a) → gr_collaborator_id g ≠ id.
Proof.
  unfold grants_of, select_where. split.
  - intros Hn g Hg Hid. assert (In g []) as []. rewrite <- Hn. apply filter_In. split; [done|].
    by apply N.eqb_eq.
  - intros Hg. destruct (List.filter _ _) as [|g l] eqn:E; [done|].
    assert (In g (g :: l)) as Hin by by left. rewrite <- E in Hin.
    apply filter_In in Hin as [Hin Hid%N.eqb_eq]. by destruct (Hg g Hin).
Qed.

Lemma grant_is_key id site g : grant_is id site g = true ↔ grant_key g = (id, site).
Proof.
  unfold grant_is, grant_key. rewrite andb_true_iff, !N.eqb_eq. split; [by intros [-> ->]|by intros [= -> ->]].
Qed.

Lemma invited_decodes id account email t :
  is_ok (email_new email) = true →
  is_ok (row_to_collaborator (collaborator_row (new_invited id account email t))) = true.
Proof. unfold row_to_collaborator. cbn [collaborator_row new_invited cb_email co_email]. by destruct (email_new email). Qed.

(** A row that kept its grants, or lost some, stands as before. *)
Lemma standing_fewer a a' r :
  (∀ g, In g (ac_grants a') → gr_collaborator_id g = cb_id r → ∃ g', In g' (ac_grants a) ∧ gr_collaborator_id g' = cb_id r) →
  standing a r → standing a' r.
Proof.
  intros Hf (Ha & Hd & [Hs|(Hs & Hr & Hg)]); split_and!; try done; [by left|].
  right. split_and!; try done. apply grants_of_nil. intros g Hin Hid.
  destruct (Hf g Hin Hid) as (g' & Hin' & Hid'). rewrite grants_of_nil in Hg. by apply (Hg g').
Qed.

Lemma replaced_ids r t :
  In (cb_id r) (map cb_id (delete_where (collaborator_is (cb_id r)) t ++ [r])).
Proof. rewrite map_app. apply in_or_app. right. by left. Qed.

Lemma wf_invited id account email t a :
  is_ok (email_new email) = true → access_wf a →
  access_wf (replace_collaborator_row (collaborator_row (new_invited id account email t)) a).
Proof.
  intros He [H1 H2 H3 H4]. set (r := collaborator_row _). split; cbn [replace_collaborator_row set_collaborators ac_collaborators ac_grants].
  - apply NoDup_snoc; [by apply delete_where_NoDup|]. intros (x & Hx & [_ Hn]%delete_where_In)%in_map_iff.
    unfold collaborator_is in Hn. rewrite Hx, N.eqb_refl in Hn. done.
  - done.
  - intros x [[Hx _]%delete_where_In|[<-|[]]]%in_app_or; [by apply H3|].
    split_and!; [done|by apply invited_decodes|by left].
  - intros g Hg. destruct (H4 g Hg) as [Hp Hin]. split; [done|]. apply in_map_iff in Hin as (x & Hid & Hx).
    destruct (collaborator_is (cb_id r) x) eqn:E.
    + apply N.eqb_eq in E. rewrite <- Hid, E. apply replaced_ids.
    + rewrite map_app. apply in_or_app. left. apply in_map_iff. exists x. split; [done|].
      by apply delete_where_In.
Qed.

Lemma wf_granted r g a :
  In r (ac_collaborators a) → cb_id r = gr_collaborator_id g → cb_status r = "invited" →
  (0 ≤ gr_permissions g ≤ 15)%Z → access_wf a →
  access_wf (set_grants (delete_where (grant_is (gr_collaborator_id g) (gr_site_id g)) (ac_grants a) ++ [g])%list a).
Proof.
  intros Hr Hid Hst Hp [H1 H2 H3 H4]. split; cbn [set_grants ac_collaborators ac_grants].
  - done.
  - apply NoDup_snoc; [by apply delete_where_NoDup|]. intros (x & Hx & [_ Hn]%delete_where_In)%in_map_iff.
    by rewrite (proj2 (grant_is_key _ _ x) Hx) in Hn.
  - intros x Hx. destruct (decide (cb_id x = gr_collaborator_id g)) as [Heq|Hne].
    + assert (x = r) as -> by (eapply (NoDup_key_inj cb_id); [done..|congruence]).
      destruct (H3 r Hr) as (Ha & Hd & [Hs|(Hs & _)]); [|congruence]. split_and!; try done. by left.
    + eapply standing_fewer, H3; [|done]. cbn. intros g' Hg' Hg'id.
      apply in_app_or in Hg' as [[Hg' _]%delete_where_In|[<-|[]]]; [eauto|congruence].
  - intros x [[Hx _]%delete_where_In|[<-|[]]]%in_app_or; [by apply H4|]. split; [done|].
    apply in_map_iff. eauto.
Qed.

Lemma wf_permissions id site p a :
  (0 ≤ p ≤ 15)%Z → access_wf a →
  access_wf (set_grants (update_where (grant_is id site) (grant_row_permissions p) (ac_grants a)) a).
Proof.
  intros Hp [H1 H2 H3 H4].
  assert (∀ g, In g (update_where (grant_is id site) (grant_row_permissions p) (ac_grants a)) →
    ∃ g', In g' (ac_grants a) ∧ gr_collaborator_id g' = gr_collaborator_id g
          ∧ (gr_permissions g = p ∨ gr_permissions g = gr_permissions g')) as Hup.
  { intros g (g' & Hg' & ->)%update_where_In. exists g'. destruct (grant_is id site g'); cbn; auto. }
  split; cbn [set_grants ac_collaborators ac_grants].
  - done.
  - by rewrite update_where_key.
  - intros x Hx. eapply standing_fewer, H3; [|done]. cbn. intros g (g' & Hg' & Hid & _)%Hup Hgid.
    exists g'. split; [done | congruence].
  - intros g (g' & Hg' & Hid & Hpp)%Hup. destruct (H4 g' Hg') as [Hb Hin]. split; [|by rewrite <- Hid].
    destruct Hpp as [->| ->]; done.
Qed.

Lemma wf_ungranted id site a :
  access_wf a → access_wf (set_grants (delete_where (grant_is id site) (ac_grants a)) a).
Proof.
  intros [H1 H2 H3 H4]. split; cbn [set_grants ac_collaborators ac_grants].
  - done.
  - by apply delete_where_NoDup.
  - intros x Hx. eapply standing_fewer, H3; [|done]. cbn. intros g [Hg _]%delete_where_In Hid. eauto.
  - intros g [Hg _]%delete_where_In. by apply H4.
Qed.

Lemma wf_revoked id c a :
  grants_of id a = [] → co_status c = CollabRevoked → co_accepted_at c = None → co_revoked_at c ≠ None →
  access_wf a →
  access_wf (set_collaborators (update_where (collaborator_is id) (collaborator_row_status c)
                                  (ac_collaborators a)) a).
Proof.
  intros Hg Hs Ha Hr [H1 H2 H3 H4]. split; cbn [set_collaborators ac_collaborators ac_grants].
  - by rewrite update_where_key.
  - done.
  - intros x (y & Hy & ->)%update_where_In. destruct (collaborator_is id y) eqn:E; [|by apply H3].
    apply N.eqb_eq in E. destruct (H3 y Hy) as (_ & Hd & _). split_and!; [done| |right].
    + unfold row_to_collaborator in *. cbn in *. rewrite Hs. by destruct (email_new (cb_email y)).
    + cbn. rewrite Hs, E. split_and!; done.
  - intros g Hin. destruct (H4 g Hin) as [Hb Hid]. split; [done|]. by rewrite update_where_key.
Qed.

Lemma access_wf_change P a a' : access_change P a a' → access_wf a → access_wf a'.
Proof.
  destruct 1; [by apply wf_invited | by eapply wf_granted | by apply wf_permissions
              | apply wf_ungranted | by apply wf_revoked].
Qed.

(** A collaborator that is known and has no grant on a site gets none while the new rows are
    of others. *)
Definition no_access (id site : Uuid) (a : AccessTables) : Prop :=
  ∀ g, In g (ac_grants a) → grant_key g ≠ (id, site).

Lemma no_access_change id site a a' :
  access_change (λ i, i ≠ id) a a' → no_access id site a → no_access id site a'.
Proof.
  intros Hc Hn. destruct Hc as [i account email t a _ _|r g a Hne _ _ _ _|i s p a _|i s a|i c a _ _ _ _];
    intros x; cbn.
  - apply Hn.
  - intros [[Hx _]%delete_where_In|[<-|[]]]%in_app_or; [by apply Hn|]. intros [= ? ?]. congruence.
  - intros (y & Hy & ->)%update_where_In. specialize (Hn y Hy). by destruct (grant_is i s y).
  - intros [Hx _]%delete_where_In. by apply Hn.
  - apply Hn.
Qed.

(** ** The operations *)

Definition access_changes (P : Uuid → Prop) (h h' : HostingTables) : Prop :=
  rtc (access_change P) (ht_access h) (ht_access h').
#[export] Instance access_changes_preorder P : PreOrder (access_changes P).
Proof.
  unfold access_changes. split; [intros h; reflexivity | intros h1 h2 h3 Ha Hb; by etransitivity].
Qed.

Section operations.
Context `{Env}.
Abbreviation access w := (ht_access (db_hosting (w_db w))).
Abbreviation K P := (on_db (on_tables (access_changes P))).

Lemma changes_access P {A} (f : AccessTables → result (A * AccessTables) string) w :
  (∀ x a, f (access w) = Ok (x, a) → rtc (access_change P) (access w) a) →
  K P w (statement (access_statement f) w).2.
Proof.
  intros Hf. unfold statement, access_statement, hosting_statement.
  destruct (sql_fault _); [apply on_db_tick; apply _|].
  destruct (f (access w)) as [[x a]|] eqn:E; [|apply on_db_tick; apply _]. by apply (Hf x a).
Qed.

Lemma changes_execute P (f : AccessTables → AccessTables) w :
  rtc (access_change P) (access w) (f (access w)) → K P w (execute (on_access f) w).2.
Proof.
  intros Hf. unfold execute, statement. destruct (sql_fault _); [apply on_db_tick; apply _|]. done.
Qed.

Lemma access_reads P {A B} (f : Db → A) (k : A → M World RepoError B) :
  (∀ a, within (K P) (k a)) → within (K P) (collab_db (row <- select f ;; k row)).
Proof.
  intros Hk. unfold collab_db. apply within_map_err, within_bind; [apply _|apply on_db_select, _|done].
Qed.

Lemma changes_require P id site : within (K P) (require_grant id site).
Proof.
  unfold require_grant. apply within_bind; [apply _| |intros o; apply within_ok_or, _].
  apply access_reads. intros a. apply within_ret, _.
Qed.

Lemma changes_invite P account request actor w :
  P (new_v4 (S (w_step w))) → K P w (invite account request actor w).2.
Proof.
  intros HP. unfold invite, collab_db.
  apply bind_at; [apply _|apply within_lift, _|]. intros email w1 [He%result_map_err_ok ->]%lift_ok.
  destruct (perm_is_empty _); [reflexivity|].
  apply bind_at; [apply _|apply on_db_tick, _|]. intros t w1 [= <- <-].
  apply bind_at; [apply _|apply on_db_tick, _|]. intros id w2 [= <- <-]. cbn [tick w_step] in *.
  assert (email = in_email request) as ->.
  { unfold email_new in He. destruct (email_validate _); [by injection He as <- | done]. }
  apply bind_at; [apply _| |intros x w3 Hx%map_err_ok%execute_ok].
  { apply map_err_at, changes_execute, rtc_once, AcInvited; [done|by rewrite He]. }
  apply bind_at; [apply _| |].
  { apply map_err_at, changes_access. intros y a. unfold replace_grant_row.
    destruct (permissions_ok _) eqn:Ep; [|done]. intros [= _ <-]. apply rtc_once.
    unfold permissions_ok in Ep. apply andb_true_iff in Ep as [Ep1%Z.leb_le Ep2%Z.leb_le].
    apply (AcGranted P (collaborator_row (new_invited (new_v4 (S (w_step w))) account
      (in_email request) (utc_now (w_step w))))
      (grant_row (mkGrant (new_v4 (S (w_step w))) (in_site_id request) (in_permissions request)
        (utc_now (w_step w))))); try done.
    rewrite Hx. cbn. apply in_or_app. right. by left. }
  intros y w4 _. apply bind_at; [apply _|apply on_db_audit; apply _|]. intros; by apply within_ret, _.
Qed.

Lemma find_none_select {A} (p : A → bool) l : select_where p l = [] → List.find p l = None.
Proof. unfold select_where. induction l as [|x l IH]; cbn; [done|]. by destruct (p x). Qed.

Lemma changes_update P id site p actor : within (K P) (update_permissions id site p actor).
Proof.
  intros w. unfold update_permissions, collab_db. apply bind_at; [apply _| |].
  - apply map_err_at. unfold grants_update_permissions. apply bind_at; [apply _| |].
    + apply changes_access. intros n a. unfold update_grant_row.
      destruct (select_where _ _) as [|g l] eqn:E; cbn [length Nat.eqb negb andb].
      * intros [= _ <-]. rewrite update_where_none; [by destruct (access w)|].
        by apply find_none_select.
      * destruct (permissions_ok _) eqn:Ep; [|done]. cbn [negb]. intros [= _ <-].
        apply andb_true_iff in Ep as [Ep1%Z.leb_le Ep2%Z.leb_le]. by apply rtc_once, AcPermissions.
    + intros n w1 _. destruct (n =? 0)%nat; [apply within_throw | apply within_ret]; apply _.
  - intros x w1 _. apply bind_at; [apply _|apply changes_require|]. intros g w2 _.
    apply bind_at; [apply _|apply on_db_audit; apply _|]. intros; by apply within_ret, _.
Qed.

Lemma changes_revoke_if_last P id w : access_wf (access w) → K P w (revoke_if_last id w).2.
Proof.
  intros HW. unfold revoke_if_last, collab_db.
  apply bind_at; [apply _|apply on_db_tick, _|]. intros t w2 [= <- <-].
  apply bind_at; [apply _|apply access_reads; intros; apply within_lift, _|].
  intros o w3 Ho%map_err_ok. unfold collaborators_find in Ho. inv_bind Ho.
  apply select_run in R as (Hdb & -> & _). apply lift_ok in Ho as [Ho ->]. apply transpose_found in Ho.
  destruct o as [c|]; [|reflexivity]. destruct Ho as (r & Hf & Hc).
  apply bind_at; [apply _|apply access_reads; intros; apply within_ret, _|].
  intros l w4 Hl%map_err_ok. unfold grants_list_for_collaborator in Hl. inv_bind Hl.
  apply select_run in R as (Hdb4 & -> & _). injection Hl as <- <-.
  rewrite length_map. destruct (_ =? 0)%nat eqn:Hn; [|reflexivity]. apply Nat.eqb_eq in Hn.
  apply map_err_at. unfold collaborators_update_status. apply bind_at; [apply _| |].
  - apply changes_access. intros n a [= _ <-]. apply rtc_once. apply AcRevoked; try done.
    + rewrite Hdb4. apply length_zero_iff_nil in Hn. unfold grants_of.
      apply Permutation_nil. rewrite <- Hn. apply merge_sort_Permutation.
    + apply List.find_some in Hf as [Hin _]. cbn in Hin.
      destruct (wf_standing _ HW r Hin) as (Ha & _). unfold row_to_collaborator in Hc.
      destruct (result_map_err _ _); [|done]. cbn in Hc. destruct (parse_collab_status _); [|done].
      injection Hc as <-. done.
  - intros n w5 _. destruct (n =? 0)%nat; [apply within_throw | apply within_ret]; apply _.
Qed.

Lemma changes_revoke_grant P id site actor w : access_wf (access w) → K P w (revoke_grant id site actor w).2.
Proof.
  intros HW. unfold revoke_grant, collab_db. apply bind_at; [apply _| |].
  { apply map_err_at, changes_execute, rtc_once, AcUngranted. }
  intros x w1 Hx%map_err_ok%execute_ok.
  apply bind_at; [apply _| |intros; apply on_db_audit; apply _].
  apply changes_revoke_if_last. rewrite Hx. by apply wf_ungranted.
Qed.

(** *** Sequences *)

(** A request, in a world where the identifier drawn for an invitation is new. *)
Inductive collab_step : World → World → Prop :=
| CoInvite account request actor w :
    ~ In (new_v4 (S (w_step w))) (map cb_id (ac_collaborators (access w))) →
    collab_step w (invite account request actor w).2
| CoUpdate id site p actor w : collab_step w (update_permissions id site p actor w).2
| CoRevoke id site actor w : collab_step w (revoke_grant id site actor w).2.

Lemma step_access P w w' :
  collab_step w w' → access_wf (access w) →
  (∀ id, ~ In id (map cb_id (ac_collaborators (access w))) → P id) →
  rtc (access_change P) (access w) (access w').
Proof.
  intros Hs HW HP. destruct Hs; [apply changes_invite; by apply HP | apply changes_update
    | by apply changes_revoke_grant].
Qed.

Lemma access_wf_rtc P a a' : rtc (access_change P) a a' → access_wf a → access_wf a'.
Proof. induction 1 as [|a a1 a' Hc _ IH]; [done|]. intros HW. by eapply IH, access_wf_change. Qed.

Lemma access_wf_step w w' : collab_step w w' → access_wf (access w) → access_wf (access w').
Proof. intros Hs HW. eapply (access_wf_rtc (λ _, True)); [|done]. by apply step_access. Qed.

(** *** The resolver *)

Lemma resolve_run id site w s w' :
  grant_resolve id site w = (Ok s, w') →
  ∃ g, In g (ac_grants (access w)) ∧ grant_key g = (id, site) ∧ s = sg_permissions (row_to_grant g).
Proof.
  unfold grant_resolve, require_grant, collab_db. intros Hr. inv_bind Hr. injection Hr as <- <-.
  inv_bind R. apply map_err_ok in R0. unfold grants_find in R0. inv_bind R0.
  apply select_run in R1 as (_ & -> & _). injection R0 as <- <-. apply ok_or_ok in R as [Hf _].
  destruct (List.find _ _) as [g|] eqn:Eg; [|done]. injection Hf as <-.
  apply List.find_some in Eg as [Hin Hk%grant_is_key]. eauto.
Qed.

Lemma grants_find_key g w :
  access_wf (access w) → In g (ac_grants (access w)) →
  List.find (grant_is (gr_collaborator_id g) (gr_site_id g)) (ac_grants (access w)) = Some g.
Proof.
  intros HW Hg. destruct (List.find _ _) as [g'|] eqn:E.
  - apply List.find_some in E as [Hin Hk%grant_is_key]. f_equal.
    by eapply (NoDup_key_inj grant_key); [apply HW|..].
  - eapply List.find_none in E; [|done]. by rewrite (proj2 (grant_is_key _ _ g) eq_refl) in E.
Qed.

Lemma no_access_rtc id site a a' :
  rtc (access_change (λ i, i ≠ id)) a a' → no_access id site a → no_access id site a'.
Proof. induction 1 as [|a a1 a' Hc _ IH]; [done|]. intros HN. by eapply IH, no_access_change. Qed.

Lemma revoke_grant_run id site actor w w' :
  access_wf (access w) → revoke_grant id site actor w = (Ok tt, w') → no_access id site (access w').
Proof.
  intros HW Hr. unfold revoke_grant in Hr. inv_bind Hr. apply map_err_ok, execute_ok in R.
  assert (no_access id site (access w0)) as Hn.
  { intros g Hg Hk. rewrite R in Hg. cbn in Hg. apply delete_where_In in Hg as [_ Hg].
    by rewrite (proj2 (grant_is_key _ _ g) Hk) in Hg. }
  assert (access_wf (access w0)) as HW0 by (rewrite R; by apply wf_ungranted).
  inv_bind Hr. pose proof (changes_revoke_if_last (λ i, i ≠ id) id w0 HW0) as HK. rewrite R0 in HK.
  match type of Hr with audit ?a ?b ?c ?d _ = _ =>
    pose proof (on_db_audit (on_tables (access_changes (λ i, i ≠ id))) (E := InviteCollaboratorError) a b c d w1) as HA end.
  rewrite Hr in HA. eapply no_access_rtc, Hn. by etransitivity.
Qed.

Lemma ids_kept P a a' x :
  access_change P a a' → In x (map cb_id (ac_collaborators a)) → In x (map cb_id (ac_collaborators a')).
Proof.
  destruct 1 as [id account email t a _ _|r g a _ _ _ _ _|i s p a _|i s a|i c a _ _ _ _]; cbn; try done.
  - intros (r & <- & Hr)%in_map_iff. rewrite map_app. apply in_or_app.
    destruct (collaborator_is id r) eqn:E; [right; apply N.eqb_eq in E; by left|].
    left. apply in_map_iff. exists r. split; [done|]. by apply delete_where_In.
  - by rewrite update_where_key.
Qed.

Lemma ids_kept_rtc P a a' x :
  rtc (access_change P) a a' → In x (map cb_id (ac_collaborators a)) → In x (map cb_id (ac_collaborators a')).
Proof. induction 1 as [|a a1 a' Hc _ IH]; [done|]. intros Hx. by eapply IH, ids_kept. Qed.

(** A revoked grant stays gone.  Once [revoke] of a collaborator on a site has succeeded,
    no sequence of invitations, updates and revocations, whose new identifiers are new, gives
    the collaborator access to that site again. *)
Theorem revoked_grant_gone id site actor w w1 w2 :
  access_wf (access w) → In id (map cb_id (ac_collaborators (access w))) →
  revoke_grant id site actor w = (Ok tt, w1) → rtc collab_step w1 w2 →
  ~ ∃ s w3, grant_resolve id site w2 = (Ok s, w3).
Proof.
  intros HW Hid Hr Hsteps.
  assert (access_wf (access w1) ∧ In id (map cb_id (ac_collaborators (access w1)))
          ∧ no_access id site (access w1)) as Hinv.
  { pose proof (changes_revoke_grant (λ _, True) id site actor w HW) as HK. rewrite Hr in HK.
    split_and!; [by eapply access_wf_rtc | by eapply ids_kept_rtc | by eapply revoke_grant_run]. }
  clear HW Hid Hr. induction Hsteps as [w1|w1 w1' w2 Hs _ IH].
  - destruct Hinv as (_ & _ & Hn). intros (s & w3 & (g & Hg & Hk & _)%resolve_run). by apply (Hn g).
  - destruct Hinv as (HW & Hid & Hn). apply IH.
    assert (rtc (access_change (λ i, i ≠ id)) (access w1) (access w1')) as HC.
    { apply step_access; [done..|]. by intros i Hi ->. }
    split_and!; [by eapply access_wf_step | by eapply ids_kept_rtc | by eapply no_access_rtc].
Qed.

(** Access is held by invitations.  Along any sequence of invitations, updates and
    revocations, with statements failing anywhere, the two tables stay consistent, and whoever
    holds a grant is stored as invited, never as active: no operation accepts an invitation,
    and the resolver answers with the permissions of the grant all the same. *)
Theorem access_held_by_invited w w' g :
  rtc collab_step w w' → access_wf (access w) → In g (ac_grants (access w')) →
  access_wf (access w')
  ∧ (∃ r, In r (ac_collaborators (access w')) ∧ cb_id r = gr_collaborator_id g ∧ cb_status r = "invited")
  ∧ (sql_fault (w_step w') = None →
     (grant_resolve (gr_collaborator_id g) (gr_site_id g) w').1 = Ok (Z.to_N (gr_permissions g))).
Proof.
  intros Hsteps HW Hg.
  assert (access_wf (access w')) as HW'.
  { clear Hg. induction Hsteps as [|w w1 w' Hs _ IH]; [done|]. by eapply IH, access_wf_step. }
  destruct (wf_grants _ HW' g Hg) as [Hp Hid]. split_and!; [done| |].
  - apply in_map_iff in Hid as (r & Hid & Hr). exists r. split_and!; [done..|].
    destruct (wf_standing _ HW' r Hr) as (_ & _ & [[Hs _]|(_ & _ & Hn)]); [done|].
    rewrite grants_of_nil in Hn. by destruct (Hn g Hg).
  - intros Hf. unfold grant_resolve, require_grant, collab_db, grants_find, select, bind, map_err, statement.
    rewrite Hf. cbn [w_db]. rewrite grants_find_key by done. cbn [fmap option_fmap option_map ok_or ret lift].
    cbn. do 2 f_equal. assert (∀ p, (0 ≤ p ≤ 15)%Z → N.land (Z.to_N (p mod 256)) 15 = Z.to_N p) as Hand; [|by apply Hand].
    clear. intros p Hp. rewrite Z.mod_small by lia. change 15 with (N.ones 4). rewrite N.land_ones.
    apply N.mod_small. change (2 ^ 4) with 16. lia.
Qed.
End operations.
