(* ===== verification/StagingTheorems.v ===== *)
(** * Site staging: the theorems

    Paths of slots, the invariant of the tables, promotions, the lock, synchronisation. *)
From S2P Require Import Prelude Text AuditActions AuditLog Accounts Paths CronJobs HostingTables Store Users Sites Staging StagingChanges StagingSafety.
Open Scope N_scope.

(** ** Where a slot may live *)

(** The production root of a site, cut at its last separator. *)
Definition production_split (site : Site) (parent name : list N) : Prop :=
  trim_end_matches SLASH (bytes (site_document_root site)) = (parent ++ SLASH :: name)%list
  ∧ ~ In SLASH name ∧ parent ≠ [].

(** Staging roots.  [ensure_in_chroot] accepts only a root below the directory that
    holds the production root: the directory is a prefix of it by components, and it has no
    step up. *)
Theorem slot_root_contained site root :
  ensure_in_chroot site root = Ok tt →
  ∃ parent name, production_split site parent name
    ∧ path_starts_with (bytes root) parent = true
    ∧ ~ In ParentDir (components (bytes root))
    ∧ infixb (bytes "staging") (bytes root) = true.
Proof.
  unfold ensure_in_chroot. destruct (rsplit_once _ _) as [[[|b parent] name]|] eqn:Er; [done| |done].
  destruct (prefixb _ _) eqn:E1; [|done]. destruct (contains_str root "..") eqn:E2; [done|].
  destruct (contains_str root "staging") eqn:E3; [|done]. intros _.
  apply rsplit_once_spec in Er as [Er Hname]. exists (b :: parent), name. split_and!; [done| | |done].
  - apply prefixb_spec in E1 as [y ->]. cbn [app]. rewrite <- app_assoc. cbn [app].
    by apply (starts_with_parent (b :: parent)).
  - intros Hin%parent_component. apply split_infix in Hin.
    assert (infixb [DOT; DOT] (bytes root) = true) by by apply infixb_spec.
    unfold contains_str in E2. change (bytes "..") with [DOT; DOT] in E2. congruence.
Qed.

Lemma staging_db_name_ok domain :
  staging_db_name domain ≠ "" ∧ ends_with (staging_db_name domain) "_staging" = true.
Proof.
  unfold staging_db_name, ends_with. split.
  - intros Heq%(f_equal bytes). rewrite bytes_app in Heq. by destruct (bytes (of_bytes _)).
  - rewrite bytes_app, rev_app_distr. apply prefixb_spec. by eexists.
Qed.

(** The production root as a staging root.  The check that the root lies under a
    [staging/] directory looks for the text [staging] anywhere: when the path of a site
    contains it, the production root itself is accepted as the root of the slot, the
    directory that [delete_slot] removes. *)
Theorem production_root_accepted site id sub policy php t parent name :
  production_split site parent name →
  contains_str (site_document_root site) "staging" = true →
  validate_document_root (site_document_root site) = Ok tt → sub ≠ "" →
  ensure_in_chroot site (site_document_root site) = Ok tt
  ∧ ∃ slot, slot_new id (site_id site) sub (site_document_root site)
              (staging_db_name (site_primary_domain site)) php policy t = Ok slot
            ∧ slot_document_root slot = site_document_root site.
Proof.
  intros (Hp & Hn & Hne) Hst Hv Hsub. unfold validate_document_root in Hv.
  destruct (starts_with _ "/") eqn:E1; [|done]. destruct (contains_str _ "..") eqn:E2; [done|].
  split.
  - unfold ensure_in_chroot. rewrite Hp, rsplit_once_app by done. destruct parent as [|b parent]; [done|].
    rewrite E2, Hst. destruct (trim_end_prefix SLASH (bytes (site_document_root site))) as [y Hy].
    rewrite Hp in Hy. replace (prefixb _ _) with true; [done|]. symmetry. apply prefixb_spec.
    exists (name ++ y)%list. rewrite Hy. cbn. by rewrite <- !app_assoc.
  - unfold slot_new. rewrite bool_decide_eq_false_2, E1, E2, Hst by done. cbn [negb].
    destruct (staging_db_name_ok (site_primary_domain site)) as [Hd1 Hd2].
    rewrite bool_decide_eq_false_2, Hd2 by done. eexists. split; reflexivity.
Qed.

(** ** A synchronisation that goes through *)

Section progress.
Context `{Env} `{SqliteTime} `{StagingFs}.
Abbreviation tables w := (db_hosting (w_db w)).
Hypothesis no_faults : ∀ k, sql_fault k = None.

Lemma hosting_no_fault {A} (f : HostingTables → A) w : hosting f w = (Ok (f (tables w)), tick w).
Proof using no_faults. unfold hosting, sql. apply map_err_run. by apply select_no_fault. Qed.

Lemma load_site_no_fault c site r s w :
  List.find (site_is site) (ht_sites (tables w)) = Some r → into_site r = Ok s → u_role c = Owner →
  load_site c site w = (Ok s, tick w).
Proof using no_faults.
  intros Hf Hs Ho. unfold load_site, sites_find_by_id, fetch_site.
  erewrite bind_run; [|apply map_err_run; erewrite bind_run; [|by apply select_no_fault]; rewrite Hf; cbn;
    rewrite Hs; reflexivity].
  unfold can_manage_all. cbn. by rewrite Ho.
Qed.

Lemma require_slot_no_fault site r s w :
  List.find (slot_of site) (ht_slots (tables w)) = Some r → into_slot r = Ok s →
  require_slot site w = (Ok s, tick w).
Proof using no_faults.
  intros Hf Hs. unfold require_slot, staging, slots_find_by_site.
  erewrite bind_run; [|apply map_err_run; erewrite bind_run; [|by apply hosting_no_fault]; rewrite Hf; cbn;
    rewrite Hs; reflexivity]. done.
Qed.

Lemma acquire_no_fault site by_ w :
  List.find (lock_of site) (ht_locks (tables w)) = None → known_site site (tables w) = true →
  ∃ w', acquire site by_ w = (Ok tt, w')
    ∧ tables w' = set_locks (ht_locks (tables w) ++ [mkLockRow site by_ (utc_now (w_step w))]) (tables w).
Proof using no_faults.
  intros Hf Hk. unfold acquire, staging, try_acquire, sql, bind, map_err, statement, hosting_statement,
    acquire_lock_row. cbn [now w_db tick]. rewrite no_faults, Hf, Hk. by eexists.
Qed.

Lemma snapshots_insert_no_fault site n t w :
  existsb (snapshot_is site n) (ht_snapshots (tables w)) = false → known_site site (tables w) = true →
  ∃ w', snapshots_insert site n t w = (Ok tt, w')
    ∧ tables w' = set_snapshots (ht_snapshots (tables w) ++ [mkSnapshotRow site n t]) (tables w).
Proof using no_faults.
  intros Hex Hk. unfold snapshots_insert, sql, map_err, statement, hosting_statement, insert_snapshot_row.
  cbn [sn_site_id sn_snapshot]. rewrite no_faults, Hex, Hk. by eexists.
Qed.

Lemma slots_update_no_fault s w : ∃ w', slots_update s w = (Ok tt, w')
  ∧ tables w' = set_slots (update_where (slot_is (slot_id s)) (slot_row_set s) (ht_slots (tables w))) (tables w).
Proof using no_faults.
  eexists. split; [unfold slots_update, sql; apply map_err_run; by apply execute_no_fault | done].
Qed.

Lemma release_no_fault site by_ w :
  tables (release_lock site by_ w).2 = release_lock_row site by_ (tables w).
Proof using no_faults.
  unfold release_lock, sql, map_err. by rewrite execute_no_fault.
Qed.

Lemma record_next_ok s t : ∃ s', record_snapshot (next_snapshot s) t s = Ok s'.
Proof using Type.
  unfold record_snapshot, next_snapshot, snapshot_next.
  destruct (slot_current_snapshot s) as [n|]; [|by eexists].
  destruct (Z.leb_spec (n + 1) n); [lia | by eexists].
Qed.

Lemma no_lock_after site by_ locks t :
  List.find (lock_of site) locks = None →
  List.find (lock_of site) (delete_where (λ l, lock_of site l && String.eqb (lk_locked_by l) by_)
    (locks ++ [mkLockRow site by_ t])) = None.
Proof using Type.
  intros Hf. destruct (List.find _ (delete_where _ _)) as [l|] eqn:E; [|done]. exfalso.
  apply List.find_some in E as [[Hin Hp]%delete_where_In Hl]. rewrite Hl in Hp. cbn in Hp.
  apply in_app_or in Hin as [Hin|[<-|[]]].
  - by rewrite (List.find_none _ _ Hf l Hin) in Hl.
  - cbn in Hp. by rewrite String.eqb_refl in Hp.
Qed.

Lemma audit_tables {E} actor action outcome build w :
  ∃ w', audit (E:=E) actor action outcome build w = (Ok tt, w') ∧ tables w' = tables w.
Proof using Type.
  apply (audit_ok (on_tables (same (λ h, h)))).
Qed.
End progress.

(** ** The tables and the operations *)

Section theorems.
Context `{Env} `{Nginx} `{SqliteTime} `{StagingFs}.
Abbreviation tables w := (db_hosting (w_db w)).

(** C7 (site and staging tables).  Over every sequence of site and staging operations,
    wherever statements fail: site, slot and run identifiers are unique, a domain has one
    site and a site one slot and one lock, every row decodes and passed the checks of its
    constructor, no row refers to a missing site, the snapshots of a slot are numbered
    from 1 without gaps, and only taken snapshots are promoted. *)
Theorem staging_tables_invariant w w' :
  rtc hosting_step w w' → staging_wf (tables w) → staging_wf (tables w').
Proof. apply hosting_invariant. intros h h'. apply staging_wf_change. Qed.

(** Finished promotions.  A run that was promoted or rolled back never changes again,
    over every sequence of staging operations. *)
Theorem finished_promotion_frozen r w w' :
  rtc staging_step w w' → staging_wf (tables w) →
  In r (ht_promotions (tables w)) → pm_status r ≠ promotion_str Promoting →
  In r (ht_promotions (tables w')).
Proof.
  intros Hsteps HW Hr Hst.
  enough (staging_wf (tables w') ∧ In r (ht_promotions (tables w'))) by tauto.
  apply (staging_invariant (λ h, staging_wf h ∧ In r (ht_promotions h)) w w'); [|done|done].
  intros h h' Hc [HW' Hin]. split; [by eapply staging_wf_change; [right|]|].
  destruct Hc as [s h h' _ Hi|? ? ? h|? h|? ? ? h h' _ _ _ Hi|? ? ? h h' _ _ _ _ _ Hi|p p' h Hp Hst' He|? ? ? ? h h' Hi|? ? h];
    try done.
  - by apply insert_slot_ok in Hi as [-> _].
  - by apply insert_snapshot_ok in Hi as [-> _].
  - apply insert_run_ok in Hi as [-> _]. apply in_or_app. by left.
  - cbn. apply update_where_In. exists r. split; [done|]. unfold promotion_is.
    destruct (N.eqb_spec (pm_id r) (run_id p')) as [E|]; [|done]. exfalso.
    destruct (run_end_row _ _ He) as (Ei & _).
    assert (r = run_row p) as -> by (eapply NoDup_key_inj; [apply HW'|done..|cbn; congruence]).
    apply Hst. cbn. by rewrite Hst'.
  - by apply acquire_lock_row_locks in Hi as (l & ->).
Qed.

(** C23 (promotion).  A promotion that returns a run was asked by an owner, confirmed within
    61 seconds of the clock, and for the current snapshot of the slot; the run is stored as
    promoted, and then the slot records the snapshot as promoted, or as rolled back, and then
    no slot changes. *)
Theorem promote_checks c site n conf w p w' :
  promote c site n conf w = (Ok p, w') → staging_wf (tables w) →
  u_role c = Owner
  ∧ (∃ k, (Z.abs (utc_now k - conf) < 61 * 1000000000)%Z)
  ∧ run_site_id p = site ∧ run_snapshot p = n ∧ run_requested_by p = u_username c
  ∧ In (run_row p) (ht_promotions (tables w'))
  ∧ ∃ r, In r (ht_slots (tables w)) ∧ sl_site_id r = site ∧ sl_current_snapshot r = Some n
    ∧ In (site, n) (map snapshot_key (ht_snapshots (tables w')))
    ∧ ((run_status p = Promoted
        ∧ ∃ r', In r' (ht_slots (tables w')) ∧ sl_id r' = sl_id r
                ∧ sl_last_promoted_snapshot r' = Some n)
       ∨ (run_status p = RolledBack ∧ ht_slots (tables w') = ht_slots (tables w))).
Proof.
  intros (Ho & (k & Hk) & Hsite & Hn & _ & Hby & Hin & Esn & r & s & Hf & Hs & Hcur & Hcase)%promote_ok HW.
  apply List.find_some in Hf as [Hr Hof%N.eqb_eq].
  split_and!; try done.
  { exists k. unfold num_seconds in Hk. pose proof (Z.quot_rem' (utc_now k - conf) 1000000000) as Hq.
    pose proof (Z.rem_bound_abs (utc_now k - conf) 1000000000). lia. }
  exists r. split_and!; [done..| |].
  - rewrite Esn. destruct HW as (_ & _ & _ & HR). destruct (proj1 (ow_chain _ HR r Hr) n Hcur) as [? Hall].
    rewrite <- Hof. apply Hall. lia.
  - destruct Hcase as [[? (t & ->)]|?]; [left|by right]. split; [done|].
    exists (slot_row_set (record_promotion n t s) r). split; [|done].
    apply update_where_In. exists r. split; [done|]. unfold slot_is. by rewrite N.eqb_refl.
Qed.

(** The lock.  While another user holds the lock of the site, for up to 299 seconds,
    neither [sync_snapshot] nor [promote] returns a result or changes a table. *)
Theorem busy_site_refused `{!SqliteTimeLaws} c site n conf w :
  busy site (u_username c) (tables w) →
  (∃ e w', sync_snapshot c site w = (Err e, w') ∧ tables w' = tables w)
  ∧ (∃ e w', promote c site n conf w = (Err e, w') ∧ tables w' = tables w).
Proof. intros Hb. destruct (stops_busy c site n conf _ Hb) as [H1' H2']. auto. Qed.

(** Synchronisation after a deleted slot.  [delete_slot] keeps the rows of
    [staging_snapshots]: once a slot that has a snapshot was deleted, no later
    synchronisation of the site succeeds, whatever staging operations follow, the creation
    of a new slot among them. *)
Theorem recreated_slot_never_syncs c site b r n w w1 w2 :
  staging_wf (tables w) → In r (ht_slots (tables w)) → sl_site_id r = site →
  sl_current_snapshot r = Some n → delete_slot c site b w = (Ok tt, w1) →
  rtc staging_step w1 w2 → ~ ∃ c' s w3, sync_snapshot c' site w2 = (Ok s, w3).
Proof.
  intros HW Hr Hsite Hcur Hd Hsteps (c' & s & w3 & Hs).
  assert (staging_wf (tables w1)) as HW1.
  { pose proof (staging_wf_op (OpDeleteSlot c site b) w HW) as HW1. cbn in HW1. by rewrite Hd in HW1. }
  assert (stuck site (tables w1)) as HS.
  - apply delete_slot_ok in Hd as [Esn Esl]. destruct HW as (_ & HK & _ & HR).
    destruct (proj1 (ow_chain _ HR r Hr) n Hcur) as [Hn Hall]. rewrite Hsite in Hall.
    unfold stuck. rewrite Esn. split; [apply Hall; lia|]. intros r1 Hr1 Hsite1. exfalso.
    replace (List.find _ _) with (Some r) in Esl.
    + rewrite Esl in Hr1. apply delete_where_In in Hr1 as [Hr1 Hne].
      assert (r1 = r) as -> by (eapply (NoDup_key_inj sl_site_id); [apply HK|done..|congruence]).
      unfold slot_is in Hne. by rewrite N.eqb_refl in Hne.
    + symmetry. unfold slot_of. rewrite <- Hsite. apply (find_key sl_site_id N.eqb); [|apply HK|done].
      intros x y. apply N.eqb_eq.
  - destruct (stuck_forever site w1 w2 Hsteps HW1 HS) as [_ HS2]. by eapply stuck_sync_fails.
Qed.

(** C35 (synchronisation makes progress).  When statements do not fail, the files can be
    copied, the site is not locked and its slot's next snapshot number is not in the table
    already, a synchronisation by an owner of the panel stores that snapshot, makes it the
    current one of the slot and frees the lock. *)
Theorem sync_takes_next c site rs r s w :
  (∀ k, sql_fault k = None) → (∀ k i p q, is_ok (fs_sync_snapshot k i p q) = true) →
  u_role c = Owner → staging_wf (tables w) → In rs (ht_sites (tables w)) → si_id rs = site →
  In r (ht_slots (tables w)) → sl_site_id r = site → into_slot r = Ok s →
  List.find (lock_of site) (ht_locks (tables w)) = None →
  ~ In (site, next_snapshot s) (map snapshot_key (ht_snapshots (tables w))) →
  ∃ s' w' t, sync_snapshot c site w = (Ok s', w')
    ∧ slot_current_snapshot s' = Some (next_snapshot s)
    ∧ ht_snapshots (tables w') = (ht_snapshots (tables w) ++ [mkSnapshotRow site (next_snapshot s) t])%list
    ∧ In (slot_row_set s' r) (ht_slots (tables w'))
    ∧ List.find (lock_of site) (ht_locks (tables w')) = None.
Proof.
  intros Hnf Hfs Ho (HS & HK & _ & _) Hrs Ers Hr Er Hs Hlock Hnext.
  assert (known_site site (tables w) = true) as Hkn by (apply known_site_In; rewrite <- Ers; by apply in_map).
  assert (List.find (site_is site) (ht_sites (tables w)) = Some rs) as Hfs0.
  { unfold site_is. rewrite <- Ers. apply (find_key si_id N.eqb); [|apply HS|done]. intros x y. apply N.eqb_eq. }
  assert (List.find (slot_of site) (ht_slots (tables w)) = Some r) as Hfr.
  { unfold slot_of. rewrite <- Er. apply (find_key sl_site_id N.eqb); [|apply HK|done].
    intros x y. apply N.eqb_eq. }
  destruct (into_site rs) as [st|] eqn:Est; [|by destruct (sw_rows _ HS rs Hrs) as (_ & _ & ?); rewrite Est in *].
  unfold sync_snapshot, ensure_owner. rewrite Ho, bind_lift_ok.
  erewrite bind_run; [|by eapply load_site_no_fault].
  erewrite bind_run; [|by eapply require_slot_no_fault].
  destruct (acquire_no_fault Hnf site (u_username c) (tick (tick w)) Hlock Hkn) as (w1 & Ha & E1).
  rewrite (bind_run _ _ _ _ _ Ha). unfold with_guard.
  destruct (fs_sync_snapshot (w_step w1) site (site_document_root st) (slot_document_root s)) as [t|] eqn:Ef;
    [|by specialize (Hfs (w_step w1) site (site_document_root st) (slot_document_root s)); rewrite Ef in Hfs].
  rewrite (bind_run _ _ _ t (tick w1)) by (unfold fs_call; by rewrite Ef).
  destruct (record_next_ok s t) as [s' Hrec]. rewrite Hrec. cbn [result_map_err]. rewrite bind_lift_ok.
  destruct (snapshots_insert_no_fault Hnf site (next_snapshot s) t (tick w1)) as (w2 & Hi & E2).
  { cbn. rewrite E1. cbn. by apply existsb_snapshot_false. }
  { cbn. by rewrite E1. }
  unfold staging at 1. rewrite (bind_run _ _ _ _ _ (map_err_run _ _ _ _ _ Hi)).
  destruct (slots_update_no_fault Hnf s' w2) as (w3 & Hu & E3).
  unfold staging at 1. rewrite (bind_run _ _ _ _ _ (map_err_run _ _ _ _ _ Hu)).
  edestruct (audit_tables (E:=PromotionServiceError)) as (w4 & Hau & E4).
  rewrite (bind_run _ _ _ _ _ Hau). cbn [ret].
  exists s', (release_lock site (u_username c) w4).2, t. split; [done|].
  rewrite release_no_fault, E4, E3, E2 by done. cbn. rewrite E1. cbn.
  apply record_snapshot_ok in Hrec as Es'. split_and!; [by rewrite Es'|done| |by apply no_lock_after].
  apply update_where_In. exists r. split; [done|]. unfold slot_is. rewrite N.eqb_sym.
  replace (slot_id s') with (sl_id r); [by rewrite N.eqb_refl|].
  rewrite Es'. by apply into_slot_fields in Hs as (<- & _).
Qed.
End theorems.
