(* ===== verification/SitesTheorems.v ===== *)
(** * Sites: theorems

    Creating a site is all or nothing, and over the operations of the identity, hierarchy,
    site, staging, database and recovery services every site and every database keeps an owner
    that exists. *)
From S2P Require Import Prelude Text AuditActions AuditLog Accounts Paths CronJobs HostingTables Store Users Identity Hierarchy HierarchyInvariant Secrets Sites Staging StagingChanges Parts Databases DatabaseSql Pitr DatabaseChanges StagingSafety.
Open Scope N_scope.

(** ** Sites and the account tables *)

(** A change of the hosting tables whose owners are accounts. *)
Lemma hosting_accounts_step (f : HostingTables → HostingTables) (d : Db) :
  (∀ i, In i (owner_refs (on_hosting f d)) →
     In i (owner_refs d) ∨ existsb (id_is i) (db_users d) = true) →
  accounts_step d (on_hosting f d).
Proof.
  intros Hf [H1 H2 H3 H4 H5 H6 H7 H8 H9 H10]. split; [|done]. split; try done.
  intros i [Hi|(u & Hu & Hid%N.eqb_eq)%existsb_exists]%Hf; [by apply H10|].
  rewrite <- Hid. by apply in_map.
Qed.
Lemma sites_accounts_step (f : HostingTables → HostingTables) (d : Db) :
  ht_databases (f (db_hosting d)) = ht_databases (db_hosting d) →
  (∀ r, In r (ht_sites (f (db_hosting d))) →
     In (si_owner_id r) (map si_owner_id (ht_sites (db_hosting d)))
     ∨ existsb (id_is (si_owner_id r)) (db_users d) = true) →
  accounts_step d (on_hosting f d).
Proof.
  intros Hd Hf. apply hosting_accounts_step. unfold owner_refs. cbn. rewrite Hd.
  intros i [(r & <- & Hr)%in_map_iff|Hi]%in_app_or.
  - destruct (Hf r Hr); [left; apply in_or_app; by left | by right].
  - left. apply in_or_app. by right.
Qed.

Section site_steps.
Context `{Env} `{Nginx}.
Abbreviation S c := (within (on_db accounts_step) c).

Lemma accounts_nginx (f : nat → Site → option SiteError) s : S (nginx_call f s).
Proof. intros w. unfold nginx_call. destruct (f _ s); apply on_db_tick, _. Qed.

Lemma accounts_fetch_site p : S (fetch_site p).
Proof. unfold fetch_site. within_tac. Qed.

Lemma accounts_get_site id : S (get_site id).
Proof. pose proof accounts_fetch_site. unfold get_site, sites_find_by_id. within_tac. Qed.

Lemma accounts_sites_insert s : S (sites_insert s).
Proof.
  apply on_db_statement; [apply _|]. intros d [] d' Hs. unfold insert_site_row in Hs.
  destruct (existsb _ _) in Hs; [done|]. destruct (existsb _ _) in Hs; [done|].
  destruct (existsb (id_is _) _) eqn:Eo; [|done]. injection Hs as <-.
  apply sites_accounts_step; [done|]. cbn. intros r [Hr|[<-|[]]]%in_app_or; [left; by apply in_map | by right].
Qed.

(** An update that keeps the owners. *)
Lemma accounts_site_set id (f : SiteRow → SiteRow) :
  (∀ r, si_owner_id (f r) = si_owner_id r) →
  S (execute (on_hosting (λ h, set_sites (update_where (site_is id) f (ht_sites h)) h))).
Proof.
  intros Hf. apply on_db_execute; [apply _|]. intros d. apply sites_accounts_step; [done|]. cbn.
  intros r (r0 & Hin & ->)%update_where_In. left.
  destruct (site_is id r0); rewrite ?Hf; by apply in_map.
Qed.

Lemma accounts_sites_delete id : S (sites_delete id).
Proof.
  apply on_db_execute; [apply _|]. intros d. apply sites_accounts_step;
    [unfold delete_site_rows; by destruct (existsb _ _)|]. intros r Hr. left.
  apply in_map. unfold delete_site_rows in Hr. destruct (existsb _ _); [|done].
  by apply delete_where_In in Hr as [Hr _].
Qed.

Lemma accounts_update_owner id o by_ : S (sites_update_owner id o by_).
Proof.
  unfold sites_update_owner. within_tac. apply on_db_statement; [apply _|].
  intros d [] d' Hs. unfold update_site_owner in Hs.
  destruct (existsb (site_is id) _ && _) eqn:Ex; [done|]. injection Hs as <-.
  apply sites_accounts_step; [done|]. cbn. intros r (r0 & Hin & ->)%update_where_In.
  destruct (site_is id r0) eqn:Ei; [right|left; by apply in_map]. cbn.
  apply andb_false_iff in Ex as [Ex|Ex]; [|by apply negb_false_iff].
  rewrite existsb_false in Ex. by rewrite (Ex r0 Hin) in Ei.
Qed.

Lemma accounts_run_site op w : on_db accounts_step w (run_site op w).
Proof.
  pose proof accounts_nginx. pose proof accounts_get_site. pose proof accounts_fetch_site.
  pose proof accounts_sites_insert. pose proof accounts_sites_delete. pose proof accounts_update_owner.
  assert (∀ id st by_, S (sites_update_status id st by_)).
  { intros id st by_. unfold sites_update_status. within_tac. by apply accounts_site_set. }
  assert (∀ id al by_, S (sites_update_aliases id al by_)).
  { intros id st by_. unfold sites_update_aliases. within_tac. by apply accounts_site_set. }
  destruct op; cbn [run_site];
    match goal with |- _ _ (?m _).2 => enough (S m) as Hm by apply Hm end.
  - unfold create_site, site_new, sites_find_by_domain. within_tac.
  - unfold delete_site. within_tac.
  - unfold enable_site. within_tac.
  - unfold disable_site. within_tac.
  - unfold change_owner. within_tac.
  - unfold change_aliases, site_change_aliases. within_tac.
Qed.
End site_steps.

(** ** Staging and the account tables *)

Section staging_steps.
Context `{Env} `{SqliteTime} `{StagingFs}.
Abbreviation F c := (within (on_db (same accounts_of)) c).

(** The tables whose rows have owners. *)
Definition owning (h : HostingTables) := (ht_sites h, dt_databases (ht_databases h)).

Lemma frame_tables {A} (f : HostingTables → result (A * HostingTables) string) :
  (∀ h a h', f h = Ok (a, h') → owning h' = owning h) → F (statement (hosting_statement f)).
Proof.
  intros Hf. apply on_db_statement; [apply _|]. intros d a d' Hs. unfold hosting_statement in Hs.
  destruct (f _) as [[x h']|] eqn:E; [|done]. injection Hs as <- <-.
  apply Hf in E as [= Es Ed]. unfold same, accounts_of, owner_refs. cbn. by rewrite Es, Ed.
Qed.

Lemma frame_on_hosting f : (∀ h, owning (f h) = owning h) → F (execute (on_hosting f)).
Proof.
  intros Hf. apply on_db_execute; [apply _|]. intros d. unfold same, accounts_of, owner_refs. cbn.
  specialize (Hf (db_hosting d)) as [= Es Ed]. by rewrite Es, Ed.
Qed.

Lemma frame_guard {A} site by_ (c : M World PromotionServiceError A) :
  F (release_lock site by_) → F c → F (with_guard site by_ c).
Proof.
  intros Hr Hc w. unfold with_guard. specialize (Hc w). destruct (c w) as [r w1]; cbn in *.
  etransitivity; [exact Hc | apply Hr].
Qed.

Lemma frame_run_staging op w : on_db (same accounts_of) w (run_staging op w).
Proof.
  assert (∀ A (f : nat → result A SiteStagingError), F (fs_call f)) as Hfs.
  { intros A f w0. unfold fs_call. by destruct (f _). }
  assert (∀ s b t, F (try_acquire s b t)).
  { intros s b t. apply within_map_err, frame_tables. by intros h a h' (l & ->)%acquire_lock_row_locks. }
  assert (∀ s b, F (release_lock s b)) by (intros; by apply within_map_err, frame_on_hosting).
  assert (∀ s, F (slots_insert s)).
  { intros s. apply within_map_err, frame_tables. by intros h [] h' (-> & _)%insert_slot_ok. }
  assert (∀ s n t, F (snapshots_insert s n t)).
  { intros s n t. apply within_map_err, frame_tables. by intros h [] h' (-> & _)%insert_snapshot_ok. }
  assert (∀ p, F (promotions_insert p)).
  { intros p. apply within_map_err, frame_tables. by intros h [] h' (-> & _)%insert_run_ok. }
  assert (∀ s, F (slots_update s)) by (intros; by apply within_map_err, frame_on_hosting).
  assert (∀ s, F (slots_delete s)) by (intros; by apply within_map_err, frame_on_hosting).
  assert (∀ p, F (promotions_update p)) by (intros; by apply within_map_err, frame_on_hosting).
  destruct op; cbn [run_staging];
    match goal with |- _ _ (?m _).2 => enough (F m) as Hm by apply Hm end.
  - unfold create_slot, load_site, sites_find_by_id, fetch_site, slots_find_by_site, hosting, sql, staging, fs_unit. within_tac.
  - unfold delete_slot, slots_find_by_site, hosting, sql, staging, fs_unit. within_tac.
  - unfold sync_snapshot, load_site, sites_find_by_id, fetch_site, require_slot, acquire,
      slots_find_by_site, hosting, sql, staging.
    repeat (apply frame_guard || within_step).
  - unfold promote, promotion_outcome, load_site, sites_find_by_id, fetch_site, require_slot, acquire,
      slots_find_by_site, hosting, sql, staging.
    repeat (apply frame_guard || within_step).
  - unfold set_mail_capture, load_site, sites_find_by_id, fetch_site, slots_find_by_site, hosting, sql, staging.
    within_tac.
Qed.
End staging_steps.

(** ** Databases and the account tables *)

Section database_steps.
Context `{Env} `{Vault} `{MysqlCli} `{PitrEnv}.
Abbreviation S c := (within (on_db accounts_step) c).
Abbreviation F c := (within (on_db (same accounts_of)) c).

(** Statements on the rows of databases whose owners stay. *)
Lemma accounts_databases (f : DatabaseTables → DatabaseTables) :
  (∀ t i, In i (map dbr_owner_id (dt_databases (f t))) → In i (map dbr_owner_id (dt_databases t))) →
  S (execute (on_part f)).
Proof.
  intros Hf. apply on_db_execute; [apply _|]. intros d. apply hosting_accounts_step. intros i.
  unfold owner_refs. cbn. rewrite !in_app_iff. intros [Hi|Hi%Hf]; left; [by left|by right].
Qed.

Lemma accounts_databases_insert d c : S (databases_insert d c).
Proof.
  apply on_db_statement; [apply _|]. intros x [] y (_ & _ & Ho & ->)%insert_database_ok.
  apply hosting_accounts_step. intros i. unfold owner_refs. cbn. rewrite map_app, !in_app_iff. cbn.
  intros [Hi|[Hi|[<-|[]]]]; [left; by left|left; by right|by right].
Qed.
Lemma accounts_databases_delete id : S (databases_delete id).
Proof.
  apply accounts_databases. intros t i. unfold delete_database_rows. destruct (existsb _ _); [|done]. cbn.
  intros (r & <- & [Hr _]%delete_where_In)%in_map_iff. by apply in_map.
Qed.
Lemma accounts_update_password id c : S (update_password_ciphertext id c).
Proof. apply accounts_databases. intros t i. cbn. by rewrite update_where_key. Qed.

Lemma accounts_mysql_call sql : S (mysql_call sql).
Proof.
  unfold mysql_call. apply within_bind; [apply _|intros w; apply on_db_tick, _|].
  intros [|]; [|apply within_throw, _]. intros w. unfold mysql_run.
  destruct (mysql_cli _ _ _); try apply on_db_tick, _; by apply accounts_step_same.
Qed.
Lemma accounts_fetch_database q : S (fetch_database q).
Proof. unfold fetch_database. within_tac. Qed.

Lemma accounts_run_database key op w : on_db accounts_step w (run_database key op w).
Proof.
  pose proof accounts_databases_insert. pose proof accounts_databases_delete. pose proof accounts_update_password.
  pose proof accounts_mysql_call. pose proof accounts_fetch_database.
  assert (∀ n, S (generate_password n)) by (intros n w0; apply on_db_tick, _).
  assert (∀ s, S (encrypt_to_storage key s)).
  { intros s. unfold encrypt_to_storage. within_tac. intros w0. apply on_db_tick, _. }
  assert (∀ c i, S (get_database c i)) by (intros c i; unfold get_database, databases_find_by_id; within_tac).
  destruct op; cbn [run_database]; match goal with |- _ _ (?m _).2 => enough (S m) as Hm by apply Hm end.
  - unfold create_database, database_new, databases_find_by_name, mysql_create_database, mysql_create_user,
      mysql_grant_all, mysql_drop_user, mysql_drop_database. within_tac.
  - unfold delete_database, mysql_drop_user, mysql_drop_database. within_tac.
  - unfold change_database_password, mysql_change_password. within_tac.
  - unfold reveal_password, password_ciphertext. within_tac.
Qed.

(** The recovery service writes no row with an owner. *)
Lemma frame_part_statement {A} (f : DatabaseTables → result (A * DatabaseTables) string) :
  (∀ t a t', f t = Ok (a, t') → dt_databases t' = dt_databases t) → F (statement (part_statement f)).
Proof.
  intros Hf. apply frame_tables. intros h a h'. cbn [part database_part]. destruct (f _) as [[x t]|] eqn:E; [|done].
  intros [= <- <-]. unfold owning. cbn. by rewrite (Hf _ _ _ E).
Qed.
Lemma frame_on_part f : (∀ t, dt_databases (f t) = dt_databases t) → F (execute (on_part f)).
Proof. intros Hf. apply frame_on_hosting. intros h. unfold owning. cbn. by rewrite Hf. Qed.

Lemma frame_run_pitr op w : on_db (same accounts_of) w (run_pitr op w).
Proof.
  assert (∀ c i, F (load_database c i)).
  { intros c i. unfold load_database, database_lookup, databases_find_by_id, fetch_database. within_tac. }
  assert (∀ f i, F (tailer_call f i)).
  { intros f i w0. unfold tailer_call. destruct (tailer_registered _); [|done]. unfold bind, attempt. cbn. by destruct (f _ _). }
  assert (∀ s, F (streams_insert s)).
  { intros s. apply within_map_err, frame_part_statement. intros t [] t'. unfold insert_stream_row.
    destruct (existsb _ _); [done|]. destruct (negb _); [done|]. destruct (existsb _ _); [|done]. by intros [= <-]. }
  assert (∀ s, F (restores_insert s)).
  { intros s. apply within_map_err, frame_part_statement. intros t [] t'. unfold insert_restore_row.
    destruct (existsb _ _); [done|]. destruct (existsb _ _); [|done]. by intros [= <-]. }
  assert (∀ s, F (incrementals_insert s)).
  { intros s. apply within_map_err, frame_part_statement. intros t [] t'. unfold insert_incremental_row.
    destruct (existsb _ _); [done|]. destruct (_ <? _)%Z; [done|]. destruct (existsb _ _); [|done]. by intros [= <-]. }
  assert (∀ r, F (restores_update r)) by (intros; by apply within_map_err, frame_on_part).
  assert (∀ i s st, F (streams_update_state i s st)).
  { intros i s st. unfold streams_update_state, pitr_db. within_tac. by apply frame_on_part. }
  assert (∀ i, F (require_restore i)).
  { intros i. unfold require_restore, pitr, restores_find_by_id, pitr_db. within_tac. }
  assert (∀ c i, F (promote_restore c i)).
  { intros c i. unfold promote_restore, record_audit, pitr, pitr_lift. within_tac. }
  destruct op; cbn [run_pitr]; try match goal with |- _ _ (?m _).2 => enough (F m) as Hm by apply Hm end.
  - unfold enable_stream, streams_find_by_database, record_audit, pitr, pitr_lift, pitr_db. within_tac.
  - unfold pause_stream, require_stream, streams_find_by_database, record_audit, pitr, pitr_db. within_tac.
  - unfold mark_stream_broken, require_stream, streams_find_by_database, record_audit, pitr, pitr_db. within_tac.
  - unfold resume_stream, require_stream, streams_find_by_database, record_audit, pitr, pitr_db. within_tac.
  - unfold request_restore, restore_timestamp_new, inspect_range, sink_available_range, restores_list_by_database,
      record_audit, pitr, pitr_lift, pitr_db. within_tac.
  - done.
  - unfold fail_restore, record_audit, pitr, pitr_lift. within_tac.
  - unfold capture_incremental, record_audit, pitr, pitr_lift. within_tac.
  - done.
  - by intros w0.
Qed.
End database_steps.

(** ** Creating a site *)

(** Rows of a missing site are not there. *)
Lemma no_rows {A} (site_of : A → Uuid) id (rows : list A) (sites : list SiteRow) :
  (∀ i, In i (map site_of rows) → In i (map si_id sites)) → ~ In id (map si_id sites) →
  delete_where (λ r, site_of r =? id) rows = rows.
Proof.
  intros Hrefs Hid. apply delete_where_none. intros r Hr. apply N.eqb_neq. intros <-.
  apply Hid, Hrefs. by apply in_map.
Qed.

(** Deleting the site that was just inserted restores the tables. *)
Lemma delete_inserted r h :
  refs_wf h → ~ In (si_id r) (map si_id (ht_sites h)) →
  delete_site_rows (si_id r) (set_sites (ht_sites h ++ [r]) h) = h.
Proof.
  intros [R1 R2 R3 R4] Hid. unfold delete_site_rows. cbn -[delete_where]. rewrite existsb_app.
  replace (existsb (site_is (si_id r)) [r]) with true by (cbn; unfold site_is; by rewrite N.eqb_refl).
  rewrite orb_true_r, !(no_rows _ _ _ (ht_sites h)) by done.
  replace (delete_where (site_is (si_id r)) (ht_sites h ++ [r])) with (ht_sites h); [by destruct h|].
  unfold delete_where. rewrite List.filter_app. cbn. unfold site_is at 2. rewrite N.eqb_refl. cbn.
  rewrite app_nil_r. symmetry. apply (delete_where_none (site_is (si_id r))). intros x Hx.
  apply N.eqb_neq. intros E. by apply Hid; rewrite <- E; apply in_map.
Qed.

Section create.
Context `{Env} `{Nginx}.
Abbreviation tables w := (db_hosting (w_db w)).
Abbreviation still := (on_db (on_tables (same (λ h : HostingTables, h)))).

Lemma still_site_reads p : within still (fetch_site p).
Proof. unfold fetch_site. within_tac. Qed.

Lemma still_site_new id owner dom al root php v by_ :
  within still (site_new id owner dom al root php v by_).
Proof. unfold site_new. within_tac. Qed.

Lemma sites_insert_run s w r w' :
  sites_insert s w = (r, w') →
  match r with
  | Ok _ => tables w' = set_sites (ht_sites (tables w) ++ [site_row s]) (tables w)
            ∧ ~ In (site_id s) (map si_id (ht_sites (tables w)))
            ∧ ~ In (site_primary_domain s) (map si_primary_domain (ht_sites (tables w)))
  | Err _ => tables w' = tables w
  end.
Proof.
  intros Hr. destruct r as [x|e]; [|by apply statement_err in Hr as ->].
  unfold sites_insert, statement in Hr. destruct (sql_fault _); [done|].
  destruct (insert_site_row _ _) as [[[] d']|] eqn:E; [|done]. injection Hr as _ <-.
  unfold insert_site_row in E. destruct (existsb _ _) eqn:E1 in E; [done|].
  destruct (existsb _ _) eqn:E2 in E; [done|]. destruct (existsb _ _) in E; [|done].
  injection E as <-. cbn. split_and!; [done| |].
  - eapply fresh_key, E1. intros y Hy. by apply N.eqb_eq.
  - eapply fresh_key, E2. intros y Hy. by apply String.eqb_eq.
Qed.

(** What [create_site] leaves: the tables as they were, or with the new site at the end. *)
Definition created (h : HostingTables) (o : Uuid) (dom : string) (r : result Site SiteError)
    (w' : World) : Prop :=
  match r with
  | Err _ => tables w' = h
  | Ok s => tables w' = set_sites (ht_sites h ++ [site_row s]) h
            ∧ site_primary_domain s = lowercase dom ∧ site_owner_id s = o
            ∧ ~ In (site_primary_domain s) (map si_primary_domain (ht_sites h))
  end.

(** Reads before the first change. *)
Lemma created_bind {A} (c : M World SiteError A) (k : A → M World SiteError Site) h o dom w :
  within still c → tables w = h →
  (∀ a w1, c w = (Ok a, w1) → tables w1 = h → created h o dom (k a w1).1 (k a w1).2) →
  created h o dom (bind c k w).1 (bind c k w).2.
Proof.
  intros Hc Hw Hk. specialize (Hc w). unfold bind. destruct (c w) as [[a|e] w1] eqn:E; cbn in Hc.
  - apply Hk; [done|]. by transitivity (tables w).
  - cbn. by transitivity (tables w).
Qed.

Lemma nginx_still (f : nat → Site → option SiteError) s : within still (nginx_call f s).
Proof. intros w. unfold nginx_call. by destruct (f _ s). Qed.
End create.

(** ** Properties *)

(** The identity, hierarchy, site, staging, database and recovery services run on the same
    tables, in any order. *)
Inductive panel_step `{Env} `{TwoFactorService} `{Nginx} `{SqliteTime} `{StagingFs} `{Vault} `{MysqlCli}
    `{PitrEnv} : World → World → Prop :=
| PanelAccount w w' : account_step w w' → panel_step w w'
| PanelHosting w w' : hosting_step w w' → panel_step w w'
| PanelDatabase key op w : panel_step w (run_database key op w)
| PanelRecovery op w : panel_step w (run_pitr op w).

Section panel.
Context `{Env} `{TwoFactorFrame} `{Nginx} `{SqliteTime} `{StagingFs} `{Vault} `{MysqlCli} `{PitrEnv}.

Lemma panel_accounts w w' : panel_step w w' → accounts_step (w_db w) (w_db w').
Proof.
  intros [? ? [op w0|op w0]|? ? [op w0|op w0]|key op w0|op w0].
  - apply step_run_op.
  - by apply step_run_hier.
  - apply accounts_run_site.
  - apply accounts_step_same, frame_run_staging.
  - apply accounts_run_database.
  - apply accounts_step_same, frame_run_pitr.
Qed.

(** Every relationship, pool and claim reads back through its decoder. *)
Definition hierarchy_decodes (d : Db) : Prop :=
  (∀ r, In r (db_relationships d) → is_ok (into_relationship r) = true)
  ∧ (∀ r, In r (db_pools d) → is_ok (into_pool r) = true)
  ∧ ∀ r, In r (db_claims d) → is_ok (into_claim r) = true.

Lemma accounts_wf_decodes d : accounts_wf d → hierarchy_decodes d.
Proof.
  intros Hwf. destruct (wf_hier _ Hwf). split_and!; intros r Hr.
  - apply rel_row_ok_iff; auto.
  - apply pool_row_ok_iff; auto.
  - apply claim_row_ok_iff; auto.
Qed.

(** C1 (account and site tables).  Along any sequence of identity, hierarchy, site, staging,
    database and recovery operations, whatever their outcome and wherever a statement fails, the
    amounts of the hierarchy requests being [u64]s: ids, usernames, emails, session hashes and
    relationship, pool and claim keys stay unique; every user, session, relationship, pool and
    claim row still decodes; every session, relationship, pool and claim refers to stored
    accounts; a child has at most one active parent; no owner account is lost or demoted; and the
    owner of every site and of every database is a stored account. *)
Theorem panel_tables_invariant (w w' : World) :
  rtc panel_step w w' → accounts_wf (w_db w) →
  accounts_wf (w_db w') ∧ hierarchy_decodes (w_db w') ∧ (∀ id, owner (w_db w) id → owner (w_db w') id)
  ∧ (∀ r, In r (ht_sites (db_hosting (w_db w'))) →
      ∃ u, In u (db_users (w_db w')) ∧ ur_id u = si_owner_id r)
  ∧ ∀ r, In r (dt_databases (ht_databases (db_hosting (w_db w')))) →
      ∃ u, In u (db_users (w_db w')) ∧ ur_id u = dbr_owner_id r.
Proof.
  intros Hr Hwf. assert (accounts_step (w_db w) (w_db w')) as Hst.
  { clear Hwf. induction Hr as [w|w w1 w' Hs _ IH]; [reflexivity|].
    etransitivity; [by apply panel_accounts | done]. }
  destruct (Hst Hwf) as [Hwf' Ho].
  assert (∀ i, In i (owner_refs (w_db w')) → ∃ u, In u (db_users (w_db w')) ∧ ur_id u = i) as Hrefs.
  { intros i (u & Hid & Hu)%(wf_owner_refs _ Hwf')%in_map_iff. eauto. }
  split_and!; [done|by apply accounts_wf_decodes|done| |];
    intros r Hr'; apply Hrefs, in_or_app; [left|right]; by apply in_map.
Qed.
End panel.

Section creation.
Context `{Env} `{Nginx}.
Abbreviation tables w := (db_hosting (w_db w)).

(** Creating a site.  When statements do not fail, [create_site] either returns an
    error and leaves the tables as they were, also when nginx refuses the configuration
    after the row was stored, or appends the site it returns, with a domain no other site
    has. *)
Theorem create_site_all_or_nothing c o dom al php v root w :
  (∀ k, sql_fault k = None) → staging_wf (tables w) →
  let '(r, w') := create_site c o dom al php v root w in created (tables w) o dom r w'.
Proof.
  intros Hnf (_ & _ & HR & _).
  rewrite (surjective_pairing (create_site c o dom al php v root w)).
  unfold create_site. destruct (negb _); [done|].
  apply created_bind; [apply within_map_err, still_site_reads|done|].
  intros [s|] w1 _ E1; [done|].
  apply created_bind; [intros ?; reflexivity|done|]. intros id w2 _ E2.
  apply created_bind; [apply still_site_new|done|]. intros s w3 Hnew E3.
  apply site_new_run in Hnew as (_ & _ & _ & Eo & Ed & _).
  match goal with |- created _ _ _ (?m).1 (?m).2 =>
    enough (∃ r w', m = (r, w') ∧ created (tables w) o dom r w') as (r & w' & -> & Hr) by done end.
  destruct (map_err SitePersistence (sites_insert s) w3) as [[x|e] w4] eqn:Hi.
  - rewrite (bind_run _ _ _ _ _ Hi). apply map_err_ok, sites_insert_run in Hi as (E4 & Hid & Hdom).
    rewrite E3 in *. pose proof (nginx_still provision s w4) as Hp.
    destruct (nginx_call provision s w4) as [z wp] eqn:Ep. cbn in Hp.
    rewrite (bind_run _ _ _ (match z with Ok a => Some a | Err _ => None end) wp)
      by (unfold attempt; rewrite Ep; by destruct z).
    pose proof (nginx_still nginx_apply s wp) as Hn.
    destruct (nginx_call nginx_apply s wp) as [y w5] eqn:Eng.
    rewrite (bind_run _ _ _ y w5) by (unfold try_run; by rewrite Eng). destruct y as [y|e]; cbn in Hn.
    + edestruct (audit_ok (on_tables (same (λ h, h))) (E:=SiteError)) as (w6 & Ha & Hs).
      rewrite (bind_run _ _ _ _ _ Ha). do 2 eexists. split; [done|]. cbn. split_and!; [|done..].
      transitivity (tables w5); [exact Hs|]. transitivity (tables wp); [done|]. by transitivity (tables w4).
    + do 2 eexists. unfold sites_delete, bind, attempt. rewrite execute_no_fault by done.
      split; [done|]. unfold on_db, on_tables, same in Hn, Hp. cbn. rewrite Hn, Hp, E4.
      by apply (delete_inserted (site_row s)).
  - do 2 eexists. rewrite (bind_stop _ _ _ _ _ Hi). split; [done|].
    apply map_err_err in Hi as [e' Hi%sites_insert_run]. cbn. congruence.
Qed.
End creation.
