(* ===== verification/TokenSafety.v ===== *)
(** * Tokens: what the service keeps

    The changes that token operations make to the table, and what single methods do. *)
From S2P Require Import Prelude Text AuditActions AuditLog Accounts Float64 Paths CronJobs HostingTables Store Users Identity Secrets Factors Net Remember Sites StagingChanges StagingSafety ApiTokens TokenService.
Open Scope N_scope.

(** ** Changes *)

(** Identifiers and hashes are unique. *)
Definition tokens_wf (t : list TokenRow) : Prop := NoDup (map tk_id t) ∧ NoDup (map tk_hash t).

(** What one statement does: a new row, or new columns for one row, with the same hash, and
    revoked if the row was. *)
Inductive token_change : list TokenRow → list TokenRow → Prop :=
| TokenInserted r t :
    ~ In (tk_id r) (map tk_id t) → ~ In (tk_hash r) (map tk_hash t) → token_change t (t ++ [r])
| TokenWritten r f t :
    In r t → (∀ x, tk_id (f x) = tk_id x) → tk_hash (f r) = tk_hash r →
    (tk_revoked_at r ≠ None → tk_revoked_at (f r) ≠ None) →
    token_change t (update_where (token_is (tk_user_id r) (tk_id r)) f t).

Definition token_changes (h h' : HostingTables) : Prop :=
  rtc token_change (ht_tokens h) (ht_tokens h').

#[export] Instance token_changes_preorder : PreOrder token_changes.
Proof. unfold token_changes. split; [intros h; reflexivity | intros h1 h2 h3 Ha Hb; by etransitivity]. Qed.

(** The row an update by key writes. *)
Lemma token_is_unique t r x :
  tokens_wf t → In r t → In x t → token_is (tk_user_id r) (tk_id r) x = true → x = r.
Proof.
  intros [Hn _] Hr Hx [_ Hid%N.eqb_eq]%andb_true_iff. by eapply (NoDup_key_inj tk_id).
Qed.

Lemma token_is_self r : token_is (tk_user_id r) (tk_id r) r = true.
Proof. unfold token_is. by rewrite !N.eqb_refl. Qed.

Lemma tokens_wf_change t t' : token_change t t' → tokens_wf t → tokens_wf t'.
Proof.
  destruct 1 as [r t Hid Hh|r f t Hr Hkey Hhash _]; intros HW.
  - destruct HW as [H1 H2]. split; by apply NoDup_snoc.
  - pose proof HW as [H1 H2]. split; [by rewrite update_where_key|].
    replace (map tk_hash _) with (map tk_hash t); [done|]. unfold update_where.
    rewrite map_map. apply map_ext_in. intros x Hx.
    destruct (token_is _ _ x) eqn:E; [|done]. by rewrite (token_is_unique t r x HW Hr Hx E).
Qed.

Lemma tokens_wf_changes t t' : rtc token_change t t' → tokens_wf t → tokens_wf t'.
Proof. induction 1 as [|t t1 t' Hc _ IH]; [done|]. intros HW. by eapply IH, tokens_wf_change. Qed.

(** A hash that belongs to a revoked token. *)
Definition dead (hash : list N) (t : list TokenRow) : Prop :=
  ∃ r, In r t ∧ tk_hash r = hash ∧ tk_revoked_at r ≠ None.

Lemma dead_change hash t t' : token_change t t' → tokens_wf t → dead hash t → dead hash t'.
Proof.
  intros Hc HW (x & Hx & Hh & Hd). destruct Hc as [r t _ _|r f t Hr _ Hhash Hrev].
  - exists x. split; [apply in_or_app; by left | done].
  - exists (if token_is (tk_user_id r) (tk_id r) x then f x else x).
    split; [apply in_map_iff; by exists x|]. destruct (token_is _ _ x) eqn:E; [|done].
    pose proof (token_is_unique t r x HW Hr Hx E) as ->. split; [congruence | auto].
Qed.

Lemma dead_changes hash t t' :
  rtc token_change t t' → tokens_wf t → dead hash t → tokens_wf t' ∧ dead hash t'.
Proof.
  induction 1 as [|t t1 t' Hc _ IH]; [done|]. intros HW Hd.
  apply IH; [by eapply tokens_wf_change | by eapply dead_change].
Qed.

(** ** Rows *)

Lemma collect_same {E} (parse : string → result string E) l l' :
  (∀ s s', parse s = Ok s' → s' = s) → collect parse l = Ok l' → l' = l.
Proof.
  intros Hp. revert l'. induction l as [|s l IH]; intros l'; cbn; [by intros [= <-]|].
  destruct (parse s) as [s'|] eqn:Es; cbn; [|done]. destruct (collect _ l) as [l1|]; cbn; [|done].
  intros [= <-]. by rewrite (Hp _ _ Es), (IH l1).
Qed.

Lemma scope_parse_same s s' : scope_parse s = Ok s' → s' = s.
Proof.
  unfold scope_parse. destruct (split _ _) as [|a [|b [|]]]; try done.
  destruct (_ && _); [|done]. by intros [= <-].
Qed.

Lemma scope_set_In s l : In s (scope_set l) ↔ In s l.
Proof.
  unfold scope_set. rewrite <- !list_elem_of_In, merge_sort_Permutation. apply elem_of_remove_dups.
Qed.

(** What a token read from a row holds. *)
Lemma token_of_row_ok r k :
  token_of_row r = Ok k →
  tok_id k = tk_id r ∧ tok_user_id k = tk_user_id r ∧ tok_hash k = tk_hash r
  ∧ tok_created_at k = tk_created_at r ∧ tok_expires_at k = tk_expires_at r
  ∧ tok_last_used_at k = tk_last_used_at r ∧ tok_revoked_at k = tk_revoked_at r
  ∧ (∀ s, In s (tok_scopes k) ↔ In s (tk_scopes r))
  ∧ length (tk_hash r) = 32%nat.
Proof.
  unfold token_of_row. destruct (Nat.eqb_spec (length (tk_hash r)) 32) as [Hl|]; [|done]. cbn.
  destruct (collect _ (tk_scopes r)) as [scopes|] eqn:Es; cbn; [|done].
  apply collect_same in Es as ->; [|by intros s s' Hs%result_map_err_ok%scope_parse_same].
  destruct (collect _ (default [] _)) as [cidrs|]; cbn; [|done]. unfold token_restore.
  destruct (_ || _); [done|]. case_bool_decide; [done|]. destruct (_ <=? _)%Z; [done|]. cbn.
  intros [= <-]. cbn. split_and!; try done. intros s. by rewrite scope_set_In.
Qed.

Section methods.
Context `{Env} `{CookieCrypto} `{TokenEnv} (pepper : list N) (rate : RateLimitConfig).
Abbreviation tokens w := (ht_tokens (db_hosting (w_db w))).
Abbreviation K := (on_db (on_tables token_changes)).
Abbreviation quiet := (on_db (on_tables (same ht_tokens))).

Lemma quiet_changes {E A} (c : M World E A) : within quiet c → within K c.
Proof.
  intros Hc w. specialize (Hc w). unfold on_db, on_tables, same, token_changes in *.
  rewrite Hc. reflexivity.
Qed.

Lemma tokens_find_run user id w o w' :
  tokens_find user id w = (Ok o, w') →
  w_db w' = w_db w ∧ found_row token_of_row (List.find (token_is user id) (tokens w)) o.
Proof.
  unfold tokens_find. intros Hr. inv_bind Hr. apply select_run in R as (Hdb & -> & _).
  apply lift_ok in Hr as [Ht ->]. split; [done | by apply transpose_found].
Qed.

Lemma tokens_find_by_hash_run hash w o w' :
  tokens_find_by_hash hash w = (Ok o, w') →
  w_db w' = w_db w ∧ found_row token_of_row (List.find (hash_is hash) (tokens w)) o.
Proof.
  unfold tokens_find_by_hash. intros Hr. inv_bind Hr. apply select_run in R as (Hdb & -> & _).
  apply lift_ok in Hr as [Ht ->]. split; [done | by apply transpose_found].
Qed.

(** A token that was found by its key. *)
Lemma require_token_run user id w k w' :
  require_token user id w = (Ok k, w') →
  w_db w' = w_db w ∧ ∃ r, In r (tokens w) ∧ tk_user_id r = user ∧ tk_id r = id
                          ∧ token_of_row r = Ok k.
Proof.
  unfold require_token, internal. intros Hr. inv_bind Hr. apply map_err_ok, tokens_find_run in R as [Hdb Hf].
  apply ok_or_ok in Hr as [-> ->]. destruct Hf as (r & Hf & Hk). split; [done|].
  apply List.find_some in Hf as [Hin [Hu%N.eqb_eq Hi%N.eqb_eq]%andb_true_iff]. eauto 6.
Qed.

Lemma quiet_token_reads {A B} (f : Db → A) (k : A → result B RepoError) :
  within quiet (internal (row <- select f ;; lift (k row))).
Proof. unfold internal. within_tac. Qed.

Lemma quiet_require_token user id : within quiet (require_token user id).
Proof. unfold require_token, tokens_find. pose proof @quiet_token_reads. within_tac. Qed.

Lemma quiet_authorize actor user : within quiet (authorize_target actor user).
Proof.
  unfold authorize_target, users_find_by_id, fetch_user. pose proof @quiet_token_reads. within_tac.
Qed.

Lemma quiet_credential : within quiet fresh_credential.
Proof. intros w. reflexivity. Qed.

Lemma quiet_consume id : within quiet (consume rate id).
Proof. intros w. unfold consume. by destruct (bucket_consume _ _ _ _). Qed.

(** *** Updates *)

Lemma update_tokens_at r k w :
  In r (tokens w) → tok_user_id k = tk_user_id r → tok_id k = tk_id r → tok_hash k = tk_hash r →
  (tk_revoked_at r ≠ None → tok_revoked_at k ≠ None) →
  K w (tokens_update k w).2.
Proof.
  intros Hr Hu Hi Hh Hrev. unfold tokens_update, statement, hosting_statement.
  destruct (sql_fault _); [apply on_db_tick; apply _|]. unfold update_token_row.
  destruct (_ && _); [apply on_db_tick; apply _|].
  unfold on_db, on_tables, token_changes. cbn. apply rtc_once. rewrite Hu, Hi.
  by constructor.
Qed.

Lemma insert_tokens k : within K (statement (insert_token_row (token_row k))).
Proof.
  apply on_db_statement; [apply _|]. intros d [] d'. unfold insert_token_row.
  destruct (existsb _ _) eqn:E1; [done|]. destruct (existsb (hash_is _) _) eqn:E2; [done|].
  destruct (existsb (id_is _) _); [|done]. intros [= <-]. unfold on_tables, token_changes. cbn.
  apply rtc_once. constructor.
  - eapply fresh_key, E1. intros x Hx. by apply N.eqb_eq.
  - eapply fresh_key, E2. intros x Hx. by apply bool_decide_eq_true.
Qed.

Lemma changes_revoke actor user id : within K (revoke actor user id).
Proof.
  intros w. unfold revoke, token_check, internal.
  apply bind_at; [apply _|apply quiet_changes, quiet_authorize|]. intros u w1 _.
  apply bind_at; [apply _|apply quiet_changes, quiet_require_token|].
  intros k w2 (Hdb & r & Hr & Hu & Hi & Hk)%require_token_run. rewrite <- Hdb in Hr.
  apply bind_at; [apply _|apply on_db_tick, _|]. intros t w3 [= <- <-].
  apply bind_at; [apply _|apply within_lift, _|]. intros k' w4 [Hk'%result_map_err_ok ->]%lift_ok.
  destruct (token_of_row_ok r k Hk) as (? & ? & ? & _). unfold token_revoke in Hk'.
  destruct (tok_revoked_at k); [done|]. injection Hk' as <-.
  apply bind_at; [apply _| |intros x w5 _; apply on_db_audit; apply _].
  apply map_err_at, (update_tokens_at r); cbn; try done; congruence.
Qed.

(** Both statements of a rotation. *)
Lemma changes_rotate_rows r old new t w :
  In r (tokens w) → tok_user_id old = tk_user_id r → tok_id old = tk_id r → tok_revoked_at old = Some t →
  K w (tokens_rotate old new w).2.
Proof.
  intros Hr Hu Hi Hrev. unfold tokens_rotate, in_transaction.
  set (all := bind _ _). assert (K w (all w).2) as HK.
  { subst all. apply bind_at; [apply _|apply within_map_err, on_db_select, _|].
    intros x w1 [Hdb _]%map_err_ok%select_run.
    apply bind_at; [apply _| |intros y w2 _; apply bind_at; [apply _|apply within_map_err, on_db_select, _|intros; by apply within_ret, _]].
    apply bind_at; [apply _| |intros y w2 _; apply insert_tokens].
    unfold execute, statement. destruct (sql_fault _); [apply on_db_tick; apply _|].
    unfold on_db, on_tables, token_changes. cbn. apply rtc_once. rewrite Hu, Hi.
    constructor; [by rewrite Hdb|done|done|]. intros _. cbn. by rewrite Hrev. }
  destruct (all w) as [[a|e] w']; [done|]. unfold on_db. cbn. reflexivity.
Qed.

Lemma changes_rotate actor user id : within K (rotate pepper actor user id).
Proof.
  intros w. unfold rotate, token_check, internal.
  apply bind_at; [apply _|apply quiet_changes, quiet_authorize|]. intros u w1 _.
  apply bind_at; [apply _|apply quiet_changes, quiet_require_token|].
  intros k w2 (Hdb & r & Hr & Hu & Hi & Hk)%require_token_run. rewrite <- Hdb in Hr.
  apply bind_at; [apply _|apply on_db_tick, _|]. intros t w3 [= <- <-].
  destruct (is_active _ _); [|reflexivity]. cbn [negb].
  apply bind_at; [apply _|apply on_db_tick, _|]. intros t w4 [= <- <-].
  apply bind_at; [apply _|apply within_lift, _|]. intros k' w5 [Hk'%result_map_err_ok ->]%lift_ok.
  apply bind_at; [apply _|apply on_db_tick, _|]. intros c w6 [= <- <-].
  apply bind_at; [apply _|apply on_db_tick, _|]. intros n w7 [= <- <-].
  apply bind_at; [apply _|apply within_lift, _|]. intros new w8 [_ ->]%lift_ok.
  destruct (token_of_row_ok r k Hk) as (? & ? & _). unfold token_revoke in Hk'.
  destruct (tok_revoked_at k); [done|]. injection Hk' as <-.
  apply bind_at; [apply _| |intros x w9 _; apply bind_at; [apply _|apply on_db_audit; apply _|intros; by apply within_ret, _]].
  eapply map_err_at, (changes_rotate_rows r); cbn; done.
Qed.

Lemma changes_create actor input : within K (token_create pepper actor input).
Proof.
  unfold token_create. pose proof quiet_authorize. pose proof quiet_credential. pose proof insert_tokens.
  unfold tokens_create, internal, token_check, token_record.
  apply within_bind; [apply _|apply quiet_changes, quiet_authorize|]. intros u. within_tac.
  by apply quiet_changes.
Qed.

(** *** Authentication *)

Lemma quiet_check plaintext peer scope : within quiet (auth_check pepper rate plaintext peer scope).
Proof.
  unfold auth_check. destruct (credential_parse _) as [c|]; [|within_tac].
  pose proof quiet_consume. pose proof @quiet_token_reads. unfold tokens_find_by_hash, users_find_by_id, fetch_user, record_token.
  within_tac.
Qed.

(** What a token that passed the checks satisfies. *)
Lemma auth_check_run plaintext peer scope w user k t w' :
  auth_check pepper rate plaintext peer scope w = (Ok (user, k, t), w') →
  ∃ c r n, credential_parse plaintext = Ok c ∧ In r (tokens w) ∧ tk_hash r = credential_hash pepper c
    ∧ token_of_row r = Ok k ∧ t = utc_now n ∧ tk_revoked_at r = None ∧ (t < tk_expires_at r)%Z
    ∧ allows_ip peer k = true ∧ allows_scope scope k = true
    ∧ List.find (id_is (tk_user_id r)) (db_users (w_db w)) = Some (user_row user)
    ∧ is_disabled user = false
    ∧ tokens w' = tokens w ∧ db_users (w_db w') = db_users (w_db w).
Proof.
  unfold auth_check. destruct (credential_parse plaintext) as [c|]; [|done]. intros Hr. inv_bind Hr.
  apply map_err_ok, tokens_find_by_hash_run in R as [Hdb Hf]. inv_bind Hr.
  apply ok_or_ok in R as [Ho ->]. destruct a as [k0|]; [|done]. destruct (hash_eq _ _); [|done].
  injection Ho as ->. destruct Hf as (r & Hf & Hk). apply List.find_some in Hf as [Hin Hh%bool_decide_eq_true].
  inv_bind Hr. injection R as <- <-. destruct (token_of_row_ok r a0 Hk) as (_ & Hu & _ & _ & He & _ & Hrev & _).
  case_bool_decide as Hn; [|done]. cbn [negb] in Hr.
  destruct (Z.leb_spec (tok_expires_at a0) (utc_now (w_step w0))) as [|Hlt]; [inv_bind Hr; done|].
  destruct (allows_ip peer a0) eqn:Eip; cbn [negb] in Hr; [|inv_bind Hr; done].
  destruct (allows_scope scope a0) eqn:Esc; cbn [negb] in Hr; [|inv_bind Hr; done].
  inv_bind Hr. unfold try_run, consume in R.
  destruct (bucket_consume _ _ _ _) as [v b]. injection R as <- <-.
  destruct v as [[]|]; [|inv_bind Hr; done]. inv_bind Hr.
  apply map_err_ok, fetch_user_run in R as [Hdb2 Hus]. inv_bind Hr.
  apply ok_or_ok in R as [Ho ->]. destruct a as [u|]; [|done]. destruct (is_disabled u) eqn:Ed; [done|].
  injection Ho as ->. injection Hr as <- <- <- <-. destruct Hus as [Hus _]. cbn in Hus. rewrite Hdb, Hu in Hus.
  exists c, r, (w_step w0). split_and!; try done; [congruence|by rewrite <- He| |]; rewrite Hdb2; cbn; by rewrite Hdb.
Qed.

Lemma changes_authenticate plaintext peer scope :
  within K (authenticate pepper rate plaintext peer scope).
Proof.
  intros w. unfold authenticate.
  apply bind_at; [apply _|apply quiet_changes, quiet_check|].
  intros [[user k] t] w1 (c & r & n & _ & Hin & _ & Hk & _ & _ & _ & _ & _ & _ & _ & Ht & _)%auth_check_run.
  rewrite <- Ht in Hin. destruct (token_of_row_ok r k Hk) as (Hi & Hu & Hh & _ & _ & _ & Hrev & _).
  unfold auth_store, internal. apply bind_at; [apply _| |intros; by apply within_ret, _].
  apply bind_at; [apply _| |intros x w2 _; apply on_db_audit; apply _].
  apply map_err_at, (update_tokens_at r); cbn; try done. by rewrite Hrev.
Qed.
End methods.
