(* ===== verification/TokenCodec.v ===== *)
(** * Tokens: credentials, networks and the rate limit

    The base-32 codec, the round trip of a credential, what a network contains, and the
    bucket of a token. *)
From S2P Require Import Prelude Text AuditActions AuditLog Accounts Float64 Paths CronJobs HostingTables Store Users Identity Secrets Factors Net Remember Sites ApiTokens TokenService.
Open Scope N_scope.

(** Arithmetic with division by constants. *)
Ltac div_lia := zify; Z.to_euclidean_division_equations; lia.

(** ** Base 32 *)

Definition letter (i : N) : N := nth (N.to_nat i) ALPHABET 0.

Definition letter_ok (i : N) : bool :=
  bool_decide (alphabet_index (letter i) = Some i) && (letter i <? 128) && negb (letter i =? 46).

Lemma letter_spec i : i < 32 → alphabet_index (letter i) = Some i ∧ letter i < 128 ∧ letter i ≠ 46.
Proof.
  intros Hi. assert (forallb letter_ok (map N.of_nat (seq 0 32)) = true) as Hall by (vm_compute; done).
  rewrite forallb_forall in Hall. specialize (Hall i). unfold letter_ok in Hall.
  rewrite !andb_true_iff, bool_decide_eq_true, N.ltb_lt, negb_true_iff, N.eqb_neq in Hall.
  destruct Hall as [[? ?] ?]; [|done]. rewrite <- (N2Nat.id i). apply in_map, in_seq. lia.
Qed.

Definition is_letter (c : N) : Prop := ∃ i, i < 32 ∧ c = letter i.

(** The buffer after one more group of [w] bits. *)
Definition shifted (w buffer x : N) : N := N.lor (N.shiftl buffer w mod 2 ^ 32) x.

(** What is read from the buffer: bits past the 32 do not matter. *)
Lemma group_bits w buffer x n k :
  x < 2 ^ w → n + k ≤ 32 →
  N.land (N.shiftr (shifted w buffer x) n) (N.ones k) = ((buffer * 2 ^ w + x) / 2 ^ n) mod 2 ^ k.
Proof.
  intros Hx Hn. rewrite <- lor_shiftl, <- N.shiftr_div_pow2, <- N.land_ones by done.
  apply N.bits_inj. intros i. rewrite !N.land_spec, !N.shiftr_spec'.
  destruct (N.lt_ge_cases i k) as [Hi|Hi]; [|by rewrite N.ones_spec_high, !andb_false_r].
  unfold shifted. by rewrite !N.lor_spec, N.mod_pow2_bits_low by lia.
Qed.

Lemma shifted_mod w buffer x k :
  x < 2 ^ w → k ≤ 32 → shifted w buffer x mod 2 ^ k = (buffer * 2 ^ w + x) mod 2 ^ k.
Proof.
  intros Hx Hk. pose proof (group_bits w buffer x 0 k Hx ltac:(lia)) as Hg.
  rewrite N.shiftr_0_r, N.land_ones, N.pow_0_r, N.div_1_r in Hg. done.
Qed.

(** The two cases of the encoder's loop. *)
Lemma turn_out buffer b bits out : b < 256 → 5 ≤ bits → bits ≤ 32 →
  encode_turn (shifted 8 buffer b, bits, out)
  = (shifted 8 buffer b, bits - 5,
     (out ++ [letter ((buffer * 256 + b) / 2 ^ (bits - 5) mod 32)])%list).
Proof.
  intros Hb H5 H32. unfold encode_turn, letter. destruct (N.ltb_spec bits 5); [lia|].
  change 31 with (N.ones 5). by rewrite (group_bits 8 buffer b (bits - 5) 5) by (done || lia).
Qed.

Lemma turn_wait buffer bits out : bits < 5 → encode_turn (buffer, bits, out) = (buffer, bits, out).
Proof. intros Hb. unfold encode_turn. by destruct (N.ltb_spec bits 5); [|lia]. Qed.

Lemma encode_byte_turns buffer bits out b :
  encode_byte (buffer, bits, out) b = encode_turn (encode_turn (shifted 8 buffer b, bits + 8, out)).
Proof. done. Qed.

(** The eight groups of five bits in five bytes. *)
Definition groups (b0 b1 b2 b3 b4 : N) : list N :=
  [b0 / 8; b0 mod 8 * 4 + b1 / 64; b1 / 2 mod 32; b1 mod 2 * 16 + b2 / 16;
   b2 mod 16 * 2 + b3 / 128; b3 / 4 mod 32; b3 mod 4 * 8 + b4 / 32; b4 mod 32].

Lemma groups_small b0 b1 b2 b3 b4 :
  Forall is_byte [b0; b1; b2; b3; b4] → Forall (λ i, i < 32) (groups b0 b1 b2 b3 b4).
Proof.
  unfold is_byte, groups. rewrite !Forall_cons. intros (H0 & H1 & H2 & H3 & H4 & _).
  split_and!; [div_lia..|done].
Qed.

Lemma shifted_low buffer b : b < 256 → shifted 8 buffer b mod 256 = b.
Proof.
  intros Hb. pose proof (shifted_mod 8 buffer b 8 Hb ltac:(done)) as Hm.
  change (2 ^ 8) with 256 in Hm. div_lia.
Qed.

Lemma encode_block b0 b1 b2 b3 b4 buffer out :
  Forall is_byte [b0; b1; b2; b3; b4] →
  ∃ buffer', fold_left encode_byte [b0; b1; b2; b3; b4] (buffer, 0, out)
             = (buffer', 0, (out ++ map letter (groups b0 b1 b2 b3 b4))%list).
Proof.
  unfold is_byte. rewrite !Forall_cons. intros (H0 & H1 & H2 & H3 & H4 & _).
  pose proof (shifted_low buffer b0 H0) as M0. set (B0 := shifted 8 buffer b0) in M0.
  pose proof (shifted_low B0 b1 H1) as M1. set (B1 := shifted 8 B0 b1) in M1.
  pose proof (shifted_low B1 b2 H2) as M2. set (B2 := shifted 8 B1 b2) in M2.
  pose proof (shifted_low B2 b3 H3) as M3. set (B3 := shifted 8 B2 b3) in M3.
  eexists. cbn [fold_left].
  rewrite encode_byte_turns, turn_out, turn_wait by done. fold B0.
  rewrite encode_byte_turns, !turn_out by done. fold B1.
  rewrite encode_byte_turns, turn_out, turn_wait by done. fold B2.
  rewrite encode_byte_turns, !turn_out by done. fold B3.
  rewrite encode_byte_turns, !turn_out by done. f_equal.
  rewrite <- !(assoc_L (++)). unfold groups. cbn [map app].
  repeat match goal with |- context [2 ^ ?e] => let v := eval vm_compute in (2 ^ e) in change (2 ^ e) with v end.
  f_equal. clear -H0 H1 H2 H3 H4 M0 M1 M2 M3. clearbody B0 B1 B2 B3.
  repeat (apply f_equal2; [apply f_equal; div_lia|]). done.
Qed.

(** One letter into the decoder. *)
Lemma loop_out buffer bits out i l : i < 32 → 3 ≤ bits → bits < 8 →
  base32_loop buffer bits out (letter i :: l)
  = base32_loop (shifted 5 buffer i) (bits - 3)
      (out ++ [(buffer * 32 + i) / 2 ^ (bits - 3) mod 256])%list l.
Proof.
  intros Hi H3 H8. cbn [base32_loop]. rewrite (proj1 (letter_spec i Hi)).
  destruct (N.leb_spec 8 (bits + 5)); [|lia]. replace (bits + 5 - 8) with (bits - 3) by lia.
  fold (shifted 5 buffer i). change 255 with (N.ones 8).
  by rewrite (group_bits 5 buffer i (bits - 3) 8) by (done || lia).
Qed.

Lemma loop_wait buffer bits out i l : i < 32 → bits < 3 →
  base32_loop buffer bits out (letter i :: l) = base32_loop (shifted 5 buffer i) (bits + 5) out l.
Proof.
  intros Hi H3. cbn [base32_loop]. rewrite (proj1 (letter_spec i Hi)).
  by destruct (N.leb_spec 8 (bits + 5)); [lia|].
Qed.

Lemma shifted_ten buffer i : i < 32 → shifted 5 buffer i mod 1024 = buffer mod 32 * 32 + i.
Proof.
  intros Hi. pose proof (shifted_mod 5 buffer i 10 Hi ltac:(done)) as Hm.
  change (2 ^ 5) with 32 in Hm. change (2 ^ 10) with 1024 in Hm. div_lia.
Qed.

(** A byte is made of the last three letters. *)
Lemma byte_of_letters buffer i j k n : i < 32 → j < 32 → k < 32 → n < 5 →
  (shifted 5 (shifted 5 buffer i) j * 32 + k) / 2 ^ n mod 256
  = ((i * 32 + j) * 32 + k) / 2 ^ n mod 256.
Proof.
  intros Hi Hj Hk Hn. pose proof (shifted_ten buffer i Hi) as M0.
  set (B0 := shifted 5 buffer i) in *. pose proof (shifted_ten B0 j Hj) as M1.
  set (B1 := shifted 5 B0 j) in *. clearbody B1. clearbody B0.
  assert (B0 mod 32 = i) as M2 by (clear M1; div_lia).
  assert (B1 mod 1024 = i * 32 + j) as M by (by rewrite M1, M2). clear M0 M1 M2.
  assert (n = 0 ∨ n = 1 ∨ n = 2 ∨ n = 3 ∨ n = 4) as Hc by lia.
  destruct Hc as [-> | [-> | [-> | [-> | ->]]]]; cbn [N.pow Pos.pow Pos.iter Pos.mul]; div_lia.
Qed.

Lemma first_byte_of_letters buffer i j : i < 32 → j < 32 →
  (shifted 5 buffer i * 32 + j) / 2 ^ 2 mod 256 = i * 8 + j / 4.
Proof.
  intros Hi Hj. pose proof (shifted_ten buffer i Hi) as M0. change (2 ^ 2) with 4. div_lia.
Qed.

Lemma decode_letters i0 i1 i2 i3 i4 i5 i6 i7 buffer out l :
  Forall (λ i, i < 32) [i0; i1; i2; i3; i4; i5; i6; i7] →
  ∃ buffer', base32_loop buffer 0 out (map letter [i0; i1; i2; i3; i4; i5; i6; i7] ++ l)
    = base32_loop buffer' 0 (out ++
        [i0 * 8 + i1 / 4; ((i1 * 32 + i2) * 32 + i3) / 16 mod 256;
         ((i2 * 32 + i3) * 32 + i4) / 2 mod 256; ((i4 * 32 + i5) * 32 + i6) / 8 mod 256;
         ((i5 * 32 + i6) * 32 + i7) mod 256]) l.
Proof.
  rewrite !Forall_cons. intros (G0 & G1 & G2 & G3 & G4 & G5 & G6 & G7 & _). eexists. cbn [map app].
  rewrite loop_wait, loop_out, loop_wait, loop_out, loop_out, loop_wait, loop_out, loop_out by done.
  rewrite (first_byte_of_letters _ i0 i1), !byte_of_letters by done. rewrite N.div_1_r.
  rewrite <- !(assoc_L (++)). reflexivity.
Qed.

Lemma decode_block b0 b1 b2 b3 b4 buffer out l :
  Forall is_byte [b0; b1; b2; b3; b4] →
  ∃ buffer', base32_loop buffer 0 out (map letter (groups b0 b1 b2 b3 b4) ++ l)
             = base32_loop buffer' 0 (out ++ [b0; b1; b2; b3; b4]) l.
Proof.
  intros Hb. destruct (decode_letters _ _ _ _ _ _ _ _ buffer out l (groups_small _ _ _ _ _ Hb)) as [B HB].
  exists B. unfold groups. rewrite HB. do 2 f_equal. clear HB.
  unfold is_byte in Hb. rewrite !Forall_cons in Hb. destruct Hb as (H0 & H1 & H2 & H3 & H4 & _).
  apply f_equal2; [div_lia|]. apply f_equal2; [clear H0 H3 H4; div_lia|].
  apply f_equal2; [clear H0 H4; div_lia|].
  apply f_equal2; [clear H0 H1; div_lia|]. apply f_equal2; [clear H0 H1 H2; div_lia|]. done.
Qed.

(** Whole blocks of five bytes. *)
Inductive blocks : list N → Prop :=
| BlocksNil : blocks []
| BlocksCons b0 b1 b2 b3 b4 l :
    Forall is_byte [b0; b1; b2; b3; b4] → blocks l → blocks ([b0; b1; b2; b3; b4] ++ l).

Lemma blocks_of n l : length l = (5 * n)%nat → Forall is_byte l → blocks l.
Proof.
  revert l. induction n as [|n IH]; intros l Hl Hb.
  - destruct l; [constructor | done].
  - destruct l as [|b0 [|b1 [|b2 [|b3 [|b4 l]]]]]; try (cbn in Hl; lia).
    apply (BlocksCons b0 b1 b2 b3 b4 l).
    + by apply (Forall_app _ [b0; b1; b2; b3; b4] l) in Hb as [? _].
    + apply (Forall_app _ [b0; b1; b2; b3; b4] l) in Hb as [_ ?]. apply IH; [cbn in Hl; lia | done].
Qed.

(** The letters of blocks: eight for each. *)
Fixpoint all_groups (l : list N) : list N :=
  match l with
  | b0 :: b1 :: b2 :: b3 :: b4 :: l => groups b0 b1 b2 b3 b4 ++ all_groups l
  | _ => []
  end.

Lemma encode_blocks l : blocks l → ∀ buffer out,
  ∃ buffer', fold_left encode_byte l (buffer, 0, out) = (buffer', 0, (out ++ map letter (all_groups l))%list).
Proof.
  induction 1 as [|b0 b1 b2 b3 b4 l Hb _ IH]; intros buffer out.
  - exists buffer. cbn. by rewrite app_nil_r.
  - rewrite fold_left_app. destruct (encode_block _ _ _ _ _ buffer out Hb) as [B ->].
    destruct (IH B (out ++ map letter (groups b0 b1 b2 b3 b4))%list) as [B' ->]. exists B'.
    change (all_groups ([b0; b1; b2; b3; b4] ++ l)) with (groups b0 b1 b2 b3 b4 ++ all_groups l)%list.
    by rewrite map_app, app_assoc.
Qed.

Lemma base32_encode_blocks l : blocks l → base32_encode l = map letter (all_groups l).
Proof.
  intros Hl. unfold base32_encode. by destruct (encode_blocks l Hl 0 []) as [B ->].
Qed.

Lemma decode_blocks l : blocks l → ∀ buffer out,
  base32_loop buffer 0 out (map letter (all_groups l)) = Some (out ++ l)%list.
Proof.
  induction 1 as [|b0 b1 b2 b3 b4 l Hb _ IH]; intros buffer out; [cbn; by rewrite app_nil_r|].
  change (all_groups ([b0; b1; b2; b3; b4] ++ l)) with (groups b0 b1 b2 b3 b4 ++ all_groups l)%list.
  rewrite map_app. destruct (decode_block _ _ _ _ _ buffer out (map letter (all_groups l)) Hb) as [B ->].
  by rewrite IH, <- app_assoc.
Qed.

Lemma base32_roundtrip l : blocks l → base32_decode (base32_encode l) = Some l.
Proof. intros Hl. rewrite base32_encode_blocks by done. by apply (decode_blocks l Hl 0 []). Qed.

Lemma all_groups_length l : blocks l → (5 * length (all_groups l) = 8 * length l)%nat.
Proof.
  induction 1 as [|b0 b1 b2 b3 b4 l _ _ IH]; [done|].
  change (all_groups ([b0; b1; b2; b3; b4] ++ l)) with (groups b0 b1 b2 b3 b4 ++ all_groups l)%list.
  rewrite !length_app. cbn. lia.
Qed.

(** ** Credentials *)

(** Every character of the encoder is a letter. *)
Lemma ALPHABET_ascii i : nth i ALPHABET 0 < 128.
Proof.
  destruct (nth_in_or_default i ALPHABET 0) as [Hin| ->]; [|done].
  assert (forallb (λ c, c <? 128) ALPHABET = true) as Ha by done.
  rewrite forallb_forall in Ha. by apply N.ltb_lt, Ha.
Qed.

Lemma encode_turn_ascii s : Forall (λ c, c < 128) s.2 → Forall (λ c, c < 128) (encode_turn s).2.
Proof.
  destruct s as [[buffer bits] out]. cbn. destruct (bits <? 5); [done|]. cbn. intros Ho.
  apply Forall_app. split; [done|]. repeat constructor. apply ALPHABET_ascii.
Qed.

Lemma base32_encode_ascii l : Forall (λ c, c < 128) (base32_encode l).
Proof.
  unfold base32_encode. assert (∀ s, Forall (λ c, c < 128) s.2 → Forall (λ c, c < 128) (fold_left encode_byte l s).2) as Hf.
  { induction l as [|b l IH]; intros s Hs; [done|]. apply IH. destruct s as [[buffer bits] out].
    by apply encode_turn_ascii, encode_turn_ascii. }
  specialize (Hf (0, 0, []) (Forall_nil_2 _)). destruct (fold_left _ _ _) as [[buffer bits] out]. cbn in Hf.
  destruct (0 <? bits); [|done]. apply Forall_app. split; [done|]. repeat constructor. apply ALPHABET_ascii.
Qed.

(** What decodes has only letters, hence no dot. *)
Lemma base32_loop_no_dot l buffer bits out : In 46 l → base32_loop buffer bits out l = None.
Proof.
  revert buffer bits out. induction l as [|c l IH]; intros buffer bits out; [done|].
  cbn [base32_loop]. intros [->|Hl]; [done|]. destruct (alphabet_index c); [|done].
  destruct (_ <=? _); by apply IH.
Qed.

Section credential.
Context `{CookieCrypto}.

(** What a credential is: the prefix, a body that decodes, a dot and the checksum. *)
Lemma credential_parse_exact value c :
  credential_parse value = Ok c ↔
  cred_rendered c = value
  ∧ bytes value = (bytes PREFIX ++ cred_body c ++ 46 :: checksum (cred_body c))%list
  ∧ length (cred_body c) = BODY_CHARS ∧ length (checksum (cred_body c)) = CHECKSUM_CHARS
  ∧ base32_decode (cred_body c) ≠ None.
Proof.
  unfold credential_parse, starts_with. split.
  - destruct (prefixb _ _) eqn:Ep; [|done]. cbn [negb]. apply prefixb_spec in Ep as [rest Hv].
    rewrite Hv, drop_app_length. destruct (split_once 46 rest) as [[body supplied]|] eqn:Es; [|done].
    destruct (_ || _) eqn:Ec; [done|]. intros [= <-]. cbn.
    rewrite !orb_false_iff, !negb_false_iff, bool_decide_eq_false in Ec.
    destruct Ec as [[[Hb%Nat.eqb_eq Hs%Nat.eqb_eq] Hd] Hc%constant_time_eq_spec]. subst supplied.
    apply split_once_spec in Es as ->. done.
  - intros (Hr & Hv & Hl & Hc & Hd). rewrite Hv.
    replace (prefixb _ _) with true by (symmetry; apply prefixb_spec; by eexists).
    cbn [negb]. rewrite drop_app_length, split_once_app.
    + rewrite Hl, Hc, bool_decide_eq_false_2 by done. cbn [Nat.eqb negb orb BODY_CHARS CHECKSUM_CHARS].
      replace (constant_time_eq _ _) with true by (symmetry; by apply constant_time_eq_spec).
      destruct c. cbn in *. by subst.
    + intros Hin. by apply Hd, base32_loop_no_dot.
Qed.

Context `{!TokenEnv} `{!TokenLaws}.

Lemma checksum_length body : length (checksum body) = CHECKSUM_CHARS.
Proof.
  unfold checksum. pose proof (sha256_len body) as Hl.
  destruct (sha256 body) as [|a [|b [|c l]]]; try done.
Qed.

(** C28 (credentials read back).  The text that a new token shows parses to the credential
    it was made of, whose body decodes to the random bytes; so two credentials with the same
    text come from the same bytes. *)
Theorem credential_roundtrip n :
  credential_parse (cred_rendered (credential_of (token_bytes n))) = Ok (credential_of (token_bytes n))
  ∧ base32_decode (cred_body (credential_of (token_bytes n))) = Some (token_bytes n).
Proof.
  pose proof (blocks_of 3 _ (token_bytes_len n) (token_bytes_ok n)) as Hb.
  split; [|by apply base32_roundtrip]. apply credential_parse_exact. cbn [credential_of cred_body cred_rendered].
  split_and!; [done| | |apply checksum_length|by rewrite base32_roundtrip].
  - apply bytes_of_bytes. rewrite !Forall_app, Forall_cons. split_and!; [apply bytes_lt| |done|].
    + eapply Forall_impl; [apply base32_encode_ascii|]. cbn. lia.
    + eapply Forall_impl; [apply Forall_take, base32_encode_ascii|]. cbn. lia.
  - rewrite base32_encode_blocks by done. rewrite length_map.
    pose proof (all_groups_length _ Hb) as Hg. rewrite token_bytes_len in Hg. unfold BODY_BYTES, BODY_CHARS in *. lia.
Qed.
End credential.

(** ** Networks *)

Lemma bits_above n width i : n < 2 ^ width → width ≤ i → N.testbit n i = false.
Proof.
  intros Hn Hi. rewrite <- (N.mod_small n (2 ^ width)) by done. by apply N.mod_pow2_bits_high.
Qed.

(** The mask keeps the bits from [width - prefix] up. *)
Lemma mask_bits width prefix i : prefix ≤ width → prefix ≠ 0 →
  N.testbit (N.shiftl (2 ^ width - 1) (width - prefix) mod 2 ^ width) i
  = (width - prefix <=? i) && (i <? width).
Proof.
  intros Hp H0.
  replace (2 ^ width - 1) with (N.ones width) by (rewrite N.ones_equiv; lia).
  destruct (N.ltb_spec i width) as [Hi|Hi].
  - rewrite N.mod_pow2_bits_low by done. rewrite andb_true_r.
    destruct (N.leb_spec (width - prefix) i) as [Hk|Hk]; [|by apply N.shiftl_spec_low].
    rewrite N.shiftl_spec_high' by done. apply N.ones_spec_low. lia.
  - rewrite N.mod_pow2_bits_high by done. by rewrite andb_false_r.
Qed.

Lemma prefix_match_spec width network candidate prefix :
  prefix ≤ width → network < 2 ^ width → candidate < 2 ^ width →
  prefix_match width network candidate prefix = true ↔
  network / 2 ^ (width - prefix) = candidate / 2 ^ (width - prefix).
Proof.
  intros Hp Hn Hc. unfold prefix_match. rewrite N.eqb_eq, <- !N.shiftr_div_pow2.
  destruct (N.eqb_spec prefix 0) as [->|H0].
  { rewrite N.sub_0_r, !N.land_0_r, !N.shiftr_div_pow2, !N.div_small by done. done. }
  split; intros Heq; apply N.bits_inj; intros i.
  - rewrite !N.shiftr_spec'. apply (f_equal (λ n, N.testbit n (i + (width - prefix)))) in Heq.
    rewrite !N.land_spec, mask_bits in Heq by done.
    destruct (N.leb_spec (width - prefix) (i + (width - prefix))); [|lia].
    destruct (N.ltb_spec (i + (width - prefix)) width) as [Hi|Hi]; cbn in Heq; [by rewrite !andb_true_r in Heq|].
    by rewrite !(bits_above _ width).
  - rewrite !N.land_spec, mask_bits by done.
    destruct (N.leb_spec (width - prefix) i) as [Hi|Hi]; [|by rewrite !andb_false_r].
    apply (f_equal (λ n, N.testbit n (i - (width - prefix)))) in Heq. rewrite !N.shiftr_spec' in Heq.
    replace (i - (width - prefix) + (width - prefix)) with i in Heq by lia. by rewrite Heq.
Qed.

Lemma number_of_octets octets :
  length octets = 4%nat → Forall is_byte octets → number_of 8 octets < 2 ^ 32.
Proof.
  intros Hl Hb. destruct octets as [|a [|b [|c [|d [|]]]]]; try done. unfold is_byte in Hb.
  rewrite !Forall_cons in Hb. destruct Hb as (Ha & Hb & Hc & Hd & _). unfold number_of. cbn [fold_left].
  change (2 ^ 8) with 256. change (2 ^ 32) with 4294967296. lia.
Qed.

Lemma parse_u8_show n : n < 256 → parse_u8 (show_N n) = Some n.
Proof.
  intros Hn. assert (forallb (λ n, bool_decide (parse_u8 (show_N n) = Some n)) (map N.of_nat (seq 0 256)) = true) as Hall
    by (vm_compute; done).
  rewrite forallb_forall in Hall. eapply bool_decide_eq_true, Hall.
  rewrite <- (N2Nat.id n). apply in_map, in_seq. lia.
Qed.

(** The text of an IPv4 network. *)
Definition v4_network (octets : list N) (prefix : N) : string :=
  of_bytes (show_ip (IpV4 octets) ++ 47 :: show_N prefix).

(** Neither digits nor dots are a slash. *)
Lemma joined_no_slash os : ~ In 47 (joined 46 (map show_N os)).
Proof.
  assert (∀ n, ~ In 47 (show_N n)) as Hn.
  { intros n Hin. destruct (show_N_spec n) as (_ & Hd & _). rewrite Forall_forall in Hd.
    by apply list_elem_of_In, Hd in Hin. }
  destruct os as [|o os]; cbn; [tauto|]. intros [Hin|Hin]%in_app_or; [by eapply Hn|].
  apply in_flat_map in Hin as (y & Hy & [Hin|Hin]); [done|].
  apply in_map_iff in Hy as (n & <- & _). by eapply Hn.
Qed.

Lemma v4_network_parts octets prefix :
  length octets = 4%nat → Forall is_byte octets → prefix ≤ 32 →
  ∃ address text, split_once 47 (bytes (v4_network octets prefix)) = Some (address, text)
    ∧ parse_ip (of_bytes address) = Some (IpV4 octets) ∧ parse_u8 text = Some prefix.
Proof.
  intros Hl Hb Hp. unfold v4_network. cbn [show_ip]. rewrite bytes_of_bytes.
  - rewrite split_once_app by apply joined_no_slash. eexists _, _. split; [done|].
    split; [by apply parse_ip_v4 | apply parse_u8_show; lia].
  - apply Forall_app. split; [apply joined_bytes|]. constructor; [done | apply show_N_bytes].
Qed.

(** A network allows exactly the addresses that share its prefix.  The text of an IPv4
    network is stored as it is, and it contains an IPv4 address exactly when the two agree on
    the bits above the last [32 - prefix]; it contains no IPv6 address. *)
Theorem cidr_v4_exact octets prefix candidate :
  length octets = 4%nat → Forall is_byte octets → prefix ≤ 32 →
  cidr_parse (v4_network octets prefix) = Ok (v4_network octets prefix)
  ∧ (length candidate = 4%nat → Forall is_byte candidate →
     cidr_contains (v4_network octets prefix) (IpV4 candidate) = true ↔
     number_of 8 octets / 2 ^ (32 - prefix) = number_of 8 candidate / 2 ^ (32 - prefix))
  ∧ ∀ segments, cidr_contains (v4_network octets prefix) (IpV6 segments) = false.
Proof.
  intros Hl Hb Hp. destruct (v4_network_parts octets prefix Hl Hb Hp) as (address & text & Hs & Ha & Ht).
  unfold cidr_parse, cidr_contains. rewrite Hs, Ha, Ht. split_and!; [| |done].
  - by destruct (N.ltb_spec 32 prefix); [lia|].
  - intros Hcl Hcb. apply prefix_match_spec; [done| |]; by apply number_of_octets.
Qed.

(** ** The rate limit *)

(** Requests of one token at the given instants. *)
Fixpoint consume_at (rate : RateLimitConfig) (token : Uuid) (instants : list Z)
    (buckets : gmap Uuid Bucket) : list (result unit TokenAuthError) :=
  match instants with
  | [] => []
  | t :: rest =>
      let '(r, b) := bucket_consume rate t token buckets in r :: consume_at rate token rest b
  end.

(** One bucket, the time as the nanoseconds since its last use. *)
Definition bucket_after (rate : RateLimitConfig) (elapsed : Z) (x : f64)
    : result unit TokenAuthError * f64 :=
  let burst := f64_of_Z (rate_burst rate) in
  let refill := f64_div (f64_of_Z (rate_per_minute rate)) (f64_of_Z 60) in
  let tokens := f64_min (f64_add x (f64_mul (as_secs_f64 elapsed) refill)) burst in
  if f64_ltb tokens (f64_of_Z 1)
  then (Err (RateLimited (ceil_max_1 (f64_div (f64_sub (f64_of_Z 1) tokens) refill))), tokens)
  else (Ok tt, f64_sub tokens (f64_of_Z 1)).
Fixpoint bucket_run (rate : RateLimitConfig) (gaps : list Z) (x : f64)
    : list (result unit TokenAuthError) :=
  match gaps with
  | [] => []
  | g :: rest => let '(r, x) := bucket_after rate g x in r :: bucket_run rate rest x
  end.

Lemma bucket_consume_after rate t token buckets x last g :
  buckets !! token = Some (mkBucket x last) → (t = last + g)%Z → (0 ≤ g)%Z →
  bucket_consume rate t token buckets
  = let '(r, x) := bucket_after rate g x in (r, <[token := mkBucket x t]> buckets).
Proof.
  intros Hb -> Hg. unfold bucket_consume, bucket_after. rewrite Hb. cbn [default id from_option bk_tokens bk_last_refill].
  replace (Z.max 0 (last + g - last)) with g by lia. by destruct (f64_ltb _ _).
Qed.

(** The instants that follow one another with the given gaps. *)
Fixpoint after_gaps (t : Z) (gaps : list Z) : list Z :=
  match gaps with
  | [] => []
  | g :: rest => (t + g)%Z :: after_gaps (t + g) rest
  end.

Lemma consume_at_run rate token gaps : Forall (λ g, 0 ≤ g)%Z gaps → ∀ x last buckets,
  buckets !! token = Some (mkBucket x last) →
  consume_at rate token (after_gaps last gaps) buckets = bucket_run rate gaps x.
Proof.
  induction 1 as [|g gaps Hg _ IH]; intros x last buckets Hb; [done|]. cbn [after_gaps consume_at bucket_run].
  rewrite (bucket_consume_after rate _ token buckets x last g) by done.
  destruct (bucket_after rate g x) as [r x']. f_equal. apply IH. by rewrite lookup_insert_eq.
Qed.

(** A bucket that does not exist yet starts full. *)
Lemma consume_at_first rate token t gaps buckets :
  buckets !! token = None →
  consume_at rate token (after_gaps t (0%Z :: gaps)) buckets
  = consume_at rate token (after_gaps t (0%Z :: gaps))
      (<[token := mkBucket (f64_of_Z (rate_burst rate)) t]> buckets).
Proof.
  intros Hb. cbn [after_gaps consume_at]. rewrite Z.add_0_r. unfold bucket_consume. rewrite Hb, lookup_insert_eq.
  cbn [default id from_option bk_tokens bk_last_refill]. by rewrite !insert_insert_eq.
Qed.

(** The rate limit.  With the default rate, the first sixty requests of a token at one
    instant pass, the next is refused with a wait of one second, and after that second
    exactly one more passes. *)
Theorem rate_limit_burst token t buckets :
  buckets !! token = None →
  consume_at rate_default token (repeat t 61 ++ repeat (t + 1000000000)%Z 2) buckets
  = (repeat (Ok tt) 60 ++ [Err (RateLimited 1); Ok tt; Err (RateLimited 1)])%list.
Proof.
  intros Hb.
  assert (repeat t 61 ++ repeat (t + 1000000000)%Z 2 = after_gaps t (repeat 0%Z 61 ++ [1000000000; 0]%Z))%list as ->.
  { cbn [repeat app after_gaps]. rewrite !Z.add_0_r. reflexivity. }
  change (repeat 0%Z 61 ++ [1000000000; 0]%Z)%list with (0%Z :: repeat 0%Z 60 ++ [1000000000; 0]%Z)%list.
  rewrite consume_at_first by done.
  erewrite consume_at_run; [|by apply (bool_decide_unpack _)|by rewrite lookup_insert_eq].
  vm_compute. reflexivity.
Qed.
