(* ===== verification/TokenTheorems.v ===== *)
(** * Tokens: theorems

    Who gets a token, what a token is checked for, and that a token that was revoked or
    rotated is refused. *)
From S2P Require Import Prelude Text AuditActions AuditLog Accounts Float64 Paths CronJobs HostingTables Store Users Identity Secrets Factors Net Remember Sites StagingChanges StagingSafety ApiTokens TokenService TokenSafety TokenCodec.
Open Scope N_scope.

Section theorems.
Context `{Env} `{CookieCrypto} `{TokenEnv} (pepper : list N) (rate : RateLimitConfig).
Abbreviation tokens w := (ht_tokens (db_hosting (w_db w))).

Lemma authorize_run actor user w target w' :
  authorize_target actor user w = (Ok target, w') →
  w_db w' = w_db w ∧ List.find (id_is user) (db_users (w_db w)) = Some (user_row target)
  ∧ u_id target = user
  ∧ (u_id actor = user ∨ u_role actor = Owner ∨ u_role actor = Admin ∧ u_role target ≠ Owner).
Proof.
  unfold authorize_target, internal. intros Hr. inv_bind Hr.
  apply map_err_ok, fetch_user_run in R as [Hdb Hf]. inv_bind Hr. apply ok_or_ok in R as [-> ->].
  destruct Hf as [Hf _]. apply List.find_some in Hf as Hid. destruct Hid as [_ Hid%N.eqb_eq].
  destruct (_ || _) eqn:Ea; [|done]. injection Hr as -> <-. split_and!; try done.
  rewrite !orb_true_iff, andb_true_iff, negb_true_iff, N.eqb_eq, !bool_decide_eq_true, bool_decide_eq_false in Ea.
  tauto.
Qed.

Lemma token_record_tokens actor action target meta w x w' :
  token_record actor action target meta w = (x, w') → x = Ok tt ∧ tokens w' = tokens w.
Proof.
  unfold token_record. intros Ha.
  destruct (audit_ok (on_tables (same ht_tokens)) (E := TokenAuthError) (u_username actor) action Success
    (λ e, with_metadata (JObject meta) (with_target (uuid_text target) e)) w) as (w1 & Hw & Hs).
  rewrite Hw in Ha. injection Ha as <- <-. done.
Qed.

Lemma record_token_tokens action outcome token w x w' :
  record_token action outcome token w = (x, w') → tokens w' = tokens w.
Proof.
  intros Ha. unfold record_token in Ha.
  match type of Ha with audit ?a ?b ?c ?d _ = _ =>
    pose proof (on_db_audit (on_tables (same ht_tokens)) (E := TokenAuthError) a b c d w) as Hs end.
  by rewrite Ha in Hs.
Qed.

Lemma tokens_update_run k w x w' :
  tokens_update k w = (Ok x, w') →
  tokens w' = update_where (token_is (tok_user_id k) (tok_id k)) (token_row_set k) (tokens w).
Proof.
  unfold tokens_update, statement, hosting_statement. destruct (sql_fault _); [done|].
  unfold update_token_row. destruct (_ && _); [done|]. by intros [= _ <-].
Qed.

(** What a revocation did. *)
Lemma revoke_run actor user id w w' :
  revoke actor user id w = (Ok tt, w') →
  ∃ r k n, In r (tokens w) ∧ tk_user_id r = user ∧ tk_id r = id ∧ token_of_row r = Ok k
    ∧ tk_revoked_at r = None
    ∧ tokens w' = update_where (token_is user id)
        (token_row_set (mkToken (tok_id k) (tok_user_id k) (tok_label k) (tok_hash k) (tok_scopes k)
          (tok_cidr_allowlist k) (tok_created_at k) (tok_expires_at k) (tok_last_used_at k)
          (Some (utc_now n)))) (tokens w).
Proof.
  unfold revoke, token_check, internal. intros Hr. inv_bind Hr. apply authorize_run in R as (Hdb & _).
  inv_bind Hr. apply require_token_run in R as (Hdb1 & r & Hin & Hu & Hi & Hk).
  inv_bind Hr. injection R as <- <-. inv_bind Hr. apply lift_ok in R as [Ht%result_map_err_ok ->].
  unfold token_revoke in Ht. destruct (token_of_row_ok r _ Hk) as (Hid & Hus & _ & _ & _ & _ & Hrev & _).
  destruct (tok_revoked_at _) eqn:Er; [done|]. injection Ht as <-. inv_bind Hr.
  apply map_err_ok, tokens_update_run in R. apply token_record_tokens in Hr as [_ Hr].
  exists r, a0, (w_step w1). rewrite Hdb in Hin. split_and!; try done.
  rewrite Hr, R. cbn. rewrite Hdb1, Hdb. by rewrite Hid, Hus, Hu, Hi.
Qed.

Lemma transaction_err {A} f g (body : M World RepoError A) w e w' :
  in_transaction f g body w = (Err e, w') → w_db w' = w_db w.
Proof.
  unfold in_transaction. destruct (bind _ _ w) as [[a|e'] w1]; [done|]. by intros [= _ <-].
Qed.

Lemma transaction_ok {A} f g (body : M World RepoError A) w a w' :
  in_transaction f g body w = (Ok a, w') →
  ∃ w1 w2, w_db w1 = w_db w ∧ body w1 = (Ok a, w2) ∧ w_db w' = w_db w2.
Proof.
  unfold in_transaction. set (all := bind _ _). destruct (all w) as [[a'|e'] w1] eqn:Ha; [|done].
  intros [= -> ->]. subst all. inv_bind Ha. apply map_err_ok, select_run in R as [Hdb _].
  inv_bind Ha. inv_bind Ha. apply map_err_ok, select_run in R0 as [Hdb2 _]. injection Ha as -> ->.
  eauto 6.
Qed.

Lemma insert_token_run k w x w' :
  statement (insert_token_row (token_row k)) w = (Ok x, w') →
  tokens w' = (tokens w ++ [token_row k])%list
  ∧ ~ In (tok_id k) (map tk_id (tokens w)) ∧ ~ In (tok_hash k) (map tk_hash (tokens w)).
Proof.
  unfold statement. destruct (sql_fault _); [done|]. unfold insert_token_row.
  destruct (existsb _ _) eqn:E1; [done|]. destruct (existsb (hash_is _) _) eqn:E2; [done|].
  destruct (existsb (id_is _) _); [|done]. intros [= _ <-]. split_and!; [done| |].
  - eapply fresh_key, E1. intros y Hy. by apply N.eqb_eq.
  - eapply fresh_key, E2. intros y Hy. by apply bool_decide_eq_true.
Qed.

(** A token as it is entered. *)
Lemma token_new_ok id user label hash scopes cidrs expires t k :
  token_new id user label hash scopes cidrs expires t = Ok k →
  tok_id k = id ∧ tok_user_id k = user ∧ tok_hash k = hash ∧ tok_scopes k = scopes
  ∧ tok_cidr_allowlist k = cidrs ∧ tok_created_at k = t ∧ tok_expires_at k = expires
  ∧ tok_last_used_at k = None ∧ tok_revoked_at k = None ∧ scopes ≠ [] ∧ (t < expires)%Z.
Proof.
  unfold token_new, token_restore. destruct (_ || _); [done|]. case_bool_decide; [done|].
  destruct (Z.leb_spec expires t); [done|]. intros [= <-]. done.
Qed.

(** What a rotation did. *)
Lemma rotate_run actor user id w c w' :
  rotate pepper actor user id w = (Ok c, w') →
  ∃ r k new n m, In r (tokens w) ∧ tk_user_id r = user ∧ tk_id r = id ∧ token_of_row r = Ok k
    ∧ is_active (utc_now n) k = true
    ∧ (∃ old, tok_revoked_at old = Some (utc_now (S n)) ∧
       tokens w' = (update_where (token_is user id) (revoke_token_row old) (tokens w) ++ [token_row new])%list)
    ∧ ~ In (tok_hash new) (map tk_hash (tokens w))
    ∧ token_new (tok_id new) user (tok_label k) (credential_hash pepper (credential_of (token_bytes m)))
        (tok_scopes k) (tok_cidr_allowlist k) (tok_expires_at k) (utc_now (S n)) = Ok new
    ∧ c = created_token new (credential_of (token_bytes m)).
Proof.
  unfold rotate, token_check, internal. intros Hr. inv_bind Hr. apply authorize_run in R as (Hdb & _).
  inv_bind Hr. apply require_token_run in R as (Hdb1 & r & Hin & Hu & Hi & Hk).
  inv_bind Hr. injection R as <- <-. destruct (is_active _ _) eqn:Ea; [|done]. cbn [negb] in Hr.
  inv_bind Hr. injection R as <- <-. inv_bind Hr. apply lift_ok in R as [Ht%result_map_err_ok ->].
  inv_bind Hr. injection R as <- <-. inv_bind Hr. injection R as <- <-.
  inv_bind Hr. apply lift_ok in R as [Hn%result_map_err_ok ->]. inv_bind Hr.
  apply map_err_ok, transaction_ok in R as (w3 & w4 & Hdb3 & Hb & Hdb4).
  inv_bind Hr. apply token_record_tokens in R as [_ Hrec]. injection Hr as <- <-.
  destruct (token_of_row_ok r _ Hk) as (Hid & Hus & _ & _ & _ & _ & Hrev & _). unfold token_revoke in Ht.
  destruct (tok_revoked_at a0); [done|]. injection Ht as <-. cbn in Hn, Hb.
  inv_bind Hb. apply execute_ok in R. apply insert_token_run in Hb as (Hb & _ & Hfresh).
  destruct (token_new_ok _ _ _ _ _ _ _ _ _ Hn) as (Hnid & _).
  rewrite Hrec, Hdb4, Hb, R. cbn. rewrite R in Hfresh. cbn in Hfresh. rewrite Hdb3 in *. cbn in *.
  rewrite Hdb1, Hdb in *. exists r, a0, a2, (w_step w1), (S (S (w_step w1))).
  rewrite update_where_key in Hfresh by done. rewrite Hnid, <- Hu, <- Hus, <- Hi, <- Hid. split_and!; try done.
  eexists. by split; [|reflexivity].
Qed.

(** ** Sequences of requests *)

(** Each request runs to its end before the next begins. *)
Inductive token_step : World → World → Prop :=
| StepCreate actor input w : token_step w (token_create pepper actor input w).2
| StepList actor user w : token_step w (token_list actor user w).2
| StepRevoke actor user id w : token_step w (revoke actor user id w).2
| StepRotate actor user id w : token_step w (rotate pepper actor user id w).2
| StepAuthenticate plaintext peer scope w :
    token_step w (authenticate pepper rate plaintext peer scope w).2.

Lemma quiet_list actor user : within (on_db (on_tables (same ht_tokens))) (token_list actor user).
Proof.
  unfold token_list. pose proof quiet_authorize. pose proof @quiet_token_reads. unfold tokens_list. within_tac.
Qed.

Lemma step_changes w w' : token_step w w' → rtc token_change (tokens w) (tokens w').
Proof.
  destruct 1; [apply changes_create | apply quiet_changes, quiet_list | apply changes_revoke
    | apply changes_rotate | apply changes_authenticate].
Qed.

Lemma steps_changes w w' : rtc token_step w w' → rtc token_change (tokens w) (tokens w').
Proof. induction 1 as [|w w1 w' Hs _ IH]; [done|]. etransitivity; [by apply step_changes | done]. Qed.

(** A row written over a whole table. *)
Lemma dead_written user id r f t :
  In r t → tk_user_id r = user → tk_id r = id → tk_hash (f r) = tk_hash r → tk_revoked_at (f r) ≠ None →
  dead (tk_hash r) (update_where (token_is user id) f t).
Proof.
  intros Hin <- <- Hh Hr. exists (f r). split_and!; try done. apply in_map_iff. exists r.
  by rewrite token_is_self.
Qed.

Lemma dead_app hash t r : dead hash t → dead hash (t ++ [r]).
Proof. intros (x & Hx & ? & ?). exists x. split; [apply in_or_app; by left | done]. Qed.

(** A dead hash is refused. *)
Lemma dead_refused plaintext c peer scope w :
  tokens_wf (tokens w) → dead (credential_hash pepper c) (tokens w) → credential_parse plaintext = Ok c →
  ∃ e w', authenticate pepper rate plaintext peer scope w = (Err e, w').
Proof.
  intros [_ Hn] (x & Hx & Hh & Hd) Hc. destruct (authenticate _ _ _ _ _ w) as [[p|e] w'] eqn:Ha; [|eauto].
  exfalso. unfold authenticate in Ha. inv_bind Ha. destruct a as [[u k] t].
  apply auth_check_run in R as (c' & r & n & Hc' & Hin & Hhr & _ & _ & Hrev & _).
  rewrite Hc in Hc'. injection Hc' as <-. apply Hd. rewrite <- Hrev. f_equal.
  eapply (NoDup_key_inj tk_hash); [done..|congruence].
Qed.

(** What a creation did. *)
Lemma create_run actor input w c w' :
  token_create pepper actor input w = (Ok c, w') →
  ∃ target new n m scopes cidrs, List.find (id_is (ct_user_id input)) (db_users (w_db w)) = Some (user_row target)
    ∧ u_id target = ct_user_id input
    ∧ (u_id actor = u_id target ∨ u_role actor = Owner ∨ u_role actor = Admin ∧ u_role target ≠ Owner)
    ∧ collect scope_parse (ct_scopes input) = Ok scopes
    ∧ authorize_scopes (u_role actor) (scope_set scopes) = Ok tt
    ∧ (ct_expires_at input ≤ utc_now n + days 365)%Z
    ∧ collect cidr_parse (ct_cidr_allowlist input) = Ok cidrs
    ∧ token_new (tok_id new) (u_id target) (ct_label input)
        (credential_hash pepper (credential_of (token_bytes m))) (scope_set scopes) cidrs
        (ct_expires_at input) (utc_now n) = Ok new
    ∧ tokens w' = (tokens w ++ [token_row new])%list
    ∧ ~ In (tok_id new) (map tk_id (tokens w)) ∧ ~ In (tok_hash new) (map tk_hash (tokens w))
    ∧ c = created_token new (credential_of (token_bytes m)).
Proof.
  unfold token_create, token_check, internal, tokens_create. intros Hr. inv_bind Hr.
  apply authorize_run in R as (Hdb & Hf & Hid & Hp). inv_bind Hr.
  apply lift_ok in R as [Hs%result_map_err_ok ->]. inv_bind Hr. apply lift_ok in R as [Hsc ->].
  destruct a1. inv_bind Hr. injection R as <- <-.
  destruct (Z.ltb_spec (utc_now (w_step w0) + days 365) (ct_expires_at input)); [done|].
  inv_bind Hr. apply lift_ok in R as [Hc%result_map_err_ok ->].
  inv_bind Hr. injection R as <- <-. inv_bind Hr. injection R as <- <-.
  inv_bind Hr. apply lift_ok in R as [Hn%result_map_err_ok ->]. inv_bind Hr.
  apply map_err_ok, insert_token_run in R as (Ht & Hi & Hh).
  inv_bind Hr. apply token_record_tokens in R as [_ Hrec]. injection Hr as <- <-.
  destruct (token_new_ok _ _ _ _ _ _ _ _ _ Hn) as (Hnid & _). rewrite Hrec. cbn in Ht, Hi, Hh.
  rewrite Hdb in *. eexists _, _, _, _, _, _. rewrite Hid, Hnid in *. split_and!; done.
Qed.
End theorems.

(** ** Failures *)

(** A request that fails leaves the tokens. *)
Definition keeps_on_error {E A} (c : M World E A) : Prop :=
  ∀ w e w', c w = (Err e, w') → ht_tokens (db_hosting (w_db w')) = ht_tokens (db_hosting (w_db w)).

Lemma keeps_bind {E A B} (c : M World E A) (k : A → M World E B) :
  within (on_db (on_tables (same ht_tokens))) c → (∀ a, keeps_on_error (k a)) → keeps_on_error (bind c k).
Proof.
  intros Hc Hk w e w'. unfold bind. specialize (Hc w). destruct (c w) as [[a|e'] w1].
  - intros Hr%Hk. rewrite Hr. apply Hc.
  - intros [= _ <-]. apply Hc.
Qed.

Lemma keeps_last {E A B} (c : M World E A) (k : A → M World E B) :
  keeps_on_error c → (∀ a w, ∃ b w', k a w = (Ok b, w')) → keeps_on_error (bind c k).
Proof.
  intros Hc Hk w e w'. unfold bind. destruct (c w) as [[a|e'] w1] eqn:E1.
  - destruct (Hk a w1) as (b & w2 & ->). done.
  - intros [= _ <-]. by eapply Hc.
Qed.

Lemma keeps_quiet {E A} (c : M World E A) :
  within (on_db (on_tables (same ht_tokens))) c → keeps_on_error c.
Proof. intros Hc w e w' Hr. specialize (Hc w). by rewrite Hr in Hc. Qed.

Section services.
Context `{Env} `{CookieCrypto} `{TokenEnv} (pepper : list N) (rate : RateLimitConfig).
Abbreviation tokens w := (ht_tokens (db_hosting (w_db w))).

Lemma rotate_keeps actor user id : keeps_on_error (rotate pepper actor user id).
Proof.
  unfold rotate, token_check, internal.
  apply keeps_bind; [apply quiet_authorize|]. intros _.
  apply keeps_bind; [apply quiet_require_token|]. intros old.
  apply keeps_bind; [apply on_db_now; apply _|]. intros t0.
  destruct (is_active t0 old); [|apply keeps_quiet, within_throw, _]. cbn [negb].
  apply keeps_bind; [apply on_db_now; apply _|]. intros t.
  apply keeps_bind; [apply within_lift, _|]. intros old'.
  apply keeps_bind; [apply quiet_credential|]. intros credential.
  apply keeps_bind; [intros w; apply on_db_tick, _|]. intros new_id.
  apply keeps_bind; [apply within_lift, _|]. intros new.
  apply keeps_last.
  - intros w e w' [e' He%transaction_err]%map_err_err. by rewrite He.
  - intros [] w. match goal with |- ∃ _ _, bind ?c _ _ = _ => destruct (c w) as [x w1] eqn:Ha end.
    apply token_record_tokens in Ha as Hx. destruct Hx as [-> _]. unfold bind. rewrite Ha.
    by eexists _, _.
Qed.

Context `{!TokenLaws}.

(** Who gets which token.  A token that is created belongs to the account that was asked
    for, which is the actor's own, or any for an owner, or any but an owner's for an
    administrator.  It holds exactly the scopes that were asked for, only [read] scopes when
    the actor is a plain user, lasts for at most 365 days, and the text that is shown once
    parses to the credential whose hash was stored. *)
Theorem created_token_policy actor input w c w' :
  token_create pepper actor input w = (Ok c, w') →
  ∃ r target cred n,
    tokens w' = (tokens w ++ [r])%list
    ∧ List.find (id_is (ct_user_id input)) (db_users (w_db w)) = Some (user_row target)
    ∧ tk_user_id r = ct_user_id input
    ∧ (u_id actor = ct_user_id input ∨ u_role actor = Owner ∨ u_role actor = Admin ∧ u_role target ≠ Owner)
    ∧ (∀ s, In s (tk_scopes r) ↔ In s (ct_scopes input))
    ∧ (u_role actor = User → ∀ s, In s (tk_scopes r) → scope_verb s = bytes "read")
    ∧ (utc_now n < tk_expires_at r ≤ utc_now n + days 365)%Z
    ∧ tk_revoked_at r = None
    ∧ credential_parse (cr_plaintext c) = Ok cred ∧ tk_hash r = credential_hash pepper cred.
Proof.
  intros (target & new & n & m & scopes & cidrs & Hf & Hid & Hp & Hs & Ha & He & _ & Hn & Ht & _ & _ & ->)%create_run.
  destruct (token_new_ok _ _ _ _ _ _ _ _ _ Hn) as (_ & Hu & Hh & Hsc & _ & _ & Hex & _ & Hrev & _ & Hlt).
  apply collect_same in Hs as ->; [|exact scope_parse_same].
  exists (token_row new), target, (credential_of (token_bytes m)), n. cbn. rewrite Hsc, Hex, Hu, Hid in *.
  split_and!; try done.
  - intros s. apply scope_set_In.
  - intros Hr s Hin. unfold authorize_scopes in Ha. rewrite Hr in Ha. cbn [bool_decide] in Ha.
    destruct (existsb _ _) eqn:Eb in Ha; [done|]. pose proof (proj1 (existsb_false _ _) Eb s Hin) as Hv. cbv beta in Hv.
    by apply negb_false_iff, bool_decide_eq_true in Hv.
  - apply credential_roundtrip.
Qed.

(** C26 (rotation is all or nothing).  A rotation that fails leaves every token as it was.  One
    that succeeds revokes the old token, which was active, and adds one new token with a new
    hash, with the account, scopes, networks and expiry of the old one; the text that is shown
    parses to the credential whose hash was stored. *)
Theorem rotate_exact actor user id w :
  match rotate pepper actor user id w with
  | (Err _, w') => tokens w' = tokens w
  | (Ok c, w') =>
      ∃ r k new old n cred,
        In r (tokens w) ∧ tk_user_id r = user ∧ tk_id r = id ∧ token_of_row r = Ok k
        ∧ tk_revoked_at r = None ∧ (utc_now n < tk_expires_at r)%Z
        ∧ tok_revoked_at old = Some (utc_now (S n))
        ∧ tokens w' = (update_where (token_is user id) (revoke_token_row old) (tokens w) ++ [token_row new])%list
        ∧ tok_user_id new = user ∧ tok_scopes new = tok_scopes k
        ∧ tok_cidr_allowlist new = tok_cidr_allowlist k ∧ tok_expires_at new = tk_expires_at r
        ∧ tok_revoked_at new = None
        ∧ ~ In (tok_hash new) (map tk_hash (tokens w))
        ∧ credential_parse (cr_plaintext c) = Ok cred ∧ tok_hash new = credential_hash pepper cred
  end.
Proof.
  destruct (rotate pepper actor user id w) as [[c|e] w'] eqn:Hr; [|by eapply rotate_keeps].
  apply rotate_run in Hr as (r & k & new & n & m & Hin & Hu & Hi & Hk & Ha & (old & Ho & Ht) & Hfr & Hn & ->).
  destruct (token_of_row_ok r k Hk) as (_ & _ & _ & _ & He & _ & Hrev & _).
  destruct (token_new_ok _ _ _ _ _ _ _ _ _ Hn) as (_ & Hnu & Hnh & Hns & Hnc & _ & Hne & _ & Hnr & _).
  apply andb_true_iff in Ha as [Ha%bool_decide_eq_true Hlt%Z.ltb_lt]. rewrite He in *.
  exists r, k, new, old, n, (credential_of (token_bytes m)). rewrite <- Hrev. split_and!; try done.
  apply credential_roundtrip.
Qed.

(** C4 (what a token is checked for).  When a request is let in, the text that it carries
    parses to a credential whose hash is stored for exactly the token it is let in with; that
    token is not revoked nor expired, holds the scope of the route and allows the peer's
    address; its account exists and is not disabled; and only the columns of that token are
    written. *)
Theorem authenticate_checks plaintext peer scope w user id w' :
  authenticate pepper rate plaintext peer scope w = (Ok (user, id), w') →
  ∃ c r k n, credential_parse plaintext = Ok c
    ∧ In r (tokens w) ∧ tk_id r = id ∧ tk_hash r = credential_hash pepper c ∧ token_of_row r = Ok k
    ∧ tk_revoked_at r = None ∧ (utc_now n < tk_expires_at r)%Z
    ∧ In scope (tk_scopes r)
    ∧ (tok_cidr_allowlist k = [] ∨ ∃ cidr, In cidr (tok_cidr_allowlist k) ∧ cidr_contains cidr peer = true)
    ∧ List.find (id_is (tk_user_id r)) (db_users (w_db w)) = Some (user_row user)
    ∧ is_disabled user = false
    ∧ tokens w' = update_where (token_is (tk_user_id r) id) (token_row_set (mark_used (utc_now n) k)) (tokens w).
Proof.
  unfold authenticate. intros Hr. inv_bind Hr. destruct a as [[u k] t].
  apply auth_check_run in R as (c & r & n & Hc & Hin & Hh & Hk & -> & Hrev & Hlt & Hip & Hsc & Hu & Hd & Ht & _).
  destruct (token_of_row_ok r k Hk) as (Hid & Hus & _ & _ & _ & _ & _ & Hs & _).
  inv_bind Hr. injection Hr as <- <- <-. unfold auth_store, internal in R. inv_bind R.
  apply map_err_ok, tokens_update_run in R0.
  apply record_token_tokens in R.
  exists c, r, k, n. split_and!; try done.
  - unfold allows_scope in Hsc. apply existsb_exists in Hsc as (s & Hin' & ->%String.eqb_eq). by apply Hs.
  - apply orb_true_iff in Hip as [Hip%bool_decide_eq_true|Hip]; [by left|right].
    apply existsb_exists in Hip as (cidr & ? & ?). eauto.
  - rewrite R, R0, Ht. cbn. by rewrite Hid, Hus.
Qed.

(** C5 (revocation is final).  Once a revocation or a rotation of a token has succeeded, no
    sequence of complete requests makes its credential valid again: each later request that
    carries it fails. *)
Theorem revoked_token_rejected actor user id r w w1 w2 plaintext c peer scope :
  tokens_wf (tokens w) → In r (tokens w) → tk_user_id r = user → tk_id r = id →
  revoke actor user id w = (Ok tt, w1) ∨ (∃ new, rotate pepper actor user id w = (Ok new, w1)) →
  rtc (token_step pepper rate) w1 w2 →
  credential_parse plaintext = Ok c → credential_hash pepper c = tk_hash r →
  ∃ e w3, authenticate pepper rate plaintext peer scope w2 = (Err e, w3).
Proof.
  intros HW Hin Hu Hi Hrun Hsteps Hc Hh.
  assert (rtc token_change (tokens w) (tokens w1)) as H01.
  { destruct Hrun as [Hr|[new Hr]].
    - pose proof (changes_revoke actor user id w) as Hk. by rewrite Hr in Hk.
    - pose proof (changes_rotate pepper actor user id w) as Hk. by rewrite Hr in Hk. }
  assert (tokens_wf (tokens w1)) as HW1 by by eapply tokens_wf_changes.
  assert (dead (tk_hash r) (tokens w1)) as Hd.
  { assert (∀ r', In r' (tokens w) → tk_id r' = id → r' = r) as Hsame.
    { intros r' Hr' Hi'. eapply (NoDup_key_inj tk_id); [apply HW|done..|congruence]. }
    destruct Hrun as [Hr|[new Hr]].
    - apply revoke_run in Hr as (r' & k & n & Hr' & _ & Hi' & Hk & _ & ->).
      rewrite (Hsame r' Hr' Hi') in *. destruct (token_of_row_ok r k Hk) as (_ & _ & Hkh & _).
      by apply dead_written.
    - apply rotate_run in Hr as (r' & k & n' & n & m & Hr' & _ & Hi' & _ & _ & (old & Ho & ->) & _).
      apply dead_app, dead_written; try done. cbn. by rewrite Ho. }
  destruct (dead_changes _ _ _ (steps_changes pepper rate _ _ Hsteps) HW1 Hd) as [HW2 Hd2].
  eapply dead_refused; [done| |done]. by rewrite Hh.
Qed.

(** A use that overtakes a revocation undoes it.  [authenticate] reads the token, checks
    it, and then writes every column back as it was read.  When a revocation completes
    between the two, the write makes the token valid again: it is stored as not revoked. *)
Theorem stale_use_revives_token plaintext peer scope actor w u k t w1 w2 w3 :
  tokens_wf (tokens w) →
  auth_check pepper rate plaintext peer scope w = (Ok (u, k, t), w1) →
  revoke actor (tok_user_id k) (tok_id k) w1 = (Ok tt, w2) →
  auth_store k t w2 = (Ok tt, w3) →
  (∃ r, In r (tokens w2) ∧ tk_id r = tok_id k ∧ tk_revoked_at r ≠ None)
  ∧ (∀ r, In r (tokens w3) → tk_id r = tok_id k → tk_revoked_at r = None)
  ∧ ∃ r, In r (tokens w3) ∧ tk_id r = tok_id k ∧ tk_hash r = tok_hash k.
Proof.
  intros HW (c & r & n & Hc & Hin & Hh & Hk & -> & Hrev & Hlt & _ & _ & _ & _ & Ht & _)%auth_check_run Hr Hs.
  destruct (token_of_row_ok r k Hk) as (Hid & Hus & Hkh & _ & _ & _ & Hkr & _).
  rewrite <- Ht in HW, Hin. pose proof (changes_revoke actor (tok_user_id k) (tok_id k) w1) as HK.
  rewrite Hr in HK. apply (tokens_wf_changes _ _ HK) in HW as HW2. cbn [snd] in HW2.
  apply revoke_run in Hr as (r' & k' & m & Hr' & Hu' & Hi' & Hk' & _ & Ht2).
  assert (r' = r) as -> by (eapply (NoDup_key_inj tk_id); [apply HW|done..|congruence]).
  assert (k' = k) as -> by congruence.
  set (f := token_row_set _) in Ht2.
  assert (In (f r) (tokens w2)) as Hin2.
  { rewrite Ht2. apply in_map_iff. exists r. by rewrite Hus, Hid, token_is_self. }
  assert (token_is (tok_user_id k) (tok_id k) (f r) = true) as Hself
    by (rewrite Hus, Hid; exact (token_is_self r)).
  unfold auth_store, internal in Hs. inv_bind Hs. apply map_err_ok, tokens_update_run in R.
  apply record_token_tokens in Hs. rewrite Hs, R. cbn [mark_used tok_user_id tok_id].
  split_and!; [exists (f r); by rewrite Hid| |].
  - intros x Hx Hxi. apply in_map_iff in Hx as (y & Hy & Hyin).
    destruct (token_is (tok_user_id k) (tok_id k) y) eqn:E; subst x; [cbn; by rewrite Hkr|].
    exfalso. assert (y = f r) as -> by (eapply (NoDup_key_inj tk_id); [apply HW2|done..|by rewrite Hxi, Hid]).
    by rewrite Hself in E.
  - exists (token_row_set (mark_used (utc_now n) k) (f r)). split_and!; [|by rewrite Hid|done].
    apply in_map_iff. exists (f r). by rewrite Hself.
Qed.
End services.
