(* ===== verification/Cron.v ===== *)
(** * The cron service

    [crates/openpanel-app/src/cron/service.rs] over the entities of [CronJobs].  What a
    command or an HTTP request answered is the class [Executor].  [run_now] waits for the
    job it started, so it is cut in three: [run_lookup] reads the job, [run_claim] stores the
    run, [run_finished] waits for the job and ends the run.  [run_now] is their composition,
    and [CronSafety] interleaves them with the other operations. *)
From S2P Require Import Prelude Text AuditActions AuditLog Accounts Paths CronJobs HostingTables Store Users Sites.
Open Scope N_scope.

Record CronInput := mkCronInput {
  ci_name : string;
  ci_schedule : string;
  ci_timezone : string;
  ci_kind : string;
  ci_executable : option (list N);
  ci_arguments : list string;
  ci_working_directory : option (list N);
  ci_url : option string;
  ci_method : option string;
  ci_timeout_secs : Z;
  ci_overlap_policy : string
}.

(** [overlap_policy] is not read. *)
Record CronUpdate := mkCronUpdate {
  cu_name : option string;
  cu_schedule : option string;
  cu_timezone : option string;
  cu_timeout_secs : option Z;
  cu_overlap_policy : option string
}.

Inductive CronServiceError : Type :=
| CronValidation (reason : string)
| CronNotFound
| CronPersistence (reason : string).

Definition validation (e : CronError) : CronServiceError := CronValidation (cron_error_text e).

(** [cap]: 64 KiB of output are kept. *)
Definition cap (bytes : list N) : list N := take (64 * 1024)%nat bytes.

(** What ended a command: its exit code when it has one and its output, an error of
    [Command::output], or the timeout. *)
Inductive CommandOutcome : Type :=
| Exited (code : option Z) (stdout stderr : list N)
| NotSpawned (error : string)
| CommandTimedOut.

(** What ended a request: no client or method, the status and the body when it could be
    read, an error of [send], or the timeout. *)
Inductive HttpOutcome : Type :=
| NoRequest (error : string)
| Responded (status : Z) (body : option (list N))
| NotSent (error : string)
| HttpTimedOut.

Class Executor := {
  run_command : nat → list N → list string → list N → Z → CommandOutcome;
  run_request : nat → string → string → Z → HttpOutcome
}.

(** ** Rows and statements *)

Definition job_is (id : Uuid) (r : CronJobRow) : bool := cjr_id r =? id.
Definition run_is (id : Uuid) (r : CronRunRow) : bool := crr_id r =? id.
Definition run_of (job : Uuid) (r : CronRunRow) : bool := crr_job_id r =? job.

(** Uuids of one length in lower case: the order of the texts is that of the numbers. *)
Definition by_job_id (r1 r2 : CronJobRow) : Prop := cjr_id r1 ≤ cjr_id r2.
#[export] Instance by_job_id_dec : RelDecision by_job_id.
Proof. unfold by_job_id. intros r1 r2. apply _. Defined.
Definition run_created_desc (r1 r2 : CronRunRow) : Prop :=
  (crr_created_at r2 ≤ crr_created_at r1)%Z.
#[export] Instance run_created_desc_dec : RelDecision run_created_desc.
Proof. unfold run_created_desc. intros r1 r2. apply _. Defined.

Definition insert_job_row (r : CronJobRow) (h : HostingTables)
    : result (unit * HostingTables) string :=
  if existsb (job_is (cjr_id r)) (ht_cron_jobs h) then Err "cron_jobs.id"
  else Ok (tt, set_cron_jobs (ht_cron_jobs h ++ [r]) h).

(** The primary key, the index [idx_cron_one_active_run] and the foreign key. *)
Definition insert_run_row (r : CronRunRow) (h : HostingTables)
    : result (unit * HostingTables) string :=
  if existsb (run_is (crr_id r)) (ht_cron_runs h) then Err "cron_runs.id"
  else if crr_active r && existsb (λ x, run_of (crr_job_id r) x && crr_active x) (ht_cron_runs h)
  then Err "cron_runs.job_id"
  else if existsb (job_is (crr_job_id r)) (ht_cron_jobs h)
  then Ok (tt, set_cron_runs (ht_cron_runs h ++ [r]) h)
  else Err "FOREIGN KEY".

Definition job_row_set (j : CronJob) (r : CronJobRow) : CronJobRow :=
  mkCronJobRow (cjr_id r) (cjr_owner_id r) j.

Definition cron_run_row_set (run : JobRun) (r : CronRunRow) : CronRunRow :=
  mkCronRunRow (crr_id r) (crr_job_id r) (crr_owner_id r) run (negb (is_terminal run))
    (crr_created_at r).

(** [UPDATE cron_runs]: a row that becomes active must be the only one of its job. *)
Definition update_run_row (run : JobRun) (h : HostingTables)
    : result (unit * HostingTables) string :=
  if negb (is_terminal run)
     && existsb (λ x, run_is (jr_id run) x
                 && existsb (λ y, negb (run_is (jr_id run) y) && run_of (crr_job_id x) y
                                  && crr_active y) (ht_cron_runs h)) (ht_cron_runs h)
  then Err "cron_runs.job_id"
  else Ok (tt, set_cron_runs (update_where (run_is (jr_id run)) (cron_run_row_set run)
                                (ht_cron_runs h)) h).

(** [DELETE FROM cron_jobs], cascading to the runs. *)
Definition delete_job_rows (id : Uuid) (h : HostingTables) : HostingTables :=
  if existsb (job_is id) (ht_cron_jobs h) then
    set_cron_runs (delete_where (run_of id) (ht_cron_runs h))
      (set_cron_jobs (delete_where (job_is id) (ht_cron_jobs h)) h)
  else h.

(** ** [CronService] *)

(** What [run_now] does before it waits. *)
Inductive Begun : Type :=
| AlreadyActive (run : JobRun)
| Launched (job : CronJob) (run : JobRun).

Section cron_service.
Context `{Env} `{Scheduler} `{Executor} (allowed_roots : list (list N)).
Abbreviation MC A := (M World CronServiceError A).

Definition cron_db {A} (c : M World RepoError A) : MC A := map_err CronPersistence c.
Definition cron_select {A} (f : HostingTables → A) : MC A :=
  cron_db (select (λ d, f (db_hosting d))).
Definition cron_check {A} (r : result A CronError) : MC A := lift (result_map_err validation r).

Definition audit_change (actor target : Uuid) (operation : string) : MC unit :=
  audit (uuid_text actor) CronChanged Success
    (λ e, with_metadata (JObject [("operation", JString operation)])
            (with_target (uuid_text target) e)).

(** The work of a new job. *)
Definition build_kind (input : CronInput) : result JobKind CronServiceError :=
  if String.eqb (ci_kind input) "command" then
    match ci_working_directory input with
    | None => Err (CronValidation "working_directory is required")
    | Some directory =>
        directory <-? result_map_err validation
                        (owned_working_directory directory allowed_roots) ;;
        result_map_err validation
          (job_command (default [] (ci_executable input)) (ci_arguments input) directory)
    end
  else if String.eqb (ci_kind input) "http" then
    result_map_err validation
      (job_http (default "" (ci_url input)) (default "GET" (ci_method input)))
  else Err (CronValidation "kind must be command or http").

Definition build (owner : Uuid) (input : CronInput) : MC CronJob :=
  if negb (String.eqb (ci_overlap_policy input) "skip")
  then throw (CronValidation "overlap_policy must be skip")
  else
    schedule <- cron_check (schedule_parse (ci_schedule input) (ci_timezone input)) ;;
    kind <- lift (build_kind input) ;;
    id <- fresh_uuid ;;
    t <- now ;;
    cron_check (cron_job_new id owner (ci_name input) schedule kind (ci_timeout_secs input) Skip t).

Definition cron_create (owner : Uuid) (input : CronInput) : MC CronJob :=
  job <- build owner input ;;
  cron_db (statement (hosting_statement (insert_job_row (mkCronJobRow (cj_id job) owner job)))) ;;;
  audit_change owner (cj_id job) "created" ;;;
  ret job.

Definition visible (owner : Uuid) (all : bool) (r : CronJobRow) : bool :=
  all || (cjr_owner_id r =? owner).

Definition cron_list (owner : Uuid) (all : bool) : MC (list CronJob) :=
  rows <- cron_select (λ h, merge_sort by_job_id (select_where (visible owner all) (ht_cron_jobs h))) ;;
  ret (map cjr_payload rows).

Definition cron_get (owner : Uuid) (all : bool) (id : Uuid) : MC CronJob :=
  row <- cron_select (λ h, List.find (λ r, job_is id r && visible owner all r) (ht_cron_jobs h)) ;;
  row <- ok_or row CronNotFound ;;
  ret (cjr_payload row).

Definition save (job : CronJob) : MC unit :=
  cron_db (execute (on_hosting (λ h,
    set_cron_jobs (update_where (job_is (cj_id job)) (job_row_set job) (ht_cron_jobs h)) h))).

Definition cron_update (owner : Uuid) (all : bool) (id : Uuid) (u : CronUpdate) : MC CronJob :=
  job <- cron_get owner all id ;;
  schedule <- cron_check (schedule_parse
    (default (sch_expression (cj_schedule job)) (cu_schedule u))
    (default (sch_timezone (cj_schedule job)) (cu_timezone u))) ;;
  let name := default (cj_name job) (cu_name u) in
  let timeout := default (cj_timeout_secs job) (cu_timeout_secs u) in
  t <- now ;;
  job <- cron_check (cron_job_update name schedule (cj_kind job) timeout t job) ;;
  save job ;;;
  audit_change owner id "updated" ;;;
  ret job.

Definition set_enabled (owner : Uuid) (all : bool) (id : Uuid) (enabled : bool) : MC CronJob :=
  job <- cron_get owner all id ;;
  t <- now ;;
  job <- (if enabled then cron_check (cron_job_enable t job)
          else ret (cron_job_disable t job)) ;;
  save job ;;;
  audit_change owner id (if enabled then "enabled" else "disabled") ;;;
  ret job.

Definition cron_delete (owner : Uuid) (all : bool) (id : Uuid) : MC unit :=
  cron_get owner all id ;;;
  cron_db (execute (on_hosting (delete_job_rows id))) ;;;
  audit_change owner id "deleted".

Definition insert_run (owner : Uuid) (run : JobRun) (t : DateTime) : MC unit :=
  cron_db (statement (hosting_statement (insert_run_row
    (mkCronRunRow (jr_id run) (jr_job_id run) owner run (negb (is_terminal run)) t)))).

Definition update_run (run : JobRun) : MC unit :=
  cron_db (statement (hosting_statement (update_run_row run))).

(** What [run_now] reads: the job, the instant, and whether a run is active. *)
Definition run_lookup (owner : Uuid) (all : bool) (id : Uuid) : MC (CronJob * DateTime * bool) :=
  job <- cron_get owner all id ;;
  audit (uuid_text owner) CronRun Success (with_target (uuid_text id)) ;;;
  t <- now ;;
  active <- cron_select (λ h, existsb (λ r, run_of id r && negb (is_terminal (crr_payload r)))
                                (ht_cron_runs h)) ;;
  ret (job, t, active).

(** What it then stores. *)
Definition run_claim (id : Uuid) (found : CronJob * DateTime * bool) : MC Begun :=
  let '(job, t, active) := found in
  if active : bool then
    run <- fresh_uuid ;;
    let run := run_skipped run id t in
    insert_run (cj_owner_id job) run t ;;;
    ret (AlreadyActive run)
  else
    run <- fresh_uuid ;;
    run <- cron_check (run_start t (run_leased run id t (t + 30 * 1000000000)%Z)) ;;
    stored <- try_run (insert_run (cj_owner_id job) run t) ;;
    match stored with
    | Err (CronPersistence message) =>
        if contains_str message "UNIQUE constraint failed" then
          skipped <- fresh_uuid ;;
          let skipped := run_skipped skipped id t in
          insert_run (cj_owner_id job) skipped t ;;;
          ret (AlreadyActive skipped)
        else throw (CronPersistence message)
    | _ => ret (Launched job run)
    end.

(** What the run records of how the job ended, at the instant it ended. *)
Definition job_outcome (k : nat) (job : CronJob)
    : result (DateTime → JobRun → result JobRun CronError) CronServiceError :=
  match cj_kind job with
  | Command executable arguments directory =>
      Ok (λ t, match run_command k executable arguments directory (cj_timeout_secs job) with
               | Exited code stdout stderr =>
                   run_complete t (default (-1)%Z code) (cap stdout) (cap stderr)
               | NotSpawned e => run_complete t (-1)%Z [] (cap (bytes e))
               | CommandTimedOut => run_timeout t
               end)
  | Http url method =>
      match run_request k url method (cj_timeout_secs job) with
      | NoRequest e => Err (CronValidation e)
      | Responded status body =>
          Ok (λ t, run_complete t
                     (if (200 <=? status)%Z && (status <? 300)%Z then 0%Z else status)
                     (default [] (cap <$> body)) [])
      | NotSent e => Ok (λ t, run_complete t (-1)%Z [] (cap (bytes e)))
      | HttpTimedOut => Ok run_timeout
      end
  end.

Definition execute_job (job : CronJob) (run : JobRun) : MC JobRun := λ w,
  match job_outcome (w_step w) job with
  | Ok finish => (t <- now ;; cron_check (finish t run)) (tick w)
  | Err e => (Err e, tick w)
  end.

Definition run_finished (job : CronJob) (run : JobRun) : MC JobRun :=
  run <- execute_job job run ;;
  update_run run ;;;
  ret run.

Definition run_now (owner : Uuid) (all : bool) (id : Uuid) : MC JobRun :=
  found <- run_lookup owner all id ;;
  begun <- run_claim id found ;;
  match begun with
  | AlreadyActive run => ret run
  | Launched job run => run_finished job run
  end.

(** The loop over the runs. *)
Fixpoint recover_runs (t : DateTime) (rows : list CronRunRow) : MC unit :=
  match rows with
  | [] => ret tt
  | row :: rows' =>
      let run := crr_payload row in
      (if negb (is_terminal run) && (jr_lease_until run <? t)%Z then
         run <- cron_check (run_interrupt t run) ;;
         update_run run
       else ret tt) ;;;
      recover_runs t rows'
  end.

Definition recover_expired (t : DateTime) : MC unit :=
  rows <- cron_select ht_cron_runs ;;
  recover_runs t rows.

Definition due (t : DateTime) (job : CronJob) : bool := cj_enabled job && (cj_next_run_at job <=? t)%Z.

(** A job moves to its next occurrence before it runs. *)
Definition advance_job (t : DateTime) (job : CronJob) : MC CronJob :=
  job <- cron_check (cron_job_advance t job) ;;
  save job ;;;
  ret job.

Fixpoint run_due (t : DateTime) (jobs : list CronJob) : MC unit :=
  match jobs with
  | [] => ret tt
  | job :: jobs' =>
      job <- advance_job t job ;;
      run_now (cj_owner_id job) true (cj_id job) ;;;
      run_due t jobs'
  end.

Fixpoint prune_rows (rows : list CronRunRow) : MC unit :=
  match rows with
  | [] => ret tt
  | row :: rows' =>
      (if is_terminal (crr_payload row) then
         cron_db (execute (on_hosting (λ h,
           set_cron_runs (delete_where (run_is (crr_id row)) (ht_cron_runs h)) h)))
       else ret tt) ;;;
      prune_rows rows'
  end.

Definition prune (t : DateTime) (retention_days : Z) : MC unit :=
  if (0 <? retention_days)%Z then
    let cutoff := (t - days retention_days)%Z in
    rows <- cron_select (λ h, select_where (λ r, (crr_created_at r <? cutoff)%Z) (ht_cron_runs h)) ;;
    prune_rows rows
  else ret tt.

Definition cron_tick (t : DateTime) (retention_days : Z) : MC nat :=
  recover_expired t ;;;
  jobs <- cron_list 0 true ;;
  let jobs := List.filter (due t) jobs in
  run_due t jobs ;;;
  prune t retention_days ;;;
  ret (length jobs).

Definition runs (owner : Uuid) (all : bool) (job : option Uuid) : MC (list JobRun) :=
  jobs <- cron_list owner all ;;
  rows <- cron_select (λ h, merge_sort run_created_desc (ht_cron_runs h)) ;;
  ret (map crr_payload
         (List.filter (λ r, existsb (λ j, cj_id j =? crr_job_id r) jobs
                            && match job with Some id => crr_job_id r =? id | None => true end)
            rows)).

Definition get_run (owner : Uuid) (all : bool) (id : Uuid) : MC JobRun :=
  l <- runs owner all None ;;
  ok_or (List.find (λ run, jr_id run =? id) l) CronNotFound.
End cron_service.
