(* ===== verification/CronSafety.v ===== *)
(** * Cron: what the service keeps

    The invariant of the cron tables over interleaved operations, the executions in flight,
    and what a tick of the scheduler does. *)
From S2P Require Import Prelude Text AuditActions AuditLog Accounts Paths CronJobs HostingTables Store Users Sites StagingChanges StagingSafety Cron.
Open Scope N_scope.

(** ** The invariant *)

(** The work of a job: an executable with an absolute path, in a directory below one of the
    allowed roots, or a request. *)
Definition kind_ok (roots : list (list N)) (k : JobKind) : Prop :=
  match k with
  | Command e _ dir =>
      is_absolute e = true ∧ ~ In ParentDir (components dir)
      ∧ ∃ root, In root roots ∧ path_starts_with dir root = true
  | Http url _ => starts_with url "http://" || starts_with url "https://" = true
  end.

Definition job_ok (roots : list (list N)) (j : CronJob) : Prop :=
  kind_ok roots (cj_kind j) ∧ (1 ≤ cj_timeout_secs j ≤ 86400)%Z ∧ trim (chars (cj_name j)) ≠ [].

Record cron_wf (roots : list (list N)) (h : HostingTables) : Prop := {
  cw_job_ids : NoDup (map cjr_id (ht_cron_jobs h));
  cw_jobs : ∀ r, In r (ht_cron_jobs h) →
    cj_id (cjr_payload r) = cjr_id r ∧ cj_owner_id (cjr_payload r) = cjr_owner_id r
    ∧ job_ok roots (cjr_payload r);
  cw_run_ids : NoDup (map crr_id (ht_cron_runs h));
  cw_runs : ∀ r, In r (ht_cron_runs h) →
    jr_id (crr_payload r) = crr_id r ∧ crr_active r = negb (is_terminal (crr_payload r));
  cw_run_jobs : ∀ r, In r (ht_cron_runs h) → In (crr_job_id r) (map cjr_id (ht_cron_jobs h));
  cw_one_active : ∀ r1 r2, In r1 (ht_cron_runs h) → In r2 (ht_cron_runs h) →
    crr_active r1 = true → crr_active r2 = true → crr_job_id r1 = crr_job_id r2 → r1 = r2
}.

(** *** Statements *)

Lemma insert_job_ok r h h' :
  insert_job_row r h = Ok (tt, h') →
  h' = set_cron_jobs (ht_cron_jobs h ++ [r]) h ∧ ~ In (cjr_id r) (map cjr_id (ht_cron_jobs h)).
Proof.
  unfold insert_job_row. destruct (existsb _ _) eqn:E; [done|]. intros [= <-]. split; [done|].
  eapply fresh_key, E. intros x Hx. by apply N.eqb_eq.
Qed.

Lemma insert_run_row_ok r h h' :
  insert_run_row r h = Ok (tt, h') →
  h' = set_cron_runs (ht_cron_runs h ++ [r]) h ∧ ~ In (crr_id r) (map crr_id (ht_cron_runs h))
  ∧ In (crr_job_id r) (map cjr_id (ht_cron_jobs h))
  ∧ (crr_active r = true → ∀ x, In x (ht_cron_runs h) → crr_job_id x = crr_job_id r →
     crr_active x = false).
Proof.
  unfold insert_run_row. destruct (existsb _ _) eqn:E1; [done|].
  destruct (_ && _) eqn:E2; [done|]. destruct (existsb (job_is _) _) eqn:E3; [|done].
  intros [= <-]. split_and!; [done| | |].
  - eapply fresh_key, E1. intros x Hx. by apply N.eqb_eq.
  - apply existsb_exists in E3 as (x & Hx & Hid%N.eqb_eq). rewrite <- Hid. by apply in_map.
  - intros Ha x Hx Hj. rewrite Ha in E2. cbn in E2. rewrite existsb_false in E2.
    specialize (E2 x Hx). unfold run_of in E2. by rewrite Hj, N.eqb_refl in E2.
Qed.

Lemma cron_wf_insert_job roots r h h' :
  insert_job_row r h = Ok (tt, h') → cj_id (cjr_payload r) = cjr_id r →
  cj_owner_id (cjr_payload r) = cjr_owner_id r → job_ok roots (cjr_payload r) →
  cron_wf roots h → cron_wf roots h'.
Proof.
  intros [-> Hid]%insert_job_ok ? ? ? [W1 W2 W3 W4 W5 W6]. constructor; cbn; try done.
  - by apply NoDup_snoc.
  - intros x [Hx|[<-|[]]]%in_app_or; auto.
  - intros x Hx. rewrite map_app. apply in_or_app. left. auto.
Qed.

Lemma cron_wf_insert_run roots r h h' :
  insert_run_row r h = Ok (tt, h') → jr_id (crr_payload r) = crr_id r →
  crr_active r = negb (is_terminal (crr_payload r)) → cron_wf roots h → cron_wf roots h'.
Proof.
  intros (-> & Hid & Hj & Hact)%insert_run_row_ok ? ? [W1 W2 W3 W4 W5 W6]. constructor; cbn; try done.
  - by apply NoDup_snoc.
  - intros x [Hx|[<-|[]]]%in_app_or; auto.
  - intros x [Hx|[<-|[]]]%in_app_or; auto.
  - intros r1 r2 [H1|[<-|[]]]%in_app_or [H2|[<-|[]]]%in_app_or Ha1 Ha2 Heq; auto.
    + by rewrite (Hact Ha2 r1 H1 Heq) in Ha1.
    + by rewrite (Hact Ha1 r2 H2 (eq_sym Heq)) in Ha2.
Qed.

(** A finished run. *)
Lemma update_run_terminal run h :
  is_terminal run = true →
  update_run_row run h = Ok (tt, set_cron_runs (update_where (run_is (jr_id run))
    (cron_run_row_set run) (ht_cron_runs h)) h).
Proof. intros Ht. unfold update_run_row. by rewrite Ht. Qed.

Lemma cron_wf_finish roots run h :
  is_terminal run = true → cron_wf roots h →
  cron_wf roots (set_cron_runs (update_where (run_is (jr_id run)) (cron_run_row_set run)
    (ht_cron_runs h)) h).
Proof.
  intros Ht [W1 W2 W3 W4 W5 W6]. constructor; cbn; try done.
  - by rewrite update_where_key.
  - intros r (r0 & Hin & ->)%update_where_In. unfold run_is.
    destruct (N.eqb_spec (crr_id r0) (jr_id run)) as [E|]; [done|auto].
  - intros r (r0 & Hin & ->)%update_where_In. destruct (run_is _ _); cbn; auto.
  - intros r1 r2 (x1 & H1 & ->)%update_where_In (x2 & H2 & ->)%update_where_In.
    destruct (run_is _ x1), (run_is _ x2); cbn; rewrite ?Ht; try done. auto.
Qed.

Lemma cron_wf_drop_run roots p h :
  cron_wf roots h → cron_wf roots (set_cron_runs (delete_where p (ht_cron_runs h)) h).
Proof.
  intros [W1 W2 W3 W4 W5 W6]. constructor; cbn; try done.
  - by apply delete_where_NoDup.
  - intros r [Hr _]%delete_where_In. auto.
  - intros r [Hr _]%delete_where_In. auto.
  - intros r1 r2 [H1 _]%delete_where_In [H2 _]%delete_where_In. auto.
Qed.

Lemma cron_wf_delete_job roots id h : cron_wf roots h → cron_wf roots (delete_job_rows id h).
Proof.
  unfold delete_job_rows. destruct (existsb _ _); [|done].
  intros [W1 W2 W3 W4 W5 W6]. constructor; cbn.
  - by apply delete_where_NoDup.
  - intros r [Hr _]%delete_where_In. auto.
  - by apply delete_where_NoDup.
  - intros r [Hr _]%delete_where_In. auto.
  - intros r [Hr Hne]%delete_where_In.
    destruct (proj1 (in_map_iff _ _ _) (W5 r Hr)) as (j & Hj & Hin). apply in_map_iff.
    exists j. split; [done|]. apply delete_where_In. split; [done|]. unfold job_is. by rewrite Hj.
  - intros r1 r2 [H1 _]%delete_where_In [H2 _]%delete_where_In. auto.
Qed.

Lemma cron_wf_save roots j h :
  job_ok roots j →
  (∀ r, In r (ht_cron_jobs h) → cjr_id r = cj_id j → cjr_owner_id r = cj_owner_id j) →
  cron_wf roots h →
  cron_wf roots (set_cron_jobs (update_where (job_is (cj_id j)) (job_row_set j) (ht_cron_jobs h)) h).
Proof.
  intros Hok Howner [W1 W2 W3 W4 W5 W6]. constructor; cbn; try done.
  - by rewrite update_where_key.
  - intros r (r0 & Hin & ->)%update_where_In. unfold job_is.
    destruct (N.eqb_spec (cjr_id r0) (cj_id j)) as [E|]; [|auto]. cbn.
    split_and!; [done| |done]. symmetry. by apply Howner.
  - intros r Hr. rewrite update_where_key; auto.
Qed.

(** *** Jobs *)

Lemma job_fields_spec name timeout :
  is_true (job_fields_ok name timeout) → (0 ≤ timeout)%Z →
  (1 ≤ timeout ≤ 86400)%Z ∧ trim (chars name) ≠ [].
Proof.
  unfold job_fields_ok, is_true. rewrite negb_true_iff, !orb_false_iff.
  intros [[Hn Ht] Hm] Hpos. apply bool_decide_eq_false in Hn. apply Z.eqb_neq in Ht.
  apply Z.ltb_ge in Hm. split; [lia | done].
Qed.

Section jobs.
Context `{Env} `{Scheduler} `{Executor} (roots : list (list N)).

Lemma build_kind_ok input k : build_kind roots input = Ok k → kind_ok roots k.
Proof.
  unfold build_kind. destruct (String.eqb _ "command").
  - destruct (ci_working_directory input) as [dir|]; [|done].
    destruct (owned_working_directory dir roots) as [d|] eqn:Ed; cbn; [|done].
    unfold owned_working_directory in Ed.
    destruct (negb (is_absolute dir) || _) eqn:E1; [done|].
    destruct (existsb (λ root, _ && _) roots) eqn:E2; [|done]. injection Ed as ->.
    unfold job_command.
    destruct (negb (is_absolute (default _ _)) || _) eqn:E3; [done|]. intros [= <-].
    apply orb_false_iff in E1 as [E1 Ep]. apply orb_false_iff in E3 as [E3%negb_false_iff _].
    apply existsb_exists in E2 as (root & Hroot & [_ Hs]%andb_true_iff).
    split_and!; [done| |eauto]. intros Hin. rewrite existsb_false in Ep.
    specialize (Ep _ Hin). by apply bool_decide_eq_false in Ep.
  - destruct (String.eqb _ "http"); [|done]. unfold job_http.
    destruct (_ || _) eqn:E; cbn; [|done]. by intros [= <-].
Qed.

Lemma build_ok owner input w j w' :
  build roots owner input w = (Ok j, w') → (0 ≤ ci_timeout_secs input)%Z →
  w_db w' = w_db w ∧ cj_owner_id j = owner ∧ job_ok roots j ∧ cj_enabled j = true.
Proof.
  unfold build, cron_check. destruct (negb _); [done|]. intros Hr Hpos.
  inv_bind Hr. apply lift_ok in R as [_ ->]. inv_bind Hr. apply lift_ok in R as [Hk ->].
  do 2 (inv_bind Hr; injection R as _ <-). apply lift_ok in Hr as [Hj%result_map_err_ok ->].
  unfold cron_job_new in Hj. destruct (job_fields_ok _ _) eqn:E; [|done]. cbn in Hj.
  destruct (next_after _ _); [|done]. injection Hj as <-. cbn.
  split_and!; [done|done| |done]. split; [by eapply build_kind_ok|]. by apply job_fields_spec.
Qed.

(** The changes of a job keep its identity and its checks. *)
Inductive job_change : CronJob → CronJob → Prop :=
| JobUpdated name s timeout t j j' : (0 ≤ cj_timeout_secs j → 0 ≤ timeout)%Z →
    cron_job_update name s (cj_kind j) timeout t j = Ok j' → job_change j j'
| JobEnabled t j j' : cron_job_enable t j = Ok j' → job_change j j'
| JobDisabled t j : job_change j (cron_job_disable t j)
| JobAdvanced t j j' : cron_job_advance t j = Ok j' → job_change j j'.

Lemma job_change_ok j j' :
  job_change j j' → cj_id j' = cj_id j ∧ cj_owner_id j' = cj_owner_id j ∧ (job_ok roots j → job_ok roots j').
Proof.
  intros [name s timeout t ? ? Hpos Hj|t ? ? Hj|t ?|t ? ? Hj].
  - unfold cron_job_update in Hj. destruct (job_fields_ok _ _) eqn:E; [|done]. cbn in Hj.
    destruct (next_after _ _); [|done]. injection Hj as <-. split_and!; [done..|].
    intros (? & Ht & _). split; [done|]. apply job_fields_spec; [done|]. cbn. lia.
  - unfold cron_job_enable in Hj. destruct (next_after _ _); [|done]. by injection Hj as <-.
  - done.
  - unfold cron_job_advance in Hj. destruct (next_after _ _); [|done]. by injection Hj as <-.
Qed.

(** *** Methods *)

Abbreviation tables w := (db_hosting (w_db w)).
Abbreviation K := (on_db (on_tables (keeps (cron_wf roots)))).

Lemma cron_get_run owner all id w j w' :
  cron_get owner all id w = (Ok j, w') →
  w_db w' = w_db w ∧ ∃ r, In r (ht_cron_jobs (tables w)) ∧ cjr_id r = id ∧ cjr_payload r = j
                          ∧ visible owner all r = true.
Proof.
  unfold cron_get, cron_select, cron_db. intros Hr. inv_bind Hr.
  apply map_err_ok, select_run in R as (Hdb & -> & _). inv_bind Hr. apply ok_or_ok in R as [Hf ->].
  injection Hr as <- <-. split; [done|].
  apply List.find_some in Hf as [Hin [Hid%N.eqb_eq Hv]%andb_true_iff]. eauto.
Qed.

Lemma keeps_reads owner all id :
  within K (cron_get owner all id) ∧ within K (cron_list owner all).
Proof. unfold cron_get, cron_list, cron_select, cron_db. split; within_tac. Qed.

Lemma keeps_audit actor target op : within K (audit_change actor target op).
Proof. unfold audit_change. within_tac. Qed.

Lemma keeps_statement {A} (f : HostingTables → result (A * HostingTables) string) :
  (∀ h a h', f h = Ok (a, h') → cron_wf roots h → cron_wf roots h') →
  within K (statement (hosting_statement f)).
Proof.
  intros Hf. apply on_db_statement; [apply _|]. intros d a d' Hs. unfold hosting_statement in Hs.
  destruct (f _) as [[x h']|] eqn:E; [|done]. injection Hs as <- <-.
  unfold on_tables, keeps. cbn. by eapply Hf.
Qed.

Lemma keeps_tables f :
  (∀ h, cron_wf roots h → cron_wf roots (f h)) → within K (execute (on_hosting f)).
Proof. intros Hf. apply on_db_execute; [apply _|]. intros d. exact (Hf _). Qed.

Lemma keeps_insert_run owner run t : within K (insert_run owner run t).
Proof.
  apply within_map_err, keeps_statement. intros h [] h' Hi. by eapply cron_wf_insert_run.
Qed.

Lemma keeps_update_run run : is_terminal run = true → within K (update_run run).
Proof.
  intros Ht. apply within_map_err, keeps_statement. intros h a h'. rewrite update_run_terminal by done.
  intros [= <- <-]. by apply cron_wf_finish.
Qed.

(** A job that was read is saved with its changes. *)
Lemma keeps_save r j j' w :
  In r (ht_cron_jobs (tables w)) → cjr_payload r = j → job_change j j' → K w (save j' w).2.
Proof.
  intros Hr Hj Hc. unfold save, cron_db. apply map_err_at. unfold execute, statement.
  destruct (sql_fault _); [apply on_db_tick, _|]. unfold on_db, on_tables, keeps. cbn. intros HW.
  destruct (cw_jobs _ _ HW r Hr) as (Hid & Hown & Hok). rewrite Hj in *.
  destruct (job_change_ok _ _ Hc) as (Eid & Eown & Hok').
  apply cron_wf_save; [auto| |done]. intros r' Hr' Hid'.
  rewrite (NoDup_key_inj cjr_id (ht_cron_jobs (tables w)) r' r (cw_job_ids _ _ HW) Hr' Hr) by congruence.
  congruence.
Qed.

Lemma job_outcome_ok k job finish t run run' :
  job_outcome k job = Ok finish → finish t run = Ok run' →
  is_terminal run' = true ∧ jr_id run' = jr_id run ∧ jr_job_id run' = jr_job_id run.
Proof.
  unfold job_outcome. intros Hf Hr.
  repeat split_match_in Hf; simplify_eq;
    repeat split_match_in Hr;
    first [apply run_complete_ok in Hr | apply run_finish_ok in Hr; [|done]]; tauto.
Qed.

Lemma execute_job_ok job run w run' w' :
  execute_job job run w = (Ok run', w') →
  w_db w' = w_db w ∧ is_terminal run' = true ∧ jr_id run' = jr_id run ∧ jr_job_id run' = jr_job_id run.
Proof.
  unfold execute_job, cron_check. destruct (job_outcome _ _) as [finish|] eqn:Ho; [|done].
  intros Hr. inv_bind Hr. injection R as <- <-. apply lift_ok in Hr as [Hr%result_map_err_ok ->].
  split; [done|]. by eapply job_outcome_ok.
Qed.

Lemma keeps_execute_job job run : within K (execute_job job run).
Proof.
  intros w. unfold execute_job, cron_check. destruct (job_outcome _ _) as [finish|]; [|apply on_db_tick, _].
  transitivity (tick w); [apply on_db_tick, _|].
  match goal with |- _ _ (?m _).2 => enough (within K m) as Hm by apply Hm end. within_tac.
Qed.

Lemma keeps_run_finished job run : within K (run_finished job run).
Proof.
  intros w. unfold run_finished. apply bind_at; [apply _|apply keeps_execute_job|].
  intros run' w' (_ & Ht & _)%execute_job_ok.
  match goal with |- _ _ (?m _).2 => enough (within K m) as Hm by apply Hm end.
  pose proof (keeps_update_run run' Ht). within_tac.
Qed.

Lemma keeps_run_lookup owner all id : within K (run_lookup owner all id).
Proof.
  destruct (keeps_reads owner all id). unfold run_lookup, cron_select, cron_db. within_tac.
Qed.

Lemma keeps_run_claim id found : within K (run_claim id found).
Proof. pose proof keeps_insert_run. unfold run_claim, cron_check. within_tac. Qed.

Lemma keeps_run_now owner all id : within K (run_now owner all id).
Proof.
  pose proof keeps_run_lookup. pose proof keeps_run_claim. pose proof keeps_run_finished.
  unfold run_now. within_tac.
Qed.

Lemma keeps_recover_runs t rows : within K (recover_runs t rows).
Proof.
  induction rows as [|row rows IH]; cbn [recover_runs]; [within_tac|].
  apply within_bind; [apply _| |done]. destruct (_ && _); [|within_tac]. unfold cron_check.
  apply within_bind_lift; [apply _|]. intros run Hr%result_map_err_ok.
  apply run_finish_ok in Hr; [|done]. apply keeps_update_run. tauto.
Qed.

Lemma keeps_recover_expired t : within K (recover_expired t).
Proof. pose proof keeps_recover_runs. unfold recover_expired, cron_select, cron_db. within_tac. Qed.

Lemma keeps_prune t d : within K (prune t d).
Proof.
  assert (∀ rows, within K (prune_rows rows)) as Hp.
  { induction rows as [|row rows IH]; cbn [prune_rows]; [within_tac|].
    unfold cron_db. within_tac. apply keeps_tables. intros h. apply cron_wf_drop_run. }
  unfold prune, cron_select, cron_db. within_tac.
Qed.

Lemma keeps_cron_create owner input :
  (0 ≤ ci_timeout_secs input)%Z → within K (cron_create roots owner input).
Proof.
  intros Hpos w. unfold cron_create. apply bind_at; [apply _| |].
  - match goal with |- _ _ (?m _).2 => enough (within K m) as Hm by apply Hm end.
    unfold build, cron_check. within_tac.
  - intros j w1 (_ & Hown & Hok & _)%build_ok; [|done].
    match goal with |- _ _ (?m _).2 => enough (within K m) as Hm by apply Hm end.
    pose proof keeps_audit. unfold cron_db. within_tac. apply keeps_statement.
    intros h [] h' Hi. by eapply cron_wf_insert_job.
Qed.

(** A job that was read and changed is saved. *)
Lemma keeps_save_then {B} r j j' (k : unit → M World CronServiceError B) w :
  In r (ht_cron_jobs (tables w)) → cjr_payload r = j → job_change j j' →
  (∀ x, within K (k x)) → K w (bind (save j') k w).2.
Proof.
  intros Hr Hj Hc Hk. apply bind_at; [apply _|by eapply keeps_save|]. intros x w' _. apply Hk.
Qed.

(** The administration of jobs, and the two halves of a tick. *)
Inductive CronOp : Type :=
| OpCronCreate (owner : Uuid) (input : CronInput)
| OpCronUpdate (owner : Uuid) (all : bool) (id : Uuid) (u : CronUpdate)
| OpSetEnabled (owner : Uuid) (all : bool) (id : Uuid) (enabled : bool)
| OpCronDelete (owner : Uuid) (all : bool) (id : Uuid)
| OpAdvance (t : DateTime) (owner : Uuid) (all : bool) (id : Uuid)
| OpPrune (t : DateTime) (days : Z).

Definition run_cron (op : CronOp) (w : World) : World :=
  match op with
  | OpCronCreate o i => (cron_create roots o i w).2
  | OpCronUpdate o a i u => (cron_update o a i u w).2
  | OpSetEnabled o a i e => (set_enabled o a i e w).2
  | OpCronDelete o a i => (cron_delete o a i w).2
  | OpAdvance t o a i => ((j <- cron_get o a i ;; advance_job t j) w).2
  | OpPrune t d => (prune t d w).2
  end.

(** The timeouts of requests are [u64]. *)
Definition cron_op_ok (op : CronOp) : Prop :=
  match op with
  | OpCronCreate _ i => is_u64 (ci_timeout_secs i)
  | OpCronUpdate _ _ _ u => ∀ t, cu_timeout_secs u = Some t → is_u64 t
  | _ => True
  end.

Lemma keeps_cron_update owner all id u :
  (∀ t, cu_timeout_secs u = Some t → is_u64 t) → within K (cron_update owner all id u).
Proof.
  intros Hu w. unfold cron_update, cron_check.
  apply bind_at; [apply _|apply (keeps_reads owner all id)|].
  intros j w1 (Hdb & r & Hr & _ & Hj & _)%cron_get_run.
  apply bind_at; [apply _|apply within_lift, _|]. intros sch w2 [_ ->]%lift_ok.
  apply bind_at; [apply _|apply on_db_tick, _|]. intros t w3 [= <- <-].
  apply bind_at; [apply _|apply within_lift, _|]. intros j' w4 [Hj'%result_map_err_ok ->]%lift_ok.
  pose proof keeps_audit. eapply keeps_save_then; [cbn; by rewrite Hdb|exact Hj| |within_tac].
  eapply JobUpdated, Hj'. destruct (cu_timeout_secs u) as [x|]; cbn; [|done]. intros _. by apply (Hu x).
Qed.

Lemma keeps_set_enabled owner all id e : within K (set_enabled owner all id e).
Proof.
  intros w. unfold set_enabled, cron_check.
  apply bind_at; [apply _|apply (keeps_reads owner all id)|].
  intros j w1 (Hdb & r & Hr & _ & Hj & _)%cron_get_run.
  apply bind_at; [apply _|apply on_db_tick, _|]. intros t w3 [= <- <-].
  apply bind_at; [apply _|destruct e; [apply within_lift, _|reflexivity]|]. intros j' w4 Hj'.
  pose proof keeps_audit.
  assert (w_db w4 = w_db w1 ∧ job_change j j') as [Hdb4 Hch].
  { destruct e; [apply lift_ok in Hj' as [Hj'%result_map_err_ok ->] | injection Hj' as <- <-];
      (split; [done|]); by econstructor. }
  eapply keeps_save_then; [by rewrite Hdb4, Hdb|exact Hj|exact Hch|within_tac].
Qed.

Lemma keeps_advance t r j w :
  In r (ht_cron_jobs (tables w)) → cjr_payload r = j → K w (advance_job t j w).2.
Proof.
  intros Hr Hj. unfold advance_job, cron_check.
  apply bind_at; [apply _|apply within_lift, _|]. intros j' w4 [Hj'%result_map_err_ok ->]%lift_ok.
  eapply keeps_save_then; [done|exact Hj|by econstructor|within_tac].
Qed.

Lemma keeps_run_cron op w : cron_op_ok op → K w (run_cron op w).
Proof.
  pose proof keeps_audit as Ha. intros Hop. destruct op as [o i|o a i u|o a i e|o a i|t o a i|t d];
    cbn [run_cron cron_op_ok] in *.
  - apply keeps_cron_create, Hop.
  - by apply keeps_cron_update.
  - apply keeps_set_enabled.
  - match goal with |- _ _ (?m _).2 => enough (within K m) as Hm by apply Hm end.
    destruct (keeps_reads o a i). unfold cron_delete, cron_db. within_tac.
    apply keeps_tables. intros h. apply cron_wf_delete_job.
  - apply bind_at; [apply _|apply (keeps_reads o a i)|].
    intros j w1 (Hdb & r & Hr & _ & Hj & _)%cron_get_run. eapply keeps_advance; [by rewrite Hdb|done].
  - apply keeps_prune.
Qed.
End jobs.

(** ** Interleaved operations

    [cs_found] are the requests between [run_lookup] and [run_claim], [cs_flying] the
    executions that were launched and have not ended.  With [orderly], a lease is recovered
    only when no execution in flight outlived it, and no job is deleted while it runs. *)
Record CronState := mkCronState {
  cs_world : World;
  cs_found : list (Uuid * (CronJob * DateTime * bool));
  cs_flying : list (CronJob * JobRun)
}.

Definition launched (r : result Begun CronServiceError) : list (CronJob * JobRun) :=
  match r with Ok (Launched j run) => [(j, run)] | _ => [] end.

Inductive cron_step `{Env} `{Scheduler} `{Executor} (roots : list (list N)) (orderly : bool)
    : CronState → CronState → Prop :=
| CronLookup owner all id w found w' fs fl :
    run_lookup owner all id w = (Ok found, w') →
    cron_step roots orderly (mkCronState w fs fl) (mkCronState w' ((id, found) :: fs) fl)
| CronLookupFails owner all id w e w' fs fl :
    run_lookup owner all id w = (Err e, w') →
    cron_step roots orderly (mkCronState w fs fl) (mkCronState w' fs fl)
| CronClaim id found w r w' fs1 fs2 fl :
    run_claim id found w = (r, w') →
    cron_step roots orderly (mkCronState w (fs1 ++ (id, found) :: fs2) fl)
      (mkCronState w' (fs1 ++ fs2) (launched r ++ fl))
| CronEnd job run w fs fl1 fl2 :
    cron_step roots orderly (mkCronState w fs (fl1 ++ (job, run) :: fl2))
      (mkCronState (run_finished job run w).2 fs (fl1 ++ fl2))
| CronCrash w fs fl1 x fl2 :
    cron_step roots orderly (mkCronState w fs (fl1 ++ x :: fl2)) (mkCronState w fs (fl1 ++ fl2))
| CronRecover t w fs fl :
    (orderly = true → ∀ job run, In (job, run) fl → (t ≤ jr_lease_until run)%Z) →
    cron_step roots orderly (mkCronState w fs fl) (mkCronState (recover_expired t w).2 fs fl)
| CronAdmin op w fs fl :
    cron_op_ok op →
    (orderly = true → ∀ o a i, op = OpCronDelete o a i → ∀ job run, In (job, run) fl →
       jr_job_id run ≠ i) →
    cron_step roots orderly (mkCronState w fs fl) (mkCronState (run_cron roots op w) fs fl).

(** *** A row that stays *)

Section keep_row.
Context `{Env} `{Scheduler} `{Executor} (roots : list (list N)) (x : CronRunRow).
Abbreviation tables w := (db_hosting (w_db w)).
Definition has_row (h : HostingTables) : Prop := In x (ht_cron_runs h).
Abbreviation R := (on_db (on_tables (keeps has_row))).

Lemma row_statement {A} (f : HostingTables → result (A * HostingTables) string) :
  (∀ h a h', f h = Ok (a, h') → has_row h → has_row h') → within R (statement (hosting_statement f)).
Proof.
  intros Hf. apply on_db_statement; [apply _|]. intros d a d' Hs. unfold hosting_statement in Hs.
  destruct (f _) as [[y h']|] eqn:E; [|done]. injection Hs as <- <-.
  unfold on_tables, keeps. cbn. by eapply Hf.
Qed.

Lemma row_tables f : (∀ h, has_row h → has_row (f h)) → within R (execute (on_hosting f)).
Proof. intros Hf. apply on_db_execute; [apply _|]. intros d. exact (Hf _). Qed.

Lemma row_insert_run owner run t : within R (insert_run owner run t).
Proof.
  apply within_map_err, row_statement. intros h [] h' (-> & _)%insert_run_row_ok Hx.
  apply in_or_app. by left.
Qed.

Lemma row_update_run run : jr_id run ≠ crr_id x → within R (update_run run).
Proof.
  intros Hne. apply within_map_err, row_statement. unfold update_run_row. intros h a h'.
  destruct (_ && _); [done|]. intros [= <- <-] Hx. apply update_where_In. exists x. split; [done|].
  unfold run_is. by destruct (N.eqb_spec (crr_id x) (jr_id run)).
Qed.

Lemma row_reads owner all id : within R (cron_get owner all id) ∧ within R (run_lookup owner all id).
Proof. unfold run_lookup, cron_get, cron_select, cron_db. split; within_tac. Qed.

Lemma row_run_claim id found : within R (run_claim id found).
Proof. pose proof row_insert_run. unfold run_claim, cron_check. within_tac. Qed.

Lemma row_run_finished job run : jr_id run ≠ crr_id x → within R (run_finished job run).
Proof.
  intros Hne w. unfold run_finished. apply bind_at; [apply _| |].
  - unfold execute_job, cron_check. destruct (job_outcome _ _) as [finish|]; [|apply on_db_tick, _].
    transitivity (tick w); [apply on_db_tick, _|].
    match goal with |- _ _ (?m _).2 => enough (within R m) as Hm by apply Hm end. within_tac.
  - intros run' w' (_ & _ & Hid & _)%execute_job_ok.
    match goal with |- _ _ (?m _).2 => enough (within R m) as Hm by apply Hm end.
    assert (within R (update_run run')) by (apply row_update_run; congruence). within_tac.
Qed.

Lemma row_recover_runs t rows :
  (∀ row, In row rows → is_terminal (crr_payload row) = false →
     (jr_lease_until (crr_payload row) < t)%Z → jr_id (crr_payload row) ≠ crr_id x) →
  within R (recover_runs t rows).
Proof.
  induction rows as [|row rows IH]; cbn [recover_runs]; intros Hrows; [within_tac|].
  apply within_bind; [apply _| |intros _; apply IH; intros; apply Hrows; auto; by right].
  destruct (_ && _) eqn:E; [|within_tac]. unfold cron_check.
  apply within_bind_lift; [apply _|]. intros run Hr%result_map_err_ok.
  apply andb_true_iff in E as [Et%negb_true_iff El%Z.ltb_lt].
  apply run_finish_ok in Hr as (_ & _ & Hid & _); [|done].
  apply row_update_run. rewrite Hid. apply Hrows; [by left|done..].
Qed.

Lemma row_prune_rows rows :
  (∀ row, In row rows → is_terminal (crr_payload row) = true → crr_id row ≠ crr_id x) →
  within R (prune_rows rows).
Proof.
  induction rows as [|row rows IH]; cbn [prune_rows]; intros Hrows; [within_tac|].
  apply within_bind; [apply _| |intros _; apply IH; intros; apply Hrows; auto; by right].
  destruct (is_terminal _) eqn:E; [|within_tac]. unfold cron_db. apply within_map_err, row_tables.
  intros h Hx. apply delete_where_In. split; [done|]. unfold run_is. apply N.eqb_neq.
  intros Heq. by apply (Hrows row); [left|..].
Qed.

Lemma row_recover_expired t w :
  cron_wf roots (tables w) → has_row (tables w) → (t ≤ jr_lease_until (crr_payload x))%Z →
  has_row (tables (recover_expired t w).2).
Proof.
  intros HW Hx Hle. unfold recover_expired, cron_select, cron_db.
  enough (R w ((rows <- map_err CronPersistence (select (λ d, ht_cron_runs (db_hosting d))) ;; recover_runs t rows) w).2)
    as HR by exact (HR Hx).
  apply bind_at; [apply _|apply map_err_at, on_db_select, _|].
  intros rows w1 (Hdb & -> & _)%map_err_ok%select_run. apply row_recover_runs.
  intros row Hrow _ Hlt Hid. destruct (cw_runs _ _ HW row Hrow) as [Eid _].
  assert (row = x) as -> by (eapply NoDup_key_inj; [apply HW|done..|congruence]). lia.
Qed.

Lemma row_prune t d w :
  cron_wf roots (tables w) → has_row (tables w) → is_terminal (crr_payload x) = false →
  has_row (tables (prune t d w).2).
Proof.
  intros HW Hx Hnt. unfold prune, cron_select, cron_db. destruct (0 <? d)%Z; [|done].
  match goal with |- has_row (tables (?m w).2) => enough (R w (m w).2) as HR by exact (HR Hx) end.
  apply bind_at; [apply _|apply map_err_at, on_db_select, _|].
  intros rows w1 (Hdb & -> & _)%map_err_ok%select_run. apply row_prune_rows.
  intros row [Hrow _]%filter_In Ht Hid.
  assert (row = x) as -> by (eapply NoDup_key_inj; [apply HW|done..|congruence]). congruence.
Qed.

Lemma row_run_cron op w :
  cron_wf roots (tables w) → has_row (tables w) → is_terminal (crr_payload x) = false →
  (∀ o a i, op = OpCronDelete o a i → crr_job_id x ≠ i) → has_row (tables (run_cron roots op w)).
Proof.
  intros HW Hx Hnt Hdel. destruct op as [o i|o a i u|o a i e|o a i|t o a i|t d]; cbn [run_cron];
    [..|by apply row_prune];
    (match goal with |- has_row (tables (?m _).2) => enough (within R m) as HR by exact (HR w Hx) end);
    assert (∀ j, within R (save j)) by (intros j; by apply within_map_err, row_tables).
  - unfold cron_create, build, cron_check, audit_change, cron_db. within_tac. apply row_statement.
    by intros h [] h' [-> _]%insert_job_ok.
  - destruct (row_reads o a i). unfold cron_update, cron_check, audit_change. within_tac.
  - destruct (row_reads o a i). unfold set_enabled, cron_check, audit_change. within_tac.
  - destruct (row_reads o a i). unfold cron_delete, audit_change, cron_db. within_tac. apply row_tables.
    intros h Hh. unfold delete_job_rows. destruct (existsb _ _); [|done].
    apply delete_where_In. split; [done|]. apply N.eqb_neq. by eapply Hdel.
  - destruct (row_reads o a i). unfold advance_job, cron_check. within_tac.
Qed.
End keep_row.

(** *** What a run is a run of *)

(** The columns of a run name the run and the job of its payload. *)
Definition runs_agree (h : HostingTables) : Prop :=
  ∀ r, In r (ht_cron_runs h) → jr_id (crr_payload r) = crr_id r ∧ jr_job_id (crr_payload r) = crr_job_id r.

Definition run_keys (h : HostingTables) : list (Uuid * Uuid) :=
  map (λ r, (crr_id r, crr_job_id r)) (ht_cron_runs h).

(** No row with the identifier of the run is of another job. *)
Definition row_of_run (run : JobRun) (h : HostingTables) : Prop :=
  ∀ job, In (jr_id run, job) (run_keys h) → job = jr_job_id run.

Lemma run_keys_In r h : In r (ht_cron_runs h) → In (crr_id r, crr_job_id r) (run_keys h).
Proof. apply (in_map (λ r, (crr_id r, crr_job_id r))). Qed.

Lemma run_keys_row roots h r : cron_wf roots h → In r (ht_cron_runs h) → runs_agree h →
  row_of_run (crr_payload r) h.
Proof.
  intros HW Hr Ha job (r' & [= Hid <-] & Hr')%in_map_iff. destruct (Ha r Hr) as [Ei ->].
  rewrite Ei in Hid. by rewrite (NoDup_key_inj crr_id (ht_cron_runs h) r' r (cw_run_ids _ _ HW)).
Qed.

Section naming_runs.
Context `{Env} `{Scheduler} `{Executor} (roots : list (list N)).
Abbreviation tables w := (db_hosting (w_db w)).

(** What an operation does to the names of runs: rows that agree stay so, and a row that was not
    there has an identifier that was drawn meanwhile. *)
Definition run_names (n : nat) : relation World := λ w w',
  forward w w' ∧ ((n ≤ w_step w)%nat →
    (runs_agree (tables w) → runs_agree (tables w'))
    ∧ ∀ c, In c (run_keys (tables w')) →
        In c (run_keys (tables w)) ∨ ∃ k, (n ≤ k < w_step w')%nat ∧ c.1 = new_v4 k).

#[export] Instance names_preorder n : PreOrder (run_names n).
Proof.
  unfold run_names. split; [intros w; split; [reflexivity|tauto]|].
  intros w1 w2 w3 [F1 C1] [F2 C2]. split; [by transitivity w2|]. intros Hn. unfold forward in *.
  destruct (C1 Hn) as [A1 B1]. destruct C2 as [A2 B2]; [lia|]. split; [auto|]. intros c Hc.
  destruct (B2 c Hc) as [Hc2|]; [|by right]. destruct (B1 c Hc2) as [|(k & ? & ?)]; [by left|].
  right. exists k. split; [lia|done].
Qed.

Variable (n : nat).
Abbreviation NM := (run_names n).

(** Calls that leave the runs alone, or delete some. *)
Lemma names_fewer w w' :
  forward w w' → (∀ r, In r (ht_cron_runs (tables w')) → In r (ht_cron_runs (tables w))) → NM w w'.
Proof.
  intros Hf Hr. split; [done|]. intros _. split.
  - intros Ha r Hin. apply Ha, Hr, Hin.
  - intros c (r & <- & Hin)%in_map_iff. left. by apply run_keys_In, Hr.
Qed.
Lemma names_tick w : NM w (tick w).
Proof. apply names_fewer; [apply forward_tick|done]. Qed.
Lemma names_now {E} : within NM (now (E:=E)).
Proof. apply within_now, names_tick. Qed.
Lemma names_fresh {E} : within NM (fresh_uuid (E:=E)).
Proof. apply within_fresh_uuid, names_tick. Qed.
Lemma names_statement {A} (f : HostingTables → result (A * HostingTables) string) :
  (∀ h a h', f h = Ok (a, h') → ∀ r, In r (ht_cron_runs h') → In r (ht_cron_runs h)) →
  within NM (statement (hosting_statement f)).
Proof.
  intros Hf w. apply names_fewer; [apply forward_statement|]. unfold statement, hosting_statement.
  destruct (sql_fault _); [done|]. destruct (f _) as [[a h']|] eqn:E; [|done]. by eapply Hf.
Qed.
Lemma names_tables f :
  (∀ h r, In r (ht_cron_runs (f h)) → In r (ht_cron_runs h)) → within NM (execute (on_hosting f)).
Proof.
  intros Hf w. apply names_fewer; [apply forward_execute|]. unfold execute, statement.
  destruct (sql_fault _); [done|]. apply Hf.
Qed.
Lemma names_select {A} (f : Db → A) : within NM (select f).
Proof.
  intros w. apply names_fewer; [apply forward_select|]. unfold select, statement. by destruct (sql_fault _).
Qed.
Lemma names_audit {E} actor action outcome build : within NM (audit (E:=E) actor action outcome build).
Proof.
  intros w. apply names_fewer; [apply forward_audit|].
  pose proof (on_db_audit (on_tables (same ht_cron_runs)) (E:=E) actor action outcome build w) as Hs.
  unfold on_db, on_tables, same in Hs. by rewrite Hs.
Qed.
Hint Resolve names_now names_fresh names_select names_audit : within.

(** A run is stored under the identifier drawn for it. *)
Lemma names_insert_run owner run t w :
  (∃ k, (n ≤ k < w_step w)%nat ∧ jr_id run = new_v4 k) → NM w (insert_run owner run t w).2.
Proof.
  intros (k & Hk & Hid). unfold insert_run, cron_db. apply map_err_at. split; [apply forward_statement|].
  intros Hn. unfold statement, hosting_statement. destruct (sql_fault _); [split; [done|by left]|].
  destruct (insert_run_row _ _) as [[[] h']|] eqn:E; [|split; [done|by left]].
  apply insert_run_row_ok in E as (-> & _). cbn. split.
  - intros Ha r [Hr|[<-|[]]]%in_app_or; [by apply Ha|done].
  - intros c Hc. unfold run_keys in Hc. cbn in Hc. rewrite map_app in Hc.
    apply in_app_or in Hc as [Hc|[<-|[]]]; [by left|]. right. exists k. split; [lia|done].
Qed.

(** The row of a run is written over. *)
Lemma update_run_keys run w : run_keys (tables (update_run run w).2) = run_keys (tables w).
Proof.
  unfold update_run, cron_db, map_err, statement, hosting_statement. destruct (sql_fault _); [done|].
  unfold update_run_row. destruct (_ && _); [done|]. cbn. unfold run_keys. cbn. by rewrite update_where_key.
Qed.
Lemma names_update_run run w : row_of_run run (tables w) → NM w (update_run run w).2.
Proof.
  intros Hrow. split; [unfold update_run, cron_db; apply map_err_at, forward_statement|]. intros _. split.
  - unfold update_run, cron_db, map_err, statement, hosting_statement. destruct (sql_fault _); [done|].
    unfold update_run_row. destruct (_ && _); [done|]. cbn. intros Ha r (r0 & Hin & ->)%update_where_In.
    unfold run_is. destruct (N.eqb_spec (crr_id r0) (jr_id run)) as [E|]; [|by apply Ha]. cbn.
    split; [done|]. symmetry. apply Hrow. rewrite <- E. by apply run_keys_In.
  - intros c. rewrite update_run_keys. by left.
Qed.
(** *** Methods *)

Lemma forward_insert_run owner run t : within forward (insert_run owner run t).
Proof. unfold insert_run, cron_db. within_tac. Qed.
Hint Resolve forward_insert_run : within.

Lemma names_drawn {B} (k : Uuid → M World CronServiceError B) :
  (∀ id, within forward (k id)) →
  (∀ id w, (∃ j, (n ≤ j < w_step w)%nat ∧ id = new_v4 j) → NM w (k id w).2) →
  within NM (bind fresh_uuid k).
Proof.
  intros Hf Hk w. split; [apply within_bind; [apply _|apply forward_fresh_uuid|done]|]. intros Hn.
  assert (NM w (bind fresh_uuid k w).2) as [_ HN]; [|by apply HN].
  transitivity (tick w); [apply names_tick|]. apply Hk. exists (w_step w). cbn. split; [lia|done].
Qed.

(** A skipped run is stored. *)
Lemma names_skipped owner id t :
  within NM (run <- fresh_uuid ;; insert_run owner (run_skipped run id t) t ;;;
             ret (AlreadyActive (run_skipped run id t))).
Proof.
  apply names_drawn; [intros; within_tac|]. intros run w Hd.
  apply bind_at; [apply _|by apply names_insert_run|]. intros [] w1 _. by apply (within_ret NM).
Qed.

Lemma names_run_claim id found : within NM (run_claim id found).
Proof.
  destruct found as [[job t] active]. cbn [run_claim]. destruct active; [apply names_skipped|].
  apply names_drawn; [intros; unfold cron_check; within_tac|]. intros run w Hd.
  apply bind_at; [apply _|by apply (within_lift NM)|]. intros started w1 [[= <-]%result_map_err_ok ->]%lift_ok.
  apply bind_at; [apply _| |].
  - unfold try_run. pose proof (names_insert_run (cj_owner_id job)
      (mkJobRun run id Running t (t + 30 * 1000000000)%Z (Some t) None None [] []) t w Hd) as Hi.
    by destruct (insert_run _ _ _ _).
  - intros stored w2 _. destruct stored as [|[]]; try (by apply (within_ret NM)).
    destruct (contains_str _ _); [apply names_skipped | by apply (within_throw NM)].
Qed.

Lemma names_reads owner all id :
  within NM (cron_get owner all id) ∧ within NM (run_lookup owner all id).
Proof. unfold run_lookup, cron_get, cron_select, cron_db. split; within_tac. Qed.

Lemma names_save j : within NM (save j).
Proof. apply within_map_err, names_tables. done. Qed.
Hint Resolve names_save : within.

Lemma names_prune t d : within NM (prune t d).
Proof.
  assert (∀ rows, within NM (prune_rows rows)) as Hp.
  { induction rows as [|row rows IH]; cbn [prune_rows]; [within_tac|].
    unfold cron_db. within_tac. apply names_tables. by intros h r [Hr _]%delete_where_In. }
  unfold prune, cron_select, cron_db. within_tac.
Qed.

Lemma names_run_cron op w : NM w (run_cron roots op w).
Proof.
  destruct op as [o i|o a i u|o a i e|o a i|t o a i|t d]; cbn [run_cron]; revert w;
    match goal with |- ∀ w, NM w (?m w).2 => change (within NM m) | |- _ => idtac end;
    try destruct (names_reads o a i).
  - unfold cron_create, build, cron_check, cron_db, audit_change. within_tac. apply names_statement.
    intros h [] h' [-> _]%insert_job_ok. done.
  - unfold cron_update, cron_check, audit_change. within_tac.
  - unfold set_enabled, cron_check, audit_change. within_tac.
  - unfold cron_delete, cron_db, audit_change. within_tac. apply names_tables. intros h r.
    unfold delete_job_rows. destruct (existsb _ _); [|done]. by intros [Hr _]%delete_where_In.
  - unfold advance_job, cron_check. within_tac.
  - apply names_prune.
Qed.

(** An execution that ends, and the recovery of the runs whose lease is over. *)
Lemma names_run_finished job run w : row_of_run run (tables w) → NM w (run_finished job run w).2.
Proof.
  intros Hrow. unfold run_finished. apply bind_at; [apply _| |].
  - unfold execute_job, cron_check. destruct (job_outcome _ _); [|apply names_tick].
    transitivity (tick w); [apply names_tick|]. apply within_bind; [apply _|apply names_now|]. intros t.
    by apply (within_lift NM).
  - intros run' w' (Hdb & _ & Hid & Hj)%execute_job_ok. apply bind_at; [apply _| |intros; by apply (within_ret NM)].
    apply names_update_run. unfold row_of_run. by rewrite Hdb, Hid, Hj.
Qed.

Lemma names_recover_runs t rows w :
  (∀ row, In row rows → row_of_run (crr_payload row) (tables w)) → NM w (recover_runs t rows w).2.
Proof.
  revert w. induction rows as [|row rows IH]; intros w Hrows; cbn [recover_runs]; [done|]. unfold cron_check.
  destruct (_ && _); [|apply bind_at; [apply _|done|]; intros [] w' [= <-]; apply IH; auto using in_cons].
  apply bind_at; [apply _| |].
  - apply bind_at; [apply _|by apply (within_lift NM)|]. intros run w' [Hi%result_map_err_ok ->]%lift_ok.
    apply run_finish_ok in Hi as (_ & _ & Hid & Hj); [|done].
    apply names_update_run. unfold row_of_run. rewrite Hid, Hj. apply Hrows. by left.
  - intros [] w' Hr. inv_bind Hr. apply lift_ok in R as [_ ->]. apply IH. intros row' Hrow'. unfold row_of_run.
    pose proof (update_run_keys a w) as Hk. rewrite Hr in Hk. cbn in Hk. rewrite Hk. apply Hrows. by right.
Qed.

Lemma names_recover_expired t w :
  cron_wf roots (tables w) → runs_agree (tables w) → NM w (recover_expired t w).2.
Proof.
  intros HW Ha. unfold recover_expired, cron_select, cron_db.
  apply bind_at; [apply _|apply map_err_at, names_select|].
  intros rows w1 (Hdb & -> & _)%map_err_ok%select_run. apply names_recover_runs.
  intros row Hrow. rewrite Hdb. by eapply run_keys_row.
Qed.
End naming_runs.

(** *** Executions in flight *)

(** The run of an execution is stored, as it was launched. *)
Definition flying_row (run : JobRun) (r : CronRunRow) : Prop :=
  crr_id r = jr_id run ∧ crr_payload r = run ∧ crr_job_id r = jr_job_id run
  ∧ is_terminal run = false.

Definition flying_ok (h : HostingTables) (fl : list (CronJob * JobRun)) : Prop :=
  (∀ job run, In (job, run) fl → ∃ r, flying_row run r ∧ In r (ht_cron_runs h))
  ∧ NoDup (map (λ p, jr_id p.2) fl).

Section flights.
Context `{Env} `{Scheduler} `{Executor} (roots : list (list N)).
Abbreviation tables w := (db_hosting (w_db w)).

Lemma insert_run_launch owner run t w x w' :
  insert_run owner run t w = (Ok x, w') →
  In (mkCronRunRow (jr_id run) (jr_job_id run) owner run (negb (is_terminal run)) t) (ht_cron_runs (tables w'))
  ∧ ~ In (jr_id run) (map crr_id (ht_cron_runs (tables w))).
Proof.
  intros Hr%map_err_ok. unfold statement, hosting_statement in Hr. destruct (sql_fault _); [done|].
  destruct (insert_run_row _ _) as [[[] h']|] eqn:E; [|done]. injection Hr as _ <-.
  apply insert_run_row_ok in E as (-> & Hid & _). split; [|done]. apply in_or_app. right. by left.
Qed.

(** A launched run is new and stored. *)
Lemma run_claim_launched id found w j run w' :
  run_claim id found w = (Ok (Launched j run), w') →
  jr_job_id run = id ∧ is_terminal run = false
  ∧ (∃ t, jr_lease_until run = (t + 30 * 1000000000)%Z ∧ found.1.2 = t)
  ∧ (∃ r, flying_row run r ∧ In r (ht_cron_runs (tables w')))
  ∧ ~ In (jr_id run) (map crr_id (ht_cron_runs (tables w))).
Proof.
  unfold run_claim. destruct found as [[job t] active]. intros Hr. destruct active.
  { inv_bind Hr. inv_bind Hr. done. }
  inv_bind Hr. injection R as <- <-. inv_bind Hr.
  apply lift_ok in R as [Hs%result_map_err_ok ->]. cbn in Hs. injection Hs as <-.
  inv_bind Hr. unfold try_run in R.
  destruct (insert_run _ _ _ (tick w)) as [[y|e] w2] eqn:Hi.
  - injection R as <- <-. injection Hr as <- <- <-. cbn.
    apply insert_run_launch in Hi as [Hin Hid]. split_and!; [done|done|by eexists| |done].
    eexists. split; [|exact Hin]. done.
  - injection R as <- <-. destruct e as [e| |e].
    1,2: unfold insert_run, cron_db, map_err in Hi; by destruct (statement _ _) as [[]].
    destruct (contains_str _ _); [|done]. inv_bind Hr. inv_bind Hr. done.
Qed.

Lemma NoDup_middle {A B} (f : A → B) l1 y l2 :
  NoDup (map f (l1 ++ y :: l2)) → NoDup (map f (l1 ++ l2)) ∧ ~ In (f y) (map f (l1 ++ l2)).
Proof.
  rewrite !map_app. cbn. intros Hn. rewrite <- list_elem_of_In.
  assert (f y :: map f l1 ++ map f l2 ≡ₚ map f l1 ++ f y :: map f l2) as Hp by solve_Permutation.
  rewrite <- Hp in Hn. by apply NoDup_cons in Hn as [? ?].
Qed.

(** The state of the scheduler: tables and flights agree. *)
Definition cron_ok (s : CronState) : Prop :=
  cron_wf roots (tables (cs_world s)) ∧ flying_ok (tables (cs_world s)) (cs_flying s).

(** Flights whose rows stay. *)
Lemma flying_kept h h' fl :
  (∀ job run r, In (job, run) fl → flying_row run r → In r (ht_cron_runs h) → In r (ht_cron_runs h')) →
  flying_ok h fl → flying_ok h' fl.
Proof.
  intros Hk [Hrow Hn]. split; [|done]. intros job run Hin.
  destruct (Hrow job run Hin) as (r & Hf & Hr). eauto.
Qed.

Lemma cron_step_wf o s s' :
  cron_step roots o s s' → cron_wf roots (tables (cs_world s)) → cron_wf roots (tables (cs_world s')).
Proof.
  intros Hs. destruct Hs as [owner all id w found w' fs fl Hr|owner all id w e w' fs fl Hr
    |id found w r w' fs1 fs2 fl Hr|job run w fs fl1 fl2|w fs fl1 x fl2|t w fs fl _|op w fs fl Hop _]; cbn.
  - pose proof (keeps_run_lookup roots owner all id w) as HK. rewrite Hr in HK. exact HK.
  - pose proof (keeps_run_lookup roots owner all id w) as HK. rewrite Hr in HK. exact HK.
  - pose proof (keeps_run_claim roots id found w) as HK. rewrite Hr in HK. exact HK.
  - apply keeps_run_finished.
  - done.
  - apply keeps_recover_expired.
  - by apply keeps_run_cron.
Qed.

Lemma cron_step_ok s s' : cron_step roots true s s' → cron_ok s → cron_ok s'.
Proof.
  intros Hs [HW HF]. split; [by eapply cron_step_wf|].
  destruct Hs as [owner all id w found w' fs fl Hr|owner all id w e w' fs fl Hr
    |id found w r w' fs1 fs2 fl Hr|job run w fs fl1 fl2|w fs fl1 x fl2|t w fs fl Hlease|op w fs fl Hop Hdel]; cbn in *.
  - eapply flying_kept, HF. intros j run r _ _ Hin.
    pose proof (proj2 (row_reads r owner all id) w) as HK. rewrite Hr in HK. exact (HK Hin).
  - eapply flying_kept, HF. intros j run r _ _ Hin.
    pose proof (proj2 (row_reads r owner all id) w) as HK. rewrite Hr in HK. exact (HK Hin).
  - assert (flying_ok (tables w') fl) as HF'.
    { eapply flying_kept, HF. intros j run x _ _ Hin.
      pose proof (row_run_claim x id found w) as HK. rewrite Hr in HK. exact (HK Hin). }
    destruct r as [[run|j run]|e]; cbn; try done.
    apply run_claim_launched in Hr as (_ & _ & _ & Hrow & Hfresh). destruct HF' as [H1' H2'].
    split; [intros j' run' [[= <- <-]|Hin]; eauto|]. cbn. apply NoDup_cons. split; [|done].
    rewrite list_elem_of_In, in_map_iff. intros ([j' run'] & Heq & Hin). cbn in Heq.
    destruct (proj1 HF j' run' Hin) as (x & (Hx & _) & Hinx). apply Hfresh. rewrite <- Heq, <- Hx. by apply in_map.
  - destruct HF as [Hrow Hn]. destruct (NoDup_middle _ _ _ _ Hn) as [Hn' Hnot]. split; [|done].
    intros j' run' Hin. destruct (Hrow j' run') as (r & Hf & Hr).
    { apply in_app_or in Hin as [Hin|Hin]; apply in_or_app; [by left|right; by right]. }
    exists r. split; [done|]. apply (row_run_finished r job run); [|done].
    destruct Hf as (-> & _). intros Heq. apply Hnot. cbn. rewrite Heq.
    apply in_map_iff. by exists (j', run').
  - destruct HF as [Hrow Hn]. destruct (NoDup_middle _ _ _ _ Hn) as [Hn' _]. split; [|done].
    intros j' run' Hin. apply (Hrow j' run').
    apply in_app_or in Hin as [Hin|Hin]; apply in_or_app; [by left|right; by right].
  - eapply flying_kept, HF. intros j run r Hin (_ & Hp & _) Hr.
    apply (row_recover_expired roots r t w HW Hr). rewrite Hp. by eapply Hlease.
  - eapply flying_kept, HF. intros j run r Hin (_ & Hp & Hj & Hnt) Hr.
    apply (row_run_cron roots r op w HW Hr); [by rewrite Hp|]. intros o' a i ->. rewrite Hj. by eapply Hdel.
Qed.

(** *** The names of runs over steps *)

(** The identifier of an execution in flight names no run of another job, and is not drawn again. *)
Definition flights_named (s : CronState) : Prop :=
  ∀ job run, In (job, run) (cs_flying s) →
    row_of_run run (tables (cs_world s)) ∧ ∀ k, (w_step (cs_world s) ≤ k)%nat → new_v4 k ≠ jr_id run.

Definition named (s : CronState) : Prop :=
  cron_wf roots (tables (cs_world s)) ∧ runs_agree (tables (cs_world s)) ∧ flights_named s.

Lemma flights_named_kept w w' fs fs' fl fl' :
  run_names (w_step w) w w' → (∀ x, In x fl' → In x fl) →
  flights_named (mkCronState w fs fl) → flights_named (mkCronState w' fs' fl').
Proof.
  intros [Hf HN] Hfl Hold job run Hin. destruct (HN (le_n _)) as [_ Hkeys]. unfold forward in Hf.
  destruct (Hold job run (Hfl _ Hin)) as [Hrow Hk]. cbn in *. split; [|intros k ?; apply Hk; lia].
  intros j Hj. destruct (Hkeys _ Hj) as [|(k & ? & Hid)]; [by apply Hrow|].
  by destruct (Hk k); [lia|].
Qed.

(** An operation that launches nothing. *)
Lemma named_kept w w' fs fs' fl fl' :
  run_names (w_step w) w w' → (∀ x, In x fl' → In x fl) → cron_wf roots (tables w') →
  named (mkCronState w fs fl) → named (mkCronState w' fs' fl').
Proof.
  intros Hn Hfl HW' (HW & Ha & Hf). split_and!; [done| |by eapply flights_named_kept].
  destruct Hn as [_ HN]. by apply (HN (le_n _)).
Qed.

(** A run that is launched. *)
Lemma named_claim id found w r w' fs fs' fl :
  draws_differ (w_step w) → run_claim id found w = (r, w') → cron_wf roots (tables w') →
  named (mkCronState w fs fl) → named (mkCronState w' fs' (launched r ++ fl)).
Proof.
  intros Hd Hr HW' Hok. pose proof (names_run_claim (w_step w) id found w) as Hn. rewrite Hr in Hn. cbn in Hn.
  pose proof (named_kept w w' fs fs' fl fl Hn (λ _ h, h) HW' Hok) as (_ & Ha' & Hf').
  split_and!; [done..|]. intros job run [Hin|Hin]%in_app_or; [|by eapply Hf'].
  destruct r as [[|j run']|]; try done. destruct Hin as [[= <- <-]|[]].
  apply run_claim_launched in Hr as (_ & _ & _ & (x & (Hid & Hp & Hj & _) & Hx) & Hnew).
  cbn [cs_world]. split; [rewrite <- Hp; by eapply run_keys_row|].
  destruct Hn as [_ HN]. destruct (HN (le_n _)) as [_ Hkeys].
  destruct (Hkeys _ (run_keys_In _ _ Hx)) as [Hold|(j0 & Hj0 & E)].
  - apply in_map_iff in Hold as (y & [= E _] & Hy). destruct Hnew. rewrite <- Hid, <- E. by apply in_map.
  - cbn in E. rewrite <- Hid, E. intros k Hk. apply Hd; lia.
Qed.

Lemma cron_step_named o s s' :
  draws_differ (w_step (cs_world s)) → cron_step roots o s s' → named s →
  named s' ∧ forward (cs_world s) (cs_world s').
Proof.
  intros Hd Hs Hok. pose proof (cron_step_wf _ _ _ Hs (proj1 Hok)) as HW'.
  enough (run_names (w_step (cs_world s)) (cs_world s) (cs_world s') ∧ named s') as [[Hf _] ?] by done.
  destruct Hs as [owner all id w found w' fs fl Hr|owner all id w e w' fs fl Hr
    |id found w r w' fs1 fs2 fl Hr|job run w fs fl1 fl2|w fs fl1 x fl2|t w fs fl _|op w fs fl Hop _]; cbn in *.
  - pose proof (proj2 (names_reads (w_step w) owner all id) w) as Hn. rewrite Hr in Hn. cbn in Hn.
    split; [done|]. by eapply named_kept.
  - pose proof (proj2 (names_reads (w_step w) owner all id) w) as Hn. rewrite Hr in Hn. cbn in Hn.
    split; [done|]. by eapply named_kept.
  - split; [|by eapply named_claim].
    pose proof (names_run_claim (w_step w) id found w) as Hn. by rewrite Hr in Hn.
  - destruct Hok as (HW & Ha & Hf). destruct (Hf job run) as [Hrow _]; [apply in_or_app; right; by left|].
    pose proof (names_run_finished (w_step w) job run w Hrow) as Hn. split; [done|].
    eapply named_kept; [done| |done|by split_and!].
    intros x [|]%in_app_or; apply in_or_app; [by left|right; by right].
  - split; [done|]. eapply named_kept; [done| |done|done].
    intros y [|]%in_app_or; apply in_or_app; [by left|right; by right].
  - destruct Hok as (HW & Ha & Hf). pose proof (names_recover_expired roots (w_step w) t w HW Ha) as Hn.
    split; [done|]. eapply named_kept; [done|done|done|by split_and!].
  - pose proof (names_run_cron roots (w_step w) op w) as Hn. split; [done|]. by eapply named_kept.
Qed.
End flights.
