(* ===== verification/CronTheorems.v ===== *)
(** * Cron: the theorems

    The tables, the executions in flight, the lease, and a tick of the scheduler. *)
From S2P Require Import Prelude Text AuditActions AuditLog Accounts Paths CronJobs HostingTables Store Users Sites StagingChanges StagingSafety Cron CronSafety.
Open Scope N_scope.

(** ** Recovery of expired leases *)

Definition expired (t : DateTime) (r : CronRunRow) : bool :=
  negb (is_terminal (crr_payload r)) && (jr_lease_until (crr_payload r) <? t)%Z.

Lemma find_ext {A} (p q : A → bool) l : (∀ x, p x = q x) → List.find p l = List.find q l.
Proof. intros Hpq. induction l as [|x l IH]; cbn; [done|]. by rewrite Hpq, IH. Qed.

Lemma run_interrupt_active t run :
  is_terminal run = false →
  ∃ run', run_interrupt t run = Ok run' ∧ is_terminal run' = true ∧ jr_id run' = jr_id run.
Proof.
  intros Ht. unfold run_interrupt, run_finish, ensure_active. rewrite Ht. by eexists.
Qed.

Section recovery.
Context `{Env} `{Scheduler} `{Executor} (roots : list (list N)).
Abbreviation tables w := (db_hosting (w_db w)).
Hypothesis no_faults : ∀ k, sql_fault k = None.

Lemma update_run_no_fault run w :
  is_terminal run = true →
  ∃ w', update_run run w = (Ok tt, w')
    ∧ tables w' = set_cron_runs (update_where (run_is (jr_id run)) (cron_run_row_set run)
                                   (ht_cron_runs (tables w))) (tables w).
Proof using no_faults.
  intros Ht. eexists. unfold update_run, cron_db, map_err, statement, hosting_statement.
  rewrite no_faults, update_run_terminal by done. by split.
Qed.

(** Every active run that is left was there and had not expired. *)
Lemma recover_runs_no_fault t rows w :
  (∀ row, In row rows → jr_id (crr_payload row) = crr_id row) →
  ∃ w', recover_runs t rows w = (Ok tt, w')
    ∧ ht_cron_jobs (tables w') = ht_cron_jobs (tables w)
    ∧ map crr_id (ht_cron_runs (tables w')) = map crr_id (ht_cron_runs (tables w))
    ∧ ∀ r, In r (ht_cron_runs (tables w')) → is_terminal (crr_payload r) = false →
        In r (ht_cron_runs (tables w))
        ∧ ∀ row, In row rows → expired t row = true → crr_id row ≠ crr_id r.
Proof using no_faults.
  revert w. induction rows as [|row rows IH]; intros w Hids; cbn [recover_runs].
  { exists w. by split_and!. }
  destruct (expired t row) eqn:Ex; unfold expired in Ex; rewrite Ex.
  - apply andb_true_iff in Ex as [Et%negb_true_iff El].
    destruct (run_interrupt_active t (crr_payload row) Et) as (run & Hint & Hterm & Hid).
    destruct (update_run_no_fault run w Hterm) as (w1 & Hu & E1).
    rewrite Hint. rewrite (bind_run _ _ w tt w1) by exact Hu.
    destruct (IH w1) as (w' & Hr & Ej & Ek & Hleft); [intros; apply Hids; by right|].
    exists w'. split; [done|]. rewrite E1 in Ej, Ek, Hleft. cbn in Ej, Ek, Hleft.
    rewrite update_where_key in Ek by done. split_and!; [done..|].
    intros r Hin Hnt. destruct (Hleft r Hin Hnt) as [Hin1 Hne].
    apply update_where_In in Hin1 as (r0 & Hin0 & ->). unfold run_is in *.
    destruct (N.eqb_spec (crr_id r0) (jr_id run)) as [E|E]; [cbn in Hnt; congruence|].
    split; [done|]. intros row' [<-|Hrow'] Hex'; [|by apply Hne].
    rewrite <- (Hids row) by (by left). congruence.
  - rewrite (bind_run _ _ w tt w) by reflexivity.
    destruct (IH w) as (w' & Hr & Ej & Ek & Hleft); [intros; apply Hids; by right|].
    exists w'. split_and!; try done. intros r Hin Hnt. destruct (Hleft r Hin Hnt) as [Hin1 Hne].
    split; [done|]. intros row' [<-|Hrow'] Hex'; [|by apply Hne]. unfold expired in Hex'. congruence.
Qed.

Lemma recover_expired_no_fault t w :
  cron_wf roots (tables w) →
  ∃ w', recover_expired t w = (Ok tt, w')
    ∧ ht_cron_jobs (tables w') = ht_cron_jobs (tables w)
    ∧ map crr_id (ht_cron_runs (tables w')) = map crr_id (ht_cron_runs (tables w))
    ∧ ∀ r, In r (ht_cron_runs (tables w')) → is_terminal (crr_payload r) = false →
        In r (ht_cron_runs (tables w)) ∧ expired t r = false.
Proof using no_faults.
  intros HW. unfold recover_expired, cron_select, cron_db.
  destruct (recover_runs_no_fault t (ht_cron_runs (tables w)) (tick w)) as (w' & Hr & Ej & Ek & Hleft).
  { intros row Hrow. apply (cw_runs _ _ HW row Hrow). }
  exists w'. erewrite bind_run by (apply map_err_run; by apply select_no_fault). cbn in *.
  split_and!; try done. intros r Hin Hnt. destruct (Hleft r Hin Hnt) as [Hin0 Hne]. split; [done|].
  destruct (expired t r) eqn:E; [|done]. by destruct (Hne r Hin0 E).
Qed.

(** No run of the job is active. *)
Definition idle (id : Uuid) (h : HostingTables) : Prop :=
  ∀ r, In r (ht_cron_runs h) → crr_job_id r = id → is_terminal (crr_payload r) = true.

Lemma lookup_no_fault owner id w :
  cron_wf roots (tables w) → In id (map cjr_id (ht_cron_jobs (tables w))) → idle id (tables w) →
  ∃ job t w1, run_lookup owner true id w = (Ok (job, t, false), w1) ∧ tables w1 = tables w.
Proof using no_faults.
  intros HW (jr & Hid & Hj)%in_map_iff Hterm.
  assert (List.find (λ r, job_is id r && visible owner true r) (ht_cron_jobs (tables w)) = Some jr) as Hf.
  { rewrite <- Hid. unfold visible, job_is. cbn.
    rewrite (find_ext _ (λ x, cjr_id x =? cjr_id jr)) by (intros x; apply andb_true_r).
    apply (find_key cjr_id N.eqb); [|apply HW|done]. intros x y. apply N.eqb_eq. }
  unfold run_lookup, cron_get, cron_select, cron_db.
  erewrite bind_run.
  2: { erewrite bind_run by (apply map_err_run; by apply select_no_fault). rewrite Hf. done. }
  edestruct (audit_ok (on_tables (same (λ h, h))) (E:=CronServiceError)) as (w1 & Ha & Hs).
  rewrite (bind_run _ _ _ _ _ Ha). unfold on_db, on_tables, same in Hs. cbn in Hs.
  erewrite bind_run by reflexivity. erewrite bind_run by (apply map_err_run; by apply select_no_fault).
  cbn [w_db tick]. rewrite Hs. replace (existsb _ _) with false.
  - do 3 eexists. split; [reflexivity|]. exact Hs.
  - symmetry. apply existsb_false. intros r Hr. unfold run_of.
    destruct (N.eqb_spec (crr_job_id r) id); [|done]. cbn. by rewrite (Hterm r).
Qed.

Lemma insert_run_no_fault owner run t w :
  cron_wf roots (tables w) → In (jr_job_id run) (map cjr_id (ht_cron_jobs (tables w))) →
  ~ In (jr_id run) (map crr_id (ht_cron_runs (tables w))) → idle (jr_job_id run) (tables w) →
  ∃ w', insert_run owner run t w = (Ok tt, w').
Proof using no_faults.
  intros HW (jr & Hid & Hj)%in_map_iff Hfresh Hterm.
  unfold insert_run, cron_db, map_err, statement, hosting_statement, insert_run_row.
  cbn [crr_id crr_active crr_job_id]. rewrite no_faults.
  replace (existsb (run_is _) _) with false; [replace (existsb (λ x, _ && _) _) with false;
    [replace (existsb (job_is _) _) with true; [by rewrite andb_false_r; eexists|]|]|]; symmetry.
  - apply existsb_exists. exists jr. split; [done|]. by apply N.eqb_eq.
  - apply existsb_false. intros r Hr. unfold run_of.
    destruct (N.eqb_spec (crr_job_id r) (jr_job_id run)); [|done]. cbn.
    destruct (cw_runs _ _ HW r Hr) as [_ ->]. by rewrite (Hterm r).
  - apply existsb_false. intros r Hr. apply N.eqb_neq. intros E. apply Hfresh. rewrite <- E. by apply in_map.
Qed.

(** A job without an active run is launched. *)
Lemma claim_no_fault id job t w :
  cron_wf roots (tables w) → In id (map cjr_id (ht_cron_jobs (tables w))) → idle id (tables w) →
  ~ In (new_v4 (w_step w)) (map crr_id (ht_cron_runs (tables w))) →
  ∃ run w', run_claim id (job, t, false) w = (Ok (Launched job run), w').
Proof using no_faults.
  intros HW Hid Hterm Hfresh. unfold run_claim. erewrite bind_run by reflexivity.
  erewrite bind_run by reflexivity.
  match goal with |- context [try_run (insert_run ?o ?r ?t)] =>
    destruct (insert_run_no_fault o r t (tick w)) as [w' Hi]; [done..|] end.
  do 2 eexists. erewrite bind_run by (unfold try_run; by rewrite Hi). reflexivity.
Qed.
End recovery.

(** ** Jobs and a tick *)

Section ticks.
Context `{Env} `{Scheduler} `{Executor} (roots : list (list N)).
Abbreviation tables w := (db_hosting (w_db w)).
Abbreviation J := (on_db (on_tables (same ht_cron_jobs))).

Lemma jobs_run f : (∀ h, ht_cron_jobs (f h) = ht_cron_jobs h) → within J (execute (on_hosting f)).
Proof. intros Hf. apply on_db_execute; [apply _|]. intros d. exact (Hf _). Qed.

Lemma jobs_insert_run owner run t : within J (insert_run owner run t).
Proof.
  apply within_map_err, on_db_statement; [apply _|]. intros d [] d' Hs. unfold hosting_statement in Hs.
  destruct (insert_run_row _ _) as [[[] h']|] eqn:E; [|done]. injection Hs as <-.
  by apply insert_run_row_ok in E as [-> _].
Qed.

Lemma jobs_update_run run : within J (update_run run).
Proof.
  apply within_map_err, on_db_statement; [apply _|]. intros d [] d' Hs.
  unfold hosting_statement, update_run_row in Hs. destruct (_ && _); [done|]. by injection Hs as <-.
Qed.

Lemma jobs_execute job run : within J (execute_job job run).
Proof.
  intros w. unfold execute_job, cron_check. destruct (job_outcome _ _) as [finish|]; [|apply on_db_tick, _].
  transitivity (tick w); [apply on_db_tick, _|].
  match goal with |- _ _ (?m _).2 => enough (within J m) as Hm by apply Hm end. within_tac.
Qed.

Lemma jobs_run_now owner all id : within J (run_now owner all id).
Proof.
  pose proof jobs_insert_run. pose proof jobs_update_run. pose proof jobs_execute.
  unfold run_now, run_lookup, run_claim, run_finished, cron_get, cron_check, cron_select, cron_db.
  within_tac.
Qed.

Lemma jobs_recover t : within J (recover_expired t).
Proof.
  assert (∀ rows, within J (recover_runs t rows)) as Hr.
  { pose proof jobs_update_run. induction rows as [|row rows IH]; cbn [recover_runs]; [within_tac|].
    unfold cron_check. within_tac. }
  unfold recover_expired, cron_select, cron_db. within_tac.
Qed.

Lemma jobs_prune t d : within J (prune t d).
Proof.
  assert (∀ rows, within J (prune_rows rows)) as Hr.
  { induction rows as [|row rows IH]; cbn [prune_rows]; [within_tac|]. unfold cron_db. within_tac.
    by apply jobs_run. }
  unfold prune, cron_select, cron_db. within_tac.
Qed.

Lemma advance_job_ok `{!SchedulerLaws} t j w j' w' :
  advance_job t j w = (Ok j', w') →
  cj_id j' = cj_id j ∧ (t < cj_next_run_at j')%Z
  ∧ ht_cron_jobs (tables w') = update_where (job_is (cj_id j)) (job_row_set j') (ht_cron_jobs (tables w)).
Proof.
  unfold advance_job, cron_check. intros Hr. inv_bind Hr. apply lift_ok in R as [Hj%result_map_err_ok ->].
  unfold cron_job_advance in Hj. destruct (next_after _ _) as [next|] eqn:En; [|done]. injection Hj as <-.
  inv_bind Hr. injection Hr as <- <-. apply map_err_ok, execute_ok in R. rewrite R. cbn.
  split_and!; [done| |done]. by eapply next_after_later.
Qed.

(** Each row after the loop is untouched or past [t]. *)
Lemma run_due_ok `{!SchedulerLaws} t l w w' :
  run_due t l w = (Ok tt, w') →
  ∀ r', In r' (ht_cron_jobs (tables w')) →
    (In r' (ht_cron_jobs (tables w)) ∧ ~ In (cjr_id r') (map cj_id l))
    ∨ (t < cj_next_run_at (cjr_payload r'))%Z.
Proof.
  revert w. induction l as [|j l IH]; intros w; cbn [run_due].
  - intros [= <-] r' Hr'. left. split; [done | tauto].
  - intros Hr. inv_bind Hr. apply advance_job_ok in R as (Eid & Hnext & Ejobs).
    inv_bind Hr. pose proof (jobs_run_now (cj_owner_id a) true (cj_id a) w0) as Hsame.
    rewrite R in Hsame. unfold on_db, on_tables, same in Hsame. cbn in Hsame.
    intros r' Hr'. destruct (IH _ Hr r' Hr') as [[Hin Hnot]|Hgt]; [|by right].
    rewrite Hsame, Ejobs in Hin. apply update_where_In in Hin as (r & Hin & ->). unfold job_is in *.
    destruct (N.eqb_spec (cjr_id r) (cj_id j)) as [E|E]; [right; exact Hnext|]. left.
    split; [done|]. cbn. intros [Hj|Hj]; [congruence | done].
Qed.
End ticks.

(** ** Theorems *)

Section theorems.
Context `{Env} `{Scheduler} `{Executor} (roots : list (list N)).
Abbreviation tables w := (db_hosting (w_db w)).

(** C40 (cron tables).  Over every interleaving of requests, executions, recoveries and job
    administration, wherever statements fail: job and run identifiers are unique, the identifier
    and owner columns of a job and the identifier and active columns of a run agree with the stored
    payloads, every run refers to a job, a job has at most one active run, the timeout of a job is
    between one second and a day, and the working directory of a command lies below an allowed
    root, without a step up.  When from now on no identifier is drawn twice, and those of the
    executions in flight are not drawn again and name no run of another job, the job column of
    every run stays that of its payload as well. *)
Theorem cron_tables_invariant orderly s s' :
  rtc (cron_step roots orderly) s s' →
  cron_wf roots (tables (cs_world s)) →
  cron_wf roots (tables (cs_world s'))
  ∧ (draws_differ (w_step (cs_world s)) → flights_named s →
     runs_agree (tables (cs_world s)) → runs_agree (tables (cs_world s'))).
Proof.
  intros Hs HW. split.
  - induction Hs as [|s s1 s' Hs _ IH]; [done|]. by eapply IH, cron_step_wf.
  - intros Hd Hf Ha. assert (named roots s) as Hok by done. clear HW Hf Ha.
    induction Hs as [s|s s1 s' Hs _ IH]; [apply Hok|]. destruct (cron_step_named roots _ _ _ Hd Hs Hok).
    apply IH; [by eapply draws_differ_later|done].
Qed.

(** C9 (no overlap).  As long as no lease is recovered that an execution in flight has
    outlived, and no job is deleted while it runs, a job has at most one execution in
    flight, whatever is interleaved between looking a job up and storing its run. *)
Theorem cron_no_overlap s s' :
  rtc (cron_step roots true) s s' → cron_ok roots s →
  NoDup (map (λ p, jr_job_id p.2) (cs_flying s')).
Proof.
  intros Hsteps Hok.
  assert (cron_ok roots s') as [HW [Hrow Hn]].
  { induction Hsteps as [|s s1 s' Hs _ IH]; [done|]. by eapply IH, cron_step_ok. }
  revert Hrow Hn. generalize (cs_flying s'). clear -HW. intros fl Hrow Hn.
  induction fl as [|[j run] fl IH]; cbn; [constructor|]. cbn in Hn. apply NoDup_cons in Hn as [Hnot Hn].
  apply NoDup_cons. split; [|apply IH; [|done]; intros; eapply Hrow; by right].
  rewrite list_elem_of_In, in_map_iff. intros ([j' run'] & Heq & Hin). cbn in Heq. apply Hnot.
  destruct (Hrow j run) as (x & (Ex & Px & Jx & Tx) & Hx); [by left|].
  destruct (Hrow j' run') as (y & (Ey & Py & Jy & Ty) & Hy); [by right|].
  assert (x = y) as <-.
  { apply (cw_one_active _ _ HW); try done; [| |congruence].
    - destruct (cw_runs _ _ HW x Hx) as [_ ->]. by rewrite Px, Tx.
    - destruct (cw_runs _ _ HW y Hy) as [_ ->]. by rewrite Py, Ty. }
  rewrite list_elem_of_In. apply in_map_iff. exists (j', run'). split; [cbn; congruence | done].
Qed.

(** A lease shorter than the job.  The lease of a run is 30 seconds while a job may run
    for a day.  Once the lease of an execution in flight is over, a recovery marks its run
    as interrupted, and the next request launches the job again beside it. *)
Theorem expired_lease_overlaps s job run :
  (∀ k, sql_fault k = None) → cron_ok roots s → In (job, run) (cs_flying s) →
  (∀ k, ~ In (new_v4 k) (map crr_id (ht_cron_runs (tables (cs_world s))))) →
  ∃ s' job' run', rtc (cron_step roots false) s s'
    ∧ cs_flying s' = (job', run') :: cs_flying s ∧ jr_job_id run' = jr_job_id run
    ∧ run' ≠ run.
Proof.
  intros Hnf [HW [Hrow Hnd]] Hin Hfresh. destruct s as [w fs fl]. cbn in *.
  destruct (Hrow job run Hin) as (x & (Ex & Px & Jx & Tx) & Hx). set (t := (jr_lease_until run + 1)%Z).
  destruct (recover_expired_no_fault roots Hnf t w HW) as (w1 & Hrec & Ejobs & Ekeys & Hleft).
  assert (cron_wf roots (tables w1)) as HW1.
  { pose proof (keeps_recover_expired roots t w HW) as HK. by rewrite Hrec in HK. }
  assert (In (jr_job_id run) (map cjr_id (ht_cron_jobs (tables w1)))) as Hjob.
  { rewrite Ejobs, <- Jx. by apply (cw_run_jobs _ _ HW). }
  assert (idle (jr_job_id run) (tables w1)) as Hidle.
  { intros r Hr Hj. destruct (is_terminal (crr_payload r)) eqn:Et; [done|]. exfalso.
    destruct (Hleft r Hr Et) as [Hr0 Hex]. assert (r = x) as ->.
    { apply (cw_one_active _ _ HW); try done; [| |congruence].
      - destruct (cw_runs _ _ HW r Hr0) as [_ ->]. by rewrite Et.
      - destruct (cw_runs _ _ HW x Hx) as [_ ->]. by rewrite Px, Tx. }
    unfold expired in Hex. rewrite Px, Tx in Hex. cbn in Hex. apply Z.ltb_ge in Hex. subst t. lia. }
  destruct (lookup_no_fault roots Hnf (cj_owner_id job) _ w1 HW1 Hjob Hidle) as (job' & t' & w2 & Hlook & E2).
  assert (∀ k, ~ In (new_v4 k) (map crr_id (ht_cron_runs (tables w2)))) as Hfresh2
    by (intros k; by rewrite E2, Ekeys).
  destruct (claim_no_fault roots Hnf (jr_job_id run) job' t' w2) as (run' & w3 & Hclaim);
    [by rewrite E2..|done|].
  exists (mkCronState w3 fs ((job', run') :: fl)), job', run'.
  destruct (run_claim_launched _ _ _ _ _ _ Hclaim) as (Ej & _ & _ & _ & Hnew). split_and!; [|done|done|].
  - eapply rtc_l; [by apply (CronRecover roots false t)|]. cbn. rewrite Hrec. cbn.
    eapply rtc_l; [by eapply CronLookup|].
    exact (rtc_once _ _ (CronClaim roots false _ _ _ _ _ [] fs fl Hclaim)).
  - intros ->. apply Hnew. rewrite E2, Ekeys, <- Ex. by apply in_map.
Qed.

(** A tick.  After a tick that returns, no enabled job is due any more at its instant:
    every job that was due has moved to a later occurrence, so it is not launched twice for
    one. *)
Theorem tick_advances_due `{!SchedulerLaws} t d w n w' :
  cron_tick t d w = (Ok n, w') → cron_wf roots (tables w) →
  ∀ r, In r (ht_cron_jobs (tables w')) → cj_enabled (cjr_payload r) = true →
    (t < cj_next_run_at (cjr_payload r))%Z.
Proof.
  unfold cron_tick. intros Hr HW. inv_bind Hr. pose proof (jobs_recover t w) as H1'. rewrite R in H1'.
  inv_bind Hr. unfold cron_list, cron_select, cron_db in R0. inv_bind R0.
  apply map_err_ok, select_run in R1 as (Hdb & -> & _). injection R0 as <- <-.
  inv_bind Hr. destruct a0. inv_bind Hr. injection Hr as _ <-.
  match type of R1 with prune _ _ ?w0 = _ => pose proof (jobs_prune t d w0) as H3' end. rewrite R1 in H3'.
  unfold on_db, on_tables, same in H1', H3'. cbn in H1', H3'. intros r Hin Hen.
  rewrite H3' in Hin. destruct (run_due_ok t _ _ _ R0 r Hin) as [[Hin0 Hnot]|Hgt]; [|done].
  rewrite Hdb, H1' in Hin0. destruct (Z.ltb_spec t (cj_next_run_at (cjr_payload r))); [done|]. exfalso.
  apply Hnot. destruct (cw_jobs _ _ HW r Hin0) as [<- _]. apply in_map, filter_In. split.
  - apply in_map. apply list_elem_of_In. rewrite merge_sort_Permutation. apply list_elem_of_In.
    unfold select_where. apply filter_In. by rewrite H1'.
  - unfold due. rewrite Hen. cbn. apply Z.leb_le. lia.
Qed.
End theorems.
