(* ===== verification/Backups.v ===== *)
(** * The backup service

    [crates/openpanel-app/src/backups/service.rs] over the entities of [BackupRuns] and the
    archives of [BackupArchive]: plans with their cron jobs, runs captured in a staging directory
    and moved into place, verification, restores and retention. *)
From S2P Require Import Prelude Text AuditActions AuditLog Accounts Paths CronJobs BackupRuns HostingTables Store Users Identity Secrets Remember Sites Staging StagingChanges Parts Databases FileSystem Files FileTree BackupArchive Cron.
Open Scope N_scope.

Record BackupPlanInput := mkPlanInput {
  bpi_name : string;
  bpi_resources : list BackupResource;
  bpi_schedule : string;
  bpi_timezone : string;
  bpi_retention_copies : nat
}.
Record BackupPlanUpdate := mkPlanUpdate {
  bpu_name : option string;
  bpu_retention_copies : option nat
}.
Record RestorePreview := mkPreview {
  pv_ready : bool;
  pv_conflicts : list string;
  pv_required_bytes : Z
}.
Record RestoreInput := mkRestoreInput {
  ri_resources : list BackupResource;
  ri_conflict_policy : string;
  ri_confirmation_token : option string
}.
Record RestoreJob := mkRestoreJob {
  rj_id : Uuid;
  rj_run_id : Uuid;
  rj_state : string
}.

Definition cron_service_error_text (e : CronServiceError) : string :=
  match e with
  | CronValidation r => "validation failed: " +:+ r
  | CronNotFound => "cron record not found"
  | CronPersistence r => "cron persistence failed: " +:+ r
  end.

(** ** Rows and statements *)

#[export] Program Instance backup_part : Part BackupTables :=
  {| part := ht_backups; set_part := set_backup_tables |}.
Next Obligation. done. Qed.

Definition backup_plan_is (id : Uuid) (r : BackupPlanRow) : bool := bpr_id r =? id.
Definition backup_run_is (id : Uuid) (r : BackupRunRow) : bool := brr_id r =? id.

Definition by_plan_id (r1 r2 : BackupPlanRow) : Prop := bpr_id r1 ≤ bpr_id r2.
#[export] Instance by_plan_id_dec : RelDecision by_plan_id.
Proof. unfold by_plan_id. intros r1 r2. apply _. Defined.
Definition backup_created_desc (r1 r2 : BackupRunRow) : Prop := (brr_created_at r2 ≤ brr_created_at r1)%Z.
#[export] Instance backup_created_desc_dec : RelDecision backup_created_desc.
Proof. unfold backup_created_desc. intros r1 r2. apply _. Defined.

Definition insert_backup_plan_row (r : BackupPlanRow) (t : BackupTables) : result (unit * BackupTables) string :=
  if existsb (backup_plan_is (bpr_id r)) (bt_plans t) then Err "backup_plans.id"
  else Ok (tt, set_backup_plans (bt_plans t ++ [r]) t).
Definition insert_backup_run_row (r : BackupRunRow) (t : BackupTables) : result (unit * BackupTables) string :=
  if existsb (backup_run_is (brr_id r)) (bt_runs t) then Err "backup_runs.id"
  else Ok (tt, set_backup_runs (bt_runs t ++ [r]) t).
Definition insert_restore_job_row (r : RestoreJobRow) (t : BackupTables) : result (unit * BackupTables) string :=
  if existsb (λ x, rjr_id x =? rjr_id r) (bt_restore_jobs t) then Err "restore_jobs.id"
  else Ok (tt, set_restore_jobs (bt_restore_jobs t ++ [r]) t).

Definition plan_row_set (p : BackupPlan) (r : BackupPlanRow) : BackupPlanRow :=
  mkBackupPlanRow (bpr_id r) (bpr_owner_id r) p.
Definition backup_run_row_set (run : BackupRunRec) (r : BackupRunRow) : BackupRunRow :=
  mkBackupRunRow (brr_id r) (brr_plan_id r) (brr_owner_id r) run (brr_created_at r).

(** ** Paths of the service *)

Definition STAGING : list N := bytes ".staging".
Definition RUNS : list N := bytes "runs".

(** [{"format_version":1,"secrets":"redacted"}]; 34 is the quote. *)
Definition json_quoted (s : string) : list N := (34 :: bytes s ++ [34])%list.
Definition panel_json : list N :=
  (bytes "{" ++ json_quoted "format_version" ++ bytes ":1," ++ json_quoted "secrets" ++ bytes ":"
     ++ json_quoted "redacted" ++ bytes "}")%list.

(** ** [BackupService] *)

Section backup_service.
Context `{Env} `{FsEnv} `{BackupEnv} `{Scheduler} `{Vault} `{CookieCrypto}.
(** The fields of the service: the local destination, the key of the databases, the working
    directory of the jobs when there is a scheduler, and the roots that scheduler allows. *)
Variables (root : list N) (master_key : option (list N)) (cron : option (list N))
  (allowed_roots : list (list N)).
Abbreviation MB A := (M FilesWorld BackupServiceError A).

Definition bsql {A} (c : M World RepoError A) : MB A := map_err BackupInternal (on_world c).
Definition backup_select {A} (f : BackupTables → A) : MB A :=
  bsql (select (λ d, f (ht_backups (db_hosting d)))).
Definition backup_audit (actor : Uuid) (action : AuditAction) (target : Uuid) (operation : string) : MB unit :=
  on_world (audit (uuid_text actor) action Success
    (λ e, with_metadata (JObject [("operation", JString operation)]) (with_target (uuid_text target) e))).

Definition read_current_exe : MB (list N) := λ w,
  (match current_exe (w_step (fw_world w)) with
   | Ok p => Ok p
   | Err e => Err (BackupInternal (errno_text e))
   end, fs_tick w).

(** *** Plans *)

Definition backup_cron_input (plan : BackupPlan) (executable working_root : list N) : CronInput :=
  mkCronInput ("Backup: " +:+ bp_name plan) (bp_schedule plan) (bp_timezone plan) "command"
    (Some (to_utf8_lossy executable)) ["backup"; "run"; "--plan-id"; uuid_text (bp_id plan)]
    (Some (to_utf8_lossy working_root)) None None 86400 "skip".

Definition backup_create_plan (owner : Uuid) (input : BackupPlanInput) : MB BackupPlan :=
  id <- on_world fresh_uuid ;;
  retention <- lift (validated (retention_copies (bpi_retention_copies input))) ;;
  t <- on_world now ;;
  plan <- lift (validated (backup_plan_new id owner (bpi_name input) (bpi_resources input)
                             (bpi_schedule input) (bpi_timezone input) retention t)) ;;
  plan <- match cron with
          | None => ret plan
          | Some working_root =>
              executable <- read_current_exe ;;
              job <- map_err (λ e, BackupInternal (cron_service_error_text e))
                       (on_world (cron_create allowed_roots owner (backup_cron_input plan executable working_root))) ;;
              t <- on_world now ;;
              ret (backup_plan_link_cron (cj_id job) t plan)
          end ;;
  bsql (statement (part_statement (insert_backup_plan_row (mkBackupPlanRow (bp_id plan) owner plan)))) ;;;
  backup_audit owner BackupChanged (bp_id plan) "created" ;;;
  ret plan.

Definition backup_plans (owner : Uuid) (all : bool) : MB (list BackupPlan) :=
  backup_select (λ t, map bpr_payload (merge_sort by_plan_id
    (if all then bt_plans t else select_where (λ r, bpr_owner_id r =? owner) (bt_plans t)))).

Definition backup_plan (owner : Uuid) (all : bool) (id : Uuid) : MB BackupPlan :=
  row <- backup_select (λ t, List.find (λ r, backup_plan_is id r && (all || (bpr_owner_id r =? owner))) (bt_plans t)) ;;
  row <- ok_or row BackupNotFound ;;
  ret (bpr_payload row).

Definition save_plan (plan : BackupPlan) : MB unit :=
  bsql (execute (on_part (λ t, set_backup_plans
    (update_where (backup_plan_is (bp_id plan)) (plan_row_set plan) (bt_plans t)) t))).

Definition backup_update_plan (owner : Uuid) (all : bool) (id : Uuid) (update : BackupPlanUpdate) : MB BackupPlan :=
  plan <- backup_plan owner all id ;;
  retention <- lift (validated (transpose retention_copies (bpu_retention_copies update))) ;;
  t <- on_world now ;;
  plan <- lift (validated (backup_plan_update (bpu_name update) retention t plan)) ;;
  save_plan plan ;;;
  backup_audit owner BackupChanged id "updated" ;;;
  ret plan.

Definition backup_set_enabled (owner : Uuid) (all : bool) (id : Uuid) (enabled : bool) : MB BackupPlan :=
  plan <- backup_plan owner all id ;;
  t <- on_world now ;;
  let plan := backup_plan_enabled enabled t plan in
  match bp_cron_job_id plan, cron with
  | Some job, Some _ =>
      map_err (λ e, BackupInternal (cron_service_error_text e))
        (on_world (set_enabled owner all job enabled)) ;;; ret tt
  | _, _ => ret tt
  end ;;;
  save_plan plan ;;;
  backup_audit owner BackupChanged id (if enabled then "enabled" else "disabled") ;;;
  ret plan.

Definition backup_delete_plan (owner : Uuid) (all : bool) (id : Uuid) : MB unit :=
  plan <- backup_plan owner all id ;;
  match bp_cron_job_id plan, cron with
  | Some job, Some _ =>
      map_err (λ e, BackupInternal (cron_service_error_text e)) (on_world (cron_delete owner all job))
  | _, _ => ret tt
  end ;;;
  bsql (execute (on_part (λ t, set_backup_plans (delete_where (backup_plan_is id) (bt_plans t)) t))) ;;;
  backup_audit owner BackupChanged id "deleted".

(** *** Runs *)

Definition save_new_run (run : BackupRunRec) (t : DateTime) : MB unit :=
  bsql (statement (part_statement (insert_backup_run_row
    (mkBackupRunRow (br_id run) (br_plan_id run) (br_owner_id run) run t)))).
Definition save_run (run : BackupRunRec) : MB unit :=
  bsql (execute (on_part (λ t, set_backup_runs
    (update_where (backup_run_is (br_id run)) (backup_run_row_set run) (bt_runs t)) t))).

Definition backup_runs (owner : Uuid) (all : bool) : MB (list BackupRunRec) :=
  backup_select (λ t, map brr_payload (merge_sort backup_created_desc
    (if all then bt_runs t else select_where (λ r, brr_owner_id r =? owner) (bt_runs t)))).
Definition get_backup_run (owner : Uuid) (all : bool) (id : Uuid) : MB BackupRunRec :=
  l <- backup_runs owner all ;;
  ok_or (List.find (λ r, br_id r =? id) l) BackupNotFound.

(** The row of a site, as the owner of the backup sees it. *)
Definition owned_site (owner id : Uuid) : MB SiteRow :=
  row <- bsql (select (λ d, List.find (site_is id) (ht_sites (db_hosting d)))) ;;
  row <- ok_or row BackupNotFound ;;
  if negb (si_owner_id row =? owner) then throw BackupNotFound else ret row.

Definition run_mysqldump (args : list string) : MB (option (bool * list N)) := λ w,
  (Ok (mysqldump (w_step (fw_world w)) (fw_fs w) args), fs_tick w).

Definition capture_database (owner id : Uuid) (staging : list N) : MB BackupArtifact :=
  key <- ok_or master_key (BackupValidation "database backup requires the configured master key") ;;
  row <- bsql (select (λ d, List.find (database_is id) (dt_databases (ht_databases (db_hosting d))))) ;;
  row <- ok_or row BackupNotFound ;;
  if negb (dbr_owner_id row =? owner) then throw BackupNotFound
  else
    password <- lift (result_map_err (λ _, BackupInternal "database credential decryption failed")
                        (decrypt_from_storage key (dbr_password_ciphertext row))) ;;
    let defaults := path_join staging (bytes (".mysql-" +:+ uuid_text id +:+ ".cnf")) in
    write_mysql_defaults defaults (dbr_db_user row) (dbr_db_host row) password ;;;
    let artifact_name := "database-" +:+ uuid_text id +:+ ".sql" in
    output <- run_mysqldump ["--defaults-extra-file=" +:+ of_bytes (to_utf8_lossy defaults);
                             "--single-transaction"; "--routines"; "--events"; "--databases"; dbr_name row] ;;
    attempt (fs_remove_file defaults) ;;;
    output <- ok_or output (BackupInternal "mysqldump is unavailable") ;;
    if negb output.1 then throw (BackupInternal "mysqldump failed")
    else
      write_synced (path_join staging (bytes artifact_name)) output.2 ;;;
      lift (validated (artifact_new (DatabaseDump id) artifact_name output.2)).

Definition capture_resource (plan : BackupPlan) (staging : list N) (resource : BackupResource) : MB BackupArtifact :=
  match resource with
  | PanelMetadata =>
      write_synced (path_join staging (bytes "panel.json")) panel_json ;;;
      lift (validated (artifact_new resource "panel.json" panel_json))
  | SiteFiles id =>
      row <- owned_site (bp_owner_id plan) id ;;
      let name := "site-" +:+ uuid_text id +:+ ".opfs" in
      stream_site_archive (bytes (si_document_root row)) (path_join staging (bytes name)) resource name
  | DatabaseDump id => capture_database (bp_owner_id plan) id staging
  end.

(** [capture] changes the run it is given, also when it fails. *)
Abbreviation MC A := (M (FilesWorld * BackupRunRec) BackupServiceError A).
Definition on_files {A} (c : MB A) : MC A := λ s,
  let '(r, w') := c s.1 in (r, (w', s.2)).
Definition on_run (f : BackupRunRec → result BackupRunRec BackupError) : MC unit := λ s,
  match f s.2 with
  | Ok run => (Ok tt, (s.1, run))
  | Err e => (Err (BackupValidation (backup_error_text e)), s)
  end.

Fixpoint capture_resources (plan : BackupPlan) (staging : list N) (resources : list BackupResource) : MC unit :=
  match resources with
  | [] => ret tt
  | resource :: rest =>
      artifact <- on_files (capture_resource plan staging resource) ;;
      on_run (add_artifact artifact) ;;;
      capture_resources plan staging rest
  end.

Definition capture (plan : BackupPlan) (staging final_dir : list N) : MC unit :=
  on_files (bio (create_dir_all staging)) ;;;
  capture_resources plan staging (bp_resources plan) ;;;
  run <- gets snd ;;
  t <- on_files (on_world now) ;;
  manifest <- lift (validated (manifest_new (br_id run) (br_artifacts run) t)) ;;
  on_files (bio (fs_write (path_join staging (bytes "manifest.json")) (manifest_json manifest))) ;;;
  on_run mark_finalized ;;;
  match path_parent final_dir with
  | Some parent => on_files (bio (create_dir_all parent))
  | None => ret tt
  end ;;;
  on_files (bio (fs_rename staging final_dir)) ;;;
  t <- on_files (on_world now) ;;
  on_run (backup_run_complete t).

Definition staging_dir (id : Uuid) : list N := path_join (path_join root STAGING) (bytes (uuid_text id)).
Definition run_dir (id : Uuid) : list N := path_join (path_join root RUNS) (bytes (uuid_text id)).

(** *** Deletion and retention *)

Definition delete_run (owner : Uuid) (all : bool) (id : Uuid) : MB unit :=
  run <- get_backup_run owner all id ;;
  if run_is_active run then throw (BackupValidation "active run cannot be deleted")
  else
    attempt (fs_remove_dir_all (run_dir id)) ;;;
    bsql (execute (on_part (λ t, set_backup_runs (delete_where (backup_run_is id) (bt_runs t)) t))).

Fixpoint delete_runs (owner : Uuid) (ids : list Uuid) : MB unit :=
  match ids with
  | [] => ret tt
  | id :: rest => delete_run owner false id ;;; delete_runs owner rest
  end.

Definition retention_candidate (sequence : nat) (run : BackupRunRec) : RetentionCandidate :=
  if bool_decide (br_state run = BackupCompleted)
  then candidate_completed (br_id run) (- Z.of_nat sequence) (br_pinned run)
  else candidate_active (br_id run) (- Z.of_nat sequence).
Definition retention_candidates (plan : Uuid) (runs : list BackupRunRec) : list RetentionCandidate :=
  imap retention_candidate (List.filter (λ r, br_plan_id r =? plan) runs).

Definition backup_apply_retention (plan : BackupPlan) : MB unit :=
  l <- backup_runs (bp_owner_id plan) false ;;
  delete_runs (bp_owner_id plan) (deletions (bp_retention plan) (retention_candidates (bp_id plan) l)).

Definition run_plan (owner : Uuid) (all : bool) (plan_id : Uuid) : MB BackupRunRec :=
  plan <- backup_plan owner all plan_id ;;
  t <- on_world now ;;
  id <- on_world fresh_uuid ;;
  run <- lift (validated (backup_run_start t (backup_run_new id plan_id (bp_owner_id plan) t))) ;;
  save_new_run run t ;;;
  let staging := staging_dir (br_id run) in
  captured <- (λ w, let '(r, (w', run')) := capture plan staging (run_dir (br_id run)) (w, run) in
                    (Ok (r, run'), w')) ;;
  let '(outcome, run) := captured in
  match outcome with
  | Err error =>
      attempt (fs_remove_dir_all staging) ;;;
      t <- on_world now ;;
      run <- lift (validated (backup_run_fail t "resource capture failed" run)) ;;
      save_run run ;;;
      throw error
  | Ok _ =>
      save_run run ;;;
      backup_audit owner BackupRun (br_id run) "completed" ;;;
      backup_apply_retention plan ;;;
      ret run
  end.

(** *** Verification and restore *)

Fixpoint verify_artifacts (dir : list N) (artifacts : list BackupArtifact) : MB bool :=
  match artifacts with
  | [] => ret true
  | a :: rest =>
      content <- bio (fs_read (path_join dir (bytes (art_path a)))) ;;
      if negb (artifact_verify a content) then ret false else verify_artifacts dir rest
  end.

Definition verify (owner : Uuid) (all : bool) (id : Uuid) : MB BackupRunRec :=
  run <- get_backup_run owner all id ;;
  if negb (bool_decide (br_state run = BackupCompleted)) then throw ArtifactCorrupt
  else
    intact <- verify_artifacts (run_dir id) (br_artifacts run) ;;
    if (intact : bool) then ret run
    else
      t <- on_world now ;;
      run <- lift (validated (mark_corrupt t run)) ;;
      save_run run ;;;
      throw ArtifactCorrupt.

(** [target.exists() && read_dir(&target)?.next().is_some()]. *)
Definition has_content (target : list N) : MB bool :=
  there <- exists_path target ;;
  if negb there then ret false
  else
    names <- bio (fs_read_dir target) ;;
    next <- try_run next_entry ;;
    ret (negb (is_ok next) || negb (bool_decide (names = []))).

Fixpoint restore_conflicts (owner : Uuid) (artifacts : list BackupArtifact) : MB (list string) :=
  match artifacts with
  | [] => ret []
  | a :: rest =>
      here <- match art_resource a with
              | SiteFiles id =>
                  row <- owned_site owner id ;;
                  conflict <- has_content (bytes (si_document_root row)) ;;
                  ret (if (conflict : bool) then ["site:" +:+ uuid_text id] else [])
              | _ => ret []
              end ;;
      others <- restore_conflicts owner rest ;;
      ret (here ++ others)%list
  end.

Definition restore_preview (owner : Uuid) (all : bool) (id : Uuid) : MB RestorePreview :=
  run <- verify owner all id ;;
  conflicts <- restore_conflicts (br_owner_id run) (br_artifacts run) ;;
  ret (mkPreview (bool_decide (length conflicts = 0%nat)) conflicts
         (foldr (λ a n, art_size a + n) 0 (br_artifacts run) mod 2 ^ 64)%Z).

Definition restore_site (owner run_id site_id : Uuid) (artifact : BackupArtifact) (job_id : Uuid)
    (overwrite : bool) : MB unit :=
  row <- owned_site owner site_id ;;
  let target := bytes (si_document_root row) in
  parent <- ok_or (path_parent target) (BackupValidation "site target has no parent") ;;
  let staging := path_join parent (bytes (".openpanel-restore-" +:+ uuid_text job_id)) in
  extract_site_archive (path_join (run_dir run_id) (bytes (art_path artifact))) staging ;;;
  let safety := path_join parent (bytes (".openpanel-safety-" +:+ uuid_text job_id)) in
  there <- exists_path target ;;
  (if (there : bool)
   then if overwrite then bio (fs_rename target safety) else bio (fs_remove_dir target)
   else ret tt) ;;;
  renamed <- try_run (fs_rename staging target) ;;
  match renamed with
  | Ok _ => ret tt
  | Err e =>
      saved <- exists_path safety ;;
      (if (saved : bool) then attempt (fs_rename safety target) ;;; ret tt else ret tt) ;;;
      throw (BackupInternal (errno_text e))
  end.

Fixpoint restore_artifacts (run : BackupRunRec) (job_id : Uuid) (overwrite : bool)
    (artifacts : list BackupArtifact) : MB unit :=
  match artifacts with
  | [] => ret tt
  | a :: rest =>
      match art_resource a with
      | PanelMetadata => ret tt
      | SiteFiles site => restore_site (br_owner_id run) (br_id run) site a job_id overwrite
      | DatabaseDump _ => throw (BackupValidation "database restore adapter is not available")
      end ;;;
      restore_artifacts run job_id overwrite rest
  end.

Definition is_selected (selected : list BackupResource) (a : BackupArtifact) : bool :=
  bool_decide (selected = []) || bool_decide (art_resource a ∈ selected).

Definition restore (owner : Uuid) (all : bool) (id : Uuid) (input : RestoreInput) : MB RestoreJob :=
  run <- verify owner all id ;;
  let overwrite := String.eqb (ri_conflict_policy input) "overwrite" in
  if negb (String.eqb (ri_conflict_policy input) "fail") && negb overwrite
  then throw (BackupValidation "conflict_policy must be fail or overwrite")
  else
    (if overwrite then
       if negb all then throw (BackupValidation "only an Owner may confirm overwrite")
       else lift (validated (overwrite_confirmation (default "" (ri_confirmation_token input)))) ;;; ret tt
     else ret tt) ;;;
    if existsb (λ selected, negb (existsb (λ a, bool_decide (art_resource a = selected)) (br_artifacts run)))
         (ri_resources input)
    then throw (BackupValidation "selected resource is not in this backup")
    else
      preview <- restore_preview owner all id ;;
      if negb (bool_decide (pv_conflicts preview = [])) && String.eqb (ri_conflict_policy input) "fail"
      then throw (BackupValidation "restore conflicts require explicit Owner overwrite confirmation")
      else
        job_id <- on_world fresh_uuid ;;
        restore_artifacts run job_id overwrite
          (List.filter (is_selected (ri_resources input)) (br_artifacts run)) ;;;
        t <- on_world now ;;
        bsql (statement (part_statement (insert_restore_job_row
          (mkRestoreJobRow job_id id owner "completed" t)))) ;;;
        backup_audit owner BackupRestore id "started" ;;;
        ret (mkRestoreJob job_id id "completed").

Definition cleanup_staging : MB unit :=
  let staging := path_join root STAGING in
  if path_starts_with staging root then attempt (fs_remove_dir_all staging) ;;; ret tt else ret tt.
End backup_service.
