(* ===== verification/BackupChanges.v ===== *)
(** * What the backup service does to its tables

    [backup_change] lists the changes one statement can make to the tables of plans, runs and
    restore jobs, with what is true when it runs.  Every operation of the service is a sequence
    of such changes, wherever statements and calls fail ([run_backup_moves]).  What happens to the plans is left
    open. *)
From S2P Require Import Prelude Text AuditActions AuditLog Accounts Paths CronJobs BackupRuns HostingTables Store Users Identity Secrets Remember Sites Staging StagingChanges Parts Databases FileSystem Files FileTree FilesSafety FilesTheorems BackupArchive Cron Backups.
Open Scope N_scope.

Abbreviation db_of w := (w_db (fw_world w)).
Abbreviation bt w := (ht_backups (db_hosting (w_db (fw_world w)))).

(** ** Changes *)

(** How the service writes over the run [r]: it ends the run it has just made, keeping what it was
    made for, or finds a completed run corrupt. *)
Inductive run_edge (fresh : Uuid → Prop) (r : BackupRunRec) : BackupRunRec → Prop :=
| EdgeEnds r' : fresh (br_id r) → br_state r = BackupRunning →
    br_id r' = br_id r → br_plan_id r' = br_plan_id r → br_owner_id r' = br_owner_id r →
    (br_state r' = BackupCompleted ∧ br_finalized r' = true ∧ br_artifacts r' ≠ []) ∨ br_state r' = BackupFailed →
    run_edge fresh r r'
| EdgeCorrupt t r' : mark_corrupt t r = Ok r' → run_edge fresh r r'.

(** [fresh] says which identifiers the operation drew for the run it made. *)
Inductive backup_change (fresh : Uuid → Prop) : relation BackupTables :=
| BcPlans l t : backup_change fresh t (set_backup_plans l t)
| BcRun id plan owner started run t : fresh id → existsb (backup_run_is id) (bt_runs t) = false →
    backup_run_start started (backup_run_new id plan owner started) = Ok run →
    backup_change fresh t (set_backup_runs (bt_runs t ++ [mkBackupRunRow id plan owner run started]) t)
| BcRunSet row run t : In row (bt_runs t) → run_edge fresh (brr_payload row) run →
    backup_change fresh t
      (set_backup_runs (update_where (backup_run_is (br_id run)) (backup_run_row_set run) (bt_runs t)) t)
| BcRunDrop row t : In row (bt_runs t) → run_is_active (brr_payload row) = false →
    backup_change fresh t
      (set_backup_runs (delete_where (backup_run_is (br_id (brr_payload row))) (bt_runs t)) t)
| BcJob j t : backup_change fresh t (set_restore_jobs (bt_restore_jobs t ++ [j]) t).

(** ** Calls that leave the database alone *)

(** They only let the world's clock and its draws go on. *)
Definition fforward : relation FilesWorld := λ w w', forward (fw_world w) (fw_world w').
#[export] Instance fforward_preorder : PreOrder fforward.
Proof. unfold fforward. split; repeat intro; [reflexivity | by etransitivity]. Qed.

Definition same_db : relation FilesWorld := λ w w', db_of w' = db_of w ∧ fforward w w'.
#[export] Instance same_db_preorder : PreOrder same_db.
Proof.
  unfold same_db. split; [intros w; by split|].
  intros w1 w2 w3 [E1 F1] [E2 F2]. split; [congruence | by transitivity w2].
Qed.

Section same_db.
Context `{Env} `{FsEnv}.

Lemma same_db_sys {A : Type} (partial : nat → FS → FS) (f : nat → FS → result A errno * FS) :
  within same_db (sys_partial partial f).
Proof.
  assert (∀ w fs, same_db w (fs_tick (with_fs fs w))) as Ht
    by (intros w fs; split; [done|]; apply (forward_tick (fw_world w))).
  intros w. unfold sys_partial. destruct (fs_fault _); [apply Ht|]. destruct (f _ _). apply Ht.
Qed.
Lemma same_db_tick {E A} (f : FilesWorld → result A E) : within same_db (λ w, (f w, fs_tick w)).
Proof. intros w. split; [done|]. apply (forward_tick (fw_world w)). Qed.
End same_db.

#[export] Hint Extern 1 (within same_db (fs_metadata _)) => apply same_db_sys : within.
#[export] Hint Extern 1 (within same_db (entry_metadata _)) => apply same_db_sys : within.
#[export] Hint Extern 1 (within same_db (fs_read _)) => apply same_db_sys : within.
#[export] Hint Extern 1 (within same_db (fs_read_dir _)) => apply same_db_sys : within.
#[export] Hint Extern 1 (within same_db next_entry) => apply same_db_sys : within.
#[export] Hint Extern 1 (within same_db (fs_write _ _)) => apply same_db_sys : within.
#[export] Hint Extern 1 (within same_db (fs_mkdir _)) => apply same_db_sys : within.
#[export] Hint Extern 1 (within same_db (fs_rename _ _)) => apply same_db_sys : within.
#[export] Hint Extern 1 (within same_db (fs_remove_file _)) => apply same_db_sys : within.
#[export] Hint Extern 1 (within same_db (fs_remove_dir _)) => apply same_db_sys : within.
#[export] Hint Extern 1 (within same_db (fs_remove_dir_all _)) => apply same_db_sys : within.
#[export] Hint Extern 1 (within same_db (fs_create_new _ _ _)) => apply same_db_sys : within.
#[export] Hint Extern 1 (within same_db fs_sync) => apply same_db_sys : within.
#[export] Hint Extern 1 (within same_db (walk_source _)) => apply same_db_tick : within.
#[export] Hint Extern 1 (within same_db (run_mysqldump _)) => apply same_db_tick : within.
#[export] Hint Extern 1 (within same_db read_current_exe) => apply same_db_tick : within.

Section calls.
Context `{Env} `{FsEnv} `{BackupEnv} `{Vault} `{CookieCrypto}.

Lemma same_db_exists {E} p : within same_db (exists_path (E:=E) p) ∧ within same_db (is_dir_path (E:=E) p).
Proof. unfold exists_path, is_dir_path. split; within_tac. Qed.
Lemma same_db_dirs cs : within same_db (create_dirs cs).
Proof.
  induction cs as [|c cs IH]; cbn [create_dirs]; [within_tac|]. cbn zeta.
  pose proof (λ p, proj2 (same_db_exists (E:=errno) p)). within_tac.
Qed.
Lemma same_db_archive source l : within same_db (archive_files source l).
Proof. induction l as [|[[p []]|] l IH]; cbn [archive_files]; unfold bio; within_tac. Qed.
Lemma same_db_stream source target resource name : within same_db (stream_site_archive source target resource name).
Proof.
  pose proof same_db_archive. pose proof (λ p, proj2 (same_db_exists (E:=BackupServiceError) p)).
  unfold stream_site_archive, write_synced, bio. within_tac.
Qed.
Lemma same_db_extract_files fuel staging input : within same_db (extract_files fuel staging input).
Proof.
  revert input. induction fuel as [|fuel IH]; intros input; cbn [extract_files]; [within_tac|]. unfold bio, create_dir_all.
  pose proof same_db_dirs. within_tac.
Qed.
Lemma same_db_extract archive staging : within same_db (extract_site_archive archive staging).
Proof. pose proof same_db_extract_files. pose proof same_db_dirs. unfold extract_site_archive, bio, create_dir_all. within_tac. Qed.
End calls.

(** ** Sequences of changes *)

(** An identifier that [Uuid::new_v4] gives from step [n] on. *)
Definition drawn `{Env} (n : nat) (id : Uuid) : Prop := ∃ k, (n ≤ k)%nat ∧ new_v4 k = id.
Definition fmoves `{Env} (n : nat) : relation FilesWorld := λ w w',
  (n ≤ w_step (fw_world w))%nat → fforward w w' ∧ rtc (backup_change (drawn n)) (bt w) (bt w').
#[export] Instance fmoves_preorder `{Env} n : PreOrder (fmoves n).
Proof.
  unfold fmoves. split; [intros w; by split|].
  intros w1 w2 w3 M12 M23 Hn. destruct (M12 Hn) as [F1 M1].
  destruct M23 as [F2 M2]; [unfold fforward, forward in F1; lia|]. by split; [transitivity w2 | transitivity (bt w2)].
Qed.

Section moves.
Context `{Env} `{FsEnv} (n : nat).

Lemma fmoves_stays w w' : fforward w w' → bt w' = bt w → fmoves n w w'.
Proof. intros Hf Hb _. split; [done|]. by rewrite Hb. Qed.
(** An operation may be followed from a state that is late enough. *)
Lemma fmoves_late w w' : ((n ≤ w_step (fw_world w))%nat → fmoves n w w') → fmoves n w w'.
Proof. intros Hm Hn. by apply Hm. Qed.
Lemma fforward_world {E A} (c : M World E A) : within forward c → within fforward (on_world c).
Proof. intros Hc w. specialize (Hc (fw_world w)). unfold on_world, fforward. by destruct (c (fw_world w)). Qed.

Lemma fmoves_same {E A} (c : M FilesWorld E A) : within same_db c → within (fmoves n) c.
Proof. intros Hc w. destruct (Hc w) as [Hd Hf]. apply fmoves_stays; [done|]. by rewrite Hd. Qed.
Lemma fmoves_world {E A} (c : M World E A) :
  within forward c → within (moves (backup_change (drawn n))) c → within (fmoves n) (on_world c).
Proof.
  intros Hf Hc w _. split; [by apply fforward_world|]. specialize (Hc (fw_world w)).
  unfold on_world. by destruct (c (fw_world w)).
Qed.
Lemma fmoves_kept {E A} (c : M World E A) :
  within forward c → within (on_db (on_tables (same ht_backups))) c → within (fmoves n) (on_world c).
Proof.
  intros Hf Hc w. apply fmoves_stays; [by apply fforward_world|]. specialize (Hc (fw_world w)).
  unfold on_world. unfold on_db, on_tables, same in Hc. by destruct (c (fw_world w)).
Qed.
Lemma same_db_world {E A} (c : M World E A) : within forward c → within (on_db eq) c → within same_db (on_world c).
Proof.
  intros Hf Hc w. split; [|by apply fforward_world]. specialize (Hc (fw_world w)). unfold on_world.
  destruct (c (fw_world w)). cbn in *. by rewrite Hc.
Qed.

Lemma same_db_at {E A} (c : M FilesWorld E A) w r w' : within same_db c → c w = (r, w') → db_of w' = db_of w.
Proof. intros Hc E'. specialize (Hc w). rewrite E' in Hc. apply Hc. Qed.

Lemma same_db_forward {E A} (c : M FilesWorld E A) w r w' : within same_db c → c w = (r, w') → fforward w w'.
Proof. intros Hc E'. specialize (Hc w). rewrite E' in Hc. apply Hc. Qed.

Lemma same_db_select {A} (f : Db → A) : within same_db (bsql (select f)).
Proof. apply within_map_err, same_db_world; [apply forward_select | apply on_db_select, _]. Qed.
Lemma same_db_now {E} : within same_db (on_world (now (E:=E))).
Proof. apply same_db_world; [apply forward_now | apply on_db_now, _]. Qed.
Lemma same_db_fresh {E} : within same_db (on_world (fresh_uuid (E:=E))).
Proof. apply same_db_world; [apply forward_fresh_uuid | apply on_db_fresh_uuid, _]. Qed.
Lemma fmoves_now {E} : within (fmoves n) (on_world (now (E:=E))).
Proof. apply fmoves_same, same_db_now. Qed.
Lemma fmoves_fresh {E} : within (fmoves n) (on_world (fresh_uuid (E:=E))).
Proof. apply fmoves_same, same_db_fresh. Qed.

Lemma fmoves_audit actor action target operation : within (fmoves n) (backup_audit actor action target operation).
Proof. unfold backup_audit. apply fmoves_kept; [apply forward_audit|]. apply on_db_audit; apply _. Qed.
Lemma fmoves_plans (f : BackupTables → list BackupPlanRow) :
  within (fmoves n) (bsql (execute (on_part (λ t, set_backup_plans (f t) t)))).
Proof. apply within_map_err, fmoves_world; [apply forward_execute|]. intros w. apply moves_execute, rtc_once, BcPlans. Qed.

Lemma bsql_select_run {A} (f : Db → A) w a w' :
  bsql (select f) w = (Ok a, w') → a = f (db_of w) ∧ counted w w'.
Proof.
  unfold bsql. intros Hr%map_err_ok. unfold on_world in Hr.
  destruct (select _ (fw_world w)) as [r v] eqn:E. injection Hr as -> <-.
  unfold select, statement in E. destruct (sql_fault _); [done|]. by injection E as <- <-.
Qed.
Lemma select_files_run {A} (f : BackupTables → A) w a w' :
  backup_select f w = (Ok a, w') → a = f (bt w) ∧ counted w w'.
Proof. apply bsql_select_run. Qed.

Lemma fmoves_save_run row run w :
  In row (bt_runs (bt w)) → run_edge (drawn n) (brr_payload row) run → fmoves n w (save_run run w).2.
Proof.
  intros Hin He. unfold save_run, bsql. apply (map_err_at (fmoves n)).
  intros _. split; [apply fforward_world, forward_execute|]. unfold on_world.
  pose proof (moves_execute (backup_change (drawn n)) (λ t, set_backup_runs
    (update_where (backup_run_is (br_id run)) (backup_run_row_set run) (bt_runs t)) t) (fw_world w)) as Hm.
  destruct (execute _ _) as [r w1]. cbn in *. apply Hm. by eapply rtc_once, BcRunSet.
Qed.

Lemma backup_run_ok owner all id w run w' :
  get_backup_run owner all id w = (Ok run, w') →
  db_of w' = db_of w ∧ br_id run = id
  ∧ ∃ row, In row (bt_runs (bt w)) ∧ brr_payload row = run ∧ (all = false → brr_owner_id row = owner).
Proof.
  unfold get_backup_run, backup_runs. intros Hr. inv_bind Hr. apply select_files_run in R as [-> [_ Hd]].
  apply ok_or_ok in Hr as [Hf ->]. apply find_some in Hf as [Hin Hid%N.eqb_eq]. split_and!; [done..|].
  apply in_map_iff in Hin as (row & Hp & Hin). exists row.
  rewrite <- list_elem_of_In, merge_sort_Permutation, list_elem_of_In in Hin. destruct all.
  - split_and!; done.
  - unfold select_where in Hin. apply filter_In in Hin as [? ?%N.eqb_eq]. split_and!; done.
Qed.
End moves.

(** ** Capturing *)

(** A run that is being captured: running, or completed with what it has captured. *)
Definition run_good (r : BackupRunRec) : Prop :=
  (br_state r = BackupRunning ∧ (br_finalized r = true → br_artifacts r ≠ []))
  ∨ (br_state r = BackupCompleted ∧ br_finalized r = true ∧ br_artifacts r ≠ []).
Definition run_same (r r' : BackupRunRec) : Prop :=
  br_id r' = br_id r ∧ br_plan_id r' = br_plan_id r ∧ br_owner_id r' = br_owner_id r.
Definition captures : relation (FilesWorld * BackupRunRec) := λ s s',
  same_db s.1 s'.1 ∧ run_same s.2 s'.2 ∧ (run_good s.2 → run_good s'.2).
#[export] Instance captures_preorder : PreOrder captures.
Proof.
  unfold captures, run_same. split; [by intros s|]. intros [] [] [] (?&(?&?&?)&?) (?&(?&?&?)&?); cbn in *.
  split_and!; [by etransitivity|congruence..|auto].
Qed.

Section capture.
Context `{Env} `{FsEnv} `{BackupEnv} `{Vault} `{CookieCrypto} (master_key : option (list N)).

Lemma captures_files {A} (c : M FilesWorld BackupServiceError A) : within same_db c → within captures (on_files c).
Proof.
  intros Hc [w r]. specialize (Hc w). unfold on_files, captures. cbn. destruct (c w). cbn in *. by split_and!.
Qed.
Lemma captures_run f : (∀ r r', f r = Ok r' → run_same r r' ∧ (run_good r → run_good r')) → within captures (on_run f).
Proof. intros Hf [w r]. unfold on_run. cbn. destruct (f r) as [r'|] eqn:E; [|reflexivity]. by split; [|apply Hf]. Qed.

Lemma captures_add a : within captures (on_run (add_artifact a)).
Proof.
  apply captures_run. intros r r'. unfold add_artifact. destruct (_ && _) eqn:E; [|done]. intros [= <-].
  split; [by split_and!|]. unfold run_good. cbn. intros [[? _]|(? & ? & _)]; 
    assert (br_artifacts r ++ [a] ≠ []) by (by intros [_ ?]%app_nil); [left | right]; by split_and!.
Qed.
Lemma captures_finalized : within captures (on_run mark_finalized).
Proof.
  apply captures_run. intros r r'. unfold mark_finalized. destruct (_ && _) eqn:E; [|done]. intros [= <-].
  apply andb_true_iff in E as [_ Hn]. apply negb_true_iff, bool_decide_eq_false in Hn.
  assert (br_artifacts r ≠ []) by (by intros Ha; rewrite Ha in Hn).
  split; [by split_and!|]. unfold run_good. cbn. intros [[? _]|(? & ? & _)]; [left | right]; by split_and!.
Qed.
Lemma captures_complete t : within captures (on_run (backup_run_complete t)).
Proof.
  apply captures_run. intros r r'. unfold backup_run_complete. destruct (_ && _) eqn:E; [|done]. intros [= <-].
  apply andb_true_iff in E as [Hs Hf]. apply bool_decide_eq_true in Hs.
  split; [by split_and!|]. unfold run_good. cbn. intros [[? Ha]|(Hc & _)]; [right; by split_and!; [|done|apply Ha] | congruence].
Qed.

Lemma same_db_owned_site owner id : within same_db (owned_site owner id).
Proof. unfold owned_site. pose proof (λ A, same_db_select (A:=A)). within_tac. Qed.
Lemma same_db_resource plan staging resource : within same_db (capture_resource master_key plan staging resource).
Proof.
  pose proof same_db_owned_site. pose proof same_db_stream. pose proof (λ A, same_db_select (A:=A)).
  destruct resource; cbn [capture_resource]; unfold capture_database, write_mysql_defaults, write_synced, bio; within_tac.
Qed.
Lemma captures_resources plan staging l : within captures (capture_resources master_key plan staging l).
Proof.
  induction l as [|resource l IH]; cbn [capture_resources]; [within_tac|].
  pose proof (captures_files _ (same_db_resource plan staging resource)). pose proof captures_add. within_tac.
Qed.
Lemma captures_capture plan staging final : within captures (capture master_key plan staging final).
Proof.
  unfold capture. pose proof captures_resources. pose proof captures_finalized. pose proof captures_complete.
  assert (∀ A (c : M FilesWorld errno A), within same_db c → within captures (on_files (bio c))) as Hb
    by (intros A c Hc; by apply captures_files, within_map_err).
  pose proof (captures_files _ same_db_now).
  assert (∀ p, within captures (on_files (bio (create_dir_all p)))) by (intros p; apply Hb, same_db_dirs).
  assert (∀ p b, within captures (on_files (bio (fs_write p b)))) by (intros p b; apply Hb, same_db_sys).
  assert (∀ p q, within captures (on_files (bio (fs_rename p q)))) by (intros p q; apply Hb, same_db_sys).
  within_tac.
Qed.

Lemma capture_completed plan staging final s s' :
  capture master_key plan staging final s = (Ok tt, s') → br_state s'.2 = BackupCompleted.
Proof.
  unfold capture. intros Hr. do 10 (inv_bind Hr). unfold on_run, backup_run_complete in Hr.
  destruct (_ && _); [|done]. by injection Hr as <-.
Qed.
End capture.

(** ** The operations *)

Inductive BackupOp : Type :=
| OpCreatePlan (owner : Uuid) (input : BackupPlanInput)
| OpUpdatePlan (owner : Uuid) (all : bool) (id : Uuid) (update : BackupPlanUpdate)
| OpEnablePlan (owner : Uuid) (all : bool) (id : Uuid) (enabled : bool)
| OpDeletePlan (owner : Uuid) (all : bool) (id : Uuid)
| OpRunPlan (owner : Uuid) (all : bool) (id : Uuid)
| OpVerify (owner : Uuid) (all : bool) (id : Uuid)
| OpPreview (owner : Uuid) (all : bool) (id : Uuid)
| OpRestore (owner : Uuid) (all : bool) (id : Uuid) (input : RestoreInput)
| OpDeleteRun (owner : Uuid) (all : bool) (id : Uuid)
| OpCleanup.

Section operations.
Context `{Env} `{FsEnv} `{BackupEnv} `{Scheduler} `{Vault} `{CookieCrypto}.
Variables (root : list N) (master_key : option (list N)) (cron : option (list N)) (allowed_roots : list (list N)).
Variable (n : nat).

Definition run_backup (op : BackupOp) (w : FilesWorld) : FilesWorld :=
  match op with
  | OpCreatePlan owner input => (backup_create_plan cron allowed_roots owner input w).2
  | OpUpdatePlan owner all id update => (backup_update_plan owner all id update w).2
  | OpEnablePlan owner all id enabled => (backup_set_enabled cron owner all id enabled w).2
  | OpDeletePlan owner all id => (backup_delete_plan cron owner all id w).2
  | OpRunPlan owner all id => (run_plan root master_key owner all id w).2
  | OpVerify owner all id => (verify root owner all id w).2
  | OpPreview owner all id => (restore_preview root owner all id w).2
  | OpRestore owner all id input => (restore root owner all id input w).2
  | OpDeleteRun owner all id => (delete_run root owner all id w).2
  | OpCleanup => (cleanup_staging root w).2
  end.

(** The cron jobs are in other tables. *)
Abbreviation Kept := (on_db (on_tables (same ht_backups))).
Lemma kept_execute f : (∀ h, ht_backups (f h) = ht_backups h) → within Kept (execute (on_hosting f)).
Proof. intros Hf. apply on_db_execute; [apply _|]. intros d. exact (Hf _). Qed.
Lemma fmoves_cron_create owner input : within (fmoves n) (on_world (cron_create allowed_roots owner input)).
Proof.
  assert (∀ r, within Kept (statement (hosting_statement (insert_job_row r)))) as Hi.
  { intros r. apply on_db_statement; [apply _|]. intros d [] d' Hs. unfold hosting_statement, insert_job_row in Hs.
    destruct (existsb _ _); [done|]. by injection Hs as <-. }
  unfold cron_create, build, cron_check, cron_db, audit_change. apply fmoves_kept; within_tac.
Qed.
Lemma fmoves_cron_enabled owner all job enabled : within (fmoves n) (on_world (set_enabled owner all job enabled)).
Proof.
  assert (∀ j, within Kept (save j)) by (intros j; unfold save, cron_db; by apply within_map_err, kept_execute).
  unfold set_enabled, cron_get, cron_select, cron_check, cron_db, audit_change.
  apply fmoves_kept; [unfold save, cron_db; within_tac | within_tac].
Qed.
Lemma fmoves_cron_delete owner all job : within (fmoves n) (on_world (cron_delete owner all job)).
Proof.
  unfold cron_delete, cron_get, cron_select, cron_db, audit_change. apply fmoves_kept; within_tac. apply kept_execute.
  intros h. unfold delete_job_rows. by destruct (existsb _ _).
Qed.

(** *** Runs *)

Lemma same_db_verify dir l : within same_db (verify_artifacts dir l).
Proof. induction l as [|a l IH]; cbn [verify_artifacts]; unfold bio; within_tac. Qed.
Lemma same_db_backup_run owner all id : within same_db (get_backup_run owner all id).
Proof. unfold get_backup_run, backup_runs, backup_select. pose proof (λ A, same_db_select (A:=A)). within_tac. Qed.

Lemma fmoves_verify owner all id : within (fmoves n) (verify root owner all id).
Proof.
  intros w. unfold verify. apply (bind_at (fmoves n)); [apply fmoves_same, same_db_backup_run|]. intros run w1 E1.
  apply backup_run_ok in E1 as (Hd1 & _ & row & Hin & Hp & _).
  destruct (negb _); [by apply (within_throw (fmoves n))|].
  apply (bind_at (fmoves n)); [apply fmoves_same, same_db_verify|]. intros intact w2 E2.
  apply (same_db_at _ _ _ _ (same_db_verify _ _)) in E2. destruct intact; [by apply (within_ret (fmoves n))|].
  apply (bind_at (fmoves n)); [apply fmoves_now|]. intros t w3 E3. apply (same_db_at _ _ _ _ same_db_now) in E3.
  apply (bind_at (fmoves n)); [apply (within_lift (fmoves n))|]. intros run' w4 [Hc%result_map_err_ok ->]%lift_ok.
  apply (bind_at (fmoves n)); [|intros; by apply (within_throw (fmoves n))].
  eapply fmoves_save_run; [rewrite E3, E2, Hd1; exact Hin|]. rewrite Hp. by eapply EdgeCorrupt.
Qed.

Lemma fmoves_delete_run owner all id : within (fmoves n) (delete_run root owner all id).
Proof.
  intros w. unfold delete_run. apply (bind_at (fmoves n)); [apply fmoves_same, same_db_backup_run|]. intros run w1 E1.
  apply backup_run_ok in E1 as (Hd1 & Hid & row & Hin & Hp & _).
  destruct (run_is_active run) eqn:Ha; [by apply (within_throw (fmoves n))|].
  apply (bind_at (fmoves n)); [by apply fmoves_same, within_attempt, same_db_sys|]. intros o w2 E2.
  apply (same_db_at _ _ _ _ (within_attempt _ _ (same_db_sys _ _))) in E2.
  apply (map_err_at (fmoves n)). intros _. split; [apply fforward_world, forward_execute|]. unfold on_world.
  pose proof (moves_execute (backup_change (drawn n)) (λ t, set_backup_runs (delete_where (backup_run_is id) (bt_runs t)) t) (fw_world w2)) as Hm.
  destruct (execute _ _) as [r w3]. cbn in *. apply Hm, rtc_once. rewrite E2, Hd1, <- Hid, <- Hp. apply BcRunDrop; [done|].
  by rewrite Hp.
Qed.

Lemma fmoves_retention plan : within (fmoves n) (backup_apply_retention root plan).
Proof.
  assert (∀ owner ids, within (fmoves n) (delete_runs root owner ids)) as Hd.
  { intros owner. pose proof fmoves_delete_run. induction ids as [|id ids IH]; cbn [delete_runs]; within_tac. }
  unfold backup_apply_retention, backup_runs, backup_select.
  pose proof (λ A f, fmoves_same n _ (same_db_select (A:=A) f)). within_tac.
Qed.

(** What the service knows of the run it has just stored. *)
Lemma save_new_run_ok run t w w' :
  save_new_run run t w = (Ok tt, w') →
  existsb (backup_run_is (br_id run)) (bt_runs (bt w)) = false
  ∧ bt w' = set_backup_runs (bt_runs (bt w) ++ [mkBackupRunRow (br_id run) (br_plan_id run) (br_owner_id run) run t]) (bt w).
Proof.
  unfold save_new_run, bsql. intros Hr%map_err_ok. unfold on_world in Hr.
  destruct (statement _ _) as [r w1] eqn:E. injection Hr as -> <-. cbn.
  apply part_statement_run in E as [E _]. unfold insert_backup_run_row in E. cbn [brr_id] in E.
  destruct (existsb _ _); [done|]. injection E as E. by rewrite <- E.
Qed.
Lemma save_new_run_err run t w e w' : save_new_run run t w = (Err e, w') → bt w' = bt w.
Proof.
  unfold save_new_run, bsql, map_err, on_world. destruct (statement _ _) as [r w1] eqn:E. destruct r; [done|].
  intros [= _ <-]. cbn. by apply statement_err in E as ->.
Qed.

Lemma same_db_backup_plan owner all id : within same_db (backup_plan owner all id).
Proof. unfold backup_plan, backup_select. pose proof (λ A, same_db_select (A:=A)). within_tac. Qed.

Lemma fforward_new_run run t : within fforward (save_new_run run t).
Proof. apply within_map_err, fforward_world, forward_statement. Qed.
Lemma fmoves_run_plan owner all id : within (fmoves n) (run_plan root master_key owner all id).
Proof.
  intros w. apply fmoves_late. intros Hn. unfold run_plan.
  apply (bind_at (fmoves n)); [apply fmoves_same, same_db_backup_plan|].
  intros plan w1 E1. apply (same_db_forward _ _ _ _ (same_db_backup_plan _ _ _)) in E1.
  apply (bind_at (fmoves n)); [apply fmoves_now|]. intros t w2 E2. apply (same_db_forward _ _ _ _ same_db_now) in E2.
  apply (bind_at (fmoves n)); [apply fmoves_fresh|]. intros rid w3 Hdrawn.
  assert (drawn n rid) as Hfr.
  { injection Hdrawn as <- _. exists (w_step (fw_world w2)). unfold fforward, forward in *. split; [lia|done]. }
  clear Hdrawn E1 E2.
  apply (bind_at (fmoves n)); [apply (within_lift (fmoves n))|]. intros run w4 [Hs%result_map_err_ok ->]%lift_ok.
  assert (br_id run = rid ∧ br_plan_id run = id ∧ br_owner_id run = bp_owner_id plan ∧ br_state run = BackupRunning
          ∧ run_good run) as (Hi & Hpl & Ho & Hst & Hg).
  { cbn in Hs. injection Hs as <-. split_and!; try done. by left. }
  destruct (save_new_run run t w3) as [[[]|e] w5] eqn:E5.
  all: pose proof (fforward_new_run run t w3) as Hf5; rewrite E5 in Hf5; cbn [snd] in Hf5.
  2:{ apply save_new_run_err in E5 as Hb. unfold bind. rewrite E5. by apply fmoves_stays. }
  apply save_new_run_ok in E5 as Hb. destruct Hb as [Hfresh Hb]. rewrite (bind_run _ _ _ _ _ E5).
  transitivity w5.
  { intros _. split; [done|]. rewrite Hb. apply rtc_once. rewrite Hi, Hpl, Ho in *. by apply BcRun. }
  assert (In (mkBackupRunRow (br_id run) (br_plan_id run) (br_owner_id run) run t) (bt_runs (bt w5))) as Hin
    by (rewrite Hb; apply in_app_iff; right; by left).
  unfold bind at 1. cbn zeta.
  destruct (capture master_key plan (staging_dir root (br_id run)) (run_dir root (br_id run)) (w5, run)) as [res [w6 run6]] eqn:E6.
  pose proof (captures_capture master_key plan (staging_dir root (br_id run)) (run_dir root (br_id run)) (w5, run)) as Hc.
  rewrite E6 in Hc. destruct Hc as ([Hd Hf6] & (Hi6 & Hp6 & Ho6) & Hg6). cbn [fst snd] in *. specialize (Hg6 Hg).
  transitivity w6; [apply fmoves_stays; [done | by rewrite Hd]|].
  destruct res as [[]|e].
  - apply capture_completed in E6. cbn [snd] in E6. apply (bind_at (fmoves n)).
    + eapply fmoves_save_run; [rewrite Hd; exact Hin|]. apply EdgeEnds; try done; [by rewrite <- Hi in Hfr|]. left.
      destruct Hg6 as [[? _]|(? & ? & ?)]; [congruence | by split_and!].
    + intros _ w7 _. apply (bind_at (fmoves n)); [apply fmoves_audit|]. intros _ w8 _.
      apply (bind_at (fmoves n)); [apply fmoves_retention|]. intros; by apply (within_ret (fmoves n)).
  - apply (bind_at (fmoves n)); [by apply fmoves_same, within_attempt, same_db_sys|]. intros o w7 E7.
    apply (same_db_at _ _ _ _ (within_attempt _ _ (same_db_sys _ _))) in E7.
    apply (bind_at (fmoves n)); [apply fmoves_now|]. intros t' w8 E8. apply (same_db_at _ _ _ _ same_db_now) in E8.
    apply (bind_at (fmoves n)); [apply (within_lift (fmoves n))|]. intros run9 w9 [Hf%result_map_err_ok ->]%lift_ok.
    apply (bind_at (fmoves n)); [|intros; by apply (within_throw (fmoves n))].
    eapply fmoves_save_run; [rewrite E8, E7, Hd; exact Hin|]. unfold backup_run_fail in Hf.
    destruct (run_is_active run6); [|done]. injection Hf as <-. apply EdgeEnds; try done; [by rewrite <- Hi in Hfr|]. by right.
Qed.

(** *** Plans and restores *)

Lemma fmoves_insert_plan r : within (fmoves n) (bsql (statement (part_statement (insert_backup_plan_row r)))).
Proof.
  apply within_map_err, fmoves_world; [apply forward_statement|]. intros w. apply moves_statement. intros [] t. unfold insert_backup_plan_row.
  destruct (existsb _ _); [done|]. intros [= <-]. apply rtc_once, BcPlans.
Qed.
Lemma fmoves_insert_job r : within (fmoves n) (bsql (statement (part_statement (insert_restore_job_row r)))).
Proof.
  apply within_map_err, fmoves_world; [apply forward_statement|]. intros w. apply moves_statement. intros [] t. unfold insert_restore_job_row.
  destruct (existsb _ _); [done|]. intros [= <-]. apply rtc_once, BcJob.
Qed.

Lemma fmoves_backup_plan owner all id : within (fmoves n) (backup_plan owner all id).
Proof. apply fmoves_same, same_db_backup_plan. Qed.
Lemma fmoves_save_plan p : within (fmoves n) (save_plan p).
Proof. apply fmoves_plans. Qed.
Lemma fmoves_current_exe : within (fmoves n) read_current_exe.
Proof. apply fmoves_same, same_db_tick. Qed.
Hint Resolve fmoves_insert_plan fmoves_insert_job fmoves_audit fmoves_now fmoves_fresh fmoves_plans fmoves_backup_plan
  fmoves_save_plan fmoves_current_exe fmoves_cron_create fmoves_cron_enabled fmoves_cron_delete : within.

Lemma fmoves_create_plan owner input : within (fmoves n) (backup_create_plan cron allowed_roots owner input).
Proof. unfold backup_create_plan. within_tac. Qed.
Lemma fmoves_update_plan owner all id update : within (fmoves n) (backup_update_plan owner all id update).
Proof. unfold backup_update_plan. within_tac. Qed.
Lemma fmoves_set_enabled owner all id enabled : within (fmoves n) (backup_set_enabled cron owner all id enabled).
Proof. unfold backup_set_enabled. cbn zeta. within_tac. Qed.
Lemma fmoves_delete_plan owner all id : within (fmoves n) (backup_delete_plan cron owner all id).
Proof. unfold backup_delete_plan. within_tac. Qed.

Lemma same_db_content target : within same_db (has_content target).
Proof. unfold has_content, bio. pose proof (λ p, proj1 (same_db_exists (E:=BackupServiceError) p)). within_tac. Qed.
Lemma same_db_conflicts owner l : within same_db (restore_conflicts owner l).
Proof.
  pose proof same_db_content. pose proof same_db_owned_site. induction l as [|a l IH]; cbn [restore_conflicts]; within_tac.
Qed.
Lemma same_db_restore_site owner run site a job overwrite : within same_db (restore_site root owner run site a job overwrite).
Proof.
  pose proof same_db_owned_site. pose proof same_db_extract. pose proof (λ p, proj1 (same_db_exists (E:=BackupServiceError) p)).
  unfold restore_site, bio. cbn zeta. within_tac.
Qed.
Lemma same_db_restore_artifacts run job overwrite l : within same_db (restore_artifacts root run job overwrite l).
Proof.
  pose proof same_db_restore_site. induction l as [|a l IH]; cbn [restore_artifacts]; within_tac.
Qed.

Lemma fmoves_preview owner all id : within (fmoves n) (restore_preview root owner all id).
Proof.
  unfold restore_preview. pose proof fmoves_verify. pose proof (λ o l, fmoves_same n _ (same_db_conflicts o l)). within_tac.
Qed.
Lemma fmoves_restore owner all id input : within (fmoves n) (restore root owner all id input).
Proof.
  unfold restore. cbn zeta. pose proof fmoves_verify. pose proof fmoves_preview.
  pose proof (λ r j o l, fmoves_same n _ (same_db_restore_artifacts r j o l)). within_tac.
Qed.

(** Every operation is a sequence of changes. *)
Lemma run_backup_moves op w : fmoves n w (run_backup op w).
Proof.
  destruct op; cbn [run_backup].
  - apply fmoves_create_plan.
  - apply fmoves_update_plan.
  - apply fmoves_set_enabled.
  - apply fmoves_delete_plan.
  - apply fmoves_run_plan.
  - apply fmoves_verify.
  - apply fmoves_preview.
  - apply fmoves_restore.
  - apply fmoves_delete_run.
  - unfold cleanup_staging. cbn zeta. destruct (path_starts_with _ _); [|by apply (within_ret (fmoves n))].
    apply (bind_at (fmoves n)); [by apply fmoves_same, within_attempt, same_db_sys|]. intros; by apply (within_ret (fmoves n)).
Qed.
End operations.
