(* ===== verification/BackupTheorems.v ===== *)
(** * Properties of the backup service

    The life of a run, what a retention policy deletes, what a restore has checked before it
    touches a file, and a plan that cannot be deleted. *)
From S2P Require Import Prelude Text AuditActions AuditLog Accounts Paths CronJobs BackupRuns HostingTables Store Users Identity Secrets Remember Sites Staging StagingChanges Parts Databases FileSystem Files FileTree FilesSafety FilesTheorems BackupArchive Cron Backups BackupChanges.
Open Scope N_scope.

(** ** The life of a run *)

(** What the columns and the payload of a run agree on, and what its state says of it. *)
Definition backup_row_ok (r : BackupRunRow) : Prop :=
  let p := brr_payload r in
  brr_id r = br_id p ∧ brr_plan_id r = br_plan_id p ∧ brr_owner_id r = br_owner_id p
  ∧ match br_state p with
    | BackupRunning | BackupFailed => True
    | BackupCompleted | BackupCorrupt => br_finalized p = true ∧ br_artifacts p ≠ []
    | BackupPending | BackupCancelled => False
    end.
Definition runs_wf (t : BackupTables) : Prop :=
  NoDup (map brr_id (bt_runs t)) ∧ ∀ r, In r (bt_runs t) → backup_row_ok r.

(** What may become of the row [r]: nothing while its run is active; once the run has ended it may
    be found corrupt or be deleted. *)
Definition row_fate (r : BackupRunRow) (t : BackupTables) : Prop :=
  In r (bt_runs t)
  ∨ (run_is_active (brr_payload r) = false
     ∧ ((∃ now p, mark_corrupt now (brr_payload r) = Ok p ∧ In (backup_run_row_set p r) (bt_runs t))
        ∨ ∀ x, In x (bt_runs t) → brr_id x ≠ brr_id r)).

Lemma run_edge_same fresh r r' :
  run_edge fresh r r' →
  br_id r' = br_id r ∧ br_plan_id r' = br_plan_id r ∧ br_owner_id r' = br_owner_id r.
Proof.
  intros [|t r'' E]; [done|]. unfold mark_corrupt in E. case_bool_decide; [|done]. by injection E as <-.
Qed.

Lemma run_edge_ok fresh x p :
  backup_row_ok x → run_edge fresh (brr_payload x) p → backup_row_ok (backup_run_row_set p x).
Proof.
  intros (H1 & H2 & H3 & H4) He. pose proof (run_edge_same _ _ _ He) as (E1 & E2 & E3).
  unfold backup_row_ok. cbn. rewrite H1, H2, H3, E1, E2, E3. split_and!; try done.
  destruct He as [p _ _ _ _ _ [(-> & Hf & Ha)| ->]|t p E]; [done | done|].
  unfold mark_corrupt in E. case_bool_decide as Hc; [|done]. injection E as <-. cbn. by rewrite Hc in H4.
Qed.

Lemma backup_change_wf fresh t t' : backup_change fresh t t' → runs_wf t → runs_wf t'.
Proof.
  intros Hc [Hn Hr]. unfold runs_wf.
  destruct Hc as [l t|id plan owner started run t Hf Hid Hs|row run t Hin He|row t Hin Ha|j t]; cbn [set_backup_plans set_backup_runs
    set_restore_jobs bt_runs]; try done.
  - split.
    + rewrite map_app. apply NoDup_app. split_and!; [done| |apply NoDup_singleton]. cbn. intros x Hx Hx'.
      apply list_elem_of_singleton in Hx' as ->. apply list_elem_of_In, in_map_iff in Hx as (r & Hri & Hr').
      rewrite existsb_false in Hid. specialize (Hid r Hr'). unfold backup_run_is in Hid. apply N.eqb_neq in Hid. done.
    + intros r [Hr'|[<-|[]]]%in_app_iff; [by apply Hr|]. cbn in Hs. injection Hs as <-. done.
  - split.
    + by rewrite update_where_key.
    + intros r (r0 & Hr0 & ->)%update_where_In. unfold backup_run_is. destruct (N.eqb_spec (brr_id r0) (br_id run)) as [E|]; [|by apply Hr].
      apply run_edge_same in He as Hs. assert (r0 = row) as ->.
      { eapply (NoDup_key_inj brr_id); [done..|]. rewrite E. destruct (Hr row Hin) as (-> & _). apply Hs. }
      by eapply run_edge_ok; [apply Hr|].
  - split; [by apply delete_where_NoDup|]. intros r [Hr' _]%delete_where_In. by apply Hr.
Qed.

Lemma backup_changes_wf fresh t t' : rtc (backup_change fresh) t t' → runs_wf t → runs_wf t'.
Proof. induction 1 as [|t t1 t2 Hc _ IH]; [done|]. intros Hwf. by eapply IH, backup_change_wf. Qed.

(** One change to the row of a run whose identifier is not drawn again. *)
Lemma backup_change_row fresh r t t' :
  backup_change fresh t t' → runs_wf t → In r (bt_runs t) → ¬ fresh (brr_id r) → row_fate r t'.
Proof.
  intros Hc [Hn Hr] Hin Hfr. unfold row_fate.
  destruct Hc as [l t|id plan owner started run t Hf Hid Hs|row run t Hrow He|row t Hrow Ha|j t]; cbn [set_backup_plans set_backup_runs
    set_restore_jobs bt_runs]; [by left | left; apply in_app_iff; by left | | |by left].
  - destruct (N.eqb_spec (brr_id r) (br_id run)) as [E|Hne].
    2:{ left. apply update_where_In. exists r. split; [done|]. unfold backup_run_is. by apply N.eqb_neq in Hne as ->. }
    apply run_edge_same in He as Hs. assert (row = r) as ->.
    { eapply (NoDup_key_inj brr_id); [done..|]. rewrite E. destruct (Hr row Hrow) as (-> & _). symmetry. apply Hs. }
    destruct He as [p Hfresh|now p Hm]; [destruct (Hr r Hin) as (Hi & _); by rewrite <- Hi in Hfresh|].
    right. split.
    + unfold mark_corrupt in Hm. case_bool_decide as Hst; [|done]. unfold run_is_active. by rewrite Hst.
    + left. exists now, p. split; [done|]. apply update_where_In. exists r. split; [done|]. unfold backup_run_is.
      by rewrite E, N.eqb_refl.
  - destruct (N.eqb_spec (brr_id r) (br_id (brr_payload row))) as [E|Hne].
    2:{ left. apply delete_where_In. split; [done|]. unfold backup_run_is. by apply N.eqb_neq. }
    assert (row = r) as ->.
    { eapply (NoDup_key_inj brr_id); [done..|]. rewrite E. apply (Hr row Hrow). }
    right. split; [done|]. right. intros x [_ Hx]%delete_where_In. unfold backup_run_is in Hx. rewrite E. by apply N.eqb_neq.
Qed.

Lemma backup_change_absent fresh id t t' :
  backup_change fresh t t' → ¬ fresh id →
  (∀ x, In x (bt_runs t) → brr_id x ≠ id) → ∀ x, In x (bt_runs t') → brr_id x ≠ id.
Proof.
  intros Hc Hfr Ha. destruct Hc as [l t|id' plan owner started run t Hf Hid Hs|row run t Hrow He|row t Hrow Hx|j t];
    cbn [set_backup_plans set_backup_runs set_restore_jobs bt_runs]; try done; intros x Hin.
  - apply in_app_iff in Hin as [?|[<-|[]]]; [by apply Ha|]. cbn. by intros ->.
  - apply update_where_In in Hin as (y & Hy & ->). destruct (backup_run_is _ _); cbn; by apply Ha.
  - apply delete_where_In in Hin as [? _]. by apply Ha.
Qed.

Lemma row_fate_step fresh r t t' :
  backup_change fresh t t' → runs_wf t → ¬ fresh (brr_id r) → row_fate r t → row_fate r t'.
Proof.
  intros Hc Hwf Hfr [Hin|[Ha [(now & p & Hm & Hin)|Hno]]].
  - by eapply backup_change_row.
  - pose proof (backup_change_row fresh (backup_run_row_set p r) t t' Hc Hwf Hin Hfr) as Hf.
    unfold mark_corrupt in Hm. case_bool_decide as Hst; [|done]. injection Hm as <-.
    right. split; [done|]. destruct Hf as [Hf|[_ [(now2 & p2 & Hm2 & _)|Hf]]]; [|done|by right].
    left. exists now. eexists. split; [|exact Hf]. unfold mark_corrupt. by rewrite bool_decide_eq_true_2.
  - right. split; [done|]. right. by eapply backup_change_absent.
Qed.

Lemma row_fate_steps fresh r t t' :
  rtc (backup_change fresh) t t' → runs_wf t → ¬ fresh (brr_id r) → row_fate r t → row_fate r t'.
Proof.
  induction 1 as [|t t1 t2 Hc _ IH]; [done|]. intros Hwf Hfr Hr.
  apply IH; [by eapply backup_change_wf | done | by eapply row_fate_step].
Qed.

Section lifecycle.
Context `{Env} `{FsEnv} `{BackupEnv} `{Scheduler} `{Vault} `{CookieCrypto}.
Variables (root : list N) (master_key : option (list N)) (cron : option (list N)) (allowed_roots : list (list N)).

Definition backup_step (w w' : FilesWorld) : Prop :=
  ∃ op, w' = run_backup root master_key cron allowed_roots op w.

Lemma backup_step_run op w : backup_step w (run_backup root master_key cron allowed_roots op w).
Proof. by exists op. Qed.

Lemma backup_step_moves n w w' : rtc backup_step w w' → fmoves n w w'.
Proof. induction 1 as [w|w w1 w2 [op ->] _ IH]; [done|]. etrans; [apply run_backup_moves | exact IH]. Qed.

(** C15 (the life of a backup run).  Along any sequence of operations of the backup service, by
    whomever, whatever their outcome and wherever a statement or a call fails: keys stay unique,
    the columns of a run agree with its payload, and a completed or corrupt run is finalized and
    has artifacts.  A stored run whose identifier is not drawn again from now on, those the service
    stored itself included, keeps its row unchanged, except that once it has ended it may be marked
    corrupt, when it was completed, and may be deleted; in particular a corrupt run never becomes completed again, and a run that was left
    active is never ended or deleted. *)
Theorem backup_lifecycle (w w' : FilesWorld) :
  runs_wf (bt w) → rtc backup_step w w' →
  runs_wf (bt w')
  ∧ ∀ r, In r (bt_runs (bt w)) → (∀ k, (w_step (fw_world w) ≤ k)%nat → new_v4 k ≠ brr_id r) →
      row_fate r (bt w').
Proof.
  intros Hwf Hs. destruct (backup_step_moves (w_step (fw_world w)) _ _ Hs) as [_ Hm]; [done|].
  split; [by eapply backup_changes_wf|]. intros r Hr Hk. eapply row_fate_steps; [done | done | | by left].
  intros (k & Hle & Hid). by apply (Hk k).
Qed.
End lifecycle.

(** ** Retention *)

(** The runs the policy counts: completed and not pinned. *)
Definition counted_run (r : BackupRunRec) : bool :=
  bool_decide (br_state r = BackupCompleted) && negb (br_pinned r).

(** Candidates made from a list in order are already sorted. *)
Lemma candidates_deletions copies (l : list BackupRunRec) k :
  map rcd_id (drop copies (merge_sort newest_candidate
    (List.filter eligible (imap (λ i, retention_candidate (k + i)) l))))
  = map br_id (drop copies (List.filter counted_run l)).
Proof.
  assert (∀ k l, map rcd_id (List.filter eligible (imap (λ i, retention_candidate (k + i)) l))
                 = map br_id (List.filter counted_run l)
    ∧ StronglySorted newest_candidate (List.filter eligible (imap (λ i, retention_candidate (k + i)) l))
    ∧ NoDup (map rcd_sequence (List.filter eligible (imap (λ i, retention_candidate (k + i)) l)))
    ∧ ∀ c, In c (List.filter eligible (imap (λ i, retention_candidate (k + i)) l)) → (rcd_sequence c ≤ - Z.of_nat k)%Z) as Hall.
  { clear. intros k l. revert k. induction l as [|r l IH]; intros k; [split_and!; [done | constructor | constructor | by intros ? []]|].
    destruct (IH (S k)) as (Hm & Hs & Hn & Hb). cbn [imap]. rewrite Nat.add_0_r.
    rewrite (imap_ext (compose (λ i, retention_candidate (k + i)) S) (λ i, retention_candidate (S k + i)))
      by (intros i x _; cbn; by rewrite <- Nat.add_succ_r).
    assert (rcd_sequence (retention_candidate k r) = - Z.of_nat k)%Z as Hseq
      by (unfold retention_candidate; by case_bool_decide).
    assert (eligible (retention_candidate k r) = counted_run r ∧ rcd_id (retention_candidate k r) = br_id r) as [He Hi].
    { unfold retention_candidate, counted_run, eligible. by case_bool_decide. }
    cbn [List.filter]. rewrite He. destruct (counted_run r).
    - cbn [map]. rewrite Hm, Hi, Hseq. split_and!; [done| | |].
      + constructor; [done|]. apply Forall_forall. intros c Hc%list_elem_of_In. unfold newest_candidate. rewrite Hseq.
        specialize (Hb c Hc). lia.
      + constructor; [|done]. intros Hc. apply list_elem_of_In, in_map_iff in Hc as (c & Hc & Hin). specialize (Hb c Hin). lia.
      + intros c [<-|Hc]; [by rewrite Hseq|]. specialize (Hb c Hc). lia.
    - split_and!; [done..|]. intros c Hc. specialize (Hb c Hc). lia. }
  destruct (Hall k l) as (Hm & Hs & Hn & _). set (cs := List.filter eligible _) in *.
  assert (merge_sort newest_candidate cs = cs) as ->.
  { apply (StronglySorted_unique_strong newest_candidate); [| |done | apply merge_sort_Permutation].
    - intros x1 x2 Hx1 Hx2 H1 H2. rewrite merge_sort_Permutation in Hx1. apply list_elem_of_In in Hx1, Hx2.
      unfold newest_candidate in *. eapply (NoDup_key_inj rcd_sequence); [done..|]. lia.
    - apply Sorted_StronglySorted; [intros x y z; unfold newest_candidate; lia|]. apply Sorted_merge_sort.
      intros x y. unfold newest_candidate. lia. }
  rewrite <- !skipn_map, Hm. done.
Qed.

Section retention.
Context `{Env} `{FsEnv} (root : list N).

(** The runs of a plan that count, in the order of the service: newest first. *)
Definition counted_runs (plan : BackupPlan) (t : BackupTables) : list BackupRunRec :=
  List.filter counted_run (List.filter (λ r, br_plan_id r =? bp_id plan)
    (map brr_payload (merge_sort backup_created_desc
      (select_where (λ r, brr_owner_id r =? bp_owner_id plan) (bt_runs t))))).

Lemma delete_run_ok owner all id w w' :
  delete_run root owner all id w = (Ok tt, w') → bt_runs (bt w') = delete_where (backup_run_is id) (bt_runs (bt w)).
Proof.
  unfold delete_run. intros Hr. inv_bind Hr. apply backup_run_ok in R as [Hd _]. destruct (run_is_active a); [done|].
  inv_bind Hr. apply (same_db_at _ _ _ _ (within_attempt _ _ (same_db_sys _ _))) in R.
  unfold bsql in Hr. apply map_err_ok in Hr. unfold on_world in Hr. destruct (execute _ _) as [r v] eqn:E.
  injection Hr as -> <-. cbn. apply on_part_run in E as [E _]. cbn in E. by rewrite E, R, Hd.
Qed.
Lemma delete_runs_ok owner ids w w' :
  delete_runs root owner ids w = (Ok tt, w') →
  ∀ r, In r (bt_runs (bt w')) ↔ In r (bt_runs (bt w)) ∧ ~ In (brr_id r) ids.
Proof.
  revert w. induction ids as [|id ids IH]; intros w; cbn [delete_runs].
  - intros [= <-] r. cbn. tauto.
  - intros Hr r. inv_bind Hr. destruct a. apply delete_run_ok in R. rewrite (IH _ Hr), R, delete_where_In.
    unfold backup_run_is. cbn. rewrite N.eqb_neq. naive_solver.
Qed.

(** A run counts when its row is there, of the owner and the plan of the policy. *)
Lemma counted_runs_In plan t p :
  In p (counted_runs plan t) ↔
  ∃ r, In r (bt_runs t) ∧ brr_payload r = p ∧ brr_owner_id r = bp_owner_id plan
    ∧ br_plan_id p = bp_id plan ∧ counted_run p = true.
Proof.
  unfold counted_runs, select_where. rewrite !filter_In, in_map_iff.
  setoid_rewrite <- list_elem_of_In. setoid_rewrite merge_sort_Permutation. setoid_rewrite list_elem_of_In.
  setoid_rewrite filter_In. setoid_rewrite N.eqb_eq. naive_solver.
Qed.

Lemma payload_inj t r r' :
  runs_wf t → In r (bt_runs t) → In r' (bt_runs t) → br_id (brr_payload r) = br_id (brr_payload r') → r = r'.
Proof.
  intros [Hn Hr] Hin Hin' E. eapply (NoDup_key_inj brr_id); [done..|]. destruct (Hr r Hin) as (-> & _).
  by destruct (Hr r' Hin') as (-> & _).
Qed.

Lemma counted_runs_NoDup plan t : runs_wf t → NoDup (counted_runs plan t).
Proof.
  intros [Hn Hr]. unfold counted_runs. do 2 apply NoDup_ListNoDup, List.NoDup_filter, NoDup_ListNoDup.
  apply (NoDup_fmap_1 br_id). change (br_id <$> map brr_payload ?l) with (map br_id (map brr_payload l)). rewrite map_map.
  rewrite merge_sort_Permutation.
  rewrite (map_ext_in _ brr_id); [by apply select_where_NoDup|]. intros r [Hin _]%filter_In.
  by destruct (Hr r Hin) as (-> & _).
Qed.

(** C16 (retention keeps the newest copies).  When the retention of a plan has been applied, however
    the calls in between went, exactly the completed and unpinned runs of the plan beyond its
    number of copies, counted from the newest, are gone; every other run of any plan, pinned,
    failed or running, is there as before, and no more than that number of copies is left. *)
Theorem retention_exact (plan : BackupPlan) (w w' : FilesWorld) :
  runs_wf (bt w) → backup_apply_retention root plan w = (Ok tt, w') →
  (∀ r, In r (bt_runs (bt w')) ↔
     In r (bt_runs (bt w)) ∧ ~ In (brr_payload r) (drop (bp_retention plan) (counted_runs plan (bt w))))
  ∧ (length (counted_runs plan (bt w')) ≤ bp_retention plan)%nat.
Proof.
  intros Hwf Ha. assert (runs_wf (bt w')) as Hwf'.
  { destruct (fmoves_retention root 0 plan w) as [_ Hm]; [lia|]. rewrite Ha in Hm. by eapply backup_changes_wf. }
  unfold backup_apply_retention in Ha. inv_bind Ha. apply select_files_run in R as [-> [_ Hd]].
  pose proof (delete_runs_ok _ _ _ _ Ha) as Hk. rewrite Hd in Hk. clear Ha Hd.
  unfold deletions, retention_candidates in Hk.
  setoid_rewrite (candidates_deletions (bp_retention plan) _ 0) in Hk. fold (counted_runs plan (bt w)) in Hk.
  set (gone := drop (bp_retention plan) (counted_runs plan (bt w))) in *.
  assert (∀ p, In p (counted_runs plan (bt w)) ↔ In p (take (bp_retention plan) (counted_runs plan (bt w))) ∨ In p gone) as Hsplit.
  { intros p. rewrite <- in_app_iff. unfold gone. by rewrite take_drop. }
  assert (∀ r, In r (bt_runs (bt w')) ↔ In r (bt_runs (bt w)) ∧ ~ In (brr_payload r) gone) as Hmain.
  { intros r. rewrite Hk. enough (In r (bt_runs (bt w)) → In (brr_id r) (map br_id gone) ↔ In (brr_payload r) gone) by tauto.
    intros Hin. rewrite in_map_iff. destruct (proj2 Hwf r Hin) as (Hi & _).
    split; [|intros Hx; exists (brr_payload r); by split].
    intros (p & Hp & Hx). assert (In p (counted_runs plan (bt w))) as (r' & Hr' & <- & _)%counted_runs_In by (apply Hsplit; by right).
    rewrite (payload_inj (bt w) r r'); [done | done | done | done | by rewrite <- Hi]. }
  split; [done|]. transitivity (length (take (bp_retention plan) (counted_runs plan (bt w)))); [|rewrite length_take; lia].
  apply submseteq_length, NoDup_submseteq; [by apply counted_runs_NoDup|]. intros p Hp. apply list_elem_of_In in Hp.
  apply list_elem_of_In. apply counted_runs_In in Hp as (r & Hin & <- & Hrest). apply Hmain in Hin as [Hin Hno].
  destruct (proj1 (Hsplit (brr_payload r))) as [?|?]; [|done..]. apply counted_runs_In. by exists r.
Qed.
End retention.

(** ** Restoring *)

Section restoring.
Context `{Env} `{FsEnv} `{!FsLaws} `{BackupEnv} `{Vault} `{CookieCrypto} (root : list N).

(** The file of an artifact is there and has the recorded size and digest. *)
Definition artifact_intact (fs : FS) (dir : list N) (a : BackupArtifact) : Prop :=
  ∃ l c m t, node_at Existing fs (path_join dir (bytes (art_path a))) = Ok (l, NFile c m t)
    ∧ artifact_verify a c = true.

(** There is nothing at a path, or an empty directory. *)
Definition vacant (fs : FS) (p : list N) : Prop :=
  (∃ e, node_at Existing fs p = Err e) ∨ ∃ l m, node_at Existing fs p = Ok (l, NDir m) ∧ dir_children fs l = [].

(** The run a caller sees under an identifier. *)
Definition visible_run (owner : Uuid) (all : bool) (id : Uuid) (t : BackupTables) : option BackupRunRec :=
  List.find (λ r, br_id r =? id) (map brr_payload (merge_sort backup_created_desc
    (if all then bt_runs t else select_where (λ r, brr_owner_id r =? owner) (bt_runs t)))).

Lemma fs_read_ok p w c w' :
  fs_read p w = (Ok c, w') → ∃ l m t, node_at Existing (fw_fs w) p = Ok (l, NFile c m t) ∧ counted w w'.
Proof.
  unfold fs_read, fs_query, sys, sys_partial. destruct (fs_fault _); [done|].
  destruct (node_at Existing (fw_fs w) p) as [[l [c' m t| |]]|]; cbn; try done. intros [= <- <-]. exists l, m, t. done.
Qed.

Lemma verify_artifacts_ok dir l w w' :
  verify_artifacts dir l w = (Ok true, w') → Forall (artifact_intact (fw_fs w) dir) l ∧ counted w w'.
Proof.
  revert w. induction l as [|a l IH]; intros w; cbn [verify_artifacts]; [intros [= <-]; by split|].
  intros Hr. inv_bind Hr. apply map_err_ok, fs_read_ok in R as (lo & m & t & Hn & Hf & Hd).
  destruct (artifact_verify a a0) eqn:Ev; [|done]. apply IH in Hr as [Hl [Hf' Hd']]. rewrite Hf in *.
  split; [|by split; congruence]. constructor; [|done]. by exists lo, a0, m, t.
Qed.

Lemma verify_ok owner all id w run w' :
  verify root owner all id w = (Ok run, w') →
  visible_run owner all id (bt w) = Some run ∧ br_state run = BackupCompleted
  ∧ Forall (artifact_intact (fw_fs w) (run_dir root id)) (br_artifacts run) ∧ counted w w'.
Proof.
  unfold verify, get_backup_run, backup_runs. intros Hr. inv_bind Hr. inv_bind R. apply select_files_run in R0 as [-> [Hf1 Hd]].
  apply ok_or_ok in R as [Hfind ->].
  destruct (bool_decide _) eqn:Hs; [|done]. apply bool_decide_eq_true in Hs. cbn [negb] in Hr. inv_bind Hr.
  destruct a0; [|by repeat inv_bind Hr]. injection Hr as <- <-. apply verify_artifacts_ok in R as [Hl [Hf Hd2]].
  rewrite Hf1 in *. split_and!; [done | done | done | by split; congruence].
Qed.

(** Only the restore of an artifact changes a file. *)
Lemma verify_still owner all id : within (on_fs eq) (verify root owner all id).
Proof.
  assert (∀ dir l, within (on_fs eq) (verify_artifacts dir l)) as Hv.
  { intros dir l. induction l as [|a l IH]; cbn [verify_artifacts]; unfold bio; within_tac. }
  unfold verify, get_backup_run, backup_runs, backup_select, save_run, bsql. within_tac.
Qed.
Lemma preview_still owner all id : within (on_fs eq) (restore_preview root owner all id).
Proof.
  assert (∀ o l, within (on_fs eq) (restore_conflicts o l)) as Hc.
  { intros o l. induction l as [|a l IH]; cbn [restore_conflicts]; unfold owned_site, has_content, bsql, bio; within_tac. }
  pose proof verify_still. unfold restore_preview. within_tac.
Qed.

Lemma has_content_counted p w b w' : has_content p w = (Ok b, w') → counted w w'.
Proof.
  assert (within (on_fs eq) (has_content p)) as Hf by (unfold has_content, exists_path, bio; within_tac).
  intros E. specialize (Hf w). pose proof (same_db_content p w) as [Hd _]. rewrite E in Hf, Hd. by split.
Qed.

Lemma has_content_false p w w' :
  (∀ k, fs_fault k = None) → has_content p w = (Ok false, w') → vacant (fw_fs w) p.
Proof.
  intros no_fs. unfold has_content, exists_path. unfold attempt, bind at 1 2. unfold fs_metadata, fs_query.
  rewrite sys_run by done. cbn. destruct (node_at Existing (fw_fs w) p) as [[l n]|e] eqn:En; cbn.
  2:{ intros [= <-]. left. by eexists. }
  intros Hr. inv_bind Hr. apply map_err_ok in R. unfold fs_read_dir, fs_query in R. rewrite sys_run in R by done. cbn in R.
  rewrite En in R. cbn in R. destruct n as [|m|]; try done. injection R as <- <-.
  unfold bind, try_run, next_entry, fs_query in Hr. rewrite sys_run in Hr by done. cbn in Hr. injection Hr as Hr <-.
  right. exists l, m. split; [done|]. apply negb_false_iff, bool_decide_eq_true in Hr.
  pose proof (dir_order_permutes (S (w_step (fw_world w))) (dir_children (fw_fs w) l)) as Hp. rewrite Hr in Hp.
  by apply Permutation_nil in Hp.
Qed.

(** The site of an artifact belongs to the owner of the run, and is vacant when no call failed. *)
Definition site_vacant (owner id : Uuid) (w : FilesWorld) : Prop :=
  ∃ site, List.find (site_is id) (ht_sites (db_hosting (db_of w))) = Some site ∧ si_owner_id site = owner
    ∧ ((∀ k, fs_fault k = None) → vacant (fw_fs w) (bytes (si_document_root site))).

(** No conflict was found: every site of the run is vacant. *)
Lemma conflicts_none owner l w w' :
  restore_conflicts owner l w = (Ok [], w') →
  ∀ a id, In a l → art_resource a = SiteFiles id → site_vacant owner id w.
Proof.
  revert w. induction l as [|b l IH]; intros w Hr a id; [by intros []|]. cbn [restore_conflicts] in Hr.
  inv_bind Hr. inv_bind Hr. injection Hr as Hnil <-. apply app_nil in Hnil as [-> ->].
  assert (counted w w0 ∧ ∀ id, art_resource b = SiteFiles id → site_vacant owner id w) as [[Hf Hd] Hb].
  { destruct (art_resource b) as [s| |]; [|injection R as <-; by split..].
    inv_bind R. rename a0 into site. unfold owned_site in R1. inv_bind R1. apply bsql_select_run in R2 as [-> [Hf Hd]].
    inv_bind R1. apply ok_or_ok in R2 as [Hfind ->]. destruct (N.eqb_spec (si_owner_id a0) owner); [|done]. injection R1 as <- <-.
    inv_bind R. destruct a1; [done|]. injection R as <-. apply has_content_counted in R1 as Hc.
    destruct Hc as [Hf' Hd']. split; [split; congruence|]. intros id' [= <-]. exists a0. split_and!; [done..|].
    intros Hno. rewrite <- Hf. by eapply has_content_false. }
  intros [<-|Hin] He; [by apply Hb|]. unfold site_vacant. rewrite <- Hf, <- Hd. by eapply IH.
Qed.

(** C14 (a restore checks before it writes).  When a restore changes any file at all, whatever its
    outcome and wherever calls fail, then the caller sees a completed run under that identifier,
    every artifact of the run has the recorded size and digest on disk, and either the request
    asked to overwrite, with a confirmation of at least twelve bytes and on behalf of an owner of
    the panel, or it asked to fail on a conflict and every site of the run belongs to the owner of
    the run; in that case the document root of every such site was missing or an empty directory,
    provided that no file system call failed from outside, since [exists] reads a failed call as a
    missing directory. *)
Theorem restore_checks (owner : Uuid) (all : bool) (id : Uuid) (input : RestoreInput) (w w' : FilesWorld)
    (res : result RestoreJob BackupServiceError) :
  restore root owner all id input w = (res, w') → fw_fs w' ≠ fw_fs w →
  ∃ run, visible_run owner all id (bt w) = Some run ∧ br_state run = BackupCompleted
    ∧ Forall (artifact_intact (fw_fs w) (run_dir root id)) (br_artifacts run)
    ∧ ((ri_conflict_policy input = "overwrite" ∧ all = true
        ∧ 12 ≤ str_len (default "" (ri_confirmation_token input)))
       ∨ (ri_conflict_policy input = "fail"
          ∧ ∀ a site_id, In a (br_artifacts run) → art_resource a = SiteFiles site_id →
            site_vacant (br_owner_id run) site_id w)).
Proof.
  intros Hr Hne. unfold restore in Hr. unfold bind at 1 in Hr. pose proof (verify_still owner all id w) as Hv.
  destruct (verify root owner all id w) as [[run|e] w1] eqn:E1; [|injection Hr as <- <-; by destruct Hne].
  clear Hv. apply verify_ok in E1 as (Hrun & Hst & Hint & [Hf1 Hd1]). exists run. split_and!; [done..|].
  cbn zeta in Hr. destruct (String.eqb_spec (ri_conflict_policy input) "overwrite") as [Ho|Hno].
  - left. split; [done|]. rewrite Ho in Hr. cbn [String.eqb Ascii.eqb Bool.eqb negb andb] in Hr.
    destruct all; [|injection Hr as <- <-; by rewrite Hf1 in Hne]. split; [done|].
    cbn [negb] in Hr. unfold overwrite_confirmation in Hr. destruct (str_len _ <? 12) eqn:El; [|by apply N.ltb_ge in El].
    cbn in Hr. injection Hr as <- <-. by rewrite Hf1 in Hne.
  - right. destruct (String.eqb_spec (ri_conflict_policy input) "fail") as [Hfail|Hno2];
      [|injection Hr as <- <-; by rewrite Hf1 in Hne]. split; [done|].
    cbn [negb andb] in Hr. unfold bind at 1 in Hr. cbn [ret] in Hr.
    destruct (existsb _ (ri_resources input)); [injection Hr as <- <-; by rewrite Hf1 in Hne|].
    unfold bind at 1 in Hr. pose proof (preview_still owner all id w1) as Hp.
    destruct (restore_preview root owner all id w1) as [[preview|e] w2] eqn:E2;
      [|injection Hr as <- <-; unfold on_fs in Hp; cbn in Hp; destruct Hne; congruence].
    unfold on_fs in Hp. cbn in Hp. destruct (bool_decide _) eqn:Hc; [|injection Hr as <- <-; destruct Hne; congruence].
    apply bool_decide_eq_true in Hc. unfold restore_preview in E2. inv_bind E2. inv_bind E2. injection E2 as <- <-.
    cbn in Hc. subst. apply verify_ok in R as (Hrun' & _ & _ & [Hf2 Hd2]). rewrite Hd1, Hrun in Hrun'. injection Hrun' as <-.
    intros a site_id Hin Hs. pose proof (conflicts_none _ _ _ _ R0 a site_id Hin Hs) as Hx.
    unfold site_vacant in *. by rewrite Hd2, Hd1, Hf2, Hf1 in Hx.
Qed.
End restoring.

(** ** A plan without its cron job *)

Section orphans.
Context `{Env} `{FsEnv} `{Scheduler} (cron : option (list N)).

(** The cron service finds no such job. *)
Lemma orphan_call {B} owner all job (k : CronJob → M World CronServiceError B) w :
  existsb (job_is job) (ht_cron_jobs (db_hosting (db_of w))) = false →
  ∃ e w', map_err (λ e, BackupInternal (cron_service_error_text e)) (on_world (bind (cron_get owner all job) k)) w = (Err e, w')
    ∧ bt w' = bt w.
Proof.
  intros Hno. unfold map_err, on_world, bind.
  assert (within (on_db eq) (cron_get owner all job)) as Hs by (unfold cron_get, cron_select, cron_db; within_tac).
  specialize (Hs (fw_world w)). unfold on_db in Hs. destruct (cron_get owner all job (fw_world w)) as [[j|e] v] eqn:E.
  - unfold cron_get, cron_select, cron_db in E. inv_bind E. apply map_err_ok in R. unfold select, statement in R.
    destruct (sql_fault _); [done|]. injection R as <- <-. inv_bind E. apply ok_or_ok in R as [Hf _].
    apply List.find_some in Hf as [Hin [Hid _]%andb_true_iff]. rewrite existsb_false in Hno. by rewrite Hno in Hid.
  - cbn in Hs. do 2 eexists. split; [done|]. cbn. by rewrite Hs.
Qed.

(** The job of a plan lives in the tables of the cron service, where its owner can delete it, and
    [backup_delete_plan] itself deletes it before the plan.  A plan whose job is gone can no longer be
    deleted, enabled or disabled: every request fails and leaves the plans as they are. *)
Theorem orphan_plan_stuck (working_root : list N) (owner : Uuid) (all : bool) (id job : Uuid) (enabled : bool) (w : FilesWorld) :
  cron = Some working_root →
  (∀ r, In r (bt_plans (bt w)) → bpr_id r = id → bp_cron_job_id (bpr_payload r) = Some job) →
  existsb (job_is job) (ht_cron_jobs (db_hosting (db_of w))) = false →
  (is_ok (backup_delete_plan cron owner all id w).1 = false ∧ bt (backup_delete_plan cron owner all id w).2 = bt w)
  ∧ (is_ok (backup_set_enabled cron owner all id enabled w).1 = false
     ∧ bt (backup_set_enabled cron owner all id enabled w).2 = bt w).
Proof.
  intros -> Hjob Hno.
  assert (∀ B (k : BackupPlan → M FilesWorld BackupServiceError B),
    (∀ plan w1, db_of w1 = db_of w → bp_cron_job_id plan = Some job → is_ok (k plan w1).1 = false ∧ bt (k plan w1).2 = bt w) →
    is_ok (bind (backup_plan owner all id) k w).1 = false ∧ bt (bind (backup_plan owner all id) k w).2 = bt w) as Hplan.
  { intros B k Hk. unfold bind. pose proof (same_db_backup_plan owner all id w) as [Hd _].
    destruct (backup_plan owner all id w) as [[plan|e] w1] eqn:E; cbn [snd] in Hd; [|cbn; by rewrite Hd]. apply Hk; [done|].
    unfold backup_plan in E. inv_bind E. apply select_files_run in R as [-> _]. inv_bind E. apply ok_or_ok in R as [Hf _].
    injection E as <- _. apply List.find_some in Hf as [Hin [Hid%N.eqb_eq _]%andb_true_iff]. by apply Hjob. }
  split; apply Hplan; intros plan w1 Hd Hp.
  - rewrite Hp. assert (∃ e w2, map_err (λ e, BackupInternal (cron_service_error_text e))
      (on_world (cron_delete owner all job)) w1 = (Err e, w2) ∧ bt w2 = bt w1) as (e & w2 & E2 & Hb)
      by (apply orphan_call; by rewrite Hd).
    unfold bind. rewrite E2. cbn [fst snd is_ok]. by rewrite Hb, Hd.
  - unfold bind. cbn [on_world now bp_cron_job_id backup_plan_enabled]. rewrite Hp. set (w2 := mkFilesWorld _ _).
    assert (∃ e w3, map_err (λ e, BackupInternal (cron_service_error_text e))
      (on_world (set_enabled owner all job enabled)) w2 = (Err e, w3) ∧ bt w3 = bt w2) as (e & w3 & E3 & Hb)
      by (apply orphan_call; cbn; by rewrite Hd).
    rewrite E3. cbn [fst snd is_ok]. rewrite Hb. cbn. by rewrite Hd.
Qed.
End orphans.
