(* ===== verification/Registry.v ===== *)
(** * The container registry

    [crates/openpanel-domain/src/container_registry/] and
    [crates/openpanel-app/src/container_registry/] ([repo.rs], [service.rs], the traits of
    [storage.rs] and [scan.rs]).  The files of the storage layer are the map [ht_blobs];
    [BlobStore] says which of its calls fail and [ScanHook] what the scanner answered.  The
    last part compares retention with a reference definition. *)
From S2P Require Import Prelude Text Paths AuditActions AuditLog Accounts CronJobs HostingTables Store Users Sites.
Open Scope N_scope.

Inductive RegistryError : Type :=
| NotAuthorised
| NamespaceNotFound (id : string)
| ImageNotFound (id : string)
| QuotaExceeded (used delta limit : Z)
| RegistryPersistence (reason : string).

Definition registry_error_text (e : RegistryError) : string :=
  match e with
  | NotAuthorised => "not authorised for namespace"
  | NamespaceNotFound id => "namespace " +:+ id +:+ " not found"
  | ImageNotFound id => "image " +:+ id +:+ " not found"
  | QuotaExceeded used delta limit =>
      "namespace quota exceeded (used " +:+ of_bytes (show_Z used) +:+ " + delta "
      +:+ of_bytes (show_Z delta) +:+ " > limit " +:+ of_bytes (show_Z limit) +:+ ")"
  | RegistryPersistence r => "persistence error: " +:+ r
  end.

(** [NamespaceId] and [ImageDigest] are their texts, checked on construction.  95 is [_]. *)
Definition namespace_byte (b : N) : bool :=
  is_lower b || is_digit b || (b =? 45) || (b =? 95) || (b =? 46).

Definition namespace_id_new (s : string) : result string RegistryError :=
  if bool_decide (s = "") || (64 <? str_len s) || negb (forallb namespace_byte (bytes s))
  then Err (NamespaceNotFound s)
  else Ok s.

Definition image_digest_new (s : string) : result string RegistryError :=
  if negb (starts_with s "sha256:") || negb (str_len s =? 71)
     || negb (forallb is_ascii_hexdigit (drop 7 (bytes s)))
  then Err (ImageNotFound s)
  else Ok (of_bytes (map ascii_lower (bytes s))).

Record ImageNamespace := mkNamespace {
  ns_id : string;
  ns_owner : Uuid;
  ns_quota_bytes : Z;
  ns_used_bytes : Z;
  ns_created_at : DateTime
}.

Definition namespace_new (id : string) (owner : Uuid) (quota : Z) (t : DateTime) : ImageNamespace :=
  mkNamespace id owner quota 0 t.

Definition would_exceed (ns : ImageNamespace) (delta : Z) : bool :=
  (ns_quota_bytes ns <? u64_saturating_add (ns_used_bytes ns) delta)%Z.
Definition account_push (delta : Z) (ns : ImageNamespace) : ImageNamespace :=
  mkNamespace (ns_id ns) (ns_owner ns) (ns_quota_bytes ns)
    (u64_saturating_add (ns_used_bytes ns) delta) (ns_created_at ns).
(** [saturating_sub]. *)
Definition account_delete (bytes : Z) (ns : ImageNamespace) : ImageNamespace :=
  mkNamespace (ns_id ns) (ns_owner ns) (ns_quota_bytes ns)
    (Z.max 0 (ns_used_bytes ns - bytes)) (ns_created_at ns).
Definition has_capacity (ns : ImageNamespace) : bool := (ns_used_bytes ns <? ns_quota_bytes ns)%Z.

Inductive ScanStatus : Type := ScanPending | ScanClean | WithFindings | ScanFailed.

Definition scan_status_str (s : ScanStatus) : string :=
  match s with
  | ScanPending => "pending" | ScanClean => "clean" | WithFindings => "with_findings"
  | ScanFailed => "failed"
  end.

Record StoredImage := mkImage {
  img_digest : string;
  img_namespace : string;
  img_size_bytes : Z;
  img_pushed_at : DateTime;
  img_reference : option string;
  img_scan_status : ScanStatus
}.

Definition image_new_pushed (digest ns : string) (size : Z) (reference : option string)
    (t : DateTime) : StoredImage :=
  mkImage digest ns size t reference ScanPending.

Definition image_with_status (st : ScanStatus) (i : StoredImage) : StoredImage :=
  mkImage (img_digest i) (img_namespace i) (img_size_bytes i) (img_pushed_at i)
    (img_reference i) st.

Record ScanResult := mkScan {
  scan_digest : string;
  scan_scanned_at : DateTime;
  scan_findings : list ScanFinding
}.
Definition has_findings (r : ScanResult) : bool := negb (bool_decide (length (scan_findings r) = 0%nat)).

(** ** Retention *)

Record RetentionPolicy := mkRetention {
  max_images_per_ns : option Z;
  max_age_days : option Z
}.

Definition retention_default : RetentionPolicy := mkRetention (Some 50%Z) None.
Definition by_count (max : Z) : RetentionPolicy := mkRetention (Some max) None.
Definition by_age (max_age : Z) : RetentionPolicy := mkRetention None (Some max_age).

Definition newer_entry (e1 e2 : string * DateTime) : Prop := (e2.2 ≤ e1.2)%Z.
#[export] Instance newest_first_dec : RelDecision newer_entry.
Proof. unfold newer_entry. intros e1 e2. apply _. Defined.

(** The digests past the maximal age, newest first. *)
Definition over_age (max_age : option Z) (t : DateTime) (entries : list (string * DateTime))
    : list string :=
  match max_age with
  | Some d => map fst (List.filter (λ e, days d <? t - e.2)%Z entries)
  | None => []
  end.

(** The loop over the entries past the maximal count, oldest first. *)
Fixpoint push_missing (digests to_delete : list string) : list string :=
  match digests with
  | [] => to_delete
  | d :: ds =>
      push_missing ds (if existsb (String.eqb d) to_delete then to_delete else (to_delete ++ [d])%list)
  end.

(** [entries.len().saturating_sub(max)]. *)
Definition over_count (max_count : option Z) (entries : list (string * DateTime)) : nat :=
  match max_count with
  | Some m => (length entries - Z.to_nat m)%nat
  | None => 0%nat
  end.

(** [RetentionPolicy::apply]: a stable sort, then the two lists. *)
Definition retention_apply (p : RetentionPolicy) (images : list (string * DateTime)) (t : DateTime)
    : list string :=
  let entries := merge_sort newer_entry images in
  push_missing (map fst (take (over_count (max_images_per_ns p) entries) (rev entries)))
    (over_age (max_age_days p) t entries).

Record RegistryConfig := mkRegistryConfig {
  rcf_storage_root : string;
  rcf_retention : RetentionPolicy;
  rcf_scan_on_push : bool
}.

Definition config_default : RegistryConfig :=
  mkRegistryConfig "/var/lib/openpanel/registry" retention_default false.

(** [ContainerRegistryService::set_config]; the configuration is an argument of [push]. *)
Definition set_config (config old : RegistryConfig) : RegistryConfig := config.

(** ** Rows and statements *)

Definition parse_scan_status (s : string) : result ScanStatus RepoError :=
  if String.eqb s "pending" then Ok ScanPending
  else if String.eqb s "clean" then Ok ScanClean
  else if String.eqb s "with_findings" then Ok WithFindings
  else if String.eqb s "failed" then Ok ScanFailed
  else Err ("unknown scan status `" +:+ s +:+ "`").

Definition ns_row (ns : ImageNamespace) : NamespaceRow :=
  mkNamespaceRow (ns_id ns) (ns_owner ns) (u64_as_i64 (ns_quota_bytes ns))
    (u64_as_i64 (ns_used_bytes ns)) (ns_created_at ns).

Definition row_to_namespace (r : NamespaceRow) : result ImageNamespace RepoError :=
  id <-? result_map_err registry_error_text (namespace_id_new (nr_namespace_id r)) ;;
  Ok (mkNamespace id (nr_owner r) (i64_as_u64 (nr_quota_bytes r)) (i64_as_u64 (nr_used_bytes r))
        (nr_created_at r)).

Definition image_row (i : StoredImage) : ImageRow :=
  mkImageRow (img_digest i) (img_namespace i) (u64_as_i64 (img_size_bytes i)) (img_pushed_at i)
    (img_reference i) (scan_status_str (img_scan_status i)).

Definition row_to_image (r : ImageRow) : result StoredImage RepoError :=
  digest <-? result_map_err registry_error_text (image_digest_new (ir_digest r)) ;;
  ns <-? result_map_err registry_error_text (namespace_id_new (ir_namespace r)) ;;
  status <-? parse_scan_status (ir_scan_status r) ;;
  Ok (mkImage digest ns (i64_as_u64 (ir_size_bytes r)) (ir_pushed_at r) (ir_reference r) status).

Definition ns_is (id : string) (r : NamespaceRow) : bool := String.eqb (nr_namespace_id r) id.
Definition image_in (ns : string) (r : ImageRow) : bool := String.eqb (ir_namespace r) ns.
Definition image_is (ns digest : string) (r : ImageRow) : bool :=
  image_in ns r && String.eqb (ir_digest r) digest.

(** [INSERT OR REPLACE] with the [CHECK]s of the table. *)
Definition replace_namespace_row (r : NamespaceRow) (h : HostingTables)
    : result (unit * HostingTables) string :=
  if (nr_quota_bytes r <? 0)%Z then Err "quota_bytes >= 0"
  else if (nr_used_bytes r <? 0)%Z then Err "used_bytes >= 0"
  else Ok (tt, set_namespaces (delete_where (ns_is (nr_namespace_id r)) (ht_namespaces h) ++ [r]) h).

Definition replace_image_row (r : ImageRow) (h : HostingTables)
    : result (unit * HostingTables) string :=
  if (ir_size_bytes r <? 0)%Z then Err "size_bytes >= 0"
  else Ok (tt, set_images (delete_where (image_is (ir_namespace r) (ir_digest r)) (ht_images h) ++ [r]) h).

(** [UPDATE .. SET used_bytes]; the answer is [rows_affected]. *)
Definition update_used_row (id : string) (used : Z) (h : HostingTables)
    : result (nat * HostingTables) string :=
  let hit := select_where (ns_is id) (ht_namespaces h) in
  if (used <? 0)%Z && negb (bool_decide (length hit = 0%nat)) then Err "used_bytes >= 0"
  else Ok (length hit,
           set_namespaces (update_where (ns_is id)
             (λ r, mkNamespaceRow (nr_namespace_id r) (nr_owner r) (nr_quota_bytes r) used
                     (nr_created_at r)) (ht_namespaces h)) h).

Definition update_status_row (ns digest : string) (st : ScanStatus) (h : HostingTables)
    : result (nat * HostingTables) string :=
  Ok (length (select_where (image_is ns digest) (ht_images h)),
      set_images (update_where (image_is ns digest)
        (λ r, mkImageRow (ir_digest r) (ir_namespace r) (ir_size_bytes r) (ir_pushed_at r)
                (ir_reference r) (scan_status_str st)) (ht_images h)) h).

Definition by_ns_created (r1 r2 : NamespaceRow) : Prop := (nr_created_at r1 ≤ nr_created_at r2)%Z.
#[export] Instance by_ns_created_dec : RelDecision by_ns_created.
Proof. unfold by_ns_created. intros r1 r2. apply _. Defined.
Definition by_pushed_at (r1 r2 : ImageRow) : Prop := (ir_pushed_at r1 ≤ ir_pushed_at r2)%Z.
#[export] Instance by_pushed_at_dec : RelDecision by_pushed_at.
Proof. unfold by_pushed_at. intros r1 r2. apply _. Defined.
Definition by_scanned_desc (r1 r2 : ScanRow) : Prop := (sc_scanned_at r2 ≤ sc_scanned_at r1)%Z.
#[export] Instance by_scanned_desc_dec : RelDecision by_scanned_desc.
Proof. unfold by_scanned_desc. intros r1 r2. apply _. Defined.

Section registry_repo.
Context `{Env}.
Abbreviation MR A := (M World RepoError A).

Definition namespaces_insert (ns : ImageNamespace) : MR unit :=
  statement (hosting_statement (replace_namespace_row (ns_row ns))).
Definition namespaces_find (id : string) : MR (option ImageNamespace) :=
  row <- select (λ d, List.find (ns_is id) (ht_namespaces (db_hosting d))) ;;
  lift (transpose row_to_namespace row).
Definition namespaces_update_used (id : string) (used : Z) : MR unit :=
  n <- statement (hosting_statement (update_used_row id (u64_as_i64 used))) ;;
  if bool_decide (n = 0%nat) then throw ("namespace " +:+ id +:+ " not found") else ret tt.
Definition namespaces_list : MR (list ImageNamespace) :=
  rows <- select (λ d, merge_sort by_ns_created (ht_namespaces (db_hosting d))) ;;
  lift (collect row_to_namespace rows).

Definition images_insert (i : StoredImage) : MR unit :=
  statement (hosting_statement (replace_image_row (image_row i))).
Definition images_find (ns digest : string) : MR (option StoredImage) :=
  row <- select (λ d, List.find (image_is ns digest) (ht_images (db_hosting d))) ;;
  lift (transpose row_to_image row).
Definition images_delete (ns digest : string) : MR unit :=
  execute (on_hosting (λ h, set_images (delete_where (image_is ns digest) (ht_images h)) h)).
Definition list_for_namespace (ns : string) : MR (list StoredImage) :=
  rows <- select (λ d, merge_sort by_pushed_at (select_where (image_in ns) (ht_images (db_hosting d)))) ;;
  lift (collect row_to_image rows).
Definition images_update_status (ns digest : string) (st : ScanStatus) : MR unit :=
  n <- statement (hosting_statement (update_status_row ns digest st)) ;;
  if bool_decide (n = 0%nat)
  then throw ("image " +:+ digest +:+ " not found in namespace " +:+ ns)
  else ret tt.

Definition scans_insert (r : ScanResult) : MR unit :=
  execute (on_hosting (λ h, set_scans (ht_scans h
    ++ [mkScanRow (scan_digest r) (scan_scanned_at r) (scan_findings r)]) h)).
Definition row_to_scan_result (r : ScanRow) : result ScanResult RepoError :=
  digest <-? result_map_err registry_error_text (image_digest_new (sc_digest r)) ;;
  Ok (mkScan digest (sc_scanned_at r) (sc_findings r)).
Definition latest_for (digest : string) : MR (option ScanResult) :=
  row <- select (λ d, head (merge_sort by_scanned_desc
                        (select_where (λ r, String.eqb (sc_digest r) digest) (ht_scans (db_hosting d))))) ;;
  lift (transpose row_to_scan_result row).
End registry_repo.

(** ** Storage and scanner *)

(** Which call of the storage layer fails, and why. *)
Class BlobStore := storage_fault : nat → option string.

(** [ScanHook::scan]. *)
Class ScanHook := scan_image : nat → string → result ScanResult string.

Inductive PushError : Type :=
| PushDomain (e : RegistryError)
| PushPersistence (reason : string)
| PushScanFailed (reason : string)
| PushStorage (reason : string).

Record PushRequest := mkPush {
  pq_namespace : string;
  pq_manifest_digest : string;
  pq_reference : option string;
  pq_manifest_bytes : list N;
  pq_blobs : list (string * list N)
}.

(** The bytes of vectors in memory; their sum stays below [2^64]. *)
Definition push_bytes (rq : PushRequest) : Z :=
  (foldr (λ b n, Z.of_nat (length b.2) + n) 0 (pq_blobs rq) + Z.of_nat (length (pq_manifest_bytes rq)))%Z.

Definition blob_path (ns digest : string) : string := ns +:+ "/blobs/" +:+ digest.
Definition manifest_path (ns digest : string) : string := ns +:+ "/manifests/" +:+ digest.

Section registry_service.
Context `{Env} `{BlobStore} `{ScanHook}.
Abbreviation MP A := (M World PushError A).

Definition reg {A} (c : M World RepoError A) : MP A := map_err PushPersistence c.

(** One call of the storage layer. *)
Definition storage_call (f : gmap string (list N) → gmap string (list N)) : MP unit := λ w,
  match storage_fault (w_step w) with
  | Some e => (Err (PushStorage e), tick w)
  | None => (Ok tt, tick (with_db (on_hosting (λ h, set_blobs (f (ht_blobs h)) h)) w))
  end.
Definition storage_write (path : string) (b : list N) : MP unit := storage_call <[path := b]>.
Definition storage_delete (path : string) : MP unit := storage_call (delete path).

Definition create_namespace (id : string) (owner : Uuid) (quota : Z) : MP ImageNamespace :=
  t <- now ;;
  let ns := namespace_new id owner quota t in
  reg (namespaces_insert ns) ;;;
  ret ns.

Definition find_namespace (id : string) : MP (option ImageNamespace) := reg (namespaces_find id).
Definition list_namespaces : MP (list ImageNamespace) := reg namespaces_list.
Definition find_image (ns digest : string) : MP (option StoredImage) := reg (images_find ns digest).
Definition list_images (ns : string) : MP (list StoredImage) := reg (list_for_namespace ns).
Definition latest_scan (digest : string) : MP (option ScanResult) := reg (latest_for digest).

Definition require_namespace (id : string) : MP ImageNamespace :=
  o <- reg (namespaces_find id) ;; ok_or o (PushDomain (NamespaceNotFound id)).

(** The loop over the verdict; [ns] was read before it. *)
Fixpoint prune_images (ns : ImageNamespace) (namespace : string) (digests : list string)
    (pruned : nat) : MP nat :=
  match digests with
  | [] => ret pruned
  | d :: ds =>
      digest <- lift (result_map_err PushDomain (image_digest_new d)) ;;
      o <- reg (images_find namespace digest) ;;
      match o with
      | Some image =>
          attempt (storage_delete (manifest_path namespace digest)) ;;;
          reg (images_delete namespace digest) ;;;
          reg (namespaces_update_used namespace
                 (ns_used_bytes (account_delete (img_size_bytes image) ns))) ;;;
          prune_images ns namespace ds (S pruned)
      | None => prune_images ns namespace ds pruned
      end
  end.

Definition apply_retention (namespace : string) (p : RetentionPolicy) : MP nat :=
  ns <- require_namespace namespace ;;
  images <- reg (list_for_namespace namespace) ;;
  t <- now ;;
  prune_images ns namespace
    (retention_apply p (map (λ i, (img_digest i, img_pushed_at i)) images) t) 0.

Fixpoint write_blobs (ns : string) (blobs : list (string * list N)) : MP unit :=
  match blobs with
  | [] => ret tt
  | (digest, b) :: rest => storage_write (blob_path ns digest) b ;;; write_blobs ns rest
  end.

(** The scan after a push: the image with its status and the result. *)
Definition scan_pushed (image : StoredImage) : MP (StoredImage * option ScanResult) := λ w,
  match scan_image (w_step w) (img_digest image) with
  | Ok r =>
      (let st := if has_findings r then WithFindings else ScanClean in
       reg (images_update_status (img_namespace image) (img_digest image) st) ;;;
       reg (scans_insert r) ;;;
       ret (image_with_status st image, Some r)) (tick w)
  | Err _ =>
      (reg (images_update_status (img_namespace image) (img_digest image) ScanFailed) ;;;
       throw (PushScanFailed "scanner unavailable")) (tick w)
  end.

(** What [push] stores once it is allowed. *)
Definition store_push (ns : ImageNamespace) (rq : PushRequest) (total : Z) : MP StoredImage :=
  write_blobs (ns_id ns) (pq_blobs rq) ;;;
  storage_write (manifest_path (ns_id ns) (pq_manifest_digest rq)) (pq_manifest_bytes rq) ;;;
  t <- now ;;
  let image := image_new_pushed (pq_manifest_digest rq) (ns_id ns) total (pq_reference rq) t in
  reg (images_insert image) ;;;
  let updated := account_push total ns in
  reg (namespaces_update_used (ns_id updated) (ns_used_bytes updated)) ;;;
  ret image.

Definition push (cfg : RegistryConfig) (caller : Uuid) (rq : PushRequest) (actor : string)
    : MP (StoredImage * option ScanResult) :=
  ns <- require_namespace (pq_namespace rq) ;;
  if negb (ns_owner ns =? caller) then throw (PushDomain NotAuthorised)
  else
    let total := push_bytes rq in
    if would_exceed ns total
    then throw (PushDomain (QuotaExceeded (ns_used_bytes ns) total (ns_quota_bytes ns)))
    else
      image <- store_push ns rq total ;;
      scanned <- (if rcf_scan_on_push cfg then scan_pushed image else ret (image, None)) ;;
      apply_retention (img_namespace scanned.1) (rcf_retention cfg) ;;;
      audit actor RegistryImagePushed Success
        (with_metadata (JObject [("namespace", JString (img_namespace scanned.1));
                                 ("digest", JString (img_digest scanned.1))])) ;;;
      ret scanned.
End registry_service.

(** * Retention and storage paths

    [RetentionPolicy::apply] against a reference definition by rank and age, and where the
    files of a namespace lie. *)

(** ** The reference definition *)

(** An entry is pruned when it is too old, or when as many entries as are kept are newer:
    [i] is its rank, counted from the newest. *)
Definition prunable (p : RetentionPolicy) (t : DateTime) (i : nat) (pushed_at : DateTime) : Prop :=
  (∃ d, max_age_days p = Some d ∧ (days d < t - pushed_at)%Z)
  ∨ (∃ m, max_images_per_ns p = Some m ∧ (Z.to_nat m ≤ i)%nat).

Lemma existsb_eqb d l : existsb (String.eqb d) l = true ↔ In d l.
Proof.
  rewrite existsb_exists. split; [intros (x & Hx & ->%String.eqb_eq); done|].
  intros Hd. exists d. split; [done | by apply String.eqb_eq].
Qed.

Lemma push_missing_In ds acc d : In d (push_missing ds acc) ↔ In d ds ∨ In d acc.
Proof.
  revert acc. induction ds as [|x ds IH]; intros acc; cbn; [tauto|]. rewrite IH.
  destruct (existsb (String.eqb x) acc) eqn:E.
  - apply existsb_eqb in E. naive_solver.
  - rewrite in_app_iff. cbn. tauto.
Qed.

Lemma push_missing_NoDup ds acc : NoDup acc → NoDup (push_missing ds acc).
Proof.
  revert acc. induction ds as [|x ds IH]; intros acc Hn; cbn; [done|]. apply IH.
  destruct (existsb (String.eqb x) acc) eqn:E; [done|]. apply NoDup_app. split_and!; [done| |].
  - intros y Hy ->%list_elem_of_singleton. apply list_elem_of_In, existsb_eqb in Hy. congruence.
  - apply NoDup_singleton.
Qed.

(** The last [k] entries, by their index. *)
Lemma take_rev_In {A} (k : nat) (l : list A) x :
  In x (take k (rev l)) ↔ ∃ i, l !! i = Some x ∧ (length l - k ≤ i)%nat.
Proof.
  change (take k (rev l)) with (firstn k (rev l)). rewrite firstn_rev, <- in_rev.
  change (skipn (length l - k) l) with (drop (length l - k) l).
  rewrite <- list_elem_of_In, list_elem_of_lookup. split.
  - intros [i Hi]. rewrite lookup_drop in Hi. exists (length l - k + i)%nat. split; [done | lia].
  - intros (i & Hi & Hle). exists (i - (length l - k))%nat. rewrite lookup_drop.
    by replace (length l - k + (i - (length l - k)))%nat with i by lia.
Qed.

(** C25 (retention).  [RetentionPolicy::apply] lists exactly the digests of the entries that
    are too old or whose rank from the newest is at least the maximal count, each once. *)
Theorem retention_apply_exact p images t d :
  NoDup (map fst images) →
  NoDup (retention_apply p images t)
  ∧ (In d (retention_apply p images t) ↔
     ∃ i pushed_at, merge_sort newer_entry images !! i = Some (d, pushed_at)
                    ∧ prunable p t i pushed_at).
Proof.
  intros Hn. unfold retention_apply. set (entries := merge_sort newer_entry images).
  assert (NoDup (map fst entries)) as Hn'.
  { change (NoDup (fst <$> entries)). subst entries. by rewrite merge_sort_Permutation. }
  split.
  - apply push_missing_NoDup. unfold over_age. destruct (max_age_days p); [|constructor].
    by apply select_where_NoDup.
  - rewrite push_missing_In. split.
    + intros [Hc|Ha].
      * apply in_map_iff in Hc as ([d' ts] & <- & Hin). apply take_rev_In in Hin as (i & Hi & Hle).
        exists i, ts. split; [done|]. right. unfold over_count in Hle.
        apply lookup_lt_Some in Hi. destruct (max_images_per_ns p) as [m|]; [|lia]. exists m. split; [done|lia].
      * unfold over_age in Ha. destruct (max_age_days p) as [a|] eqn:Ea; [|done].
        apply in_map_iff in Ha as ([d' ts] & <- & [Hin Hlt%Z.ltb_lt]%filter_In).
        apply list_elem_of_In, list_elem_of_lookup in Hin as [i Hi]. exists i, ts. split; [done|].
        left. exists a. split; [done|]. cbn in Hlt. lia.
    + intros (i & ts & Hi & [(a & Ea & Hlt)|(m & Em & Hle)]).
      * right. unfold over_age. rewrite Ea. apply in_map_iff. exists (d, ts). split; [done|].
        apply filter_In. split; [apply list_elem_of_In, list_elem_of_lookup; eauto|]. by apply Z.ltb_lt.
      * left. apply in_map_iff. exists (d, ts). split; [done|]. apply take_rev_In. exists i.
        split; [done|]. unfold over_count. rewrite Em. lia.
Qed.

(** ** Storage paths *)

(** A path of the storage layer has three pieces. *)
Lemma storage_pieces ns mid digest :
  ~ In SLASH (bytes ns) → ~ In SLASH (bytes mid) → ~ In SLASH (bytes digest) →
  split SLASH (bytes (ns +:+ "/" +:+ mid +:+ "/" +:+ digest)) = [bytes ns; bytes mid; bytes digest].
Proof.
  intros H1 H2 H3. rewrite !bytes_app. change (bytes "/") with [SLASH]. cbn [app].
  rewrite split_app by done. cbn [app]. rewrite split_app by done. by rewrite split_no_sep.
Qed.

Lemma namespace_id_slash s id : namespace_id_new s = Ok id → id = s ∧ s ≠ "" ∧ ~ In SLASH (bytes s).
Proof.
  unfold namespace_id_new. case_bool_decide; [done|]. cbn. destruct (64 <? _); [done|].
  destruct (forallb _ _) eqn:E; [|done]. intros [= <-]. split_and!; [done..|].
  intros Hin. rewrite forallb_forall in E. by apply E in Hin.
Qed.

Lemma length_bytes s : length (bytes s) = String.length s.
Proof. induction s as [|a s IH]; cbn; [done|]. by rewrite IH. Qed.

Lemma digest_bytes s d :
  image_digest_new s = Ok d → ~ In SLASH (bytes d) ∧ length (bytes d) = 71%nat.
Proof.
  unfold image_digest_new. destruct (starts_with s "sha256:") eqn:E1; [|done].
  destruct (str_len s =? 71) eqn:E2; [|done]. destruct (forallb _ _) eqn:E3; [|done]. cbn.
  intros [= <-]. apply prefixb_spec in E1 as [rest E1]. rewrite bytes_of_bytes.
  - rewrite length_map. apply N.eqb_eq in E2. unfold str_len in E2.
    rewrite <- length_bytes in E2. split; [|lia].
    rewrite E1 in *. rewrite drop_app_length' in E3 by done. rewrite map_app, in_app_iff.
    rewrite forallb_forall in E3. intros [Hin|(b & Hb & Hin)%in_map_iff].
    + cbn in Hin. unfold SLASH in Hin. repeat destruct Hin as [Hin|Hin]; done.
    + assert (b = SLASH) as ->.
      { unfold ascii_lower, is_upper, SLASH in *. destruct (N.leb_spec 65 b), (N.leb_spec b 90); cbn in Hb; lia. }
      by apply E3 in Hin.
  - apply Forall_map. eapply Forall_impl; [apply (bytes_lt s)|]. intros b Hb. unfold compose, ascii_lower, is_upper.
    destruct (_ && _) eqn:E; [apply andb_true_iff in E as [?%N.leb_le ?%N.leb_le]; lia | done].
Qed.

Lemma component_long piece : (3 ≤ length piece)%nat → component piece = Some (Normal piece).
Proof.
  intros Hl. unfold component. rewrite !bool_decide_eq_false_2; [done|..]; intros ->; cbn in Hl; lia.
Qed.

(** Where a namespace stores its files.  The files of a namespace lie in a directory of
    its name below the storage root, except for the two names [.] and [..], which
    [NamespaceId::new] accepts: the first lies in the root itself, the second is a step out of
    it. *)
Theorem namespace_paths root s ns digest0 digest :
  has_root (bytes root) = true → namespace_id_new s = Ok ns → image_digest_new digest0 = Ok digest →
  components (path_join (bytes root) (bytes (manifest_path ns digest)))
  = (components (bytes root)
     ++ (if String.eqb ns "." then [] else if String.eqb ns ".." then [ParentDir] else [Normal (bytes ns)])
     ++ [Normal (bytes "manifests"); Normal (bytes digest)])%list.
Proof.
  intros Hroot (-> & Hne & Hs)%namespace_id_slash [Hd Hlen]%digest_bytes.
  assert (split SLASH (bytes (manifest_path s digest)) = [bytes s; bytes "manifests"; bytes digest]) as Hp.
  { unfold manifest_path. apply (storage_pieces s "manifests"); [done| |done].
    vm_compute. intros Hin. repeat destruct Hin as [Hin|Hin]; done. }
  rewrite components_join; [|done|].
  - f_equal. rewrite Hp. cbn [omap list_omap]. rewrite (component_long (bytes digest)) by (rewrite Hlen; lia).
    change (component (bytes "manifests")) with (Some (Normal (bytes "manifests"))).
    destruct (String.eqb_spec s ".") as [->|H1]; [done|]. destruct (String.eqb_spec s "..") as [->|H2]; [done|].
    unfold component. rewrite !bool_decide_eq_false_2; [done|..];
      intros Heq%(f_equal of_bytes); rewrite of_bytes_bytes in Heq; done.
  - unfold manifest_path. rewrite bytes_app. destruct (bytes s) as [|b l] eqn:E.
    + exfalso. apply Hne. rewrite <- (of_bytes_bytes s), E. done.
    + cbn. apply N.eqb_neq. intros ->. apply Hs. by left.
Qed.
