(* ===== verification/RegistrySafety.v ===== *)
(** * The registry: accounting

    The invariant of the registry tables: what is stored in a namespace is within its used
    bytes, and these are within its quota; and what [apply_retention] and
    [create_namespace] do to a namespace. *)
From S2P Require Import Prelude Text AuditActions AuditLog Accounts Paths CronJobs HostingTables Store Users Sites StagingChanges StagingSafety Registry.
Open Scope N_scope.

(** ** The invariant *)

(** The bytes of the images of a namespace. *)
Definition stored_bytes (ns : string) (l : list ImageRow) : Z :=
  foldr (λ r n, ir_size_bytes r + n)%Z 0%Z (select_where (image_in ns) l).

Arguments stored_bytes : simpl never.

Definition image_key (r : ImageRow) : string * string := (ir_namespace r, ir_digest r).

Definition namespace_row_ok (r : NamespaceRow) : Prop :=
  namespace_id_new (nr_namespace_id r) = Ok (nr_namespace_id r)
  ∧ (0 ≤ nr_used_bytes r ≤ nr_quota_bytes r)%Z ∧ (nr_quota_bytes r ≤ I64_MAX)%Z.

Definition image_row_ok (r : ImageRow) : Prop :=
  image_digest_new (ir_digest r) = Ok (ir_digest r) ∧ (0 ≤ ir_size_bytes r ≤ I64_MAX)%Z
  ∧ is_ok (parse_scan_status (ir_scan_status r)) = true.

Record registry_wf (h : HostingTables) : Prop := {
  gw_ids : NoDup (map nr_namespace_id (ht_namespaces h));
  gw_namespaces : ∀ r, In r (ht_namespaces h) → namespace_row_ok r;
  gw_keys : NoDup (map image_key (ht_images h));
  gw_images : ∀ r, In r (ht_images h) → image_row_ok r;
  gw_image_ns : ∀ r, In r (ht_images h) → In (ir_namespace r) (map nr_namespace_id (ht_namespaces h));
  gw_accounted : ∀ r, In r (ht_namespaces h) →
    (stored_bytes (nr_namespace_id r) (ht_images h) ≤ nr_used_bytes r)%Z
}.

(** *** Sums *)

Lemma stored_cons ns r l :
  stored_bytes ns (r :: l) = ((if image_in ns r then ir_size_bytes r else 0) + stored_bytes ns l)%Z.
Proof. unfold stored_bytes, select_where. cbn. by destruct (image_in ns r). Qed.

Lemma stored_app ns l1 l2 : stored_bytes ns (l1 ++ l2) = (stored_bytes ns l1 + stored_bytes ns l2)%Z.
Proof. induction l1 as [|r l1 IH]; [done|]. cbn [app]. rewrite !stored_cons, IH. lia. Qed.

Definition sizes_ok (l : list ImageRow) : Prop := ∀ r, In r l → (0 ≤ ir_size_bytes r)%Z.

Lemma stored_nonneg ns l : sizes_ok l → (0 ≤ stored_bytes ns l)%Z.
Proof.
  induction l as [|r l IH]; intros Hs; [done|]. rewrite stored_cons.
  assert (0 ≤ stored_bytes ns l)%Z by (apply IH; intros x Hx; apply Hs; by right).
  pose proof (Hs r (or_introl eq_refl)). destruct (image_in ns r); lia.
Qed.

Lemma stored_delete ns p l : sizes_ok l → (stored_bytes ns (delete_where p l) ≤ stored_bytes ns l)%Z.
Proof.
  induction l as [|r l IH]; intros Hs; [done|]. unfold delete_where. cbn [List.filter].
  assert (stored_bytes ns (delete_where p l) ≤ stored_bytes ns l)%Z by (apply IH; intros x Hx; apply Hs; by right).
  pose proof (Hs r (or_introl eq_refl)). unfold delete_where in *.
  destruct (p r); cbn [negb]; rewrite !stored_cons; destruct (image_in ns r); lia.
Qed.

(** A deleted image of the namespace no longer counts. *)
Lemma stored_delete_one ns p r l :
  sizes_ok l → In r l → p r = true → image_in ns r = true →
  (stored_bytes ns (delete_where p l) ≤ stored_bytes ns l - ir_size_bytes r)%Z.
Proof.
  induction l as [|x l IH]; intros Hs; [done|].
  assert (sizes_ok l) as Hs' by (intros y Hy; apply Hs; by right).
  pose proof (Hs x (or_introl eq_refl)). pose proof (stored_delete ns p l Hs').
  unfold delete_where in *. cbn [List.filter]. intros [->|Hin] Hp Hns.
  - rewrite Hp. cbn [negb]. rewrite stored_cons, Hns. lia.
  - specialize (IH Hs' Hin Hp Hns). destruct (p x); cbn [negb]; rewrite !stored_cons; destruct (image_in ns x); lia.
Qed.

Lemma stored_update ns p f l :
  (∀ r, ir_size_bytes (f r) = ir_size_bytes r ∧ ir_namespace (f r) = ir_namespace r) →
  stored_bytes ns (update_where p f l) = stored_bytes ns l.
Proof.
  intros Hf. induction l as [|r l IH]; [done|]. unfold update_where in *. cbn [map].
  rewrite !stored_cons, IH. f_equal. destruct (p r); [|done].
  unfold image_in. by destruct (Hf r) as [-> ->].
Qed.

(** *** Statements *)

Lemma wf_sizes h : registry_wf h → sizes_ok (ht_images h).
Proof. intros HW r Hr. by destruct (gw_images h HW r Hr) as (_ & [? _] & _). Qed.

Lemma image_is_key ns d r : image_is ns d r = true ↔ image_key r = (ns, d).
Proof.
  unfold image_is, image_in, image_key. rewrite andb_true_iff, !String.eqb_eq. naive_solver.
Qed.

Lemma wf_delete_image p h :
  registry_wf h → registry_wf (set_images (delete_where p (ht_images h)) h).
Proof.
  intros HW. pose proof (wf_sizes h HW). destruct HW as [W1 W2 W3 W4 W5 W6]. constructor; cbn; try done.
  - by apply delete_where_NoDup.
  - intros r [Hr _]%delete_where_In. auto.
  - intros r [Hr _]%delete_where_In. auto.
  - intros r Hr. etransitivity; [by apply stored_delete | auto].
Qed.

Lemma wf_update_status ns d st h n h' :
  update_status_row ns d st h = Ok (n, h') → registry_wf h → registry_wf h'.
Proof.
  intros [= _ <-] [W1 W2 W3 W4 W5 W6]. constructor; cbn; try done.
  - by rewrite update_where_key.
  - intros r (x & Hx & ->)%update_where_In. specialize (W4 x Hx). destruct (image_is ns d x); [|done].
    destruct W4 as (? & [? ?] & _). split_and!; [done..|]. by destruct st.
  - intros r (x & Hx & ->)%update_where_In. specialize (W5 x Hx). by destruct (image_is ns d x).
  - intros r Hr. rewrite stored_update by done. auto.
Qed.

(** [used_bytes] may take any value between what is stored and the quota. *)
Lemma wf_update_used id used h n h' :
  update_used_row id used h = Ok (n, h') → registry_wf h →
  (stored_bytes id (ht_images h) ≤ used)%Z →
  (∀ r, In r (ht_namespaces h) → nr_namespace_id r = id → (used ≤ nr_quota_bytes r)%Z) →
  registry_wf h'.
Proof.
  unfold update_used_row. destruct (_ && _); [done|]. intros [= _ <-] HW Hlo Hhi.
  pose proof (stored_nonneg id (ht_images h) (wf_sizes h HW)).
  destruct HW as [W1 W2 W3 W4 W5 W6]. constructor; cbn; try done.
  - by rewrite update_where_key.
  - intros r (x & Hx & ->)%update_where_In. destruct (ns_is id x) eqn:E; [|auto].
    apply String.eqb_eq in E. destruct (W2 x Hx) as (? & ? & ?). specialize (Hhi x Hx E).
    split_and!; cbn; try done; lia.
  - intros r Hr. rewrite update_where_key; auto.
  - intros r (x & Hx & ->)%update_where_In. destruct (ns_is id x) eqn:E; [|auto].
    apply String.eqb_eq in E. cbn. by rewrite E.
Qed.

Lemma stored_none ns l : (∀ r, In r l → image_in ns r = false) → stored_bytes ns l = 0%Z.
Proof.
  induction l as [|r l IH]; intros Hl; [done|]. rewrite stored_cons, Hl by (by left).
  rewrite IH; [done|]. intros x Hx. apply Hl. by right.
Qed.

(** A namespace that is new. *)
Lemma wf_new_namespace r h h' :
  replace_namespace_row r h = Ok (tt, h') → registry_wf h → namespace_row_ok r →
  ~ In (nr_namespace_id r) (map nr_namespace_id (ht_namespaces h)) → registry_wf h'.
Proof.
  unfold replace_namespace_row. destruct (_ <? _)%Z; [done|]. destruct (_ <? _)%Z; [done|].
  intros [= <-] [W1 W2 W3 W4 W5 W6] Hok Hnew.
  assert (delete_where (ns_is (nr_namespace_id r)) (ht_namespaces h) = ht_namespaces h) as Hd.
  { apply delete_where_none. intros x Hx. apply String.eqb_neq. intros E. apply Hnew. rewrite <- E.
    by apply in_map. }
  constructor; cbn; rewrite ?Hd; try done.
  - by apply NoDup_snoc.
  - intros x [Hx|[<-|[]]]%in_app_or; auto.
  - intros x Hx. rewrite map_app. apply in_or_app. left. auto.
  - intros x [Hx|[<-|[]]]%in_app_or; [auto|].
    rewrite stored_none; [apply Hok|]. intros x Hx. apply String.eqb_neq. intros E.
    apply Hnew. rewrite <- E. by apply W5.
Qed.

(** The tables after a push: an image in the place of one with its digest, and its bytes
    accounted. *)
Definition pushed (nr : NamespaceRow) (r : ImageRow) (h : HostingTables) : HostingTables :=
  set_namespaces (update_where (ns_is (ir_namespace r))
    (λ x, mkNamespaceRow (nr_namespace_id x) (nr_owner x) (nr_quota_bytes x)
            (nr_used_bytes nr + ir_size_bytes r)%Z (nr_created_at x)) (ht_namespaces h))
    (set_images (delete_where (image_is (ir_namespace r) (ir_digest r)) (ht_images h) ++ [r]) h).

Lemma wf_pushed nr r h :
  registry_wf h → In nr (ht_namespaces h) → nr_namespace_id nr = ir_namespace r → image_row_ok r →
  (nr_used_bytes nr + ir_size_bytes r ≤ nr_quota_bytes nr)%Z → registry_wf (pushed nr r h).
Proof.
  intros HW Hnr Hid Hok Hq. pose proof (wf_sizes h HW) as Hs.
  destruct HW as [W1 W2 W3 W4 W5 W6]. unfold pushed. constructor; cbn.
  - by rewrite update_where_key.
  - intros x (x0 & Hx & ->)%update_where_In. destruct (ns_is _ x0) eqn:E; [|auto].
    apply String.eqb_eq in E. destruct (W2 x0 Hx) as (? & ? & ?). destruct (W2 nr Hnr) as (_ & ? & _).
    assert (x0 = nr) as -> by (eapply NoDup_key_inj; [exact W1|done..|congruence]).
    destruct Hok as (_ & ? & _). split_and!; cbn; try done; lia.
  - apply NoDup_snoc; [by apply delete_where_NoDup|]. intros (x & Hx & [_ Hne]%delete_where_In)%in_map_iff.
    assert (image_is (ir_namespace r) (ir_digest r) x = true) by by apply image_is_key. congruence.
  - intros x [[Hx _]%delete_where_In|[<-|[]]]%in_app_or; auto.
  - rewrite update_where_key by done.
    intros x [[Hx _]%delete_where_In|[<-|[]]]%in_app_or; [auto|]. rewrite <- Hid. by apply in_map.
  - assert (∀ n, stored_bytes n [] = 0%Z) as Hnil by done.
    intros x (x0 & Hx & ->)%update_where_In. rewrite stored_app, stored_cons, Hnil.
    pose proof (stored_delete (ir_namespace r) (image_is (ir_namespace r) (ir_digest r)) (ht_images h) Hs).
    destruct (ns_is _ x0) eqn:E.
    + apply String.eqb_eq in E. assert (x0 = nr) as -> by (eapply NoDup_key_inj; [exact W1|done..|congruence]).
      cbn. specialize (W6 nr Hnr). rewrite Hid in W6 |- *. unfold image_in. rewrite String.eqb_refl.
      cbn. lia.
    + unfold ns_is in E. unfold image_in. rewrite String.eqb_sym in E. rewrite E. cbn.
      pose proof (stored_delete (nr_namespace_id x0) (image_is (ir_namespace r) (ir_digest r)) (ht_images h) Hs).
      specialize (W6 x0 Hx). lia.
Qed.

(** ** Methods *)

Section methods.
Context `{Env} `{BlobStore} `{ScanHook}.
Abbreviation tables w := (db_hosting (w_db w)).
Abbreviation K := (on_db (on_tables (keeps registry_wf))).

(** Everything but the files. *)
Definition rows_of (h : HostingTables) := (ht_namespaces h, ht_images h).

Lemma wf_rows h h' : rows_of h' = rows_of h → registry_wf h → registry_wf h'.
Proof. unfold rows_of. intros [= E1 E2] []. constructor; rewrite ?E1, ?E2; done. Qed.

Lemma storage_rows f : within (on_db (on_tables (same rows_of))) (storage_call f).
Proof. intros w. unfold storage_call. by destruct (storage_fault _). Qed.

Lemma keeps_rows {E A} (c : M World E A) :
  within (on_db (on_tables (same rows_of))) c → within K c.
Proof. intros Hc w HW. eapply wf_rows, HW. apply Hc. Qed.

Lemma namespaces_find_run id w o w' :
  namespaces_find id w = (Ok o, w') →
  w_db w' = w_db w ∧ found_row row_to_namespace (List.find (ns_is id) (ht_namespaces (tables w))) o.
Proof.
  unfold namespaces_find. intros Hr. inv_bind Hr. apply select_run in R as (Hdb & -> & _).
  apply lift_ok in Hr as [Ht ->]. split; [done | by apply transpose_found].
Qed.

Lemma images_find_run ns d w o w' :
  images_find ns d w = (Ok o, w') →
  w_db w' = w_db w ∧ found_row row_to_image (List.find (image_is ns d) (ht_images (tables w))) o.
Proof.
  unfold images_find. intros Hr. inv_bind Hr. apply select_run in R as (Hdb & -> & _).
  apply lift_ok in Hr as [Ht ->]. split; [done | by apply transpose_found].
Qed.

(** What a namespace and an image read from good tables hold. *)
Lemma read_namespace r ns :
  namespace_row_ok r → row_to_namespace r = Ok ns →
  ns_id ns = nr_namespace_id r ∧ ns_owner ns = nr_owner r
  ∧ ns_used_bytes ns = nr_used_bytes r ∧ ns_quota_bytes ns = nr_quota_bytes r.
Proof.
  intros (Hid & Hu & Hq). unfold row_to_namespace. rewrite Hid. cbn. intros [= <-]. cbn.
  split_and!; try done; apply i64_as_u64_nonneg; lia.
Qed.

Lemma read_image r i :
  image_row_ok r → row_to_image r = Ok i →
  img_digest i = ir_digest r ∧ img_size_bytes i = ir_size_bytes r ∧ img_pushed_at i = ir_pushed_at r.
Proof.
  intros (Hd & Hs & Hst). unfold row_to_image. rewrite Hd. cbn.
  destruct (namespace_id_new _); cbn; [|done]. destruct (parse_scan_status _); cbn; [|done].
  intros [= <-]. cbn. split_and!; try done. by apply i64_as_u64_nonneg.
Qed.

Lemma require_namespace_run id w ns w' :
  require_namespace id w = (Ok ns, w') →
  w_db w' = w_db w ∧ ∃ r, In r (ht_namespaces (tables w)) ∧ nr_namespace_id r = id
                          ∧ row_to_namespace r = Ok ns.
Proof.
  unfold require_namespace, reg. intros Hr. inv_bind Hr. apply map_err_ok, namespaces_find_run in R as [Hdb Hf].
  apply ok_or_ok in Hr as [-> ->]. destruct Hf as (r & Hf & Hrow). split; [done|].
  apply List.find_some in Hf as [Hin Hid%String.eqb_eq]. eauto.
Qed.

Lemma reg_err {A} (c : M World RepoError A) w e w' :
  reg c w = (Err e, w') → ∃ e', c w = (Err e', w').
Proof. apply map_err_err. Qed.

Lemma hosting_statement_ok {A} (f : HostingTables → result (A * HostingTables) string) w a w' :
  statement (hosting_statement f) w = (Ok a, w') → f (tables w) = Ok (a, tables w').
Proof.
  unfold statement, hosting_statement. destruct (sql_fault _); [done|].
  destruct (f (tables w)) as [[x h']|]; [|done]. intros [= <- <-]. done.
Qed.

(** A statement that fails leaves the tables; [update_used] also fails after writing. *)
Lemma update_used_tables id used w r w' :
  namespaces_update_used id used w = (r, w') →
  tables w' = tables w ∨ ∃ n, update_used_row id (u64_as_i64 used) (tables w) = Ok (n, tables w').
Proof.
  unfold namespaces_update_used, bind. destruct (statement _ w) as [[n|e] w1] eqn:E.
  - apply hosting_statement_ok in E. case_bool_decide; intros [= <- <-]; right; eauto.
  - apply statement_err in E. intros [= <- <-]. left. by rewrite E.
Qed.

(** *** Retention *)

(** While the loop runs, what is stored is within the bytes used before it. *)
Definition loop_inv (id : string) (used : Z) (h : HostingTables) : Prop :=
  registry_wf h ∧ (stored_bytes id (ht_images h) ≤ used)%Z
  ∧ ∀ r, In r (ht_namespaces h) → nr_namespace_id r = id → (used ≤ nr_quota_bytes r)%Z.

Lemma loop_inv_rows id used h h' : rows_of h' = rows_of h → loop_inv id used h → loop_inv id used h'.
Proof.
  intros E (HW & Hs & Hq). pose proof E as [= E1 E2]. split_and!; [by eapply wf_rows|by rewrite E2|].
  by rewrite E1.
Qed.

(** A new value of [used_bytes] between what is stored and what was used. *)
Lemma loop_update_used id used v h n h' :
  update_used_row id (u64_as_i64 v) h = Ok (n, h') → loop_inv id used h →
  (stored_bytes id (ht_images h) ≤ v ≤ used)%Z → loop_inv id used h'.
Proof.
  intros Hu (HW & Hs & Hq) Hv. destruct (List.find (ns_is id) (ht_namespaces h)) as [nr|] eqn:Ef.
  - apply List.find_some in Ef as [Hnr Eid%String.eqb_eq].
    destruct (gw_namespaces _ HW nr Hnr) as (_ & _ & Hmax). specialize (Hq nr Hnr Eid) as Hq'.
    replace (u64_as_i64 v) with v in Hu
      by (unfold u64_as_i64; destruct (Z.leb_spec v I64_MAX); [done | lia]).
    assert (registry_wf h') as HW'.
    { eapply wf_update_used; [exact Hu|done|lia|]. intros x Hx Hid. specialize (Hq x Hx Hid). lia. }
    unfold update_used_row in Hu. destruct (_ && _); [done|]. injection Hu as _ <-.
    split_and!; [done|done|]. cbn. intros x (x0 & Hx0 & ->)%update_where_In. destruct (ns_is id x0); cbn; auto.
  - unfold update_used_row in Hu. destruct (_ && _); [done|]. injection Hu as _ <-.
    eapply loop_inv_rows; [|by split_and!]. unfold rows_of. cbn. by rewrite update_where_none.
Qed.

Lemma prune_step id used r w r1 w1 r2 w2 :
  loop_inv id used (tables w) → In r (ht_images (tables w)) → image_in id r = true →
  images_delete id (ir_digest r) w = (r1, w1) →
  loop_inv id used (tables w1)
  ∧ (is_ok r1 = true →
     namespaces_update_used id (Z.max 0 (used - ir_size_bytes r)) w1 = (r2, w2) →
     loop_inv id used (tables w2)).
Proof.
  intros (HW & Hs & Hq) Hr Hin Hd. pose proof (wf_sizes _ HW) as Hsz.
  assert (image_is id (ir_digest r) r = true) as Hp
    by (unfold image_is; by rewrite Hin, String.eqb_refl).
  pose proof (stored_delete_one id (image_is id (ir_digest r)) r _ Hsz Hr Hp Hin) as Hone.
  pose proof (stored_nonneg id _ Hsz). pose proof (gw_images _ HW r Hr) as (_ & Hsize & _).
  unfold images_delete in Hd. destruct r1 as [x|e]; [|apply statement_err in Hd; by rewrite Hd].
  apply execute_ok in Hd.
  assert (loop_inv id used (tables w1)) as HL1.
  { rewrite Hd. split_and!; [by apply wf_delete_image|cbn; lia|done]. }
  split; [done|]. intros _ [->|[n Hu]]%update_used_tables; [done|].
  eapply loop_update_used; [exact Hu|done|]. rewrite Hd. cbn. lia.
Qed.

Lemma loop_prune_images ns id ds n w :
  loop_inv id (ns_used_bytes ns) (tables w) →
  loop_inv id (ns_used_bytes ns) (tables (prune_images ns id ds n w).2).
Proof.
  set (P := λ w, loop_inv id (ns_used_bytes ns) (tables w)).
  assert (∀ w w', w_db w' = w_db w → P w → P w') as HPdb by (unfold P; intros w0 w' ->; done).
  revert n w. induction ds as [|d ds IH]; intros n w HP; cbn [prune_images]; [done|].
  match goal with |- loop_inv _ _ (tables ?x) => change (P x) end.
  apply bind_post; [intros e w1; destruct (image_digest_new d); by intros [= _ <-]|].
  intros digest w1 [_ ->]%lift_ok.
  apply bind_post.
  { intros e w2 [e' Hr]%reg_err. eapply HPdb, HP. unfold images_find, bind in Hr.
    destruct (select _ w) as [[o|e0] w3] eqn:Hsel; [|injection Hr as _ <-; by apply statement_err in Hsel].
    apply select_run in Hsel as (Hdb & _). destruct (transpose _ o); cbn in Hr; [done|]. by injection Hr as _ <-. }
  intros [image|] w2 [Hdb Hf]%map_err_ok%images_find_run; [|by apply IH, (HPdb w)].
  destruct Hf as (r & Hf & Hrow). apply List.find_some in Hf as [Hr Hk].
  apply andb_true_iff in Hk as [Hin Hdig%String.eqb_eq].
  assert (P w2) as HP2 by by eapply HPdb. rewrite <- Hdb in Hr.
  destruct (read_image r image (gw_images _ (proj1 HP2) r Hr) Hrow) as (_ & Hsize & _).
  pose proof (within_attempt (F:=PushError) _ _ (storage_rows (delete (manifest_path id digest))) w2) as Hst.
  unfold storage_delete. apply bind_post; [intros e w3 Hs; unfold attempt in Hs; by destruct (storage_call _ _) as [[]]|].
  intros o w3 Hs. rewrite Hs in Hst. unfold on_db, on_tables, same in Hst. cbn in Hst.
  assert (P w3) as HP3 by by eapply loop_inv_rows.
  assert (In r (ht_images (tables w3))) as Hr3 by (injection Hst as _ ->; done).
  rewrite <- Hdig. destruct (images_delete id (ir_digest r) w3) as [r1 w4] eqn:Hdel.
  destruct (namespaces_update_used id (Z.max 0 (ns_used_bytes ns - ir_size_bytes r)) w4) as [r2 w5] eqn:Hupd.
  destruct (prune_step id (ns_used_bytes ns) r w3 r1 w4 r2 w5 HP3 Hr3 Hin Hdel) as [HP4 HP5].
  apply bind_post; [intros e w' [e' Hx]%reg_err; rewrite Hdel in Hx; by injection Hx as _ <-|].
  intros x w' Hx%map_err_ok. rewrite Hdel in Hx. injection Hx as -> <-.
  cbn [ns_used_bytes account_delete]. rewrite Hsize.
  apply bind_post; [intros e w' [e' Hy]%reg_err; rewrite Hupd in Hy; injection Hy as -> <-; by apply HP5|].
  intros y w' Hy%map_err_ok. rewrite Hupd in Hy. injection Hy as -> <-. apply IH. by apply HP5.
Qed.

(** The tables the loop starts from. *)
Lemma loop_inv_start r ns h :
  registry_wf h → In r (ht_namespaces h) → row_to_namespace r = Ok ns →
  loop_inv (nr_namespace_id r) (ns_used_bytes ns) h.
Proof.
  intros HW Hr Hrow. destruct (read_namespace r ns (gw_namespaces _ HW r Hr) Hrow) as (_ & _ & -> & _).
  split_and!; [done|by apply (gw_accounted _ HW)|]. intros r' Hr' Hid.
  assert (r' = r) as -> by (eapply NoDup_key_inj; [apply HW|done..]).
  destruct (gw_namespaces _ HW r Hr) as (_ & ? & _). lia.
Qed.

Lemma reads_same {A B} (f : Db → A) (k : A → result B RepoError) w :
  w_db (reg (row <- select f ;; lift (k row)) w).2 = w_db w.
Proof.
  unfold reg, map_err, bind. destruct (select f w) as [[a|e] w1] eqn:E.
  - apply select_run in E as (Hdb & _). by destruct (k a).
  - by apply statement_err in E.
Qed.

Lemma require_namespace_err id w e w' : require_namespace id w = (Err e, w') → w_db w' = w_db w.
Proof.
  unfold require_namespace, bind. intros Hr.
  pose proof (reads_same (λ d, List.find (ns_is id) (ht_namespaces (db_hosting d)))
    (transpose row_to_namespace) w) as Hs.
  change (reg (namespaces_find id) w) with
    (reg (row <- select (λ d, List.find (ns_is id) (ht_namespaces (db_hosting d))) ;;
          lift (transpose row_to_namespace row)) w) in Hr.
  destruct (reg _ w) as [[o|e'] w2]; cbn in Hs; [destruct o; [done|]|]; by injection Hr as _ <-.
Qed.

Lemma wf_apply_retention id p w :
  registry_wf (tables w) → registry_wf (tables (apply_retention id p w).2).
Proof.
  intros HW. unfold apply_retention.
  set (P := λ w, registry_wf (tables w)). match goal with |- registry_wf (tables ?x) => change (P x) end.
  assert (∀ w', w_db w' = w_db w → P w') as HP by (unfold P; by intros w' ->).
  apply bind_post; [intros e w1 Hr; by apply HP, (require_namespace_err id w e)|].
  intros ns w1 (Hdb1 & r & Hr & Hid & Hrow)%require_namespace_run.
  assert (∀ w', w_db w' = w_db w1 → P w') as HP1 by (intros w' E; apply HP; congruence).
  pose proof (reads_same (λ d, merge_sort by_pushed_at (select_where (image_in id) (ht_images (db_hosting d))))
    (collect row_to_image) w1) as Hs.
  apply bind_post; [intros e w2 Hl; apply HP1; unfold list_for_namespace in Hl; by rewrite Hl in Hs|].
  intros images w2 Hl. unfold list_for_namespace in Hl. rewrite Hl in Hs. cbn in Hs.
  apply bind_post; [done|]. intros t w3 [= <- <-].
  assert (loop_inv id (ns_used_bytes ns) (tables (tick w2))) as HL.
  { cbn. rewrite Hs, Hdb1, <- Hid. by apply loop_inv_start. }
  exact (proj1 (loop_prune_images ns id _ 0 _ HL)).
Qed.

(** *** Push *)

Lemma write_blobs_rows id blobs : within (on_db (on_tables (same rows_of))) (write_blobs id blobs).
Proof.
  pose proof storage_rows. induction blobs as [|[d b] blobs IH]; cbn [write_blobs]; [within_tac|].
  unfold storage_write. within_tac.
Qed.

Lemma wf_scan_pushed image w :
  registry_wf (tables w) → registry_wf (tables (scan_pushed image w).2).
Proof.
  assert (∀ st, within K (reg (images_update_status (img_namespace image) (img_digest image) st))) as Hst.
  { intros st. unfold reg, images_update_status. within_tac. apply on_db_statement; [apply _|].
    intros d n d' Hs. unfold hosting_statement in Hs.
    destruct (update_status_row _ _ _ _) as [[m h']|] eqn:E; [|done]. injection Hs as _ <-.
    unfold on_tables, keeps. cbn. by eapply wf_update_status. }
  intros HW. unfold scan_pushed. destruct (scan_image _ _) as [r|e].
  - match goal with |- registry_wf (tables (?m _).2) => enough (within K m) as Hm by exact (Hm (tick w) HW) end.
    unfold reg at 2. unfold scans_insert. within_tac. apply on_db_execute; [apply _|]. intros d HW'.
    by eapply wf_rows, HW'.
  - match goal with |- registry_wf (tables (?m _).2) => enough (within K m) as Hm by exact (Hm (tick w) HW) end.
    within_tac.
Qed.
End methods.
