(* ===== verification/RegistryTheorems.v ===== *)
(** * The registry: theorems

    The invariant of the registry over sequences of calls, what a round of retention does
    to the used bytes, and what creating a namespace does to one that exists. *)
From S2P Require Import Prelude Text AuditActions AuditLog Accounts Paths CronJobs HostingTables Store Users Sites StagingChanges StagingSafety Registry RegistrySafety.
Open Scope N_scope.

Section theorems.
Context `{Env} `{BlobStore} `{ScanHook}.
Abbreviation tables w := (db_hosting (w_db w)).

(** ** Push *)

Lemma pushed_rows nr r h h' :
  rows_of h' = rows_of h → rows_of (pushed nr r h') = rows_of (pushed nr r h).
Proof. unfold rows_of, pushed. cbn. by intros [= -> ->]. Qed.







(** ** Sequences of calls *)





(** ** What is given back *)

(** The deletion of one image of good tables. *)
Lemma delete_one_length ns d r l :
  NoDup (map image_key l) → In r l → image_is ns d r = true →
  length l = S (length (delete_where (image_is ns d) l)).
Proof.
  intros Hn Hin Hk. induction l as [|x l IH]; [done|]. cbn in Hn. apply NoDup_cons in Hn as [Hx Hn].
  unfold delete_where in *. cbn [List.filter length]. destruct Hin as [->|Hin].
  - rewrite Hk. cbn [negb]. do 2 f_equal. symmetry. apply delete_where_none.
    intros y Hy. apply not_true_iff_false. intros Ey%image_is_key. apply image_is_key in Hk.
    apply Hx, list_elem_of_In, in_map_iff. exists y. split; [congruence|done].
  - assert (image_is ns d x = false) as ->.
    { apply not_true_iff_false. intros Ey%image_is_key. apply image_is_key in Hk.
      apply Hx, list_elem_of_In, in_map_iff. exists r. split; [congruence|done]. }
    cbn [negb length]. f_equal. by apply IH.
Qed.

(** The used bytes of a namespace. *)
Definition used_is (id : string) (v : Z) (h : HostingTables) : Prop :=
  ∀ r, In r (ht_namespaces h) → nr_namespace_id r = id → nr_used_bytes r = v.

(** What a run of the loop leaves. *)
Definition pruned_by (id : string) (used : Z) (n m : nat) (h h' : HostingTables) : Prop :=
  length (ht_images h) = (m - n + length (ht_images h'))%nat ∧ (n ≤ m)%nat
  ∧ (∀ r, In r (ht_images h') → In r (ht_images h))
  ∧ ((n < m)%nat → ∃ r, In r (ht_images h) ∧ image_in id r = true
                        ∧ used_is id (Z.max 0 (used - ir_size_bytes r)) h').

(** One round of the loop. *)
Lemma prune_image_run id used r d w o w1 u w2 v w3 :
  loop_inv id used (tables w) → In r (ht_images (tables w)) → image_is id d r = true →
  (used ≤ I64_MAX)%Z → d = ir_digest r →
  attempt (storage_delete (manifest_path id d)) w = (Ok (E:=PushError) o, w1) →
  reg (images_delete id d) w1 = (Ok u, w2) →
  reg (namespaces_update_used id (Z.max 0 (used - ir_size_bytes r))) w2 = (Ok v, w3) →
  length (ht_images (tables w)) = S (length (ht_images (tables w3)))
  ∧ (∀ x, In x (ht_images (tables w3)) → In x (ht_images (tables w)))
  ∧ loop_inv id used (tables w3) ∧ used_is id (Z.max 0 (used - ir_size_bytes r)) (tables w3).
Proof.
  intros HL Hin Hk Hmax Hd Hs Hdel Hupd. pose proof (proj1 HL) as HW.
  pose proof (within_attempt (F:=PushError) _ _ (storage_rows (delete (manifest_path id d))) w) as Hst.
  unfold storage_delete in Hs. rewrite Hs in Hst. unfold on_db, on_tables, same in Hst. cbn in Hst.
  injection Hst as Hn1 Hi1.
  assert (loop_inv id used (tables w1)) as HL1 by (eapply loop_inv_rows, HL; unfold rows_of; congruence).
  apply map_err_ok in Hdel, Hupd. pose proof Hk as [Hns _]%andb_true_iff.
  rewrite <- Hi1 in Hin |- *. subst d.
  destruct (prune_step id used r w1 _ w2 (Ok v) w3 HL1 Hin Hns Hdel) as [_ HL3].
  specialize (HL3 eq_refl Hupd). apply execute_ok in Hdel.
  unfold namespaces_update_used in Hupd. inv_bind Hupd. case_bool_decide; [done|].
  injection Hupd as _ ->. apply hosting_statement_ok in R. unfold update_used_row in R.
  destruct (_ && _); [done|]. injection R as _ R.
  assert (ht_images (tables w3) = delete_where (image_is id (ir_digest r)) (ht_images (tables w1))) as Hi.
  { rewrite <- R. cbn. rewrite Hdel. done. }
  split_and!; [| |done|].
  - rewrite Hi. apply (delete_one_length _ _ r); [apply HL1|done..].
  - rewrite Hi. by intros x [Hx _]%delete_where_In.
  - rewrite <- R. cbn. intros x (x0 & _ & ->)%update_where_In Hid.
    destruct (ns_is id x0) eqn:E; [|apply String.eqb_neq in E; done]. cbn. unfold u64_as_i64.
    pose proof (gw_images _ (proj1 HL1) r Hin) as (_ & Hsz & _).
    destruct (Z.leb_spec (Z.max 0 (used - ir_size_bytes r)) I64_MAX); [done|lia].
Qed.

Lemma prune_images_run ns id ds n w m w' :
  prune_images ns id ds n w = (Ok m, w') → loop_inv id (ns_used_bytes ns) (tables w) →
  (ns_used_bytes ns ≤ I64_MAX)%Z →
  pruned_by id (ns_used_bytes ns) n m (tables w) (tables w') ∧ (m = n → tables w' = tables w).
Proof.
  revert n w. induction ds as [|d ds IH]; intros n w Hr HL Hmax; cbn [prune_images] in Hr.
  - injection Hr as <- <-. split; [|done]. split_and!; [lia|lia|done|lia].
  - inv_bind Hr. apply lift_ok in R as [_ ->]. inv_bind Hr. apply map_err_ok, images_find_run in R as [Hdb Hf].
    rewrite <- Hdb in Hf, HL. destruct a0 as [image|].
    2: { rewrite <- Hdb. by apply IH. }
    destruct Hf as (r & Hf & Hrow). apply List.find_some in Hf as [Hin Hk].
    pose proof Hk as [Hns Hdig%String.eqb_eq]%andb_true_iff. rewrite <- Hdb. clear Hdb.
    destruct (read_image r image (gw_images _ (proj1 HL) r Hin) Hrow) as (_ & Hsize & _).
    inv_bind Hr. inv_bind Hr. inv_bind Hr. cbn [ns_used_bytes account_delete] in R1. rewrite Hsize in R1.
    destruct (prune_image_run id (ns_used_bytes ns) r _ _ _ _ _ _ _ _ HL Hin Hk Hmax
                (eq_sym Hdig) R R0 R1) as (Hlen & Hsub & HL3 & Hu).
    destruct (IH _ _ Hr HL3 Hmax) as [(Hl & Hle & Hs & Hex) Hsame]. split; [|lia].
    split_and!; [lia|lia|auto|]. intros _. destruct (decide (m = S n)) as [Hm|Hm].
    + exists r. split_and!; [done|done|]. by rewrite (Hsame Hm).
    + destruct Hex as (r' & Hr' & Hin' & Hu'); [lia|]. exists r'. eauto.
Qed.

(** What a round of retention gives back.  Retention that pruned [S n] images returns
    the bytes of one of them only: the loop starts each time from the namespace as it was
    read before it, so the last [update_used] undoes the ones before, and the bytes of the
    other pruned images stay accounted. *)
Theorem retention_forgets_images id p n w w' :
  apply_retention id p w = (Ok (S n), w') → registry_wf (tables w) →
  length (ht_images (tables w)) = (S n + length (ht_images (tables w')))%nat
  ∧ ∃ nr r, In nr (ht_namespaces (tables w)) ∧ nr_namespace_id nr = id
      ∧ In r (ht_images (tables w)) ∧ image_in id r = true
      ∧ used_is id (nr_used_bytes nr - ir_size_bytes r) (tables w').
Proof.
  unfold apply_retention. intros Hr HW. inv_bind Hr.
  apply require_namespace_run in R as (Hdb1 & nr & Hnr & Hid & Hrow). inv_bind Hr.
  pose proof (reads_same (λ d, merge_sort by_pushed_at (select_where (image_in id) (ht_images (db_hosting d))))
    (collect row_to_image) w0) as Hs. unfold list_for_namespace in R. rewrite R in Hs. cbn in Hs.
  inv_bind Hr. injection R0 as <- <-.
  pose proof (loop_inv_start nr a _ HW Hnr Hrow) as HL. rewrite Hid in HL.
  pose proof (gw_namespaces _ HW nr Hnr) as Hok.
  destruct (read_namespace nr a Hok Hrow) as (_ & _ & Hu & _). destruct Hok as (_ & Hle & Hmax).
  assert (tables (tick w1) = tables w) as Ht by (cbn; congruence).
  apply prune_images_run in Hr as [(Hlen & _ & _ & Hex) _]; [|by rewrite Ht|lia].
  rewrite Ht in Hlen, Hex. split; [lia|]. destruct Hex as (r & Hin & Hns & Hused); [lia|].
  exists nr, r. split_and!; [done..|].
  replace (nr_used_bytes nr - ir_size_bytes r)%Z with (Z.max 0 (ns_used_bytes a - ir_size_bytes r)); [done|].
  pose proof (stored_delete_one id (image_in id) r _ (wf_sizes _ HW) Hin Hns Hns).
  pose proof (stored_nonneg id (delete_where (image_in id) (ht_images (tables w)))) as Hnn.
  destruct HL as (_ & Hst & _). rewrite Hu in *.
  assert (0 ≤ stored_bytes id (delete_where (image_in id) (ht_images (tables w))))%Z; [|lia].
  apply Hnn. intros x [Hx _]%delete_where_In. by apply (wf_sizes _ HW).
Qed.

(** Creating a namespace that exists.  When statements do not fail,
    [create_namespace] of a name in use succeeds for any owner: the namespace then belongs
    to the new owner, with the new quota and no used bytes, the images the former owner
    pushed are still stored in it, and a push of anyone but the new owner is refused. *)
Theorem create_namespace_takes_over id owner quota w :
  (∀ k, sql_fault k = None) → namespace_id_new id = Ok id → (0 ≤ quota ≤ I64_MAX)%Z →
  ∃ ns w', create_namespace id owner quota w = (Ok ns, w')
    ∧ List.find (ns_is id) (ht_namespaces (tables w')) = Some (ns_row ns)
    ∧ ns_owner ns = owner ∧ ns_quota_bytes ns = quota ∧ ns_used_bytes ns = 0%Z
    ∧ ht_images (tables w') = ht_images (tables w)
    ∧ ∀ cfg caller rq actor, pq_namespace rq = id → caller ≠ owner →
        (push cfg caller rq actor w').1 = Err (PushDomain NotAuthorised).
Proof.
  intros Hf Hid Hq. assert (u64_as_i64 quota = quota) as Hq'
    by (unfold u64_as_i64; destruct (Z.leb_spec quota I64_MAX); lia).
  set (ns := namespace_new id owner quota (utc_now (w_step w))).
  assert (ns_row ns = mkNamespaceRow id owner quota 0 (utc_now (w_step w))) as Hrow
    by (unfold ns_row; cbn -[u64_as_i64]; by rewrite Hq').
  set (h' := set_namespaces (delete_where (ns_is id) (ht_namespaces (tables w)) ++ [ns_row ns]) (tables w)).
  assert (List.find (ns_is id) (ht_namespaces h') = Some (ns_row ns)) as Hfind.
  { cbn [h' set_namespaces ht_namespaces]. rewrite Hrow.
    induction (ht_namespaces (tables w)) as [|x l IH]; [cbn; unfold ns_is; cbn; by rewrite String.eqb_refl|].
    unfold delete_where in *. cbn. destruct (ns_is id x) eqn:E; cbn; [done|]. by rewrite E. }
  assert (create_namespace id owner quota w
          = (Ok ns, tick (mkWorld (S (w_step w)) (set_hosting h' (w_db w))))) as Hrun.
  { unfold create_namespace, bind. cbn [now]. unfold reg, map_err, namespaces_insert, statement.
    rewrite Hf. unfold hosting_statement, replace_namespace_row. fold ns. subst h'. rewrite Hrow.
    cbn [nr_quota_bytes nr_used_bytes nr_namespace_id]. destruct (Z.ltb_spec quota 0); [lia|]. done. }
  eexists ns, _. split; [exact Hrun|]. split_and!; try done.
  intros cfg caller rq actor <- Hc.
  assert (row_to_namespace (ns_row ns) = Ok ns) as Hback.
  { rewrite Hrow. unfold row_to_namespace. cbn [nr_namespace_id nr_quota_bytes nr_used_bytes nr_owner nr_created_at].
    rewrite Hid. cbn -[i64_as_u64]. by rewrite i64_as_u64_nonneg by lia. }
  unfold push. set (w' := tick _).
  assert (require_namespace (pq_namespace rq) w' = (Ok ns, tick w')) as Hreq.
  { unfold require_namespace, reg, namespaces_find, select, statement, map_err, bind. rewrite Hf.
    cbn [w_db w' tick]. change (db_hosting (set_hosting h' (w_db w))) with h'. rewrite Hfind.
    unfold transpose. rewrite Hback. done. }
  unfold bind at 1. rewrite Hreq. destruct (N.eqb_spec (ns_owner ns) caller) as [E|]; [|done].
  by rewrite <- E in Hc.
Qed.
End theorems.
