(* ===== verification/Witnesses.v ===== *)
(** * A concrete installation

    Tables on which the hypotheses of the properties hold, run in the environment of
    [Demo]: three accounts, a pool with a claim, and an address pool.  The login flow
    uses the panel's two-factor service.  The last part adds second factors. *)
From S2P Require Import Prelude Text Net AuditActions AuditLog Accounts CronJobs HostingTables Store Users Identity Secrets Factors FactorRepo Remember TwoFactor TwoFactorKept TwoFactorSafety Demo Hierarchy HierarchyInvariant HierarchyLinks HierarchyTree HierarchyPools IpPools.

Definition alice : UserRow :=
  mkUserRow 1 "alice" "alice@example.com" (salted "correct horse battery") "owner" None None 0
    None None.
Definition bob (parent : option Uuid) : UserRow :=
  mkUserRow 2 "bob" "bob@example.com" (salted "bob's own password") "admin" parent None 1 None None.
Definition carol (parent : option Uuid) : UserRow :=
  mkUserRow 3 "carol" "carol@example.com" (salted "carol's password") "user" parent None 2 None None.

Definition ip_pool : IpPool := mkIpPool 7 "public" Shared V4 "192.0.2.0/24" 0.
Definition ip_row : IpAllocationRow := mkIpAllocRow 70 7 "10.0.0.1#24" 5 "reserved" 0 None.

Definition no_factors : FactorTables := mkFactorTables [] [] 0 [] [] [] [].

Definition no_hosting : HostingTables := mkHostingTables [] [] [] [] [] [] [] [] [] [] ∅ [] ∅ (mkAccessTables [] [])
    no_plans no_maintenance no_lb no_quotas no_databases no_backups.

(** Three accounts without relationships, a pool of alice with a claim of bob. *)
Definition flat : Db :=
  mkDb [alice; bob None; carol None] [] [] [mkPoolRow 1 "disk_bytes" 100 0]
    [mkClaimRow 1 2 "disk_bytes" 40 0] no_factors no_hosting [ip_pool_row ip_pool] [ip_row] [].

(** alice above bob above carol. *)
Definition chain : Db :=
  mkDb [alice; bob (Some 1%N); carol (Some 2%N)] []
    [mkRelRow 1 2 0 1 "active"; mkRelRow 2 3 0 1 "active"] [] [] no_factors no_hosting [] [] [].

Definition world (d : Db) : World := mkWorld 0 d.

(** ** The invariants hold *)

Lemma no_faults : ∀ k, sql_fault k = None.
Proof. done. Qed.

Ltac by_cases :=
  intros; repeat match goal with
  | H : In _ _ |- _ => cbn in H
  | H : _ ∨ _ |- _ => destruct H
  | H : False |- _ => destruct H
  end; subst; cbn in *; try done; auto 10.

(** The rows of the hierarchy decode. *)
Ltac rows_decode := by_cases; vm_compute; repeat split; first [discriminate | tauto].

(** Identifiers are not drawn twice. *)
Lemma demo_draws n : draws_differ n.
Proof. intros j k Hj Hk. cbn. lia. Qed.

Lemma flat_wf : accounts_wf (w_db (world flat)).
Proof.
  split; [apply (bool_decide_unpack _); vm_compute; done .. | | |].
  - by_cases.
  - split; try (apply (bool_decide_unpack _); vm_compute; done); first [solve [by_cases] | rows_decode].
  - done.
Qed.

Lemma chain_wf : accounts_wf (w_db (world chain)).
Proof.
  split; [apply (bool_decide_unpack _); vm_compute; done .. | | |].
  - by_cases.
  - split; try (apply (bool_decide_unpack _); vm_compute; done); first [solve [by_cases] | rows_decode].
  - done.
Qed.

Lemma flat_ip_wf : ip_wf (w_db (world flat)).
Proof.
  split; try (apply (bool_decide_unpack _); vm_compute; done). by_cases.
Qed.

(** ** Accounts *)

Definition login_run := login "alice" "correct horse battery" None None None (world flat).
Definition login_world : World := login_run.2.
Definition login_token : string :=
  match login_run.1 with Ok (Authenticated _ t) => t | _ => "" end.
Definition alice_user : UserRec :=
  mkUser 1 "alice" "alice@example.com" (salted "correct horse battery") Owner None None 0 None
    (Some 10%Z).

Lemma login_ran : login_run = (Ok (Authenticated alice_user login_token), login_world).
Proof. vm_compute. reflexivity. Qed.

Lemma account_tables_invariant_witness :
  accounts_wf (w_db (run_hier (OpAttach 1 2 "alice" 1) login_world))
  ∧ owner (w_db (run_hier (OpAttach 1 2 "alice" 1) login_world)) 1.
Proof.
  destruct (account_tables_invariant (world flat)
    (run_hier (OpAttach 1 2 "alice" 1) login_world)) as [Hwf Ho].
  - eapply rtc_l; [exact (StepIdentity (OpLogin "alice" "correct horse battery" None None None) _)|].
    apply rtc_once. exact (StepHierarchy (OpAttach 1 2 "alice" 1) _ I).
  - apply flat_wf.
  - split; [exact Hwf|]. apply Ho. exists alice. split; [left; reflexivity | split; reflexivity].
Defined.

Lemma login_checks_witness :
  ∃ u0, u_id alice_user = u_id u0 ∧ In (user_row u0) (db_users flat)
    ∧ (u_username u0 = "alice" ∨ u_email u0 = "alice") ∧ is_disabled u0 = false
    ∧ argon2_verify (u_password u0) "correct horse battery" = Ok true
    ∧ second_factor_settled flat (u_id u0) None None None.
Proof.
  exact (login_checks "alice" "correct horse battery" None None None (world flat) alice_user
           login_token login_world login_ran).
Defined.

Lemma login_wf : accounts_wf (w_db login_world).
Proof.
  apply (step_run_op (OpLogin "alice" "correct horse battery" None None None) (world flat)), flat_wf.
Qed.

(** The session of a login opens. *)
Lemma resolve_session_exact_witness :
  ∃ u s w' rows, resolve_session login_token login_world = (Ok (u, s), w') ∧ u_username u = "alice"
    ∧ resolves (utc_now (S (w_step login_world))) login_token (w_db login_world) (Ok (u, s)) rows
    ∧ db_sessions (w_db w') = rows ∧ length rows = 1%nat.
Proof.
  destruct (resolve_session_exact login_token login_world login_wf)
    as (res & w' & E & _ & [(k & m & Hk & _)|(rows & Hr & [Hs|[(k & m & Hk) _]])]); try discriminate Hk.
  assert (∃ u s, res = Ok (u, s) ∧ u_username u = "alice") as (u & s & -> & Hu).
  { apply (f_equal fst) in E. vm_compute in E. rewrite <- E. do 2 eexists. split; reflexivity. }
  exists u, s, w', rows. split; [exact E|]. split; [exact Hu|]. split; [exact Hr|]. split; [exact Hs|].
  rewrite <- Hs. apply (f_equal snd) in E. cbn [snd] in E. rewrite <- E. vm_compute. reflexivity.
Defined.

Lemma disable_user_locks_out_witness :
  disable_user 2 "alice" (world flat) = (Ok tt, (disable_user 2 "alice" (world flat)).2)
  ∧ ∀ token u s w2,
      resolve_session token (disable_user 2 "alice" (world flat)).2 = (Ok (u, s), w2) →
      u_id u ≠ 2%N.
Proof.
  assert (disable_user 2 "alice" (world flat) = (Ok tt, (disable_user 2 "alice" (world flat)).2))
    as Hd by (vm_compute; reflexivity).
  split; [exact Hd|].
  apply (disable_user_locks_out 2 "alice" (world flat) _ Hd).
Defined.

Lemma login_then_resolve_witness :
  ∃ u1 s w2, resolve_session login_token login_world = (Ok (u1, s), w2)
    ∧ u_id u1 = u_id alice_user ∧ w_db w2 = w_db login_world.
Proof.
  apply (login_then_resolve "alice" "correct horse battery" None None None (world flat)).
  - exact no_faults.
  - reflexivity.
  - intros i j. unfold utc_now, demo_env, SESSION_INACTIVITY, hours. lia.
  - exact flat_wf.
  - reflexivity.
  - exact login_ran.
Defined.

Definition dave_run := create_user_with_parents "dave" "dave@example.com" "a long enough password"
  User (Some 2%N) None "alice" (world flat).
Definition dave : UserRec :=
  mkUser 1004 "dave" "dave@example.com" (salted "a long enough password") User (Some 2%N) None 5
    None None.

Lemma create_user_stores_witness :
  db_users (w_db dave_run.2) = (db_users flat ++ [user_row dave])%list.
Proof.
  apply (create_user_stores "dave" "dave@example.com" "a long enough password" User (Some 2%N)
    None "alice" (world flat) dave dave_run.2).
  vm_compute. reflexivity.
Defined.

Lemma logout_ends_session_witness :
  ∃ s, first_match (db_sessions (w_db login_world)) login_token = Some s
    ∧ db_users (w_db (logout login_token "alice" login_world).2) = db_users (w_db login_world)
    ∧ db_sessions (w_db (logout login_token "alice" login_world).2)
      = delete_where (session_id_is (s_id s)) (db_sessions (w_db login_world)).
Proof.
  apply (logout_ends_session login_token "alice" login_world).
  vm_compute. reflexivity.
Defined.

Lemma delete_user_effect_witness :
  In (carol (Some 2%N)) (db_users (w_db (delete_user 2 "alice" (world chain)).2))
  ∧ ∀ r, In r (db_relationships (w_db (delete_user 2 "alice" (world chain)).2)) →
      rr_parent_id r ≠ 2%N ∧ rr_child_id r ≠ 2%N.
Proof.
  destruct (delete_user_effect 2 "alice" (world chain) (delete_user 2 "alice" (world chain)).2)
    as (_ & _ & Hrel & _ & _ & _ & Hkeep); [vm_compute; reflexivity|].
  split; [|exact Hrel]. apply Hkeep; [right; right; left; reflexivity | reflexivity | discriminate].
Defined.

Lemma change_password_unknown_witness :
  ∃ w', change_password 99 "a long enough password" "alice" (world flat) = (Ok tt, w')
    ∧ accounts_of (w_db w') = accounts_of flat.
Proof.
  apply (change_password_unknown 99 "a long enough password" "alice"
    (salted "a long enough password") (world flat)).
  - exact no_faults.
  - vm_compute. split; discriminate.
  - reflexivity.
  - cbn. intros [?|[?|[?|[]]]]; discriminate.
Defined.

(** ** The hierarchy *)

Lemma attach_child_exact_witness :
  ∃ w' t, attach_child 1 2 "alice" 1 (world flat) = (Ok (relationship_new 1 2 1 t), w')
    ∧ accounts_of (w_db w') =
      (update_where (id_is 2) (row_set_parent (Some 1%N)) (db_users flat), db_sessions flat,
       (db_relationships flat ++ [attached_row 1 2 1 t])%list, db_pools flat, db_claims flat,
       owner_refs flat).
Proof. exact (attach_child_exact no_faults 1 2 "alice" 1 (world flat) flat_wf). Defined.

Lemma hierarchy_records_agree_witness :
  parents_agree (w_db (run_hier (OpDetach 1 2 "alice") (world chain))).
Proof.
  apply (hierarchy_records_agree no_faults (OpDetach 1 2 "alice") (world chain) chain_wf).
  intros p c. split.
  - intros (r & [<-|[<-|[<-|[]]]] & Hid & Hp); cbn in Hid, Hp; try discriminate;
      injection Hp as <-; rewrite <- Hid.
    + exists (mkRelRow 1 2 0 1 "active"). split; [left; reflexivity | split; reflexivity].
    + exists (mkRelRow 2 3 0 1 "active"). split; [right; left; reflexivity | split; reflexivity].
  - intros (r & [<-|[<-|[]]] & Hp & Ha); cbn in Hp; apply active_child_iff in Ha as [Hc _];
      cbn in Hc; rewrite <- Hp, <- Hc.
    + exists (bob (Some 1%N)). split; [right; left; reflexivity | split; reflexivity].
    + exists (carol (Some 2%N)). split; [right; right; left; reflexivity | split; reflexivity].
Defined.

Definition erin_request : CreateChildRequest :=
  mkCreateChild "erin" "erin@example.com" "a long enough password" User None.
Definition erin_run := create_child 2 erin_request "bob" 2 (world chain).

Lemma create_child_spec_witness :
  match erin_run.1 with
  | Err _ => False
  | Ok u => u_parent_account_id u = Some 2%N ∧ u_role u = User
  end.
Proof.
  pose proof (create_child_spec no_faults 2 erin_request "bob" 2 (world chain) erin_run.1
    erin_run.2 chain_wf) as H.
  assert (create_child 2 erin_request "bob" 2 (world chain) = (erin_run.1, erin_run.2)) as Hr
    by (vm_compute; reflexivity).
  specialize (H Hr). destruct erin_run as [[u|e] w'] eqn:E; cbn in H |- *.
  - destruct H as (t & Hp & Hrole & _). split; [exact Hp | exact Hrole].
  - vm_compute in E. discriminate.
Defined.

Lemma chain_lt p c : child_of chain p c → (p < c)%N.
Proof.
  intros (r & [<-|[<-|[<-|[]]]] & Hid & Hp); cbn in Hid, Hp; try discriminate;
    injection Hp as <-; rewrite <- Hid; reflexivity.
Qed.

Lemma chain_acyclic x : ~ tc (child_of chain) x x.
Proof.
  assert (∀ p c, tc (child_of chain) p c → (p < c)%N) as Hlt.
  { induction 1 as [p c Hpc|p q c Hpq _ IH]; [by apply chain_lt|].
    apply chain_lt in Hpq. lia. }
  intros Hx%Hlt. lia.
Qed.

Lemma tree_correct_witness :
  ∃ n, tree 3 1 (world chain) = (Ok (Some n), tick (tick (world chain)))
    ∧ (∀ x z, In (x, z) (node_entries n) ↔
         ∃ k : nat, z = Z.of_nat k ∧ nsteps (child_of chain) k 1%N x)
    ∧ NoDup (map fst (node_entries n)).
Proof. exact (tree_correct no_faults 1 (world chain) chain_wf eq_refl chain_acyclic). Defined.

Lemma attach_builds_cycle_witness :
  ∃ r1 w1 r2 w2, attach_child 2 3 "alice" 1 (world flat) = (Ok r1, w1)
    ∧ attach_child 3 2 "alice" 1 w1 = (Ok r2, w2)
    ∧ ∀ fuel, ∃ w3, tree fuel 2 w2 = (Ok None, w3).
Proof.
  apply (attach_builds_cycle no_faults 2 3 "alice" 1 (world flat) flat_wf).
  - discriminate.
  - reflexivity.
  - reflexivity.
  - intros r [].
  - intros r [].
Defined.

Lemma reattach_refused_witness :
  ∃ w1 w2, detach_child 2 3 "alice" (world chain) = (Ok tt, w1)
    ∧ attach_child 2 3 "alice" 1 w1 = (Err (HPersistence (constraint_text REL_PK)), w2).
Proof.
  apply (reattach_refused no_faults 2 3 "alice" 1 (world chain) chain_wf).
  - discriminate.
  - exists (mkRelRow 2 3 0 1 "active"). split; [right; left; reflexivity | split; reflexivity].
Defined.

Lemma path_exists_exact_witness :
  ∃ b w', path_exists 1 3 (world chain) = (Ok b, w') ∧ w_db w' = chain
    ∧ (b = true ↔ ∃ k, (k ≤ 1025)%nat ∧ nsteps (λ x y, linked chain y x) k 3%N 1%N).
Proof. exact (path_exists_exact no_faults 1 3 (world chain) chain_wf). Defined.

Lemma flat_pools_fit : pools_fit (w_db (world flat)).
Proof. intros r [<-|[]]. right. vm_compute. discriminate. Qed.

Lemma pools_never_overcommitted_witness :
  pools_fit (w_db (run_hier (OpClaim 1 3 DiskBytes 60 "alice") (world flat))).
Proof.
  apply (pools_never_overcommitted (world flat)).
  - apply rtc_once. apply (PoolStep (OpClaim 1 3 DiskBytes 60 "alice")).
    vm_compute. split; discriminate.
  - exact flat_wf.
  - exact flat_pools_fit.
Defined.

Lemma check_pool_claim_spec_witness :
  (check_pool_claim 100 40 60 = Ok tt ↔ (40 + 60 ≤ 100)%Z ∨ 100%Z = U64_MAX)
  ∧ (check_pool_claim 100 40 60 = Ok tt ∨ check_pool_claim 100 40 60 = Err PoolExhausted).
Proof. apply (check_pool_claim_spec 100 40 60). vm_compute. split; discriminate. Defined.

Lemma set_pool_below_claims_witness :
  ∃ pool w', set_pool 1 DiskBytes 30 "alice" (world flat) = (Ok pool, w') ∧ ~ pools_fit (w_db w').
Proof.
  apply (set_pool_below_claims 1 DiskBytes 30 "alice" (world flat) no_faults).
  - reflexivity.
  - split; reflexivity.
  - reflexivity.
Defined.

(** ** Addresses *)

Definition admin_user : UserRec :=
  mkUser 2 "bob" "bob@example.com" (salted "bob's own password") Admin None None 1 None None.

Lemma ip_tables_invariant_witness :
  ip_wf (w_db (run_ip (OpAllocate admin_user 7 6) (world flat)))
  ∧ ∀ pool address s1 s2,
      holds (w_db (run_ip (OpAllocate admin_user 7 6) (world flat))) pool address s1 →
      holds (w_db (run_ip (OpAllocate admin_user 7 6) (world flat))) pool address s2 → s1 = s2.
Proof. exact (ip_tables_invariant (OpAllocate admin_user 7 6) (world flat) flat_ip_wf). Defined.

(** A site is given an address; later requests, one for the very address, leave it there. *)
Definition given : World := run_ip (OpAllocate admin_user 7 6) (world flat).
Definition contended : World :=
  run_ip (OpReserve admin_user 7 9 "10.0.0.2#24") (run_ip (OpAllocate admin_user 7 8) given).

Lemma given_ip_wf : ip_wf (w_db given).
Proof. apply keeps_run_ip, flat_ip_wf. Qed.

Lemma ip_holder_kept_witness :
  map iar_id (db_ip_allocations (w_db contended)) = [70; 1002; 1009]%N
  ∧ holds (w_db contended) 7 "10.0.0.2#24" 6.
Proof.
  split; [vm_compute; reflexivity|]. apply (ip_holder_kept given contended 7 "10.0.0.2#24" 6).
  - exact given_ip_wf.
  - exact (demo_draws _).
  - eexists. split; [right; left; reflexivity|]. split; [vm_compute; reflexivity|].
    split; [reflexivity|]. split; [reflexivity|]. intros k Hk. vm_compute in Hk. cbn. lia.
  - eapply rtc_l; [exact (SparingStep 7 "10.0.0.2#24" (OpAllocate admin_user 7 8) given I)|].
    apply rtc_once. exact (SparingStep 7 "10.0.0.2#24" (OpReserve admin_user 7 9 "10.0.0.2#24") _ I).
Defined.

Lemma allocate_exact_witness :
  ∃ al w', allocate admin_user 7 6 (world flat) = (Ok al, w')
    ∧ ip_address al = "10.0.0.2#24" ∧ ip_status al = IpReserved
    ∧ holds (w_db w') 7 "10.0.0.2#24" 6.
Proof.
  exact (allocate_exact admin_user ip_pool 7 6 (world flat) no_faults flat_ip_wf eq_refl eq_refl).
Defined.

Definition allocate_run := allocate admin_user 7 6 (world flat).

Lemma allocated_outside_network_witness :
  match allocate_run.1 with
  | Ok al => address_in_cidr (ip_address al) "192.0.2.0/24" = false
  | Err _ => False
  end.
Proof.
  destruct allocate_run as [[al|e] w'] eqn:E; [|vm_compute in E; discriminate]. cbn.
  apply (allocated_outside_network admin_user ip_pool 7 6 (world flat) al w').
  - reflexivity.
  - reflexivity.
  - vm_compute. reflexivity.
  - intros addr prefix Hs. vm_compute in Hs. injection Hs as <- <-. split; discriminate.
  - exact E.
Defined.

Lemma rebind_exact_witness :
  ∃ sa w', rebind admin_user 5 (world flat) = (Ok sa, w')
    ∧ ip_tables (w_db w') = ip_tables flat
    ∧ (∀ a, In a (sa_v4 sa) ↔ (∃ p, holds flat p a 5) ∧ contains_char a 58 = false)
    ∧ (∀ a, In a (sa_v6 sa) ↔ (∃ p, holds flat p a 5) ∧ contains_char a 58 = true).
Proof. exact (rebind_exact admin_user 5 (world flat) no_faults flat_ip_wf eq_refl). Defined.

(** ** The audit log *)

Definition log_row (id : Z) : AuditRow :=
  mkRow id id "alice" "login" None None "success" None.
Definition log : list AuditRow := map log_row [1; 2; 3]%Z.
Definition one_per_page : AuditQuery := mkQuery None None None None None None None 1.

Lemma paging_drops_boundary_row_witness :
  page_next_cursor (query one_per_page log) = Some (cursor_of (log_row 2))
  ∧ ∀ fuel, log_row 2 ∉ all_pages fuel one_per_page log.
Proof.
  apply (paging_drops_boundary_row one_per_page log (log_row 2)).
  - apply (bool_decide_unpack _). vm_compute. exact I.
  - vm_compute. reflexivity.
Defined.

Lemma base64_roundtrip_witness :
  decode_base64 (encode_base64 [77; 97; 110; 0; 255]%N) = Some [77; 97; 110; 0; 255]%N.
Proof. apply (base64_roundtrip [77; 97; 110; 0; 255]%N). repeat constructor. Defined.

(** A timestamp text for the cursor codec: the decimal nanoseconds. *)
Definition text_of_instant (t : DateTime) : string := of_bytes (show_Z t).
Definition instant_of_text (s : string) : option DateTime :=
  match bytes s with
  | c :: ds =>
      if (c =? 45)%N then (λ n, - Z.of_N n)%Z <$> parse_digits 0 ds
      else Z.of_N <$> parse_digits 0 (c :: ds)
  | [] => None
  end.

Lemma show_Z_digits (t : DateTime) :
  Forall (λ b, is_digit b = true ∨ In b (bytes "-T:.+Z")) (show_Z t).
Proof.
  assert (∀ n, Forall (λ b, is_digit b = true ∨ In b (bytes "-T:.+Z")) (show_N n)) as Hn.
  { intros n. destruct (show_N_spec n) as (_ & Hd & _). eapply Forall_impl; [exact Hd|]. auto. }
  destruct t as [|p|p]; cbn [show_Z]; [apply Hn | apply Hn |].
  constructor; [|apply Hn]. right. left. reflexivity.
Qed.

Lemma bytes_show_Z (t : DateTime) : bytes (text_of_instant t) = show_Z t.
Proof.
  apply bytes_of_bytes. eapply Forall_impl; [apply show_Z_lt|]. cbn. intros b Hb. lia.
Qed.

Lemma instant_roundtrip (t : DateTime) : instant_of_text (text_of_instant t) = Some t.
Proof.
  unfold instant_of_text. rewrite bytes_show_Z.
  assert (∀ n, match show_N n with
    | c :: ds => if (c =? 45)%N then (λ n, - Z.of_N n)%Z <$> parse_digits 0 ds
                 else Z.of_N <$> parse_digits 0 (c :: ds)
    | [] => None end = Some (Z.of_N n)) as Hn.
  { intros n. destruct (show_N_spec n) as (Hp & _ & _).
    destruct (show_N_head n) as (c & cs & Hc & Hd). rewrite Hc in *.
    destruct (N.eqb_spec c 45) as [->|]; [done|]. by rewrite Hp. }
  destruct t as [|p|p]; cbn [show_Z]; [apply (Hn 0%N) | apply (Hn (Npos p)) |].
  destruct (show_N_spec (Npos p)) as (Hp & _ & _). cbn -[show_N parse_digits]. by rewrite Hp.
Qed.

Lemma cursor_roundtrip_witness :
  cursor_decode instant_of_text (cursor_encode text_of_instant {| cur_ts := 12; cur_id := 34 |})
  = Some {| cur_ts := 12; cur_id := 34 |}.
Proof.
  apply (cursor_roundtrip text_of_instant instant_of_text).
  - exact instant_roundtrip.
  - intros t. rewrite bytes_show_Z. apply show_Z_digits.
  - cbn. unfold I64_MAX. lia.
Defined.

(** * A concrete installation with second factors

    Alice has a TOTP factor, two pending logins and recovery codes; Bob is enrolling. *)

Definition seconds (n : Z) : DateTime := (n * 1000000000)%Z.

(** The secret bytes 1, 2, 3 in the envelope. *)
Definition sealed : string :=
  match (encrypt_to_storage master_key (hex_encode [1; 2; 3]%N) (world flat)).1 with
  | Ok s => s
  | Err _ => ""
  end.

Definition alice_factor : FactorRow := mkFactorRow 500 1 "totp" 0 0 None None None (Some sealed).
Definition alice_code : RecoveryRow := mkRecoveryRow 1 1 (hashed_code "AAAA-BBBB-CCCC") 0 None.

Definition factor_tables : FactorTables :=
  {| tf_factors := [alice_factor];
     tf_recovery := [alice_code; mkRecoveryRow 2 1 (hashed_code "DDDD-EEEE-FFFF") 0 None];
     tf_recovery_seq := 2;
     tf_challenges := [mkChallengeRow 600 1 (salted "first") 0 (minutes 5) None None None;
                       mkChallengeRow 601 1 (salted "second") 0 (minutes 5) None None None];
     tf_enrollments := [mkEnrollmentRow 700 2 sealed 0 (minutes 10) None];
     tf_credentials := [];
     tf_ceremonies := [] |}.

Definition secured : World := world (set_factors factor_tables flat).

Lemma secured_wf : factors_wf (db_factors (w_db secured)).
Proof.
  split; try (apply (bool_decide_unpack _); vm_compute; done); by_cases; cbn; try lia.
Qed.

Lemma fresh_from w i k : (i < 1000)%N → (w_step w ≤ k)%nat → new_v4 k ≠ i.
Proof. cbn. lia. Qed.

(** ** The envelope and the cookie *)

Lemma envelope_roundtrip_witness :
  decrypt_from_storage (repeat 1%N 32) sealed = Ok (hex_encode [1; 2; 3]%N).
Proof.
  destruct (envelope_roundtrip (repeat 1%N 32) (hex_encode [1; 2; 3]%N)) as [Hr _];
    [vm_compute; reflexivity|].
  eapply (Hr _ (world flat)). vm_compute. reflexivity.
Defined.

Definition cookie : string :=
  match (issue_remember_device_with_lifetime (E:=TwoFactorError) master_key 1 500 "Firefox"
           "203.0.113.7" 0 (days 30) secured).1 with
  | Ok s => s
  | Err _ => ""
  end.

Lemma remember_device_exact_witness :
  validate_remember_device master_key cookie "Firefox" "203.0.113.9" 5 =
    Ok {| p_v := 1; p_factor_id := 500; p_user_id := 1; p_ua_hash := hash_user_agent "Firefox";
          p_ip_prefix := "203.0.113"; p_exp := days 30; p_nonce := 1000 |}.
Proof.
  destruct (remember_device_exact master_key) as [Hissued _].
  rewrite (Hissued TwoFactorError 1%N 500%N "Firefox" "203.0.113.7" 0%Z (days 30) secured cookie
    (tick secured) "Firefox" "203.0.113.9" 5%Z); [vm_compute; reflexivity | vm_compute; reflexivity].
Defined.

Lemma ip_prefix_v4_witness :
  ip_prefix "203.0.113.7" = "203.0.113"
  ∧ (ip_prefix "203.0.113.7" = ip_prefix "203.0.112.7" ↔ [203; 0; 113]%N = [203; 0; 112]%N).
Proof.
  apply (ip_prefix_v4 [203; 0; 113; 7]%N [203; 0; 112; 7]%N);
    [reflexivity | reflexivity | repeat constructor | repeat constructor].
Defined.

(** ** Completing logins *)

Definition first_login :=
  Service.verify_login_challenge_with_factor "alice" 600 "first" (Totp "000 003") 0 secured.
Definition after_first : World := first_login.2.

Lemma first_ran : first_login = (Ok (1%N, Some 500%N), after_first).
Proof. vm_compute. reflexivity. Qed.

Lemma challenge_single_use_witness :
  is_ok (Service.verify_login_challenge_with_factor "alice" 600 "first" (Totp "000010")
           (seconds 60) (run_factor (OpBeginAssert 1) after_first)).1 = false.
Proof.
  destruct (challenge_single_use "alice" 600 "first" (Totp "000 003") 0 secured 1 (Some 500%N)
    after_first (run_factor (OpBeginAssert 1) after_first) first_ran) as [Hno _].
  - intros k. apply fresh_from. reflexivity.
  - apply rtc_once. exact (AuthFactor (OpBeginAssert 1) after_first).
  - apply Hno.
Defined.

Definition second_login :=
  Service.verify_login_challenge_with_factor "alice" 601 "second" (Totp "000003") (seconds 30)
    after_first.

Lemma totp_step_once_witness :
  ∃ s s', last_step 500 (w_db after_first) = Some s ∧ last_step 500 (w_db second_login.2) = Some s'
    ∧ (s < s')%Z ∧ (Z.abs (s - time_step 0) ≤ 1)%Z ∧ (Z.abs (s' - time_step (seconds 30)) ≤ 1)%Z.
Proof.
  apply (totp_step_once "alice" 600 "first" "000 003" 0 secured 1 500 after_first after_first
    "alice" 601 "second" "000003" (seconds 30) 1 second_login.2).
  - exact (wf_factor_ids _ secured_wf).
  - exact first_ran.
  - intros k. apply fresh_from. reflexivity.
  - apply rtc_refl.
  - vm_compute. reflexivity.
Defined.

Definition recovery_login :=
  Service.verify_login_challenge_with_factor "alice" 600 "first" (Recovery "AAAA-BBBB-CCCC") 0
    secured.

Lemma recovery_code_once_witness :
  ∃ row, In row (tf_recovery factor_tables) ∧ rc_id row = 1%Z
    ∧ S (length (select_where (unused_code 1) (tf_recovery (db_factors (w_db recovery_login.2)))))
      = length (select_where (unused_code 1) (tf_recovery factor_tables)).
Proof.
  destruct (recovery_code_once "alice" 600 "first" "AAAA-BBBB-CCCC" 0 secured 1 None
    recovery_login.2 secured_wf) as (row & _ & Hin & _ & Hv & _ & Hlen & _).
  - vm_compute. reflexivity.
  - exists row. split; [exact Hin|]. split; [|exact Hlen].
    destruct Hin as [<-|[<-|[]]]; [reflexivity | discriminate Hv].
Defined.

Lemma factor_tables_invariant_witness :
  factors_wf (db_factors (w_db (run_factor (OpEnroll 1 "alice" "alice" 0) secured))).
Proof.
  apply (factor_tables_invariant secured);
    [|exact secured_wf]. apply rtc_once. exact (AuthFactor (OpEnroll 1 "alice" "alice" 0) secured).
Defined.

Definition revoked_world : World := (Service.revoke_factor "alice" 1 500 7 secured).2.

Lemma revoked_factor_rejected_witness :
  Service.revoke_factor "alice" 1 500 7 secured = (Ok tt, revoked_world)
  ∧ ~ ∃ w', Service.verify_login_challenge_with_factor "alice" 600 "first" (Totp "000003") 0
              revoked_world = (Ok (1%N, Some 500%N), w').
Proof.
  split; [vm_compute; reflexivity|].
  destruct (revoked_factor_rejected "alice" 1 500 7 secured revoked_world revoked_world alice_factor
    secured_wf) as [Hno _].
  - left. reflexivity.
  - reflexivity.
  - reflexivity.
  - vm_compute. reflexivity.
  - intros k. apply fresh_from. reflexivity.
  - apply rtc_refl.
  - intros [w' Hin]. exact (Hno _ _ _ _ _ _ _ Hin).
Defined.

Definition remembered_login :=
  login "alice" "correct horse battery" (Some "203.0.113.9") (Some "Firefox") (Some cookie) secured.

Lemma login_requires_factor_witness :
  ∃ ck k p r, Some cookie = Some ck
    ∧ validate_remember_device master_key ck "Firefox" "203.0.113.9" (utc_now k) = Ok p
    ∧ p_user_id p = 1%N ∧ In r (tf_factors factor_tables) ∧ fr_id r = p_factor_id p
    ∧ fr_user_id r = 1%N ∧ is_none (fr_revoked_at r) = true.
Proof.
  destruct remembered_login as [[[u tok|u c]|e] w'] eqn:E; [|vm_compute in E; discriminate E ..].
  assert (u_id u = 1%N) as Hu by (vm_compute in E; injection E as <- _ _; reflexivity).
  destruct (login_requires_factor "alice" "correct horse battery" (Some "203.0.113.9")
    (Some "Firefox") (Some cookie) secured u tok w' E) as [Hno|Hyes].
  - assert (is_none (fr_revoked_at alice_factor) = false) as H
      by (apply Hno; [left; reflexivity | rewrite Hu; reflexivity]). discriminate H.
  - rewrite Hu in Hyes. exact Hyes.
Defined.

(** ** TOTP counters and enrollment *)

Lemma totp_code_reused_witness :
  totp_verify (mkSecret [1; 2; 3]%N 6 30) "000003" (seconds 30) = Ok 1%Z.
Proof.
  assert (∀ s time, ts_period s = 30%Z →
    totp_generate s time = demo_hotp (ts_bytes s) (time / 30)%Z) as Hgen by (intros; reflexivity).
  destruct (totp_code_reused demo_hotp Hgen (mkSecret [1; 2; 3]%N 6 30) "000003" 0)
    as [_ Hreuse]; [reflexivity | discriminate|].
  apply Hreuse; vm_compute; reflexivity.
Defined.

Definition enrolled :=
  Service.verify_totp_enrollment "bob" 2 700 "000003" (seconds 5) secured.

Lemma enrollment_activates_witness :
  ∃ v w', enrolled = (Ok v, w') ∧ f_user_id (verified_factor v) = 2%N
    ∧ length (recovery_codes v) = 2%nat.
Proof.
  destruct enrolled as [[v|e] w'] eqn:E; [|vm_compute in E; discriminate E].
  exists v, w'. split; [reflexivity|].
  destruct (enrollment_activates "bob" 2 700 "000003" (seconds 5) secured v w' E)
    as (_ & Hu & _ & _ & _ & _ & Hlen & _). split; [exact Hu | exact Hlen].
Defined.
