(* ===== verification/HostingWitnesses.v ===== *)
(** * A concrete installation with a site

    Tables with a site, its staging slot, a cron job and a registry namespace, and stand-ins
    for nginx, the file-system layer, the scheduler, the executor, the blob store and the
    scanner, under which the hypotheses of the hosting properties hold. *)
From S2P Require Import Prelude Text AuditActions AuditLog Accounts Paths CronJobs HostingTables Store Users Identity Secrets Factors FactorRepo Net Remember TwoFactor Demo Hierarchy HierarchyInvariant HierarchyLinks Sites Staging StagingChanges StagingSafety StagingTheorems Parts Databases DatabaseSql Pitr DatabaseChanges SitesTheorems Collaborators CollaboratorTheorems Cron CronSafety CronTheorems Registry RegistrySafety RegistryTheorems Witnesses.

(** ** The outside *)

#[export] Instance demo_nginx : Nginx := {|
  provision _ _ := None; nginx_apply _ _ := None; nginx_disable _ _ := None; nginx_remove _ _ := None
|}.

#[export] Instance demo_fs : StagingFs := {|
  fs_create_slot _ _ _ := None;
  fs_sync_snapshot k _ _ _ := Ok (Z.of_nat k);
  fs_promote _ _ _ _ := Ok PromoteSuccess;
  fs_destroy_slot _ _ _ _ := None
|}.

(** Whole seconds. *)
#[export] Instance demo_sqlite : SqliteTime := λ t d, (t / 1000000000 + d)%Z.
#[export] Instance demo_sqlite_laws : SqliteTimeLaws.
Proof.
  split; unfold sql_datetime, demo_sqlite.
  - intros t d. lia.
  - intros t t' Ht. pose proof (Z.div_le_mono t t' 1000000000 ltac:(lia) Ht). lia.
  - intros t. pose proof (Z.div_mod t 1000000000 ltac:(lia)).
    pose proof (Z.mod_pos_bound t 1000000000 ltac:(lia)). lia.
Qed.

(** A day later, whatever the schedule. *)
#[export] Instance demo_scheduler : Scheduler := {|
  tz_known z := String.eqb z "UTC"; schedule_error _ := None;
  next_occurrence _ _ t := Some (t + days 1)%Z; uppercase s := s
|}.
#[export] Instance demo_scheduler_laws : SchedulerLaws.
Proof. split. intros expr tz t t' [= <-]. unfold days. cbn. lia. Qed.

#[export] Instance demo_executor : Executor := {|
  run_command _ _ _ _ _ := Exited (Some 0%Z) [] [];
  run_request _ _ _ _ := HttpTimedOut
|}.

#[export] Instance demo_store : BlobStore := λ _, None.
#[export] Instance demo_scanner : ScanHook := λ k d, Ok (mkScan d (Z.of_nat k) []).

(** ** Tables *)

Definition site_row0 : SiteRow :=
  mkSiteRow 50 1 "example.com" [] "/var/www/staging.example.com/public_html" false None "active"
    0 0 "alice" "".
Definition slot_row0 : SlotRow :=
  mkSlotRow 60 50 "staging" "/var/www/staging.example.com/staging/public_html"
    "example_com_staging" None "on_promote" None (Some 1%Z) None 0 0 0.
Definition promoted_row : PromotionRow :=
  mkPromotionRow 70 50 1 0 "promoted" "alice" 0 0 None.

Definition cron_roots : list (list N) := [bytes "/srv/jobs"].
Definition backup_job : CronJob :=
  mkCronJob 80 1 "backup" (mkSchedule "0 0 * * *" "UTC")
    (Command (bytes "/bin/true") [] (bytes "/srv/jobs/alice")) 3600 Skip true 5 0 0.
Definition backup_run : JobRun :=
  run_leased 90 80 0 30.

(** [sha256:] and 64 digits. *)
Definition digest_of (c : string) : string :=
  "sha256:" +:+ of_bytes (concat (repeat (bytes c) 64)).
Definition image_row0 (c : string) (t : DateTime) : ImageRow :=
  mkImageRow (digest_of c) "alpha" 40 t None "pending".

Definition hosted_tables (runs : list CronRunRow) : HostingTables :=
  mkHostingTables [site_row0] [slot_row0] [mkSnapshotRow 50 1 0] [promoted_row] []
    [mkCronJobRow 80 1 backup_job] runs
    [mkNamespaceRow "alpha" 1 200 120 0] [image_row0 "a" 1; image_row0 "b" 2; image_row0 "c" 3] [] ∅ [] ∅ (mkAccessTables [] [])
    no_plans no_maintenance no_lb no_quotas no_databases no_backups.

Definition hosted : Db :=
  mkDb [alice; bob None; carol None] [] [] [] [] no_factors (hosted_tables []) [] [] [].

(** ** The invariants hold *)

Ltac decided := apply (bool_decide_unpack _); vm_compute; exact I.

Lemma hosted_staging runs : staging_wf (hosted_tables runs).
Proof.
  split_and!; split; try decided.
  - intros r [<-|[]]. vm_compute. split_and!; done.
  - intros i [<-|[]]. by left.
  - intros i [<-|[]]. by left.
  - intros i [<-|[]]. by left.
  - done.
  - intros r [<-|[]]. vm_compute. split_and!; done.
  - intros r [<-|[]]. split; cbn; [intros n [= <-]|done]. split; [lia|]. intros k Hk.
    replace k with 1%Z by lia. by left.
  - intros r [<-|[]]. exists (mkRun 70 50 1 0 Promoted "alice" 0 0 None). split_and!; try done. auto.
  - intros r [<-|[]]. by left.
Qed.

Lemma hosted_accounts : accounts_wf (w_db (world hosted)).
Proof.
  split; [apply (bool_decide_unpack _); vm_compute; done .. | | |].
  - by_cases.
  - split; try (apply (bool_decide_unpack _); vm_compute; done); first [solve [by_cases] | rows_decode].
  - cbn. intros i [<-|[]]. by left.
Qed.

Lemma hosted_cron : cron_wf cron_roots (hosted_tables []).
Proof.
  split; try decided; try done.
  intros r [<-|[]]. split_and!; [done|done|]. split; [|split; [cbn; lia|done]].
  cbn. split_and!; [done| |].
  - vm_compute. intros Hin. repeat destruct Hin as [Hin|Hin]; done.
  - exists (bytes "/srv/jobs"). split; [by left|done].
Qed.

Lemma hosted_registry runs : registry_wf (hosted_tables runs).
Proof.
  split; try decided.
  - intros r [<-|[]]. vm_compute. split_and!; done.
  - intros r Hr. by_cases; vm_compute; split_and!; done.
  - intros r Hr. by_cases.
  - intros r [<-|[]]. vm_compute. discriminate.
Qed.

(** ** Staging *)

Abbreviation tables w := (db_hosting (w_db w)).

Definition site0 : Site :=
  mkSite 50 1 "example.com" [] "/var/www/staging.example.com/public_html" false None SiteActive
    0 0 "alice" "".

Lemma slot_root_contained_witness :
  ∃ parent name, production_split site0 parent name
    ∧ path_starts_with (bytes "/var/www/staging.example.com/staging/x") parent = true
    ∧ ~ In ParentDir (components (bytes "/var/www/staging.example.com/staging/x"))
    ∧ infixb (bytes "staging") (bytes "/var/www/staging.example.com/staging/x") = true.
Proof.
  apply (slot_root_contained site0 "/var/www/staging.example.com/staging/x").
  vm_compute. reflexivity.
Defined.

Lemma production_root_accepted_witness :
  ensure_in_chroot site0 (site_document_root site0) = Ok tt
  ∧ ∃ slot, slot_new 61 50 "staging" (site_document_root site0)
              (staging_db_name (site_primary_domain site0)) None OnPromote 0 = Ok slot
            ∧ slot_document_root slot = site_document_root site0.
Proof.
  apply (production_root_accepted site0 61 "staging" OnPromote None 0
           (bytes "/var/www/staging.example.com") (bytes "public_html")).
  - split; [vm_compute; reflexivity|]. split; [|discriminate].
    vm_compute. intros Hin. repeat destruct Hin as [Hin|Hin]; discriminate || destruct Hin.
  - vm_compute. reflexivity.
  - vm_compute. reflexivity.
  - discriminate.
Defined.

Definition synced_world : World := run_staging (OpSync alice_user 50) (world hosted).

Lemma staging_tables_invariant_witness : staging_wf (tables synced_world).
Proof.
  apply (staging_tables_invariant (world hosted)).
  - apply rtc_once. apply (HostingStaging (OpSync alice_user 50)).
  - exact (hosted_staging []).
Defined.

Lemma finished_promotion_frozen_witness :
  In promoted_row (ht_promotions (tables synced_world)).
Proof.
  apply (finished_promotion_frozen promoted_row (world hosted)).
  - apply rtc_once. apply (StagingStep (OpSync alice_user 50)).
  - exact (hosted_staging []).
  - left. reflexivity.
  - discriminate.
Defined.

Definition promote_run := promote alice_user 50 1 0 (world hosted).

Lemma promote_checks_witness :
  match promote_run.1 with
  | Ok p => run_status p = Promoted ∧ In (run_row p) (ht_promotions (tables promote_run.2))
  | Err _ => False
  end.
Proof.
  destruct promote_run as [[p|e] w'] eqn:E; [|vm_compute in E; discriminate]. cbn.
  destruct (promote_checks alice_user 50 1 0 (world hosted) p w' E (hosted_staging []))
    as (_ & _ & _ & _ & _ & Hrow & _).
  split; [|exact Hrow]. vm_compute in E. injection E as <- _. reflexivity.
Defined.

(** The site locked by bob. *)
Definition locked : World :=
  with_db (on_hosting (set_locks [mkLockRow 50 "bob" 0])) (world hosted).

Lemma busy_site_refused_witness :
  (∃ e w', sync_snapshot alice_user 50 locked = (Err e, w') ∧ tables w' = tables locked)
  ∧ (∃ e w', promote alice_user 50 1 0 locked = (Err e, w') ∧ tables w' = tables locked).
Proof.
  apply (busy_site_refused alice_user 50 1 0 locked).
  exists (mkLockRow 50 "bob" 0). split; [reflexivity|]. split; [discriminate|].
  intros k. unfold utc_now, demo_env, lk_locked_at. lia.
Defined.

Definition deleted_slot := delete_slot alice_user 50 false (world hosted).
Definition new_slot_request : CreateSlotRequest := mkCreateSlot None None None None None.

Lemma recreated_slot_never_syncs_witness :
  ~ ∃ c s w3, sync_snapshot c 50 (run_staging (OpCreateSlot alice_user 50 new_slot_request) deleted_slot.2)
              = (Ok s, w3).
Proof.
  apply (recreated_slot_never_syncs alice_user 50 false slot_row0 1 (world hosted) deleted_slot.2).
  - exact (hosted_staging []).
  - left. reflexivity.
  - reflexivity.
  - reflexivity.
  - vm_compute. reflexivity.
  - apply rtc_once. apply (StagingStep (OpCreateSlot alice_user 50 new_slot_request)).
Defined.

Definition slot0 : StagingSlot :=
  mkSlot 60 50 "staging" "/var/www/staging.example.com/staging/public_html" "example_com_staging"
    None OnPromote None (Some 1%Z) None false 0 0.

Lemma sync_takes_next_witness :
  ∃ s' w' t, sync_snapshot alice_user 50 (world hosted) = (Ok s', w')
    ∧ slot_current_snapshot s' = Some 2%Z
    ∧ ht_snapshots (tables w') = (ht_snapshots (hosted_tables []) ++ [mkSnapshotRow 50 2 t])%list
    ∧ In (slot_row_set s' slot_row0) (ht_slots (tables w'))
    ∧ List.find (lock_of 50) (ht_locks (tables w')) = None.
Proof.
  apply (sync_takes_next alice_user 50 site_row0 slot_row0 slot0 (world hosted) no_faults).
  - intros. reflexivity.
  - reflexivity.
  - exact (hosted_staging []).
  - left. reflexivity.
  - reflexivity.
  - left. reflexivity.
  - reflexivity.
  - vm_compute. reflexivity.
  - reflexivity.
  - cbn. intros [?|[]]. discriminate.
Defined.

(** ** Sites and databases *)

(** A [mysql] command that refuses to create what it created before and does everything else. *)
#[export] Instance demo_mysql : MysqlCli := {|
  mysql_exists _ := true;
  mysql_cli _ log sql :=
    if starts_with sql "CREATE" && existsb (λ e, String.eqb e.1 sql && e.2) log
    then CliFailed "already exists" else CliDone;
  gen_range k i := Nat.modulo (k + i)%nat 62
|}.
#[export] Instance demo_pitr : PitrEnv := {|
  to_rfc3339 t := of_bytes (show_Z t);
  tailer_registered _ := false;
  tailer_enable _ _ := Ok tt;
  tailer_disable _ _ := Ok tt
|}.
Definition master : list N := repeat 1%N 32.

Definition new_site : SiteOp := OpCreateSite alice_user 1 "example.org" [] false None None.

Definition new_database : DatabaseOp := OpCreateDatabase alice_user 1 "alice" "app" None.
Definition both_created : World := run_database master new_database (run_site new_site (world hosted)).

Lemma panel_tables_invariant_witness :
  (length (ht_sites (tables both_created)), length (dt_databases (ht_databases (tables both_created)))) = (2, 1)%nat
  ∧ accounts_wf (w_db both_created) ∧ hierarchy_decodes (w_db both_created)
  ∧ (∀ id, owner hosted id → owner (w_db both_created) id)
  ∧ (∀ r, In r (ht_sites (tables both_created)) →
      ∃ u, In u (db_users (w_db both_created)) ∧ ur_id u = si_owner_id r)
  ∧ ∀ r, In r (dt_databases (ht_databases (tables both_created))) →
      ∃ u, In u (db_users (w_db both_created)) ∧ ur_id u = dbr_owner_id r.
Proof.
  split; [vm_compute; reflexivity|]. apply (panel_tables_invariant (world hosted)).
  - eapply rtc_l; [apply PanelHosting, (HostingSite new_site)|].
    apply rtc_once, (PanelDatabase master new_database).
  - exact hosted_accounts.
Defined.

Definition site_run := create_site alice_user 1 "example.org" [] false None None (world hosted).

Lemma create_site_all_or_nothing_witness :
  created (hosted_tables []) 1 "example.org" site_run.1 site_run.2 ∧ is_ok site_run.1 = true.
Proof.
  pose proof (create_site_all_or_nothing alice_user 1 "example.org" [] false None None (world hosted)
    no_faults (hosted_staging [])) as Hc.
  fold site_run in Hc. destruct site_run as [r w'] eqn:E. split; [exact Hc|].
  vm_compute in E. injection E as <- _. reflexivity.
Defined.

(** ** Cron *)

Definition at_rest : CronState := mkCronState (world hosted) [] [].
Definition looked_up := run_lookup 1 false 80 (world hosted).

Lemma lookup_ran :
  looked_up = (Ok (backup_job, 3%Z, false), looked_up.2).
Proof. vm_compute. reflexivity. Qed.

Definition claim := run_claim 80 (backup_job, 3%Z, false) looked_up.2.
Definition flying : CronState := mkCronState claim.2 [] (launched claim.1).

Lemma rest_flying o : rtc (cron_step cron_roots o) at_rest flying.
Proof.
  eapply rtc_l; [exact (CronLookup cron_roots o 1 false 80 (world hosted) _ _ [] [] lookup_ran)|].
  apply rtc_once.
  exact (CronClaim cron_roots o 80 (backup_job, 3%Z, false) looked_up.2 claim.1 claim.2 [] [] []
           (surjective_pairing claim)).
Qed.

Lemma cron_tables_invariant_witness :
  cron_wf cron_roots (tables (cs_world flying))
  ∧ runs_agree (tables (cs_world flying)) ∧ length (ht_cron_runs (tables (cs_world flying))) = 1%nat.
Proof.
  destruct (cron_tables_invariant cron_roots true at_rest flying (rest_flying true) hosted_cron) as [HW Ha].
  split; [exact HW|]. split; [|vm_compute; reflexivity]. apply Ha.
  - exact (demo_draws _).
  - intros job run [].
  - intros r [].
Defined.

Lemma rest_ok : cron_ok cron_roots at_rest.
Proof. split; [exact hosted_cron|]. split; [intros job run []|constructor]. Qed.

Lemma cron_no_overlap_witness :
  NoDup (map (λ p, jr_job_id p.2) (cs_flying flying)) ∧ length (cs_flying flying) = 1%nat.
Proof.
  split; [exact (cron_no_overlap cron_roots at_rest flying (rest_flying true) rest_ok)|].
  vm_compute. reflexivity.
Defined.

Definition run_row0 : CronRunRow := mkCronRunRow 90 80 1 backup_run true 0.
Definition running : CronState :=
  mkCronState (with_db (on_hosting (λ _, hosted_tables [run_row0])) (world hosted)) []
    [(backup_job, backup_run)].

Lemma running_cron : cron_wf cron_roots (hosted_tables [run_row0]).
Proof.
  destruct hosted_cron as [W1 W2 _ _ _ _]. split; [exact W1|exact W2|decided| | |].
  - intros r [<-|[]]. done.
  - intros r [<-|[]]. by left.
  - by intros r1 r2 [<-|[]] [<-|[]].
Qed.

Lemma expired_lease_overlaps_witness :
  ∃ s' job' run', rtc (cron_step cron_roots false) running s'
    ∧ cs_flying s' = (job', run') :: cs_flying running ∧ jr_job_id run' = 80%N
    ∧ run' ≠ backup_run.
Proof.
  apply (expired_lease_overlaps cron_roots running backup_job backup_run no_faults).
  - split; [exact running_cron|]. split; [|apply (bool_decide_unpack _); vm_compute; exact I].
    intros job run [[= <- <-]|[]]. exists run_row0. split; [|left; reflexivity].
    split; [|split; [|split]]; reflexivity.
  - left. reflexivity.
  - intros k. cbn. intros [Hk|[]]. lia.
Defined.

Definition ticked := cron_tick 10 7 (world hosted).

Lemma tick_advances_due_witness :
  ticked.1 = Ok 1%nat
  ∧ Forall (λ r, cj_enabled (cjr_payload r) = true → (10 < cj_next_run_at (cjr_payload r))%Z)
      (ht_cron_jobs (tables ticked.2)).
Proof.
  split; [vm_compute; reflexivity|]. apply List.Forall_forall.
  apply (tick_advances_due cron_roots 10 7 (world hosted) 1 ticked.2).
  - vm_compute. reflexivity.
  - exact hosted_cron.
Defined.

(** ** Registry *)

Definition entries : list (string * DateTime) := [("a", 1%Z); ("b", 2%Z); ("c", 3%Z)].

Lemma retention_apply_exact_witness :
  NoDup (retention_apply (mkRetention (Some 1%Z) None) entries 10)
  ∧ (In "a" (retention_apply (mkRetention (Some 1%Z) None) entries 10) ↔
     ∃ i pushed_at, merge_sort newer_entry entries !! i = Some ("a", pushed_at)
                    ∧ prunable (mkRetention (Some 1%Z) None) 10 i pushed_at).
Proof.
  apply (retention_apply_exact (mkRetention (Some 1%Z) None) entries 10 "a").
  apply (bool_decide_unpack _). vm_compute. exact I.
Defined.

Lemma namespace_paths_witness :
  components (path_join (bytes "/srv/registry") (bytes (manifest_path ".." (digest_of "a"))))
  = [RootDir; Normal (bytes "srv"); Normal (bytes "registry"); ParentDir;
     Normal (bytes "manifests"); Normal (bytes (digest_of "a"))].
Proof.
  apply (namespace_paths "/srv/registry" ".." ".." (digest_of "a") (digest_of "a"));
    vm_compute; reflexivity.
Defined.

Definition keep_one : RegistryConfig := mkRegistryConfig "/srv/registry" (mkRetention None None) true.
Definition push_d : PushRequest := mkPush "alpha" (digest_of "d") None [1; 2]%N [].


Definition pruned := apply_retention "alpha" (mkRetention (Some 1%Z) None) (world hosted).

Lemma retention_forgets_images_witness :
  pruned.1 = Ok 2%nat
  ∧ length (ht_images (hosted_tables [])) = (2 + length (ht_images (tables pruned.2)))%nat
  ∧ ∃ nr r, In nr (ht_namespaces (hosted_tables [])) ∧ nr_namespace_id nr = "alpha"
      ∧ In r (ht_images (hosted_tables [])) ∧ image_in "alpha" r = true
      ∧ used_is "alpha" (nr_used_bytes nr - ir_size_bytes r) (tables pruned.2).
Proof.
  split; [vm_compute; reflexivity|].
  apply (retention_forgets_images "alpha" (mkRetention (Some 1%Z) None) 1 (world hosted) pruned.2).
  - vm_compute. reflexivity.
  - exact (hosted_registry []).
Defined.

Lemma create_namespace_takes_over_witness :
  ∃ ns w', create_namespace "alpha" 2 500 (world hosted) = (Ok ns, w')
    ∧ List.find (ns_is "alpha") (ht_namespaces (tables w')) = Some (ns_row ns)
    ∧ ns_owner ns = 2%N ∧ ns_quota_bytes ns = 500%Z ∧ ns_used_bytes ns = 0%Z
    ∧ ht_images (tables w') = ht_images (hosted_tables [])
    ∧ (push keep_one 1 push_d "alice" w').1 = Err (PushDomain NotAuthorised).
Proof.
  destruct (create_namespace_takes_over "alpha" 2 500 (world hosted) no_faults)
    as (ns & w' & H1 & H2 & H3 & H4 & H5 & H6 & H7); [vm_compute; reflexivity|vm_compute; split; discriminate|].
  exists ns, w'. split_and!; try assumption. apply H7; [reflexivity|discriminate].
Defined.

(** ** Collaborators *)

Definition dev_row : CollaboratorRow := mkCollaboratorRow 400 1 "dev@example.com" "invited" 0 None None.
Definition shared_access : AccessTables := mkAccessTables [dev_row] [mkSiteGrantRow 400 50 3 0].
Definition shared : Db := on_hosting (set_access shared_access) hosted.

Lemma shared_wf : access_wf shared_access.
Proof.
  split.
  - decided.
  - decided.
  - intros r [<-|[]]. split_and!; [done|by vm_compute|by left].
  - intros g [<-|[]]. split; [cbn; lia|by left].
Qed.

Definition ops_request : InviteRequest := mkInvite "ops@example.com" 50 9.
Definition ungranted := revoke_grant 400 50 "alice" (world shared).
Definition reinvited := invite 1 ops_request "alice" ungranted.2.

Lemma revoked_grant_gone_witness :
  ungranted.1 = Ok tt ∧ is_ok reinvited.1 = true
  ∧ ~ ∃ s w, grant_resolve 400 50 reinvited.2 = (Ok s, w).
Proof.
  split; [vm_compute; reflexivity|]. split; [vm_compute; reflexivity|].
  apply (revoked_grant_gone 400 50 "alice" (world shared) ungranted.2 reinvited.2).
  - exact shared_wf.
  - left. reflexivity.
  - vm_compute. reflexivity.
  - apply rtc_once. apply (CoInvite 1 ops_request "alice" ungranted.2). vm_compute. intuition discriminate.
Defined.

Definition both_invited := invite 1 ops_request "alice" (world shared).
Definition ops_grant : SiteGrantRow := mkSiteGrantRow 1001 50 9 0.

Lemma access_held_by_invited_witness :
  access_wf (ht_access (tables both_invited.2))
  ∧ (∃ r, In r (ac_collaborators (ht_access (tables both_invited.2))) ∧ cb_id r = 1001%N
          ∧ cb_status r = "invited")
  ∧ (grant_resolve 1001 50 both_invited.2).1 = Ok 9%N.
Proof.
  destruct (access_held_by_invited (world shared) both_invited.2 ops_grant) as (H1 & H2 & H3).
  - apply rtc_once. apply (CoInvite 1 ops_request "alice" (world shared)). vm_compute. intuition discriminate.
  - exact shared_wf.
  - vm_compute. right. left. reflexivity.
  - split; [exact H1|]. split; [exact H2|]. apply H3. reflexivity.
Defined.
