(* ===== verification/TokenWitnesses.v ===== *)
(** * Tokens on a concrete installation

    A token of alice, and stand-ins for the random source and the monotonic clock, under
    which the hypotheses of the token properties hold. *)
From S2P Require Import Prelude Text AuditActions AuditLog Accounts Float64 Paths CronJobs HostingTables Store Users Identity Secrets Factors FactorRepo Net Remember TwoFactor Demo Hierarchy HierarchyInvariant Sites StagingChanges StagingSafety ApiTokens TokenService TokenSafety TokenCodec TokenTheorems Witnesses.
Open Scope N_scope.

(** A digest of 32 bytes. *)
Lemma demo_mac_len key msg : length (demo_mac key msg) = 32%nat.
Proof. exact (hmac_len key msg). Qed.
#[export] Instance demo_token_crypto : CookieCrypto := {|
  hmac_sha256 := demo_mac; sha256 := demo_mac [];
  b64url_encode := b64url_encode; b64url_decode := b64url_decode;
  payload_to_vec := payload_to_vec; payload_from_slice := payload_from_slice
|}.

#[export] Instance demo_token_env : TokenEnv := {|
  token_bytes k := repeat (N.of_nat k mod 256) BODY_BYTES;
  instant_now k := Z.of_nat k
|}.
#[export] Instance demo_token_laws : TokenLaws.
Proof.
  split.
  - intros k. apply repeat_length.
  - intros k. apply List.Forall_forall. intros b ->%repeat_spec. by apply N.mod_lt.
  - intros l. apply demo_mac_len.
Qed.

Definition pepper0 : list N := repeat 7 32.
Definition alices : UserRec :=
  mkUser 1 "alice" "alice@example.com" (salted "correct horse battery") Owner None None 0 None None.

Definition cred0 : TokenCredential := credential_of (repeat 200 BODY_BYTES).
Definition text0 : string := cred_rendered cred0.
Definition token_row0 : TokenRow :=
  mkTokenRow 300 1 "deploy" (credential_hash pepper0 cred0) ["sites:read"]
    (Some ["192.0.2.0/24"]) 0 5000 None None.
Definition tokened : Db :=
  mkDb [alice; bob None; carol None] [] [] [] [] no_factors (set_tokens [token_row0] no_hosting) [] [] [].
Definition peer0 : IpAddr := IpV4 [192; 0; 2; 77].

Lemma tokened_wf : tokens_wf [token_row0].
Proof. split; apply (bool_decide_unpack _); vm_compute; exact I. Qed.

(** ** Credentials and networks *)

Lemma credential_roundtrip_witness :
  credential_parse (cred_rendered (credential_of (token_bytes 9))) = Ok (credential_of (token_bytes 9))
  ∧ base32_decode (cred_body (credential_of (token_bytes 9))) = Some (token_bytes 9).
Proof. apply (credential_roundtrip 9). Defined.

Lemma cidr_v4_exact_witness :
  v4_network [192; 0; 2; 0] 24 = "192.0.2.0/24"
  ∧ cidr_contains (v4_network [192; 0; 2; 0] 24) peer0 = true
  ∧ cidr_contains (v4_network [192; 0; 2; 0] 24) (IpV6 [0; 0; 0; 0; 0; 65535; 49152; 589]) = false.
Proof.
  destruct (cidr_v4_exact [192; 0; 2; 0] 24 [192; 0; 2; 77]) as (_ & Hv4 & Hv6);
    [reflexivity|apply (bool_decide_unpack _); vm_compute; exact I|vm_compute; discriminate|].
  split; [vm_compute; reflexivity|]. split; [|apply Hv6].
  apply Hv4; [reflexivity|apply (bool_decide_unpack _); vm_compute; exact I|vm_compute; reflexivity].
Defined.

Lemma rate_limit_burst_witness :
  consume_at rate_default 300 (repeat 7%Z 61 ++ repeat (7 + 1000000000)%Z 2) ∅
  = (repeat (Ok tt) 60 ++ [Err (RateLimited 1); Ok tt; Err (RateLimited 1)])%list.
Proof. apply (rate_limit_burst 300 7 ∅). apply lookup_empty. Defined.

(** ** Requests *)

Definition input0 : CreateApiToken :=
  mkCreateToken 3 "ci" ["sites:read"; "cron:write"] 4000 ["198.51.100.0/24"].
Definition no_token : CreatedApiToken := mkCreated (metadata (mkToken 0 0 "" [] [] [] 0 0 None None)) "".
Definition output {A E} (d : A) (x : result A E * World) : A := match x.1 with Ok a => a | Err _ => d end.
Definition create0 := token_create pepper0 alices input0 (world tokened).

Lemma created_token_policy_witness :
  is_ok create0.1 = true
  ∧ ∃ r target cred n,
    ht_tokens (db_hosting (w_db create0.2)) = [token_row0; r]
    ∧ List.find (id_is 3) (db_users tokened) = Some (user_row target)
    ∧ tk_user_id r = 3
    ∧ (u_id alices = 3 ∨ u_role alices = Owner ∨ u_role alices = Admin ∧ u_role target ≠ Owner)
    ∧ (∀ s, In s (tk_scopes r) ↔ In s ["sites:read"; "cron:write"])
    ∧ (u_role alices = User → ∀ s, In s (tk_scopes r) → scope_verb s = bytes "read")
    ∧ (utc_now n < tk_expires_at r ≤ utc_now n + days 365)%Z
    ∧ tk_revoked_at r = None
    ∧ credential_parse (cr_plaintext (output no_token create0)) = Ok cred
    ∧ tk_hash r = credential_hash pepper0 cred.
Proof.
  split; [vm_compute; reflexivity|].
  apply (created_token_policy pepper0 alices input0 (world tokened) (output no_token create0) create0.2).
  vm_compute. reflexivity.
Defined.

Definition rotate0 := rotate pepper0 alices 1 300 (world tokened).

Lemma rotate_exact_witness :
  is_ok rotate0.1 = true ∧ length (ht_tokens (db_hosting (w_db rotate0.2))) = 2%nat
  ∧ ht_tokens (db_hosting (w_db (rotate pepper0 alices 1 301 (world tokened)).2)) = [token_row0].
Proof.
  pose proof (rotate_exact pepper0 alices 1 300 (world tokened)) as Hok. fold rotate0 in Hok.
  pose proof (rotate_exact pepper0 alices 1 301 (world tokened)) as Herr.
  split; [vm_compute; reflexivity|]. split.
  - destruct rotate0 as [[c|e] w'] eqn:E; [|by vm_compute in E].
    destruct Hok as (r & k & new & old & n & cred & _ & _ & _ & _ & _ & _ & _ & Ht & _). cbn [snd]. rewrite Ht.
    reflexivity.
  - destruct (rotate pepper0 alices 1 301 (world tokened)) as [[c|e] w'] eqn:E; [by vm_compute in E|exact Herr].
Defined.

Definition auth0 := authenticate pepper0 rate_default text0 peer0 "sites:read" (world tokened).

Lemma authenticate_checks_witness :
  ∃ c r k n, credential_parse text0 = Ok c
    ∧ In r [token_row0] ∧ tk_id r = 300 ∧ tk_hash r = credential_hash pepper0 c ∧ token_of_row r = Ok k
    ∧ tk_revoked_at r = None ∧ (utc_now n < tk_expires_at r)%Z
    ∧ In "sites:read" (tk_scopes r)
    ∧ (tok_cidr_allowlist k = []
       ∨ ∃ cidr, In cidr (tok_cidr_allowlist k) ∧ cidr_contains cidr peer0 = true)
    ∧ List.find (id_is (tk_user_id r)) (db_users tokened) = Some (user_row alices)
    ∧ is_disabled alices = false
    ∧ ht_tokens (db_hosting (w_db auth0.2))
      = update_where (token_is (tk_user_id r) 300) (token_row_set (mark_used (utc_now n) k)) [token_row0].
Proof.
  apply (authenticate_checks pepper0 rate_default text0 peer0 "sites:read" (world tokened) alices 300 auth0.2).
  vm_compute. reflexivity.
Defined.

Definition revoked := revoke alices 1 300 (world tokened).
Definition after_use := authenticate pepper0 rate_default text0 peer0 "sites:read" revoked.2.

Lemma revoked_token_rejected_witness :
  ∃ e w, authenticate pepper0 rate_default text0 peer0 "sites:read" after_use.2 = (Err e, w).
Proof.
  apply (revoked_token_rejected pepper0 rate_default alices 1 300 token_row0 (world tokened)
           revoked.2 after_use.2 text0 cred0 peer0 "sites:read").
  - exact tokened_wf.
  - left. reflexivity.
  - reflexivity.
  - reflexivity.
  - left. vm_compute. reflexivity.
  - apply rtc_once. apply StepAuthenticate.
  - vm_compute. reflexivity.
  - reflexivity.
Defined.

Definition checked := auth_check pepper0 rate_default text0 peer0 "sites:read" (world tokened).
Definition token0 : ApiToken :=
  mkToken 300 1 "deploy" (credential_hash pepper0 cred0) ["sites:read"] ["192.0.2.0/24"] 0 5000 None None.
Definition between := revoke alices 1 300 checked.2.
Definition revived := auth_store token0 1 between.2.

Lemma stale_use_revives_token_witness :
  (∃ r, In r (ht_tokens (db_hosting (w_db between.2))) ∧ tk_id r = 300 ∧ tk_revoked_at r ≠ None)
  ∧ (∀ r, In r (ht_tokens (db_hosting (w_db revived.2))) → tk_id r = 300 → tk_revoked_at r = None)
  ∧ is_ok (authenticate pepper0 rate_default text0 peer0 "sites:read" revived.2).1 = true.
Proof.
  destruct (stale_use_revives_token pepper0 rate_default text0 peer0 "sites:read" alices (world tokened)
              alices token0 1 checked.2 between.2 revived.2) as (H1 & H2 & _).
  - exact tokened_wf.
  - vm_compute. reflexivity.
  - vm_compute. reflexivity.
  - vm_compute. reflexivity.
  - split; [exact H1|]. split; [exact H2|]. vm_compute. reflexivity.
Defined.
