(* ===== verification/OpsWitnesses.v ===== *)
(** * Plans, windows, pools and quotas on a concrete installation

    A clock that moves on at every reading, and tables on which the hypotheses of the
    properties of these contexts hold: a plan that bob holds, a maintenance window with an
    override, a weighted pool of two members, and a quota policy of bob. *)
From S2P Require Import Prelude Text AuditActions AuditLog Accounts Paths CronJobs Plans Maintenance HostingTables Store Users Identity Demo Sites Staging StagingChanges Parts PlanService PlanTheorems PlanResolver MaintenanceService LoadBalancing Quotas Witnesses.
Open Scope N_scope.

#[export] Instance ticking_env : Env := {|
  utc_now k := Z.of_nat k;
  new_v4 k := (1000 + N.of_nat k)%N;
  uuid_text u := of_bytes (show_N u);
  random_token k := "token-" +:+ of_bytes (show_N (N.of_nat k));
  argon2_hash _ t := Ok (salted t);
  argon2_default_hash _ t := salted t;
  argon2_verify h t := Ok (String.eqb h (salted t));
  sql_fault _ := None;
  constraint_text c := c
|}.
Lemma ticking_no_faults : ∀ k, sql_fault k = None.
Proof. done. Qed.
Lemma ticking_strict : ∀ j k, (j < k)%nat → (utc_now j < utc_now k)%Z.
Proof. intros j k Hjk. cbn. lia. Qed.

Definition basic_caps : PlanQuotas := mkQuotas 1000 2000 3 4 5 6 7 8 9.
Definition basic_plan : PlanRow :=
  mkPlanRow 500 "basic" "the basic plan" [] ∅ basic_caps [] [] "active" 0 0.
Definition bobs_assignment : AssignmentRow := mkAssignmentRow 2 500 (-1) 1 None.
Definition plan_tables0 : PlanTables := mkPlanTables [basic_plan] [bobs_assignment] ∅.

Definition upgrade : WindowRow := mkWindowRow 600 "upgrade" 0 1000000 [PackageInstall] 0 1.
Definition urgent : OverrideRow :=
  mkOverrideRow 700 "package_install" "urgent" 3600 0 3600000000000 None 1.
Definition maintenance0 : MaintenanceTables := mkMaintenanceTables [upgrade] [urgent].

Definition front : Member := mkMember 810 800 "10.0.0.1:80" 10 LbHealthy None 0.
Definition back : Member := mkMember 811 800 "10.0.0.2:80" 20 LbHealthy None 0.
Definition lb0 : LbTables :=
  mkLbTables [mkLbPoolRow 800 "web" "weighted" 0] [lb_member_row front; lb_member_row back].

Definition limit0 : QuotaLimit := mkLimit 100 (2 ^ 63) 7.
Definition policy0 : QuotaPolicy :=
  mkPolicy 900 SubjectUser 2 limit0 limit0 limit0 (Some 5%Z) None 0 0.
Definition quotas0 : QuotaTables := mkQuotaTables [policy_row policy0] [].

Definition equipped : Db :=
  mkDb [alice; bob None; carol None] [] [] [] [] no_factors
    (set_quotas quotas0 (set_lb lb0 (set_maintenance maintenance0 (set_plan_tables plan_tables0 no_hosting))))
    [] [] [].
Definition alices_rec : UserRec :=
  mkUser 1 "alice" "alice@example.com" (salted "correct horse battery") Owner None None 0 None None.

(** ** The invariants hold *)

Lemma plan_tables0_wf : plan_wf plan_tables0.
Proof.
  split; try (apply (bool_decide_unpack _); vm_compute; exact I).
  - intros r [<-|[]]. vm_compute. split_and!; done.
  - intros a [<-|[]]. by left.
Qed.
Lemma maintenance0_wf : maint_wf maintenance0.
Proof.
  split; try (apply (bool_decide_unpack _); vm_compute; exact I).
  - intros r [<-|[]]. reflexivity.
  - intros r1 r2 [<-|[]] [<-|[]]. done.
  - intros r [<-|[]]. reflexivity.
Qed.
Lemma lb0_wf : lb_wf lb0.
Proof.
  split; try (apply (bool_decide_unpack _); vm_compute; exact I).
  - intros r [<-|[]]. reflexivity.
  - intros r [<-|[<-|[]]]; (split; [|by left]); vm_compute; split_and!; done.
Qed.
Lemma quotas0_wf : quota_wf quotas0.
Proof.
  split; try (apply (bool_decide_unpack _); vm_compute; exact I).
  intros r [<-|[]]. reflexivity.
Qed.

(** ** Plans *)

Lemma equipped_past : past (world equipped).
Proof. intros a [<-|[]]. cbn. lia. Qed.
Lemma equipped_sound : sound (world equipped).
Proof.
  split; [exact plan_tables0_wf| |exact equipped_past].
  intros u c at_. cbn. by rewrite lookup_empty.
Qed.

Definition after_assign : World := (assign_plan 500 3 "alice" 1 (world equipped)).2.

Lemma plan_tables_invariant_witness :
  length (pl_assignments (ht_plans (db_hosting (w_db after_assign)))) = 2%nat
  ∧ plan_wf (ht_plans (db_hosting (w_db after_assign))).
Proof.
  split; [vm_compute; reflexivity|].
  apply (plan_tables_invariant (world equipped)); [|exact plan_tables0_wf].
  apply rtc_once. apply (PsAssign true 500 3 "alice" 1).
Defined.


Lemma assign_takes_effect_witness :
  ∃ a w', assign_plan 500 3 "alice" 1 (world equipped) = (Ok a, w')
    ∧ granted 3 (ht_plans (db_hosting (w_db w'))) (from_caps basic_caps)
    ∧ (∃ w'', effective_caps (E:=HostingPlansError) 3 w' = (Ok (from_caps basic_caps), w''))
    ∧ (∀ x, In x (db_users (w_db w')) → ur_id x = 3 → ur_hosting_plan_id x = Some 500)
    ∧ (∀ v q, v ≠ 3 → granted v plan_tables0 q → granted v (ht_plans (db_hosting (w_db w'))) q).
Proof.
  apply (assign_takes_effect ticking_no_faults ticking_strict basic_plan (carol None) 3 "alice" 1 (world equipped));
    [exact equipped_sound|by left|reflexivity|vm_compute; reflexivity|vm_compute; reflexivity].
Defined.

Lemma delete_plan_exact_witness :
  ∃ w', delete_plan 500 "alice" (world equipped) = (Err PlanInUse, w')
    ∧ pl_plans (ht_plans (db_hosting (w_db w'))) = [basic_plan].
Proof.
  destruct (delete_plan_exact ticking_no_faults basic_plan "alice" (world equipped)) as (w' & Hd & Hp & _);
    [by left|]. exists w'. split; [exact Hd|exact Hp].
Defined.

Lemma async_miss_hides_plan_witness :
  ∃ w1 w2, effective_async (E:=HostingPlansError) 2 (world equipped) = (Ok role_default, w1)
    ∧ effective_caps (E:=HostingPlansError) 2 w1 = (Ok role_default, w2)
    ∧ granted 2 (ht_plans (db_hosting (w_db w1))) (from_caps basic_caps)
    ∧ ~ granted 2 (ht_plans (db_hosting (w_db w1))) role_default.
Proof.
  apply (async_miss_hides_plan 2 (world equipped));
    [exact plan_tables0_wf|reflexivity| |discriminate|vm_compute; discriminate].
  left. exists bobs_assignment, basic_plan. split_and!; try reflexivity; by left.
Defined.

(** ** Maintenance *)

Abbreviation maint0 := (ht_maintenance (db_hosting equipped)).
Lemma equipped_blocked k d :
  (Z.of_nat k ≤ 1000000)%Z → mt_windows (ht_maintenance (db_hosting d)) = [upgrade] →
  blocked (utc_now k) PackageInstall (ht_maintenance (db_hosting d)).
Proof. intros Hk Hd. exists upgrade. rewrite Hd. split; [by left|]. cbn. split; [lia|by left]. Qed.

Definition after_gate : World := (gate alices_rec PackageInstall (Some 700) (world equipped)).2.

Lemma windows_stay_apart_witness : maint_wf (ht_maintenance (db_hosting (w_db after_gate))).
Proof.
  apply (windows_stay_apart (world equipped) after_gate); [|exact maintenance0_wf].
  apply rtc_once. apply (MsGate alices_rec PackageInstall (Some 700)).
Defined.

Lemma gate_passes_iff_witness :
  is_ok (gate alices_rec PackageInstall (Some 700) (world equipped)).1 = true
  ∧ is_ok (gate alices_rec PackageInstall None (world equipped)).1 = false.
Proof.
  split.
  - apply (gate_passes_iff alices_rec PackageInstall (Some 700) (world equipped) ticking_no_faults maintenance0_wf).
    split; [reflexivity|]. right. exists 700, urgent.
    split; [reflexivity|]. split; [by left|]. split_and!; try reflexivity. vm_compute; discriminate.
  - vm_compute. reflexivity.
Defined.

Lemma override_single_use_witness :
  gate alices_rec PackageInstall (Some 700) (world equipped) = (Ok tt, after_gate)
  ∧ ∀ w, gate alices_rec PackageInstall (Some 700) after_gate ≠ (Ok tt, w).
Proof.
  split; [vm_compute; reflexivity|]. intros w.
  apply (override_single_use alices_rec PackageInstall 700 alices_rec PackageInstall (world equipped) after_gate after_gate).
  - apply equipped_blocked; [cbn; lia|reflexivity].
  - vm_compute. reflexivity.
  - reflexivity.
  - apply equipped_blocked; [vm_compute; discriminate|vm_compute; reflexivity].
Defined.

Lemma override_spent_twice_witness :
  ∃ o1 o2 w1 w2 w3 w4,
    gate_check alices_rec PackageInstall (Some 700) (world equipped) = (Ok (Some o1), w1)
    ∧ gate_check alices_rec PackageInstall (Some 700) w1 = (Ok (Some o2), w2)
    ∧ gate_commit (Some o1) w2 = (Ok tt, w3) ∧ gate_commit (Some o2) w3 = (Ok tt, w4).
Proof.
  apply (override_spent_twice alices_rec PackageInstall 700 urgent (world equipped));
    [exact ticking_no_faults|exact maintenance0_wf|reflexivity|by left|].
  intros t [-> | ->]; (split; [split_and!; try reflexivity; vm_compute; discriminate|]);
    apply equipped_blocked; (reflexivity || cbn; lia).
Defined.

(** ** Load balancing *)

Definition after_probe : World := (apply_probe alices_rec 811 false 1 1 (world equipped)).2.

Lemma traffic_to_healthy_witness :
  ∃ w'', next 800 after_probe = (Ok (Some front), w'')
    ∧ lb_wf (ht_lb (db_hosting (w_db after_probe))) ∧ mem_status front = LbHealthy.
Proof.
  exists (next 800 after_probe).2.
  assert (next 800 after_probe = (Ok (Some front), (next 800 after_probe).2)) as Hn by (vm_compute; reflexivity).
  split; [exact Hn|].
  destruct (traffic_to_healthy 800 (world equipped) after_probe front (next 800 after_probe).2) as (HW & _ & _ & Hs & _);
    [apply rtc_once, LsProbe|exact lb0_wf|exact Hn|]. split; [exact HW|exact Hs].
Defined.

Lemma probe_history_witness :
  ∃ m', In (lb_member_row m') (lb_members (ht_lb (db_hosting (w_db
      (fold_left (λ w ok, (apply_probe alices_rec 811 ok 2 9 w).2) [true; false; false] (world equipped))))))
    ∧ mem_id m' = 811 ∧ mem_failed_probe_count m' = 2%Z ∧ mem_status m' = LbFailing.
Proof.
  destruct (probe_history ticking_no_faults alices_rec back 2 9 [true; false; false] (world equipped))
    as (m' & Hin & Hid & _ & _ & Hc & Hs & _);
    [exact lb0_wf|reflexivity|vm_compute; split; discriminate|right; by left|reflexivity|reflexivity|].
  exists m'. split; [exact Hin|]. split; [exact Hid|]. split; [exact Hc|exact Hs].
Defined.

Lemma recreated_pool_empty_witness :
  ∃ w' w'', create_lb_pool alices_rec (mkLbPool 800 "web" Weighted 0) (world equipped)
            = (Ok (mkLbPool 800 "web" Weighted 0), w')
    ∧ next 800 w' = (Ok None, w'').
Proof.
  destruct (recreated_pool_empty ticking_no_faults alices_rec (mkLbPool 800 "web" Weighted 0) (world equipped))
    as (w' & w'' & Hc & _ & Hn); [reflexivity|by left|]. exists w', w''. split; [exact Hc|exact Hn].
Defined.

(** ** Quotas *)

Definition larger : QuotaPolicy :=
  mkPolicy 900 SubjectUser 2 (mkLimit 200 (2 ^ 64 - 1) 7) limit0 limit0 None (Some 2%Z) 5 5.
Lemma larger_range : policy_range larger.
Proof.
  unfold policy_range, limit_range, is_u64, is_u32, U64_MAX, U32_MAX. cbn [larger limit0 pol_disk pol_bandwidth
    pol_inodes pol_max_file_size_bytes pol_cpu_shares soft_bytes hard_bytes grace_days].
  split; [lia|]. split; [lia|]. split; [lia|]. split; [intros x; discriminate|]. intros x [= <-]. lia.
Qed.

Lemma policy_set_found_witness :
  ∃ w' t w'', set_user_policy 2 larger "alice" (world equipped) = (Ok larger, w')
    ∧ policy_find_by_subject SubjectUser 2 w'
      = (Ok (Some (mkPolicy 900 SubjectUser 2 (mkLimit 200 (2 ^ 64 - 1) 7) limit0 limit0 None (Some 2%Z) t 5)), w'').
Proof.
  apply (policy_set_found ticking_no_faults 2 (bob None) larger "alice" (world equipped));
    [exact quotas0_wf|vm_compute; reflexivity|vm_compute; reflexivity|exact larger_range
    |reflexivity|reflexivity|vm_compute; reflexivity].
Defined.

Lemma policy_replacement_lost_witness :
  ∃ w', set_user_policy 2 (mkPolicy 901 SubjectUser 2 limit0 limit0 limit0 None None 5 5) "alice" (world equipped)
        = (Ok (mkPolicy 901 SubjectUser 2 limit0 limit0 limit0 None None 5 5), w')
    ∧ qt_policies (ht_quotas (db_hosting (w_db w'))) = [policy_row policy0].
Proof.
  destruct (policy_replacement_lost ticking_no_faults 2 (bob None) (policy_row policy0)
    (mkPolicy 901 SubjectUser 2 limit0 limit0 limit0 None None 5 5) "alice" (world equipped)) as (w' & w'' & Hs & Hq & _);
    [exact quotas0_wf|vm_compute; reflexivity|vm_compute; reflexivity|vm_compute; reflexivity| |].
  - intros [[=]|[]].
  - exists w'. split; [exact Hs|exact Hq].
Defined.

Lemma sample_recorded_witness :
  ∃ w' w'', ingest_sample policy0 150 10 0 "alice" (world equipped) = (Ok (usage_sample 2 policy0 150 10 0 0), w')
    ∧ latest_usage 2 w' = (Ok (Some (usage_sample 2 policy0 150 10 0 0)), w'').
Proof.
  destruct (sample_recorded ticking_no_faults policy0 150 10 0 "alice" (world equipped)) as [H _];
    [vm_compute; split; discriminate|vm_compute; split; discriminate|vm_compute; split; discriminate|by intros r []|].
  exact H.
Defined.
