(* ===== verification/DatabaseWitnesses.v ===== *)
(** * Databases and recovery on a concrete installation

    A database of carol with two segments of its log in the sink and restores in several states,
    on which the hypotheses of the properties of these contexts hold, and runs that show what the
    code does where it differs from its documentation. *)
From S2P Require Import Prelude Text AuditActions AuditLog Accounts Paths CronJobs HostingTables Store Users Secrets Demo Sites Staging StagingChanges Parts Databases DatabaseSql Pitr DatabaseChanges DatabaseTheorems Witnesses HostingWitnesses OpsWitnesses.
Open Scope N_scope.

Definition shop : DatabaseRow :=
  mkDatabaseRow 40 3 "carol_shop" "carol_shop" "localhost" "mysql" "utf8mb4" "active"
    (hex_encode (repeat 7 12) +:+ ":" +:+ hex_encode (bytes "secret")) 0 "alice".
Definition history : list (Uuid * BinlogSegment) :=
  [(40, mkSegment [1] [5] (-50) []); (40, mkSegment [5] [9] (-10) [])].
Definition staged_row : RestoreRow :=
  restore_row (staged_restore 60 40 (-30) "alice" 61 62 [9] (-5)).
Definition failed_row : RestoreRow :=
  mkRestoreRow 70 40 (-40) None None None "failed" "alice" (-9) (-8) (Some "engine stopped").
Definition recovery0 : DatabaseTables :=
  mkDatabaseTables [shop] [] [] [staged_row; failed_row] [] (sink_of history).
Definition shop_db : Db :=
  mkDb [alice; bob None; carol None] [] [] [] [] no_factors (set_database_tables recovery0 no_hosting) [] [] [].
Definition shop_world : World := world shop_db.
Definition carol_caller : UserRec :=
  mkUser 3 "carol" "carol@example.com" (salted "carol's password") User None None 2 None None.
Definition bob_caller : UserRec :=
  mkUser 2 "bob" "bob@example.com" (salted "bob's own password") Admin None None 1 None None.

(** ** Databases *)

Definition drop_shop : DatabaseOp := OpDeleteDatabase carol_caller 40.
Lemma mysql_confined_witness :
  length (dt_mysql (dt (run_database master drop_shop shop_world))) = 2%nat
  ∧ ∃ l, dt_mysql (dt (run_database master drop_shop shop_world)) = (dt_mysql (dt shop_world) ++ l)%list
    ∧ ∀ sql done, In (sql, done) l →
        ∃ s, sql_tokens (bytes sql) = Some (statement_tokens s) ∧ permitted shop_world drop_shop s.
Proof. split; [vm_compute; reflexivity|]. apply (mysql_confined master drop_shop shop_world). exact I. Defined.

(** A creation whose charset drops another database. *)
Definition smuggled : string := "utf8mb4;" +:+ drop_database_sql "carol_shop".
Example charset_reaches_mysql :
  map fst (dt_mysql (dt (run_database master (OpCreateDatabase bob_caller 2 "bob" "app" (Some smuggled)) shop_world)))
  !! 0%nat = Some ("CREATE DATABASE `bob_app` CHARACTER SET utf8mb4;DROP DATABASE IF EXISTS `carol_shop`;;").
Proof. vm_compute. reflexivity. Qed.

Definition create_blog := create_database master alices_rec 3 "carol" "blog" None shop_world.
Definition blog : Database :=
  mkDatabase 1000 3 "carol_blog" "carol_blog" "localhost" Mysql "utf8mb4" DatabaseActive 1 "alice".
Definition blog_password : string := match create_blog.1 with Ok (_, p) => p | Err _ => "" end.
Definition blog_world : World := create_blog.2.
(** Afterwards the shop is deleted and a segment arrives. *)
Definition later : World :=
  run_pitr (OpAppend 1000 (mkSegment [1] [2] 5 [])) (run_database master drop_shop blog_world).

Lemma password_revealed_witness :
  str_len blog_password = 24
  ∧ ∃ w3, reveal_password master carol_caller 1000 later = (Ok blog_password, w3).
Proof.
  split; [vm_compute; reflexivity|].
  apply (password_revealed master 1000 blog_password shop_world blog_world later carol_caller).
  - exact ticking_no_faults.
  - left. exists alices_rec, 3, "carol", "blog", None, blog. split; [vm_compute; reflexivity|reflexivity].
  - eapply rtc_l; [apply (StepDatabase master _ drop_shop); split; discriminate|].
    apply rtc_once, StepPitr.
  - intros r Hr _. vm_compute in Hr. destruct Hr as [<-|[]]. intros _. reflexivity.
Defined.

(** An admin is shown the password of a database of an owner. *)
Definition owners_run := create_database master alices_rec 1 "alice" "ledger" None shop_world.
Example admin_reveals_owners_password :
  u_role bob_caller = Admin ∧ u_role alices_rec = Owner ∧ u_id alices_rec = 1
  ∧ ∃ d p w3, owners_run.1 = Ok (d, p) ∧ database_owner_id d = 1
      ∧ reveal_password master bob_caller (database_id d) owners_run.2 = (Ok p, w3).
Proof.
  split; [reflexivity|]. split; [reflexivity|]. split; [reflexivity|]. do 3 eexists.
  split; [vm_compute; reflexivity|]. split; [reflexivity|]. vm_compute. reflexivity.
Qed.

(** A segment that starts and ends at the initial position leaves the range empty. *)
Example initial_segment_uncovered :
  ∃ rg w', sink_available_range 41 (run_pitr (OpAppend 41 (mkSegment log_initial log_initial (-20) [])) shop_world)
           = (Ok rg, w')
    ∧ (rg_start rg, rg_end rg) = (-20, -20)%Z ∧ range_covers rg (-20) = false.
Proof. do 2 eexists. split; [vm_compute; reflexivity|]. split; vm_compute; reflexivity. Qed.

(** ** Restores *)

Lemma recovery0_wf : restores_wf recovery0.
Proof.
  split; [apply (bool_decide_unpack _); vm_compute; exact I|]. intros r [<-|[<-|[]]].
  - by exists RestoreStaged.
  - by exists RestoreFailed.
Qed.

Definition promoted_world : World :=
  run_pitr (OpFailRestore 60 "too late") (run_pitr (OpPromoteRestore alices_rec 60) shop_world).
Lemma restore_lifecycle_witness :
  map rs_status (dt_restores (dt promoted_world)) = ["promoted"; "failed"]
  ∧ restores_wf (dt promoted_world)
  ∧ ∃ r', In r' (dt_restores (dt promoted_world)) ∧ restore_evolves staged_row r'
      ∧ (rs_status staged_row = "promoted" ∨ rs_status staged_row = "failed" → r' = staged_row).
Proof.
  split; [vm_compute; reflexivity|]. apply (restore_lifecycle master staged_row shop_world).
  - exact recovery0_wf.
  - left. reflexivity.
  - eapply rtc_l; [apply (StepPitr master _ (OpPromoteRestore alices_rec 60))|].
    apply rtc_once, (StepPitr master _ (OpFailRestore 60 "too late")).
Defined.

Lemma available_range_exact_witness :
  ∃ rg w', sink_available_range 40 shop_world = (Ok rg, w') ∧ (rg_start rg ≤ rg_end rg)%Z
    ∧ (range_covers rg (-20) = true ↔
        (∃ s, In s (segments_of 40 history) ∧ sg_generated_at s ≤ -20)%Z
        ∧ (∃ s, In s (segments_of 40 history) ∧ -20 ≤ sg_generated_at s)%Z
        ∧ (sg_from <$> head (segments_of 40 history), sg_to <$> last (segments_of 40 history))
          ≠ (Some log_initial, Some log_initial)).
Proof. apply (available_range_exact history 40 (-20) shop_world). reflexivity. Defined.

Definition yesterday : RestoreRequest := mkRestoreRequest (-20) None false.
Definition first_answer := request_restore alices_rec 40 yesterday shop_world.
Definition requested : PitrRestore := staged_restore 1004 40 (-20) "alice" 1006 1007 [9] 3.
Lemma request_repeated_witness :
  in_progress (-20) requested = true
  ∧ (∃ e l s t, sk_ranges (dt_sink (dt shop_world)) !! 40 = Some (e, l, s, t) ∧ (s ≤ -20 ≤ t)%Z)
  ∧ ∃ w2, request_restore alices_rec 40 yesterday first_answer.2 = (Ok requested, w2)
      ∧ w_db w2 = w_db first_answer.2.
Proof.
  apply (request_repeated ticking_no_faults alices_rec 40 yesterday shop_world requested first_answer.2).
  - intros i j Hij. cbn. lia.
  - intros e l s t Hk. vm_compute in Hk. injection Hk as <- <- <- <-. split; [repeat constructor|cbn; lia].
  - reflexivity.
  - vm_compute. reflexivity.
Defined.

(** ** Where the code departs from its documentation *)

(** A confirmed request answers with a staged restore although the row is promoted. *)
Example confirmed_answer_is_staged :
  let '(r, w') := request_restore alices_rec 40 (mkRestoreRequest (-20) None true) shop_world in
  match r with Ok p => Some (restore_status p) | Err _ => None end = Some RestoreStaged
  ∧ (rs_status <$> List.find (restore_is 1004) (dt_restores (dt w'))) = Some "promoted".
Proof. vm_compute. split; reflexivity. Qed.

(** Enabling a stream a second time, for another target, keeps the first target. *)
Example target_is_kept :
  let w1 := run_pitr (OpEnableStream alices_rec 40 80) shop_world in
  map bs_target_id (dt_streams (dt (run_pitr (OpEnableStream alices_rec 40 81) w1))) = [80].
Proof. vm_compute. reflexivity. Qed.

(** When the account cannot be created, the MySQL database is left behind without a row, and the
    name cannot be created again. *)
Definition no_accounts : MysqlCli := {|
  mysql_exists _ := true;
  mysql_cli _ log sql :=
    if starts_with sql "CREATE USER" then CliFailed "denied"
    else if starts_with sql "CREATE" && existsb (λ e, String.eqb e.1 sql && e.2) log
    then CliFailed "already exists" else CliDone;
  gen_range k i := O
|}.
Example failed_creation_blocks_name :
  let create := create_database (H1:=no_accounts) master alices_rec 3 "carol" "blog" None in
  let '(r1, w1) := create shop_world in
  let '(r2, w2) := create_database master alices_rec 3 "carol" "blog" None w1 in
  (r1, map dbr_name (dt_databases (dt w1)), r2)
  = (Err (MysqlError "denied"), ["carol_shop"], Err (MysqlError "already exists"))
  ∧ dt_mysql (dt w1) !! 0%nat = Some ("CREATE DATABASE `carol_blog` CHARACTER SET utf8mb4;", true).
Proof. vm_compute. split; reflexivity. Qed.

(** Two owners and suffixes with one database name. *)
Example names_collide :
  let name ou suffix := match (database_new 1 1 ou suffix "utf8mb4" "" shop_world).1 with
                        | Ok d => Some (database_name d) | Err _ => None end in
  name "bob" "web_app" = name "bob_web" "app" ∧ name "bob" "web_app" = Some "bob_web_app".
Proof. vm_compute. split; reflexivity. Qed.
