(* ===== verification/FilesWitnesses.v ===== *)
(** * The file manager on a concrete tree

    A site of carol under [/srv/site], once without links and once with links that lead out of
    it, and the requests that follow them. *)
From S2P Require Import Prelude Text AuditActions AuditLog Accounts Paths CronJobs HostingTables Store Users Identity Demo Sites FileSystem Files FileTree FilesSafety FilesTheorems Witnesses OpsWitnesses.
Open Scope N_scope.

#[export] Instance plain_fs : FsEnv := {|
  realpath_fault _ := None;
  fs_fault _ := None;
  errno_text e := match e with ENOENT => "No such file or directory" | EISDIR => "Is a directory" | _ => "error" end;
  working_dir := [];
  umask := 18;
  dir_len _ _ := 4096%Z;
  dir_modified _ _ := 0%Z;
  dir_order _ l := l;
  written _ := None;
  survives _ _ := false;
  mime_essence _ := "text/plain";
  from_timestamp s := Some (s * 1000000000)%Z
|}.

#[export] Instance plain_fs_laws : FsLaws.
Proof. split. done. Qed.
Lemma plain_fs_no_faults : ∀ k, fs_fault k = None.
Proof. done. Qed.
Lemma plain_realpath_no_faults : ∀ k, realpath_fault k = None.
Proof. done. Qed.

(** ** Deciding the hypotheses on a given tree *)

Definition good_nameb (n : Name) : bool :=
  bool_decide (component n = Some (Normal n)) && negb (existsb (N.eqb SLASH) n) && negb (existsb (N.eqb 0) n).

Lemma good_nameb_spec n : good_nameb n = true → good_name n.
Proof.
  unfold good_nameb. rewrite !andb_true_iff, !negb_true_iff, !existsb_false. intros [[Hc Hs] Hz].
  apply bool_decide_eq_true in Hc. split_and!; [done|..]; intros Hin; [by specialize (Hs _ Hin) | by specialize (Hz _ Hin)].
Qed.

Definition is_dirb (fs : FS) (l : Loc) : bool := match fs !! l with Some (NDir _) => true | _ => false end.

Lemma is_dirb_spec fs l : is_dirb fs l = true → is_dir fs l.
Proof. unfold is_dirb, is_dir. destruct (fs !! l) as [[]|]; try done. eauto. Qed.

Definition entry_okb (fs : FS) (kv : Loc * Node) : bool :=
  match last kv.1 with
  | None => true
  | Some n => good_nameb n && is_dirb fs (removelast kv.1)
  end.

Lemma fs_wf_check fs : is_dirb fs [] && forallb (entry_okb fs) (map_to_list fs) = true → fs_wf fs.
Proof.
  rewrite andb_true_iff, forallb_forall. intros [Ht Hall]. split; [by apply is_dirb_spec|]. intros d n x Hx.
  apply elem_of_map_to_list, list_elem_of_In in Hx. apply Hall in Hx. unfold entry_okb in Hx. cbn in Hx.
  rewrite last_snoc, removelast_last, andb_true_iff in Hx. destruct Hx as [Hn Hd].
  split; [by apply good_nameb_spec | by apply is_dirb_spec].
Qed.

Definition link_near (r : Loc) (kv : Loc * Node) : bool := (under kv.1 r || under r kv.1) && is_link kv.2.

Lemma unlinked_check fs r : existsb (link_near r) (map_to_list fs) = false → unlinked fs r.
Proof.
  rewrite existsb_false. intros Hall q Hq t Hx. apply elem_of_map_to_list, list_elem_of_In in Hx. apply Hall in Hx.
  unfold link_near in Hx. cbn in Hx. rewrite andb_true_r, orb_false_iff in Hx. destruct Hx as [H1 H2].
  destruct Hq as [Hq|Hq]; apply under_true in Hq; congruence.
Qed.

(** ** The trees *)

Definition at_path (s : string) : Loc := names (split SLASH (bytes s)).
Definition fs_tree (l : list (string * Node)) : FS := list_to_map (prod_map at_path id <$> l).

Definition passwd : Node := NFile (bytes "root:x:0:0") 384 0.
Definition index : Node := NFile (bytes "<html>") 420 0.
Definition tidy_tree : FS := fs_tree
  [("/", NDir 493); ("/etc", NDir 493); ("/etc/passwd", passwd); ("/srv", NDir 493);
   ("/srv/site", NDir 493); ("/srv/site/index.html", index); ("/srv/site/img", NDir 493)].

(** A link to a file inside, a link to a file outside, and the latter under the name of a
    temporary file. *)
Definition linked_tree : FS := fs_tree
  [("/", NDir 493); ("/etc", NDir 493); ("/etc/passwd", passwd); ("/srv", NDir 493);
   ("/srv/site", NDir 493); ("/srv/site/index.html", index);
   ("/srv/site/home", NLink (bytes "../site/./index.html"));
   ("/srv/site/peek", NLink (bytes "../../etc/passwd"));
   ("/srv/site/index.html.new", NLink (bytes "/etc/passwd"))].

Definition carols_site : SiteRow :=
  mkSiteRow 50 3 "example.com" [] "/srv/site" false None "active" 0 0 "alice" "alice".
Definition carols_rec : UserRec :=
  mkUser 3 "carol" "carol@example.com" (salted "carol's password") User None None 2 None None.
Definition files_db : Db :=
  mkDb [alice; bob None; carol None] [] [] [] [] no_factors (set_sites [carols_site] no_hosting) [] [] [].
Definition on_tree (fs : FS) : FilesWorld := mkFilesWorld (world files_db) fs.
Definition carols_root : Loc := [bytes "srv"; bytes "site"].

Lemma tidy_wf : fs_wf tidy_tree.
Proof. apply fs_wf_check. vm_compute. reflexivity. Qed.
Lemma linked_wf : fs_wf linked_tree.
Proof. apply fs_wf_check. vm_compute. reflexivity. Qed.
Lemma tidy_unlinked : unlinked tidy_tree carols_root.
Proof. apply unlinked_check. vm_compute. reflexivity. Qed.

Lemma carols_root_of : root_of carols_site carols_root.
Proof. split; [reflexivity|]. repeat constructor; apply good_nameb_spec; vm_compute; reflexivity. Qed.

Lemma carols_root_unique r : root_of carols_site r → r = carols_root.
Proof. intros [Hb Hg]. rewrite <- (names_split_loc r Hg), <- Hb. vm_compute. reflexivity. Qed.

(** ** Witnesses *)

Definition a_days_work : list (Uuid * FileOp) :=
  [(50, FWrite "index.html" (bytes "<html>hello")); (50, FMkdir "css"); (50, FRename "img" "css/img");
   (50, FChmod "css" 448); (50, FRemove "" true)].

Lemma files_confined_witness :
  fw_fs (file_ops carols_rec a_days_work (on_tree tidy_tree)) !! at_path "/etc/passwd" = Some passwd
  ∧ fw_fs (file_ops carols_rec a_days_work (on_tree tidy_tree)) !! at_path "/srv/site" = None.
Proof.
  split; [|vm_compute; reflexivity].
  destruct (files_confined carols_rec a_days_work (on_tree tidy_tree)) as [_ Hout].
  - repeat constructor; try (vm_compute; reflexivity). vm_compute. discriminate.
  - intros row [<-|[]] _. exists carols_root. split; [exact carols_root_of | exact tidy_unlinked].
  - rewrite Hout; [vm_compute; reflexivity|]. intros row r [<-|[]] _ Hr. apply carols_root_unique in Hr as ->.
    vm_compute. reflexivity.
Defined.

Lemma write_file_atomic_witness :
  write_outcome (at_path "/srv/site/index.html.new") (at_path "/srv/site/index.html") (bytes "new") tidy_tree true
    (fw_fs (write_file carols_rec 50 "index.html" (bytes "new") (on_tree tidy_tree)).2).
Proof.
  apply (write_file_atomic carols_rec 50 carols_site carols_root carols_root (bytes "index.html") "index.html" (bytes "new")
    (on_tree tidy_tree) (write_file carols_rec 50 "index.html" (bytes "new") (on_tree tidy_tree)).2 (Ok tt));
    [exact tidy_wf | reflexivity | exact carols_root_of | exact tidy_unlinked | vm_compute; reflexivity
    | vm_compute; discriminate | vm_compute; reflexivity | vm_compute; reflexivity].
Defined.

Lemma tidy_writable :
  writable carols_rec 50 "index.html" (on_tree tidy_tree) carols_site carols_root carols_root (bytes "index.html").
Proof.
  split; try exact tidy_wf; try exact carols_root_of; try exact tidy_unlinked; try (vm_compute; reflexivity).
  - vm_compute. discriminate.
  - apply is_dirb_spec. vm_compute. reflexivity.
  - intros m. vm_compute. discriminate.
  - intros m. vm_compute. discriminate.
Qed.

Lemma write_then_read_witness :
  ∃ w' ts w'', write_file carols_rec 50 "index.html" (bytes "new") (on_tree tidy_tree) = (Ok tt, w')
    ∧ read_file carols_rec 50 "index.html" w' = (Ok (bytes "new", ts), w'').
Proof.
  destruct (write_then_read ticking_no_faults plain_fs_no_faults plain_realpath_no_faults carols_rec 50 "index.html" (bytes "new")
    (on_tree tidy_tree) carols_site carols_root carols_root (bytes "index.html") tidy_writable) as (t & w' & Hw & _ & ts & w'' & Hr).
  - vm_compute. discriminate.
  - exists w', ts, w''. split; [exact Hw | exact Hr].
Defined.

(** [home] is a link within the root; [peek], which leaves it, is refused. *)
Lemma read_file_confined_witness :
  ∃ row r l m t, List.find (site_is 50) (file_sites (on_tree linked_tree)) = Some row ∧ managed carols_rec row
    ∧ locate Existing linked_tree (bytes (si_document_root row)) = Ok r
    ∧ r `prefix_of` l ∧ linked_tree !! l = Some (NFile (bytes "<html>") m t).
Proof.
  apply (read_file_confined carols_rec 50 "home" (bytes "<html>") 0 (on_tree linked_tree)
    (read_file carols_rec 50 "home" (on_tree linked_tree)).2);
    [reflexivity | exact linked_wf | vm_compute; reflexivity | vm_compute; reflexivity| | |vm_compute; reflexivity].
  - intros row [= <-]. vm_compute. reflexivity.
  - intros row r [= <-]. vm_compute. intros [= <-]. vm_compute. discriminate.
Defined.

(** ** Ways out of the root *)

(** [peek] itself is refused; [peek/] answers the file it points to. *)
Lemma trailing_slash_witness :
  (read_file carols_rec 50 "peek" (on_tree linked_tree)).1 = Err (PathOutsideChroot "peek")
  ∧ ∃ ts w', read_file carols_rec 50 "peek/" (on_tree linked_tree) = (Ok (bytes "root:x:0:0", ts), w').
Proof.
  split; [vm_compute; reflexivity|].
  apply (trailing_slash_escapes ticking_no_faults plain_fs_no_faults plain_realpath_no_faults carols_rec 50 carols_site
    carols_root "peek" (at_path "/etc/passwd") (bytes "root:x:0:0") 384 0 (on_tree linked_tree));
    [exact linked_wf | reflexivity | vm_compute; reflexivity | reflexivity | exact carols_root_of| | |
     vm_compute; reflexivity | vm_compute; reflexivity | vm_compute; discriminate].
  - apply is_dirb_spec. vm_compute. reflexivity.
  - apply good_nameb_spec. vm_compute. reflexivity.
Defined.

(** A link under the name of the temporary file redirects a write: the file outside takes
    the content and mode 644, and the link takes the place of the file. *)
Lemma planted_link_escapes :
  ∃ t w', write_file carols_rec 50 "index.html" (bytes "root::0:0") (on_tree linked_tree) = (Ok tt, w')
    ∧ fw_fs w' !! at_path "/etc/passwd" = Some (NFile (bytes "root::0:0") 420 t)
    ∧ fw_fs w' !! at_path "/srv/site/index.html" = Some (NLink (bytes "/etc/passwd")).
Proof. do 2 eexists. vm_compute. repeat split. Qed.

(** A chain of forty links, entered through a link to a directory. *)
Definition chain_link (k : nat) : string * Node :=
  ("/srv/site/dir/l" +:+ of_bytes (show_N (N.of_nat k)), NLink (bytes ("l" +:+ of_bytes (show_N (N.of_nat (S k)))))).
Definition chained_tree : FS := fs_tree
  ([("/", NDir 493); ("/etc", NDir 493); ("/etc/passwd", passwd); ("/srv", NDir 493); ("/srv/site", NDir 493);
    ("/srv/site/dir", NDir 493); ("/srv/site/via", NLink (bytes "dir"));
    ("/srv/site/dir/l39", NLink (bytes "/etc/passwd"))]
   ++ map chain_link (seq 0 39)).

(** Reached directly, the end of the chain is refused; one link more and [realpath] gives
    up, so that the entry is resolved from its directory and opened. *)
Lemma long_chain_escapes :
  (read_file carols_rec 50 "dir/l0" (on_tree chained_tree)).1 = Err (PathOutsideChroot "dir/l0")
  ∧ ∃ w', read_file carols_rec 50 "via/l0" (on_tree chained_tree) = (Ok (bytes "root:x:0:0", 0%Z), w').
Proof. split; [vm_compute; reflexivity|]. eexists. vm_compute. reflexivity. Qed.

Lemma root_write_witness :
  ∃ t w', write_file carols_rec 50 "" (bytes "x") (on_tree tidy_tree) = (Err (FileIo "Is a directory"), w')
    ∧ fw_fs w' !! at_path "/srv/site..new" = Some (NFile (bytes "x") 420 t).
Proof.
  destruct (root_write_escapes ticking_no_faults plain_fs_no_faults plain_realpath_no_faults carols_rec 50 carols_site
    [bytes "srv"] (bytes "site") (bytes "x") (on_tree tidy_tree)) as [_ (t & w' & Hw & Hf)];
    [exact tidy_wf | reflexivity | vm_compute; reflexivity | reflexivity | exact carols_root_of | | vm_compute; reflexivity|].
  - apply is_dirb_spec. vm_compute. reflexivity.
  - exists t, w'. split; [exact Hw|]. rewrite Hf. vm_compute. reflexivity.
Defined.

Lemma list_dir_exact_witness :
  ∃ out w', files_list_dir carols_rec 50 "" (on_tree tidy_tree) = (Ok out, w') ∧ Sorted info_le out.
Proof.
  destruct (list_dir_exact ticking_no_faults plain_fs_no_faults plain_realpath_no_faults carols_rec 50 ""
    (on_tree tidy_tree) carols_site carols_root) as (out & w' & Hl & _ & Hs & _);
    [exact tidy_wf | reflexivity | vm_compute; reflexivity | reflexivity | exact carols_root_of | reflexivity| |].
  - apply is_dirb_spec. vm_compute. reflexivity.
  - exists out, w'. split; [exact Hl | exact Hs].
Defined.
