(* ===== verification/BackupWitnesses.v ===== *)
(** * Backups of a concrete site

    The site of carol with a plan that keeps one copy, a stand-in for [walkdir] on the tree, and
    the archives, runs and restores under which the hypotheses of the backup properties hold. *)
From S2P Require Import Demo HostingWitnesses TokenWitnesses DatabaseWitnesses Registry Prelude Text Net AuditActions AuditLog Accounts Paths CronJobs BackupRuns HostingTables Store Users Identity Secrets Remember Sites Staging StagingChanges Parts Databases FileSystem Files FileTree FilesSafety FilesTheorems BackupArchive ArchiveTheorems Cron Backups BackupChanges BackupTheorems Witnesses OpsWitnesses FilesWitnesses.
Open Scope N_scope.

(** ** The outside *)

Definition is_file (n : Node) : bool := match n with NFile _ _ _ => true | _ => false end.
Definition below (r : Loc) (kv : Loc * Node) : bool := under r kv.1 && negb (bool_decide (kv.1 = r)).

#[export] Instance demo_backups : BackupEnv := {|
  walk_dir _ fs p :=
    map (λ kv, Ok (loc_text kv.1, is_file kv.2)) (List.filter (below (names (split SLASH p))) (map_to_list fs));
  walk_error_text _ e := errno_text e;
  manifest_json m := bytes "{}";
  mysqldump _ _ _ := Some (true, bytes "-- dump");
  current_exe _ := Ok (bytes "/usr/bin/openpanel")
|}.

#[export] Instance demo_walk_laws : WalkLaws.
Proof.
  split. intros k fs r _ Hwf [mr Hr]. cbn [walk_dir demo_backups]. rewrite names_split_loc by (by eapply wf_names).
  exists (map (λ kv, (loc_text kv.1, is_file kv.2)) (List.filter (below r) (map_to_list fs))).
  split; [by rewrite map_map|]. intros p. rewrite in_map_iff. setoid_rewrite filter_In. setoid_rewrite <- list_elem_of_In.
  split.
  - intros ([l x] & [= <- Hx] & Hin%elem_of_map_to_list & Hb). destruct x as [c m t| |]; try done.
    unfold below in Hb. cbn in *. apply andb_true_iff in Hb as [[y ->]%under_true Hn].
    apply negb_true_iff, bool_decide_eq_false in Hn. exists y, c, m, t. split_and!; [done| |done].
    intros ->. by rewrite app_nil_r in Hn.
  - intros (x & c & m & t & -> & Hx & Hin). exists ((r ++ x)%list, NFile c m t). split_and!; [done|by apply elem_of_map_to_list|].
    unfold below. cbn. apply andb_true_iff. split; [apply under_true; by eexists|].
    apply negb_true_iff, bool_decide_eq_false. intros E. apply Hx. apply (app_inv_head r). by rewrite app_nil_r.
Qed.

Lemma hex_char_lower d : d < 16 → ascii_lower (hex_char d) = hex_char d.
Proof.
  intros Hd. assert (forallb (λ d, ascii_lower (hex_char d) =? hex_char d) (map N.of_nat (seq 0 16)) = true) as Hall
    by (vm_compute; reflexivity).
  rewrite forallb_forall in Hall. apply N.eqb_eq, Hall. rewrite <- (N2Nat.id d). apply in_map, in_seq. lia.
Qed.

#[export] Instance demo_digest_laws : DigestLaws.
Proof.
  split; intros l; unfold digest_text; cbn [hex_encode demo_vault].
  - unfold str_len. rewrite <- length_bytes, hex_bytes_text.
    assert (∀ x, length (hex_bytes x) = (2 * length x)%nat) as Hl
      by (intros x; induction x as [|b x IH]; [done|]; change (hex_bytes (b :: x)) with (hex_of_byte b ++ hex_bytes x)%list;
          rewrite length_app, IH; cbn; lia).
    rewrite Hl. cbn [sha256 demo_token_crypto]. by rewrite demo_mac_len.
  - rewrite hex_bytes_text. generalize (sha256 l). intros x. induction x as [|b x IH]; [constructor|].
    do 2 (constructor; [split; [apply hex_char_digit | apply hex_char_lower]; by apply N.mod_lt|]). exact IH.
Qed.

(** ** The tree and the tables *)

(** An archive whose first file is welcome and whose second is not. *)
Definition hostile : list N :=
  (MAGIC ++ archive_entry (bytes "ok.txt") 2 (bytes "ok") ++ archive_entry (bytes "../../etc/passwd") 1 (bytes "x"))%list.
Definition backed_tree : FS := fs_tree
  [("/", NDir 493); ("/etc", NDir 493); ("/etc/passwd", passwd); ("/srv", NDir 493);
   ("/srv/site", NDir 493); ("/srv/site/index.html", index); ("/srv/site/img", NDir 493);
   ("/srv/site/img/a.png", NFile [137; 80] 420 0); ("/var", NDir 493); ("/var/hostile", NFile hostile 420 0)].

Definition backup_root : list N := bytes "/var/backups".
Definition nightly : BackupPlan :=
  mkBackupPlan 170 3 "nightly" [SiteFiles 50] "0 0 * * *" "UTC" 1 true 0 0 None.
Definition old_artifact : BackupArtifact := mkArtifact (SiteFiles 50) "site-50.opfs" 6 "" 1.
Definition old_row (id : Uuid) (pinned : bool) (t : DateTime) : BackupRunRow :=
  mkBackupRunRow id 170 3
    (mkBackupRun id 170 3 BackupCompleted [old_artifact] true pinned t (Some t) (Some t) None) t.
Definition backups0 : BackupTables :=
  mkBackupTables [mkBackupPlanRow 170 3 nightly] [old_row 180 false (-5); old_row 181 true (-9); old_row 182 false (-7)] [].
Definition backup_db (t : BackupTables) : Db :=
  mkDb [alice; bob None; carol None] [] [] [] [] no_factors
    (set_database_tables (set_databases [shop] no_databases) (set_sites [carols_site] (set_backup_tables t no_hosting))) [] [] [].
Definition backed : FilesWorld := mkFilesWorld (world (backup_db backups0)) backed_tree.

Lemma backed_wf : fs_wf backed_tree.
Proof. apply fs_wf_check. vm_compute. reflexivity. Qed.

Lemma backups0_wf : runs_wf backups0.
Proof.
  split; [apply (bool_decide_unpack _); vm_compute; exact I|].
  intros r [<-|[<-|[<-|[]]]]; vm_compute; split_and!; done.
Qed.

(** ** Archives *)

Lemma extract_confined_witness :
  fw_fs (extract_site_archive (bytes "/var/hostile") (loc_text carols_root) backed).2 !! at_path "/etc/passwd" = Some passwd
  ∧ (extract_site_archive (bytes "/var/hostile") (loc_text carols_root) backed).1 = Err ArtifactCorrupt
  ∧ is_Some (fw_fs (extract_site_archive (bytes "/var/hostile") (loc_text carols_root) backed).2 !! at_path "/srv/site/ok.txt").
Proof.
  split; [|split; [vm_compute; reflexivity|eexists; vm_compute; reflexivity]].
  rewrite (extract_confined carols_root (proj2 carols_root_of) (bytes "/var/hostile") backed (at_path "/etc/passwd"));
    [vm_compute; reflexivity | | vm_compute; reflexivity].
  split.
  - intros q Hq Hne. refine (dir_prefix backed_tree q carols_root backed_wf _ Hq).
    apply is_dirb_spec. vm_compute. reflexivity.
  - apply unlinked_check. vm_compute. reflexivity.
Defined.

(** Deciding what [archive_places] asks of the files below a directory. *)
Definition small_file (r : Loc) (kv : Loc * Node) : bool :=
  match kv.2 with
  | NFile c _ _ =>
      let p := join_pieces (drop (length r) kv.1) in
      negb (under r kv.1) || (valid_utf8 p && (N.of_nat (length p) <=? MAX_PATH) && (N.of_nat (length c) <=? MAX_FILE))
  | _ => true
  end.

Lemma small_files_check fs r :
  forallb (small_file r) (map_to_list fs) = true →
  ∀ x c m t, fs !! (r ++ x)%list = Some (NFile c m t) →
    valid_utf8 (join_pieces x) = true ∧ N.of_nat (length (join_pieces x)) ≤ MAX_PATH
    ∧ N.of_nat (length c) ≤ MAX_FILE.
Proof.
  rewrite forallb_forall. intros Hall x c m t Hx. apply elem_of_map_to_list, list_elem_of_In, Hall in Hx.
  unfold small_file in Hx. cbn in Hx. rewrite (proj2 (under_true r (r ++ x)%list)), drop_app_length in Hx by (by eexists).
  cbn in Hx. rewrite !andb_true_iff, !N.leb_le in Hx. tauto.
Qed.

Lemma backed_places :
  archive_places backed_tree carols_root [bytes "var"] (bytes "a.opfs") [bytes "var"] (bytes "out").
Proof.
  split.
  - exact backed_wf.
  - apply is_dirb_spec. vm_compute. reflexivity.
  - apply small_files_check. vm_compute. reflexivity.
  - split_and!; [apply is_dirb_spec | apply good_nameb_spec | |]; vm_compute; reflexivity.
  - split_and!; [apply is_dirb_spec | apply good_nameb_spec |]; vm_compute; reflexivity.
  - vm_compute. discriminate.
Qed.

Lemma archive_roundtrip_witness :
  ∃ w1 w2 m t,
    extract_site_archive (bytes "/var/a.opfs") (bytes "/var/out") w1 = (Ok tt, w2)
    ∧ fw_fs w2 !! at_path "/var/out/img/a.png" = Some (NFile [137; 80] m t).
Proof.
  destruct (archive_roundtrip plain_fs_no_faults carols_root [bytes "var"] (bytes "a.opfs") [bytes "var"] (bytes "out")
    (SiteFiles 50) "site-50.opfs" backed backed_places) as (artifact & w1 & w2 & _ & Hx & _ & Hall);
    [vm_compute; reflexivity|].
  destruct (proj2 (Hall [bytes "img"; bytes "a.png"] [137; 80])) as (m & t & Hf);
    [do 2 eexists; vm_compute; reflexivity|].
  exists w1, w2, m, t. split; [exact Hx | exact Hf].
Defined.

(** ** Runs *)

Abbreviation served := (run_backup backup_root (Some master) None []).
Definition backed_up : FilesWorld := served (OpRunPlan 3 false 170) backed.

(** The new copy takes the place of the two old ones; the pinned one stays. *)
Lemma backed_up_wf : runs_wf (bt backed_up).
Proof.
  destruct (run_backup_moves backup_root (Some master) None [] 0 (OpRunPlan 3 false 170) backed) as [_ Hm]; [lia|].
  eapply backup_changes_wf; [exact Hm | exact backups0_wf].
Qed.

(** The run the service has stored is verified, then the next copy takes its place. *)
Definition next_day : FilesWorld := served (OpRunPlan 3 false 170) (served (OpVerify 3 false 1002) backed_up).
Definition stored_run : BackupRunRow := default (old_row 0 false 0) (bt_runs (bt backed_up) !! 1%nat).

Lemma stored_run_facts :
  bt_runs (bt backed_up) !! 1%nat = Some stored_run ∧ brr_id stored_run = 1002
  ∧ (3 ≤ w_step (fw_world backed_up))%nat.
Proof. vm_compute. split_and!; [done | done | lia]. Qed.

Lemma backup_lifecycle_witness :
  map brr_id (bt_runs (bt backed_up)) = [181; 1002]
  ∧ map brr_id (bt_runs (bt next_day)) = [181; 1039]
  ∧ runs_wf (bt next_day) ∧ row_fate stored_run (bt next_day).
Proof.
  split; [vm_compute; reflexivity|]. split; [vm_compute; reflexivity|].
  destruct (backup_lifecycle backup_root (Some master) None [] backed_up next_day) as [Hwf Hf].
  - exact backed_up_wf.
  - unfold next_day. generalize backed_up. intros w. eapply rtc_l; [apply backup_step_run|].
    apply rtc_once, backup_step_run.
  - destruct stored_run_facts as (Hl & Hid & Hst). split; [exact Hwf|]. apply Hf.
    + exact (proj1 (list_elem_of_In _ _) (list_elem_of_lookup_2 _ _ _ Hl)).
    + intros k Hk. rewrite Hid. pose proof (Nat.le_trans _ _ _ Hst Hk) as Hle. clear -Hle.
      change (1000 + N.of_nat k ≠ 1002). lia.
Defined.

Lemma retention_exact_witness :
  ∃ w', backup_apply_retention backup_root nightly backed = (Ok tt, w')
    ∧ map brr_id (bt_runs (bt w')) = [180; 181]
    ∧ ∀ r, In r (bt_runs (bt w')) ↔
        In r (bt_runs backups0) ∧ ~ In (brr_payload r) (drop 1 (counted_runs nightly backups0)).
Proof.
  exists (backup_apply_retention backup_root nightly backed).2.
  assert (backup_apply_retention backup_root nightly backed = (Ok tt, (backup_apply_retention backup_root nightly backed).2)) as E
    by (vm_compute; reflexivity).
  split; [exact E|]. split; [vm_compute; reflexivity|].
  exact (proj1 (retention_exact backup_root nightly backed _ backups0_wf E)).
Defined.

(** ** Restores *)

(** The site is lost after the backup; the copy gives it back. *)
Definition lost : FilesWorld := (fs_remove_dir_all (bytes "/srv/site") backed_up).2.
Definition plain_restore : RestoreInput := mkRestoreInput [] "fail" None.
Definition restored : FilesWorld := (restore backup_root 3 false 1002 plain_restore lost).2.

Lemma restore_checks_witness :
  is_ok (restore backup_root 3 false 1002 plain_restore lost).1 = true
  ∧ (∃ m t, fw_fs restored !! at_path "/srv/site/img/a.png" = Some (NFile [137; 80] m t))
  ∧ ∃ run, visible_run 3 false 1002 (bt lost) = Some run ∧ br_state run = BackupCompleted
      ∧ Forall (artifact_intact (fw_fs lost) (run_dir backup_root 1002)) (br_artifacts run)
      ∧ vacant (fw_fs lost) (bytes "/srv/site").
Proof.
  split; [vm_compute; reflexivity|]. split; [do 2 eexists; vm_compute; reflexivity|].
  destruct (restore_checks backup_root 3 false 1002 plain_restore lost restored
    (restore backup_root 3 false 1002 plain_restore lost).1) as (run & H1 & H2 & H3 & H4).
  - unfold restored. by destruct (restore backup_root 3 false 1002 plain_restore lost).
  - intros E. apply (f_equal (lookup (at_path "/srv/site/img/a.png"))) in E. vm_compute in E. discriminate.
  - exists run. split; [exact H1|]. split; [exact H2|]. split; [exact H3|].
    destruct H4 as [[Hp _]|[_ Hv]]; [discriminate Hp|].
    assert (map art_resource (br_artifacts run) = [SiteFiles 50] ∧ br_owner_id run = 3) as [Ha Ho]
      by (vm_compute in H1; injection H1 as <-; split; reflexivity).
    destruct (br_artifacts run) as [|a l]; [discriminate Ha|]. injection Ha as Ha _.
    destruct (Hv a 50 (or_introl eq_refl) Ha) as (site & Hs & _ & Hvac).
    vm_compute in Hs. injection Hs as <-. exact (Hvac plain_fs_no_faults).
Defined.

(** A copy of the site and of a database: the restore puts the site back, then reports that a
    database cannot be restored; the next attempt finds the site in the way. *)
Definition both : BackupPlan :=
  mkBackupPlan 171 3 "both" [SiteFiles 50; DatabaseDump 40] "0 0 * * *" "UTC" 3 true 0 0 None.
Definition both_world : FilesWorld :=
  mkFilesWorld (world (backup_db (mkBackupTables [mkBackupPlanRow 171 3 both] [] []))) backed_tree.
Definition both_lost : FilesWorld :=
  (fs_remove_dir_all (bytes "/srv/site") (served (OpRunPlan 3 false 171) both_world)).2.
Example half_a_restore :
  map (λ r, br_state (brr_payload r)) (bt_runs (bt both_lost)) = [BackupCompleted]
  ∧ fw_fs both_lost !! at_path "/srv/site" = None
  ∧ ∃ w', restore backup_root 3 false 1002 plain_restore both_lost
            = (Err (BackupValidation "database restore adapter is not available"), w')
      ∧ is_Some (fw_fs w' !! at_path "/srv/site/index.html")
      ∧ (restore backup_root 3 false 1002 plain_restore w').1
          = Err (BackupValidation "restore conflicts require explicit Owner overwrite confirmation").
Proof.
  split; [vm_compute; reflexivity|]. split; [vm_compute; reflexivity|]. eexists. split; [vm_compute; reflexivity|].
  split; [eexists|]; vm_compute; reflexivity.
Qed.

(** The owner deletes the cron job of a plan; the plan can no longer be deleted. *)
Definition scheduled : FilesWorld :=
  (backup_create_plan (Some (bytes "/srv")) [bytes "/srv"] 3 (mkPlanInput "nightly" [SiteFiles 50] "0 0 * * *" "UTC" 1)
     (mkFilesWorld (world (backup_db no_backups)) backed_tree)).2.
Definition job_of (w : FilesWorld) : Uuid :=
  match bt_plans (bt w) with r :: _ => default 0 (bp_cron_job_id (bpr_payload r)) | [] => 0 end.
Definition plan_of (w : FilesWorld) : Uuid := match bt_plans (bt w) with r :: _ => bpr_id r | [] => 0 end.
Definition jobless : FilesWorld := (on_world (cron_delete 3 false (job_of scheduled)) scheduled).2.
Lemma orphan_plan_stuck_witness :
  length (bt_plans (bt jobless)) = 1%nat
  ∧ is_ok (backup_delete_plan (Some (bytes "/srv")) 3 false (plan_of jobless) jobless).1 = false
  ∧ bt (backup_delete_plan (Some (bytes "/srv")) 3 false (plan_of jobless) jobless).2 = bt jobless.
Proof.
  split; [vm_compute; reflexivity|].
  apply (orphan_plan_stuck (Some (bytes "/srv")) (bytes "/srv") 3 false (plan_of jobless) (job_of scheduled) true jobless);
    [reflexivity| |vm_compute; reflexivity].
  replace (bt_plans (bt jobless)) with (bt_plans (bt scheduled)) by (vm_compute; reflexivity).
  intros r Hr _. vm_compute in Hr. destruct Hr as [<-|[]]. vm_compute. reflexivity.
Defined.
